(* ===== verification/_CoqProject ===== *)
-Q . S2P
Overview.v
Prelude.v
PyStr.v
PyText.v
PyDict.v
PyTime.v
Sha256.v
Json.v
JsonParse.v
PyIso.v
Models.v
SqlTables.v
Lifecycle.v
ProjectPlan.v
Identity.v
Policy.v
Confirmation.v
AuditLedger.v
AuditBuilders.v
KillSwitch.v
Verification.v
SqlRows.v
Rollback.v
ActionRepo.v
SqlStore.v
SqlRefine.v
SqlProps.v
SqlLedger.v
ActionSpec.v
Recovery.v
Capability.v
Contract.v
SqlPlans.v
SqlSwitches.v
Gate.v
Executor.v
RollbackExec.v
Session.v
SqlSessions.v
OwnerAuth.v
Receipts.v
Wire.v
Ipc.v
IpcServer.v
ImageRef.v
ComposeModel.v
CandidateCache.v
Scheduler.v
UpdateModel.v
Registration.v
Health.v
GitPosture.v
UpdateIdentity.v
ServicePlan.v
UpdateApproval.v
ComposeAdapter.v
GitTransaction.v
UpdatePlanner.v
UpdateEngine.v
ExecutorService.v
Restart.v
ServiceState.v
ServiceFlow.v
ServiceRun.v
ServiceBridge.v
ServiceSafety.v
ServiceProps.v
ServiceDecisions.v
RateLimit.v
Transport.v
TransportProps.v
Scenario.v
Witnesses.v
ExecWitnesses.v
UpdateWitnesses.v
ServiceWitnesses.v
RunWitnesses.v
TransportWitnesses.v
SqlWitnesses.v
