(* ===== verification/Overview.v ===== *)
(** * AIPM control plane: a verification development

    ** The program

    AIPM manages services on a host.  Its core is the control plane
    (src/src/aipm/control_plane/), which decides whether a requested change of
    a project plan may happen, and takes an allowed change through owner
    confirmation, snapshot, lease, execution, independent verification and
    recovery, leaving a hash-chained audit trail.  This library models that
    core.  Its parts interact as follows.

    - A request (models.py) is turned into a plan (planner.py).  The policy
      (policy.py) decides on principal, request, plan and current project plan
      (project_plan.py), and an allowing decision carries an action identity
      (identity.py), the digest of everything the action is bound to.
    - The owner confirms the decision through the confirmation service
      (approval.py), which talks to its store by a protocol (contracts.py).
    - The action repository (action_state.py) registers the action under its
      idempotency key and moves it along the lifecycle machine (lifecycle.py):
      snapshot, lease with fencing token, execution against the plan store,
      verification (verification.py), reconciliation and rollback states.  It
      appends audit drafts (audit/builders.py) to the ledger (audit/).
    - The executor (executor.py) carries out a leased action when the final
      gate (gate.py) is open: capability (capabilities_registry.py),
      registration (registration.py), policy, confirmation, snapshot, plan,
      lease and kill switch must all match its contract.
    - Kill switches (kill_switch.py) stop an environment; recovery
      (recovery.py, recovery_sweep.py) handles what a restart finds.
    - The owner authenticates (owner_auth.py) and works in sessions
      (session.py).
    - Updates of real projects run in a second process: the control plane sends
      a request over a Unix socket (executor_ipc.py), the executor fences each
      mutation by a durable receipt (mutation_receipt.py) and drives docker
      (services/compose/execution_adapter.py) or the update engine
      (services/update/engine.py), which plans the update again (planner.py),
      compares its digest with the contract, takes a snapshot, pulls
      (git_transaction.py), rebuilds and verifies.  The handlers that join the
      two processes are composition/executor_update.py.
    - The control-plane service (service.py) composes all of this behind
      sessions: login, authorize, confirm, snapshot, execute, reconcile,
      rollback, the dry-run bridge (bridge/) and the update plane, which
      approves a reviewed plan digest and, after its own verified execution,
      hands the binding of the action to the update runtime.
    - The operator transport (transport.py) offers the service over HTTP:
      cookies, CSRF tokens, rate limits, bounded bodies.
    - In production the repository, plans, confirmations, kill switches,
      sessions, evidence and the audit ledger live in one SQLite file
      (storage/schema.py, storage/sqlite_store.py, audit/repository.py) that
      several processes open: reads, then a guarded write in one transaction
      together with its audit events.
    - Projects are registered (registration.py, registration_service.py) after
      their directory, owner, permissions and Compose files were checked.
    - What to update is decided before: image references are resolved against
      registries under budgets and a cache (services/compose/), a service or
      project plan with a canonical digest is made (services/compose/planner.py,
      services/update/plan_identity.py), and an operator approves that digest
      once (services/update/approval.py).

    ** The files

    - [Prelude]: the exceptions of the code, [result] and the state-and-error
      monad [M] with its notations, the tactics [inv_ok], [split_ok],
      [solve_atomic] and [keeps_step], and the notions [reads], [atomic] and
      [keeps] with their hint databases: a computation that only reads, that
      changes nothing when it raises, that keeps a relation between states.
    - [PyStr], [PyDict], [PyTime], [Sha256], [Json]: what the code uses of
      Python.  Strings of ASCII characters with the regular expressions of the
      code as Boolean functions; insertion-ordered dictionaries; datetimes as
      microseconds from 0001-01-01 with an injective [isoformat]; SHA-256,
      executable and checked on test vectors; [json.dumps] with sorted keys,
      whose output is injective up to key order ([dumps_inj]).
    - [Models] (models.py): enumerations and records with their validating
      constructors.  [Lifecycle] (lifecycle.py): the transition table, [advance]
      and the runs of the machine.  [ProjectPlan] (project_plan.py).
      [Identity] (identity.py, planner.py).  [Policy] (policy.py).
    - [Confirmation] (approval.py): the service over any store in the class
      [ConfStore] with [ConfStoreLaws]; the in-memory store and, in
      [ActionSpec], the repository are instances.
    - [AuditLedger] (audit/sanitize.py, models.py, canonical.py, chain.py,
      repository.py) and [AuditBuilders] (audit/builders.py).
    - [KillSwitch] (kill_switch.py), [Verification] (verification.py, and the
      lease and snapshot records of storage/sqlite_store.py).
    - [ActionRepo] (action_state.py): [repo] is [InMemoryActionRepository]
      with one dictionary per attribute; every method is a computation in
      [M repo]; [history] is any sequence of calls with their answers.
      [ActionSpec] holds the specifications of single methods, [Recovery]
      recovery.py and recovery_sweep.py.
    - [Capability] (capabilities_registry.py); [Contract]: execution contracts
      (executor.py), service evidence (models/compose_plan.py) and project
      registrations (registration.py); [Gate] (gate.py): one definition per
      step and the specification [gate_open]; [Executor] (executor.py):
      execute and reconcile over [repo].
    - [Rollback] (rollback.py) plans the inverse of a failed update from the
      payload of a snapshot, which [PyIso] and [JsonParse] read back;
      [RollbackExec] is execute_rollback of executor.py.
    - [Session] (session.py) and [OwnerAuth] (owner_auth.py): the stores with
      their histories.
    - The database: [PyIso] (stored timestamps are read back and order like the
      instants they name); [SqlTables]: a [database] is its tables, a table the list of its
      rows under the keys and constraints of schema.py ([SqlTable]), with the
      statements the code uses and [transaction]; [SqlRows]: the row of each
      value and the fail-closed readers of sqlite_store.py.  [SqlStore] is
      [SQLiteActionRepository], [SqlLedger] the [SQLiteAuditLedger], [SqlPlans]
      the [SQLiteProjectPlanStore], [SqlSessions] the [DurableSessionStore],
      [SqlSwitches] the kill-switch, lease, snapshot and verification stores.
      The [circumstances] of a call are what other connections commit in each
      gap between two of its statements outside a transaction ([gap]), whether
      [BEGIN IMMEDIATE] is refused, and the clock.  Theorems about interleavings
      take those changes to be the work of such calls themselves ([connections],
      [session_histories], [plan_histories], [registration_histories]).
      [SqlRefine] and [SqlProps] relate the repository to the lifecycle machine,
      over any audit sink in the class [EvidenceSink]; the end of [SqlSwitches] is
      about arbitrary contents of the tables.
    - [Registration]: registration_service.py over an abstract host, and the
      [SQLiteProjectRegistrationStore].
    - [JsonParse]: [json.loads], which reads back what [json.dumps] writes.
      [Receipts] (mutation_receipt.py); [Wire] (frames over a stream that
      arrives in pieces), [Ipc] (the messages and the scope of services) and
      [IpcServer] (server and client), all of executor_ipc.py.
    - [ImageRef], [ComposeModel], [CandidateCache], [Scheduler],
      [ServicePlan], [ComposeAdapter]: image_ref.py, the values of
      models/compose_*.py, cache.py, budget.py, scheduler.py, planner.py and
      execution_adapter.py of services/compose/.
    - [UpdateModel], [UpdateIdentity], [UpdateApproval]: the values of the
      update services, plan_identity.py and approval.py of services/update/.
      [Health]: engines/health and the verifier of services/update/.
      [GitPosture]: services/git/.  [GitTransaction], [UpdatePlanner] and
      [UpdateEngine]: git_transaction.py, planner.py, engine.py,
      execution_contract.py and runtime_adapter.py of services/update/, over
      records of operations on an abstract host.
    - [ExecutorService] (composition/executor_update.py): the handlers behind
      the executor's socket over receipts, adapter and engine, and what a whole
      run of the server does.  [Restart] (systemd_provider.py,
      standalone_executor.py): the restart of an allow-listed unit behind the
      same receipts.
    - [ServiceState], [ServiceFlow], [ServiceRun], [ServiceBridge] (service.py,
      bridge/__init__.py): the state of OwnerControlPlaneService is the record
      [service], its collaborators outside the plane are the [ports] of a call
      and its clock readings and random texts the [call_env]; the methods are
      computations that run the components on their parts of the state.
      [ServiceSafety]: every call but the one that runs an update takes safe
      steps of the repository and leaves the world behind the runtime alone.
      [ServiceProps]: histories of calls.  [ServiceDecisions]: what authorize
      leaves behind.
    - [RateLimit], [Transport], [TransportProps] (transport.py): one [endpoint]
      per decorated handler; [handle] runs it on a request.  Matching paths and
      parsing bodies is the framework's work, so a handler starts from its path
      parameters and the decoded body.
    - [Scenario] evaluates one action from request to verified success;
      [Witnesses], [ExecWitnesses], [UpdateWitnesses], [ServiceWitnesses],
      [RunWitnesses], [TransportWitnesses] and [SqlWitnesses] apply the theorems at concrete values.

    ** What the theorems show

    - Safety of execution: nothing executes without the right confirmation and
      the states before it ([no_execution_without_confirmation]); each phase
      happens at most once and each version is consumed at most once
      ([phases_at_most_once], [action_versions_used_once]); a confirmation is
      consumed at most once ([confirmation_single_use]).
    - The gate and the executor: the gate allows exactly the worlds of its
      specification ([gate_allows_iff]); an execution that returns did exactly
      the authorized update ([execute_sound]); nothing is ever resumed
      ([execute_never_resumes]) and an unknown outcome is never guessed
      ([reconcile_spec]).
    - Refinement: the repository moves actions only by lifecycle steps and
      never rebinds what it bound ([repository_refines_lifecycle],
      [idempotency_key_binds]).
    - The database: a call that is accepted moved the action stored when its
      transaction began by one lifecycle step, with its evidence
      ([accepted_call_moves]); a refused call wrote nothing
      ([refused_call_writes_nothing]); any interleaving of connections refines
      the lifecycle machine ([interleavings_refine_lifecycle]); a version and a
      confirmation are used once ([one_call_wins]); what was registered is read
      back ([registration_reads_back]).  Plans lose no update
      ([durable_update_not_lost], [plans_follow_updates]); ended sessions stay
      ended ([ended_session_stays_dead], [durable_session_lookup_sound]); ledger
      and switches are the in-memory ones ([durable_ledger_refines],
      [durable_switches_refine]); reads of any contents are typed
      ([reads_fail_closed]).
    - Registrations: one active per project and none rewritten
      ([registrations_sound]); one the service makes is contained in the allowed
      namespace and its digest verifies ([created_registration_contained]).
    - Binding: digests determine the content they were computed from, up to an
      explicit SHA-256 collision (identities, plans, snapshots, audit history,
      verified plans).  Collision freedom is never assumed: the theorems
      return the two colliding texts.
    - The executor's channel: a request arrives as it was sent, whatever the
      pieces, and only an acceptable one of an authorised peer is run
      ([ipc_exchange]); what ends the accept loop ([accept_loop_ends]); a
      verified service update ran its commands and saw its services running, at
      the target digest where the observation carries a running digest
      ([verified_success_means]; the observations of this repository carry none,
      [digest_unseen]); no pair of action and fencing token is ever
      executed twice, and answers agree with the durable receipts
      ([mutations_happen_once], [handler_settles]; for restarts
      [restarts_happen_once], [restart_settles]).
    - The update engine: plans are consistent ([plan_consistent]), the host is
      touched only under the bound, approved plan ([mutation_needs_bound_plan]),
      success means a snapshot, a committed git transaction, a rebuilt runtime
      and acceptable health ([update_success_means]), and the stash entries of
      the operator survive ([operator_stashes_kept]) but for one case: git's
      first report of them failed and nothing was stashed
      ([degraded_report_drops_operator_stash]).
    - The service: without a live session a call changes nothing
      ([no_session_no_effect]); only an allowed decision enters the books, with
      one action of its identity ([authorize_registers]); the runtime is called
      at most once for an action, after a verified execution by the same call,
      with the binding of what was confirmed ([updates_run_once],
      [update_runs_only_verified]).
    - The transport: only login and requests with a live session and its CSRF
      token change more than sessions ([request_effects]); the runtime is
      reached by one route, for an action of the project in the path
      ([update_route]); the rate limit holds ([rate_limit_holds]).
    - Owners: sessions and guesses ([session_lookup_sound],
      [guessing_is_bounded]).
    - Functional behaviour of the operations on every branch, errors included
      (policy, plan updates, confirmation steps, plan mutation, leases,
      recovery, kill switches, verification).
    - Bounds and termination: runs of the machine are bounded, the ledger and
      the stores respect their limits, the sweep answers every non-terminal
      action up to its limit ([sweep_safe_total]).
    - Behaviour worth knowing: where the code does not do what its comments
      say (for instance [expired_lease_not_recovered], [unknown_outcome_reset],
      [engage_refused_for_secret_reason]), or two connections meet
      ([engagement_lost], [revocation_undone], [fallback_update_spoils_plan]).

    ** Modelling decisions

    A frozen dataclass is a record; its [__post_init__] is a function to
    [result] that returns the normalised record or the exception raised.
    Exceptions are the values of [exn]; messages are not modelled.  Runtime
    type checks ([isinstance]) hold by typing.  The clock and random
    identifiers are arguments of the operations that use them.  A method that
    mutates an object is a state-passing function that keeps the writes made
    before an exception, so partial effects are visible.  Text is ASCII, where
    NFC is the identity and casefold is lower case.  Recursion is structural,
    with three exceptions on fuel: the depth-first searches of [ServicePlan] (the
    number of nodes is enough), [json.loads] (more than twice the length of the
    text, [pvalue_fuel]) and [_recv_exact] (the size asked for,
    [recv_loop_spec]).  A system outside the program (docker, git, the file
    system, a registry) is a parameter, usually a computation on a store of its
    own that may raise.

    ** Not modelled

    The creation and migration of the database file and its permissions,
    process and systemd glue, Argon2 itself, the registry client, the YAML
    parser of compose files, providers and mappers over external programs, the
    dashboard, TUI and CLI: input and output of other systems.  The advisor,
    events, incidents, notifications and telemetry report on the host and feed
    no decision of the control plane. *)

From stdpp Require Import base.
