(* ===== verification/Prelude.v ===== *)
(** * Prelude: errors, the state-and-exception monad, and shared automation

    Python code of the control plane communicates failure by raising typed
    exceptions and keeps its state in dictionaries owned by service objects.
    This file fixes how both are modelled:

    - [exn] is the closed set of exception classes the modelled code raises
      (messages are dropped, the class and, for [ControlPlaneError], its
      [PlanningErrorCode] are kept; [CapabilityPolicyError] keeps its message,
      which the gate reads, [ExecutionRefused] its reason code and
      [HTTPException] its status and error code);
    - [result A] is a value or a raised exception;
    - [M S A] is a computation over a mutable store [S].  A raised exception
      does {e not} roll the store back: the state reached when the exception
      was raised is kept, as in Python.  Atomicity is therefore always a
      theorem about the code and never an artefact of the model. *)

From stdpp Require Import base gmap strings list fin_maps sorting.
From Stdlib Require Import ZArith Lia.

Declare Scope aipm_scope.
Delimit Scope aipm_scope with aipm.

(** ** Exceptions *)

(** [PlanningErrorCode] of control_plane/models.py. *)
Inductive PlanningErrorCode :=
  | INVALID_REQUEST
  | UNSUPPORTED_OPERATION
  | UNAVAILABLE_TARGET
  | UNAVAILABLE_EVIDENCE
  | STALE_EVIDENCE
  | INVALID_PLAN
  | EXPIRED_PLAN
  | CONFIRMATION_MISMATCH
  | SESSION_INVALID
  | AUTHENTICATION_REJECTED
  | IDEMPOTENCY_CONFLICT
  | STATE_CONFLICT
  | STORAGE_CORRUPT.

#[export] Instance PlanningErrorCode_eq_dec : EqDecision PlanningErrorCode.
Proof. solve_decision. Defined.

(** The exception classes raised by the modelled modules. *)
Inductive exn :=
  | ControlPlaneError (code : PlanningErrorCode)
  | LifecycleError
  | IdentityError
  | ProjectPlanError
  | PlanConflict
  | KillSwitchError
  | AuditEventError
  | AuditChainError
  | RecoveryError
  | RollbackError
  | ReceiptError
  | CapabilityPolicyError (message : string)
  | ExecutionRefused (reason_code : string)
  | RegistrationError
  | BridgeError
  | UpdateApprovalError (reason : string)
  | UpdateError
  | GitTransactionError
  | RestoreError
  | ProviderError
  | AdvisorValidationError
  | NormalizationError
  | CursorError
  | JSONDecodeError
  | ExecutorIPCError
  | EnvelopeError
  | HTTPException (status : Z) (code : string)
  | SystemdRestartError
  | ComposeExecutionError (code : string)
  | StructError
  | SqliteError
  | IntegrityError
  | OSError
  | TimeoutError
  | OverflowError
  | IndexError
  | ValueError
  | TypeError
  | KeyError
  | AttributeError.

(** The classes derived from [ValueError]. *)
Definition is_value_error (e : exn) : bool :=
  match e with
  | TypeError | KeyError | AttributeError | IndexError | OSError | TimeoutError | OverflowError | RegistrationError
  | ExecutionRefused _ | HTTPException _ _ | UpdateApprovalError _ | UpdateError | GitTransactionError | RestoreError
  | ProviderError | ComposeExecutionError _ | StructError | SqliteError | IntegrityError => false
  | _ => true
  end.

#[export] Instance exn_eq_dec : EqDecision exn.
Proof. solve_decision. Defined.

Inductive result (A : Type) :=
  | Ok (a : A)
  | Raise (e : exn).
Arguments Ok {A} a.
Arguments Raise {A} e.

#[export] Instance result_eq_dec {A} `{EqDecision A} : EqDecision (result A).
Proof. solve_decision. Defined.

(** [is_ok r]: the call returned. *)
Definition is_ok {A} (r : result A) : bool :=
  match r with Ok _ => true | Raise _ => false end.

Definition rbind {A B} (r : result A) (k : A → result B) : result B :=
  match r with Ok a => k a | Raise e => Raise e end.

(** [raise_unless b e]: [if not b: raise e]. *)
Definition raise_unless (b : bool) (e : exn) : result unit :=
  if b then Ok () else Raise e.

Notation "'let*' x ':=' c 'in' k" := (rbind c (λ x, k))
  (at level 10, x name, c at level 99, k at level 200) : aipm_scope.
Notation "'require' b 'else_raise' e ';;' k" := (rbind (raise_unless b e) (λ _, k))
  (at level 10, b at level 100, e at level 99, k at level 200) : aipm_scope.

(** ** Stateful computations *)

Definition M (S A : Type) : Type := S → S * result A.

Definition retM {S A} (a : A) : M S A := λ s, (s, Ok a).
Definition raiseM {S A} (e : exn) : M S A := λ s, (s, Raise e).
Definition bindM {S A B} (m : M S A) (k : A → M S B) : M S B :=
  λ s, match m s with
       | (s', Ok a) => k a s'
       | (s', Raise e) => (s', Raise e)
       end.
Definition getM {S} : M S S := λ s, (s, Ok s).
Definition putM {S} (s' : S) : M S unit := λ _, (s', Ok ()).
Definition modifyM {S} (f : S → S) : M S unit := λ s, (f s, Ok ()).
(** Run a pure fallible step. *)
Definition liftM {S A} (r : result A) : M S A := λ s, (s, r).
(** [try: m except E: handler] for the exceptions [h] answers. *)
Definition catchM {S A} (m : M S A) (h : exn → option (M S A)) : M S A :=
  λ s, match m s with
       | (s', Raise e) =>
           match h e with Some m' => m' s' | None => (s', Raise e) end
       | r => r
       end.

Notation "'do' x '<-' c ';;' k" := (bindM c (λ x, k))
  (at level 10, x name, c at level 99, k at level 200) : aipm_scope.
Notation "'do_' c ';;' k" := (bindM c (λ _, k))
  (at level 10, c at level 99, k at level 200) : aipm_scope.
Notation "'assert_' b 'else_raise' e ';;' k" := (bindM (liftM (raise_unless b e)) (λ _, k))
  (at level 10, b at level 100, e at level 99, k at level 200) : aipm_scope.

(** ** Laws and automation *)

Lemma rbind_Ok {A B} (r : result A) (k : A → result B) b :
  rbind r k = Ok b ↔ ∃ a, r = Ok a ∧ k a = Ok b.
Proof. destruct r; simpl; naive_solver. Qed.

Lemma raise_unless_Ok b e u : raise_unless b e = Ok u ↔ b = true.
Proof. destruct b, u; simpl; naive_solver. Qed.

Lemma raise_unless_Raise b e e' : raise_unless b e = Raise e' ↔ b = false ∧ e = e'.
Proof. destruct b; simpl; naive_solver. Qed.

Lemma bindM_Ok {S A B} (m : M S A) (k : A → M S B) s s' b :
  bindM m k s = (s', Ok b) ↔ ∃ s1 a, m s = (s1, Ok a) ∧ k a s1 = (s', Ok b).
Proof. unfold bindM. destruct (m s) as [s1 [a|e]]; naive_solver. Qed.

Lemma bindM_assoc {S A B C} (m : M S A) (k : A → M S B) (h : B → M S C) s :
  bindM (bindM m k) h s = bindM m (λ a, bindM (k a) h) s.
Proof. unfold bindM. by destruct (m s) as [s1 [a|e]]. Qed.

Lemma liftM_raise_unless_Ok {S} b e (s s' : S) u :
  liftM (raise_unless b e) s = (s', Ok u) ↔ b = true ∧ s' = s.
Proof. unfold liftM. destruct b, u; simpl; naive_solver. Qed.

(** [inv_ok] decomposes every hypothesis saying that a composite call
    returned into facts about its steps: guards become boolean equations,
    binds become their parts. *)
Ltac inv_ok :=
  repeat match goal with
    | H : rbind _ _ = Ok _ |- _ => apply rbind_Ok in H as (? & ? & H)
    | H : raise_unless _ _ = Ok _ |- _ => apply raise_unless_Ok in H
    | H : bindM _ _ _ = (_, Ok _) |- _ => apply bindM_Ok in H as (? & ? & ? & H)
    | H : liftM (raise_unless _ _) _ = (_, Ok _) |- _ => apply liftM_raise_unless_Ok in H as [? ->]
    | H : liftM _ _ = (_, Ok _) |- _ => unfold liftM in H
    | H : retM _ _ = (_, Ok _) |- _ => unfold retM in H
    | H : getM _ = (_, Ok _) |- _ => unfold getM in H
    | H : putM _ _ = (_, Ok _) |- _ => unfold putM in H
    | H : modifyM _ _ = (_, Ok _) |- _ => unfold modifyM in H
    | H : raiseM _ _ = (_, Ok _) |- _ => discriminate H
    | H : Raise _ = Ok _ |- _ => discriminate H
    | H : (_, Raise _) = (_, Ok _) |- _ => discriminate H
    | H : Ok _ = Ok _ |- _ => injection H as H
    | H : (_, Ok _) = (_, Ok _) |- _ => injection H as H
    | H : (_, _) = (_, _) |- _ => injection H as H
    | H : (_ && _) = true |- _ => apply andb_true_iff in H as [? ?]
    | H : negb _ = true |- _ => apply negb_true_iff in H
    | H : bool_decide _ = true |- _ => apply bool_decide_eq_true in H
    | H : bool_decide _ = false |- _ => apply bool_decide_eq_false in H
    | H : ?x = ?y |- _ => is_var x; subst x
    | H : ?x = ?y |- _ => is_var y; subst y
    | u : unit |- _ => destruct u
    end.

(** [split_ok] additionally splits the matches and conditionals that a
    returning hypothesis went through. *)
Ltac split_ok :=
  repeat (inv_ok;
    match goal with
    | H : context [match ?x with _ => _ end] |- _ =>
        match type of H with
        | _ = (_, Ok _) => destruct x eqn:?; try discriminate H
        | _ = Ok _ => destruct x eqn:?; try discriminate H
        end
    end); inv_ok; simplify_eq.

(** [try: … except Exception as exc]: the value or the exception. *)
Definition attempt {S A} (m : M S A) : M S (A + exn) := λ w,
  match m w with
  | (w', Ok a) => (w', Ok (inl a))
  | (w', Raise e) => (w', Ok (inr e))
  end.

(** ** Read-only and atomic computations

    [reads m]: [m] never changes the store.  [atomic m]: when [m] raises, the
    store is the one it started from.  Neither is built into the monad. *)

Definition reads {S A} (m : M S A) : Prop := ∀ s, (m s).1 = s.
Definition atomic {S A} (m : M S A) : Prop := ∀ s s' e, m s = (s', Raise e) → s' = s.

Section atomic.
Context {S : Type}.

Lemma reads_ret {A} (a : A) : reads (S:=S) (retM a).
Proof. done. Qed.
Lemma reads_raise {A} e : reads (S:=S) (A:=A) (raiseM e).
Proof. done. Qed.
Lemma reads_get : reads (S:=S) getM.
Proof. done. Qed.
Lemma reads_lift {A} (r : result A) : reads (S:=S) (liftM r).
Proof. done. Qed.
Lemma reads_bind {A B} (m : M S A) (k : A → M S B) :
  reads m → (∀ a, reads (k a)) → reads (bindM m k).
Proof.
  intros Hm Hk s. unfold bindM. specialize (Hm s). destruct (m s) as [s1 [a|e]]; cbn in *; [|done].
  subst s1. apply Hk.
Qed.

Lemma reads_attempt {A} (m : M S A) : reads m → reads (attempt m).
Proof. intros Hm s. unfold attempt. specialize (Hm s). by destruct (m s) as [s1 [a|e]]. Qed.

Lemma reads_atomic {A} (m : M S A) : reads m → atomic m.
Proof. intros Hm s s' e H. specialize (Hm s). by rewrite H in Hm. Qed.
Lemma atomic_bind {A B} (m : M S A) (k : A → M S B) :
  reads m → (∀ a, atomic (k a)) → atomic (bindM m k).
Proof.
  intros Hm Hk s s' e. unfold bindM. specialize (Hm s). destruct (m s) as [s1 [a|e1]]; cbn in *.
  - subst s1. apply Hk.
  - intros [= <- _]. done.
Qed.
Lemma atomic_then_ret {A B} (m : M S A) (f : A → B) :
  atomic m → atomic (bindM m (λ a, retM (f a))).
Proof.
  intros Hm s s' e. unfold bindM. destruct (m s) as [s1 [a|e1]] eqn:E; [done|].
  intros [= <- _]. by eapply Hm.
Qed.
Lemma atomic_modify (f : S → S) : atomic (modifyM f).
Proof. done. Qed.
Lemma reads_Ok {A} (m : M S A) s s' r : reads m → m s = (s', r) → s' = s.
Proof. intros Hm H. specialize (Hm s). by rewrite H in Hm. Qed.
End atomic.

Create HintDb atomicity.
#[export] Hint Resolve reads_ret reads_raise reads_get reads_lift reads_attempt atomic_modify : atomicity.

(** Decides [reads]/[atomic] of straight-line code with branches. *)
Ltac solve_atomic :=
  repeat first
    [ progress intros
    | solve [eauto with atomicity]
    | apply reads_bind
    | apply atomic_bind; [solve [solve_atomic]|]
    | apply atomic_then_ret
    | match goal with
      | |- context [match ?x with _ => _ end] => destruct x
      end
    | solve [apply reads_atomic; solve_atomic] ].

(** ** Computations that respect a preorder on stores

    [keeps_from R s m]: whether [m] returns or raises, the store it reaches
    from [s] is related to [s].  With [R] a preorder this composes, so an
    operation keeps [R] when each of its writes does. *)

Definition keeps_from {S A} (R : S → S → Prop) (s : S) (m : M S A) : Prop :=
  ∀ s' r, m s = (s', r) → R s s'.
Definition keeps {S A} (R : S → S → Prop) (m : M S A) : Prop := ∀ s, keeps_from R s m.

Section keeps.
Context {S : Type} (R : S → S → Prop) `{!PreOrder R}.

Lemma keeps_from_reads {A} s (m : M S A) : reads m → keeps_from R s m.
Proof. intros Hm s' r H. by rewrite (reads_Ok _ _ _ _ Hm H). Qed.
Lemma keeps_from_modify s (f : S → S) : R s (f s) → keeps_from R s (modifyM f).
Proof. by intros H s' r [= <- _]. Qed.
Lemma keeps_from_bind {A B} s (m : M S A) (k : A → M S B) :
  keeps_from R s m → (∀ a s1, m s = (s1, Ok a) → R s s1 → keeps_from R s1 (k a)) →
  keeps_from R s (bindM m k).
Proof.
  intros Hm Hk s' r. unfold bindM. destruct (m s) as [s1 [a|e]] eqn:E.
  - intros H. specialize (Hm _ _ E). etrans; [exact Hm|]. by eapply Hk.
  - intros [= <- _]. by eapply Hm.
Qed.
Lemma keeps_from_all {A} s (m : M S A) : keeps R m → keeps_from R s m.
Proof. intros H. apply H. Qed.
End keeps.

(** Walks through a computation, leaving the writes. *)
Ltac keeps_step :=
  first
    [ apply keeps_from_bind; [exact _| |intros]
    | apply keeps_from_modify
    | apply keeps_from_reads; [exact _|solve [solve_atomic]]
    | match goal with |- keeps_from _ _ (match ?x with _ => _ end) => destruct x eqn:? end ].
