(* ===== verification/PyStr.v ===== *)
(** * PyStr: the Python string operations the control plane uses

    A Python [str] is modelled as a [string] whose characters are read as code
    points.  The model is exact for ASCII text: on it NFC normalisation is the
    identity, [casefold] lowers A-Z, and UTF-8 encoding is one byte a character.
    Regular expressions of the source are written out as character-class
    tests; every pattern of the source is used through [fullmatch]. *)

From S2P Require Import Prelude.
From stdpp Require Import base strings list.
From Stdlib Require Import Ascii String ZArith Lia.

Local Open Scope Z_scope.

(** ** Characters *)

Definition ord (c : ascii) : Z := Z.of_nat (nat_of_ascii c).

Definition between (lo hi : Z) (c : ascii) : bool := (lo <=? ord c) && (ord c <=? hi).
Definition is_upper (c : ascii) : bool := between 65 90 c.
Definition is_lower (c : ascii) : bool := between 97 122 c.
Definition is_digit (c : ascii) : bool := between 48 57 c.
Definition is_alnum (c : ascii) : bool := is_upper c || is_lower c || is_digit c.
(** [ord(char) < 32 or ord(char) == 127] *)
Definition is_control (c : ascii) : bool := (ord c <? 32) || (ord c =? 127).
(** ASCII characters [str.strip] removes. *)
Definition is_space (c : ascii) : bool := between 9 13 c || between 28 32 c.
Definition is_hex (c : ascii) : bool := is_digit c || between 97 102 c.
Definition one_of (s : string) (c : ascii) : bool := bool_decide (c ∈ list_ascii_of_string s).

Definition lower_char (c : ascii) : ascii :=
  if is_upper c then ascii_of_nat (nat_of_ascii c + 32) else c.

(** ** Strings *)

Definition slen (s : string) : Z := Z.of_nat (String.length s).

Fixpoint str_all (p : ascii → bool) (s : string) : bool :=
  match s with
  | EmptyString => true
  | String c s' => p c && str_all p s'
  end.
Definition str_any (p : ascii → bool) (s : string) : bool := negb (str_all (λ c, negb (p c)) s).

Fixpoint casefold (s : string) : string :=
  match s with
  | EmptyString => EmptyString
  | String c s' => String (lower_char c) (casefold s')
  end.

(** [unicodedata.normalize("NFC", s)] on ASCII text. *)
Definition nfc (s : string) : string := s.

(** [needle in s] *)
Fixpoint str_in (needle s : string) : bool :=
  String.prefix needle s ||
  match s with
  | EmptyString => false
  | String _ s' => str_in needle s'
  end.

Fixpoint lstrip (s : string) : string :=
  match s with
  | EmptyString => EmptyString
  | String c s' => if is_space c then lstrip s' else s
  end.
Fixpoint rstrip (s : string) : string :=
  match s with
  | EmptyString => EmptyString
  | String c s' =>
      match rstrip s' with
      | EmptyString => if is_space c then EmptyString else String c EmptyString
      | r => String c r
      end
  end.
Definition strip (s : string) : string := rstrip (lstrip s).

(** [s.split(sep)] for a one-character separator. *)
Fixpoint split_on (sep : ascii) (s : string) : list string :=
  match s with
  | EmptyString => [EmptyString]
  | String c s' =>
      if Ascii.eqb c sep then EmptyString :: split_on sep s'
      else match split_on sep s' with
           | [] => [String c EmptyString]
           | w :: ws => String c w :: ws
           end
  end.

Definition str_eqb (a b : string) : bool := bool_decide (a = b).
Definition str_nonempty (s : string) : bool := negb (str_eqb s "").

Lemma str_eqb_true a b : str_eqb a b = true ↔ a = b.
Proof. apply bool_decide_eq_true. Qed.
Lemma str_eqb_refl a : str_eqb a a = true.
Proof. by apply str_eqb_true. Qed.
Lemma str_nonempty_true s : str_nonempty s = true ↔ s ≠ EmptyString.
Proof. unfold str_nonempty, str_eqb. by rewrite negb_true_iff, bool_decide_eq_false. Qed.

(** Slicing [s[:n]]. *)
Fixpoint str_take (n : nat) (s : string) : string :=
  match n, s with
  | S n', String c s' => String c (str_take n' s')
  | _, _ => EmptyString
  end.

(** ** The patterns of the source *)

(** A head character followed by at most [n] tail characters. *)
Definition headed (h t : ascii → bool) (n : Z) (s : string) : bool :=
  match s with
  | EmptyString => false
  | String c s' => h c && str_all t s' && (slen s' <=? n)
  end.

(** [^[A-Za-z0-9][A-Za-z0-9_.:@-]{0,127}$] *)
Definition SAFE_ID : string → bool :=
  headed is_alnum (λ c, is_alnum c || one_of "_.:@-" c) 127.
(** [^[a-z][a-z0-9_.-]{0,63}$] *)
Definition SAFE_KEY : string → bool :=
  headed is_lower (λ c, is_lower c || is_digit c || one_of "_.-" c) 63.
(** [^[A-Za-z0-9][A-Za-z0-9_.:-]{0,127}$] *)
Definition SAFE_TARGET : string → bool :=
  headed is_alnum (λ c, is_alnum c || one_of "_.:-" c) 127.
(** [^[^\x00-\x1f\x7f]{1,128}$] *)
Definition SAFE_VALUE (s : string) : bool :=
  str_all (λ c, negb (is_control c)) s && (1 <=? slen s) && (slen s <=? 128).
(** [^[0-9a-f]{n}$] *)
Definition HEX (n : Z) (s : string) : bool := str_all is_hex s && (slen s =? n).

(** ** Lemmas *)

Lemma app_cons c a b : (String c a ++ b)%string = String c (a ++ b)%string.
Proof. reflexivity. Qed.
Lemma app_empty b : ("" ++ b)%string = b.
Proof. reflexivity. Qed.
#[export] Hint Rewrite app_cons app_empty : pystr.
Lemma app_nil_str a : (a ++ "")%string = a.
Proof. induction a as [|c a IH]; [done|]. by rewrite app_cons, IH. Qed.
Lemma length_app_str a b : String.length (a ++ b) = (String.length a + String.length b)%nat.
Proof. induction a as [|c a IH]; [done|]. rewrite app_cons. cbn. by rewrite IH. Qed.

Lemma app_assoc_str (a b c : string) : ((a ++ b) ++ c = a ++ (b ++ c))%string.
Proof. induction a as [|x a IH]; [done|]. rewrite !app_cons. by rewrite IH. Qed.

Lemma str_all_app p a b : str_all p (a ++ b)%string = str_all p a && str_all p b.
Proof.
  induction a as [|c a IH]; [done|]. simpl.
  rewrite IH. by rewrite andb_assoc.
Qed.

Lemma str_all_impl (p q : ascii → bool) s :
  (∀ c, p c = true → q c = true) → str_all p s = true → str_all q s = true.
Proof.
  intros Hpq. induction s as [|c s IH]; [done|]. cbn.
  rewrite !andb_true_iff. naive_solver.
Qed.

Lemma slen_app a b : slen (a ++ b) = slen a + slen b.
Proof.
  unfold slen. rewrite <- Nat2Z.inj_add. f_equal. induction a as [|c a IH]; [done|].
  simpl. by rewrite IH.
Qed.

Lemma slen_nonneg s : 0 ≤ slen s.
Proof. unfold slen. lia. Qed.

Lemma str_take_app n a b :
  String.length a = n → str_take n (a ++ b) = a.
Proof. revert a. induction n; intros [|c a]; intros; simplify_eq/=; f_equal; auto. Qed.

Lemma str_take_length n s : (String.length (str_take n s) ≤ n)%nat.
Proof. revert s. induction n as [|n IH]; intros [|c s]; simpl; [lia..|]. specialize (IH s). lia. Qed.

Lemma str_all_take p n s : str_all p s = true → str_all p (str_take n s) = true.
Proof.
  revert s. induction n as [|n IH]; intros [|c s]; cbn; try done.
  rewrite !andb_true_iff. intros [? ?]. auto.
Qed.

(** A safe identifier is non-empty, bounded, and free of control characters:
    the checks after the pattern test in [_stage2_id] and [_bounded_id] never
    add anything. *)
Lemma headed_len h t n s : headed h t n s = true → 1 ≤ slen s ≤ n + 1.
Proof.
  destruct s as [|c s]; cbn; [done|]. rewrite !andb_true_iff, Z.leb_le.
  intros [_ H]. unfold slen in *. simpl. lia.
Qed.

Lemma headed_all h t n s :
  (∀ c, h c = true → t c = true) → headed h t n s = true → str_all t s = true.
Proof.
  intros Hht. destruct s as [|c s]; cbn; [done|]. rewrite !andb_true_iff. naive_solver.
Qed.

Lemma one_of_In s c : one_of s c = true → c ∈ list_ascii_of_string s.
Proof. apply bool_decide_eq_true. Qed.

Lemma hex_no_control s : str_all is_hex s = true → str_any is_control s = false.
Proof.
  intros H. unfold str_any. rewrite negb_false_iff. revert H. apply str_all_impl.
  intros c. unfold is_hex, is_control, is_digit, between.
  destruct (Z.leb_spec 48 (ord c)), (Z.leb_spec (ord c) 57), (Z.leb_spec 97 (ord c)),
    (Z.leb_spec (ord c) 102), (Z.ltb_spec (ord c) 32), (Z.eqb_spec (ord c) 127); cbn; lia || done.
Qed.

Lemma HEX_SAFE_ID n s : 1 ≤ n ≤ 128 → HEX n s = true → SAFE_ID s = true.
Proof.
  unfold HEX, SAFE_ID. rewrite andb_true_iff, Z.eqb_eq. intros Hn [Ha Hl].
  assert (Hi : ∀ c, is_hex c = true → is_alnum c = true).
  { intros c. unfold is_hex, is_alnum, is_lower, is_digit, is_upper, between.
    destruct (Z.leb_spec 48 (ord c)), (Z.leb_spec (ord c) 57), (Z.leb_spec 97 (ord c)),
      (Z.leb_spec (ord c) 102), (Z.leb_spec (ord c) 122), (Z.leb_spec 65 (ord c)),
      (Z.leb_spec (ord c) 90); cbn; lia || done. }
  destruct s as [|c s]; [unfold slen in *; simpl in *; lia|].
  simpl in *. rewrite andb_true_iff in Ha. destruct Ha as [Hc Hs].
  rewrite (Hi _ Hc). simpl. rewrite andb_true_iff, Z.leb_le. split.
  - revert Hs. apply str_all_impl. intros x Hx. by rewrite (Hi _ Hx).
  - unfold slen in *. simpl in Hl. lia.
Qed.
