(* ===== verification/PyText.v ===== *)
(** * PyText: searching, splitting and ordering of Python strings

    The string methods the compose and update services use beyond those of
    [PyStr]: [find]/[rfind] of a character, [partition] and [rpartition] at a
    character, [startswith]/[endswith], [lower], [sorted] with repetitions and
    de-duplication in order of first appearance. *)

From S2P Require Import Prelude PyStr.
From stdpp Require Import base strings sorting list.
From Stdlib Require Import Ascii String ZArith Lia.

Local Open Scope string_scope.

(** ** Characters of a string *)

Definition has_char (c : ascii) (s : string) : bool := str_any (Ascii.eqb c) s.

(** [s.lower()] of ASCII text. *)
Definition lower (s : string) : string := casefold s.

(** [s.split(c, 1)]: the parts before and after the first [c]. *)
Fixpoint split_first (c : ascii) (s : string) : option (string * string) :=
  match s with
  | EmptyString => None
  | String d s' =>
      if Ascii.eqb d c then Some (EmptyString, s')
      else match split_first c s' with
           | Some (a, b) => Some (String d a, b)
           | None => None
           end
  end.

(** The parts around the last [c], found by [s.rfind(c)]. *)
Fixpoint split_last (c : ascii) (s : string) : option (string * string) :=
  match s with
  | EmptyString => None
  | String d s' =>
      match split_last c s' with
      | Some (a, b) => Some (String d a, b)
      | None => if Ascii.eqb d c then Some (EmptyString, s') else None
      end
  end.

(** [s.find(c)] and [s.rfind(c)] *)
Definition find_char (c : ascii) (s : string) : Z :=
  match split_first c s with Some (a, _) => slen a | None => -1 end.
Definition rfind (c : ascii) (s : string) : Z :=
  match split_last c s with Some (a, _) => slen a | None => -1 end.

Fixpoint ends_with (suffix s : string) : bool :=
  str_eqb suffix s ||
  match s with EmptyString => false | String _ s' => ends_with suffix s' end.
Definition starts_with (prefix s : string) : bool := String.prefix prefix s.

(** [sep.join(parts)] *)
Definition join_with (sep : string) (l : list string) : string := String.concat sep l.

(** The truth value of an optional string: [None] and the empty text are false. *)
Definition truthy (o : option string) : bool :=
  match o with Some s => str_nonempty s | None => false end.

(** ** Order and duplicates *)

Fixpoint insert_sorted (s : string) (l : list string) : list string :=
  match l with
  | [] => [s]
  | t :: l' => if String.leb s t then s :: l else t :: insert_sorted s l'
  end.

(** [sorted(l)] *)
Fixpoint sorted_list (l : list string) : list string :=
  match l with [] => [] | s :: l' => insert_sorted s (sorted_list l') end.

(** [list(dict.fromkeys(l))]: the first occurrence of every element. *)
Fixpoint dedup (seen l : list string) : list string :=
  match l with
  | [] => []
  | s :: l' => if bool_decide (s ∈ seen) then dedup seen l' else s :: dedup (s :: seen) l'
  end.
Definition deduplicate (l : list string) : list string := dedup [] l.

(** ** Lemmas: characters *)

Lemma has_char_cons c d s : has_char c (String d s) = Ascii.eqb c d || has_char c s.
Proof.
  unfold has_char, str_any. cbn [str_all]. rewrite negb_andb, negb_involutive. done.
Qed.
Lemma has_char_app c a b : has_char c (a ++ b) = has_char c a || has_char c b.
Proof.
  induction a as [|d a IH]; [done|]. rewrite app_cons, !has_char_cons, IH. by rewrite orb_assoc.
Qed.


Lemma app_inj_r (a b c : string) : a ++ b = a ++ c → b = c.
Proof. induction a as [|d a IH]; [done|]. rewrite !app_cons. intros [= H]. auto. Qed.

Lemma split_first_Some c s a b :
  split_first c s = Some (a, b) ↔ s = a ++ String c b ∧ has_char c a = false.
Proof.
  revert a b. induction s as [|d s IH]; intros a b; cbn [split_first].
  - split; [done|]. by intros [H _]; destruct a.
  - destruct (Ascii.eqb_spec d c) as [->|Hd].
    + split.
      * by intros [= <- <-].
      * intros [H Ha]. destruct a as [|e a]; [by injection H as <-|].
        rewrite app_cons in H. injection H as <- _. rewrite has_char_cons, Ascii.eqb_refl in Ha. done.
    + destruct (split_first c s) as [[a' b']|] eqn:E.
      * destruct (proj1 (IH a' b') eq_refl) as [-> Ha']. split.
        -- intros [= <- <-]. rewrite app_cons, has_char_cons. split; [done|].
           rewrite Ha', orb_false_r. apply Ascii.eqb_neq. congruence.
        -- intros [H Ha]. destruct a as [|e a]; [injection H; congruence|].
           rewrite app_cons in H. injection H as <- H. rewrite has_char_cons, orb_false_iff in Ha.
           pose proof (proj2 (IH a b) (conj H (proj2 Ha))) as E2. by injection E2 as -> ->.
      * split; [done|]. intros [H Ha]. destruct a as [|e a]; [injection H; congruence|].
        rewrite app_cons in H. injection H as <- H. rewrite has_char_cons, orb_false_iff in Ha.
        by pose proof (proj2 (IH a b) (conj H (proj2 Ha))).
Qed.

Lemma split_first_None c s : split_first c s = None ↔ has_char c s = false.
Proof.
  induction s as [|d s IH]; [done|]. cbn [split_first]. rewrite has_char_cons, orb_false_iff, Ascii.eqb_neq.
  destruct (Ascii.eqb_spec d c) as [->|Hd]; [naive_solver|].
  destruct (split_first c s) as [[a b]|]; naive_solver.
Qed.

Lemma split_last_None c s : split_last c s = None ↔ has_char c s = false.
Proof.
  induction s as [|d s IH]; [done|]. cbn [split_last]. rewrite has_char_cons, orb_false_iff, Ascii.eqb_neq.
  destruct (split_last c s) as [[a b]|]; [naive_solver|].
  destruct (Ascii.eqb_spec d c) as [->|Hd]; naive_solver.
Qed.

Lemma split_last_Some c s a b :
  split_last c s = Some (a, b) ↔ s = a ++ String c b ∧ has_char c b = false.
Proof.
  revert a b. induction s as [|d s IH]; intros a b; cbn [split_last].
  - split; [done|]. by intros [H _]; destruct a.
  - destruct (split_last c s) as [[a' b']|] eqn:E.
    + destruct (proj1 (IH a' b') eq_refl) as [-> Hb']. split.
      * intros [= <- <-]. by rewrite app_cons.
      * intros [H Hb]. destruct a as [|e a].
        { injection H as -> H. rewrite <- H, has_char_app, has_char_cons, Ascii.eqb_refl, orb_true_r in Hb. done. }
        rewrite app_cons in H. injection H as -> H.
        pose proof (proj2 (IH a b) (conj H Hb)) as E2. by injection E2 as -> ->.
    + apply split_last_None in E. destruct (Ascii.eqb_spec d c) as [->|Hd]; split; try done.
      * by intros [= <- <-].
      * intros [H Hb]. destruct a as [|e a]; [by injection H as <-|].
        rewrite app_cons in H. injection H as <- ->.
        rewrite has_char_app, has_char_cons, Ascii.eqb_refl, orb_true_r in E. done.
      * intros [H Hb]. destruct a as [|e a]; [injection H; congruence|].
        rewrite app_cons in H. injection H as <- ->.
        rewrite has_char_app, has_char_cons, Ascii.eqb_refl, orb_true_r in E. done.
Qed.

Lemma split_on_no c s : has_char c s = false → split_on c s = [s].
Proof.
  induction s as [|d s IH]; [done|]. rewrite has_char_cons, orb_false_iff, Ascii.eqb_neq.
  intros [Hd Hs]. cbn [split_on]. rewrite (proj2 (Ascii.eqb_neq d c)) by congruence. by rewrite IH.
Qed.

Lemma split_on_app c a b :
  has_char c a = false → split_on c (a ++ String c b) = a :: split_on c b.
Proof.
  induction a as [|d a IH].
  - intros _. rewrite app_empty. cbn [split_on]. by rewrite Ascii.eqb_refl.
  - rewrite has_char_cons, orb_false_iff, Ascii.eqb_neq. intros [Hd Ha]. rewrite app_cons.
    cbn [split_on]. rewrite (proj2 (Ascii.eqb_neq d c)) by congruence. by rewrite IH.
Qed.

Lemma join_with_cons sep a b l : join_with sep (a :: b :: l) = a ++ sep ++ join_with sep (b :: l).
Proof. done. Qed.

(** [sep.join(s.split(sep)) == s] *)
Lemma join_split c s : join_with (String c "") (split_on c s) = s.
Proof.
  induction s as [|d s IH]; [done|]. cbn [split_on].
  destruct (Ascii.eqb_spec d c) as [->|Hd].
  - destruct (split_on c s) as [|w ws] eqn:E; [by destruct s; cbn in E; repeat case_match|].
    rewrite join_with_cons, IH. done.
  - destruct (split_on c s) as [|w ws] eqn:E; [by destruct s; cbn in E; repeat case_match|].
    destruct ws as [|v ws].
    + cbn in IH |- *. by rewrite IH.
    + rewrite join_with_cons in IH |- *. by rewrite app_cons, IH.
Qed.

Lemma split_on_nonempty c s : split_on c s ≠ [].
Proof. destruct s; cbn; repeat case_match; done. Qed.

(** The first field of a split carries no separator. *)
Lemma split_on_head c s w ws : split_on c s = w :: ws → has_char c w = false.
Proof.
  revert w ws. induction s as [|d s IH]; intros w ws; cbn [split_on]; [by intros [= <- _]|].
  destruct (Ascii.eqb_spec d c) as [->|Hd]; [by intros [= <- _]|].
  destruct (split_on c s) as [|w' ws'] eqn:E; [by apply split_on_nonempty in E|].
  intros [= <- _]. rewrite has_char_cons, (IH _ _ eq_refl), orb_false_r. apply Ascii.eqb_neq. congruence.
Qed.


(** ** Lemmas: order *)

Lemma insert_sorted_perm s l : insert_sorted s l ≡ₚ s :: l.
Proof.
  induction l as [|t l IH]; cbn; [done|]. destruct (String.leb s t); [done|].
  rewrite IH. constructor.
Qed.
Lemma sorted_list_perm l : sorted_list l ≡ₚ l.
Proof. induction l as [|s l IH]; cbn; [done|]. by rewrite insert_sorted_perm, IH. Qed.
Lemma sorted_list_elem s l : s ∈ sorted_list l ↔ s ∈ l.
Proof. by rewrite sorted_list_perm. Qed.
Lemma sorted_list_nil l : sorted_list l = [] ↔ l = [].
Proof.
  split; [|by intros ->]. intros H. apply Permutation.Permutation_nil. rewrite <- H.
  apply sorted_list_perm.
Qed.

(** ** Lemmas: duplicates *)

Lemma dedup_elem seen l s : s ∈ dedup seen l ↔ s ∈ l ∧ s ∉ seen.
Proof.
  revert seen. induction l as [|t l IH]; intros seen; cbn.
  - rewrite elem_of_nil. tauto.
  - case_bool_decide as Ht.
    + rewrite IH, elem_of_cons. naive_solver.
    + rewrite !elem_of_cons, IH, not_elem_of_cons.
      destruct (decide (s = t)) as [->|]; naive_solver.
Qed.
Lemma dedup_NoDup seen l : NoDup (dedup seen l).
Proof.
  revert seen. induction l as [|t l IH]; intros seen; cbn; [constructor|].
  case_bool_decide; [apply IH|]. constructor; [|apply IH].
  rewrite dedup_elem. intros [_ Hn]. apply Hn. by left.
Qed.
Lemma deduplicate_spec l : NoDup (deduplicate l) ∧ ∀ s, s ∈ deduplicate l ↔ s ∈ l.
Proof.
  split; [apply dedup_NoDup|]. intros s. unfold deduplicate. rewrite dedup_elem.
  pose proof (not_elem_of_nil s). tauto.
Qed.

(** ** Lemmas: adjacent characters *)

(** [x] followed by [y] somewhere in [s]. *)
Fixpoint has_pair (x y : ascii) (s : string) : bool :=
  match s with
  | EmptyString => false
  | String a s' =>
      (Ascii.eqb x a && match s' with String b _ => Ascii.eqb y b | EmptyString => false end)
      || has_pair x y s'
  end.

Lemma str_in_pair x y s : str_in (String x (String y "")) s = has_pair x y s.
Proof.
  induction s as [|a s IH]; [done|]. cbn [str_in has_pair]. rewrite IH. f_equal.
  cbn [String.prefix]. destruct (ascii_dec x a) as [->|Hx].
  - rewrite Ascii.eqb_refl. destruct s as [|b s]; [done|]. cbn [andb].
    cbn [String.prefix]. destruct (ascii_dec y b) as [->|Hy].
    + rewrite Ascii.eqb_refl. by destruct s.
    + by rewrite (proj2 (Ascii.eqb_neq y b) Hy).
  - by rewrite (proj2 (Ascii.eqb_neq x a) Hx).
Qed.

Definition begins (c : ascii) (s : string) : bool :=
  match s with String d _ => Ascii.eqb c d | EmptyString => false end.
Fixpoint finishes (c : ascii) (s : string) : bool :=
  match s with
  | EmptyString => false
  | String d EmptyString => Ascii.eqb c d
  | String _ s' => finishes c s'
  end.

Lemma has_pair_app x y a b :
  has_pair x y (a ++ b) = has_pair x y a || has_pair x y b || (finishes x a && begins y b).
Proof.
  induction a as [|c a IH]; cbn [has_pair finishes].
  - rewrite app_empty. cbn. by rewrite orb_false_r.
  - rewrite app_cons. cbn [has_pair]. rewrite IH. destruct a as [|d a].
    + rewrite app_empty. cbn [has_pair finishes begins]. rewrite andb_false_r. cbn.
      destruct b as [|e b]; cbn; [by rewrite !andb_false_r|].
      by destruct (Ascii.eqb x c && Ascii.eqb y e), (Ascii.eqb x e && _), (has_pair x y b).
    + rewrite app_cons. cbn [begins]. by rewrite !orb_assoc.
Qed.

Lemma begins_app c a b : begins c (a ++ b) = if str_eqb a "" then begins c b else begins c a.
Proof. destruct a; done. Qed.
Lemma finishes_app c a b : finishes c (a ++ b) = if str_eqb b "" then finishes c a else finishes c b.
Proof.
  unfold str_eqb. case_bool_decide as Hb; [by rewrite Hb, app_nil_str|].
  induction a as [|d a IH]; [done|]. rewrite app_cons. cbn [finishes].
  destruct (a ++ b) eqn:E; [|done]. destruct a; [|done]. rewrite app_empty in E. congruence.
Qed.
Lemma begins_has c s : has_char c s = false → begins c s = false.
Proof. destruct s as [|d s]; [done|]. rewrite has_char_cons. cbn. by intros [-> _]%orb_false_iff. Qed.
Lemma finishes_has c s : has_char c s = false → finishes c s = false.
Proof.
  induction s as [|d s IH]; [done|]. rewrite has_char_cons. intros [Hd Hs]%orb_false_iff.
  cbn. destruct s; [done|auto].
Qed.
Lemma has_pair_has x y s : has_char x s = false → has_pair x y s = false.
Proof.
  induction s as [|d s IH]; [done|]. rewrite has_char_cons. intros [Hd Hs]%orb_false_iff.
  cbn [has_pair]. by rewrite Hd, IH.
Qed.
Lemma starts_with_char c s : starts_with (String c "") s = begins c s.
Proof.
  destruct s as [|d s]; [done|]. unfold starts_with, begins. cbn [String.prefix].
  destruct (ascii_dec c d) as [->|H]; [by rewrite Ascii.eqb_refl; destruct s|].
  by rewrite (proj2 (Ascii.eqb_neq c d) H).
Qed.
Lemma ends_with_char c s : ends_with (String c "") s = finishes c s.
Proof.
  induction s as [|d s IH]; [done|]. cbn [ends_with finishes]. rewrite IH.
  unfold str_eqb. destruct s as [|e s].
  - case_bool_decide as E; cbn; [injection E as ->; by rewrite Ascii.eqb_refl|].
    symmetry. apply Ascii.eqb_neq. congruence.
  - by rewrite bool_decide_eq_false_2 by congruence.
Qed.

(** Text of a class that does not contain [c]. *)
Lemma has_char_class (p : ascii → bool) c s :
  str_all p s = true → p c = false → has_char c s = false.
Proof.
  intros Hs Hc. induction s as [|d s IH]; [done|]. cbn in Hs. apply andb_true_iff in Hs as [Hd Hs].
  rewrite has_char_cons, (IH Hs), orb_false_r. apply Ascii.eqb_neq. congruence.
Qed.

(** Text without spaces is its own [strip]. *)
Lemma strip_id s : str_any is_space s = false → strip s = s.
Proof.
  intros H. unfold strip. assert (rstrip s = s ∧ lstrip s = s) as [Hr Hl].
  { unfold str_any in H. rewrite negb_false_iff in H. induction s as [|c s IH]; [done|].
    cbn in H. apply andb_true_iff in H as [Hc Hs]. rewrite negb_true_iff in Hc.
    destruct (IH Hs) as [IHr _]. cbn. rewrite Hc, IHr. split; [by destruct s|done]. }
  by rewrite Hl.
Qed.

(** The part after the last [c] decides where [rfind] of two characters lie. *)
Fixpoint last_field (c : ascii) (s : string) : string :=
  match s with
  | EmptyString => EmptyString
  | String d s' => if has_char c s then last_field c s' else s
  end.

Lemma last_field_none c s : has_char c s = false → last_field c s = s.
Proof. destruct s as [|d s]; [done|]. intros H. cbn [last_field]. by rewrite H. Qed.
Lemma last_field_app c a b : last_field c (a ++ String c b) = last_field c b.
Proof.
  induction a as [|d a IH].
  - rewrite app_empty. cbn [last_field]. by rewrite has_char_cons, Ascii.eqb_refl.
  - rewrite app_cons. cbn [last_field].
    by rewrite has_char_cons, has_char_app, has_char_cons, Ascii.eqb_refl, !orb_true_r.
Qed.
Lemma rfind_bounds c s : (-1 ≤ rfind c s < slen s)%Z.
Proof.
  unfold rfind. pose proof (slen_nonneg s). destruct (split_last c s) as [[a b]|] eqn:E.
  - apply split_last_Some in E as [-> _]. rewrite slen_app. pose proof (slen_nonneg a).
    unfold slen. cbn [String.length]. lia.
  - lia.
Qed.
Lemma rfind_cons c d s :
  rfind c (String d s) =
  if has_char c s then (rfind c s + 1)%Z else if Ascii.eqb d c then 0%Z else (-1)%Z.
Proof.
  unfold rfind. cbn [split_last]. destruct (split_last c s) as [[a b]|] eqn:E.
  - destruct (has_char c s) eqn:Hc; [|apply split_last_None in Hc; congruence].
    unfold slen. cbn [String.length]. lia.
  - apply split_last_None in E. rewrite E. by destruct (Ascii.eqb d c).
Qed.
Lemma rfind_lt x y s : x ≠ y → (rfind x s <? rfind y s)%Z = has_char y (last_field x s).
Proof.
  intros Hxy. induction s as [|d s IH]; [done|]. cbn [last_field]. rewrite !rfind_cons.
  assert (Hpos : ∀ c, has_char c s = true → (0 ≤ rfind c s)%Z).
  { intros c Hc. unfold rfind. destruct (split_last c s) as [[a b]|] eqn:E; [apply slen_nonneg|].
    apply split_last_None in E. congruence. }
  assert (Hlt : (rfind x s + 1 <? rfind y s + 1)%Z = (rfind x s <? rfind y s)%Z).
  { destruct (Z.ltb_spec (rfind x s) (rfind y s)), (Z.ltb_spec (rfind x s + 1) (rfind y s + 1)); lia || done. }
  rewrite !has_char_cons. destruct (has_char x s) eqn:Hx.
  - rewrite orb_true_r. rewrite <- IH. destruct (has_char y s) eqn:Hy; [done|].
    specialize (Hpos x Hx). assert (rfind y s = -1)%Z as ->.
    { unfold rfind. by rewrite (proj2 (split_last_None y s) Hy). }
    destruct (Ascii.eqb d y); symmetry; destruct (Z.ltb_spec (rfind x s) (-1)); try lia;
      symmetry; apply Z.ltb_ge; lia.
  - rewrite orb_false_r. destruct (Ascii.eqb_spec x d) as [<-|Hd].
    + rewrite Ascii.eqb_refl. rewrite <- IH. assert (rfind x s = -1)%Z as ->.
      { unfold rfind. by rewrite (proj2 (split_last_None x s) Hx). }
      rewrite (proj2 (Ascii.eqb_neq x y) Hxy). destruct (has_char y s) eqn:Hy.
      * specialize (Hpos y Hy). rewrite (proj2 (Z.ltb_lt (-1) _)) by lia. apply Z.ltb_lt. lia.
      * assert (rfind y s = -1)%Z as ->; [|done]. unfold rfind. by rewrite (proj2 (split_last_None y s) Hy).
    + rewrite (proj2 (Ascii.eqb_neq d x)) by congruence. rewrite has_char_cons.
      rewrite (Ascii.eqb_sym y d). destruct (has_char y s) eqn:Hy.
      * specialize (Hpos y Hy). rewrite orb_true_r. apply Z.ltb_lt. lia.
      * rewrite orb_false_r. by destruct (Ascii.eqb d y).
Qed.

Lemma last_field_suffix x c a b :
  has_char x (String c b) = false → has_char c (last_field x (a ++ String c b)) = true.
Proof.
  intros Hb. induction a as [|d a IH].
  - rewrite app_empty, last_field_none by done. by rewrite has_char_cons, Ascii.eqb_refl.
  - rewrite app_cons. cbn [last_field]. destruct (has_char x (String d (a ++ String c b))); [done|].
    by rewrite has_char_cons, has_char_app, has_char_cons, Ascii.eqb_refl, !orb_true_r.
Qed.

Lemma app_inj_l (a b c : string) : a ++ c = b ++ c → a = b.
Proof.
  revert b. induction a as [|d a IH]; intros [|e b]; rewrite ?app_cons, ?app_empty; intros H.
  - done.
  - apply (f_equal String.length) in H. pose proof (slen_app b c) as Hl. unfold slen in Hl.
    cbn [String.length] in H. lia.
  - apply (f_equal String.length) in H. pose proof (slen_app a c) as Hl. unfold slen in Hl.
    cbn [String.length] in H. lia.
  - injection H as -> H. f_equal. auto.
Qed.

(** Text around its first (last) delimiter is determined. *)
Lemma split_first_inj c a b a' b' :
  has_char c a = false → has_char c a' = false →
  a ++ String c b = a' ++ String c b' → a = a' ∧ b = b'.
Proof.
  intros Ha Ha' H. pose proof (proj2 (split_first_Some c _ a b) (conj eq_refl Ha)) as E.
  rewrite H, (proj2 (split_first_Some c _ a' b') (conj eq_refl Ha')) in E. by injection E.
Qed.
Lemma split_last_inj c a b a' b' :
  has_char c b = false → has_char c b' = false →
  a ++ String c b = a' ++ String c b' → a = a' ∧ b = b'.
Proof.
  intros Hb Hb' H. pose proof (proj2 (split_last_Some c _ a b) (conj eq_refl Hb)) as E.
  rewrite H, (proj2 (split_last_Some c _ a' b') (conj eq_refl Hb')) in E. by injection E.
Qed.

(** [lower] maps letters to letters. *)
Lemma str_all_lower (p q : ascii → bool) s :
  (∀ c, p c = true → q (lower_char c) = true) → str_all p s = true → str_all q (lower s) = true.
Proof.
  intros Hpq. unfold lower. induction s as [|c s IH]; [done|]. cbn. rewrite !andb_true_iff.
  intros [? ?]. auto.
Qed.
Lemma lower_nonempty s : s ≠ "" → lower s ≠ "".
Proof. by destruct s. Qed.

(** ** [repr] *)

Definition squote : ascii := ascii_of_nat 39.
Definition dquote_char : ascii := ascii_of_nat 34.
Definition hex_digit (n : nat) : ascii := ascii_of_nat (if (n <? 10)%nat then 48 + n else 87 + n).

(** One character of [repr(s)] between quotes [q] (ASCII text). *)
Definition repr_char (q c : ascii) : string :=
  let n := nat_of_ascii c in
  if Ascii.eqb c q || (n =? 92)%nat then String "\" (String c "") else
  if (n =? 9)%nat then "\t" else
  if (n =? 10)%nat then "\n" else
  if (n =? 13)%nat then "\r" else
  if (n <? 32)%nat || (n =? 127)%nat
  then "\x" ++ String (hex_digit (n / 16)) (String (hex_digit (n mod 16)) "")
  else String c "".
Fixpoint repr_chars (q : ascii) (s : string) : string :=
  match s with EmptyString => EmptyString | String c s' => repr_char q c ++ repr_chars q s' end.
(** [repr(s)]: single quotes unless only double quotes avoid escaping. *)
Definition py_repr (s : string) : string :=
  let q := if has_char squote s && negb (has_char dquote_char s) then dquote_char else squote in
  String q (repr_chars q s ++ String q "").
(** [repr(l)] of a list of strings. *)
Definition repr_list (l : list string) : string := "[" ++ join_with ", " (List.map py_repr l) ++ "]".

Example repr_list_ex : repr_list ["a"; "b\"] = "['a', 'b\\']".
Proof. reflexivity. Qed.

(** ** Filters *)

Lemma bfilter_nil {A} (p : A → bool) l : List.filter p l = [] ↔ ∀ x, x ∈ l → p x = false.
Proof.
  induction l as [|x l IH]; cbn.
  - split; [by intros _ y ?%not_elem_of_nil|done].
  - destruct (p x) eqn:E.
    + split; [done|]. intros H. rewrite (H x) in E; [done|by left].
    + rewrite IH. split; [|intros H y Hy; apply H; by right].
      by intros H y [->|Hy]%elem_of_cons; [|apply H].
Qed.
Lemma bfilter_elem {A} (p : A → bool) l x : x ∈ List.filter p l ↔ x ∈ l ∧ p x = true.
Proof. by rewrite !list_elem_of_In, List.filter_In. Qed.

(** [sorted] of a sorted list changes nothing. *)
Lemma leb_total_str a b : String.leb a b = false → String.leb b a = true.
Proof. intros H. destruct (String.leb_total a b) as [?|?]; congruence. Qed.
Notation ordered := (Sorted (λ a b, String.leb a b = true)).
Lemma insert_sorted_ordered s l : ordered l → ordered (insert_sorted s l).
Proof.
  induction 1 as [|t l Hl IH Ht]; cbn; [by repeat constructor|].
  destruct (String.leb s t) eqn:E; [by repeat constructor|]. apply leb_total_str in E.
  constructor; [done|]. destruct Ht as [|u l Hu]; cbn; [by constructor|].
  destruct (String.leb s u); by constructor.
Qed.
Lemma sorted_list_ordered l : ordered (sorted_list l).
Proof. induction l; cbn; [constructor|by apply insert_sorted_ordered]. Qed.
Lemma sorted_list_id l : ordered l → sorted_list l = l.
Proof.
  induction 1 as [|t l Hl IH Ht]; cbn; [done|]. rewrite IH.
  destruct Ht as [|u l Hu]; cbn; [done|]. by rewrite Hu.
Qed.
Lemma sorted_list_idem l : sorted_list (sorted_list l) = sorted_list l.
Proof. apply sorted_list_id, sorted_list_ordered. Qed.
