(* ===== verification/PyDict.v ===== *)
(** * PyDict: insertion-ordered dictionaries

    A Python [dict] whose iteration order matters is an association list in
    insertion order with distinct keys: [d[k] = v] replaces in place or
    appends, [d.values()] is the list of values.  The lemmas give it the
    interface of a finite map, so clients never look at the list. *)

From S2P Require Import Prelude.
From Stdlib Require Import ZArith Lia.
From stdpp Require Import base strings option list.

Section dict.
Context {K V : Type} `{EqDecision K}.

Definition dict : Type := list (K * V).

Fixpoint dget (k : K) (d : dict) : option V :=
  match d with
  | [] => None
  | (k', v) :: d' => if decide (k = k') then Some v else dget k d'
  end.

Fixpoint dset (k : K) (v : V) (d : dict) : dict :=
  match d with
  | [] => [(k, v)]
  | (k', v') :: d' => if decide (k = k') then (k, v) :: d' else (k', v') :: dset k v d'
  end.

Fixpoint dpop (k : K) (d : dict) : dict :=
  match d with
  | [] => []
  | (k', v') :: d' => if decide (k = k') then d' else (k', v') :: dpop k d'
  end.

Definition dvalues (d : dict) : list V := d.*2.
Definition dkeys (d : dict) : list K := d.*1.
Definition dlen (d : dict) : Z := Z.of_nat (length d).
(** [k in d] *)
Definition dmem (k : K) (d : dict) : bool := bool_decide (is_Some (dget k d)).

Lemma dget_set k k' v d : dget k (dset k' v d) = if decide (k = k') then Some v else dget k d.
Proof.
  induction d as [|[k1 v1] d IH]; cbn; [done|].
  destruct (decide (k' = k1)) as [->|]; cbn; [by destruct (decide (k = k1))|].
  rewrite IH. destruct (decide (k = k1)) as [->|]; [|done].
  by rewrite decide_False by congruence.
Qed.

Lemma dget_set_eq k v d : dget k (dset k v d) = Some v.
Proof. rewrite dget_set. by rewrite decide_True. Qed.

Lemma dget_set_ne k k' v d : k ≠ k' → dget k (dset k' v d) = dget k d.
Proof. intros. rewrite dget_set. by rewrite decide_False. Qed.

Lemma dget_In k v d : dget k d = Some v → (k, v) ∈ d.
Proof.
  induction d as [|[k1 v1] d IH]; cbn; [done|]. case_decide; intros; simplify_eq; [left|right; auto].
Qed.

Lemma dget_value k v d : dget k d = Some v → v ∈ dvalues d.
Proof. intros H%dget_In. apply list_elem_of_fmap. by exists (k, v). Qed.

Definition dwf (d : dict) : Prop := NoDup (dkeys d).

Lemma In_dget k v d : dwf d → (k, v) ∈ d → dget k d = Some v.
Proof.
  unfold dwf, dkeys. induction d as [|[k1 v1] d IH]; cbn; [by intros _ ?%not_elem_of_nil|].
  intros [Hn Hd]%NoDup_cons [H|H]%elem_of_cons.
  - simplify_eq. by rewrite decide_True.
  - rewrite decide_False; [by apply IH|]. intros ->. apply Hn, list_elem_of_fmap. by exists (k1, v).
Qed.

Lemma value_dget v d : dwf d → v ∈ dvalues d → ∃ k, dget k d = Some v.
Proof.
  intros Hd (kv & -> & Hin)%list_elem_of_fmap. exists (fst kv). apply In_dget; [done|].
  by destruct kv.
Qed.

Lemma dset_keys k v d :
  dkeys (dset k v d) = if decide (k ∈ dkeys d) then dkeys d else (dkeys d ++ [k])%list.
Proof.
  induction d as [|[k1 v1] d IH]; [done|]. unfold dkeys in *. cbn [dset fmap list_fmap].
  destruct (decide (k = k1)) as [->|Hne]; cbn [fmap list_fmap].
  - rewrite decide_True; [done|]. by left.
  - rewrite IH. cbn. destruct (decide (k ∈ d.*1)) as [Hin|Hin].
    + rewrite decide_True; [done|]. by right.
    + rewrite decide_False; [done|]. intros [?|?]%elem_of_cons; done.
Qed.

Lemma dset_wf k v d : dwf d → dwf (dset k v d).
Proof.
  unfold dwf. rewrite dset_keys. case_decide; [done|]. intros Hd. apply NoDup_app. split_and!; [done| |].
  - intros x Hx ->%list_elem_of_singleton. done.
  - apply NoDup_singleton.
Qed.

Lemma dget_None k d : dget k d = None ↔ k ∉ dkeys d.
Proof.
  unfold dkeys. induction d as [|[k1 v1] d IH]; cbn.
  - split; [intros _; apply not_elem_of_nil|done].
  - rewrite not_elem_of_cons. case_decide; [naive_solver|]. rewrite IH. naive_solver.
Qed.

Lemma dset_len k v d :
  dlen (dset k v d) = (dlen d + if decide (dget k d = None) then 1 else 0)%Z.
Proof.
  unfold dlen. pose proof (dset_keys k v d) as H. apply (f_equal length) in H.
  unfold dkeys in H. rewrite length_fmap in H. rewrite H.
  destruct (decide (k ∈ d.*1)) as [Hin|Hin].
  - rewrite decide_False by (rewrite dget_None; unfold dkeys; tauto). rewrite length_fmap. lia.
  - rewrite decide_True by (rewrite dget_None; unfold dkeys; tauto).
    rewrite length_app, length_fmap. cbn [length]. lia.
Qed.

Lemma dmem_true k d : dmem k d = true ↔ is_Some (dget k d).
Proof. apply bool_decide_eq_true. Qed.
Lemma dmem_false k d : dmem k d = false ↔ dget k d = None.
Proof.
  unfold dmem. rewrite bool_decide_eq_false. destruct (dget k d); split; intros H; try done.
  by destruct H.
Qed.
End dict.
Arguments dict : clear implicits.

#[export] Hint Rewrite @dget_set_eq : pydict.
#[export] Hint Resolve dset_wf : pydict.

Section dict_removal.
Context {K V : Type} `{EqDecision K}.

Lemma dpop_keys (k : K) (d : dict K V) : dwf d → ∀ x, x ∈ dkeys (dpop k d) ↔ x ∈ dkeys d ∧ x ≠ k.
Proof.
  unfold dwf, dkeys. induction d as [|[k1 v1] d IH]; cbn; intros Hd x.
  { pose proof (not_elem_of_nil x). tauto. }
  apply NoDup_cons in Hd as [Hn Hd]. case_decide as Hk; cbn; rewrite !elem_of_cons.
  - subst. destruct (decide (x = k1)) as [->|]; naive_solver.
  - rewrite (IH Hd). naive_solver.
Qed.
Lemma dpop_wf (k : K) (d : dict K V) : dwf d → dwf (dpop k d).
Proof.
  unfold dwf, dkeys. induction d as [|[k1 v1] d IH]; cbn; [done|]. intros [Hn Hd]%NoDup_cons.
  case_decide; cbn; [done|]. apply NoDup_cons. split; [|auto].
  intros Hin. apply Hn. by apply (dpop_keys k d Hd) in Hin as [? _].
Qed.
Lemma dget_pop (k k' : K) (d : dict K V) :
  dwf d → dget k (dpop k' d) = if decide (k = k') then None else dget k d.
Proof.
  unfold dwf, dkeys. induction d as [|[k1 v1] d IH]; cbn; intros Hd; [by case_decide|].
  apply NoDup_cons in Hd as [Hn Hd]. destruct (decide (k' = k1)) as [->|Hk].
  - case_decide as Hk; [|done]. subst. by apply dget_None.
  - cbn. rewrite (IH Hd). repeat case_decide; congruence.
Qed.
(** Setting an absent key appends. *)
Lemma dset_absent (k : K) (v : V) (d : dict K V) : dget k d = None → dset k v d = (d ++ [(k, v)])%list.
Proof.
  induction d as [|[k1 v1] d IH]; cbn; [done|]. case_decide; [done|]. intros H'. by rewrite IH.
Qed.
Lemma dpop_Forall (P : K * V → Prop) (k : K) (d : dict K V) : Forall P d → Forall P (dpop k d).
Proof. induction 1 as [|[k1 v1] d]; cbn; [done|]. case_decide; [done|]. by constructor. Qed.
Lemma dset_Forall (P : K * V → Prop) (k : K) (v : V) (d : dict K V) :
  Forall P d → P (k, v) → Forall P (dset k v d).
Proof.
  intros Hd Hk. induction Hd as [|[k1 v1] d Hx Hd IH]; cbn; [by constructor|].
  case_decide; by constructor.
Qed.
Lemma dpop_absent (k : K) (d : dict K V) : dget k d = None → dpop k d = d.
Proof.
  induction d as [|[k1 v1] d IH]; cbn; [done|]. case_decide; [done|]. intros H'. by rewrite IH.
Qed.
Lemma dpop_len (k : K) (d : dict K V) :
  dlen (dpop k d) = (dlen d - if decide (dget k d = None) then 0 else 1)%Z.
Proof.
  unfold dlen. induction d as [|[k1 v1] d IH]; [done|]. cbn [dpop dget].
  destruct (decide (k = k1)); cbn [length]; [rewrite decide_False by done; lia|].
  rewrite Nat2Z.inj_succ, IH. lia.
Qed.
End dict_removal.

(** ** Dictionaries that hold the same entries *)

Lemma dget_perm {V} k (l1 l2 : dict string V) : dwf l1 → l1 ≡ₚ l2 → dget k l1 = dget k l2.
Proof.
  intros Hw Hp.
  assert (dwf l2) as Hw2 by (unfold dwf, dkeys in *; by rewrite <-Hp).
  destruct (dget k l1) as [v|] eqn:E1.
  - symmetry. apply In_dget; [done|]. rewrite <-Hp. by apply dget_In.
  - destruct (dget k l2) as [v|] eqn:E2; [|done]. apply dget_In in E2. rewrite <-Hp in E2.
    apply In_dget in E2; [|done]. congruence.
Qed.

Lemma dget_map {V W} (f : V → W) k (l : dict string V) :
  dget k (List.map (λ kv, (fst kv, f (snd kv))) l) = f <$> dget k l.
Proof. induction l as [|[k' v'] l IH]; cbn; [done|]. case_decide; [done|]. apply IH. Qed.

Lemma dget_app {V} k (l1 l2 : dict string V) :
  dget k (l1 ++ l2)%list = match dget k l1 with Some v => Some v | None => dget k l2 end.
Proof. induction l1 as [|[k' v'] l1 IH]; cbn; [done|]. by case_decide. Qed.
