(* ===== verification/PyTime.v ===== *)
(** * PyTime: aware UTC datetimes and [datetime.isoformat]

    Every timestamp of the control plane passes through a [_utc] helper, so a
    [datetime] is modelled by the UTC instant it denotes: a number of
    microseconds since 0001-01-01T00:00:00+00:00 ([datetime.min] is [0]).
    [isoformat] is the calendar conversion and text layout of the standard
    library; it is injective on the representable range, which is what makes
    the canonical payloads below bind their timestamps. *)

From S2P Require Import Prelude PyStr.
From stdpp Require Import base strings list.
From Stdlib Require Import Ascii String ZArith Lia.

Local Open Scope Z_scope.

Definition datetime : Type := Z.
Definition timedelta : Type := Z.

Definition seconds (n : Z) : timedelta := n * 1000000.
Definition minutes (n : Z) : timedelta := seconds (60 * n).
Definition hours (n : Z) : timedelta := minutes (60 * n).
Definition us_per_day : Z := 86400000000.

(** [datetime.min.replace(tzinfo=timezone.utc)] and the first instant past
    [datetime.max]. *)
Definition datetime_min : datetime := 0.
Definition datetime_end : datetime := 3652059 * us_per_day.
Definition valid_datetime (t : datetime) : Prop := 0 ≤ t < datetime_end.

(** ** The proleptic Gregorian calendar *)

Definition days_before_year (y : Z) : Z :=
  let p := y - 1 in p * 365 + p / 4 - p / 100 + p / 400.
Definition is_leap (y : Z) : bool :=
  (y mod 4 =? 0) && (negb (y mod 100 =? 0) || (y mod 400 =? 0)).

Definition month_lengths (leap : bool) : list Z :=
  [31; if leap then 29 else 28; 31; 30; 31; 30; 31; 31; 30; 31; 30; 31].

(** Month and day of the [r]-th day (from 0) of a year. *)
Fixpoint month_day (ls : list Z) (m r : Z) : Z * Z :=
  match ls with
  | [] => (m, r + 1)
  | l :: ls' => if r <? l then (m, r + 1) else month_day ls' (m + 1) (r - l)
  end.

(** [date.fromordinal], counting days from 0. *)
Definition ord2ymd (n : Z) : Z * Z * Z :=
  let n400 := n / 146097 in let n := n mod 146097 in
  let n100 := n / 36524 in let n := n mod 36524 in
  let n4 := n / 1461 in let n := n mod 1461 in
  let n1 := n / 365 in let n := n mod 365 in
  let y := n400 * 400 + n100 * 100 + n4 * 4 + n1 + 1 in
  if (n1 =? 4) || (n100 =? 4) then (y - 1, 12, 31)
  else let '(m, d) := month_day (month_lengths (is_leap y)) 1 n in (y, m, d).

Fixpoint zsum (l : list Z) : Z := match l with [] => 0 | x :: l' => x + zsum l' end.

(** [date.toordinal], counting days from 0. *)
Definition ymd2ord (ymd : Z * Z * Z) : Z :=
  let '(y, m, d) := ymd in
  days_before_year y + zsum (take (Z.to_nat (m - 1)) (month_lengths (is_leap y))) + (d - 1).

(** ** Text *)

Definition digit (z : Z) : ascii := ascii_of_nat (Z.to_nat (48 + z)).

(** [format(z, "0wd")] for [0 <= z < 10^w] *)
Fixpoint pad (w : nat) (z : Z) : string :=
  match w with
  | O => EmptyString
  | S w' => (pad w' (z / 10) ++ String (digit (z mod 10)) EmptyString)%string
  end.

Definition isoformat (t : datetime) : string :=
  let '(y, mo, d) := ord2ymd (t / us_per_day) in
  let us := t mod us_per_day in
  let s := us / 1000000 in
  let frac := us mod 1000000 in
  let hh := s / 3600 in let mi := s / 60 mod 60 in let ss := s mod 60 in
  let tail := if frac =? 0 then EmptyString else String "." (pad 6 frac) in
  (pad 4 y ++ "-" ++ pad 2 mo ++ "-" ++ pad 2 d ++ "T" ++
   pad 2 hh ++ ":" ++ pad 2 mi ++ ":" ++ pad 2 ss ++ tail ++ "+00:00")%string.

Example isoformat_min : isoformat datetime_min = "0001-01-01T00:00:00+00:00"%string.
Proof. reflexivity. Qed.

(** 2026-09-20 is ordinal 739879 (from 1). *)
Example isoformat_2026 :
  isoformat (739878 * us_per_day + seconds 3661 + 42)
  = "2026-09-20T01:01:01.000042+00:00"%string.
Proof. reflexivity. Qed.

(** ** The calendar conversion is invertible *)

(** Let [lia] see quotients and remainders by literals. *)
Local Ltac div_lia := Z.to_euclidean_division_equations; lia.

Definition year_ok (leap : bool) (r : Z) : bool :=
  let '(m, d) := month_day (month_lengths leap) 1 r in
  (zsum (take (Z.to_nat (m - 1)) (month_lengths leap)) + (d - 1) =? r)
  && (1 <=? m) && (m <=? 12) && (1 <=? d) && (d <=? 31).

Lemma year_table (leap : bool) (n : nat) :
  (n < (if leap then 366 else 365))%nat → year_ok leap (Z.of_nat n) = true.
Proof.
  intros Hn.
  assert (Hall : List.forallb (λ i, year_ok leap (Z.of_nat i))
                   (List.seq 0 (if leap then 366 else 365)%nat) = true)
    by (destruct leap; vm_compute; reflexivity).
  rewrite List.forallb_forall in Hall. apply Hall, List.in_seq. destruct leap; lia.
Qed.

Lemma month_day_ok (leap : bool) r :
  0 ≤ r < (if leap then 366 else 365) →
  let '(m, d) := month_day (month_lengths leap) 1 r in
  zsum (take (Z.to_nat (m - 1)) (month_lengths leap)) + (d - 1) = r ∧ 1 ≤ m ≤ 12 ∧ 1 ≤ d ≤ 31.
Proof.
  intros Hr. pose proof (year_table leap (Z.to_nat r)) as H.
  rewrite Z2Nat.id in H by lia. unfold year_ok in H.
  destruct (month_day _ 1 r) as [m d].
  rewrite !andb_true_iff, Z.eqb_eq, !Z.leb_le in H. destruct leap; lia.
Qed.

Lemma ord2ymd_ok n y m d :
  0 ≤ n < 3652059 → ord2ymd n = (y, m, d) →
  ymd2ord (y, m, d) = n ∧ 1 ≤ y ≤ 9999 ∧ 1 ≤ m ≤ 12 ∧ 1 ≤ d ≤ 31.
Proof.
  intros Hn. unfold ord2ymd.
  set (a := n / 146097). set (r0 := n mod 146097).
  set (b := r0 / 36524). set (r1 := r0 mod 36524).
  set (c := r1 / 1461). set (r2 := r1 mod 1461).
  set (e := r2 / 365). set (r3 := r2 mod 365).
  assert (A : n = 146097 * a + r0 ∧ 0 ≤ r0 < 146097)
    by (split; [apply Z.div_mod|apply Z.mod_pos_bound]; done).
  assert (B : r0 = 36524 * b + r1 ∧ 0 ≤ r1 < 36524)
    by (split; [apply Z.div_mod|apply Z.mod_pos_bound]; done).
  assert (C : r1 = 1461 * c + r2 ∧ 0 ≤ r2 < 1461)
    by (split; [apply Z.div_mod|apply Z.mod_pos_bound]; done).
  assert (E : r2 = 365 * e + r3 ∧ 0 ≤ r3 < 365)
    by (split; [apply Z.div_mod|apply Z.mod_pos_bound]; done).
  clearbody a b c e r0 r1 r2 r3.
  assert (0 ≤ a ≤ 24 ∧ 0 ≤ b ≤ 4 ∧ 0 ≤ c ≤ 24 ∧ 0 ≤ e ≤ 4 ∧ 0 ≤ r3 < 365 ∧
          n = a * 146097 + b * 36524 + c * 1461 + e * 365 + r3 ∧
          (b = 4 → c = 0 ∧ e = 0 ∧ r3 = 0) ∧ (e = 4 → r3 = 0 ∧ c ≤ 23)) as Hb by lia.
  clear A B C E.
  destruct ((e =? 4) || (b =? 4)) eqn:E; revert E.
  - rewrite orb_true_iff, !Z.eqb_eq. intros E Hy. simplify_eq.
    assert (Hl : is_leap (a * 400 + b * 100 + c * 4 + e + 1 - 1) = true).
    { unfold is_leap. rewrite andb_true_iff, orb_true_iff, negb_true_iff, Z.eqb_eq, Z.eqb_neq, Z.eqb_eq.
      destruct E as [->| ->]; (split; [div_lia|]); [left|right]; div_lia. }
    unfold ymd2ord. rewrite Hl. change (zsum _) with 335. unfold days_before_year. div_lia.
  - rewrite orb_false_iff, !Z.eqb_neq. intros E.
    pose proof (month_day_ok (is_leap (a * 400 + b * 100 + c * 4 + e + 1)) r3) as Hmd.
    destruct (month_day _ 1 r3) as [m' d']. intros Hy. simplify_eq.
    destruct Hmd as (Hs & Hm & Hd); [destruct (is_leap _); lia|].
    unfold ymd2ord. rewrite <- Z.add_assoc, Hs. unfold days_before_year. div_lia.
Qed.

(** ** [isoformat] is injective *)

Lemma pad_length w z : String.length (pad w z) = w.
Proof.
  revert z. induction w as [|w IH]; intros z; [done|]. cbn [pad].
  pose proof (slen_app (pad w (z / 10)) (String (digit (z mod 10)) "")) as H.
  unfold slen in H. rewrite IH in H. cbn [String.length] in H. lia.
Qed.

Lemma app_inv_length (a b c d : string) :
  String.length a = String.length b → (a ++ c = b ++ d)%string → a = b ∧ c = d.
Proof.
  revert b. induction a as [|x a IH]; intros [|y b]; cbn; try done.
  intros [= Hl] [= -> H]. destruct (IH b Hl H). by subst.
Qed.

Lemma digit_inj a b : 0 ≤ a < 10 → 0 ≤ b < 10 → digit a = digit b → a = b.
Proof.
  intros Ha Hb H. unfold digit in H. apply (f_equal nat_of_ascii) in H.
  rewrite !nat_ascii_embedding in H by lia. lia.
Qed.

Lemma pad_inj w a b :
  0 ≤ a < 10 ^ Z.of_nat w → 0 ≤ b < 10 ^ Z.of_nat w → pad w a = pad w b → a = b.
Proof.
  revert a b. induction w as [|w IH]; intros a b; [cbn; lia|].
  rewrite Nat2Z.inj_succ, Z.pow_succ_r by lia. cbn [pad]. intros Ha Hb H.
  apply app_inv_length in H as [H1 H2]; [|by rewrite !pad_length].
  injection H2 as H2. apply digit_inj in H2; [|div_lia..].
  apply IH in H1; [div_lia| |]; split; try div_lia; apply Z.div_lt_upper_bound; lia.
Qed.

Ltac peel_pad H :=
  let E := fresh "E" in
  apply app_inv_length in H as [E H]; [|by rewrite ?pad_length];
  try (apply pad_inj in E; [|cbn; div_lia..]).

Ltac peel_sep H := apply app_inv_length in H as [_ H]; [|reflexivity].

Lemma isoformat_inj t1 t2 :
  valid_datetime t1 → valid_datetime t2 → isoformat t1 = isoformat t2 → t1 = t2.
Proof.
  unfold valid_datetime, datetime_end, isoformat. intros H1 H2.
  destruct (ord2ymd (t1 / us_per_day)) as [[y1 m1] d1] eqn:E1.
  destruct (ord2ymd (t2 / us_per_day)) as [[y2 m2] d2] eqn:E2.
  apply ord2ymd_ok in E1 as (O1 & Y1 & M1 & D1); [|unfold us_per_day in *; div_lia].
  apply ord2ymd_ok in E2 as (O2 & Y2 & M2 & D2); [|unfold us_per_day in *; div_lia].
  assert (B1 : 0 ≤ t1 mod us_per_day < us_per_day) by (apply Z.mod_pos_bound; done).
  assert (B2 : 0 ≤ t2 mod us_per_day < us_per_day) by (apply Z.mod_pos_bound; done).
  assert (D : t1 = us_per_day * (t1 / us_per_day) + t1 mod us_per_day) by (apply Z.div_mod; done).
  assert (D' : t2 = us_per_day * (t2 / us_per_day) + t2 mod us_per_day) by (apply Z.div_mod; done).
  set (u1 := t1 mod us_per_day) in *. set (u2 := t2 mod us_per_day) in *.
  clearbody u1 u2. unfold us_per_day in B1, B2. intros H.
  do 5 (peel_pad H; peel_sep H). peel_pad H. subst.
  enough (u1 mod 1000000 = u2 mod 1000000) by (rewrite D, D'; div_lia).
  assert (F1 : 0 ≤ u1 mod 1000000 < 10 ^ Z.of_nat 6) by (apply Z.mod_pos_bound; done).
  assert (F2 : 0 ≤ u2 mod 1000000 < 10 ^ Z.of_nat 6) by (apply Z.mod_pos_bound; done).
  set (f1 := u1 mod 1000000) in *. set (f2 := u2 mod 1000000) in *. clearbody f1 f2.
  destruct (Z.eqb_spec f1 0), (Z.eqb_spec f2 0); [congruence|discriminate H|discriminate H|].
  apply (app_inv_length (String "." (pad 6 f1)) (String "." (pad 6 f2))) in H as [H _];
    [|cbn [String.length]; by rewrite !pad_length].
  apply (pad_inj 6); [done..|congruence].
Qed.
