(* ===== verification/Sha256.v ===== *)
(** * Sha256: [hashlib.sha256(text.encode("utf-8")).hexdigest()]

    The digest function of every canonical identity in the control plane,
    executable on 32-bit words kept in [Z] with their wrap-around written out.
    Theorems never assume that it is injective (it is not): they exhibit the
    two canonical texts that collide, see [collision]. *)

From S2P Require Import Prelude PyStr.
From stdpp Require Import base strings list.
From Stdlib Require Import Ascii String ZArith Lia.

Local Open Scope Z_scope.

Definition mask32 : Z := 4294967295.
Definition add32 (a b : Z) : Z := Z.land (a + b) mask32.
Definition rotr (n x : Z) : Z :=
  Z.lor (Z.shiftr x n) (Z.land (Z.shiftl x (32 - n)) mask32).

Definition K256 : list Z :=
  [1116352408; 1899447441; 3049323471; 3921009573; 961987163; 1508970993;
   2453635748; 2870763221; 3624381080; 310598401; 607225278; 1426881987;
   1925078388; 2162078206; 2614888103; 3248222580; 3835390401; 4022224774;
   264347078; 604807628; 770255983; 1249150122; 1555081692; 1996064986;
   2554220882; 2821834349; 2952996808; 3210313671; 3336571891; 3584528711;
   113926993; 338241895; 666307205; 773529912; 1294757372; 1396182291;
   1695183700; 1986661051; 2177026350; 2456956037; 2730485921; 2820302411;
   3259730800; 3345764771; 3516065817; 3600352804; 4094571909; 275423344;
   430227734; 506948616; 659060556; 883997877; 958139571; 1322822218;
   1537002063; 1747873779; 1955562222; 2024104815; 2227730452; 2361852424;
   2428436474; 2756734187; 3204031479; 3329325298].

(** The eight working variables. *)
Record hash_state := HS { ha : Z; hb : Z; hc : Z; hd : Z; he : Z; hf : Z; hg : Z; hh : Z }.

Definition H256 : hash_state :=
  HS 1779033703 3144134277 1013904242 2773480762
     1359893119 2600822924 528734635 1541459225.

Definition Ch (x y z : Z) : Z := Z.lxor (Z.land x y) (Z.land (Z.lxor x mask32) z).
Definition Maj (x y z : Z) : Z := Z.lxor (Z.lxor (Z.land x y) (Z.land x z)) (Z.land y z).
Definition Sigma0 (x : Z) : Z := Z.lxor (Z.lxor (rotr 2 x) (rotr 13 x)) (rotr 22 x).
Definition Sigma1 (x : Z) : Z := Z.lxor (Z.lxor (rotr 6 x) (rotr 11 x)) (rotr 25 x).
Definition sigma0 (x : Z) : Z := Z.lxor (Z.lxor (rotr 7 x) (rotr 18 x)) (Z.shiftr x 3).
Definition sigma1 (x : Z) : Z := Z.lxor (Z.lxor (rotr 17 x) (rotr 19 x)) (Z.shiftr x 10).

(** Message schedule, newest word first. *)
Fixpoint extend (n : nat) (w : list Z) : list Z :=
  match n with
  | O => w
  | S n' =>
      let at_ i := List.nth i w 0 in
      extend n' (add32 (add32 (sigma1 (at_ 1%nat)) (at_ 6%nat))
                       (add32 (sigma0 (at_ 14%nat)) (at_ 15%nat)) :: w)
  end.

Fixpoint rounds (kw : list (Z * Z)) (s : hash_state) : hash_state :=
  match kw with
  | [] => s
  | (k, w) :: kw' =>
      let t1 := add32 (add32 (hh s) (Sigma1 (he s)))
                      (add32 (Ch (he s) (hf s) (hg s)) (add32 k w)) in
      let t2 := add32 (Sigma0 (ha s)) (Maj (ha s) (hb s) (hc s)) in
      rounds kw' (HS (add32 t1 t2) (ha s) (hb s) (hc s) (add32 (hd s) t1) (he s) (hf s) (hg s))
  end.

Definition compress (s : hash_state) (block : list Z) : hash_state :=
  let w := List.rev (extend 48 (List.rev block)) in
  let r := rounds (List.combine K256 w) s in
  HS (add32 (ha s) (ha r)) (add32 (hb s) (hb r)) (add32 (hc s) (hc r)) (add32 (hd s) (hd r))
     (add32 (he s) (he r)) (add32 (hf s) (hf r)) (add32 (hg s) (hg r)) (add32 (hh s) (hh r)).

(** Big-endian words of a byte sequence; a partial last word cannot occur
    after padding. *)
Fixpoint words (bs : list Z) : list Z :=
  match bs with
  | a :: b :: c :: d :: bs' =>
      Z.lor (Z.shiftl a 24) (Z.lor (Z.shiftl b 16) (Z.lor (Z.shiftl c 8) d)) :: words bs'
  | _ => []
  end.

Definition be64 (n : Z) : list Z :=
  List.map (λ i, Z.land (Z.shiftr n i) 255) [56; 48; 40; 32; 24; 16; 8; 0].

Definition padded (bs : list Z) : list Z :=
  let n := Z.of_nat (List.length bs) in
  bs ++ 128 :: List.repeat 0 (Z.to_nat ((55 - n) mod 64)) ++ be64 (8 * n).

Fixpoint compress_all (fuel : nat) (s : hash_state) (ws : list Z) : hash_state :=
  match fuel with
  | O => s
  | S f => compress_all f (compress s (List.firstn 16 ws)) (List.skipn 16 ws)
  end.

Definition utf8_bytes (s : string) : list Z := List.map ord (list_ascii_of_string s).

Definition sha256_state (s : string) : hash_state :=
  let ws := words (padded (utf8_bytes s)) in
  compress_all (List.length ws / 16) H256 ws.

Definition hex_char (z : Z) : ascii :=
  match z with
  | 0 => "0" | 1 => "1" | 2 => "2" | 3 => "3" | 4 => "4" | 5 => "5" | 6 => "6" | 7 => "7"
  | 8 => "8" | 9 => "9" | 10 => "a" | 11 => "b" | 12 => "c" | 13 => "d" | 14 => "e" | _ => "f"
  end%char.

Fixpoint hex_word (nibbles : nat) (w : Z) : string :=
  match nibbles with
  | O => EmptyString
  | S n => (hex_word n (Z.shiftr w 4) ++ String (hex_char (Z.land w 15)) EmptyString)%string
  end.

Definition sha256_hex (s : string) : string :=
  let h := sha256_state s in
  (hex_word 8 (ha h) ++ hex_word 8 (hb h) ++ hex_word 8 (hc h) ++ hex_word 8 (hd h) ++
   hex_word 8 (he h) ++ hex_word 8 (hf h) ++ hex_word 8 (hg h) ++ hex_word 8 (hh h))%string.

Example sha256_empty : sha256_hex "" = "e3b0c44298fc1c149afbf4c8996fb92427ae41e4649b934ca495991b7852b855"%string.
Proof. vm_compute. reflexivity. Qed.

Example sha256_abc : sha256_hex "abc" = "ba7816bf8f01cfea414140de5dae2223b00361a396177a9cb410ff61f20015ad"%string.
Proof. vm_compute. reflexivity. Qed.

(** Two blocks. *)
Example sha256_two_blocks :
  sha256_hex "abcdbcdecdefdefgefghfghighijhijkijkljklmklmnlmnomnopnopq" = "248d6a61d20638b8e5c026930c3e6039a33ce45964ff2167f6ecedd419db06c1"%string.
Proof. vm_compute. reflexivity. Qed.

(** ** Shape of a digest *)

Lemma hex_char_hex z : is_hex (hex_char z) = true.
Proof. destruct z as [|p|p]; try done. do 4 (destruct p as [p|p|]; try done). Qed.

Lemma hex_word_hex n w : str_all is_hex (hex_word n w) = true.
Proof.
  revert w. induction n as [|n IH]; intros w; [done|]. cbn [hex_word].
  rewrite str_all_app, IH. cbn. by rewrite hex_char_hex.
Qed.

Lemma hex_word_len n w : slen (hex_word n w) = Z.of_nat n.
Proof.
  revert w. induction n as [|n IH]; intros w; [done|]. cbn [hex_word].
  rewrite slen_app, IH. change (slen (String _ "")) with 1. lia.
Qed.

Lemma sha256_hex_HEX s : HEX 64 (sha256_hex s) = true.
Proof.
  unfold HEX, sha256_hex. rewrite !str_all_app, !hex_word_hex, !slen_app, !hex_word_len. done.
Qed.

Lemma sha256_hex_len s : slen (sha256_hex s) = 64.
Proof. pose proof (sha256_hex_HEX s) as H. unfold HEX in H.
  apply andb_true_iff in H as [_ H]. by apply Z.eqb_eq in H. Qed.

(** The truncated digests [hexdigest()[:32]] are 32 hexadecimal digits. *)
Lemma sha256_hex_take n s :
  (n <= 64)%nat → HEX (Z.of_nat n) (str_take n (sha256_hex s)) = true.
Proof.
  intros Hn. pose proof (sha256_hex_HEX s) as H. unfold HEX in *.
  apply andb_true_iff in H as [H Hl]. apply andb_true_iff. split; [by apply str_all_take|].
  apply Z.eqb_eq in Hl. apply Z.eqb_eq. unfold slen in *.
  generalize dependent (sha256_hex s). intros t Ht Hl.
  assert (Hle : (n <= String.length t)%nat) by lia. clear Hn Hl Ht. f_equal. revert n Hle.
  induction t as [|c t IH]; intros [|n] Hle; simpl in *; try lia. f_equal. apply IH. lia.
Qed.

(** Two texts whose digests agree although the texts differ. *)
Definition collision (a b : string) : Prop := a ≠ b ∧ sha256_hex a = sha256_hex b.

#[global] Opaque sha256_hex.
