(* ===== verification/Json.v ===== *)
(** * Json: canonical JSON text and its injectivity

    Every identity and digest of the control plane is computed over
    [json.dumps(payload, ensure_ascii=False, separators=(",", ":"), sort_keys=True)].
    [dumps] is that call on the JSON values the code builds (no floats).  The
    main result, [dumps_inj], says the text determines the value up to the
    order of object keys; identity theorems of the other files rest on it. *)

From S2P Require Import Prelude PyStr.
From stdpp Require Import base strings list pretty.
From Stdlib Require Import Ascii String ZArith Lia.

(** ** Values *)

#[local] Unset Elimination Schemes.
Inductive json :=
  | JNull
  | JBool (b : bool)
  | JInt (z : Z)
  | JStr (s : string)
  | JArr (l : list json)
  | JObj (kvs : list (string * json)).
#[local] Set Elimination Schemes.

Definition JOpt {A} (f : A → json) (o : option A) : json :=
  match o with Some a => f a | None => JNull end.

Lemma json_ind (P : json → Prop) :
  P JNull → (∀ b, P (JBool b)) → (∀ z, P (JInt z)) → (∀ s, P (JStr s)) →
  (∀ l, Forall P l → P (JArr l)) →
  (∀ kvs, Forall (λ kv, P (snd kv)) kvs → P (JObj kvs)) →
  ∀ j, P j.
Proof.
  intros Hn Hb Hi Hs Ha Ho. fix IH 1. intros [|b|z|s|l|kvs].
  - exact Hn.
  - apply Hb.
  - apply Hi.
  - apply Hs.
  - apply Ha. induction l as [|x l IHl]; constructor; [apply IH|apply IHl].
  - apply Ho. induction kvs as [|[k v] kvs IHl]; constructor; [apply IH|apply IHl].
Qed.

(** ** Key order *)

Fixpoint insert_key {A} (k : string) (v : A) (l : list (string * A)) : list (string * A) :=
  match l with
  | [] => [(k, v)]
  | (k', v') :: l' =>
      if String.leb k k' then (k, v) :: (k', v') :: l' else (k', v') :: insert_key k v l'
  end.

Fixpoint sort_keys {A} (l : list (string * A)) : list (string * A) :=
  match l with
  | [] => []
  | (k, v) :: l' => insert_key k v (sort_keys l')
  end.

(** The value with every object's keys in sorted order. *)
Fixpoint canon (j : json) : json :=
  match j with
  | JArr l => JArr (List.map canon l)
  | JObj kvs => JObj (sort_keys (List.map (λ kv, (fst kv, canon (snd kv))) kvs))
  | _ => j
  end.

(** ** Text *)

Definition hex_lower (n : nat) : ascii :=
  ascii_of_nat (if (n <? 10)%nat then 48 + n else 87 + n).

(** Escapes of [json.encoder] with [ensure_ascii=False]. *)
Definition esc_char (c : ascii) : string :=
  let n := nat_of_ascii c in
  if (n =? 34)%nat then String "\" (String (ascii_of_nat 34) EmptyString) else
  if (n =? 92)%nat then "\\" else
  if (n =? 8)%nat then "\b" else
  if (n =? 12)%nat then "\f" else
  if (n =? 10)%nat then "\n" else
  if (n =? 13)%nat then "\r" else
  if (n =? 9)%nat then "\t" else
  if (n <? 32)%nat then
    ("\u00" ++ String (hex_lower (n / 16)) (String (hex_lower (n mod 16)) ""))%string
  else String c "".

Fixpoint esc (s : string) : string :=
  match s with
  | EmptyString => EmptyString
  | String c s' => (esc_char c ++ esc s')%string
  end.

Definition dquote : ascii := ascii_of_nat 34.
Definition quote (s : string) : string := String dquote (esc s ++ String dquote EmptyString).

Definition join (l : list string) : string := String.concat "," l.

Fixpoint enc (j : json) : string :=
  match j with
  | JNull => "null"
  | JBool true => "true"
  | JBool false => "false"
  | JInt z => pretty z
  | JStr s => quote s
  | JArr l => "[" ++ join (List.map enc l) ++ "]"
  | JObj kvs =>
      "{" ++ join (List.map (λ kv, quote (fst kv) ++ ":" ++ enc (snd kv)) kvs) ++ "}"
  end%string.

Definition dumps (j : json) : string := enc (canon j).

(** ** Sorting keeps the entries *)

Lemma insert_key_perm {A} k (v : A) l : insert_key k v l ≡ₚ (k, v) :: l.
Proof.
  induction l as [|[k' v'] l IH]; [done|]. cbn. case_match; [done|]. rewrite IH. apply perm_swap.
Qed.
Lemma sort_keys_perm {A} (l : list (string * A)) : sort_keys l ≡ₚ l.
Proof. induction l as [|[k v] l IH]; [done|]. cbn. by rewrite insert_key_perm, IH. Qed.

(** ** Escaped text can be read back *)

Definition unhex (c : ascii) : nat :=
  let n := nat_of_ascii c in if (n <? 58)%nat then n - 48 else n - 87.

(** Read one character of a string literal; [None] at the closing quote. *)
Definition read_char (s : string) : option (ascii * string) :=
  match s with
  | EmptyString => None
  | String c r =>
      if (nat_of_ascii c =? 34)%nat then None else
      if (nat_of_ascii c =? 92)%nat then
        match r with
        | String "u" (String _ (String _ (String a (String b r')))) =>
            Some (ascii_of_nat (unhex a * 16 + unhex b), r')
        | String "b" r' => Some (ascii_of_nat 8, r')
        | String "f" r' => Some (ascii_of_nat 12, r')
        | String "n" r' => Some (ascii_of_nat 10, r')
        | String "r" r' => Some (ascii_of_nat 13, r')
        | String "t" r' => Some (ascii_of_nat 9, r')
        | String c' r' => Some (c', r')
        | EmptyString => None
        end
      else Some (c, r)
  end.

Lemma read_esc_char c r : read_char (esc_char c ++ r) = Some (c, r).
Proof. destruct c as [[] [] [] [] [] [] [] []]; reflexivity. Qed.

Lemma read_quote r : read_char (String dquote r) = None.
Proof. reflexivity. Qed.

Lemma esc_prefix s1 s2 r1 r2 :
  (esc s1 ++ String dquote r1 = esc s2 ++ String dquote r2)%string → s1 = s2 ∧ r1 = r2.
Proof.
  revert s2. induction s1 as [|c1 s1 IH]; intros [|c2 s2]; cbn [esc]; rewrite ?app_assoc_str; intros H.
  - by injection H.
  - apply (f_equal read_char) in H. rewrite read_esc_char in H. discriminate H.
  - apply (f_equal read_char) in H. rewrite read_esc_char in H. discriminate H.
  - apply (f_equal read_char) in H. rewrite !read_esc_char in H.
    injection H as -> H. destruct (IH _ H) as [-> ->]. done.
Qed.

Lemma quote_prefix s1 s2 r1 r2 :
  (quote s1 ++ r1 = quote s2 ++ r2)%string → s1 = s2 ∧ r1 = r2.
Proof.
  unfold quote. intros H.
  change (String dquote ((esc s1 ++ String dquote "") ++ r1) =
          String dquote ((esc s2 ++ String dquote "") ++ r2))%string in H.
  injection H as H. rewrite !app_assoc_str in H. by apply esc_prefix.
Qed.

(** ** Numbers *)

Definition num_char (c : ascii) : bool := is_digit c || one_of "-" c.

(** What may follow a value inside a larger text. *)
Definition delimited (r : string) : Prop :=
  match r with
  | EmptyString => True
  | String c _ => c = ","%char ∨ c = "]"%char ∨ c = "}"%char
  end.

Lemma delimited_not_num c r : delimited (String c r) → num_char c = false.
Proof. by intros [-> | [-> | ->]]. Qed.

Lemma pretty_N_go_num x s : str_all num_char s = true → str_all num_char (pretty_N_go x s) = true.
Proof.
  revert s. induction (N.lt_wf_0 x) as [x _ IH]; intros s Hs.
  assert (x = 0 ∨ 0 < x)%N as [->|?] by lia; [by rewrite pretty_N_go_0|].
  rewrite pretty_N_go_step by done. apply IH; [by apply N.div_lt|].
  cbn. rewrite Hs, andb_true_r. unfold pretty_N_char. by repeat case_match.
Qed.

Lemma pretty_N_num (n : N) : str_all num_char (pretty n) = true.
Proof. unfold pretty, pretty_N. case_decide; [done|]. by apply pretty_N_go_num. Qed.

Lemma pretty_Z_num (z : Z) : str_all num_char (pretty z) = true.
Proof.
  destruct z as [|p|p]; [done|apply (pretty_N_num (Npos p))|].
  change (pretty (Z.neg p)) with ("-" ++ pretty (Npos p))%string.
  rewrite str_all_app. by rewrite pretty_N_num.
Qed.

Lemma pretty_N_go_nonempty x s : s ≠ EmptyString → pretty_N_go x s ≠ EmptyString.
Proof.
  revert s. induction (N.lt_wf_0 x) as [x _ IH]; intros s Hs.
  assert (x = 0 ∨ 0 < x)%N as [->|?] by lia; [by rewrite pretty_N_go_0|].
  rewrite pretty_N_go_step by done. apply IH; [by apply N.div_lt|done].
Qed.

Lemma pretty_Z_head (z : Z) : ∃ c s, pretty z = String c s ∧ num_char c = true.
Proof.
  pose proof (pretty_Z_num z) as H. destruct (pretty z) as [|c s] eqn:E.
  - exfalso. destruct z as [|p|p]; [done| |done].
    change (pretty (Z.pos p)) with (pretty (Npos p)) in E.
    unfold pretty, pretty_N in E. case_decide; [done|].
    rewrite pretty_N_go_step in E by lia. by apply pretty_N_go_nonempty in E.
  - exists c, s. split; [done|]. cbn in H. by apply andb_true_iff in H as [H _].
Qed.

Lemma class_prefix (p : ascii → bool) a b r1 r2 :
  str_all p a = true → str_all p b = true →
  (∀ c r, r1 = String c r → p c = false) → (∀ c r, r2 = String c r → p c = false) →
  (a ++ r1 = b ++ r2)%string → a = b ∧ r1 = r2.
Proof.
  revert b. induction a as [|c a IH]; intros [|d b]; cbn; intros Ha Hb H1 H2 H.
  - done.
  - apply andb_true_iff in Hb as [Hd _]. rewrite (H1 _ _ H) in Hd. done.
  - apply andb_true_iff in Ha as [Hc _]. rewrite (H2 _ _ (eq_sym H)) in Hc. done.
  - injection H as -> H. apply andb_true_iff in Ha as [_ Ha], Hb as [_ Hb].
    destruct (IH b Ha Hb H1 H2 H) as [-> ->]. done.
Qed.

Lemma pretty_prefix (z1 z2 : Z) r1 r2 :
  delimited r1 → delimited r2 → (pretty z1 ++ r1 = pretty z2 ++ r2)%string → z1 = z2 ∧ r1 = r2.
Proof.
  intros H1 H2 H. apply (class_prefix num_char) in H as [H ->].
  - split; [by apply (inj pretty)|done].
  - apply pretty_Z_num.
  - apply pretty_Z_num.
  - intros c r ->. by eapply delimited_not_num.
  - intros c r ->. by eapply delimited_not_num.
Qed.

(** ** Values *)

(** The first character of an encoded value says its kind. *)
Definition head_kind (j : json) (c : ascii) : Prop :=
  match j with
  | JNull => c = "n"%char
  | JBool b => c = (if b then "t" else "f")%char
  | JInt _ => num_char c = true
  | JStr _ => c = dquote
  | JArr _ => c = "["%char
  | JObj _ => c = "{"%char
  end.

Lemma enc_head j : ∃ c s, enc j = String c s ∧ head_kind j c.
Proof.
  destruct j as [|[]|z|s|l|kvs]; cbn [enc head_kind]; try (by eexists _, _).
  apply pretty_Z_head.
Qed.

Lemma head_kind_not_delim j c : head_kind j c → c ≠ ","%char ∧ c ≠ "]"%char ∧ c ≠ "}"%char.
Proof.
  destruct j as [|[]|z|s|l|kvs]; cbn; intros H; subst; repeat split; try done;
    intros ->; by cbn in H.
Qed.

(** Two kinds never share a first character. *)
Definition same_kind (a b : json) : Prop :=
  match a, b with
  | JNull, JNull | JInt _, JInt _ | JStr _, JStr _ | JArr _, JArr _ | JObj _, JObj _ => True
  | JBool x, JBool y => x = y
  | _, _ => False
  end.

Lemma head_kind_same a b c : head_kind a c → head_kind b c → same_kind a b.
Proof.
  destruct a as [|[]|?|?|?|?], b as [|[]|?|?|?|?]; cbn; intros H1 H2; subst; done.
Qed.

Definition prefix_free (j1 : json) : Prop :=
  ∀ j2 r1 r2, delimited r1 → delimited r2 →
    (enc j1 ++ r1 = enc j2 ++ r2)%string → j1 = j2 ∧ r1 = r2.

Lemma join_cons2 a b l : join (a :: b :: l) = (a ++ "," ++ join (b :: l))%string.
Proof. reflexivity. Qed.
Lemma join_one a : join [a] = a.
Proof. reflexivity. Qed.

(** A separated sequence of prefix-free items closed by a delimiter. *)
Lemma items_prefix {A} (f : A → string) (cl : ascii) (P : A → Prop) l1 l2 r1 r2 :
  (cl = "]"%char ∨ cl = "}"%char) →
  Forall (λ a, ∀ b s1 s2, delimited s1 → delimited s2 →
            (f a ++ s1 = f b ++ s2)%string → a = b ∧ s1 = s2) l1 →
  (∀ a, ∃ c s, f a = String c s ∧ c ≠ ","%char ∧ c ≠ "]"%char ∧ c ≠ "}"%char) →
  (join (List.map f l1) ++ String cl r1 = join (List.map f l2) ++ String cl r2)%string →
  l1 = l2 ∧ r1 = r2.
Proof.
  intros Hcl Hl Hh. revert l2. induction Hl as [|a l1 Ha Hl IH]; intros l2 H.
  - destruct l2 as [|b l2]; cbn [List.map] in H.
    { cbn in H. by injection H. }
    exfalso. destruct (Hh b) as (c & s & Hb & ?).
    destruct l2; cbn [List.map] in H; rewrite ?join_cons2, ?join_one, Hb in H;
      autorewrite with pystr in H; injection H as H _; naive_solver.
  - destruct l2 as [|b l2]; cbn [List.map] in H.
    { exfalso. destruct (Hh a) as (c & s & Hb & ?).
      destruct l1; cbn [List.map] in H; rewrite ?join_cons2, ?join_one, Hb in H;
        autorewrite with pystr in H; injection H as H _; naive_solver. }
    destruct l1 as [|a' l1], l2 as [|b' l2]; cbn [List.map] in H;
      rewrite ?join_cons2, ?join_one, ?app_assoc_str in H; apply Ha in H as [-> H];
      autorewrite with pystr; cbn; try (destruct Hcl; subst; tauto);
      try (autorewrite with pystr in H; destruct Hcl; subst; discriminate H).
    + injection H as H. by subst.
    + autorewrite with pystr in H. injection H as H.
      destruct (IH (b' :: l2)) as [E ->]; [done|]. by rewrite E.
Qed.

Lemma enc_prefix j : prefix_free j.
Proof.
  induction j as [|b|z|s|l IH|kvs IH] using json_ind; intros j2 r1 r2 D1 D2 H;
    match goal with |- ?j1 = _ ∧ _ =>
      destruct (enc_head j1) as (c1 & t1 & E1 & K1); destruct (enc_head j2) as (c2 & t2 & E2 & K2)
    end;
    assert (c1 = c2) as <-
      by (rewrite E1, E2, !app_cons in H; by injection H);
    pose proof (head_kind_same _ _ _ K1 K2) as HK; clear E1 E2 K1 K2 t1 t2 c1;
    destruct j2 as [|b2|z2|s2|l2|kvs2]; cbn in HK; try tauto; subst.
  - split; [done|]. by injection H.
  - split; [done|]. destruct b2; by injection H.
  - cbn [enc] in H. apply pretty_prefix in H as [-> ->]; done.
  - cbn [enc] in H. apply quote_prefix in H as [-> ->]; done.
  - cbn [enc] in H. rewrite !app_assoc_str, !app_cons, !app_empty in H. injection H as H.
    apply (items_prefix enc) in H as [-> ->]; [done|exact (λ _, True)|by left|exact IH|].
    intros a. destruct (enc_head a) as (c & s & E & K). exists c, s.
    split; [done|]. by eapply head_kind_not_delim.
  - cbn [enc] in H. rewrite !app_assoc_str, !app_cons, !app_empty in H. injection H as H.
    apply (items_prefix (λ kv, quote (fst kv) ++ ":" ++ enc (snd kv))%string) in H as [-> ->];
      [done|exact (λ _, True)|by right| |].
    + eapply Forall_impl; [exact IH|]. intros [k v] Hv [k' v'] s1 s2 Ds1 Ds2. cbn in *.
      rewrite !app_assoc_str. intros E. apply quote_prefix in E as [-> E].
      rewrite !app_cons, !app_empty in E. injection E as E.
      apply Hv in E as [-> ->]; done.
    + intros [k v]. by eexists _, _.
Qed.

(** Canonical text determines the value up to key order. *)
Theorem dumps_inj j1 j2 : dumps j1 = dumps j2 → canon j1 = canon j2.
Proof.
  unfold dumps. intros H. apply (enc_prefix (canon j1) (canon j2) "" ""); [done..|].
  by rewrite H.
Qed.

Lemma JOpt_str_inj a b : canon (JOpt JStr a) = canon (JOpt JStr b) → a = b.
Proof. destruct a, b; cbn; congruence. Qed.
