(* ===== verification/JsonParse.v ===== *)
(** * JsonParse: [json.loads] and its round trip with [json.dumps]

    The scanner of the standard library's [json] module on text of code points
    below 256: white space, literals (the [NaN] and [Infinity] extensions
    included), integers, floats (kept as the text they are written with),
    strings with their escapes in strict mode, arrays and objects, where a
    repeated key keeps its first place and its last value.  An escape of a code
    point above 255 is outside the model and refused.  The scanner recurses on
    fuel; [pvalue_fuel] says that more than twice the length of the text changes
    nothing, so the fuel of [loads] never decides an answer. *)

From S2P Require Import Prelude PyStr PyDict Json.
From Stdlib Require Import Ascii String ZArith Lia.
From stdpp Require Import base strings pretty list.

Local Open Scope string_scope.
Local Open Scope Z_scope.
Local Open Scope aipm_scope.

(** ** Values *)

#[local] Unset Elimination Schemes.
Inductive pyval :=
  | VNull
  | VBool (b : bool)
  | VInt (z : Z)
  | VFloat (text : string)
  | VStr (s : string)
  | VArr (l : list pyval)
  | VObj (d : dict string pyval).
#[local] Set Elimination Schemes.

(** The dictionary of a sequence of pairs. *)
Definition py_dict (kvs : list (string * pyval)) : dict string pyval :=
  fold_left (λ d kv, dset (fst kv) (snd kv) d) kvs [].

Fixpoint of_json (j : json) : pyval :=
  match j with
  | JNull => VNull
  | JBool b => VBool b
  | JInt z => VInt z
  | JStr s => VStr s
  | JArr l => VArr (List.map of_json l)
  | JObj kvs => VObj (py_dict (List.map (λ kv, (fst kv, of_json (snd kv))) kvs))
  end.

(** ** Scanner *)

Definition is_json_space (c : ascii) : bool := one_of " " c || (ord c =? 9) || (ord c =? 10) || (ord c =? 13).
Fixpoint skip (s : string) : string :=
  match s with
  | EmptyString => EmptyString
  | String c r => if is_json_space c then skip r else s
  end.

Definition hex_value (c : ascii) : option nat :=
  let n := nat_of_ascii c in
  if is_digit c then Some (n - 48)%nat
  else if PyStr.between 97 102 c then Some (n - 87)%nat
  else if PyStr.between 65 70 c then Some (n - 55)%nat
  else None.

(** The character of a one-letter escape. *)
Definition simple_escape (c : ascii) : option ascii :=
  if Ascii.eqb c dquote || Ascii.eqb c "\" || Ascii.eqb c "/" then Some c
  else if Ascii.eqb c "b" then Some (ascii_of_nat 8)
  else if Ascii.eqb c "f" then Some (ascii_of_nat 12)
  else if Ascii.eqb c "n" then Some (ascii_of_nat 10)
  else if Ascii.eqb c "r" then Some (ascii_of_nat 13)
  else if Ascii.eqb c "t" then Some (ascii_of_nat 9)
  else None.

Definition put_char (c : ascii) (o : option (string * string)) : option (string * string) :=
  match o with Some (s, r) => Some (String c s, r) | None => None end.

(** The text of a string literal after its opening quote, and what follows. *)
Fixpoint pstring (s : string) : option (string * string) :=
  match s with
  | EmptyString => None
  | String c r =>
      if Ascii.eqb c dquote then Some (EmptyString, r)
      else if Ascii.eqb c "\" then
        match r with
        | EmptyString => None
        | String e r1 =>
            if Ascii.eqb e "u" then
              match r1 with
              | String h1 (String h2 (String h3 (String h4 r2))) =>
                  match hex_value h1, hex_value h2, hex_value h3, hex_value h4 with
                  | Some O, Some O, Some a, Some b => put_char (ascii_of_nat (a * 16 + b)) (pstring r2)
                  | _, _, _, _ => None
                  end
              | _ => None
              end
            else match simple_escape e with
                 | Some d => put_char d (pstring r1)
                 | None => None
                 end
        end
      else if ord c <? 32 then None
      else put_char c (pstring r)
  end.

Fixpoint take_digits (s : string) : string * string :=
  match s with
  | EmptyString => (EmptyString, EmptyString)
  | String c r => if is_digit c then let '(ds, r') := take_digits r in (String c ds, r') else (EmptyString, s)
  end.

(** The digits in base 10, most significant first, after the value [acc]. *)
Fixpoint digits_value (s : string) (acc : Z) : Z :=
  match s with
  | EmptyString => acc
  | String c r => digits_value r (acc * 10 + (ord c - 48))
  end.

(** The integer part of a number (a leading zero stands alone): sign, digits, rest. *)
Definition pinteger (s : string) : option (bool * string * string) :=
  let '(neg, s1) := match s with String "-" r => (true, r) | _ => (false, s) end in
  match s1 with
  | String c r =>
      if Ascii.eqb c "0" then Some (neg, "0", r)
      else if is_digit c then let '(ds, r') := take_digits s1 in Some (neg, ds, r')
      else None
  | EmptyString => None
  end.
(** The optional fraction and exponent: the text and the rest. *)
Definition pfraction (s : string) : string * string :=
  match s with
  | String "." r => match take_digits r with
                    | (EmptyString, _) => (EmptyString, s)
                    | (ds, r') => (String "." ds, r')
                    end
  | _ => (EmptyString, s)
  end.
Definition pexponent (s : string) : string * string :=
  match s with
  | String e r =>
      if Ascii.eqb e "e" || Ascii.eqb e "E" then
        let '(sign, r1) := match r with
                           | String g r1 => if Ascii.eqb g "+" || Ascii.eqb g "-" then (String g EmptyString, r1)
                                            else (EmptyString, r)
                           | EmptyString => (EmptyString, r)
                           end in
        match take_digits r1 with
        | (EmptyString, _) => (EmptyString, s)
        | (ds, r') => (String e (sign ++ ds), r')
        end
      else (EmptyString, s)
  | EmptyString => (EmptyString, s)
  end.
Definition pnumber (s : string) : option (pyval * string) :=
  match pinteger s with
  | None => None
  | Some (neg, ds, r) =>
      let '(frac, r1) := pfraction r in
      let '(ex, r2) := pexponent r1 in
      if str_eqb frac "" && str_eqb ex "" then
        Some (VInt (if neg then - digits_value ds 0 else digits_value ds 0), r2)
      else Some (VFloat ((if neg then "-" else "") ++ ds ++ frac ++ ex), r2)
  end.

(** [s] begins with the literal [w]: what follows it. *)
Fixpoint after (w s : string) : option string :=
  match w, s with
  | EmptyString, _ => Some s
  | String c w', String d s' => if Ascii.eqb c d then after w' s' else None
  | String _ _, EmptyString => None
  end.
Definition literals : list (string * pyval) :=
  [("null", VNull); ("true", VBool true); ("false", VBool false); ("NaN", VFloat "NaN");
   ("Infinity", VFloat "Infinity"); ("-Infinity", VFloat "-Infinity")].
Fixpoint pliteral (ws : list (string * pyval)) (s : string) : option (pyval * string) :=
  match ws with
  | [] => None
  | (w, v) :: ws' => match after w s with Some r => Some (v, r) | None => pliteral ws' s end
  end.

Fixpoint pvalue (fuel : nat) (s : string) : option (pyval * string) :=
  match fuel with
  | O => None
  | S n =>
      match s with
      | EmptyString => None
      | String c r =>
          if Ascii.eqb c dquote then
            match pstring r with Some (t, r') => Some (VStr t, r') | None => None end
          else if Ascii.eqb c "{" then
            match skip r with
            | EmptyString => None
            | String d r' =>
                if Ascii.eqb d "}" then Some (VObj [], r')
                else match pmembers n (String d r') with
                     | Some (kvs, r'') => Some (VObj (py_dict kvs), r'')
                     | None => None
                     end
            end
          else if Ascii.eqb c "[" then
            match skip r with
            | EmptyString => None
            | String d r' =>
                if Ascii.eqb d "]" then Some (VArr [], r')
                else match pelements n (String d r') with
                     | Some (l, r'') => Some (VArr l, r'')
                     | None => None
                     end
            end
          else match pliteral literals s with
               | Some x => Some x
               | None => pnumber s
               end
      end
  end
with pmembers (fuel : nat) (s : string) : option (list (string * pyval) * string) :=
  match fuel with
  | O => None
  | S n =>
      match s with
      | String q r =>
          if Ascii.eqb q dquote then
            match pstring r with
            | None => None
            | Some (k, r1) =>
                match skip r1 with
                | String ":" r2 =>
                    match pvalue n (skip r2) with
                    | None => None
                    | Some (v, r3) =>
                        match skip r3 with
                        | String "}" r4 => Some ([(k, v)], r4)
                        | String "," r4 =>
                            match pmembers n (skip r4) with
                            | Some (kvs, r5) => Some ((k, v) :: kvs, r5)
                            | None => None
                            end
                        | _ => None
                        end
                    end
                | _ => None
                end
            end
          else None
      | EmptyString => None
      end
  end
with pelements (fuel : nat) (s : string) : option (list pyval * string) :=
  match fuel with
  | O => None
  | S n =>
      match pvalue n s with
      | None => None
      | Some (v, r1) =>
          match skip r1 with
          | String "]" r2 => Some ([v], r2)
          | String "," r2 =>
              match pelements n (skip r2) with
              | Some (l, r3) => Some (v :: l, r3)
              | None => None
              end
          | _ => None
          end
      end
  end.

(** [json.loads(s)]; every refusal is a [json.JSONDecodeError]. *)
Definition loads (s : string) : result pyval :=
  let s1 := skip s in
  match pvalue (S (2 * String.length s1)) s1 with
  | Some (v, r) => if str_eqb (skip r) "" then Ok v else Raise JSONDecodeError
  | None => Raise JSONDecodeError
  end.

Example loads_ex1 :
  loads (" {" ++ quote "a" ++ ": [1, -20, 3.5e+1], " ++ quote "b" ++ " :null," ++ quote "a" ++ ":" ++
         quote "x" ++ "} ")
  = Ok (VObj [("a", VStr "x"); ("b", VNull)]).
Proof. vm_compute. reflexivity. Qed.
Example loads_ex2 : loads "[01]" = Raise JSONDecodeError ∧ loads "1.5e3" = Ok (VFloat "1.5e3") ∧
  loads "[1,]" = Raise JSONDecodeError ∧ loads "-0" = Ok (VInt 0) ∧ loads "-Infinity" = Ok (VFloat "-Infinity").
Proof. vm_compute. auto. Qed.

(** ** Reading back what [json.dumps] writes *)

Lemma pstring_esc_char c t : pstring (esc_char c ++ t) = put_char c (pstring t).
Proof. destruct c as [[] [] [] [] [] [] [] []]; reflexivity. Qed.

Lemma pstring_esc s r : pstring (esc s ++ String dquote r) = Some (s, r).
Proof.
  induction s as [|c s IH]; cbn [esc]; [reflexivity|].
  by rewrite app_assoc_str, pstring_esc_char, IH.
Qed.

(** *** Numbers *)

#[local] Arguments is_digit : simpl never.

Definition not_digit_head (r : string) : Prop :=
  match r with String c _ => is_digit c = false | EmptyString => True end.

Lemma take_digits_app ds r : str_all is_digit ds = true → not_digit_head r → take_digits (ds ++ r) = (ds, r).
Proof.
  intros Hd Hr. induction ds as [|c ds IH]; cbn.
  - rewrite app_empty. destruct r as [|c r]; [done|]. cbn in *. by rewrite Hr.
  - cbn in Hd. apply andb_true_iff in Hd as [Hc Hd]. rewrite app_cons. cbn. by rewrite Hc, IH.
Qed.

Lemma pretty_N_char_digit x : (x < 10)%N →
  is_digit (pretty_N_char x) = true ∧ ord (pretty_N_char x) = 48 + Z.of_N x.
Proof.
  intros Hx. assert (x = 0 ∨ x = 1 ∨ x = 2 ∨ x = 3 ∨ x = 4 ∨ x = 5 ∨ x = 6 ∨ x = 7 ∨ x = 8 ∨ x = 9)%N as H by lia.
  by repeat destruct H as [->|H]; [..|subst x].
Qed.

Lemma pretty_N_go_digits x : ∀ s, str_all is_digit s = true →
  str_all is_digit (pretty_N_go x s) = true ∧ digits_value (pretty_N_go x s) 0 = digits_value s (Z.of_N x).
Proof.
  induction (N.lt_wf_0 x) as [x _ IH]. intros s Hs.
  assert (x = 0 ∨ 0 < x)%N as [->|Hx] by lia; [by rewrite pretty_N_go_0|].
  rewrite pretty_N_go_step by done.
  destruct (pretty_N_char_digit (x mod 10)) as [Hd Ho]; [apply N.mod_lt; lia|].
  destruct (IH (x / 10)%N) with (s := String (pretty_N_char (x mod 10)) s) as [H1 H2];
    [by apply N.div_lt|cbn; by rewrite Hd|].
  split; [done|]. rewrite H2. cbn [digits_value]. f_equal. rewrite Ho.
  pose proof (N.div_mod x 10). lia.
Qed.

Lemma pretty_N_go_head x : (0 < x)%N → ∀ s, ∃ c t, pretty_N_go x s = String c t ∧ is_digit c = true ∧ c ≠ "0"%char.
Proof.
  induction (N.lt_wf_0 x) as [x _ IH]. intros Hx s. rewrite pretty_N_go_step by done.
  destruct (decide (x < 10)%N) as [Hlt|Hge].
  - rewrite (N.div_small x 10), pretty_N_go_0, (N.mod_small x 10) by done. eexists _, s. split; [done|].
    destruct (pretty_N_char_digit x Hlt) as [Hd Ho]. split; [done|]. intros E. rewrite E in Ho. change (ord "0") with 48 in Ho. lia.
  - apply IH; [by apply N.div_lt|]. apply N.div_str_pos. lia.
Qed.

Lemma pinteger_pos p r : not_digit_head r →
  ∃ ds, pretty (N.pos p) = ds ∧ pinteger (ds ++ r) = Some (false, ds, r) ∧
    pinteger (String "-" (ds ++ r)) = Some (true, ds, r) ∧ digits_value ds 0 = Z.pos p ∧
    (∃ c t, ds = String c t ∧ is_digit c = true).
Proof.
  intros Hr. exists (pretty (N.pos p)). split; [done|].
  assert (pretty (N.pos p) = pretty_N_go (N.pos p) "") as Hp by done. rewrite Hp.
  destruct (pretty_N_go_digits (N.pos p) "" eq_refl) as [Hall Hval].
  destruct (pretty_N_go_head (N.pos p) eq_refl "") as (c & t & E & Hc & Hne).
  rewrite E in *. assert (Ascii.eqb c "0" = false) as H0 by by apply Ascii.eqb_neq.
  assert (c ≠ "-"%char) as Hm by (intros ->; discriminate Hc).
  pose proof (take_digits_app (String c t) r Hall Hr) as Ht.
  split_and!; [| |done|by eexists _, _].
  - unfold pinteger. rewrite app_cons in *.
    assert ((match String c (t ++ r) with String "-" r0 => (true, r0) | _ => (false, String c (t ++ r)) end)
            = (false, String c (t ++ r))) as ->.
    { destruct c as [[] [] [] [] [] [] [] []]; try reflexivity. done. }
    by rewrite H0, Hc, Ht.
  - unfold pinteger. rewrite app_cons in *. by rewrite H0, Hc, Ht.
Qed.

Lemma delimited_not_digit r : delimited r → not_digit_head r.
Proof. destruct r as [|c r]; [done|]. by intros [-> | [-> | ->]]. Qed.

Lemma delimited_no_tail r : delimited r → pfraction r = ("", r) ∧ pexponent r = ("", r).
Proof. destruct r as [|c r]; [done|]. by intros [-> | [-> | ->]]. Qed.

Lemma pnumber_pretty (z : Z) r : delimited r → pnumber (pretty z ++ r) = Some (VInt z, r).
Proof.
  intros Hr. destruct (delimited_no_tail r Hr) as [Hf He]. pose proof (delimited_not_digit r Hr) as Hd.
  assert (Hmain : ∀ neg ds, pinteger (pretty z ++ r) = Some (neg, ds, r) →
            (if neg then - digits_value ds 0 else digits_value ds 0) = z → pnumber (pretty z ++ r) = Some (VInt z, r)).
  { intros neg ds E Ez. unfold pnumber. rewrite E, Hf, He. cbn. by rewrite Ez. }
  destruct z as [|p|p].
  - by apply (Hmain false "0").
  - destruct (pinteger_pos p r Hd) as (ds & E & H1 & _ & Hv & _).
    apply (Hmain false ds); [|done]. change (pretty (Z.pos p)) with (pretty (N.pos p)). by rewrite E.
  - destruct (pinteger_pos p r Hd) as (ds & E & _ & H2 & Hv & _).
    apply (Hmain true ds); [|by rewrite Hv].
    change (pretty (Z.neg p)) with ("-" ++ pretty (N.pos p)). by rewrite E.
Qed.

(** A number is none of the literals. *)
Lemma pliteral_number (z : Z) r : pliteral literals (pretty z ++ r) = None.
Proof.
  assert (Hdig : ∀ c t, is_digit c = true → pliteral literals (String c t) = None ∧
             pliteral literals (String "-" (String c t)) = None).
  { intros c t Hc. destruct c as [[] [] [] [] [] [] [] []]; try discriminate Hc; by split. }
  destruct z as [|p|p]; [done| |].
  - destruct (pinteger_pos p "" I) as (ds & E & _ & _ & _ & (c & t & -> & Hc)).
    change (pretty (Z.pos p)) with (pretty (N.pos p)). rewrite E. by apply Hdig.
  - destruct (pinteger_pos p "" I) as (ds & E & _ & _ & _ & (c & t & -> & Hc)).
    change (pretty (Z.neg p)) with ("-" ++ pretty (N.pos p)). rewrite E. by apply Hdig.
Qed.

(** *** Values *)

Lemma skip_head c t : is_json_space c = false → skip (String c t) = String c t.
Proof. intros H. cbn [skip]. by rewrite H. Qed.
Lemma skip_delimited r : delimited r → skip r = r.
Proof. destruct r as [|c r]; [done|]. intros [-> | [-> | ->]]; reflexivity. Qed.

Lemma num_char_plain c : num_char c = true →
  Ascii.eqb c dquote = false ∧ Ascii.eqb c "{" = false ∧ Ascii.eqb c "[" = false ∧ is_json_space c = false.
Proof. destruct c as [[] [] [] [] [] [] [] []]; intros H; try discriminate H; auto. Qed.

Lemma enc_skip j r : skip (enc j ++ r) = enc j ++ r.
Proof.
  destruct (enc_head j) as (c & t & -> & Hk). rewrite app_cons. apply skip_head.
  destruct j as [|[]|z|s|l|kvs]; cbn in Hk; try by subst. by apply num_char_plain.
Qed.

(** A non-empty array or object: the scanner reads its items next. *)
Lemma pvalue_array n x r : is_json_space x = false → x ≠ "]"%char →
  pvalue (S n) (String "[" (String x r)) =
  match pelements n (String x r) with Some (l, r') => Some (VArr l, r') | None => None end.
Proof. intros Hs Hx. cbn [pvalue]. rewrite skip_head by done. cbn. by apply Ascii.eqb_neq in Hx as ->. Qed.
Lemma pvalue_object n x r : is_json_space x = false → x ≠ "}"%char →
  pvalue (S n) (String "{" (String x r)) =
  match pmembers n (String x r) with Some (kvs, r') => Some (VObj (py_dict kvs), r') | None => None end.
Proof. intros Hs Hx. cbn [pvalue]. rewrite skip_head by done. cbn. by apply Ascii.eqb_neq in Hx as ->. Qed.

#[local] Notation join := Json.join (only parsing).

Definition reads_back (j : json) : Prop := ∀ n r,
  (String.length (enc j) < n)%nat → delimited r → pvalue n (enc j ++ r) = Some (of_json j, r).

Lemma pelements_enc l : Forall reads_back l → l ≠ [] → ∀ n r,
  (S (String.length (join (List.map enc l))) < n)%nat →
  pelements n (join (List.map enc l) ++ String "]" r) = Some (List.map of_json l, r).
Proof.
  induction 1 as [|j l Hj Hl IH]; [done|]. intros _ n r Hn. destruct n as [|n]; [lia|]. cbn [pelements].
  destruct l as [|j' l]; cbn [List.map] in *.
  - rewrite join_one in *. rewrite Hj; [|lia|by right; left]. rewrite skip_delimited by (by right; left). done.
  - rewrite join_cons2 in *. rewrite !app_assoc_str, !app_cons, !app_empty.
    rewrite !length_app_str in Hn. cbn [String.length] in Hn.
    rewrite Hj; [|lia|by left]. rewrite skip_delimited by (by left). cbn beta iota.
    assert (skip (join (enc j' :: List.map enc l) ++ String "]" r) = join (enc j' :: List.map enc l) ++ String "]" r)
      as ->.
    { destruct l as [|j'' l]; cbn [List.map]; rewrite ?join_cons2, ?join_one, ?app_assoc_str; apply enc_skip. }
    by rewrite (IH ltac:(done) n r) by lia.
Qed.

Definition member_text (kv : string * json) : string := quote (fst kv) ++ ":" ++ enc (snd kv).

Lemma pmembers_enc kvs : Forall (λ kv, reads_back (snd kv)) kvs → kvs ≠ [] → ∀ n r,
  (S (String.length (join (List.map member_text kvs))) < n)%nat →
  pmembers n (join (List.map member_text kvs) ++ String "}" r) =
  Some (List.map (λ kv, (fst kv, of_json (snd kv))) kvs, r).
Proof.
  induction 1 as [|[k j] l Hj Hl IH]; [done|]. intros _ n r Hn. destruct n as [|n]; [lia|].
  change (reads_back j) in Hj.
  assert (Hfirst : ∀ t, delimited t →
    pmembers (S n) (member_text (k, j) ++ t) =
    match skip t with
    | String "}" r4 => Some ([(k, of_json j)], r4)
    | String "," r4 =>
        match pmembers n (skip r4) with
        | Some (kvs, r5) => Some ((k, of_json j) :: kvs, r5)
        | None => None
        end
    | _ => None
    end).
  { intros t Ht. unfold member_text, quote. cbn [fst snd]. rewrite !app_cons, !app_assoc_str. cbn [pmembers].
    rewrite Ascii.eqb_refl, !app_cons, !app_empty, pstring_esc.
    change (skip (String ":" (enc j ++ t))) with (String ":" (enc j ++ t)). cbn beta iota.
    rewrite enc_skip, Hj; [done| |done].
    destruct l as [|kv' l']; cbn [List.map] in Hn; rewrite ?join_cons2, ?join_one in Hn;
      rewrite ?length_app_str in Hn; unfold member_text at 1 in Hn; rewrite ?length_app_str in Hn;
      cbn [fst snd String.length] in Hn; lia. }
  destruct l as [|kv' l]; cbn [List.map fst snd] in *.
  - rewrite join_one, Hfirst by (by right; right). by rewrite skip_delimited by (by right; right).
  - rewrite join_cons2, !app_assoc_str, !app_cons, !app_empty in *. rewrite Hfirst by (by left).
    rewrite skip_delimited by (by left). cbn beta iota.
    assert (skip (join (member_text kv' :: List.map member_text l) ++ String "}" r)
            = join (member_text kv' :: List.map member_text l) ++ String "}" r) as ->.
    { destruct l as [|kv'' l]; cbn [List.map]; rewrite ?join_cons2, ?join_one, ?app_assoc_str; reflexivity. }
    rewrite !length_app_str in Hn. cbn [String.length] in Hn. by rewrite (IH ltac:(done) n r) by lia.
Qed.

Lemma enc_reads_back j : reads_back j.
Proof.
  induction j as [|b|z|s|l IH|kvs IH] using json_ind; intros [|n] r Hn Hr; try lia.
  - reflexivity.
  - by destruct b.
  - cbn [enc of_json] in *. destruct (pretty_Z_head z) as (c & t & E & Hc).
    pose proof (num_char_plain c Hc) as (H1 & H2 & H3 & _).
    pose proof (pliteral_number z r) as Hl. pose proof (pnumber_pretty z r Hr) as Hnum.
    rewrite E, app_cons in *. cbn [pvalue]. by rewrite H1, H2, H3, Hl.
  - cbn [enc of_json] in *. unfold quote. rewrite app_cons, app_assoc_str. cbn [pvalue].
    by rewrite Ascii.eqb_refl, app_cons, app_empty, pstring_esc.
  - cbn [enc of_json] in *. rewrite !app_assoc_str, !app_cons, !app_empty in *.
    destruct l as [|j l]; [reflexivity|].
    destruct (enc_head j) as (c & t & E & Hk).
    assert (∃ u, join (List.map enc (j :: l)) ++ String "]" r = String c u) as (u & Eu).
    { destruct l; cbn [List.map]; rewrite ?join_cons2, ?join_one, ?app_assoc_str, E, app_cons; by eexists. }
    rewrite Eu. rewrite pvalue_array.
    + rewrite <- Eu. rewrite pelements_enc; [done|done|done|].
      cbn [String.length] in Hn. rewrite ?length_app_str in Hn. cbn [String.length] in Hn. lia.
    + pose proof (enc_skip j "") as Hs. rewrite E, app_cons in Hs. cbn [skip] in Hs.
      destruct (is_json_space c); [|done]. exfalso.
      assert (∀ s, (String.length (skip s) ≤ String.length s)%nat) as Hle.
      { induction s as [|d s IHs]; cbn; [lia|]. case_match; cbn; lia. }
      pose proof (Hle (t ++ "")) as Hlt. rewrite Hs in Hlt. cbn in Hlt. lia.
    + by apply (head_kind_not_delim j).
  - cbn [enc of_json] in *. rewrite !app_assoc_str, !app_cons, !app_empty in *.
    destruct kvs as [|[k j] kvs]; [reflexivity|].
    change (List.map (λ kv : string * json, quote (fst kv) ++ ":" ++ enc (snd kv)) ((k, j) :: kvs))
      with (List.map member_text ((k, j) :: kvs)) in *.
    assert (∃ u, join (List.map member_text ((k, j) :: kvs)) ++ String "}" r = String dquote u) as (u & Eu).
    { destruct kvs; cbn [List.map]; rewrite ?join_cons2, ?join_one, ?app_assoc_str;
        unfold member_text at 1; unfold quote at 1; rewrite !app_assoc_str, !app_cons; by eexists. }
    rewrite Eu, pvalue_object by done. rewrite <- Eu, pmembers_enc; [done|done|done|].
    cbn [String.length] in Hn. rewrite ?length_app_str in Hn. cbn [String.length] in Hn. lia.
Qed.

(** ** Fuel *)


#[local] Notation len := String.length.

Lemma skip_len s : (len (skip s) ≤ len s)%nat.
Proof. induction s as [|c s IH]; cbn; [lia|]. case_match; cbn; lia. Qed.

Lemma put_char_Some c o t r : put_char c o = Some (t, r) → ∃ t', o = Some (t', r).
Proof. destruct o as [[t' r']|]; [|done]. intros [= _ <-]. by eexists. Qed.

Lemma pstring_len n : ∀ s t r, (len s ≤ n)%nat → pstring s = Some (t, r) → (len r < len s)%nat.
Proof.
  induction n as [|n IH]; intros [|c s] t r Hn; cbn [pstring len] in *; try done; [lia|].
  destruct (Ascii.eqb c dquote); [intros [= _ <-]; lia|].
  destruct (Ascii.eqb c "\"); [|destruct (ord c <? 32); [done|]; intros (t' & E)%put_char_Some; apply IH in E; lia].
  destruct s as [|e s1]; [done|]. cbn [len] in *. destruct (Ascii.eqb e "u").
  - destruct s1 as [|h1 [|h2 [|h3 [|h4 s2]]]]; try done. cbn [len] in *.
    destruct (hex_value h1) as [[|]|], (hex_value h2) as [[|]|], (hex_value h3), (hex_value h4); try done.
    intros (t' & E)%put_char_Some. apply IH in E; lia.
  - destruct (simple_escape e); [|done]. intros (t' & E)%put_char_Some. apply IH in E; lia.
Qed.

Lemma take_digits_len s : (len (snd (take_digits s)) ≤ len s)%nat.
Proof. induction s as [|c s IH]; cbn; [lia|]. destruct (is_digit c); [|done]. destruct (take_digits s). cbn in *. lia. Qed.

Lemma after_len w : ∀ s r, w ≠ "" → after w s = Some r → (len r < len s)%nat.
Proof.
  induction w as [|c w IH]; [done|]. intros [|d s] r _; cbn [after len]; [done|].
  destruct (Ascii.eqb c d); [|done]. destruct w as [|c' w].
  - cbn. intros [= <-]. lia.
  - intros E. apply IH in E; [lia|done].
Qed.
Lemma pliteral_len s v r : pliteral literals s = Some (v, r) → (len r < len s)%nat.
Proof.
  unfold literals. cbn [pliteral]. intros E.
  repeat match type of E with
    | match after ?w s with _ => _ end = _ =>
        destruct (after w s) eqn:Ea; [injection E as _ <-; apply after_len in Ea; done|clear Ea]
    end.
  done.
Qed.

Lemma pnumber_len s v r : pnumber s = Some (v, r) → (len r < len s)%nat.
Proof.
  unfold pnumber. destruct (pinteger s) as [[[neg ds] r0]|] eqn:Ei; [|done].
  assert (len r0 < len s)%nat as H0.
  { unfold pinteger in Ei.
    assert (∃ neg' s1, (match s with String "-" r1 => (true, r1) | _ => (false, s) end) = (neg', s1)
              ∧ (len s1 ≤ len s)%nat) as (neg' & s1 & E & Hs1).
    { destruct s as [|c s']; [by exists false, ""|].
      destruct (decide (c = "-"%char)) as [->|Hne]; [exists true, s'; split; [done|cbn; lia]|].
      exists false, (String c s'). split; [|done]. destruct c as [[] [] [] [] [] [] [] []]; done. }
    rewrite E in Ei. destruct s1 as [|c s2]; [done|]. cbn [len] in *.
    destruct (Ascii.eqb c "0"); [injection Ei as _ _ <-; lia|].
    destruct (is_digit c) eqn:Ec; [|done]. pose proof (take_digits_len s2) as Hd.
    cbn [take_digits] in Ei. rewrite Ec in Ei. destruct (take_digits s2). cbn in *. injection Ei as _ _ <-. lia. }
  assert (len (snd (pfraction r0)) ≤ len r0)%nat as H1.
  { unfold pfraction. destruct r0 as [|c r1]; [done|]. pose proof (take_digits_len r1) as Hd.
    destruct c as [[] [] [] [] [] [] [] []]; try (cbn; lia).
    destruct (take_digits r1) as [[|] r2]; cbn in *; lia. }
  destruct (pfraction r0) as [frac r1]. cbn in H1.
  assert (len (snd (pexponent r1)) ≤ len r1)%nat as H2.
  { unfold pexponent. destruct r1 as [|e r2]; [done|]. destruct (_ || _); [|done].
    assert (∃ sg r3, (match r2 with String g r3 => if Ascii.eqb g "+" || Ascii.eqb g "-" then (String g "", r3) else ("", r2)
                                | "" => ("", r2) end) = (sg, r3) ∧ (len r3 ≤ len r2)%nat) as (sg & r3 & -> & Hr3).
    { destruct r2 as [|g r3]; [by exists "", ""|].
      destruct (_ || _); [exists (String g ""), r3|exists "", (String g r3)]; (split; [done|cbn; lia]). }
    pose proof (take_digits_len r3) as Hd. destruct (take_digits r3) as [[|] r4]; cbn in *; lia. }
  destruct (pexponent r1) as [ex r2]. cbn in H2. destruct (_ && _); intros [= _ <-]; lia.
Qed.

Lemma scan_len n :
  (∀ s v r, pvalue n s = Some (v, r) → (len r < len s)%nat) ∧
  (∀ s v r, pmembers n s = Some (v, r) → (len r < len s)%nat) ∧
  (∀ s v r, pelements n s = Some (v, r) → (len r < len s)%nat).
Proof.
  induction n as [|n (IHv & IHm & IHe)]; [done|].
  assert (Hskip : ∀ s c r, skip s = String c r → (len r < len s)%nat).
  { intros s c r E. pose proof (skip_len s). rewrite E in *. cbn in *. lia. }
  split_and!; intros s v r; cbn [pvalue pmembers pelements].
  - destruct s as [|c s]; [done|]. destruct (Ascii.eqb c dquote).
    { destruct (pstring s) as [[t r']|] eqn:E; [|done]. intros [= _ <-]. apply pstring_len with (n := len s) in E;
        cbn; lia. }
    destruct (Ascii.eqb c "{").
    { destruct (skip s) as [|d r'] eqn:E; [done|]. pose proof (Hskip _ _ _ E) as Hl.
      pose proof (skip_len s) as Hs. rewrite E in Hs. destruct (Ascii.eqb d "}"); [intros [= _ <-]; cbn; lia|].
      destruct (pmembers n (String d r')) as [[kvs r'']|] eqn:Em; [|done]. intros [= _ <-].
      apply IHm in Em. cbn in *. lia. }
    destruct (Ascii.eqb c "[").
    { destruct (skip s) as [|d r'] eqn:E; [done|]. pose proof (Hskip _ _ _ E) as Hl.
      pose proof (skip_len s) as Hs. rewrite E in Hs. destruct (Ascii.eqb d "]"); [intros [= _ <-]; cbn; lia|].
      destruct (pelements n (String d r')) as [[kvs r'']|] eqn:Em; [|done]. intros [= _ <-].
      apply IHe in Em. cbn in *. lia. }
    destruct (pliteral literals (String c s)) as [[v' r']|] eqn:E.
    + intros [= _ <-]. by apply pliteral_len in E.
    + apply pnumber_len.
  - destruct s as [|q s]; [done|]. destruct (Ascii.eqb q dquote); [|done].
    destruct (pstring s) as [[k r1]|] eqn:E1; [|done]. apply pstring_len with (n := len s) in E1; [|done].
    destruct (skip r1) as [|c r2] eqn:E2; [done|]. apply Hskip in E2.
    destruct c as [[] [] [] [] [] [] [] []]; try done.
    destruct (pvalue n (skip r2)) as [[x r3]|] eqn:E3; [|done]. apply IHv in E3. pose proof (skip_len r2).
    destruct (skip r3) as [|c r4] eqn:E4; [done|]. apply Hskip in E4.
    destruct c as [[] [] [] [] [] [] [] []]; try done.
    + intros [= _ <-]. cbn. lia.
    + destruct (pmembers n (skip r4)) as [[kvs r5]|] eqn:E5; [|done]. apply IHm in E5. pose proof (skip_len r4).
      intros [= _ <-]. cbn. lia.
  - destruct (pvalue n s) as [[x r1]|] eqn:E1; [|done]. apply IHv in E1.
    destruct (skip r1) as [|c r2] eqn:E2; [done|]. apply Hskip in E2.
    destruct c as [[] [] [] [] [] [] [] []]; try done.
    + intros [= _ <-]. lia.
    + destruct (pelements n (skip r2)) as [[l r3]|] eqn:E3; [|done]. apply IHe in E3. pose proof (skip_len r2).
      intros [= _ <-]. lia.
Qed.

(** The answer does not depend on the fuel, once it exceeds twice the length. *)
Lemma scan_fuel n :
  (∀ s m, (2 * len s < n)%nat → (2 * len s < m)%nat → pvalue n s = pvalue m s) ∧
  (∀ s m, (2 * len s + 1 < n)%nat → (2 * len s + 1 < m)%nat → pmembers n s = pmembers m s) ∧
  (∀ s m, (2 * len s + 1 < n)%nat → (2 * len s + 1 < m)%nat → pelements n s = pelements m s).
Proof.
  induction n as [|n (IHv & IHm & IHe)]; [split_and!; intros; lia|].
  destruct (scan_len n) as (Lv & Lm & Le).
  assert (Hskip : ∀ s c r, skip s = String c r → (len r < len s)%nat).
  { intros s c r E. pose proof (skip_len s). rewrite E in *. cbn in *. lia. }
  split_and!; intros s [|m] Hn Hm; try lia; cbn [pvalue pmembers pelements].
  - destruct s as [|c s]; [done|]. destruct (Ascii.eqb c dquote); [done|]. cbn [len] in *.
    pose proof (skip_len s) as Hs. destruct (Ascii.eqb c "{"); [|destruct (Ascii.eqb c "["); [|done]].
    + destruct (skip s) as [|d r']; [done|]. cbn [len] in *. destruct (Ascii.eqb d "}"); [done|].
      rewrite (IHm (String d r') m) by (cbn [len]; lia). done.
    + destruct (skip s) as [|d r']; [done|]. cbn [len] in *. destruct (Ascii.eqb d "]"); [done|].
      rewrite (IHe (String d r') m) by (cbn [len]; lia). done.
  - destruct s as [|q s]; [done|]. destruct (Ascii.eqb q dquote); [|done]. cbn [len] in *.
    destruct (pstring s) as [[k r1]|] eqn:E1; [|done]. apply pstring_len with (n := len s) in E1; [|done].
    destruct (skip r1) as [|c r2] eqn:E2; [done|]. apply Hskip in E2. pose proof (skip_len r2).
    destruct c as [[] [] [] [] [] [] [] []]; try done.
    rewrite <- (IHv (skip r2) m) by lia.
    destruct (pvalue n (skip r2)) as [[x r3]|] eqn:E3; [|done]. apply Lv in E3.
    destruct (skip r3) as [|c r4] eqn:E4; [done|]. apply Hskip in E4. pose proof (skip_len r4).
    destruct c as [[] [] [] [] [] [] [] []]; try done. by rewrite <- (IHm (skip r4) m) by lia.
  - rewrite <- (IHv s m) by lia. destruct (pvalue n s) as [[x r1]|] eqn:E1; [|done]. apply Lv in E1.
    destruct (skip r1) as [|c r2] eqn:E2; [done|]. apply Hskip in E2. pose proof (skip_len r2).
    destruct c as [[] [] [] [] [] [] [] []]; try done. by rewrite <- (IHe (skip r2) m) by lia.
Qed.
Lemma pvalue_fuel n m s : (2 * len s < n)%nat → (2 * len s < m)%nat → pvalue n s = pvalue m s.
Proof. apply scan_fuel. Qed.

(** ** The round trip *)

Lemma loads_enc j : loads (enc j) = Ok (of_json j).
Proof.
  pose proof (enc_skip j "") as Hs. rewrite app_nil_str in Hs. unfold loads. rewrite Hs.
  pose proof (enc_reads_back j (S (2 * len (enc j))) "") as H. rewrite app_nil_str in H.
  by rewrite H by (done || lia).
Qed.

(** What [json.dumps] writes with sorted keys, [json.loads] reads back as the
    same value, its objects as dictionaries with sorted keys. *)
Lemma loads_dumps j : loads (dumps j) = Ok (of_json (canon j)).
Proof. apply loads_enc. Qed.

Lemma fold_dset kvs : ∀ d : dict string pyval, NoDup (dkeys d ++ List.map fst kvs) →
  fold_left (λ d kv, dset (fst kv) (snd kv) d) kvs d = (d ++ kvs)%list.
Proof.
  induction kvs as [|[k v] kvs IH]; intros d Hd; cbn; [by rewrite app_nil_r|].
  cbn in Hd. assert (k ∉ dkeys d) as Hk.
  { intros Hk. apply NoDup_app in Hd as (_ & Hd & _). by apply (Hd k Hk), elem_of_cons; left. }
  rewrite dset_absent by by apply dget_None. rewrite IH; [by rewrite <- app_assoc|].
  unfold dkeys. rewrite fmap_app. cbn. by rewrite <- app_assoc.
Qed.
Lemma dict_of_id (kvs : list (string * pyval)) : dwf kvs → py_dict kvs = kvs.
Proof. intros H. by apply (fold_dset kvs []). Qed.

(** An object with distinct keys is read back with the same entries. *)
Lemma loads_object kvs : dwf kvs → ∃ d,
  loads (dumps (JObj kvs)) = Ok (VObj d) ∧ dwf d ∧ dlen d = dlen kvs ∧ dkeys d ≡ₚ dkeys kvs ∧
  ∀ k, dget k d = (λ j, of_json (canon j)) <$> dget k kvs.
Proof.
  intros Hw. rewrite loads_dumps. cbn [canon of_json].
  set (ckvs := List.map (λ kv, (kv.1, canon kv.2)) kvs).
  set (d := List.map (λ kv, (kv.1, of_json kv.2)) (sort_keys ckvs)).
  assert (dkeys d = dkeys (sort_keys ckvs)) as Hk.
  { unfold d, dkeys. rewrite <- list_fmap_compose. by apply list_fmap_ext. }
  assert (dkeys ckvs = dkeys kvs) as Hk'.
  { unfold ckvs, dkeys. rewrite <- list_fmap_compose. by apply list_fmap_ext. }
  assert (dkeys d ≡ₚ dkeys kvs) as Hp by (rewrite Hk, <- Hk'; unfold dkeys; by rewrite sort_keys_perm).
  assert (dwf ckvs) as Hwc by (unfold dwf; by rewrite Hk').
  assert (dwf (sort_keys ckvs)) as Hws by (unfold dwf, dkeys; by rewrite sort_keys_perm).
  exists d. rewrite dict_of_id by (unfold dwf; by rewrite Hp).
  split_and!; [done|unfold dwf; by rewrite Hp| |done|].
  - unfold dlen. f_equal. apply Permutation_length in Hp. unfold dkeys in Hp. by rewrite !length_fmap in Hp.
  - intros k. unfold d. rewrite dget_map, (dget_perm k _ ckvs Hws (sort_keys_perm _)).
    unfold ckvs. rewrite dget_map. by destruct (dget k kvs).
Qed.
