(* ===== verification/PyIso.v ===== *)
(** * PyIso: ISO-8601 texts

    [datetime.fromisoformat] on the extended form, [YYYY-MM-DD] and optionally
    one separating character and [HH[:MM[:SS[.ffffff]]]] with [Z] or an offset;
    the basic form and week dates, which nothing here writes, are rejected.  A
    parsed value is the local clock in microseconds and the offset, so that
    [isoformat] can print it again; [fromisoformat_isoformat] reads back what
    [PyTime.isoformat] prints.

    The SQL of the storage layer compares timestamps as text: SQLite's BINARY
    collation compares bytes, [String.compare] here.  On the texts
    [PyTime.isoformat] prints that order is the order of time, the fraction of
    a second included, which [isoformat] leaves out when it is zero. *)

From S2P Require Import Prelude PyStr PyText PyTime.
From Stdlib Require Import Ascii String ZArith Lia.
From stdpp Require Import base strings list.

Local Open Scope string_scope.
Local Open Scope Z_scope.

Record iso_datetime := { iso_local : Z; iso_offset : option Z }.

Definition digit_value (c : ascii) : option Z :=
  if (48 <=? ord c) && (ord c <=? 57) then Some (ord c - 48) else None.
(** Exactly [w] digits. *)
Fixpoint take_num (w : nat) (acc : Z) (s : string) : option (Z * string) :=
  match w, s with
  | O, _ => Some (acc, s)
  | S w', String c s' => match digit_value c with Some v => take_num w' (10 * acc + v) s' | None => None end
  | S _, EmptyString => None
  end.
Definition take_char (c : ascii) (s : string) : option string :=
  match s with String d s' => if Ascii.eqb d c then Some s' else None | EmptyString => None end.

Definition days_in_month (y m : Z) : Z := default 0 (month_lengths (is_leap y) !! Z.to_nat (m - 1)).
Definition take_date (s : string) : option (Z * string) :=
  '(y, s) ← take_num 4 0 s; s ← take_char "-" s;
  '(m, s) ← take_num 2 0 s; s ← take_char "-" s;
  '(d, s) ← take_num 2 0 s;
  if (1 <=? y) && (1 <=? m) && (m <=? 12) && (1 <=? d) && (d <=? days_in_month y m)
  then Some (ymd2ord (y, m, d), s) else None.

(** A fraction of a second: at least one digit, those after the sixth ignored. *)
Fixpoint fraction (weight : Z) (s : string) : Z * string :=
  match s with
  | String c s' => match digit_value c with
                   | Some v => let '(n, r) := fraction (weight / 10) s' in (v * weight + n, r)
                   | None => (0, s)
                   end
  | EmptyString => (0, s)
  end.
Definition take_fraction (s : string) : option (Z * string) :=
  match s with
  | String p (String c _ as s') =>
      if (Ascii.eqb p "." || Ascii.eqb p ",") && bool_decide (is_Some (digit_value c)) then Some (fraction 100000 s')
      else Some (0, s)
  | _ => Some (0, s)
  end.
(** [HH[:MM[:SS[.f]]]] in microseconds. *)
Definition take_clock (s : string) : option (Z * string) :=
  '(h, s) ← take_num 2 0 s;
  if negb (h <=? 23) then None else
  match take_char ":" s with
  | None => Some (3600000000 * h, s)
  | Some s =>
      '(mi, s) ← take_num 2 0 s;
      if negb (mi <=? 59) then None else
      match take_char ":" s with
      | None => Some (3600000000 * h + 60000000 * mi, s)
      | Some s =>
          '(ss, s) ← take_num 2 0 s;
          if negb (ss <=? 59) then None else
          '(us, s) ← take_fraction s;
          Some (3600000000 * h + 60000000 * mi + 1000000 * ss + us, s)
      end
  end.
Definition take_offset (s : string) : option (option Z) :=
  match s with
  | EmptyString => Some None
  | String c s' =>
      if Ascii.eqb c "Z" then (if str_eqb s' "" then Some (Some 0) else None)
      else if Ascii.eqb c "+" || Ascii.eqb c "-" then
        '(us, r) ← take_clock s';
        if str_eqb r "" then Some (Some (if Ascii.eqb c "-" then - us else us)) else None
      else None
  end.

Definition parse_iso (s : string) : option iso_datetime :=
  '(day, s) ← take_date s;
  match s with
  | EmptyString => Some {| iso_local := day * us_per_day; iso_offset := None |}
  | String _ s =>
      '(us, s) ← take_clock s;
      offset ← take_offset s;
      Some {| iso_local := day * us_per_day + us; iso_offset := offset |}
  end.
(** [datetime.fromisoformat(value)] *)
Definition fromisoformat (s : string) : result iso_datetime :=
  match parse_iso s with Some d => Ok d | None => Raise ValueError end.

(** [isoformat] of a value with an offset. *)
Definition offset_text (us : Z) : string :=
  let a := Z.abs us in
  (if us <? 0 then "-" else "+") ++ pad 2 (a / 3600000000) ++ ":" ++ pad 2 (a / 60000000 mod 60) ++
  (if a mod 60000000 =? 0 then "" else
     ":" ++ pad 2 (a / 1000000 mod 60) ++ if a mod 1000000 =? 0 then "" else "." ++ pad 6 (a mod 1000000)).
Definition iso_text (d : iso_datetime) : string :=
  let utc := isoformat (iso_local d) in
  str_take (String.length utc - 6) utc ++ match iso_offset d with Some us => offset_text us | None => "" end.

Example fromisoformat_ex1 : fromisoformat "2026-09-20T01:01:01.000042+00:00"
  = Ok {| iso_local := 739878 * us_per_day + seconds 3661 + 42; iso_offset := Some 0 |}.
Proof. vm_compute. reflexivity. Qed.
Example fromisoformat_ex2 : option_map iso_text (parse_iso "2024-02-29 23:59-05:30") = Some "2024-02-29T23:59:00-05:30" ∧
  parse_iso "2023-02-29" = None ∧ parse_iso "2024-02-01T24:00" = None ∧
  option_map iso_text (parse_iso "2024-02-01") = Some "2024-02-01T00:00:00".
Proof. vm_compute. auto. Qed.

(** ** Reading back *)

Lemma digit_value_digit z : 0 ≤ z < 10 → digit_value (digit z) = Some z.
Proof.
  intros Hz. unfold digit_value, digit, ord. rewrite nat_ascii_embedding by lia.
  rewrite (proj2 (Z.leb_le _ _)), (proj2 (Z.leb_le _ _)) by lia. cbn [andb]. f_equal. lia.
Qed.
Lemma take_num_pad_more w : ∀ v z acc r, 0 ≤ z < 10 ^ Z.of_nat w →
  take_num (w + v) acc (pad w z ++ r) = take_num v (acc * 10 ^ Z.of_nat w + z) r.
Proof.
  induction w as [|w IH]; intros v z acc r Hz.
  - cbn [pad Nat.add Z.of_nat] in *. rewrite app_empty. f_equal. change (10 ^ 0) with 1 in *. lia.
  - rewrite Nat2Z.inj_succ, Z.pow_succ_r in * by lia. cbn [pad].
    rewrite app_assoc_str, app_cons, app_empty, Nat.add_succ_comm, IH.
    2:{ split; [apply Z.div_pos; lia|]. apply Z.div_lt_upper_bound; lia. }
    cbn [take_num]. rewrite digit_value_digit by (apply Z.mod_pos_bound; lia).
    f_equal. pose proof (Z.div_mod z 10). lia.
Qed.
Definition not_digit (s : string) : Prop := match s with String c _ => digit_value c = None | EmptyString => True end.
Lemma take_num_pad w z r : 0 ≤ z < 10 ^ Z.of_nat w → take_num w 0 (pad w z ++ r) = Some (z, r).
Proof. intros Hz. by rewrite <- (Nat.add_0_r w) at 1; rewrite take_num_pad_more. Qed.

#[local] Ltac div_lia := Z.to_euclidean_division_equations; lia.

Lemma fraction_pad z r : 0 ≤ z < 1000000 → not_digit r → fraction 100000 (pad 6 z ++ r) = (z, r).
Proof.
  intros Hz Hr. cbn [pad]. rewrite !app_assoc_str, !app_cons, !app_empty.
  cbn [fraction]. rewrite !digit_value_digit by (apply Z.mod_pos_bound; lia).
  replace (fraction _ r) with (0, r).
  2:{ symmetry. destruct r as [|c r]; [done|]. cbn [fraction]. cbn in Hr. by rewrite Hr. }
  f_equal. change (100000 / 10 / 10 / 10 / 10 / 10) with 1. change (100000 / 10 / 10 / 10 / 10) with 10.
  change (100000 / 10 / 10 / 10) with 100. change (100000 / 10 / 10) with 1000. change (100000 / 10) with 10000.
  div_lia.
Qed.

Lemma month_day_length (leap : bool) r : 0 ≤ r < (if leap then 366 else 365) →
  let '(m, d) := month_day (month_lengths leap) 1 r in d ≤ default 0 (month_lengths leap !! Z.to_nat (m - 1)).
Proof.
  intros Hr.
  assert (Hall : List.forallb (λ i, let '(m, d) := month_day (month_lengths leap) 1 (Z.of_nat i) in
            d <=? default 0 (month_lengths leap !! Z.to_nat (m - 1)))
          (List.seq 0 (if leap then 366 else 365)%nat) = true) by (destruct leap; vm_compute; reflexivity).
  rewrite List.forallb_forall in Hall. specialize (Hall (Z.to_nat r)).
  rewrite Z2Nat.id in Hall by lia. destruct (month_day _ 1 r) as [m d]. apply Z.leb_le, Hall.
  apply List.in_seq. destruct leap; lia.
Qed.
Lemma ord2ymd_in_month n y m d : 0 ≤ n < 3652059 → ord2ymd n = (y, m, d) → d ≤ days_in_month y m.
Proof.
  intros Hn. unfold ord2ymd. set (n1 := n mod 146097 mod 36524 mod 1461 / 365). set (n100 := n mod 146097 / 36524).
  destruct ((n1 =? 4) || (n100 =? 4)) eqn:E.
  - intros [= <- <- <-]. unfold days_in_month. destruct (is_leap _); vm_compute; discriminate.
  - intros H. pose proof (month_day_length (is_leap (n / 146097 * 400 + n100 * 100 + n mod 146097 mod 36524 / 1461 * 4 + n1 + 1))
      (n mod 146097 mod 36524 mod 1461 mod 365)) as Hm.
    destruct (month_day _ 1 _) as [m' d']. injection H as <- <- <-. apply Hm.
    assert (0 ≤ n mod 146097 mod 36524 mod 1461 mod 365 < 365) by (apply Z.mod_pos_bound; lia).
    destruct (is_leap _); lia.
Qed.

Lemma take_date_text y m d r : 1 ≤ y ≤ 9999 → 1 ≤ m ≤ 12 → 1 ≤ d ≤ 31 → d ≤ days_in_month y m →
  take_date (pad 4 y ++ "-" ++ pad 2 m ++ "-" ++ pad 2 d ++ r) = Some (ymd2ord (y, m, d), r).
Proof.
  intros Hy Hm Hd Hdm. unfold take_date. rewrite take_num_pad by lia. cbn [mbind option_bind].
  rewrite app_cons, app_empty. cbn [take_char Ascii.eqb Bool.eqb mbind option_bind].
  rewrite take_num_pad by lia. cbn [mbind option_bind].
  rewrite app_cons, app_empty. cbn [take_char Ascii.eqb Bool.eqb mbind option_bind].
  rewrite take_num_pad by lia. cbn [mbind option_bind].
  by rewrite !(proj2 (Z.leb_le _ _)) by lia.
Qed.
Lemma take_colon r : take_char ":" (":" ++ r) = Some r.
Proof. done. Qed.
Lemma take_clock_text h mi ss f : 0 ≤ h < 24 → 0 ≤ mi < 60 → 0 ≤ ss < 60 → 0 ≤ f < 1000000 → ∀ r,
  r = "+00:00" →
  take_clock (pad 2 h ++ ":" ++ pad 2 mi ++ ":" ++ pad 2 ss ++ (if f =? 0 then "" else String "." (pad 6 f)) ++ r)
  = Some (3600000000 * h + 60000000 * mi + 1000000 * ss + f, r).
Proof.
  intros Hh Hm Hs Hf r Hr. unfold take_clock. rewrite take_num_pad by lia. cbn [mbind option_bind].
  rewrite (proj2 (Z.leb_le h 23)) by lia. cbn [negb]. rewrite take_colon.
  rewrite take_num_pad by lia. cbn [mbind option_bind].
  rewrite (proj2 (Z.leb_le mi 59)) by lia. cbn [negb]. rewrite take_colon.
  rewrite take_num_pad by lia. cbn [mbind option_bind].
  rewrite (proj2 (Z.leb_le ss 59)) by lia. cbn [negb].
  destruct (Z.eqb_spec f 0) as [->|Hne].
  - rewrite app_empty. subst r. cbn [take_fraction]. cbn. do 2 f_equal; lia.
  - assert (take_fraction (String "." (pad 6 f) ++ r) = Some (f, r)) as ->; [|done].
    rewrite app_cons. assert (not_digit r) as Hr' by (by subst r). rewrite <- (fraction_pad f r) by done.
    destruct (pad 6 f ++ r) as [|c t] eqn:E.
    { apply (f_equal String.length) in E. pose proof (slen_app (pad 6 f) r) as Hl. unfold slen in Hl.
      rewrite E, pad_length in Hl. cbn in Hl. lia. }
    unfold take_fraction. assert (is_Some (digit_value c)) as Hc.
    { cbn [pad] in E. rewrite !app_assoc_str, !app_cons, !app_empty in E. injection E as <- _.
      rewrite digit_value_digit; [eauto|]. apply Z.mod_pos_bound. lia. }
    by rewrite (bool_decide_eq_true_2 _ Hc).
Qed.

Lemma fromisoformat_isoformat t : valid_datetime t →
  fromisoformat (isoformat t) = Ok {| iso_local := t; iso_offset := Some 0 |}.
Proof.
  unfold valid_datetime, datetime_end, isoformat. intros Ht.
  destruct (ord2ymd (t / us_per_day)) as [[y m] d] eqn:E.
  assert (0 ≤ t / us_per_day < 3652059) as Hn.
  { unfold us_per_day in *. split; [apply Z.div_pos; lia|apply Z.div_lt_upper_bound; lia]. }
  pose proof (ord2ymd_in_month _ _ _ _ Hn E) as Hd. apply ord2ymd_ok in E as (Ho & Hy & Hm & Hd'); [|done].
  pose proof (Z.div_mod t us_per_day ltac:(done)) as Hdm.
  assert (0 ≤ t mod us_per_day < us_per_day) as Hu by (apply Z.mod_pos_bound; done).
  set (u := t mod us_per_day) in *. unfold fromisoformat, parse_iso.
  rewrite take_date_text by (done || lia). cbn [mbind option_bind]. rewrite Ho.
  rewrite app_cons, app_empty. unfold us_per_day in *.
  rewrite (take_clock_text (u / 1000000 / 3600) (u / 1000000 / 60 mod 60) (u / 1000000 mod 60) (u mod 1000000)).
  - cbn. do 2 f_equal. subst u. div_lia.
  - split; [|div_lia]. apply Z.div_pos; [apply Z.div_pos; lia|lia].
  - apply Z.mod_pos_bound. lia.
  - apply Z.mod_pos_bound. lia.
  - apply Z.mod_pos_bound. lia.
  - done.
Qed.
Lemma iso_text_isoformat t : iso_text {| iso_local := t; iso_offset := Some 0 |} = isoformat t.
Proof.
  unfold iso_text. cbn [iso_local iso_offset]. change (offset_text 0) with "+00:00".
  assert (∃ a, isoformat t = a ++ "+00:00") as [a ->].
  { unfold isoformat. destruct (ord2ymd _) as [[y m] d].
    set (f := if _ =? 0 then _ else _). clearbody f.
    generalize (pad 4 y) (pad 2 m) (pad 2 d) (pad 2 (t mod us_per_day / 1000000 / 3600))
      (pad 2 (t mod us_per_day / 1000000 / 60 mod 60)) (pad 2 (t mod us_per_day / 1000000 mod 60)).
    intros a1 a2 a3 a4 a5 a6. exists (a1 ++ "-" ++ a2 ++ "-" ++ a3 ++ "T" ++ a4 ++ ":" ++ a5 ++ ":" ++ a6 ++ f).
    by rewrite !app_assoc_str. }
  pose proof (slen_app a "+00:00") as Hl. unfold slen in Hl. cbn in Hl.
  rewrite str_take_app by lia. done.
Qed.

(** Comparison by parts. *)
Definition lex (c k : comparison) : comparison := match c with Eq => k | _ => c end.

Lemma lex_assoc a b c : lex (lex a b) c = lex a (lex b c).
Proof. by destruct a. Qed.

(** ** Text *)

Lemma ascii_compare_refl c : Ascii.compare c c = Eq.
Proof. apply N.compare_refl. Qed.
Lemma string_compare_refl s : String.compare s s = Eq.
Proof. induction s as [|c s IH]; [done|]. cbn [String.compare]. by rewrite ascii_compare_refl. Qed.

Lemma compare_app (a b c d : string) : String.length a = String.length b →
  String.compare (a ++ c) (b ++ d) = lex (String.compare a b) (String.compare c d).
Proof.
  revert b. induction a as [|x a IH]; intros [|y b]; cbn [String.length]; intros Hl; try done.
  rewrite !app_cons. cbn [String.compare]. destruct (Ascii.compare x y); [|done..].
  apply IH. by injection Hl.
Qed.

Lemma compare_same (a c d : string) : String.compare (a ++ c) (a ++ d) = String.compare c d.
Proof. rewrite compare_app by done. by rewrite string_compare_refl. Qed.

Lemma compare_digit x y : 0 ≤ x < 10 → 0 ≤ y < 10 →
  String.compare (String (digit x) "") (String (digit y) "") = (x ?= y).
Proof.
  intros Hx Hy. cbn [String.compare].
  assert (Ascii.compare (digit x) (digit y) = (x ?= y)) as ->; [|by destruct (x ?= y)].
  unfold Ascii.compare, digit, N_of_ascii.
  assert (∀ z, 0 ≤ z < 10 → N_of_ascii (ascii_of_nat (Z.to_nat (48 + z))) = Z.to_N (48 + z)) as Hd.
  { intros z Hz. rewrite <- (Nnat.N2Nat.id (N_of_ascii _)). change (N.to_nat (N_of_ascii ?c)) with (nat_of_ascii c).
    rewrite nat_ascii_embedding by lia. lia. }
  fold (N_of_ascii (ascii_of_nat (Z.to_nat (48 + x)))). fold (N_of_ascii (ascii_of_nat (Z.to_nat (48 + y)))).
  rewrite !Hd by done. rewrite Z2N.inj_compare by lia.
  destruct (Z.compare_spec x y), (Z.compare_spec (48 + x) (48 + y)); lia || done.
Qed.

(** ** Numbers *)

Lemma compare_lex M q r q' r' : 0 ≤ r < M → 0 ≤ r' < M →
  (q * M + r ?= q' * M + r') = lex (q ?= q') (r ?= r').
Proof.
  intros Hr Hr'. destruct (Z.compare_spec q q') as [->|H|H]; cbn [lex].
  - destruct (Z.compare_spec r r'), (Z.compare_spec (q' * M + r) (q' * M + r')); lia || done.
  - apply Z.compare_lt_iff. nia.
  - apply Z.compare_gt_iff. nia.
Qed.

Lemma compare_divmod M a b : 0 < M → (a ?= b) = lex (a / M ?= b / M) (a mod M ?= b mod M).
Proof.
  intros HM. rewrite <- (compare_lex M) by (apply Z.mod_pos_bound; done).
  rewrite (Z.mul_comm (a / M)), (Z.mul_comm (b / M)), <- !Z.div_mod by lia. done.
Qed.

Lemma compare_pad w : ∀ x y, 0 ≤ x < 10 ^ Z.of_nat w → 0 ≤ y < 10 ^ Z.of_nat w →
  String.compare (pad w x) (pad w y) = (x ?= y).
Proof.
  induction w as [|w IH]; intros x y Hx Hy.
  - change (10 ^ Z.of_nat 0) with 1 in *. replace x with 0 by lia. by replace y with 0 by lia.
  - rewrite Nat2Z.inj_succ, Z.pow_succ_r in * by lia. cbn [pad].
    rewrite compare_app by (by rewrite !pad_length).
    rewrite (compare_divmod 10 x y) by lia.
    rewrite IH, compare_digit; [done|apply Z.mod_pos_bound; lia..| |];
      (split; [apply Z.div_pos; lia|apply Z.div_lt_upper_bound; lia]).
Qed.

(** ** The calendar *)

Definition year_length (y : Z) : Z := if is_leap y then 366 else 365.
Definition year_day (y m d : Z) : Z :=
  zsum (take (Z.to_nat (m - 1)) (month_lengths (is_leap y))) + (d - 1).

Lemma year_next y : days_before_year (y + 1) = days_before_year y + year_length y.
Proof.
  unfold days_before_year, year_length, is_leap.
  destruct (y mod 4 =? 0) eqn:E4, (y mod 100 =? 0) eqn:E100, (y mod 400 =? 0) eqn:E400; cbn [andb orb negb];
    rewrite ?Z.eqb_eq, ?Z.eqb_neq in *; replace (y + 1 - 1) with y by lia; div_lia.
Qed.
Lemma year_mono y y' : y < y' → days_before_year y + year_length y ≤ days_before_year y'.
Proof. intros H. rewrite <- year_next. unfold days_before_year. div_lia. Qed.

(** Months come in order, each with its length. *)
Definition months_ok (leap : bool) : bool :=
  let ls := month_lengths leap in
  List.forallb (λ m,
    (zsum (take m ls) + default 0 (ls !! m) <=? (if leap then 366 else 365)) && (0 <=? zsum (take m ls)) &&
    List.forallb (λ m', negb (m <? m')%nat || (zsum (take m ls) + default 0 (ls !! m) <=? zsum (take m' ls)))
      (List.seq 0 12)) (List.seq 0 12).
Lemma months_table leap : months_ok leap = true.
Proof. by destruct leap. Qed.

Lemma month_facts (leap : bool) (m : nat) : (m < 12)%nat → let ls := month_lengths leap in
  0 ≤ zsum (take m ls) ∧ zsum (take m ls) + default 0 (ls !! m) ≤ (if leap then 366 else 365) ∧
  ∀ m', (m < m' < 12)%nat → zsum (take m ls) + default 0 (ls !! m) ≤ zsum (take m' ls).
Proof.
  intros Hm ls. pose proof (months_table leap) as H. unfold months_ok in H. rewrite List.forallb_forall in H.
  specialize (H m ltac:(apply List.in_seq; lia)). fold ls in H. rewrite !andb_true_iff, !Z.leb_le in H.
  destruct H as [[H1 H2] H3]. split_and!; [done..|]. intros m' Hm'. rewrite List.forallb_forall in H3.
  specialize (H3 m' ltac:(apply List.in_seq; lia)). apply orb_true_iff in H3 as [H3|H3]; [|by apply Z.leb_le].
  apply negb_true_iff, Nat.ltb_ge in H3. lia.
Qed.

Lemma year_day_range y m d : 1 ≤ m ≤ 12 → 1 ≤ d → d ≤ days_in_month y m → 0 ≤ year_day y m d < year_length y.
Proof.
  intros Hm Hd Hdm. unfold year_day, days_in_month, year_length in *.
  destruct (month_facts (is_leap y) (Z.to_nat (m - 1)) ltac:(lia)) as (H1 & H2 & _). lia.
Qed.
Lemma year_day_compare y m d m' d' :
  1 ≤ m ≤ 12 → 1 ≤ d → d ≤ days_in_month y m → 1 ≤ m' ≤ 12 → 1 ≤ d' → d' ≤ days_in_month y m' →
  (year_day y m d ?= year_day y m' d') = lex (m ?= m') (d ?= d').
Proof.
  intros Hm Hd Hdm Hm' Hd' Hdm'. unfold year_day, days_in_month in *.
  destruct (Z.compare_spec m m') as [<-|H|H]; cbn [lex].
  - set (k := zsum _). destruct (Z.compare_spec d d'), (Z.compare_spec (k + (d - 1)) (k + (d' - 1))); lia || done.
  - destruct (month_facts (is_leap y) (Z.to_nat (m - 1)) ltac:(lia)) as (_ & _ & H3).
    specialize (H3 (Z.to_nat (m' - 1)) ltac:(lia)). apply Z.compare_lt_iff. lia.
  - destruct (month_facts (is_leap y) (Z.to_nat (m' - 1)) ltac:(lia)) as (_ & _ & H3).
    specialize (H3 (Z.to_nat (m - 1)) ltac:(lia)). apply Z.compare_gt_iff. lia.
Qed.

Lemma ord2ymd_compare n n' y m d y' m' d' :
  0 ≤ n < 3652059 → 0 ≤ n' < 3652059 → ord2ymd n = (y, m, d) → ord2ymd n' = (y', m', d') →
  (n ?= n') = lex (y ?= y') (lex (m ?= m') (d ?= d')).
Proof.
  intros Hn Hn' E E'. pose proof (ord2ymd_in_month _ _ _ _ Hn E) as Hdm.
  pose proof (ord2ymd_in_month _ _ _ _ Hn' E') as Hdm'.
  apply ord2ymd_ok in E as (Ho & Hy & Hm & Hd); [|done]. apply ord2ymd_ok in E' as (Ho' & Hy' & Hm' & Hd'); [|done].
  assert (n = days_before_year y + year_day y m d) as -> by (rewrite <- Ho; unfold ymd2ord, year_day; lia).
  assert (n' = days_before_year y' + year_day y' m' d') as -> by (rewrite <- Ho'; unfold ymd2ord, year_day; lia).
  destruct (year_day_range y m d) as [Hr1 Hr2]; try lia.
  destruct (year_day_range y' m' d') as [Hr1' Hr2']; try lia.
  destruct (Z.compare_spec y y') as [<-|H|H]; cbn [lex].
  - rewrite <- (year_day_compare y m d m' d') by lia.
    set (k := days_before_year y). set (a := year_day y m d). set (b := year_day y m' d').
    destruct (Z.compare_spec a b), (Z.compare_spec (k + a) (k + b)); lia || done.
  - pose proof (year_mono _ _ H). apply Z.compare_lt_iff. lia.
  - pose proof (year_mono _ _ H). apply Z.compare_gt_iff. lia.
Qed.

(** ** [isoformat] *)

Lemma compare_fraction f g : 0 ≤ f < 1000000 → 0 ≤ g < 1000000 →
  String.compare ((if f =? 0 then "" else String "." (pad 6 f)) ++ "+00:00")
                 ((if g =? 0 then "" else String "." (pad 6 g)) ++ "+00:00") = (f ?= g).
Proof.
  intros Hf Hg. destruct (Z.eqb_spec f 0) as [->|Hf0], (Z.eqb_spec g 0) as [->|Hg0]; rewrite ?app_empty, ?app_cons.
  - done.
  - cbn [String.compare]. change (Ascii.compare "+" ".") with Lt. symmetry. apply Z.compare_lt_iff. lia.
  - cbn [String.compare]. change (Ascii.compare "." "+") with Gt. symmetry. apply Z.compare_gt_iff. lia.
  - cbn [String.compare]. rewrite ascii_compare_refl.
    rewrite compare_app by (by rewrite !pad_length). rewrite compare_pad by (cbn; lia).
    by destruct (f ?= g).
Qed.

(** The next number of the text against the next part of the instant. *)
#[local] Ltac next_part :=
  rewrite compare_app by (by rewrite !pad_length); rewrite compare_pad by (cbn; div_lia); f_equal;
  rewrite ?compare_same.

(** The order of the texts is the order of time. *)
Lemma isoformat_compare t u : valid_datetime t → valid_datetime u →
  String.compare (isoformat t) (isoformat u) = (t ?= u).
Proof.
  unfold valid_datetime, datetime_end, isoformat. intros Ht Hu.
  destruct (ord2ymd (t / us_per_day)) as [[y m] d] eqn:E.
  destruct (ord2ymd (u / us_per_day)) as [[y' m'] d'] eqn:E'.
  assert (∀ x, 0 ≤ x < 3652059 * us_per_day → 0 ≤ x / us_per_day < 3652059) as Hday.
  { intros x Hx. unfold us_per_day in *. split; [apply Z.div_pos; lia|apply Z.div_lt_upper_bound; lia]. }
  rewrite (compare_divmod us_per_day t u) by done.
  rewrite (ord2ymd_compare _ _ _ _ _ _ _ _ (Hday _ Ht) (Hday _ Hu) E E').
  apply ord2ymd_ok in E as (_ & Hy & Hm & Hd); [|by apply Hday].
  apply ord2ymd_ok in E' as (_ & Hy' & Hm' & Hd'); [|by apply Hday].
  assert (0 ≤ t mod us_per_day < us_per_day) as Ha by (apply Z.mod_pos_bound; done).
  assert (0 ≤ u mod us_per_day < us_per_day) as Hb by (apply Z.mod_pos_bound; done).
  set (a := t mod us_per_day) in *. set (b := u mod us_per_day) in *. clearbody a b. unfold us_per_day in Ha, Hb.
  rewrite !lex_assoc. clear Hday Ht Hu.
  assert ((a ?= b) = lex (a / 1000000 / 3600 ?= b / 1000000 / 3600)
    (lex (a / 1000000 / 60 mod 60 ?= b / 1000000 / 60 mod 60)
      (lex (a / 1000000 mod 60 ?= b / 1000000 mod 60) (a mod 1000000 ?= b mod 1000000)))) as ->.
  { rewrite (compare_divmod 1000000 a b) by lia. rewrite (compare_divmod 60 (a / 1000000) (b / 1000000)) by lia.
    rewrite (compare_divmod 60 (a / 1000000 / 60) (b / 1000000 / 60)) by lia.
    rewrite !lex_assoc, !(Z.div_div _ 60 60) by lia. done. }
  do 6 next_part. apply compare_fraction; apply Z.mod_pos_bound; lia.
Qed.

(** [a < b] of SQL on two texts. *)
Definition text_ltb (a b : string) : bool := match String.compare a b with Lt => true | _ => false end.

Lemma isoformat_ltb t u : valid_datetime t → valid_datetime u → text_ltb (isoformat t) (isoformat u) = (t <? u).
Proof.
  intros Ht Hu. unfold text_ltb. rewrite isoformat_compare by done. rewrite Z.ltb_compare. by destruct (t ?= u).
Qed.
