(* ===== verification/Models.v ===== *)
(** * Models: typed values of the control plane (control_plane/models.py)

    Enumerations keep the source's constructors and their [.value] strings.
    A frozen dataclass with a validating [__post_init__] becomes a [Record]
    together with a constructor [new_*] returning a [result]: the record is
    what the constructor stores (normalised), the error what it raises. *)

From S2P Require Import Prelude PyStr PyTime Sha256 Json.
From stdpp Require Import base strings list gmap.
From Stdlib Require Import Ascii String ZArith Lia.

Local Open Scope string_scope.
Local Open Scope Z_scope.
Local Open Scope aipm_scope.

(** ** Enumerations *)

(** [str, Enum] classes: a value is sent, stored and hashed as its string. *)
Class EnumValue (A : Type) := value : A → string.

Inductive OperationKind := UPDATE_PROJECT_PLAN | ROLLBACK_PROJECT_PLAN.
Inductive RiskLevel := LOW | MEDIUM | HIGH | CRITICAL.
Inductive EvidenceState := OBSERVED | UNAVAILABLE | NOT_OBSERVED | STALE | INVALID.
Inductive PlanState := PLAN_PLANNED | PLAN_INVALID | PLAN_EXPIRED | PLAN_INVALIDATED.
Inductive ConfirmationState :=
  | CONFIRMATION_REQUESTED | CONF_CONFIRMED | CONSUMED | CONF_EXPIRED | CONF_INVALIDATED.
Inductive EvidenceSource := SOURCE_NONE | MISSION_CONTROL_OBSERVATION.
Inductive ConfirmationKind := OWNER_CONFIRMATION | DISTINCT_APPROVAL.
Inductive LifecycleState :=
  | REQUESTED | PLANNED | CONFIRMATION_REQUIRED | CONFIRMED | SNAPSHOT_CAPTURED
  | INVALIDATED | EXPIRED | REJECTED | LEASED | RUNNING | EXECUTED_PENDING_VERIFICATION
  | VERIFIED_SUCCESS | VERIFICATION_FAILED | EXECUTION_FAILED | CANCEL_REQUESTED
  | TIMED_OUT | INTERRUPTED | RECONCILIATION_REQUIRED | ROLLBACK_REQUESTED
  | ROLLED_BACK | ROLLBACK_UNAVAILABLE | ROLLBACK_FAILED.

#[export] Instance OperationKind_eq_dec : EqDecision OperationKind.
Proof. solve_decision. Defined.
#[export] Instance RiskLevel_eq_dec : EqDecision RiskLevel.
Proof. solve_decision. Defined.
#[export] Instance EvidenceState_eq_dec : EqDecision EvidenceState.
Proof. solve_decision. Defined.
#[export] Instance PlanState_eq_dec : EqDecision PlanState.
Proof. solve_decision. Defined.
#[export] Instance ConfirmationState_eq_dec : EqDecision ConfirmationState.
Proof. solve_decision. Defined.
#[export] Instance EvidenceSource_eq_dec : EqDecision EvidenceSource.
Proof. solve_decision. Defined.
#[export] Instance ConfirmationKind_eq_dec : EqDecision ConfirmationKind.
Proof. solve_decision. Defined.
#[export] Instance LifecycleState_eq_dec : EqDecision LifecycleState.
Proof. solve_decision. Defined.

#[export] Instance OperationKind_value : EnumValue OperationKind := λ o,
  match o with
  | UPDATE_PROJECT_PLAN => "update_project_plan"
  | ROLLBACK_PROJECT_PLAN => "rollback_project_plan"
  end.
#[export] Instance RiskLevel_value : EnumValue RiskLevel := λ r,
  match r with LOW => "low" | MEDIUM => "medium" | HIGH => "high" | CRITICAL => "critical" end.
#[export] Instance EvidenceState_value : EnumValue EvidenceState := λ s,
  match s with
  | OBSERVED => "observed" | UNAVAILABLE => "unavailable" | NOT_OBSERVED => "not_observed"
  | STALE => "stale" | INVALID => "invalid"
  end.
#[export] Instance PlanState_value : EnumValue PlanState := λ s,
  match s with
  | PLAN_PLANNED => "planned" | PLAN_INVALID => "invalid"
  | PLAN_EXPIRED => "expired" | PLAN_INVALIDATED => "invalidated"
  end.
#[export] Instance ConfirmationState_value : EnumValue ConfirmationState := λ s,
  match s with
  | CONFIRMATION_REQUESTED => "confirmation_requested" | CONF_CONFIRMED => "confirmed"
  | CONSUMED => "consumed" | CONF_EXPIRED => "expired" | CONF_INVALIDATED => "invalidated"
  end.
#[export] Instance EvidenceSource_value : EnumValue EvidenceSource := λ s,
  match s with
  | SOURCE_NONE => "none"
  | MISSION_CONTROL_OBSERVATION => "mission_control_observation"
  end.
#[export] Instance ConfirmationKind_value : EnumValue ConfirmationKind := λ k,
  match k with
  | OWNER_CONFIRMATION => "owner_confirmation"
  | DISTINCT_APPROVAL => "distinct_approval"
  end.
#[export] Instance LifecycleState_value : EnumValue LifecycleState := λ s,
  match s with
  | REQUESTED => "requested" | PLANNED => "planned"
  | CONFIRMATION_REQUIRED => "confirmation_required" | CONFIRMED => "confirmed"
  | SNAPSHOT_CAPTURED => "snapshot_captured" | INVALIDATED => "invalidated"
  | EXPIRED => "expired" | REJECTED => "rejected" | LEASED => "leased" | RUNNING => "running"
  | EXECUTED_PENDING_VERIFICATION => "executed_pending_verification"
  | VERIFIED_SUCCESS => "verified_success" | VERIFICATION_FAILED => "verification_failed"
  | EXECUTION_FAILED => "execution_failed" | CANCEL_REQUESTED => "cancel_requested"
  | TIMED_OUT => "timed_out" | INTERRUPTED => "interrupted"
  | RECONCILIATION_REQUIRED => "reconciliation_required"
  | ROLLBACK_REQUESTED => "rollback_requested" | ROLLED_BACK => "rolled_back"
  | ROLLBACK_UNAVAILABLE => "rollback_unavailable" | ROLLBACK_FAILED => "rollback_failed"
  end.

#[export] Instance OperationKind_value_inj : Inj (=) (=) (value (A := OperationKind)).
Proof. by intros [] []. Qed.
#[export] Instance RiskLevel_value_inj : Inj (=) (=) (value (A := RiskLevel)).
Proof. by intros [] []. Qed.
#[export] Instance EvidenceState_value_inj : Inj (=) (=) (value (A := EvidenceState)).
Proof. by intros [] []. Qed.
#[export] Instance PlanState_value_inj : Inj (=) (=) (value (A := PlanState)).
Proof. by intros [] []. Qed.
#[export] Instance EvidenceSource_value_inj : Inj (=) (=) (value (A := EvidenceSource)).
Proof. by intros [] []. Qed.
#[export] Instance ConfirmationKind_value_inj : Inj (=) (=) (value (A := ConfirmationKind)).
Proof. by intros [] []. Qed.
#[export] Instance LifecycleState_value_inj : Inj (=) (=) (value (A := LifecycleState)).
Proof. by intros [] []. Qed.

(** ** Bounds and bounded text *)

Definition MAX_IDEMPOTENCY_KEY : Z := 128.
Definition MAX_TARGET_ID : Z := 128.
Definition MAX_ACTOR_ID : Z := 128.
Definition MAX_ACTION_METADATA : nat := 8.
Definition MAX_METADATA_KEY : Z := 64.
Definition MAX_METADATA_VALUE : Z := 128.
Definition MAX_EVIDENCE_ITEMS : nat := 16.
Definition MAX_EVIDENCE_VALUE : Z := 256.
Definition MAX_ENVIRONMENT_ID : Z := 128.
Definition MAX_POLICY_VERSION : Z := 64.
Definition PLAN_TTL : timedelta := minutes 15.
Definition DECISION_TTL : timedelta := minutes 5.
Definition CONFIRMATION_TTL : timedelta := minutes 10.

Definition ENVIRONMENT_VALUES : list string := ["staging"; "production"].
Definition BINDING_METADATA_KEYS : list string := ["update_plan_digest"].
Definition SERVICE_BINDING_METADATA_KEYS : list string :=
  ["service_name"; "service_scope"; "atomicity"].
Definition ALL_BINDING_METADATA_KEYS : list string :=
  (BINDING_METADATA_KEYS ++ SERVICE_BINDING_METADATA_KEYS)%list.
Definition SENSITIVE_MARKERS : list string :=
  ["/"; "\\"; "token="; "password="; "secret"; "credential"; "authorization"; "traceback";
   "exception="; "provider"; "destination"].
Definition UNSAFE_METADATA_KEYS : list string :=
  ["path"; "command"; "url"; "token"; "secret"; "password"; "provider"].

(** Membership in a literal collection of strings. *)
Definition mem (s : string) (l : list string) : bool := bool_decide (s ∈ l).

Lemma mem_true s l : mem s l = true ↔ s ∈ l.
Proof. apply bool_decide_eq_true. Qed.

Definition invalid_request : exn := ControlPlaneError INVALID_REQUEST.

(** [_bounded_string]; without a pattern pass [λ _, true]. *)
Definition bounded_string (value : string) (maximum : Z) (pattern : string → bool)
  : result string :=
  require str_nonempty value && (slen value <=? maximum) else_raise invalid_request;;
  require negb (str_any is_control value) else_raise invalid_request;;
  require pattern value else_raise invalid_request;;
  Ok value.

Definition any_text : string → bool := λ _, true.

(** [_safe_bounded_text] *)
Definition safe_bounded_text (value : string) (maximum : Z) : result string :=
  let* text := bounded_string (nfc value) maximum any_text in
  require negb (List.existsb (λ marker, str_in marker (casefold text)) SENSITIVE_MARKERS)
    else_raise invalid_request;;
  Ok text.

(** Every element through a fallible step, first error wins. *)
Fixpoint rmap {A B} (f : A → result B) (l : list A) : result (list B) :=
  match l with
  | [] => Ok []
  | x :: l' => let* y := f x in let* ys := rmap f l' in Ok (y :: ys)
  end.

(** [sorted] on pairs of strings. *)
Definition pair_leb (a b : string * string) : bool :=
  match String.compare (fst a) (fst b) with
  | Lt => true
  | Gt => false
  | Eq => String.leb (snd a) (snd b)
  end.
Fixpoint insert_pair (a : string * string) (l : list (string * string)) : list (string * string) :=
  match l with
  | [] => [a]
  | b :: l' => if pair_leb a b then a :: b :: l' else b :: insert_pair a l'
  end.
Fixpoint sort_pairs (l : list (string * string)) : list (string * string) :=
  match l with [] => [] | a :: l' => insert_pair a (sort_pairs l') end.

(** ** ActionRequest *)

Record ActionRequest := {
  req_operation : OperationKind;
  req_target_id : string;
  req_idempotency_key : string;
  req_metadata : list (string * string);
  req_environment : string;
}.

#[export] Instance ActionRequest_eq_dec : EqDecision ActionRequest.
Proof. solve_decision. Defined.

Definition normalize_metadata_pair (kv : string * string) : result (string * string) :=
  let* key := bounded_string (fst kv) MAX_METADATA_KEY SAFE_KEY in
  let* value := safe_bounded_text (snd kv) MAX_METADATA_VALUE in
  require negb (mem key UNSAFE_METADATA_KEYS) else_raise invalid_request;;
  Ok (key, value).

Definition new_ActionRequest (operation : OperationKind) (target_id idempotency_key : string)
    (metadata : list (string * string)) (environment : string) : result ActionRequest :=
  let* target := bounded_string target_id MAX_TARGET_ID SAFE_ID in
  let* key := bounded_string idempotency_key MAX_IDEMPOTENCY_KEY SAFE_ID in
  require mem environment ENVIRONMENT_VALUES else_raise invalid_request;;
  require (List.length metadata <=? MAX_ACTION_METADATA)%nat else_raise invalid_request;;
  let* normalized := rmap normalize_metadata_pair metadata in
  require bool_decide (NoDup (List.map fst normalized)) else_raise invalid_request;;
  Ok {| req_operation := operation; req_target_id := target; req_idempotency_key := key;
        req_metadata := sort_pairs normalized; req_environment := environment |}.

(** [ActionRequest.fields] *)
Definition fields (r : ActionRequest) : list string := List.map fst (req_metadata r).

(** [ActionRequest.mutation_metadata] *)
Definition mutation_metadata (r : ActionRequest) : list (string * string) :=
  List.filter (λ kv, negb (mem (fst kv) ALL_BINDING_METADATA_KEYS)) (req_metadata r).

Definition pairs_json (l : list (string * string)) : json :=
  JArr (List.map (λ kv, JArr [JStr (fst kv); JStr (snd kv)]) l).

Definition request_payload (r : ActionRequest) : json :=
  JObj [("operation", JStr (value (req_operation r)));
        ("target_id", JStr (req_target_id r));
        ("idempotency_key", JStr (req_idempotency_key r));
        ("metadata", pairs_json (req_metadata r));
        ("environment", JStr (req_environment r))].
(** [ActionRequest.canonical] *)
Definition request_canonical (r : ActionRequest) : string := dumps (request_payload r).

(** ** EvidenceSummary *)

Record EvidenceSummary := { ev_state : EvidenceState; ev_items : list (string * string) }.
#[export] Instance EvidenceSummary_eq_dec : EqDecision EvidenceSummary.
Proof. solve_decision. Defined.

Definition normalize_evidence_pair (kv : string * string) : result (string * string) :=
  let* key := bounded_string (fst kv) MAX_METADATA_KEY SAFE_KEY in
  let* value := safe_bounded_text (snd kv) MAX_EVIDENCE_VALUE in
  Ok (key, value).

Definition new_EvidenceSummary (state : EvidenceState) (items : list (string * string))
  : result EvidenceSummary :=
  require (List.length items <=? MAX_EVIDENCE_ITEMS)%nat else_raise invalid_request;;
  let* normalized := rmap normalize_evidence_pair items in
  Ok {| ev_state := state; ev_items := sort_pairs normalized |}.

(** ** ActionPlan *)

Record ActionPlan := {
  plan_plan_id : string;
  plan_request : ActionRequest;
  plan_risk : RiskLevel;
  plan_evidence : EvidenceSummary;
  plan_expected_effect : string;
  plan_expires_at : datetime;
  plan_created_at : datetime;
  plan_evidence_source : EvidenceSource;
  plan_state : PlanState;
  plan_digest : string;
}.
#[export] Instance ActionPlan_eq_dec : EqDecision ActionPlan.
Proof. solve_decision. Defined.

(** [ActionPlan.canonical_payload] *)
Definition plan_payload (p : ActionPlan) : json :=
  JObj [("plan_id", JStr (plan_plan_id p));
        ("request", request_payload (plan_request p));
        ("risk", JStr (value (plan_risk p)));
        ("evidence_source", JStr (value (plan_evidence_source p)));
        ("evidence_state", JStr (value (ev_state (plan_evidence p))));
        ("evidence", pairs_json (ev_items (plan_evidence p)));
        ("expected_effect", JStr (plan_expected_effect p));
        ("created_at", JStr (isoformat (plan_created_at p)));
        ("expires_at", JStr (isoformat (plan_expires_at p)));
        ("state", JStr (value (plan_state p)))].
Definition plan_canonical (p : ActionPlan) : string := dumps (plan_payload p).
Definition computed_digest (p : ActionPlan) : string := sha256_hex (plan_canonical p).

Definition new_ActionPlan (plan_id : string) (request : ActionRequest) (risk : RiskLevel)
    (evidence : EvidenceSummary) (expected_effect : string) (expires_at created_at : datetime)
    (evidence_source : EvidenceSource) (state : PlanState) (digest : string)
  : result ActionPlan :=
  let* id := bounded_string plan_id 128 SAFE_ID in
  let* effect := safe_bounded_text expected_effect MAX_EVIDENCE_VALUE in
  require negb ((expires_at <=? created_at) || (PLAN_TTL <? expires_at - created_at))
    else_raise ControlPlaneError INVALID_PLAN;;
  let p := {| plan_plan_id := id; plan_request := request; plan_risk := risk;
              plan_evidence := evidence; plan_expected_effect := effect;
              plan_expires_at := expires_at; plan_created_at := created_at;
              plan_evidence_source := evidence_source; plan_state := state;
              plan_digest := digest |} in
  require str_eqb digest "" || ((slen digest =? 64) && str_eqb digest (computed_digest p))
    else_raise ControlPlaneError INVALID_PLAN;;
  Ok p.

Definition plan_is_expired (p : ActionPlan) (now : datetime) : bool := plan_expires_at p <=? now.

(** ** ConfirmationBinding *)

Record ConfirmationBinding := {
  cb_confirmation_id : string;
  cb_decision_id : string;
  cb_action_id : string;
  cb_plan_id : string;
  cb_plan_digest : string;
  cb_target_revision : Z;
  cb_target_digest : string;
  cb_policy_version : string;
  cb_requester_subject : string;
  cb_confirmation_kind : ConfirmationKind;
  cb_request : ActionRequest;
  cb_created_at : datetime;
  cb_expires_at : datetime;
  cb_confirmed_by_subject : option string;
  cb_scope : string;
  cb_state : ConfirmationState;
}.
#[export] Instance ConfirmationBinding_eq_dec : EqDecision ConfirmationBinding.
Proof. solve_decision. Defined.

(** [ConfirmationBinding.__post_init__]: the checks, in order, on the record
    that would be stored. *)
Definition check_ConfirmationBinding (b : ConfirmationBinding) : result ConfirmationBinding :=
  let* _ := bounded_string (cb_confirmation_id b) 128 SAFE_ID in
  let* _ := bounded_string (cb_decision_id b) 128 SAFE_ID in
  let* _ := bounded_string (cb_action_id b) 128 SAFE_ID in
  let* _ := bounded_string (cb_plan_id b) 128 SAFE_ID in
  let* _ := bounded_string (cb_policy_version b) MAX_POLICY_VERSION SAFE_ID in
  let* _ := bounded_string (cb_requester_subject b) MAX_ACTOR_ID SAFE_ID in
  let* _ := bounded_string (cb_scope b) MAX_METADATA_VALUE SAFE_VALUE in
  let* _ := bounded_string (cb_plan_digest b) 64 (HEX 64) in
  let* _ := bounded_string (cb_target_digest b) 64 (HEX 64) in
  require 1 <=? cb_target_revision b else_raise invalid_request;;
  let* _ := match cb_confirmed_by_subject b with
            | None => Ok EmptyString
            | Some s => bounded_string s MAX_ACTOR_ID SAFE_ID
            end in
  require negb ((cb_expires_at b <=? cb_created_at b) ||
                (CONFIRMATION_TTL <? cb_expires_at b - cb_created_at b))
    else_raise invalid_request;;
  Ok b.

Definition cb_is_expired (b : ConfirmationBinding) (now : datetime) : bool :=
  cb_expires_at b <=? now.

(** [dataclasses.replace(binding, state=..., confirmed_by_subject=...)]: the
    constructor runs again on the changed record. *)
Definition cb_with_state (s : ConfirmationState) (by_ : option string) (b : ConfirmationBinding)
  : ConfirmationBinding :=
  {| cb_confirmation_id := cb_confirmation_id b; cb_decision_id := cb_decision_id b;
     cb_action_id := cb_action_id b; cb_plan_id := cb_plan_id b;
     cb_plan_digest := cb_plan_digest b; cb_target_revision := cb_target_revision b;
     cb_target_digest := cb_target_digest b; cb_policy_version := cb_policy_version b;
     cb_requester_subject := cb_requester_subject b;
     cb_confirmation_kind := cb_confirmation_kind b; cb_request := cb_request b;
     cb_created_at := cb_created_at b; cb_expires_at := cb_expires_at b;
     cb_confirmed_by_subject := by_; cb_scope := cb_scope b; cb_state := s |}.

(** ** UpdateExecutionBinding *)

Record UpdateExecutionBinding := {
  ueb_project_name : string;
  ueb_plan_digest : string;
  ueb_confirmation_id : string;
  ueb_action_id : string;
  ueb_contract_digest : string;
  ueb_lease_id : string;
  ueb_fencing_token : Z;
  ueb_action_protocol : string;
  ueb_service_scope : option (list string);
  ueb_registration_id : option string;
  ueb_registration_digest : option string;
}.

Definition ACTION_PROTOCOLS : list string := ["legacy-v1"; "mc616d2-v1"].

Definition check_optional (o : option string) (maximum : Z) (p : string → bool)
  : result string :=
  match o with None => Ok EmptyString | Some s => bounded_string s maximum p end.

Definition check_UpdateExecutionBinding (b : UpdateExecutionBinding)
  : result UpdateExecutionBinding :=
  let* _ := bounded_string (ueb_project_name b) MAX_TARGET_ID SAFE_ID in
  let* _ := bounded_string (ueb_plan_digest b) 64 (HEX 64) in
  let* _ := bounded_string (ueb_confirmation_id b) 32 (HEX 32) in
  let* _ := bounded_string (ueb_action_id b) 64 (HEX 64) in
  let* _ := bounded_string (ueb_contract_digest b) 64 (HEX 64) in
  let* _ := bounded_string (ueb_lease_id b) 32 (HEX 32) in
  require 1 <=? ueb_fencing_token b else_raise ValueError;;
  require mem (ueb_action_protocol b) ACTION_PROTOCOLS else_raise ValueError;;
  require match ueb_service_scope b with
          | None => true
          | Some scope => List.forallb str_nonempty scope
          end else_raise ValueError;;
  let* _ := check_optional (ueb_registration_id b) MAX_TARGET_ID SAFE_ID in
  let* _ := check_optional (ueb_registration_digest b) 64 (HEX 64) in
  Ok b.

(** ** ActionScope and ActionLifecycle *)

(** [_stage2_id] *)
Definition stage2_id (value : string) (maximum : Z) : result string :=
  require str_nonempty value && (slen value <=? maximum) && SAFE_ID value
    else_raise LifecycleError;;
  require negb (str_any is_control value) else_raise LifecycleError;;
  Ok value.

Record ActionScope := {
  sc_target_id : string;
  sc_environment : string;
  sc_policy_version : string;
}.
#[export] Instance ActionScope_eq_dec : EqDecision ActionScope.
Proof. solve_decision. Defined.

Definition check_ActionScope (s : ActionScope) : result ActionScope :=
  let* _ := stage2_id (sc_target_id s) 128 in
  let* _ := stage2_id (sc_environment s) MAX_ENVIRONMENT_ID in
  let* _ := stage2_id (sc_policy_version s) MAX_POLICY_VERSION in
  Ok s.

Record ActionLifecycle := {
  lc_action_id : string;
  lc_plan_id : string;
  lc_plan_digest : string;
  lc_operation : OperationKind;
  lc_scope : ActionScope;
  lc_state : LifecycleState;
  lc_requester_subject : string;
  lc_action_protocol : string;
  lc_confirmation_kind : ConfirmationKind;
  lc_approver_subject : option string;
  lc_idempotency_key : string;
  lc_created_at : datetime;
  lc_expires_at : datetime;
  lc_version : Z;
  lc_decision_id : string;
  lc_plan_revision : Z;
  lc_rollback_of_action_id : option string;
  lc_snapshot_id : option string;
}.
#[export] Instance ActionLifecycle_eq_dec : EqDecision ActionLifecycle.
Proof. solve_decision. Defined.

(** States whose record must carry the confirmer. *)
Definition approver_required_states : list LifecycleState :=
  [CONFIRMED; LEASED; RUNNING; EXECUTED_PENDING_VERIFICATION; VERIFIED_SUCCESS;
   VERIFICATION_FAILED; CANCEL_REQUESTED; TIMED_OUT; INTERRUPTED; RECONCILIATION_REQUIRED;
   ROLLBACK_REQUESTED; ROLLED_BACK; ROLLBACK_UNAVAILABLE; ROLLBACK_FAILED].

Definition stage2_id_opt (o : option string) : result string :=
  match o with None => Ok EmptyString | Some s => stage2_id s 128 end.

Definition check_approver (a : ActionLifecycle) : result unit :=
  match lc_approver_subject a with
  | None => Ok ()
  | Some s =>
      let* approver := stage2_id s 128 in
      match lc_confirmation_kind a with
      | DISTINCT_APPROVAL => raise_unless (negb (str_eqb approver (lc_requester_subject a))) LifecycleError
      | OWNER_CONFIRMATION => raise_unless (str_eqb approver (lc_requester_subject a)) LifecycleError
      end
  end.

(** [ActionLifecycle.__post_init__] *)
Definition check_ActionLifecycle (a : ActionLifecycle) : result ActionLifecycle :=
  let* _ := stage2_id (lc_action_id a) 128 in
  let* _ := if str_nonempty (lc_decision_id a) then stage2_id (lc_decision_id a) 128
            else Ok EmptyString in
  let* _ := stage2_id_opt (lc_rollback_of_action_id a) in
  let* _ := stage2_id_opt (lc_snapshot_id a) in
  let* _ := stage2_id (lc_plan_id a) 128 in
  require HEX 64 (lc_plan_digest a) else_raise LifecycleError;;
  let* _ := stage2_id (lc_requester_subject a) 128 in
  let* _ := check_approver a in
  require negb (bool_decide (lc_state a ∈ approver_required_states) &&
                bool_decide (lc_approver_subject a = None)) else_raise LifecycleError;;
  let* _ := stage2_id (lc_idempotency_key a) 128 in
  require negb (lc_expires_at a <=? lc_created_at a) else_raise LifecycleError;;
  require 0 <=? lc_version a else_raise LifecycleError;;
  require mem (lc_action_protocol a) ACTION_PROTOCOLS else_raise LifecycleError;;
  require 0 <=? lc_plan_revision a else_raise LifecycleError;;
  Ok a.

Definition lc_is_expired (a : ActionLifecycle) (now : datetime) : bool := lc_expires_at a <=? now.

(** A value the constructor accepted. *)
Definition lifecycle_wf (a : ActionLifecycle) : Prop := check_ActionLifecycle a = Ok a.

Definition JStrOpt : option string → json := JOpt JStr.

Definition scope_payload (s : ActionScope) : json :=
  JObj [("environment", JStr (sc_environment s));
        ("policy_version", JStr (sc_policy_version s));
        ("target_id", JStr (sc_target_id s))].

(** [ActionLifecycle.canonical] *)
Definition lifecycle_canonical (a : ActionLifecycle) : string :=
  dumps (JObj
    [("action_id", JStr (lc_action_id a));
     ("approver_subject", JStrOpt (lc_approver_subject a));
     ("confirmation_kind", JStr (value (lc_confirmation_kind a)));
     ("created_at", JStr (isoformat (lc_created_at a)));
     ("decision_id", JStr (lc_decision_id a));
     ("expires_at", JStr (isoformat (lc_expires_at a)));
     ("idempotency_key", JStr (lc_idempotency_key a));
     ("operation", JStr (value (lc_operation a)));
     ("plan_digest", JStr (lc_plan_digest a));
     ("plan_id", JStr (lc_plan_id a));
     ("requester_subject", JStr (lc_requester_subject a));
     ("rollback_of_action_id", JStrOpt (lc_rollback_of_action_id a));
     ("scope", scope_payload (lc_scope a));
     ("snapshot_id", JStrOpt (lc_snapshot_id a));
     ("state", JStr (value (lc_state a)));
     ("version", JInt (lc_version a))]).

(** [replace(current, state=..., approver_subject=..., version=...)] *)
Definition lc_with (s : LifecycleState) (approver : option string) (version : Z)
    (a : ActionLifecycle) : ActionLifecycle :=
  {| lc_action_id := lc_action_id a; lc_plan_id := lc_plan_id a;
     lc_plan_digest := lc_plan_digest a; lc_operation := lc_operation a;
     lc_scope := lc_scope a; lc_state := s; lc_requester_subject := lc_requester_subject a;
     lc_action_protocol := lc_action_protocol a; lc_confirmation_kind := lc_confirmation_kind a;
     lc_approver_subject := approver; lc_idempotency_key := lc_idempotency_key a;
     lc_created_at := lc_created_at a; lc_expires_at := lc_expires_at a; lc_version := version;
     lc_decision_id := lc_decision_id a; lc_plan_revision := lc_plan_revision a;
     lc_rollback_of_action_id := lc_rollback_of_action_id a;
     lc_snapshot_id := lc_snapshot_id a |}.

(** ** Normalisation is idempotent *)

Lemma pair_leb_total a b : pair_leb a b = false → pair_leb b a = true.
Proof.
  unfold pair_leb. rewrite (String.compare_antisym (fst b) (fst a)).
  destruct (String.compare (fst a) (fst b)) eqn:E; cbn; try done.
  intros H. destruct (String.leb_total (snd a) (snd b)) as [?|?]; congruence.
Qed.

Lemma insert_pair_perm a l : insert_pair a l ≡ₚ a :: l.
Proof.
  induction l as [|b l IH]; [done|]. cbn. case_match; [done|]. rewrite IH. apply perm_swap.
Qed.

Lemma sort_pairs_perm l : sort_pairs l ≡ₚ l.
Proof. induction l as [|a l IH]; [done|]. cbn. by rewrite insert_pair_perm, IH. Qed.

(** Neighbouring pairs are in order. *)
Fixpoint in_order (l : list (string * string)) : Prop :=
  match l with
  | a :: (b :: _) as l' => pair_leb a b = true ∧ in_order l'
  | _ => True
  end.

Lemma insert_pair_in_order a l : in_order l → in_order (insert_pair a l).
Proof.
  induction l as [|b l IH]; [done|]. intros Hl. cbn [insert_pair].
  destruct (pair_leb a b) eqn:Hab; [by split|].
  apply pair_leb_total in Hab. destruct l as [|c l]; [by split|]. destruct Hl as [Hbc Hl].
  specialize (IH Hl). cbn [insert_pair] in *. destruct (pair_leb a c); split; auto.
Qed.

Lemma sort_pairs_in_order l : in_order (sort_pairs l).
Proof. induction l as [|a l IH]; [done|]. by apply insert_pair_in_order. Qed.

Lemma sort_pairs_id l : in_order l → sort_pairs l = l.
Proof.
  induction l as [|a l IH]; [done|]. intros H. cbn [sort_pairs]. rewrite IH.
  - destruct l as [|b l]; [done|]. destruct H as [H _]. cbn. by rewrite H.
  - destruct l; [done|]. by destruct H.
Qed.

Lemma rmap_Ok {A B} (f : A → result B) l l' :
  rmap f l = Ok l' ↔ Forall2 (λ a b, f a = Ok b) l l'.
Proof.
  revert l'. induction l as [|a l IH]; intros l'; cbn; split; intros H; inv_ok.
  - constructor.
  - by inversion H.
  - constructor; [done|]. by apply IH.
  - inversion H as [|? b ? l1 Ha Hl]; subst. rewrite Ha. cbn.
    apply IH in Hl. by rewrite Hl.
Qed.

Lemma bounded_string_id s m p s' : bounded_string s m p = Ok s' → s' = s.
Proof. unfold bounded_string. intros H. by inv_ok. Qed.

Lemma safe_bounded_text_id s m s' : safe_bounded_text s m = Ok s' → s' = s.
Proof.
  unfold safe_bounded_text, nfc. intros H. inv_ok.
  match goal with H : bounded_string _ _ _ = Ok _ |- _ => apply bounded_string_id in H end.
  by subst.
Qed.

Lemma normalize_metadata_pair_id kv kv' : normalize_metadata_pair kv = Ok kv' → kv' = kv.
Proof.
  unfold normalize_metadata_pair. intros H. inv_ok. destruct kv as [k v]; cbn in *.
  repeat match goal with
    | H : bounded_string _ _ _ = Ok _ |- _ => apply bounded_string_id in H
    | H : safe_bounded_text _ _ = Ok _ |- _ => apply safe_bounded_text_id in H
    end. by subst.
Qed.

(** A fallible step that returns its argument maps a list to itself. *)
Lemma rmap_id {A} (f : A → result A) l l' :
  (∀ a b, f a = Ok b → b = a) → rmap f l = Ok l' →
  l' = l ∧ Forall (λ a, f a = Ok a) l.
Proof.
  intros Hf. rewrite rmap_Ok. induction 1 as [|a b l l' Hab _ [-> IH]]; [done|].
  pose proof (Hf _ _ Hab). subst. split; [done|]. by constructor.
Qed.

Lemma rmap_Forall {A} (f : A → result A) l : Forall (λ a, f a = Ok a) l → rmap f l = Ok l.
Proof. intros H. rewrite rmap_Ok. by induction H; constructor. Qed.

(** The request the constructor returns, fed to the constructor again. *)
Definition revalidate (r : ActionRequest) : result ActionRequest :=
  new_ActionRequest (req_operation r) (req_target_id r) (req_idempotency_key r)
    (req_metadata r) (req_environment r).

(** Validation of an action request is a normalisation: what the
    constructor accepts and stores (metadata sorted) is accepted again
    unchanged, so a request reloaded field by field is the same request; and
    the stored metadata is the given metadata up to order. *)
Lemma new_ActionRequest_idempotent op target key metadata env r :
  new_ActionRequest op target key metadata env = Ok r →
  revalidate r = Ok r ∧ req_metadata r ≡ₚ metadata ∧ in_order (req_metadata r).
Proof.
  intros H. unfold new_ActionRequest in H. inv_ok.
  match goal with H : bounded_string target _ _ = Ok ?t |- _ =>
    pose proof (bounded_string_id _ _ _ _ H); subst t end.
  match goal with H : bounded_string key _ _ = Ok ?t |- _ =>
    pose proof (bounded_string_id _ _ _ _ H); subst t end.
  match goal with H : rmap _ _ = Ok _ |- _ =>
    apply (rmap_id _ _ _ normalize_metadata_pair_id) in H as [-> HF] end.
  cbn [req_metadata]. split; [|split; [apply sort_pairs_perm|apply sort_pairs_in_order]].
  unfold revalidate, new_ActionRequest. cbn.
  repeat match goal with H : ?x = Ok _ |- context [rbind ?x _] => rewrite H; cbn [rbind] end.
  match goal with H : mem env _ = true |- _ => rewrite H; cbn [raise_unless rbind] end.
  rewrite (Permutation_length (sort_pairs_perm metadata)).
  match goal with H : (_ <=? _)%nat = true |- _ => rewrite H; cbn [raise_unless rbind] end.
  rewrite rmap_Forall by (by rewrite sort_pairs_perm). cbn [rbind].
  rewrite bool_decide_eq_true_2 by (by rewrite sort_pairs_perm). cbn.
  by rewrite (sort_pairs_id (sort_pairs _)) by apply sort_pairs_in_order.
Qed.

(** ** Canonical text binds the values *)

Lemma canon_pairs l : canon (pairs_json l) = pairs_json l.
Proof.
  unfold pairs_json. cbn. f_equal. rewrite List.map_map. by apply List.map_ext.
Qed.

Lemma pairs_json_inj l1 l2 : pairs_json l1 = pairs_json l2 → l1 = l2.
Proof.
  unfold pairs_json. intros [= H]. revert l2 H.
  induction l1 as [|[k v] l1 IH]; intros [|[k' v'] l2]; cbn; intros H; simplify_eq; [done|].
  f_equal. by apply IH.
Qed.

(** Equal canonical texts of payloads with literal keys: compute both sorted
    objects and read off the fields. *)
Ltac canon_inv H :=
  apply dumps_inj in H;
  repeat (cbn -[pairs_json isoformat value String.leb] in H;
          match type of H with context [String.leb ?a ?b] =>
            let v := eval vm_compute in (String.leb a b) in
            change (String.leb a b) with v in H
          end);
  cbn -[pairs_json isoformat value] in H;
  rewrite ?canon_pairs in H;
  injection H; clear H; intros;
  repeat match goal with
    | E : value _ = value _ |- _ => apply (inj value) in E
    | E : List.map _ ?l = List.map _ ?l' |- _ =>
        apply (f_equal JArr) in E; apply (pairs_json_inj l l') in E
    end.

Theorem request_canonical_inj r1 r2 : request_canonical r1 = request_canonical r2 → r1 = r2.
Proof.
  unfold request_canonical, request_payload. intros H. canon_inv H.
  destruct r1, r2; cbn in *. by subst.
Qed.

Definition plan_times_valid (p : ActionPlan) : Prop :=
  valid_datetime (plan_created_at p) ∧ valid_datetime (plan_expires_at p).

(** Everything the plan digest is computed from: the plan without its
    [digest] field. *)
Definition plan_unsigned (p : ActionPlan) : ActionPlan :=
  {| plan_plan_id := plan_plan_id p; plan_request := plan_request p; plan_risk := plan_risk p;
     plan_evidence := plan_evidence p; plan_expected_effect := plan_expected_effect p;
     plan_expires_at := plan_expires_at p; plan_created_at := plan_created_at p;
     plan_evidence_source := plan_evidence_source p; plan_state := plan_state p;
     plan_digest := "" |}.

Lemma plan_canonical_inj p q :
  plan_times_valid p → plan_times_valid q →
  plan_canonical p = plan_canonical q → plan_unsigned p = plan_unsigned q.
Proof.
  intros [Hp Hp'] [Hq Hq'] H. unfold plan_canonical, plan_payload, request_payload in H.
  canon_inv H.
  repeat match goal with
    | E : isoformat _ = isoformat _ |- _ => apply isoformat_inj in E; [|done..]
    end.
  destruct p as [? [] ? []], q as [? [] ? []]; cbn in *. by subst.
Qed.

(** The digest of an action plan binds every field of the plan: two plans
    with the same digest are the same plan, unless their canonical texts are
    an explicit SHA-256 collision. *)
Lemma plan_digest_binds p q :
  plan_times_valid p → plan_times_valid q → computed_digest p = computed_digest q →
  plan_unsigned p = plan_unsigned q ∨ collision (plan_canonical p) (plan_canonical q).
Proof.
  intros Hp Hq H. destruct (decide (plan_canonical p = plan_canonical q)) as [E|E].
  - left. by apply plan_canonical_inj.
  - right. by split.
Qed.
