(* ===== verification/SqlTables.v ===== *)
(** * SqlTables: the control-plane database (control_plane/storage/)

    A table is the list of its rows in insertion order, a row a record of its
    columns with timestamps as the text stored.  [sql_insert] enforces the primary
    keys, unique constraints and foreign keys of schema.py, [sql_update] answers
    the row count, [transaction] is [ControlPlaneDatabase.transaction].

    Several connections share the file.  [circumstances] says what they do to
    one call: what they have committed when the call gets past a gap between
    two of its statements, and whether the database refuses the call's
    [BEGIN IMMEDIATE].  Nothing happens between the statements of a transaction. *)

From S2P Require Import Prelude PyStr PyTime PyIso Models.
From Stdlib Require Import Ascii String ZArith Lia.
From stdpp Require Import base strings list.

Local Open Scope string_scope.
Local Open Scope Z_scope.
Local Open Scope aipm_scope.

(** ** Rows *)

Record decision_row := {
  dr_decision_id : string; dr_action_id : string; dr_allowed : Z; dr_code : string;
  dr_operation : string; dr_target_id : string; dr_environment : string; dr_policy_version : string;
  dr_principal_subject : string; dr_confirmation_required : Z; dr_confirmation_kind : string;
  dr_plan_id : string; dr_plan_revision : Z; dr_plan_digest : string; dr_target_digest : string;
  dr_request_canonical : string; dr_decided_at : string; dr_expires_at : string;
}.
Record action_row := {
  ar_action_id : string; ar_decision_id : string; ar_idempotency_key : string; ar_operation : string;
  ar_target_id : string; ar_environment : string; ar_plan_id : string; ar_plan_revision : Z;
  ar_plan_digest : string; ar_target_digest : string; ar_requester_subject : string;
  ar_policy_version : string; ar_lifecycle_state : string; ar_confirmation_kind : string;
  ar_approver_subject : option string; ar_created_at : string; ar_updated_at : string;
  ar_expires_at : string; ar_version : Z; ar_rollback_of_action_id : option string;
  ar_snapshot_id : option string; ar_outcome : option string; ar_contract_version : option string;
  ar_capability_version : option string; ar_contract_digest : option string; ar_action_protocol : string;
}.
Record confirmation_row := {
  cr_confirmation_id : string; cr_decision_id : string; cr_action_id : string; cr_plan_id : string;
  cr_plan_digest : string; cr_target_revision : Z; cr_target_digest : string; cr_policy_version : string;
  cr_requester_subject : string; cr_confirmed_by_subject : option string; cr_confirmation_kind : string;
  cr_request_canonical : string; cr_scope : string; cr_state : string; cr_created_at : string;
  cr_expires_at : string; cr_consumed_at : option string;
}.
Record plan_row := {
  pl_target_id : string; pl_environment : string; pl_revision : Z; pl_title : string; pl_objective : string;
  pl_enabled : Z; pl_canonical_digest : string; pl_created_at : string; pl_updated_at : string;
}.
Record lease_row := {
  lr_lease_id : string; lr_action_id : string; lr_environment : string; lr_fencing_token : Z;
  lr_state : string; lr_holder : option string; lr_granted_at : string; lr_expires_at : string;
  lr_released_at : option string; lr_action_version : option Z;
}.
Record snapshot_row := {
  sr_snapshot_id : string; sr_target_id : string; sr_environment : string; sr_revision : Z;
  sr_canonical_digest : string; sr_payload_canonical : string; sr_action_id : option string;
  sr_captured_at : string; sr_plan_id : option string; sr_snapshot_version : string;
  sr_integrity_digest : string;
}.
Record verification_row := {
  vw_verification_id : string; vw_action_id : string; vw_success : Z; vw_reason_code : string;
  vw_expected_revision : Z; vw_observed_revision : option Z; vw_expected_digest : option string;
  vw_observed_digest : option string; vw_verifier : string; vw_verification_version : string;
  vw_evidence_references : string; vw_observed_at : string; vw_integrity_digest : string;
}.
Record ledger_row := {
  gr_sequence : Z; gr_event_id : string; gr_event_type : string; gr_occurred_at : string;
  gr_actor_subject : string; gr_actor_role : string; gr_action_id : option string;
  gr_plan_id : option string; gr_plan_revision : option Z; gr_plan_digest : option string;
  gr_target_id : option string; gr_environment : option string; gr_operation : option string;
  gr_decision_id : option string; gr_confirmation_id : option string; gr_lease_id : option string;
  gr_parent_event_id : option string; gr_policy_version : option string;
  gr_lifecycle_from : option string; gr_lifecycle_to : option string; gr_result_code : option string;
  gr_reason : option string; gr_previous_hash : string; gr_event_hash : string; gr_chain_version : string;
}.
Record session_row := {
  ow_session_id_hash : string; ow_principal_subject : string; ow_auth_epoch : Z; ow_created_at : string;
  ow_expires_at : string; ow_inactivity_expires_at : string; ow_last_seen_at : string;
  ow_revoked_at : option string; ow_csrf_token_hash : string; ow_session_version : string;
}.
Record switch_row := {
  kr_environment : string; kr_state : string; kr_epoch : Z; kr_reason : string;
  kr_actor_subject : option string; kr_created_at : string; kr_updated_at : string;
}.
Record registration_row := {
  gn_registration_id : string; gn_target_id : string; gn_environment : string; gn_status : string;
  gn_canonical_project_path : string; gn_runtime_mode : string; gn_compose_project_name : option string;
  gn_registration_digest : string; gn_registration_version : string; gn_registered_by : string;
  gn_registered_at : string; gn_approved_by : option string; gn_approved_at : option string;
  gn_revoked_by : option string; gn_revoked_at : option string; gn_revocation_reason : option string;
  gn_updated_at : string;
}.

Record database := {
  db_decisions : list decision_row; db_actions : list action_row; db_confirmations : list confirmation_row;
  db_plans : list plan_row; db_leases : list lease_row; db_snapshots : list snapshot_row;
  db_verifications : list verification_row; db_ledger : list ledger_row; db_sessions : list session_row;
  db_switches : list switch_row; db_registrations : list registration_row;
}.
Definition empty_database : database :=
  {| db_decisions := []; db_actions := []; db_confirmations := []; db_plans := []; db_leases := [];
     db_snapshots := []; db_verifications := []; db_ledger := []; db_sessions := []; db_switches := [];
     db_registrations := [] |}.

(** ** Tables *)

(** A table of the database: its rows, and the constraints a new row must meet. *)
Class SqlTable (R : Type) := {
  rows : database → list R;
  set_rows : list R → database → database;
  row_key : R → string;
  admits : R → database → bool;
}.

Definition fresh_key {R} `{SqlTable R} (r : R) (db : database) : bool :=
  negb (List.existsb (λ x, str_eqb (row_key x) (row_key r)) (rows db)).

#[export] Instance decisions_table : SqlTable decision_row := {
  rows := db_decisions;
  set_rows l d := {| db_decisions := l; db_actions := db_actions d; db_confirmations := db_confirmations d;
    db_plans := db_plans d; db_leases := db_leases d; db_snapshots := db_snapshots d;
    db_verifications := db_verifications d; db_ledger := db_ledger d; db_sessions := db_sessions d;
    db_switches := db_switches d; db_registrations := db_registrations d |};
  row_key := dr_decision_id;
  admits _ _ := true;
}.
(** [UNIQUE (target_id, operation, idempotency_key)] *)
Definition same_idempotency (a b : action_row) : bool :=
  str_eqb (ar_target_id a) (ar_target_id b) && str_eqb (ar_operation a) (ar_operation b) &&
  str_eqb (ar_idempotency_key a) (ar_idempotency_key b).
#[export] Instance actions_table : SqlTable action_row := {
  rows := db_actions;
  set_rows l d := {| db_decisions := db_decisions d; db_actions := l; db_confirmations := db_confirmations d;
    db_plans := db_plans d; db_leases := db_leases d; db_snapshots := db_snapshots d;
    db_verifications := db_verifications d; db_ledger := db_ledger d; db_sessions := db_sessions d;
    db_switches := db_switches d; db_registrations := db_registrations d |};
  row_key := ar_action_id;
  admits r d := negb (List.existsb (same_idempotency r) (db_actions d)) &&
    List.existsb (λ x, str_eqb (dr_decision_id x) (ar_decision_id r)) (db_decisions d);
}.
#[export] Instance confirmations_table : SqlTable confirmation_row := {
  rows := db_confirmations;
  set_rows l d := {| db_decisions := db_decisions d; db_actions := db_actions d; db_confirmations := l;
    db_plans := db_plans d; db_leases := db_leases d; db_snapshots := db_snapshots d;
    db_verifications := db_verifications d; db_ledger := db_ledger d; db_sessions := db_sessions d;
    db_switches := db_switches d; db_registrations := db_registrations d |};
  row_key := cr_confirmation_id;
  admits r d := List.existsb (λ x, str_eqb (ar_action_id x) (cr_action_id r)) (db_actions d);
}.
#[export] Instance plans_table : SqlTable plan_row := {
  rows := db_plans;
  set_rows l d := {| db_decisions := db_decisions d; db_actions := db_actions d;
    db_confirmations := db_confirmations d; db_plans := l; db_leases := db_leases d;
    db_snapshots := db_snapshots d; db_verifications := db_verifications d; db_ledger := db_ledger d;
    db_sessions := db_sessions d; db_switches := db_switches d; db_registrations := db_registrations d |};
  row_key := pl_target_id;
  admits _ _ := true;
}.
#[export] Instance leases_table : SqlTable lease_row := {
  rows := db_leases;
  set_rows l d := {| db_decisions := db_decisions d; db_actions := db_actions d;
    db_confirmations := db_confirmations d; db_plans := db_plans d; db_leases := l;
    db_snapshots := db_snapshots d; db_verifications := db_verifications d; db_ledger := db_ledger d;
    db_sessions := db_sessions d; db_switches := db_switches d; db_registrations := db_registrations d |};
  row_key := lr_lease_id;
  admits _ _ := true;
}.
#[export] Instance snapshots_table : SqlTable snapshot_row := {
  rows := db_snapshots;
  set_rows l d := {| db_decisions := db_decisions d; db_actions := db_actions d;
    db_confirmations := db_confirmations d; db_plans := db_plans d; db_leases := db_leases d;
    db_snapshots := l; db_verifications := db_verifications d; db_ledger := db_ledger d;
    db_sessions := db_sessions d; db_switches := db_switches d; db_registrations := db_registrations d |};
  row_key := sr_snapshot_id;
  admits _ _ := true;
}.
#[export] Instance verifications_table : SqlTable verification_row := {
  rows := db_verifications;
  set_rows l d := {| db_decisions := db_decisions d; db_actions := db_actions d;
    db_confirmations := db_confirmations d; db_plans := db_plans d; db_leases := db_leases d;
    db_snapshots := db_snapshots d; db_verifications := l; db_ledger := db_ledger d;
    db_sessions := db_sessions d; db_switches := db_switches d; db_registrations := db_registrations d |};
  row_key := vw_verification_id;
  admits _ _ := true;
}.
(** The primary key is [sequence], [event_id] is unique. *)
#[export] Instance ledger_table : SqlTable ledger_row := {
  rows := db_ledger;
  set_rows l d := {| db_decisions := db_decisions d; db_actions := db_actions d;
    db_confirmations := db_confirmations d; db_plans := db_plans d; db_leases := db_leases d;
    db_snapshots := db_snapshots d; db_verifications := db_verifications d; db_ledger := l;
    db_sessions := db_sessions d; db_switches := db_switches d; db_registrations := db_registrations d |};
  row_key := gr_event_id;
  admits r d := negb (List.existsb (λ x, gr_sequence x =? gr_sequence r) (db_ledger d));
}.
#[export] Instance sessions_table : SqlTable session_row := {
  rows := db_sessions;
  set_rows l d := {| db_decisions := db_decisions d; db_actions := db_actions d;
    db_confirmations := db_confirmations d; db_plans := db_plans d; db_leases := db_leases d;
    db_snapshots := db_snapshots d; db_verifications := db_verifications d; db_ledger := db_ledger d;
    db_sessions := l; db_switches := db_switches d; db_registrations := db_registrations d |};
  row_key := ow_session_id_hash;
  admits _ _ := true;
}.
#[export] Instance switches_table : SqlTable switch_row := {
  rows := db_switches;
  set_rows l d := {| db_decisions := db_decisions d; db_actions := db_actions d;
    db_confirmations := db_confirmations d; db_plans := db_plans d; db_leases := db_leases d;
    db_snapshots := db_snapshots d; db_verifications := db_verifications d; db_ledger := db_ledger d;
    db_sessions := db_sessions d; db_switches := l; db_registrations := db_registrations d |};
  row_key := kr_environment;
  admits _ _ := true;
}.

(** [UNIQUE INDEX … (target_id, environment) WHERE status IN ('REGISTERED', 'DISABLED')] *)
Definition status_active (r : registration_row) : bool := mem (gn_status r) ["REGISTERED"; "DISABLED"].
Definition same_project (a b : registration_row) : bool :=
  str_eqb (gn_target_id a) (gn_target_id b) && str_eqb (gn_environment a) (gn_environment b).
Fixpoint unique_active (l : list registration_row) : bool :=
  match l with
  | [] => true
  | r :: l' => negb (status_active r && List.existsb (λ x, status_active x && same_project r x) l') && unique_active l'
  end.
#[export] Instance registrations_table : SqlTable registration_row := {
  rows := db_registrations;
  set_rows l d := {| db_decisions := db_decisions d; db_actions := db_actions d;
    db_confirmations := db_confirmations d; db_plans := db_plans d; db_leases := db_leases d;
    db_snapshots := db_snapshots d; db_verifications := db_verifications d; db_ledger := db_ledger d;
    db_sessions := db_sessions d; db_switches := db_switches d; db_registrations := l |};
  row_key := gn_registration_id;
  admits r d := unique_active (db_registrations d ++ [r])%list;
}.

(** ** Statements *)

Section statements.
Context {R : Type} `{SqlTable R}.

(** [SELECT * … WHERE p]: all rows, and the first ([fetchone]). *)
Definition sql_select (p : R → bool) : M database (list R) := λ db, (db, Ok (List.filter p (rows db))).
Definition sql_select_one (p : R → bool) : M database (option R) := λ db, (db, Ok (List.find p (rows db))).

(** [INSERT INTO …] *)
Definition sql_insert (r : R) : M database unit :=
  do db <- getM;;
  assert_ fresh_key r db && admits r db else_raise IntegrityError;;
  putM (set_rows (rows db ++ [r])%list db).

(** [INSERT OR REPLACE INTO …]: a row with the same key goes first. *)
Definition sql_replace (r : R) : M database unit :=
  do db <- getM;;
  assert_ admits r db else_raise IntegrityError;;
  putM (set_rows (List.filter (λ x, negb (str_eqb (row_key x) (row_key r))) (rows db) ++ [r])%list db).

(** [UPDATE … SET f WHERE p] and its [rowcount]. *)
Definition sql_update (p : R → bool) (f : R → R) : M database Z :=
  do db <- getM;;
  do_ putM (set_rows (List.map (λ r, if p r then f r else r) (rows db)) db);;
  retM (Z.of_nat (length (List.filter p (rows db)))).

Definition sql_count : M database Z := λ db, (db, Ok (Z.of_nat (length (rows db)))).
End statements.

(** [ORDER BY]: stable insertion by [leb]. *)
Fixpoint insert_by {R} (leb : R → R → bool) (r : R) (l : list R) : list R :=
  match l with
  | [] => [r]
  | x :: l' => if leb r x then r :: x :: l' else x :: insert_by leb r l'
  end.
Fixpoint order_by {R} (leb : R → R → bool) (l : list R) : list R :=
  match l with [] => [] | r :: l' => insert_by leb r (order_by leb l') end.

(** ** Transactions *)

Record circumstances := {
  cc_others : nat → database → database;
  cc_locked : bool;
  cc_clock : datetime;
}.

(** What the other connections have done after gap [k] of the call. *)
Definition gap (c : circumstances) (k : nat) : M database unit := modifyM (cc_others c k).

(** [ControlPlaneDatabase.transaction]: [BEGIN IMMEDIATE], then commit, or roll
    back whatever was raised. *)
Definition transaction {A} (c : circumstances) (m : M database A) : M database A :=
  do_ gap c 0;;
  if cc_locked c then raiseM SqliteError else
  λ db, match m db with
        | (db', Ok a) => (db', Ok a)
        | (_, Raise e) => (db, Raise e)
        end.

(** The classes under [sqlite3.Error]. *)
Definition is_sqlite_error (e : exn) : bool :=
  match e with SqliteError | IntegrityError => true | _ => false end.

(** [except sqlite3.Error as exc: raise e from exc] *)
Definition or_sqlite {A} (e : exn) (m : M database A) : M database A :=
  catchM m (λ x, if is_sqlite_error x then Some (raiseM e) else None).

(** [_utc(now).isoformat() if now is not None else self._now_iso()] *)
Definition stamp (c : circumstances) (now : option datetime) : string := isoformat (default (cc_clock c) now).

(** ** Reading columns *)

Definition corrupt : exn := ControlPlaneError STORAGE_CORRUPT.

(** [_parse_timestamp]: the instant of a stored text with an offset. *)
Definition parse_timestamp (value : string) : result datetime :=
  match fromisoformat value with
  | Ok d => match iso_offset d with Some o => Ok (iso_local d - o) | None => Raise corrupt end
  | Raise _ => Raise corrupt
  end.

(** [Enum(value)]: the member with that value. *)
Class Enumerated (A : Type) `{EnumValue A} := members : list A.
Definition enum_of {A} `{Enumerated A} (s : string) : result A :=
  match List.find (λ x, str_eqb (value x) s) members with Some x => Ok x | None => Raise ValueError end.

#[export] Instance OperationKind_members : Enumerated OperationKind := [UPDATE_PROJECT_PLAN; ROLLBACK_PROJECT_PLAN].

(** [except ControlPlaneError: raise / except (KeyError, TypeError, ValueError):
    raise _corrupt(…)].  [ControlPlaneError] is a [ValueError]; where only the
    second clause is written the result is the same code. *)
Definition or_corrupt {A} (r : result A) : result A :=
  match r with
  | Raise (ControlPlaneError c) => Raise (ControlPlaneError c)
  | Raise e => if is_value_error e || bool_decide (e = TypeError) || bool_decide (e = KeyError) then Raise corrupt
               else Raise e
  | r => r
  end.
