(* ===== verification/Lifecycle.v ===== *)
(** * Lifecycle: the canonical action state machine (control_plane/lifecycle.py)

    [allowed_transitions] is the source's table, [validate_transition] its
    guarded reading and [advance] the only way a lifecycle value changes state.
    The second half studies the machine as a step relation: what a run can
    look like, that runs are bounded, and which recorded facts every reachable
    value carries. *)

From S2P Require Import Prelude PyStr PyTime Models.
From stdpp Require Import base strings list gmap relations.
From Stdlib Require Import String ZArith Lia.

Local Open Scope string_scope.
Local Open Scope Z_scope.
Local Open Scope aipm_scope.

(** ** The table *)

Definition TERMINAL_STATES : list LifecycleState :=
  [REJECTED; EXPIRED; INVALIDATED; VERIFIED_SUCCESS; EXECUTION_FAILED; ROLLED_BACK;
   ROLLBACK_UNAVAILABLE; ROLLBACK_FAILED].

Definition ALLOWED_TRANSITIONS (s : LifecycleState) : list LifecycleState :=
  match s with
  | REQUESTED => [PLANNED; REJECTED; EXPIRED]
  | PLANNED => [CONFIRMATION_REQUIRED; INVALIDATED; EXPIRED]
  | CONFIRMATION_REQUIRED => [CONFIRMED; REJECTED; INVALIDATED; EXPIRED]
  | CONFIRMED => [SNAPSHOT_CAPTURED; INVALIDATED; EXPIRED]
  | SNAPSHOT_CAPTURED => [LEASED; INVALIDATED; EXPIRED]
  | LEASED => [RUNNING; RECONCILIATION_REQUIRED; INVALIDATED; EXPIRED]
  | RUNNING => [EXECUTED_PENDING_VERIFICATION; EXECUTION_FAILED; RECONCILIATION_REQUIRED]
  | EXECUTED_PENDING_VERIFICATION => [VERIFIED_SUCCESS; VERIFICATION_FAILED]
  | VERIFICATION_FAILED => [ROLLBACK_REQUESTED; RECONCILIATION_REQUIRED]
  | EXECUTION_FAILED => [ROLLBACK_REQUESTED; RECONCILIATION_REQUIRED]
  | CANCEL_REQUESTED => [RECONCILIATION_REQUIRED; INTERRUPTED]
  | TIMED_OUT => [RECONCILIATION_REQUIRED]
  | INTERRUPTED => [RECONCILIATION_REQUIRED]
  | RECONCILIATION_REQUIRED => [VERIFIED_SUCCESS; ROLLBACK_REQUESTED; ROLLBACK_UNAVAILABLE]
  | ROLLBACK_REQUESTED => [ROLLED_BACK; ROLLBACK_UNAVAILABLE; ROLLBACK_FAILED]
  | _ => []
  end.

Definition IMPLEMENTED_STATES : list LifecycleState :=
  [REQUESTED; PLANNED; CONFIRMATION_REQUIRED; CONFIRMED; SNAPSHOT_CAPTURED; LEASED; RUNNING;
   EXECUTED_PENDING_VERIFICATION; VERIFIED_SUCCESS; VERIFICATION_FAILED; EXECUTION_FAILED;
   RECONCILIATION_REQUIRED; ROLLBACK_REQUESTED; ROLLED_BACK; ROLLBACK_FAILED; REJECTED;
   EXPIRED; INVALIDATED].

Definition CONFIRMATION_STATES : list LifecycleState := [CONFIRMED].

Definition allowed_transitions (s : LifecycleState) : list LifecycleState :=
  ALLOWED_TRANSITIONS s.
Definition terminal_states : list LifecycleState := TERMINAL_STATES.
Definition implemented_states : list LifecycleState := IMPLEMENTED_STATES.

Definition in_states (s : LifecycleState) (l : list LifecycleState) : bool := bool_decide (s ∈ l).

(** [if not actor_subject] *)
Definition truthy_subject (o : option string) : option string :=
  match o with
  | Some s => if str_nonempty s then Some s else None
  | None => None
  end.

(** ** Transitions *)

(** The confirmation rules of [validate_transition]. *)
Definition validate_confirmer (current : ActionLifecycle) (actor : option string)
  : result unit :=
  match truthy_subject actor with
  | None => Raise LifecycleError
  | Some subject =>
      let* _ :=
        match lc_confirmation_kind current with
        | DISTINCT_APPROVAL =>
            raise_unless (negb (str_eqb subject (lc_requester_subject current))) LifecycleError
        | OWNER_CONFIRMATION =>
            raise_unless (str_eqb subject (lc_requester_subject current)) LifecycleError
        end in
      match lc_approver_subject current with
      | None => Ok ()
      | Some recorded => raise_unless (str_eqb recorded subject) LifecycleError
      end
  end.

Definition validate_transition (current : ActionLifecycle) (target : LifecycleState)
    (now : option datetime) (actor : option string) : result unit :=
  require negb (in_states (lc_state current) TERMINAL_STATES) else_raise LifecycleError;;
  require in_states target (allowed_transitions (lc_state current)) else_raise LifecycleError;;
  require in_states target IMPLEMENTED_STATES else_raise LifecycleError;;
  require match now with
          | None => true
          | Some t => negb ((lc_expires_at current <=? t) && negb (bool_decide (target = EXPIRED)))
          end else_raise LifecycleError;;
  if in_states target CONFIRMATION_STATES then validate_confirmer current actor else Ok ().

(** [advance]: validation, then [dataclasses.replace], whose constructor
    checks the new value again. *)
Definition advance (current : ActionLifecycle) (target : LifecycleState)
    (now : option datetime) (actor : option string) : result ActionLifecycle :=
  let* _ := validate_transition current target now actor in
  match truthy_subject actor with
  | Some subject =>
      if in_states target CONFIRMATION_STATES
      then check_ActionLifecycle (lc_with target (Some subject) (lc_version current + 1) current)
      else check_ActionLifecycle
             (lc_with target (lc_approver_subject current) (lc_version current + 1) current)
  | None =>
      check_ActionLifecycle
        (lc_with target (lc_approver_subject current) (lc_version current + 1) current)
  end.

(** ** The state graph *)

(** One legal move between states. *)
Definition edge (a b : LifecycleState) : Prop :=
  a ∉ TERMINAL_STATES ∧ b ∈ allowed_transitions a ∧ b ∈ IMPLEMENTED_STATES.
#[export] Instance edge_dec a b : Decision (edge a b).
Proof. apply _. Defined.

(** Distance to the end of the longest run from a state. *)
Definition rank (s : LifecycleState) : nat :=
  match s with
  | REQUESTED => 11 | PLANNED => 10 | CONFIRMATION_REQUIRED => 9 | CONFIRMED => 8
  | SNAPSHOT_CAPTURED => 7 | LEASED => 6 | RUNNING => 5 | EXECUTED_PENDING_VERIFICATION => 4
  | VERIFICATION_FAILED => 3 | RECONCILIATION_REQUIRED => 2 | ROLLBACK_REQUESTED => 1
  | TIMED_OUT => 3 | INTERRUPTED => 3 | CANCEL_REQUESTED => 4
  | _ => 0
  end%nat.

(** The states after LEASED, in which the target may have been mutated. *)
Definition execution_states : list LifecycleState :=
  [RUNNING; EXECUTED_PENDING_VERIFICATION; VERIFIED_SUCCESS; VERIFICATION_FAILED;
   EXECUTION_FAILED; RECONCILIATION_REQUIRED; ROLLBACK_REQUESTED; ROLLED_BACK; ROLLBACK_FAILED].

(** The only way to get as far as a lease. *)
Definition lease_path : list LifecycleState :=
  [REQUESTED; PLANNED; CONFIRMATION_REQUIRED; CONFIRMED; SNAPSHOT_CAPTURED; LEASED].

(** [run a0 l a]: a chain of successful [advance] calls from a value [a0] the
    constructor accepted in state REQUESTED; [l] lists the states visited,
    oldest first, and [a] is the last value. *)
Inductive run (a0 : ActionLifecycle) : list LifecycleState → ActionLifecycle → Prop :=
  | run_start : lifecycle_wf a0 → lc_state a0 = REQUESTED → run a0 [REQUESTED] a0
  | run_step l a target now actor a' :
      run a0 l a → advance a target now actor = Ok a' → run a0 (l ++ [target]) a'.

(** Everything an action is bound to: all fields but state, approver and
    version. *)
Definition same_binding (a b : ActionLifecycle) : Prop :=
  lc_with REQUESTED None 0 a = lc_with REQUESTED None 0 b.

(** The confirmer recorded on [a] is the one its confirmation kind asks for. *)
Definition rightly_confirmed (a : ActionLifecycle) : Prop :=
  ∃ s, lc_approver_subject a = Some s ∧
    (lc_confirmation_kind a = OWNER_CONFIRMATION → s = lc_requester_subject a) ∧
    (lc_confirmation_kind a = DISTINCT_APPROVAL → s ≠ lc_requester_subject a).

(** ** Lemmas *)

Lemma in_states_spec s l : in_states s l = true ↔ s ∈ l.
Proof. apply bool_decide_eq_true. Qed.

Lemma truthy_Some o s : truthy_subject o = Some s → o = Some s ∧ s ≠ "".
Proof.
  destruct o as [t|]; cbn; [|done]. unfold str_nonempty, str_eqb. case_bool_decide; naive_solver.
Qed.

Lemma raises_or_ok_check a b : check_ActionLifecycle a = Ok b → b = a.
Proof. unfold check_ActionLifecycle. intros H. by inv_ok. Qed.

Lemma check_wf a b : check_ActionLifecycle a = Ok b → b = a ∧ lifecycle_wf b.
Proof. intros H. pose proof (raises_or_ok_check _ _ H). by subst. Qed.

(** Case analysis on a decidable fact about two states. *)
Ltac by_table H a b :=
  let T := type of H in
  apply (bool_decide_eq_true_2 T) in H;
  destruct a, b; vm_compute in H; try discriminate H; clear H.

Lemma edge_rank a b : edge a b → (rank b < rank a)%nat.
Proof. intros H. by_table H a b; vm_compute; lia. Qed.

(** The exact effect of a successful [advance]. *)
Lemma advance_Ok current target now actor a' :
  advance current target now actor = Ok a' →
  edge (lc_state current) target ∧
  lifecycle_wf a' ∧
  (∃ approver, a' = lc_with target approver (lc_version current + 1) current ∧
     (target ≠ CONFIRMED → approver = lc_approver_subject current) ∧
     (target = CONFIRMED → ∃ subject, actor = Some subject ∧ approver = Some subject ∧
        (lc_confirmation_kind current = OWNER_CONFIRMATION → subject = lc_requester_subject current) ∧
        (lc_confirmation_kind current = DISTINCT_APPROVAL → subject ≠ lc_requester_subject current))) ∧
  (∀ t, now = Some t → t < lc_expires_at current ∨ target = EXPIRED).
Proof.
  unfold advance. intros H. inv_ok.
  match goal with H : validate_transition _ _ _ _ = Ok _ |- _ =>
    rename H into HV; unfold validate_transition in HV end.
  inv_ok. repeat match goal with
    | H : in_states _ _ = true |- _ => apply in_states_spec in H
    | H : in_states _ TERMINAL_STATES = false |- _ => apply bool_decide_eq_false in H
    end.
  split; [done|]. assert (Hnow : ∀ t, now = Some t → t < lc_expires_at current ∨ target = EXPIRED).
  { intros t ->. match goal with H : context [_ <=? _] |- _ => revert H end.
    destruct (Z.leb_spec (lc_expires_at current) t); [|by left]. cbn.
    intros Ht%negb_true_iff%negb_false_iff%bool_decide_eq_true. by right. }
  destruct (in_states target CONFIRMATION_STATES) eqn:HC.
  - apply in_states_spec, list_elem_of_singleton in HC as ->.
    unfold validate_confirmer in HV. destruct (truthy_subject actor) as [s|] eqn:Ha; [|done].
    apply truthy_Some in Ha as [-> _]. inv_ok.
    apply check_wf in H as [-> Hwf]. split_and!; [done| |done]. eexists. split_and!; [done|done|].
    intros _. exists s. split_and!; [done|done|..];
      intros Hk; rewrite Hk in *; inv_ok; by match goal with
        | H : str_eqb _ _ = _ |- _ => unfold str_eqb in H; case_bool_decide end.
  - assert (target ≠ CONFIRMED) by (intros ->; vm_compute in HC; done).
    assert (check_ActionLifecycle (lc_with target (lc_approver_subject current)
              (lc_version current + 1) current) = Ok a') as Hc
      by (destruct (truthy_subject actor); done).
    apply check_wf in Hc as [-> Hwf]. split_and!; [done| |done]. by eexists.
Qed.

Lemma advance_state a target now actor a' :
  advance a target now actor = Ok a' →
  lc_state a' = target ∧ lc_version a' = lc_version a + 1 ∧ same_binding a a'.
Proof. intros (_ & _ & (ap & -> & _) & _)%advance_Ok. done. Qed.

Lemma run_state a0 l a : run a0 l a → List.last l REQUESTED = lc_state a.
Proof.
  destruct 1 as [? ->|l a target now actor a' _ H]; [done|].
  rewrite List.last_last. by apply advance_state in H as [-> _].
Qed.

Lemma run_wf a0 l a : run a0 l a → lifecycle_wf a.
Proof. destruct 1 as [?|l a target now actor a' _ H]; [done|]. by apply advance_Ok in H as (_ & ? & _). Qed.

Lemma run_rank a0 l a : run a0 l a → (List.length l + rank (lc_state a) <= 12)%nat.
Proof.
  induction 1 as [? Hs|l a target now actor a' _ IH H]; [rewrite Hs; vm_compute; lia|].
  pose proof (advance_state _ _ _ _ _ H) as [-> _]. apply advance_Ok in H as (He & _).
  apply edge_rank in He. rewrite List.length_app. cbn [List.length]. lia.
Qed.

(** An edge into an execution state leaves from one, except LEASED -> RUNNING
    and LEASED -> RECONCILIATION_REQUIRED; LEASED is entered only from the
    end of the confirmation path, and so on down to REQUESTED. *)
Lemma edge_into a b :
  edge a b →
  match b with
  | PLANNED => a = REQUESTED
  | CONFIRMATION_REQUIRED => a = PLANNED
  | CONFIRMED => a = CONFIRMATION_REQUIRED
  | SNAPSHOT_CAPTURED => a = CONFIRMED
  | LEASED => a = SNAPSHOT_CAPTURED
  | RUNNING => a = LEASED
  | EXECUTED_PENDING_VERIFICATION | EXECUTION_FAILED => a = RUNNING
  | VERIFIED_SUCCESS | VERIFICATION_FAILED | RECONCILIATION_REQUIRED
  | ROLLBACK_REQUESTED | ROLLED_BACK | ROLLBACK_FAILED =>
      a = LEASED ∨ a ∈ execution_states ∨ a ∈ [CANCEL_REQUESTED; TIMED_OUT; INTERRUPTED]
  | REQUESTED | CANCEL_REQUESTED | TIMED_OUT | INTERRUPTED | ROLLBACK_UNAVAILABLE => False
  | REJECTED | EXPIRED | INVALIDATED => True
  end.
Proof. intros H. by_table H a b; try done; vm_compute; set_solver. Qed.

(** What the visited states look like, by the state reached. *)
Definition path_shape (s : LifecycleState) (l : list LifecycleState) : Prop :=
  match s with
  | REQUESTED => l = take 1 lease_path
  | PLANNED => l = take 2 lease_path
  | CONFIRMATION_REQUIRED => l = take 3 lease_path
  | CONFIRMED => l = take 4 lease_path
  | SNAPSHOT_CAPTURED => l = take 5 lease_path
  | LEASED => l = lease_path
  | REJECTED | EXPIRED | INVALIDATED => True
  | CANCEL_REQUESTED | TIMED_OUT | INTERRUPTED | ROLLBACK_UNAVAILABLE => False
  | _ => ∃ rest, l = (lease_path ++ rest)%list
  end.

Lemma run_path a0 l a : run a0 l a → path_shape (lc_state a) l.
Proof.
  induction 1 as [? Hs|l a target now actor a' _ IH H]; [by rewrite Hs|].
  pose proof (advance_state _ _ _ _ _ H) as [-> _]. apply advance_Ok in H as (He & _).
  pose proof (edge_into _ _ He) as Hi. destruct target; cbn in Hi |- *; try done;
    try (rewrite Hi in IH; cbn in IH; subst l; first [reflexivity | by eexists [_]]);
    try (rewrite Hi in IH; cbn in IH; destruct IH as [rest ->]; by eexists).
  all: destruct Hi as [Hi|[Hi|Hi]]; [rewrite Hi in IH; cbn in IH; subst l; by eexists [_]|..].
  all: destruct (lc_state a); cbn in IH; try done; try (exfalso; revert Hi; vm_compute; set_solver).
  all: destruct IH as [rest ->]; by eexists.
Qed.

Lemma run_prefix_confirmed a0 l a :
  run a0 l a → CONFIRMED ∈ l → rightly_confirmed a.
Proof.
  induction 1 as [? Hs|l a target now actor a' Hr IH H]; [by intros ?%list_elem_of_singleton|].
  intros Hin. apply advance_Ok in H as (He & _ & (ap & -> & Hkeep & Hset) & _).
  destruct (decide (target = CONFIRMED)) as [->|Hne].
  - destruct (Hset eq_refl) as (s & _ & -> & Ho & Hd). exists s. done.
  - rewrite Hkeep by done. apply elem_of_app in Hin as [Hin|Hin%list_elem_of_singleton]; [|congruence].
    destruct (IH Hin) as (s & E & Ho & Hd). exists s. done.
Qed.

(** ** Properties *)

(** C30: No run of the lifecycle machine takes more than eleven transitions: a
    run visits at most twelve states, and the version counts them. *)
Theorem lifecycle_runs_bounded a0 l a :
  run a0 l a →
  (List.length l <= 12)%nat ∧ lc_version a = lc_version a0 + Z.of_nat (List.length l) - 1.
Proof.
  intros H. split; [pose proof (run_rank _ _ _ H); lia|].
  induction H as [|l a target now actor a' _ IH H]; [cbn; lia|].
  apply advance_state in H as (_ & -> & _). rewrite IH, List.length_app. cbn [List.length]. lia.
Qed.

(** C1: An action that is executing, executed, verified, failed, awaiting
    reconciliation or rolled back went through REQUESTED, PLANNED,
    CONFIRMATION_REQUIRED, CONFIRMED, SNAPSHOT_CAPTURED, LEASED in that order
    from the start; it carries the confirmer its confirmation kind requires,
    and everything it was bound to at registration is unchanged. *)
Theorem no_execution_without_confirmation a0 l a :
  run a0 l a → lc_state a ∈ execution_states →
  (∃ rest, l = (lease_path ++ rest)%list) ∧ rightly_confirmed a ∧ same_binding a0 a.
Proof.
  intros H Hs.
  assert (Hl : ∃ rest, l = (lease_path ++ rest)%list).
  { pose proof (run_path _ _ _ H) as Hp. destruct (lc_state a); try done;
      exfalso; revert Hs; vm_compute; set_solver. }
  split; [done|]. split.
  - eapply run_prefix_confirmed; [done|]. destruct Hl as [rest ->]. vm_compute. set_solver.
  - clear Hs Hl. induction H as [|l a target now actor a' _ IH H]; [done|].
    apply advance_state in H as (_ & _ & Hb). unfold same_binding in *. congruence.
Qed.

Lemma check_with_state a s ap v :
  lifecycle_wf a → 0 ≤ v →
  (s ∈ approver_required_states → ap ≠ None) →
  check_approver (lc_with s ap v a) = Ok () →
  check_ActionLifecycle (lc_with s ap v a) = Ok (lc_with s ap v a).
Proof.
  unfold lifecycle_wf, check_ActionLifecycle. intros H Hv Hap Hok. inv_ok.
  cbn -[check_approver].
  repeat match goal with
    | H : ?x = Ok _ |- context [rbind ?x _] => rewrite H; cbn [rbind]
    | H : ?x = true |- context [raise_unless ?x _] => rewrite H; cbn [raise_unless rbind]
    | H : ?x = false |- context [raise_unless (negb ?x) _] =>
        rewrite H; cbn [negb raise_unless rbind]
    end.
  replace (bool_decide _ && bool_decide _) with false; cbn [negb raise_unless rbind].
  2: { symmetry. apply andb_false_iff. destruct (decide (s ∈ approver_required_states)) as [?|?].
       - right. apply bool_decide_eq_false_2. by apply Hap.
       - left. by apply bool_decide_eq_false_2. }
  repeat match goal with
    | H : ?x = Ok _ |- context [rbind ?x _] => rewrite H; cbn [rbind]
    | H : ?x = true |- context [raise_unless ?x _] => rewrite H; cbn [raise_unless rbind]
    | H : ?x = false |- context [raise_unless (negb ?x) _] =>
        rewrite H; cbn [negb raise_unless rbind]
    end.
  by rewrite (proj2 (Z.leb_le 0 v) Hv).
Qed.

Lemma edge_guards a target now :
  edge (lc_state a) target →
  (∀ t, now = Some t → t < lc_expires_at a ∨ target = EXPIRED) →
  ∀ actor, validate_transition a target now actor =
    if in_states target CONFIRMATION_STATES then validate_confirmer a actor else Ok ().
Proof.
  intros (Ht & Ha & Hi) Hnow actor. unfold validate_transition.
  replace (in_states (lc_state a) TERMINAL_STATES) with false
    by (symmetry; by apply bool_decide_eq_false_2).
  rewrite (proj2 (in_states_spec _ _) Ha), (proj2 (in_states_spec _ _) Hi).
  cbn [negb raise_unless rbind].
  destruct now as [t|]; [|done]. destruct (Hnow t eq_refl) as [H| ->].
  - by rewrite (proj2 (Z.leb_gt _ _) H).
  - rewrite (bool_decide_eq_true_2 (EXPIRED = EXPIRED)) by done. by rewrite andb_false_r.
Qed.

(** Conditions under which a transition is accepted. *)
Definition confirmer_ok (a : ActionLifecycle) (actor : option string) : Prop :=
  ∃ s, actor = Some s ∧ stage2_id s 128 = Ok s ∧
    (lc_confirmation_kind a = OWNER_CONFIRMATION → s = lc_requester_subject a) ∧
    (lc_confirmation_kind a = DISTINCT_APPROVAL → s ≠ lc_requester_subject a) ∧
    (∀ r, lc_approver_subject a = Some r → r = s).

Lemma stage2_nonempty s m : stage2_id s m = Ok s → str_nonempty s = true.
Proof. unfold stage2_id. intros H. by inv_ok. Qed.

Lemma advance_accepts a target now actor :
  lifecycle_wf a → edge (lc_state a) target →
  (∀ t, now = Some t → t < lc_expires_at a ∨ target = EXPIRED) →
  (target = CONFIRMED → confirmer_ok a actor) →
  (target ≠ CONFIRMED → target ∈ approver_required_states → lc_approver_subject a ≠ None) →
  ∃ a', advance a target now actor = Ok a'.
Proof.
  intros Hwf He Hnow Hconf Hap. unfold advance. rewrite edge_guards by done.
  assert (Hv : 0 ≤ lc_version a + 1).
  { unfold lifecycle_wf, check_ActionLifecycle in Hwf. inv_ok.
    match goal with H : (0 <=? _) = true |- _ => apply Z.leb_le in H end. lia. }
  assert (Hca : ∀ s v, check_approver (lc_with s (lc_approver_subject a) v a) = Ok ()).
  { intros s v. unfold lifecycle_wf, check_ActionLifecycle in Hwf. inv_ok. done. }
  destruct (decide (target = CONFIRMED)) as [->|Hne].
  - destruct (Hconf eq_refl) as (s & -> & Hid & Ho & Hd & Hr).
    pose proof (stage2_nonempty _ _ Hid) as Hs. cbn [in_states]. unfold validate_confirmer.
    cbn [truthy_subject]. rewrite Hs. eexists.
    replace (in_states CONFIRMED CONFIRMATION_STATES) with true by done.
    assert (Hk : check_approver (lc_with CONFIRMED (Some s) (lc_version a + 1) a) = Ok ()).
    { unfold check_approver. cbn. rewrite Hid. cbn [rbind]. unfold str_eqb.
      destruct (lc_confirmation_kind a); [rewrite bool_decide_eq_true_2 by auto|
        rewrite bool_decide_eq_false_2 by auto]; done. }
    rewrite check_with_state by done. unfold str_eqb.
    destruct (lc_confirmation_kind a); [rewrite bool_decide_eq_true_2 by auto|
      rewrite bool_decide_eq_false_2 by auto]; cbn [negb raise_unless rbind];
      (destruct (lc_approver_subject a) as [r|]; [|done];
       by rewrite (Hr r eq_refl), bool_decide_eq_true_2).
  - replace (in_states target CONFIRMATION_STATES) with false
      by (symmetry; apply bool_decide_eq_false_2; intros ?%list_elem_of_singleton; done).
    cbn [rbind]. rewrite check_with_state by auto. destruct (truthy_subject actor); by eexists.
Qed.

Definition past_confirmation : list LifecycleState :=
  CONFIRMED :: SNAPSHOT_CAPTURED :: LEASED :: execution_states.

Lemma path_has_confirmed s l : path_shape s l → s ∈ past_confirmation → CONFIRMED ∈ l.
Proof.
  intros Hp Hs. destruct s; cbn in Hp; try (exfalso; revert Hs; vm_compute; set_solver);
    try (subst l; vm_compute; set_solver).
  all: destruct Hp as [rest ->]; apply list_elem_of_In; cbn; tauto.
Qed.

Lemma edge_needs_confirmed a b :
  edge a b → b ≠ CONFIRMED → b ∈ approver_required_states →
  a ∈ past_confirmation ∨ a ∈ [CANCEL_REQUESTED; TIMED_OUT; INTERRUPTED].
Proof.
  intros H1 H2 H3. apply (bool_decide_eq_true_2 _) in H3.
  by_table H1 a b; vm_compute in H3; try discriminate H3; vm_compute; set_solver.
Qed.

(** The machine never gets stuck: from any value a run reaches, before its
    expiry, every transition the table allows into an implemented state is
    accepted (into CONFIRMED: with the confirmer its kind requires). *)
Lemma lifecycle_progress a0 l a target now actor :
  run a0 l a → edge (lc_state a) target →
  (∀ t, now = Some t → t < lc_expires_at a) →
  (target = CONFIRMED → confirmer_ok a actor) →
  ∃ a', advance a target now actor = Ok a' ∧ run a0 (l ++ [target]) a'.
Proof.
  intros Hr He Hnow Hconf.
  destruct (advance_accepts a target now actor) as [a' Ha']; eauto using run_wf, run_step.
  intros Hne Hreq.
  assert (Hin : CONFIRMED ∈ l)
    by (eapply path_has_confirmed; [by eapply run_path|];
        destruct (edge_needs_confirmed _ _ He Hne Hreq) as [?|Hx]; [done|];
        exfalso; pose proof (run_path _ _ _ Hr) as Hp; revert Hp;
        destruct (lc_state a); cbn; try done; revert Hx; vm_compute; set_solver).
  destruct (run_prefix_confirmed _ _ _ Hr Hin) as (s & -> & _). done.
Qed.

(** Terminal states are final: whatever the arguments, [advance] refuses.
    In particular the successors the table lists for EXECUTION_FAILED
    (ROLLBACK_REQUESTED, RECONCILIATION_REQUIRED) can never be taken. *)
Lemma terminal_states_final a target now actor :
  lc_state a ∈ terminal_states → advance a target now actor = Raise LifecycleError.
Proof.
  intros H. unfold advance, validate_transition.
  by rewrite (proj2 (in_states_spec _ TERMINAL_STATES) H).
Qed.

(** Past its expiry an action accepts nothing but EXPIRED. *)
Lemma advance_expired a target t actor :
  target ≠ EXPIRED → lc_expires_at a <= t → advance a target (Some t) actor = Raise LifecycleError.
Proof.
  intros Hne Ht. unfold advance, validate_transition.
  destruct (in_states (lc_state a) TERMINAL_STATES); [done|]. cbn [negb raise_unless rbind].
  destruct (in_states target (allowed_transitions _)); [|done]. cbn [raise_unless rbind].
  destruct (in_states target IMPLEMENTED_STATES); [|done]. cbn [raise_unless rbind].
  by rewrite (proj2 (Z.leb_le _ _) Ht), bool_decide_eq_false_2.
Qed.

(** An action that has started executing and passes its expiry is frozen:
    from every state without EXPIRED among its successors, no transition at
    or after [expires_at] is accepted, not even to RECONCILIATION_REQUIRED. *)
Lemma expired_execution_frozen a target t actor :
  EXPIRED ∉ allowed_transitions (lc_state a) → lc_expires_at a <= t →
  advance a target (Some t) actor = Raise LifecycleError.
Proof.
  intros Hs Ht. destruct (decide (target = EXPIRED)) as [->|Hne]; [|by apply advance_expired].
  unfold advance, validate_transition.
  destruct (in_states (lc_state a) TERMINAL_STATES); [done|]. cbn [negb raise_unless rbind].
  by replace (in_states EXPIRED (allowed_transitions (lc_state a))) with false
    by (symmetry; by apply bool_decide_eq_false_2).
Qed.
