(* ===== verification/ProjectPlan.v ===== *)
(** * ProjectPlan: the staging resource the plane mutates (control_plane/project_plan.py)

    A [ProjectPlan] is a revisioned value with a canonical digest;
    [InMemoryProjectPlanStore] keeps one per target and updates it by
    compare-and-swap on the revision.  The store's only field that changes is
    [_plans], a dict keyed by target. *)

From S2P Require Import Prelude PyStr PyTime Sha256 Json Models.
From stdpp Require Import base strings list gmap.
From Stdlib Require Import Ascii String ZArith Lia.

Local Open Scope string_scope.
Local Open Scope Z_scope.
Local Open Scope aipm_scope.

Inductive Environment := STAGING | PRODUCTION.
#[export] Instance Environment_eq_dec : EqDecision Environment.
Proof. solve_decision. Defined.
#[export] Instance Environment_countable : Countable Environment.
Proof.
  refine (inj_countable' (λ e, match e with STAGING => true | PRODUCTION => false end)
    (λ b : bool, if b then STAGING else PRODUCTION) _). by intros [].
Defined.
#[export] Instance Environment_value : EnumValue Environment := λ e,
  match e with STAGING => "staging" | PRODUCTION => "production" end.
#[export] Instance Environment_value_inj : Inj (=) (=) (value (A := Environment)).
Proof. by intros [] []. Qed.

Definition ALLOWED_FIELDS : list string := ["title"; "objective"].
Definition MAX_TITLE : Z := 200.
Definition MAX_OBJECTIVE : Z := 2000.

Record ProjectPlan := {
  pp_target_id : string;
  pp_environment : Environment;
  pp_revision : Z;
  pp_title : string;
  pp_objective : string;
  pp_created_at : datetime;
  pp_updated_at : datetime;
  pp_enabled : bool;
  pp_canonical_digest : string;
}.
#[export] Instance ProjectPlan_eq_dec : EqDecision ProjectPlan.
Proof. solve_decision. Defined.

(** [_target] and [_text] *)
Definition pp_target (value : string) : result string :=
  require SAFE_TARGET value else_raise ProjectPlanError;; Ok value.
Definition pp_text (value : string) (maximum : Z) : result string :=
  require str_nonempty value && (slen value <=? maximum) && negb (str_any is_control value)
    else_raise ProjectPlanError;;
  require str_eqb value (strip value) else_raise ProjectPlanError;;
  Ok value.

(** [ProjectPlan.canonical_payload] and [ProjectPlan.digest] *)
Definition pp_payload (p : ProjectPlan) : json :=
  JObj [("created_at", JStr (isoformat (pp_created_at p)));
        ("enabled", JBool (pp_enabled p));
        ("environment", JStr (value (pp_environment p)));
        ("objective", JStr (pp_objective p));
        ("revision", JInt (pp_revision p));
        ("target_id", JStr (pp_target_id p));
        ("title", JStr (pp_title p));
        ("updated_at", JStr (isoformat (pp_updated_at p)))].
Definition pp_digest (p : ProjectPlan) : string := sha256_hex (dumps (pp_payload p)).

(** [replace(plan, canonical_digest=d)] *)
Definition pp_with_digest (d : string) (p : ProjectPlan) : ProjectPlan :=
  {| pp_target_id := pp_target_id p; pp_environment := pp_environment p;
     pp_revision := pp_revision p; pp_title := pp_title p; pp_objective := pp_objective p;
     pp_created_at := pp_created_at p; pp_updated_at := pp_updated_at p;
     pp_enabled := pp_enabled p; pp_canonical_digest := d |}.

(** [ProjectPlan.create] *)
Definition pp_create (target_id : string) (environment : Environment) (title objective : string)
    (now : datetime) (enabled : bool) : result ProjectPlan :=
  require bool_decide (environment = STAGING) else_raise ProjectPlanError;;
  let* target := pp_target target_id in
  let* title' := pp_text title MAX_TITLE in
  let* objective' := pp_text objective MAX_OBJECTIVE in
  let plan := {| pp_target_id := target; pp_environment := environment; pp_revision := 1;
                 pp_title := title'; pp_objective := objective'; pp_created_at := now;
                 pp_updated_at := now; pp_enabled := enabled; pp_canonical_digest := "" |} in
  Ok (pp_with_digest (pp_digest plan) plan).

(** [ProjectPlan.update] *)
Definition pp_update (p : ProjectPlan) (expected_revision : Z) (fields : gmap string string)
    (now : datetime) : result ProjectPlan :=
  require bool_decide (pp_environment p = STAGING) else_raise ProjectPlanError;;
  require expected_revision =? pp_revision p else_raise PlanConflict;;
  require negb (bool_decide (fields = ∅)) &&
          List.forallb (λ kv, mem (fst kv) ALLOWED_FIELDS) (map_to_list fields)
    else_raise ProjectPlanError;;
  let* title := pp_text (default (pp_title p) (fields !! "title")) MAX_TITLE in
  let* objective := pp_text (default (pp_objective p) (fields !! "objective")) MAX_OBJECTIVE in
  let updated :=
    {| pp_target_id := pp_target_id p; pp_environment := pp_environment p;
       pp_revision := pp_revision p + 1; pp_title := title; pp_objective := objective;
       pp_created_at := pp_created_at p; pp_updated_at := now; pp_enabled := pp_enabled p;
       pp_canonical_digest := "" |} in
  Ok (pp_with_digest (pp_digest updated) updated).

(** ** InMemoryProjectPlanStore *)

Definition plan_store : Type := gmap string ProjectPlan.

Definition plans_create (plan : ProjectPlan) : M plan_store ProjectPlan :=
  do plans <- getM;;
  assert_ bool_decide (pp_environment plan = STAGING) else_raise ProjectPlanError;;
  assert_ bool_decide (plans !! pp_target_id plan = None) else_raise PlanConflict;;
  do_ putM (<[pp_target_id plan := plan]> plans);;
  retM plan.

Definition plans_read (target_id : string) : M plan_store ProjectPlan :=
  do plans <- getM;;
  match plans !! target_id with
  | Some plan => retM plan
  | None => raiseM ProjectPlanError
  end.

Definition plans_update (target_id : string) (expected_revision : Z)
    (fields : gmap string string) (now : datetime) : M plan_store ProjectPlan :=
  do plan <- plans_read target_id;;
  do updated <- liftM (pp_update plan expected_revision fields now);;
  do_ modifyM (λ plans, <[target_id := updated]> plans);;
  retM updated.

(** The interface other components see: how a store answers a read and what
    an accepted update does to it (contracts.py, [ProjectPlanStore]). *)
Class PlanStoreLaws (S : Type) (lookup_plan : string → S → option ProjectPlan)
    (update_plan : string → Z → gmap string string → datetime → M S ProjectPlan) := {
  update_accepts : ∀ s t rev fs now s' p',
    update_plan t rev fs now s = (s', Ok p') →
    ∃ p, lookup_plan t s = Some p ∧ pp_revision p = rev ∧ pp_update p rev fs now = Ok p' ∧
      lookup_plan t s' = Some p' ∧ ∀ t', t' ≠ t → lookup_plan t' s' = lookup_plan t' s;
  update_refuses : ∀ s t rev fs now s' e,
    update_plan t rev fs now s = (s', Raise e) → s' = s;
}.

(** ** Lemmas *)

Lemma pp_text_id v m v' : pp_text v m = Ok v' → v' = v.
Proof. unfold pp_text. intros H. by inv_ok. Qed.

Lemma pp_update_Ok p rev fs now p' :
  pp_update p rev fs now = Ok p' →
  rev = pp_revision p ∧ pp_revision p' = pp_revision p + 1 ∧
  pp_target_id p' = pp_target_id p ∧ pp_environment p' = pp_environment p ∧
  pp_environment p = STAGING ∧ pp_created_at p' = pp_created_at p ∧
  pp_enabled p' = pp_enabled p ∧ pp_updated_at p' = now ∧
  pp_title p' = default (pp_title p) (fs !! "title") ∧
  pp_objective p' = default (pp_objective p) (fs !! "objective") ∧
  pp_canonical_digest p' = pp_digest p' ∧
  fs ≠ ∅ ∧ (∀ k v, fs !! k = Some v → k ∈ ALLOWED_FIELDS) ∧
  pp_text (pp_title p') MAX_TITLE = Ok (pp_title p') ∧
  pp_text (pp_objective p') MAX_OBJECTIVE = Ok (pp_objective p').
Proof.
  unfold pp_update. intros H. inv_ok.
  match goal with H : (_ =? _) = true |- _ => apply Z.eqb_eq in H end.
  match goal with H : List.forallb _ _ = true |- _ => rename H into HF end.
  rewrite List.forallb_forall in HF.
  repeat match goal with H : pp_text ?v _ = Ok ?w |- _ =>
    is_var w; pose proof (pp_text_id _ _ _ H); subst w end.
  cbn. split_and!; try done.
  intros k v Hk. apply mem_true, (HF (k, v)), list_elem_of_In, elem_of_map_to_list, Hk.
Qed.

Lemma plans_update_run t rev fs now s :
  plans_update t rev fs now s =
    match s !! t with
    | None => (s, Raise ProjectPlanError)
    | Some p =>
        match pp_update p rev fs now with
        | Ok p' => (<[t := p']> s, Ok p')
        | Raise e => (s, Raise e)
        end
    end.
Proof.
  unfold plans_update, plans_read, bindM, getM, liftM, retM, raiseM, modifyM.
  destruct (s !! t) as [p|]; [|done]. by destruct (pp_update p rev fs now).
Qed.

(** What the fields of an update must satisfy. *)
Definition update_valid (p : ProjectPlan) (fs : gmap string string) : Prop :=
  fs ≠ ∅ ∧ (∀ k v, fs !! k = Some v → k ∈ ALLOWED_FIELDS) ∧
  (∃ t, pp_text (default (pp_title p) (fs !! "title")) MAX_TITLE = Ok t) ∧
  (∃ t, pp_text (default (pp_objective p) (fs !! "objective")) MAX_OBJECTIVE = Ok t).

Lemma pp_update_valid p rev fs now p' : pp_update p rev fs now = Ok p' → update_valid p fs.
Proof.
  intros H. apply pp_update_Ok in H. destruct_and! H.
  repeat match goal with E : _ p' = default _ _ |- _ => rewrite E in * end.
  split_and!; eauto.
Qed.

Lemma pp_text_exn v m e : pp_text v m = Raise e → e = ProjectPlanError.
Proof. unfold pp_text, raise_unless, rbind. intros H. by repeat case_match; simplify_eq. Qed.

Lemma pp_update_refused p rev fs now e :
  pp_update p rev fs now = Raise e →
  (pp_environment p ≠ STAGING ∧ e = ProjectPlanError) ∨
  (pp_environment p = STAGING ∧ rev ≠ pp_revision p ∧ e = PlanConflict) ∨
  (pp_environment p = STAGING ∧ rev = pp_revision p ∧ ¬ update_valid p fs ∧ e = ProjectPlanError).
Proof.
  unfold pp_update. intros U. destruct (decide (pp_environment p = STAGING)) as [He|He].
  2: { left. rewrite bool_decide_eq_false_2 in U by done. cbn in U. by simplify_eq. }
  rewrite bool_decide_eq_true_2 in U by done. cbn [raise_unless rbind] in U.
  destruct (Z.eqb_spec rev (pp_revision p)) as [Hr|Hr]; cbn [raise_unless rbind] in U;
    [right; right|right; left; by simplify_eq].
  split; [done|]. split; [done|]. destruct (negb _ && _) eqn:Hf; cbn [raise_unless rbind] in U.
  - destruct (pp_text _ MAX_TITLE) as [t|x] eqn:Et; cbn [rbind] in U.
    + destruct (pp_text _ MAX_OBJECTIVE) as [o|x] eqn:Eo; cbn [rbind] in U; [done|].
      apply pp_text_exn in Eo as Hx. simplify_eq. split; [|done].
      intros (_ & _ & _ & t' & Ho). congruence.
    + apply pp_text_exn in Et as Hx. simplify_eq. split; [|done].
      intros (_ & _ & (t' & Ht) & _). congruence.
  - simplify_eq. split; [|done]. intros (Hne & Ha & _).
    rewrite bool_decide_eq_false_2 in Hf by done. cbn [negb andb] in Hf.
    apply not_true_iff_false in Hf. apply Hf, List.forallb_forall. intros [k v] Hk.
    apply mem_true, (Ha k v), elem_of_map_to_list. by apply list_elem_of_In.
Qed.

#[export] Instance in_memory_plan_store_laws :
  PlanStoreLaws plan_store (λ t s, s !! t) plans_update.
Proof.
  split; intros s t rev fs now s' x; rewrite plans_update_run; intros H.
  - destruct (s !! t) as [p|] eqn:E; [|done]. destruct (pp_update p rev fs now) as [p'|] eqn:U; [|done].
    injection H as <- <-. exists p. pose proof (pp_update_Ok _ _ _ _ _ U) as (-> & _).
    split_and!; try done; [apply lookup_insert_eq|]. intros t' Ht. by apply lookup_insert_ne.
  - destruct (s !! t) as [p|] eqn:E; [|by injection H]. by destruct (pp_update p rev fs now); simplify_eq.
Qed.

(** ** Histories of a lawful store *)

Section histories.
Context {S : Type} {lookup_plan : string → S → option ProjectPlan}
  {update_plan : string → Z → gmap string string → datetime → M S ProjectPlan}
  {laws : PlanStoreLaws S lookup_plan update_plan}.

(** [accepted s l s']: from [s], update calls were made in some order; [l]
    lists target and expected revision of those that returned. *)
Inductive accepted : S → list (string * Z) → S → Prop :=
  | acc_nil s : accepted s [] s
  | acc_ok s t rev fs now s1 p l s' :
      update_plan t rev fs now s = (s1, Ok p) → accepted s1 l s' →
      accepted s ((t, rev) :: l) s'
  | acc_refused s t rev fs now s1 e l s' :
      update_plan t rev fs now s = (s1, Raise e) → accepted s1 l s' → accepted s l s'.

Definition revision_at (t : string) (s : S) : Z :=
  match lookup_plan t s with Some p => pp_revision p | None => 0 end.

Lemma accepted_revision s l s' :
  accepted s l s' →
  ∀ t, revision_at t s ≤ revision_at t s' ∧
    (∀ rev, (t, rev) ∈ l → revision_at t s ≤ rev < revision_at t s').
Proof.
  induction 1 as [s|s t rev fs now s1 p l s' H _ IH|s t rev fs now s1 e l s' H _ IH]; intros u.
  - split; [lia|]. intros rev Hin. by apply not_elem_of_nil in Hin.
  - destruct (update_accepts _ _ _ _ _ _ _ H) as (q & Hq & Hrev & Hu & Hl & Hother).
    apply pp_update_Ok in Hu as (_ & Hrev' & _). specialize (IH u) as [IH1 IH2].
    assert (E : revision_at u s1 = if decide (u = t) then rev + 1 else revision_at u s).
    { unfold revision_at. case_decide; [subst u; by rewrite Hl, Hrev', Hrev|]. by rewrite Hother. }
    assert (E' : u = t → revision_at u s = rev) by (intros ->; unfold revision_at; by rewrite Hq).
    case_decide; [specialize (E' ltac:(done))|clear E']; (split; [lia|]); intros r [Hin|Hin]%elem_of_cons;
      simplify_eq; try lia; destruct (IH2 _ Hin); lia.
  - by rewrite <- (update_refuses _ _ _ _ _ _ _ H).
Qed.

Lemma accepted_revisions_NoDup s l s' : accepted s l s' → NoDup l.
Proof.
  induction 1 as [s|s t rev fs now s1 p l s' H Hacc IH|]; [constructor| |done].
  constructor; [|done]. intros Hin.
  apply (accepted_revision _ _ _ Hacc t) in Hin as [Hlt _].
  destruct (update_accepts _ _ _ _ _ _ _ H) as (q & _ & Hrev & Hu & Hl & _).
  apply pp_update_Ok in Hu as (_ & Hrev' & _).
  unfold revision_at in Hlt. rewrite Hl in Hlt. lia.
Qed.
End histories.
Arguments accepted {S} update_plan.

(** ** Invariant of the in-memory store *)

Definition plan_ok (t : string) (p : ProjectPlan) : Prop :=
  pp_target_id p = t ∧ SAFE_TARGET t = true ∧ pp_environment p = STAGING ∧
  1 ≤ pp_revision p ∧ pp_canonical_digest p = pp_digest p ∧
  pp_text (pp_title p) MAX_TITLE = Ok (pp_title p) ∧
  pp_text (pp_objective p) MAX_OBJECTIVE = Ok (pp_objective p).

(** Calls a client of the store can make; each may raise. *)
Inductive plan_call :=
  | CallCreate (target : string) (env : Environment) (title objective : string)
      (now : datetime) (enabled : bool)
  | CallUpdate (target : string) (rev : Z) (fields : gmap string string) (now : datetime).

Definition run_call (c : plan_call) : M plan_store ProjectPlan :=
  match c with
  | CallCreate t e ti ob now en =>
      do p <- liftM (pp_create t e ti ob now en);; plans_create p
  | CallUpdate t rev fs now => plans_update t rev fs now
  end.

Fixpoint run_calls (cs : list plan_call) (s : plan_store) : plan_store :=
  match cs with [] => s | c :: cs' => run_calls cs' (fst (run_call c s)) end.

Lemma pp_create_Ok t e ti ob now en p :
  pp_create t e ti ob now en = Ok p → plan_ok t p ∧ pp_revision p = 1.
Proof.
  unfold pp_create, pp_target. intros H. inv_ok.
  repeat match goal with H : pp_text ?v _ = Ok ?w |- _ =>
    is_var w; pose proof (pp_text_id _ _ _ H); subst w end.
  done.
Qed.

Lemma run_call_inv c s : map_Forall plan_ok s → map_Forall plan_ok (fst (run_call c s)).
Proof.
  intros Hs. destruct c as [t e ti ob now en|t rev fs now]; cbn.
  - unfold bindM, liftM. destruct (pp_create t e ti ob now en) as [p|] eqn:E; [|done].
    apply pp_create_Ok in E as [Hp _]. pose proof Hp as [Ht _].
    unfold plans_create, bindM, getM, liftM, putM, retM.
    repeat (destruct (raise_unless _ _); [|done]). cbn. rewrite Ht. by apply map_Forall_insert_2.
  - rewrite plans_update_run. destruct (s !! t) as [p|] eqn:E; [|done].
    destruct (pp_update p rev fs now) as [p'|] eqn:U; [|done]. cbn.
    apply map_Forall_insert_2; [|done]. pose proof (Hs _ _ E) as (Ht & Hsafe & Hst & Hrev & _).
    apply pp_update_Ok in U. unfold plan_ok. destruct_and! U. split_and!; try done; try congruence; lia.
Qed.

Lemma run_calls_inv cs s : map_Forall plan_ok s → map_Forall plan_ok (run_calls cs s).
Proof. revert s. induction cs as [|c cs IH]; intros s Hs; cbn; [done|]. by apply IH, run_call_inv. Qed.

Lemma plan_store_wf cs t p : run_calls cs ∅ !! t = Some p → plan_ok t p.
Proof. intros H. by apply (run_calls_inv cs ∅ (map_Forall_empty _) t p). Qed.

(** ** Properties *)

(** Whatever sequence of create and update calls is made on an empty store,
    every stored plan is filed under its own target, is a staging plan with
    revision at least 1 and bounded, trimmed text, and carries the digest of
    its own content. *)
Lemma plan_store_invariant cs : map_Forall plan_ok (run_calls cs ∅).
Proof. apply run_calls_inv, map_Forall_empty. Qed.

(** No lost updates: in any history of update calls on the plan store, each
    revision of each target is consumed by at most one
    accepted call, whatever calls on other targets and refused calls happen
    in between. *)
Lemma no_lost_update (s s' : plan_store) (l : list (string * Z)) :
  accepted plans_update s l s' → NoDup l.
Proof. apply (accepted_revisions_NoDup (laws := in_memory_plan_store_laws)). Qed.

(** An update is accepted exactly when the plan is registered, in staging,
    at the expected revision, and the fields are a non-empty part of the
    allow-list with valid text; it bumps the revision by one, changes only the
    given fields, the timestamp and the digest, and every refusal names the
    first failing condition and leaves the store as it was. *)
Lemma plans_update_spec t rev fs now s s' r :
  plans_update t rev fs now s = (s', r) →
  match r with
  | Ok p' =>
      ∃ p, s !! t = Some p ∧ rev = pp_revision p ∧ update_valid p fs ∧
        pp_revision p' = rev + 1 ∧
        pp_title p' = default (pp_title p) (fs !! "title") ∧
        pp_objective p' = default (pp_objective p) (fs !! "objective") ∧
        pp_target_id p' = pp_target_id p ∧ pp_created_at p' = pp_created_at p ∧
        pp_updated_at p' = now ∧
        pp_enabled p' = pp_enabled p ∧ pp_environment p' = STAGING ∧
        pp_canonical_digest p' = pp_digest p' ∧ s' = <[t := p']> s
  | Raise e =>
      s' = s ∧
      match s !! t with
      | None => e = ProjectPlanError
      | Some p =>
          (pp_environment p ≠ STAGING ∧ e = ProjectPlanError) ∨
          (pp_environment p = STAGING ∧ rev ≠ pp_revision p ∧ e = PlanConflict) ∨
          (pp_environment p = STAGING ∧ rev = pp_revision p ∧ ¬ update_valid p fs ∧
           e = ProjectPlanError)
      end
  end.
Proof.
  rewrite plans_update_run. intros H. destruct (s !! t) as [p|] eqn:E; [|by simplify_eq].
  destruct (pp_update p rev fs now) as [p'|e] eqn:U; simplify_eq.
  - pose proof (pp_update_valid _ _ _ _ _ U) as Hv. apply pp_update_Ok in U. destruct_and! U.
    exists p. split_and!; try done; congruence.
  - split; [done|]. by eapply pp_update_refused.
Qed.
