(* ===== verification/Identity.v ===== *)
(** * Identity: principals and action identities (control_plane/identity.py)

    [derive_action_identity] is the one construction path of an
    [ActionIdentity]; [verify_action_identity] is the check every persistence
    layer applies to a loaded one.  The planner of control_plane/planner.py,
    which builds the plans identities are derived from, is modelled here too. *)

From S2P Require Import Prelude PyStr PyTime Sha256 Json Models ProjectPlan.
From stdpp Require Import base strings list gmap.
From Stdlib Require Import Ascii String ZArith Lia.

Local Open Scope string_scope.
Local Open Scope Z_scope.
Local Open Scope aipm_scope.

Definition ACTION_IDENTITY_VERSION : string := "mc612-action-identity-v1".
Definition PRINCIPAL_IDENTITY_VERSION : string := "mc612-canonical-principal-v1".
Definition EXPECTED_EFFECT : string :=
  "No runtime effect; produce a bounded future-operation plan only".
Definition OWNER_SUBJECT : string := "local-owner".
Definition OWNER_ISSUER : string := "aipm-owner-auth".
Definition OWNER_ROLE : string := "owner".
Definition MAX_PRINCIPAL_ID : Z := 128.
Definition MAX_ROLE_COUNT : nat := 8.

Inductive AuthenticationMethod := ARGON2ID_OWNER_PASSPHRASE.
Inductive PrincipalVerification := VERIFIED | UNVERIFIED | PV_EXPIRED | PV_REVOKED.
#[export] Instance AuthenticationMethod_eq_dec : EqDecision AuthenticationMethod.
Proof. solve_decision. Defined.
#[export] Instance PrincipalVerification_eq_dec : EqDecision PrincipalVerification.
Proof. solve_decision. Defined.

(** [_bounded_id] *)
Definition bounded_id (value : string) (maximum : Z) : result string :=
  require str_nonempty value && (slen value <=? maximum) && SAFE_ID value
    else_raise IdentityError;;
  require negb (str_any is_control value) else_raise IdentityError;;
  Ok value.

(** [sorted({...})]: distinct strings in order. *)
Fixpoint insert_str (s : string) (l : list string) : list string :=
  match l with
  | [] => [s]
  | t :: l' => if str_eqb s t then l else if String.leb s t then s :: l else t :: insert_str s l'
  end.
Fixpoint sorted_set (l : list string) : list string :=
  match l with [] => [] | s :: l' => insert_str s (sorted_set l') end.

Record OwnerPrincipal := {
  pr_subject : string;
  pr_issuer : string;
  pr_authentication_method : AuthenticationMethod;
  pr_verification : PrincipalVerification;
  pr_auth_epoch : Z;
  pr_authenticated_at : datetime;
  pr_expires_at : datetime;
  pr_roles : list string;
  pr_identity_version : string;
}.
#[export] Instance OwnerPrincipal_eq_dec : EqDecision OwnerPrincipal.
Proof. solve_decision. Defined.

(** [OwnerPrincipal.__post_init__] on the given field values. *)
Definition new_OwnerPrincipal (p : OwnerPrincipal) : result OwnerPrincipal :=
  let* _ := bounded_id (pr_subject p) MAX_PRINCIPAL_ID in
  let* _ := bounded_id (pr_issuer p) MAX_PRINCIPAL_ID in
  require 1 <=? pr_auth_epoch p else_raise IdentityError;;
  require negb (pr_expires_at p <=? pr_authenticated_at p) else_raise IdentityError;;
  require str_eqb (pr_identity_version p) PRINCIPAL_IDENTITY_VERSION else_raise IdentityError;;
  require (List.length (pr_roles p) <=? MAX_ROLE_COUNT)%nat else_raise IdentityError;;
  let* roles := rmap (λ r, bounded_id r MAX_PRINCIPAL_ID) (pr_roles p) in
  Ok {| pr_subject := pr_subject p; pr_issuer := pr_issuer p;
        pr_authentication_method := pr_authentication_method p;
        pr_verification := pr_verification p; pr_auth_epoch := pr_auth_epoch p;
        pr_authenticated_at := pr_authenticated_at p; pr_expires_at := pr_expires_at p;
        pr_roles := sorted_set roles; pr_identity_version := pr_identity_version p |}.

Definition is_usable (p : OwnerPrincipal) (now : datetime) : bool :=
  bool_decide (pr_verification p = VERIFIED) && (now <? pr_expires_at p).
Definition has_role (p : OwnerPrincipal) (role : string) : bool := mem role (pr_roles p).

Record ActionIdentity := {
  id_action_id : string;
  id_plan_id : string;
  id_plan_digest : string;
  id_target_revision : Z;
  id_target_digest : string;
  id_policy_version : string;
  id_requester_subject : string;
  id_operation : string;
  id_target_id : string;
  id_environment : string;
}.
#[export] Instance ActionIdentity_eq_dec : EqDecision ActionIdentity.
Proof. solve_decision. Defined.

(** [ActionIdentity.canonical_payload] *)
Definition identity_payload (i : ActionIdentity) : json :=
  JObj [("action_id", JStr (id_action_id i)); ("environment", JStr (id_environment i));
        ("operation", JStr (id_operation i)); ("plan_digest", JStr (id_plan_digest i));
        ("plan_id", JStr (id_plan_id i)); ("policy_version", JStr (id_policy_version i));
        ("requester_subject", JStr (id_requester_subject i));
        ("target_digest", JStr (id_target_digest i)); ("target_id", JStr (id_target_id i));
        ("target_revision", JInt (id_target_revision i));
        ("version", JStr ACTION_IDENTITY_VERSION)].

(** [_action_identity_payload]: what the action id is the digest of. *)
Definition action_identity_payload (operation target_id environment plan_id plan_digest : string)
    (target_revision : Z) (target_digest policy_version requester_subject : string) : json :=
  JObj [("operation", JStr operation); ("target_id", JStr target_id);
        ("environment", JStr environment); ("plan_id", JStr plan_id);
        ("plan_digest", JStr plan_digest); ("target_revision", JInt target_revision);
        ("target_digest", JStr target_digest); ("policy_version", JStr policy_version);
        ("requester_subject", JStr requester_subject);
        ("version", JStr ACTION_IDENTITY_VERSION)].

Definition identity_text (i : ActionIdentity) : string :=
  dumps (action_identity_payload (id_operation i) (id_target_id i) (id_environment i)
           (id_plan_id i) (id_plan_digest i) (id_target_revision i) (id_target_digest i)
           (id_policy_version i) (id_requester_subject i)).

Definition verify_action_identity (i : ActionIdentity) : bool :=
  str_eqb (id_action_id i) (sha256_hex (identity_text i)).

(** [request_identity], [plan_id_payload] and [plan_id] *)
Definition request_identity (r : ActionRequest) : string := sha256_hex (request_canonical r).

Definition plan_id_payload (request : ActionRequest) (evidence : EvidenceSummary)
    (evidence_source : EvidenceSource) (risk : RiskLevel) (expected_effect : string)
    (created_at expires_at : datetime) (state : PlanState) : json :=
  JObj [("request_identity", JStr (request_identity request));
        ("operation", JStr (value (req_operation request)));
        ("target_id", JStr (req_target_id request));
        ("evidence_source", JStr (value evidence_source));
        ("evidence_state", JStr (value (ev_state evidence)));
        ("evidence", pairs_json (ev_items evidence));
        ("risk", JStr (value risk));
        ("expected_effect", JStr expected_effect);
        ("created_at", JStr (isoformat created_at));
        ("expires_at", JStr (isoformat expires_at));
        ("state", JStr (value state))].
Definition plan_id (request : ActionRequest) (evidence : EvidenceSummary)
    (evidence_source : EvidenceSource) (risk : RiskLevel) (expected_effect : string)
    (created_at expires_at : datetime) (state : PlanState) : string :=
  str_take 32 (sha256_hex (dumps (plan_id_payload request evidence evidence_source risk
                                    expected_effect created_at expires_at state))).

Definition derive_action_identity (request : ActionRequest) (plan : ActionPlan)
    (current_plan : ProjectPlan) (policy_version requester_subject : string)
  : result ActionIdentity :=
  require bool_decide (plan_request plan = request) else_raise IdentityError;;
  require bool_decide (plan_state plan = PLAN_PLANNED) else_raise IdentityError;;
  require str_eqb (plan_digest plan) (computed_digest plan) else_raise IdentityError;;
  require str_eqb (plan_plan_id plan)
            (plan_id (plan_request plan) (plan_evidence plan) (plan_evidence_source plan)
               (plan_risk plan) (plan_expected_effect plan) (plan_created_at plan)
               (plan_expires_at plan) (plan_state plan)) else_raise IdentityError;;
  require str_eqb (pp_target_id current_plan) (req_target_id request) else_raise IdentityError;;
  require str_eqb (value (pp_environment current_plan)) (req_environment request)
    else_raise IdentityError;;
  let target_digest := pp_digest current_plan in
  require str_eqb (pp_canonical_digest current_plan) target_digest else_raise IdentityError;;
  let* subject := bounded_id requester_subject MAX_ACTOR_ID in
  let* version := bounded_id policy_version MAX_POLICY_VERSION in
  require 1 <=? pp_revision current_plan else_raise IdentityError;;
  let action_id :=
    sha256_hex (dumps (action_identity_payload (value (req_operation request))
      (req_target_id request) (req_environment request) (plan_plan_id plan) (plan_digest plan)
      (pp_revision current_plan) target_digest version subject)) in
  require HEX 64 action_id else_raise IdentityError;;
  Ok {| id_action_id := action_id; id_plan_id := plan_plan_id plan;
        id_plan_digest := plan_digest plan; id_target_revision := pp_revision current_plan;
        id_target_digest := target_digest; id_policy_version := version;
        id_requester_subject := subject; id_operation := value (req_operation request);
        id_target_id := req_target_id request; id_environment := req_environment request |}.

(** ** The plan-only planner (control_plane/planner.py) *)

(** [validate_operation] and [risk_for] of control_plane/policy.py. *)
Definition ALLOWED_OPERATIONS : list OperationKind := [UPDATE_PROJECT_PLAN; ROLLBACK_PROJECT_PLAN].
Definition validate_operation (op : OperationKind) : result unit :=
  raise_unless (bool_decide (op ∈ ALLOWED_OPERATIONS)) ValueError.
Definition risk_for (op : OperationKind) : result RiskLevel :=
  let* _ := validate_operation op in Ok LOW.

Definition build_evidence_neutral_plan (request : ActionRequest) (now : datetime)
    (target_allow_list : list string) : result ActionPlan :=
  let* _ := match validate_operation (req_operation request) with
            | Ok u => Ok u
            | Raise _ => Raise (ControlPlaneError UNSUPPORTED_OPERATION)
            end in
  require mem (req_target_id request) target_allow_list
    else_raise ControlPlaneError UNAVAILABLE_TARGET;;
  let* evidence := new_EvidenceSummary NOT_OBSERVED [] in
  let expires_at := now + PLAN_TTL in
  let* risk := risk_for (req_operation request) in
  let id := plan_id request evidence SOURCE_NONE risk EXPECTED_EFFECT now expires_at PLAN_PLANNED in
  let* draft := new_ActionPlan id request risk evidence EXPECTED_EFFECT expires_at now
                  SOURCE_NONE PLAN_PLANNED "" in
  new_ActionPlan (plan_plan_id draft) (plan_request draft) (plan_risk draft) (plan_evidence draft)
    (plan_expected_effect draft) (plan_expires_at draft) (plan_created_at draft)
    (plan_evidence_source draft) (plan_state draft) (computed_digest draft).

(** ** Lemmas *)

Lemma bounded_id_id v m v' : bounded_id v m = Ok v' → v' = v.
Proof. unfold bounded_id. intros H. by inv_ok. Qed.


(** A digest, whole or truncated, is an acceptable identifier. *)
Lemma HEX_bounded n s m :
  1 ≤ n ≤ 128 → n ≤ m → HEX n s = true → bounded_string s m SAFE_ID = Ok s.
Proof.
  intros Hn Hm H. pose proof (HEX_SAFE_ID _ _ Hn H) as HS.
  unfold HEX in H. apply andb_true_iff in H as [Hx Hl]. apply Z.eqb_eq in Hl.
  unfold bounded_string. rewrite (hex_no_control _ Hx), HS, (proj2 (Z.leb_le _ _)) by lia.
  assert (str_nonempty s = true) as ->; [|done].
  unfold str_nonempty, str_eqb. rewrite bool_decide_eq_false_2; [done|].
  intros ->. unfold slen in Hl. cbn in Hl. lia.
Qed.

Lemma derive_Ok request plan cur pv subj i :
  derive_action_identity request plan cur pv subj = Ok i →
  plan_request plan = request ∧ plan_state plan = PLAN_PLANNED ∧
  plan_digest plan = computed_digest plan ∧
  pp_target_id cur = req_target_id request ∧
  value (pp_environment cur) = req_environment request ∧
  pp_canonical_digest cur = pp_digest cur ∧ 1 ≤ pp_revision cur ∧
  bounded_id subj MAX_ACTOR_ID = Ok subj ∧ bounded_id pv MAX_POLICY_VERSION = Ok pv ∧
  i = {| id_action_id := sha256_hex (identity_text i); id_plan_id := plan_plan_id plan;
         id_plan_digest := plan_digest plan; id_target_revision := pp_revision cur;
         id_target_digest := pp_digest cur; id_policy_version := pv;
         id_requester_subject := subj; id_operation := value (req_operation request);
         id_target_id := req_target_id request; id_environment := req_environment request |}.
Proof.
  unfold derive_action_identity. intros H. inv_ok.
  repeat match goal with H : str_eqb _ _ = true |- _ => apply str_eqb_true in H end.
  repeat match goal with H : bounded_id ?v _ = Ok ?w |- _ =>
    is_var w; pose proof (bounded_id_id _ _ _ H); subst w end.
  match goal with H : (1 <=? _) = true |- _ => apply Z.leb_le in H end.
  split_and!; done.
Qed.

Lemma identity_text_inj i j :
  identity_text i = identity_text j → id_action_id i = id_action_id j → i = j.
Proof.
  unfold identity_text, action_identity_payload. intros H Hid. canon_inv H.
  destruct i, j; cbn in *. by subst.
Qed.

(** ** Properties *)

(** Every identity the derivation returns passes the verification that
    storage applies, and carries exactly the plan, target state, policy
    version and requester it was derived from. *)
Lemma derive_verifies request plan cur pv subj i :
  derive_action_identity request plan cur pv subj = Ok i →
  verify_action_identity i = true ∧
  id_plan_digest i = computed_digest plan ∧ id_target_revision i = pp_revision cur ∧
  id_target_digest i = pp_digest cur ∧ id_policy_version i = pv ∧
  id_requester_subject i = subj ∧ plan_request plan = request ∧
  id_target_id i = pp_target_id cur.
Proof.
  intros H. apply derive_Ok in H. destruct_and! H.
  match goal with H : i = _ |- _ => rename H into Hi end.
  split.
  - unfold verify_action_identity. apply str_eqb_true. by rewrite Hi at 1.
  - rewrite Hi. cbn. split_and!; congruence.
Qed.

(** The action id binds the identity: two identities that both verify and
    share an action id agree on operation, target, environment, plan,
    revision, target digest, policy version and requester, unless the two
    canonical texts are an explicit SHA-256 collision. *)
Lemma action_id_binds i j :
  verify_action_identity i = true → verify_action_identity j = true →
  id_action_id i = id_action_id j →
  i = j ∨ collision (identity_text i) (identity_text j).
Proof.
  unfold verify_action_identity. rewrite !str_eqb_true. intros Hi Hj E.
  destruct (decide (identity_text i = identity_text j)) as [H|H].
  - left. by apply identity_text_inj.
  - right. split; [done|congruence].
Qed.

Lemma safe_effect : safe_bounded_text EXPECTED_EFFECT MAX_EVIDENCE_VALUE = Ok EXPECTED_EFFECT.
Proof. vm_compute. reflexivity. Qed.

(** A plan constructor call whose id is a digest prefix and whose digest, if
    given, is the computed one. *)
Lemma new_plan_ok id r risk ev ex cr src st dg :
  HEX 32 id = true → 0 < ex - cr ≤ PLAN_TTL →
  let p := {| plan_plan_id := id; plan_request := r; plan_risk := risk; plan_evidence := ev;
              plan_expected_effect := EXPECTED_EFFECT; plan_expires_at := ex;
              plan_created_at := cr; plan_evidence_source := src; plan_state := st;
              plan_digest := dg |} in
  (dg = "" ∨ dg = computed_digest p) →
  new_ActionPlan id r risk ev EXPECTED_EFFECT ex cr src st dg = Ok p.
Proof.
  intros Hid Ht p Hd. unfold new_ActionPlan.
  rewrite (HEX_bounded 32) by (done || lia). rewrite safe_effect. cbn [rbind].
  rewrite (proj2 (Z.leb_gt _ _)), (proj2 (Z.ltb_ge _ _)) by lia. cbn [orb negb raise_unless rbind].
  fold p. destruct Hd as [Hd|Hd].
  - by rewrite (proj2 (str_eqb_true dg "") Hd).
  - rewrite (proj2 (str_eqb_true dg (computed_digest p)) Hd).
    assert (slen dg =? 64 = true) as ->; [|by rewrite orb_true_r].
    rewrite Hd. unfold computed_digest. by rewrite sha256_hex_len.
Qed.

Lemma plan_id_HEX r e es k x c ex st : HEX 32 (plan_id r e es k x c ex st) = true.
Proof. apply (sha256_hex_take 32). lia. Qed.

Lemma ttl_window now : 0 < now + PLAN_TTL - now ≤ PLAN_TTL.
Proof. unfold PLAN_TTL, minutes, seconds. lia. Qed.

(** The planner produces, for every allow-listed request, a plan that
    expires fifteen minutes later, and identity derivation accepts that plan
    for the current staging plan of the target. *)
Lemma planned_request_derives request now allow cur pv subj :
  mem (req_target_id request) allow = true →
  plan_ok (req_target_id request) cur →
  req_environment request = "staging" →
  bounded_id subj MAX_ACTOR_ID = Ok subj → bounded_id pv MAX_POLICY_VERSION = Ok pv →
  ∃ plan i, build_evidence_neutral_plan request now allow = Ok plan ∧
    plan_expires_at plan = now + PLAN_TTL ∧ plan_request plan = request ∧
    derive_action_identity request plan cur pv subj = Ok i.
Proof.
  intros Hallow (Ht & _ & Hst & Hrev & Hdig & _) Henv Hs Hv.
  assert (Hop : validate_operation (req_operation request) = Ok ())
    by (destruct (req_operation request); reflexivity).
  eexists. eexists. split.
  { unfold build_evidence_neutral_plan, risk_for. rewrite Hop, Hallow.
    cbn [rbind raise_unless new_EvidenceSummary List.length rmap sort_pairs Nat.leb MAX_EVIDENCE_ITEMS].
    change (new_EvidenceSummary NOT_OBSERVED [])
      with (Ok {| ev_state := NOT_OBSERVED; ev_items := [] |}). cbn [rbind].
    rewrite new_plan_ok; [|apply plan_id_HEX|apply ttl_window|by left].
    cbn [rbind plan_plan_id plan_request plan_risk plan_evidence plan_expected_effect
         plan_expires_at plan_created_at plan_evidence_source plan_state].
    rewrite new_plan_ok; [reflexivity|apply plan_id_HEX|apply ttl_window|by right]. }
  cbn. split_and!; [done|done|]. unfold derive_action_identity. cbn [plan_request plan_state].
  rewrite !bool_decide_eq_true_2 by done. cbn [raise_unless rbind].
  unfold computed_digest at 1. rewrite str_eqb_refl. cbn [raise_unless rbind].
  rewrite str_eqb_refl. cbn [raise_unless rbind].
  rewrite (proj2 (str_eqb_true _ _) Ht). cbn [raise_unless rbind].
  rewrite Hst, Henv. cbn [value Environment_value]. rewrite str_eqb_refl. cbn [raise_unless rbind].
  rewrite Hdig, str_eqb_refl, Hs, Hv. cbn [raise_unless rbind].
  rewrite (proj2 (Z.leb_le _ _) Hrev), sha256_hex_HEX. cbn [raise_unless rbind]. reflexivity.
Qed.
