(* ===== verification/Policy.v ===== *)
(** * Policy: deny-by-default authorization (control_plane/policy.py)

    [authorize] evaluates one bounded request against one principal, plan and
    target state, and returns a typed decision.  It has no effects.  The
    theorems characterise exactly when it allows, and what a decision binds. *)

From S2P Require Import Prelude PyStr PyTime Sha256 Json Models ProjectPlan Identity.
From stdpp Require Import base strings list gmap.
From Stdlib Require Import Ascii String ZArith Lia.

Local Open Scope string_scope.
Local Open Scope Z_scope.
Local Open Scope aipm_scope.

Inductive PolicyCode :=
  | ALLOWED | UNVERIFIED_IDENTITY | EXPIRED_IDENTITY | MISSING_ROLE | PC_UNSUPPORTED_OPERATION
  | TARGET_NOT_ALLOWED | ENVIRONMENT_NOT_ALLOWED | SELF_APPROVAL | PLAN_MISSING | PLAN_DISABLED
  | PC_PLAN_EXPIRED | PLAN_ENVIRONMENT_MISMATCH | FIELD_NOT_ALLOWED | PC_INVALID_REQUEST.
#[export] Instance PolicyCode_eq_dec : EqDecision PolicyCode.
Proof. solve_decision. Defined.
#[export] Instance PolicyCode_value : EnumValue PolicyCode := λ c,
  match c with
  | ALLOWED => "allowed" | UNVERIFIED_IDENTITY => "unverified_identity"
  | EXPIRED_IDENTITY => "expired_identity" | MISSING_ROLE => "missing_role"
  | PC_UNSUPPORTED_OPERATION => "unsupported_operation"
  | TARGET_NOT_ALLOWED => "target_not_allowed"
  | ENVIRONMENT_NOT_ALLOWED => "environment_not_allowed" | SELF_APPROVAL => "self_approval"
  | PLAN_MISSING => "plan_missing" | PLAN_DISABLED => "plan_disabled"
  | PC_PLAN_EXPIRED => "plan_expired"
  | PLAN_ENVIRONMENT_MISMATCH => "plan_environment_mismatch"
  | FIELD_NOT_ALLOWED => "field_not_allowed" | PC_INVALID_REQUEST => "invalid_request"
  end.

Record AuthorizationDecision := {
  ad_decision_id : string;
  ad_allowed : bool;
  ad_code : PolicyCode;
  ad_operation : option OperationKind;
  ad_target_id : option string;
  ad_environment : option string;
  ad_policy_version : string;
  ad_principal_subject : option string;
  ad_confirmation_required : bool;
  ad_decided_at : datetime;
  ad_expires_at : datetime;
  ad_action_identity : option ActionIdentity;
  ad_plan_revision : option Z;
  ad_plan_digest : option string;
  ad_confirmation_kind : ConfirmationKind;
  ad_request : option ActionRequest;
}.
#[export] Instance AuthorizationDecision_eq_dec : EqDecision AuthorizationDecision.
Proof. solve_decision. Defined.

Definition is_some {A} (o : option A) : bool := match o with Some _ => true | None => false end.

(** [AuthorizationDecision.__post_init__] *)
Definition check_AuthorizationDecision (d : AuthorizationDecision) : result AuthorizationDecision :=
  require negb (ad_expires_at d <? ad_decided_at d) else_raise ValueError;;
  require Bool.eqb (ad_allowed d) (bool_decide (ad_code d = ALLOWED)) else_raise ValueError;;
  if ad_allowed d then
    require is_some (ad_action_identity d) && is_some (ad_plan_revision d) &&
            is_some (ad_plan_digest d) else_raise ValueError;;
    require ad_confirmation_required d else_raise ValueError;;
    require is_some (ad_request d) else_raise ValueError;;
    Ok d
  else Ok d.

Definition ad_is_expired (d : AuthorizationDecision) (now : datetime) : bool :=
  ad_expires_at d <=? now.

(** [_decision_id] *)
Definition decision_id (d : AuthorizationDecision) (request : option ActionRequest) : string :=
  str_take 32 (sha256_hex (dumps (JObj
    [("allowed", JBool (ad_allowed d)); ("code", JStr (value (ad_code d)));
     ("operation", JOpt (λ o, JStr (value o)) (ad_operation d));
     ("target_id", JOpt JStr (ad_target_id d)); ("environment", JOpt JStr (ad_environment d));
     ("policy_version", JStr (ad_policy_version d));
     ("principal_subject", JOpt JStr (ad_principal_subject d));
     ("confirmation_required", JBool (ad_confirmation_required d));
     ("confirmation_kind", JStr (value (ad_confirmation_kind d)));
     ("identity_version", JStr ACTION_IDENTITY_VERSION);
     ("action_identity", JOpt identity_payload (ad_action_identity d));
     ("request_identity", JOpt (λ r, JStr (request_identity r)) request)]))).

(** [object.__setattr__(decision, "decision_id", ...)] *)
Definition ad_with_id (id : string) (d : AuthorizationDecision) : AuthorizationDecision :=
  {| ad_decision_id := id; ad_allowed := ad_allowed d; ad_code := ad_code d;
     ad_operation := ad_operation d; ad_target_id := ad_target_id d;
     ad_environment := ad_environment d; ad_policy_version := ad_policy_version d;
     ad_principal_subject := ad_principal_subject d;
     ad_confirmation_required := ad_confirmation_required d; ad_decided_at := ad_decided_at d;
     ad_expires_at := ad_expires_at d; ad_action_identity := ad_action_identity d;
     ad_plan_revision := ad_plan_revision d; ad_plan_digest := ad_plan_digest d;
     ad_confirmation_kind := ad_confirmation_kind d; ad_request := ad_request d |}.

Record AuthorizationPolicy := {
  po_policy_version : string;
  po_allowed_scopes : list (string * string);
  po_allowed_operations : list OperationKind;
  po_require_distinct_requester_approver : bool;
  po_required_role : string;
  po_allowed_fields : list string;
  po_binding_fields : list string;
  po_confirmation_kind : ConfirmationKind;
}.

(** [AuthorizationPolicy.__post_init__] *)
Definition check_AuthorizationPolicy (p : AuthorizationPolicy) : result AuthorizationPolicy :=
  require str_nonempty (po_policy_version p) && (slen (po_policy_version p) <=? 64)
    else_raise ValueError;;
  require List.forallb (λ s, str_nonempty (fst s) && str_nonempty (snd s)) (po_allowed_scopes p)
    else_raise ValueError;;
  require List.forallb (λ o, bool_decide (o ∈ po_allowed_operations p)) ALLOWED_OPERATIONS &&
          List.forallb (λ o, bool_decide (o ∈ ALLOWED_OPERATIONS)) (po_allowed_operations p)
    else_raise ValueError;;
  require po_require_distinct_requester_approver p else_raise ValueError;;
  require str_nonempty (po_required_role p) && (slen (po_required_role p) <=? 128)
    else_raise ValueError;;
  require negb (bool_decide (po_allowed_fields p = [])) else_raise ValueError;;
  require negb (List.existsb (λ f, mem f (po_binding_fields p)) (po_allowed_fields p))
    else_raise ValueError;;
  Ok p.

(** The dataclass defaults. *)
Definition default_policy (version : string) (scopes : list (string * string))
    (kind : ConfirmationKind) : AuthorizationPolicy :=
  {| po_policy_version := version; po_allowed_scopes := scopes;
     po_allowed_operations := ALLOWED_OPERATIONS;
     po_require_distinct_requester_approver := true; po_required_role := OWNER_ROLE;
     po_allowed_fields := ALLOWED_FIELDS; po_binding_fields := ALL_BINDING_METADATA_KEYS;
     po_confirmation_kind := kind |}.

(** [_deny] *)
Definition deny (p : AuthorizationPolicy) (code : PolicyCode) (request : ActionRequest)
    (decided_at : option datetime) (principal : option OwnerPrincipal)
  : result AuthorizationDecision :=
  let moment := match decided_at with
                | Some t => t
                | None => match principal with
                          | Some pr => pr_authenticated_at pr
                          | None => datetime_min
                          end
                end in
  let* denial := check_AuthorizationDecision
    {| ad_decision_id := ""; ad_allowed := false; ad_code := code;
       ad_operation := Some (req_operation request); ad_target_id := Some (req_target_id request);
       ad_environment := Some (req_environment request);
       ad_policy_version := po_policy_version p;
       ad_principal_subject := pr_subject <$> principal; ad_confirmation_required := false;
       ad_decided_at := moment; ad_expires_at := moment; ad_action_identity := None;
       ad_plan_revision := None; ad_plan_digest := None;
       ad_confirmation_kind := po_confirmation_kind p; ad_request := None |} in
  Ok (ad_with_id (decision_id denial (Some request)) denial).

(** [OperationKind(value)] *)
Definition operation_of_value (s : string) : result OperationKind :=
  if str_eqb s (value UPDATE_PROJECT_PLAN) then Ok UPDATE_PROJECT_PLAN
  else if str_eqb s (value ROLLBACK_PROJECT_PLAN) then Ok ROLLBACK_PROJECT_PLAN
  else Raise ValueError.

(** [_allow] *)
Definition allow (p : AuthorizationPolicy) (identity : ActionIdentity) (principal : OwnerPrincipal)
    (moment plan_expires_at : datetime) (request : ActionRequest) : result AuthorizationDecision :=
  let* operation := operation_of_value (id_operation identity) in
  let* decision := check_AuthorizationDecision
    {| ad_decision_id := ""; ad_allowed := true; ad_code := ALLOWED;
       ad_operation := Some operation;
       ad_target_id := Some (id_target_id identity);
       ad_environment := Some (id_environment identity);
       ad_policy_version := po_policy_version p;
       ad_principal_subject := Some (pr_subject principal); ad_confirmation_required := true;
       ad_decided_at := moment; ad_expires_at := Z.min (moment + DECISION_TTL) plan_expires_at;
       ad_action_identity := Some identity; ad_plan_revision := Some (id_target_revision identity);
       ad_plan_digest := Some (id_plan_digest identity);
       ad_confirmation_kind := po_confirmation_kind p; ad_request := Some request |} in
  Ok (ad_with_id (decision_id decision None) decision).

(** Mutation fields of a request: its fields less the binding decoration. *)
Definition mutation_fields (p : AuthorizationPolicy) (request : ActionRequest) : list string :=
  List.filter (λ f, negb (mem f (po_binding_fields p))) (fields request).

(** The field rule of [_evaluate]. *)
Definition fields_permitted (p : AuthorizationPolicy) (request : ActionRequest) : bool :=
  match req_operation request with
  | UPDATE_PROJECT_PLAN =>
      negb (bool_decide (mutation_fields p request = [])) &&
      List.forallb (λ f, mem f (po_allowed_fields p)) (mutation_fields p request)
  | ROLLBACK_PROJECT_PLAN => bool_decide (fields request = [])
  end.

Definition scope_allowed (p : AuthorizationPolicy) (target environment : string) : bool :=
  bool_decide ((target, environment) ∈ po_allowed_scopes p).

(** [_evaluate] *)
Definition authorize (p : AuthorizationPolicy) (principal : option OwnerPrincipal)
    (request : ActionRequest) (plan : ActionPlan) (current_plan : option ProjectPlan)
    (now : option datetime) : result AuthorizationDecision :=
  let refuse code pr := deny p code request now pr in
  if negb (bool_decide (req_operation request ∈ po_allowed_operations p))
  then refuse PC_UNSUPPORTED_OPERATION None else
  match principal with
  | None => refuse UNVERIFIED_IDENTITY None
  | Some pr =>
      if negb (bool_decide (pr_verification pr = VERIFIED))
      then refuse UNVERIFIED_IDENTITY (Some pr) else
      let current := default (pr_authenticated_at pr) now in
      if negb (is_usable pr current)
      then refuse (if pr_expires_at pr <=? current then EXPIRED_IDENTITY else UNVERIFIED_IDENTITY)
             (Some pr) else
      if negb (has_role pr (po_required_role p)) then refuse MISSING_ROLE (Some pr) else
      if negb (scope_allowed p (req_target_id request) (req_environment request))
      then refuse (if List.existsb (λ s, str_eqb (fst s) (req_target_id request))
                        (po_allowed_scopes p)
                   then ENVIRONMENT_NOT_ALLOWED else TARGET_NOT_ALLOWED) (Some pr) else
      match current_plan with
      | None => refuse PLAN_MISSING (Some pr)
      | Some cur =>
          if negb (pp_enabled cur) then refuse PLAN_DISABLED (Some pr) else
          if negb (str_eqb (value (pp_environment cur)) (req_environment request))
          then refuse PLAN_ENVIRONMENT_MISMATCH (Some pr) else
          if plan_is_expired plan (default (plan_created_at plan) now)
          then refuse PC_PLAN_EXPIRED (Some pr) else
          if negb (fields_permitted p request) then refuse FIELD_NOT_ALLOWED (Some pr) else
          match derive_action_identity request plan cur (po_policy_version p) (pr_subject pr) with
          | Raise _ => refuse PC_INVALID_REQUEST (Some pr)
          | Ok identity =>
              allow p identity pr (default (plan_created_at plan) now) (plan_expires_at plan) request
          end
      end
  end.

(** ** When a request is authorizable *)

(** The declarative reading of the policy. *)
Definition authorizable (p : AuthorizationPolicy) (principal : option OwnerPrincipal)
    (request : ActionRequest) (plan : ActionPlan) (current_plan : option ProjectPlan)
    (now : option datetime) : Prop :=
  ∃ pr cur identity,
    principal = Some pr ∧ current_plan = Some cur ∧
    req_operation request ∈ po_allowed_operations p ∧
    pr_verification pr = VERIFIED ∧ default (pr_authenticated_at pr) now < pr_expires_at pr ∧
    po_required_role p ∈ pr_roles pr ∧
    (req_target_id request, req_environment request) ∈ po_allowed_scopes p ∧
    pp_enabled cur = true ∧ value (pp_environment cur) = req_environment request ∧
    default (plan_created_at plan) now < plan_expires_at plan ∧
    fields_permitted p request = true ∧
    derive_action_identity request plan cur (po_policy_version p) (pr_subject pr) = Ok identity.

(** ** Lemmas *)

Lemma deny_Ok p code request now pr :
  code ≠ ALLOWED →
  ∃ d, deny p code request now pr = Ok d ∧ ad_allowed d = false ∧ ad_code d = code ∧
    ad_action_identity d = None ∧ ad_plan_digest d = None.
Proof.
  intros Hc. eexists. split_and!.
  - unfold deny, check_AuthorizationDecision. cbn. rewrite Z.ltb_irrefl.
    rewrite bool_decide_eq_false_2 by done. cbn. reflexivity.
  - done.
  - done.
  - done.
  - done.
Qed.

Lemma operation_of_value_value o : operation_of_value (value o) = Ok o.
Proof. by destruct o. Qed.

Lemma allow_Ok p i pr moment ex request :
  id_operation i = value (req_operation request) → moment < ex →
  ∃ d, allow p i pr moment ex request = Ok d ∧ ad_allowed d = true ∧ ad_code d = ALLOWED ∧
    ad_action_identity d = Some i ∧ ad_request d = Some request ∧
    ad_plan_revision d = Some (id_target_revision i) ∧ ad_plan_digest d = Some (id_plan_digest i) ∧
    ad_confirmation_required d = true ∧ ad_principal_subject d = Some (pr_subject pr) ∧
    ad_confirmation_kind d = po_confirmation_kind p ∧ ad_decided_at d = moment ∧
    ad_expires_at d = Z.min (moment + DECISION_TTL) ex ∧
    ad_decision_id d = decision_id (ad_with_id "" d) None ∧
    ad_policy_version d = po_policy_version p.
Proof.
  intros Ho Hm. unfold allow. rewrite Ho, operation_of_value_value. cbn [rbind].
  unfold check_AuthorizationDecision. cbn.
  rewrite (proj2 (Z.ltb_ge _ _)) by (unfold DECISION_TTL, minutes, seconds; lia). cbn.
  eexists. split; [reflexivity|]. cbn. by split_and!.
Qed.

Lemma derive_operation request plan cur pv subj i :
  derive_action_identity request plan cur pv subj = Ok i →
  id_operation i = value (req_operation request).
Proof. intros H. apply derive_Ok in H as (_&_&_&_&_&_&_&_&_&H). by rewrite H. Qed.

(** Either a denial with a code other than ALLOWED and the request is not
    authorizable, or the allow branch with everything it establishes. *)
Lemma authorize_cases p principal request plan cur now :
  (∃ code pr, authorize p principal request plan cur now = deny p code request now pr ∧
     code ≠ ALLOWED ∧ ¬ authorizable p principal request plan cur now) ∨
  (∃ pr c i, principal = Some pr ∧ cur = Some c ∧
     derive_action_identity request plan c (po_policy_version p) (pr_subject pr) = Ok i ∧
     default (plan_created_at plan) now < plan_expires_at plan ∧
     authorizable p principal request plan cur now ∧
     authorize p principal request plan cur now =
       allow p i pr (default (plan_created_at plan) now) (plan_expires_at plan) request).
Proof.
  unfold authorize, authorizable, is_usable, has_role, scope_allowed, plan_is_expired.
  assert (Hdeny : ∀ code pr, code ≠ ALLOWED →
    ¬ authorizable p principal request plan cur now →
    (∃ code' pr', deny p code request now pr = deny p code' request now pr' ∧
       code' ≠ ALLOWED ∧ ¬ authorizable p principal request plan cur now)) by eauto.
  unfold authorizable in Hdeny.
  destruct (bool_decide (req_operation request ∈ _)) eqn:T1; cbn [negb];
    [|left; apply Hdeny; [done|]; intros (? & ? & ? & H); destruct_and! H;
      by apply bool_decide_eq_false in T1].
  destruct principal as [pr|]; [|left; apply Hdeny; [done|]; by intros (? & ? & ? & ? & _)].
  destruct (bool_decide (pr_verification pr = VERIFIED)) eqn:T2; cbn [negb andb];
    [|left; apply Hdeny; [done|]; intros (? & ? & ? & H); destruct_and! H; simplify_eq;
      by apply bool_decide_eq_false in T2].
  destruct (Z.ltb_spec (default (pr_authenticated_at pr) now) (pr_expires_at pr)) as [T3|T3]; cbn [negb];
    [|left; apply Hdeny; [by case_match|]; intros (? & ? & ? & H); destruct_and! H; simplify_eq; lia].
  destruct (mem (po_required_role p) (pr_roles pr)) eqn:T4; cbn [negb];
    [|left; apply Hdeny; [done|]; intros (? & ? & ? & H); destruct_and! H; simplify_eq;
      by apply bool_decide_eq_false in T4].
  destruct (bool_decide ((_, _) ∈ po_allowed_scopes p)) eqn:T5; cbn [negb];
    [|left; apply Hdeny; [by case_match|]; intros (? & ? & ? & H); destruct_and! H; simplify_eq;
      by apply bool_decide_eq_false in T5].
  destruct cur as [c|]; [|left; apply Hdeny; [done|]; by intros (? & ? & ? & ? & ? & _)].
  destruct (pp_enabled c) eqn:T6; cbn [negb];
    [|left; apply Hdeny; [done|]; intros (? & ? & ? & H); destruct_and! H; simplify_eq; congruence].
  destruct (str_eqb (value (pp_environment c)) (req_environment request)) eqn:T7; cbn [negb];
    [|left; apply Hdeny; [done|]; intros (? & ? & ? & H); destruct_and! H; simplify_eq;
      by apply bool_decide_eq_false in T7].
  destruct (Z.leb_spec (plan_expires_at plan) (default (plan_created_at plan) now)) as [T8|T8];
    [left; apply Hdeny; [done|]; intros (? & ? & ? & H); destruct_and! H; simplify_eq; lia|].
  destruct (fields_permitted p request) eqn:T9; cbn [negb];
    [|left; apply Hdeny; [done|]; intros (? & ? & ? & H); destruct_and! H; simplify_eq; congruence].
  destruct (derive_action_identity _ _ _ _ _) as [i|e] eqn:T10;
    [|left; apply Hdeny; [done|]; intros (? & ? & ? & H); destruct_and! H; simplify_eq; congruence].
  right. exists pr, c, i. apply bool_decide_eq_true in T1, T2, T4, T5, T7.
  split_and!; try done. exists pr, c, i. by split_and!.
Qed.

(** ** Properties *)

(** C26: Authorization is total and denies by default: it always returns a
    decision, and the decision is "allowed" exactly when the principal is
    verified, unexpired and has the role, the operation and scope are
    allow-listed, the target plan is enabled in the requested environment, the
    plan is unexpired, the fields are permitted and the identity derives. *)
Theorem authorize_iff p principal request plan cur now :
  ∃ d, authorize p principal request plan cur now = Ok d ∧
    (ad_allowed d = true ↔ authorizable p principal request plan cur now).
Proof.
  destruct (authorize_cases p principal request plan cur now)
    as [(code & pr & E & Hc & Hn)|(pr & c & i & _ & _ & Hi & Hx & Ha & E)]; rewrite E.
  - destruct (deny_Ok p code request now pr Hc) as (d & -> & Hd & _). exists d. split; [done|].
    rewrite Hd. split; [done|]. by intros ?%Hn.
  - destruct (allow_Ok p i pr (default (plan_created_at plan) now) (plan_expires_at plan) request)
      as (d & -> & Hd & _); [by eapply derive_operation|done|].
    exists d. by rewrite Hd.
Qed.

(** An allowed decision carries a verifying identity derived for the
    requesting principal, bound to the plan's digest and the target's current
    revision; it requires confirmation and expires within five minutes and not
    after the plan.  A denied decision carries no identity and no plan. *)
Lemma decision_contents p principal request plan cur now d :
  authorize p principal request plan cur now = Ok d →
  if ad_allowed d then
    ∃ i pr c, ad_action_identity d = Some i ∧ verify_action_identity i = true ∧
      principal = Some pr ∧ cur = Some c ∧ id_requester_subject i = pr_subject pr ∧
      ad_principal_subject d = Some (pr_subject pr) ∧
      id_plan_digest i = computed_digest plan ∧ ad_plan_digest d = Some (computed_digest plan) ∧
      id_target_revision i = pp_revision c ∧ ad_plan_revision d = Some (pp_revision c) ∧
      ad_request d = Some request ∧ plan_request plan = request ∧
      ad_confirmation_required d = true ∧
      ad_decided_at d < ad_expires_at d ∧
      ad_expires_at d ≤ ad_decided_at d + DECISION_TTL ∧ ad_expires_at d ≤ plan_expires_at plan
  else ad_action_identity d = None ∧ ad_plan_digest d = None ∧ ad_code d ≠ ALLOWED.
Proof.
  intros H. destruct (authorize_cases p principal request plan cur now)
    as [(code & pr & E & Hc & _)|(pr & c & i & -> & -> & Hi & Hx & _ & E)]; rewrite E in H; clear E.
  - destruct (deny_Ok p code request now pr Hc) as (d' & E & Hd & Hcode & Hid & Hpd).
    rewrite E in H. simplify_eq. rewrite Hd. split_and!; try done; congruence.
  - destruct (allow_Ok p i pr (default (plan_created_at plan) now) (plan_expires_at plan) request)
      as (d' & E & Hd); [by eapply derive_operation|done|].
    rewrite E in H. simplify_eq. destruct_and! Hd.
    match goal with H : ad_allowed d = true |- _ => rewrite H end.
    pose proof Hi as Hi'. apply derive_Ok in Hi'. destruct_and! Hi'.
    match goal with H : i = _ |- _ => rename H into Hieq end.
    exists i, pr, c. split_and!; try done; try congruence;
      try (rewrite Hieq; cbn; congruence);
      try (etrans; [eassumption|]; rewrite Hieq; cbn; congruence).
    + unfold verify_action_identity. apply str_eqb_true. by rewrite Hieq at 1.
    + match goal with H : ad_decided_at d = _, H' : ad_expires_at d = _ |- _ => rewrite H, H' end.
      unfold DECISION_TTL, minutes, seconds. lia.
    + match goal with H : ad_decided_at d = _, H' : ad_expires_at d = _ |- _ => rewrite H, H' end. lia.
    + match goal with H' : ad_expires_at d = _ |- _ => rewrite H' end. lia.
Qed.

(** Production is never authorizable: against any plan held by a plan
    store that was only filled through the store's own calls, a request for
    an environment other than staging is denied, whatever the policy, the
    principal and the plan say. *)
Lemma production_never_authorized cs t cur p principal request plan now d :
  run_calls cs ∅ !! t = Some cur → req_environment request ≠ "staging" →
  authorize p principal request plan (Some cur) now = Ok d → ad_allowed d = false.
Proof.
  intros Hcur Henv H. destruct (ad_allowed d) eqn:Hd; [|done]. exfalso. apply Henv.
  pose proof (plan_store_wf cs _ _ Hcur) as (_ & _ & Hst & _).
  destruct (authorize_cases p principal request plan (Some cur) now)
    as [(code & pr & E & Hc & _)|(pr & c & i & _ & Hceq & Hi & _)].
  - destruct (deny_Ok p code request now pr Hc) as (d' & E' & Hd' & _). congruence.
  - injection Hceq as <-. apply derive_Ok in Hi as (_ & _ & _ & _ & He & _).
    by rewrite <- He, Hst.
Qed.
