(* ===== verification/Confirmation.v ===== *)
(** * Confirmation: single-use owner confirmation (control_plane/approval.py)

    [OwnerConfirmationService] binds the owner's explicit confirmation act to
    a decision.  It talks to its store only through the [ConfirmationStore]
    protocol of contracts.py, so it is modelled over any store type [S] with
    those operations ([ConfStore]) and its theorems are proved from the laws
    the protocol promises ([ConfStoreLaws]).  [InMemoryConfirmationStore] is
    the instance of this file; the action repository is another one. *)

From S2P Require Import Prelude PyStr PyTime Sha256 Json PyDict Models ProjectPlan Identity Policy.
From Stdlib Require Import Ascii String ZArith Lia.
From stdpp Require Import base strings gmap list.

Local Open Scope string_scope.
Local Open Scope Z_scope.
Local Open Scope aipm_scope.

Definition mismatch : exn := ControlPlaneError CONFIRMATION_MISMATCH.

(** ** The store protocol *)

Class ConfStore (S : Type) := {
  cs_put : ConfirmationBinding → S → S;
  cs_get : string → S → option ConfirmationBinding;
  cs_has_active : string → S → bool;
  cs_get_active : string → S → option ConfirmationBinding;
  cs_count : S → Z;
}.

Definition active_state (s : ConfirmationState) : bool :=
  bool_decide (s ∈ [CONFIRMATION_REQUESTED; CONF_CONFIRMED]).

(** What the protocol promises about a store that is only written through it. *)
Class ConfStoreLaws (S : Type) `{ConfStore S} (ok : S → Prop) := {
  law_put_ok : ∀ b s, ok s → ok (cs_put b s);
  law_get_put : ∀ b s id, cs_get id (cs_put b s) =
    if decide (id = cb_confirmation_id b) then Some b else cs_get id s;
  law_get_id : ∀ s id b, ok s → cs_get id s = Some b → cb_confirmation_id b = id;
  law_has_active : ∀ s a, ok s → cs_has_active a s = true ↔
    ∃ id b, cs_get id s = Some b ∧ cb_action_id b = a ∧ active_state (cb_state b) = true;
  law_get_active : ∀ s a b, ok s → cs_get_active a s = Some b →
    cs_get (cb_confirmation_id b) s = Some b ∧ cb_action_id b = a ∧
    cb_state b = CONFIRMATION_REQUESTED;
  law_count_put : ∀ b s, ok s → cs_count (cs_put b s) =
    cs_count s + (if decide (cs_get (cb_confirmation_id b) s = None) then 1 else 0);
}.

(** ** InMemoryConfirmationStore *)

Definition conf_dict : Type := dict string ConfirmationBinding.

Definition new_InMemoryConfirmationStore (max_bindings : Z) : result conf_dict :=
  require negb ((max_bindings <? 1) || (256 <? max_bindings)) else_raise ValueError;; Ok [].

(** [get_active_for_action]: the first requested binding in insertion order. *)
Definition find_active (action_id : string) (bs : list ConfirmationBinding)
  : option ConfirmationBinding :=
  List.find (λ b, str_eqb (cb_action_id b) action_id &&
                  bool_decide (cb_state b = CONFIRMATION_REQUESTED)) bs.

#[export] Instance conf_dict_store : ConfStore conf_dict := {
  cs_put := λ b d, dset (cb_confirmation_id b) b d;
  cs_get := dget;
  cs_has_active := λ a d,
    List.existsb (λ b, str_eqb (cb_action_id b) a && active_state (cb_state b)) (dvalues d);
  cs_get_active := λ a d, find_active a (dvalues d);
  cs_count := dlen;
}.

(** Written only through [put]: distinct keys, each binding under its own id. *)
Definition conf_dict_ok (d : conf_dict) : Prop :=
  dwf d ∧ ∀ id b, dget id d = Some b → cb_confirmation_id b = id.

(** ** OwnerConfirmationService *)

(** [decision_request] *)
Definition decision_request (d : AuthorizationDecision) : result ActionRequest :=
  match ad_request d with Some r => Ok r | None => Raise ValueError end.

Definition confirmation_id_of (i : ActionIdentity) (d : AuthorizationDecision) (subject : string)
    (now : datetime) : string :=
  str_take 32 (sha256_hex
    (id_action_id i ++ ":" ++ ad_decision_id d ++ ":" ++ subject ++ ":" ++ isoformat now)%string).

Section service.
Context {S : Type} {CS : ConfStore S}.
(** [_max_bindings] of the service configuration. *)
Variable max_bindings : Z.

Definition request_confirmation (d : AuthorizationDecision) (requester_subject : string)
    (now : datetime) : M S ConfirmationBinding :=
  assert_ str_nonempty requester_subject else_raise invalid_request;;
  assert_ ad_allowed d && ad_confirmation_required d else_raise mismatch;;
  match ad_action_identity d with
  | None => raiseM mismatch
  | Some identity =>
      assert_ bool_decide (Some requester_subject = ad_principal_subject d) else_raise mismatch;;
      assert_ negb (ad_is_expired d now) else_raise ControlPlaneError EXPIRED_PLAN;;
      do store <- getM;;
      match cs_get_active (id_action_id identity) store with
      | Some pending =>
          if str_eqb (cb_decision_id pending) (ad_decision_id d) &&
             bool_decide (cb_state pending = CONFIRMATION_REQUESTED)
          then retM pending else raiseM mismatch
      | None =>
          assert_ negb (cs_has_active (id_action_id identity) store) else_raise mismatch;;
          assert_ negb (max_bindings <=? cs_count store) else_raise invalid_request;;
          do request <- liftM (decision_request d);;
          do binding <- liftM (check_ConfirmationBinding
            {| cb_confirmation_id := confirmation_id_of identity d requester_subject now;
               cb_decision_id := ad_decision_id d; cb_action_id := id_action_id identity;
               cb_plan_id := id_plan_id identity; cb_plan_digest := id_plan_digest identity;
               cb_target_revision := id_target_revision identity;
               cb_target_digest := id_target_digest identity;
               cb_policy_version := id_policy_version identity;
               cb_requester_subject := requester_subject;
               cb_confirmation_kind := ad_confirmation_kind d; cb_request := request;
               cb_created_at := now;
               cb_expires_at := Z.min (ad_expires_at d) (now + CONFIRMATION_TTL);
               cb_confirmed_by_subject := None; cb_scope := "owner_confirmation";
               cb_state := CONFIRMATION_REQUESTED |});;
          assert_ bool_decide (cs_get (cb_confirmation_id binding) store = None)
            else_raise mismatch;;
          do_ modifyM (cs_put binding);;
          retM binding
      end
  end.

(** [_stored]: the stored binding, equal to the one presented. *)
Definition stored (b : ConfirmationBinding) : M S ConfirmationBinding :=
  do store <- getM;;
  match cs_get (cb_confirmation_id b) store with
  | None => raiseM mismatch
  | Some st => if decide (st = b) then retM st else raiseM mismatch
  end.

(** [_validate_binding] *)
Definition validate_binding (b : ConfirmationBinding) (now : datetime) : M S unit :=
  assert_ negb (cb_is_expired b now) else_raise ControlPlaneError EXPIRED_PLAN;; retM ().

Definition confirmer_matches (b : ConfirmationBinding) (subject : string) : bool :=
  match cb_confirmation_kind b with
  | OWNER_CONFIRMATION => str_eqb subject (cb_requester_subject b)
  | DISTINCT_APPROVAL => negb (str_eqb subject (cb_requester_subject b))
  end.

Definition build_confirmation (b : ConfirmationBinding) (confirmed_by_subject : string)
    (now : datetime) : M S ConfirmationBinding :=
  assert_ str_nonempty confirmed_by_subject else_raise invalid_request;;
  do st <- stored b;;
  do_ validate_binding st now;;
  assert_ bool_decide (cb_state st = CONFIRMATION_REQUESTED) else_raise mismatch;;
  assert_ confirmer_matches st confirmed_by_subject else_raise mismatch;;
  liftM (check_ConfirmationBinding (cb_with_state CONF_CONFIRMED (Some confirmed_by_subject) st)).

Definition confirm (b : ConfirmationBinding) (confirmed_by_subject : string) (now : datetime)
  : M S ConfirmationBinding :=
  do confirmed <- build_confirmation b confirmed_by_subject now;;
  do_ modifyM (cs_put confirmed);;
  retM confirmed.

Definition validate (b : ConfirmationBinding) (now : datetime) : M S unit :=
  do st <- stored b;;
  do_ validate_binding st now;;
  assert_ bool_decide (cb_state st = CONF_CONFIRMED) else_raise mismatch;;
  retM ().

Definition consume (b : ConfirmationBinding) (now : datetime) : M S ConfirmationBinding :=
  do st <- stored b;;
  do_ validate_binding st now;;
  assert_ bool_decide (cb_state st = CONF_CONFIRMED) else_raise mismatch;;
  do consumed <- liftM (check_ConfirmationBinding
    (cb_with_state CONSUMED (cb_confirmed_by_subject st) st));;
  do_ modifyM (cs_put consumed);;
  retM consumed.

(** Calls a client can make on the service. *)
Inductive conf_call :=
  | CRequest (d : AuthorizationDecision) (subject : string) (now : datetime)
  | CConfirm (b : ConfirmationBinding) (subject : string) (now : datetime)
  | CValidate (b : ConfirmationBinding) (now : datetime)
  | CConsume (b : ConfirmationBinding) (now : datetime).

Definition run_conf_call (c : conf_call) : M S (option ConfirmationBinding) :=
  match c with
  | CRequest d subj now => do b <- request_confirmation d subj now;; retM (Some b)
  | CConfirm b subj now => do b' <- confirm b subj now;; retM (Some b')
  | CValidate b now => do_ validate b now;; retM None
  | CConsume b now => do b' <- consume b now;; retM (Some b')
  end.

(** [served s cs s']: the calls in order, raised exceptions kept. *)
Inductive served : S → list (conf_call * result (option ConfirmationBinding)) → S → Prop :=
  | served_nil s : served s [] s
  | served_cons s c r s1 l s' :
      run_conf_call c s = (s1, r) → served s1 l s' → served s ((c, r) :: l) s'.
End service.
Arguments CRequest d subject now.

(** ** The in-memory store keeps the protocol's promises *)

Lemma active_state_true st :
  active_state st = true ↔ st = CONFIRMATION_REQUESTED ∨ st = CONF_CONFIRMED.
Proof. unfold active_state. rewrite bool_decide_eq_true. set_solver. Qed.

#[export] Instance conf_dict_laws : ConfStoreLaws conf_dict conf_dict_ok.
Proof.
  split; cbn.
  - intros b d [Hw Hk]. split; [by apply dset_wf|]. intros id b'. rewrite dget_set.
    case_decide; [naive_solver|auto].
  - intros. apply dget_set.
  - intros d id b [_ Hk]. apply Hk.
  - intros d a [Hw Hk]. rewrite List.existsb_exists. setoid_rewrite <-list_elem_of_In. split.
    + intros (b & Hin & [Ha Hs]%andb_true_iff). destruct (value_dget b d Hw Hin) as [id Hid].
      exists id, b. split_and!; [done| |done]. by apply str_eqb_true.
    + intros (id & b & Hg & <- & Hs). exists b. split; [by eapply dget_value|].
      rewrite Hs, andb_true_r. by apply str_eqb_true.
  - intros d a b [Hw Hk] [Hin [Ha Hs]%andb_true_iff]%List.find_some.
    apply list_elem_of_In in Hin. destruct (value_dget b d Hw Hin) as [id Hid].
    split_and!; [by rewrite (Hk _ _ Hid)|by apply str_eqb_true|by apply bool_decide_eq_true in Hs].
  - intros b d _. apply dset_len.
Qed.

(** ** What one call can do to the store *)

Lemma check_cb_Ok b b' : check_ConfirmationBinding b = Ok b' → b' = b.
Proof. unfold check_ConfirmationBinding. intros H. split_ok; by subst. Qed.

Section laws.
Context {S : Type} {CS : ConfStore S} (ok : S → Prop) {CL : ConfStoreLaws S ok}.
Variable max_bindings : Z.

(** The three ways a binding is written. *)
Inductive conf_step (s : S) : ConfirmationBinding → Prop :=
  | step_request b :
      cs_get (cb_confirmation_id b) s = None → cb_state b = CONFIRMATION_REQUESTED →
      cb_confirmed_by_subject b = None → cs_has_active (cb_action_id b) s = false →
      cs_count s < max_bindings → conf_step s b
  | step_confirm b subject :
      cs_get (cb_confirmation_id b) s = Some b → cb_state b = CONFIRMATION_REQUESTED →
      confirmer_matches b subject = true →
      conf_step s (cb_with_state CONF_CONFIRMED (Some subject) b)
  | step_consume b :
      cs_get (cb_confirmation_id b) s = Some b → cb_state b = CONF_CONFIRMED →
      conf_step s (cb_with_state CONSUMED (cb_confirmed_by_subject b) b).

Lemma stored_run b s :
  stored b s = (s, if decide (cs_get (cb_confirmation_id b) s = Some b)
                   then Ok b else Raise mismatch).
Proof.
  unfold stored, bindM, getM. destruct (cs_get _ s) as [st|] eqn:E; [|done].
  destruct (decide (st = b)) as [->|]; [by rewrite decide_True|].
  rewrite decide_False; [done|naive_solver].
Qed.

Lemma stored_Ok b s s' st :
  stored b s = (s', Ok st) ↔ cs_get (cb_confirmation_id b) s = Some b ∧ s' = s ∧ st = b.
Proof. rewrite stored_run. case_decide; naive_solver. Qed.

Lemma validate_binding_Ok b now (s s' : S) u :
  validate_binding b now s = (s', Ok u) ↔ s' = s ∧ now < cb_expires_at b.
Proof.
  unfold validate_binding, cb_is_expired, bindM, liftM, retM.
  destruct (cb_expires_at b <=? now) eqn:E, u; simpl; split; intros H; simplify_eq;
    rewrite ?Z.leb_le, ?Z.leb_gt in E; try lia; try (split; [done|lia]).
  all: destruct H as [-> ?]; try lia; done.
Qed.

Ltac conf_inv := repeat (inv_ok; match goal with
  | H : stored _ _ = (_, Ok _) |- _ => apply stored_Ok in H as (? & -> & ->)
  | H : validate_binding _ _ _ = (_, Ok _) |- _ => apply validate_binding_Ok in H as [-> ?]
  end); inv_ok.

Lemma consume_run b now s :
  ∀ s' b', consume b now s = (s', Ok b') ↔
    cs_get (cb_confirmation_id b) s = Some b ∧ now < cb_expires_at b ∧
    cb_state b = CONF_CONFIRMED ∧
    check_ConfirmationBinding (cb_with_state CONSUMED (cb_confirmed_by_subject b) b) = Ok b' ∧
    s' = cs_put b' s.
Proof.
  intros s' b'. unfold consume. split.
  - intros H. conf_inv. naive_solver.
  - intros (Hg & He & Hs & Hc & ->). unfold bindM at 1.
    rewrite (proj2 (stored_Ok _ _ _ _) (conj Hg (conj eq_refl eq_refl))).
    unfold bindM at 1. rewrite (proj2 (validate_binding_Ok _ _ _ _ ()) (conj eq_refl He)).
    rewrite Hs. unfold bindM, liftM. simpl. by rewrite Hc.
Qed.

Lemma confirm_run b subject now s :
  ∀ s' b', confirm b subject now s = (s', Ok b') ↔
    subject ≠ EmptyString ∧ cs_get (cb_confirmation_id b) s = Some b ∧ now < cb_expires_at b ∧
    cb_state b = CONFIRMATION_REQUESTED ∧ confirmer_matches b subject = true ∧
    check_ConfirmationBinding (cb_with_state CONF_CONFIRMED (Some subject) b) = Ok b' ∧
    s' = cs_put b' s.
Proof.
  intros s' b'. unfold confirm, build_confirmation. split.
  - intros H. conf_inv. destruct subject; naive_solver.
  - intros (Hn & Hg & He & Hs & Hm & Hc & ->). rewrite !bindM_assoc.
    assert (str_nonempty subject = true) as -> by by destruct subject.
    unfold bindM at 1, liftM at 1; simpl. rewrite bindM_assoc. unfold bindM at 1.
    rewrite (proj2 (stored_Ok _ _ _ _) (conj Hg (conj eq_refl eq_refl))).
    rewrite bindM_assoc. unfold bindM at 1.
    rewrite (proj2 (validate_binding_Ok _ _ _ _ ()) (conj eq_refl He)).
    rewrite Hs, Hm. unfold bindM, liftM. simpl. by rewrite Hc.
Qed.

(** A freshly requested or a still pending binding, and what it carries. *)
Lemma request_run d subject now s s' b :
  request_confirmation max_bindings d subject now s = (s', Ok b) →
  ∃ i, ad_action_identity d = Some i ∧ ad_allowed d = true ∧
    ad_confirmation_required d = true ∧ now < ad_expires_at d ∧
    ad_principal_subject d = Some subject ∧
    ((s' = s ∧ cs_get_active (id_action_id i) s = Some b ∧ cb_decision_id b = ad_decision_id d) ∨
     (s' = cs_put b s ∧ conf_step s b ∧ cb_action_id b = id_action_id i ∧
      cb_decision_id b = ad_decision_id d ∧ cb_plan_digest b = id_plan_digest i ∧
      cb_target_revision b = id_target_revision i ∧
      cb_confirmation_kind b = ad_confirmation_kind d ∧ cb_requester_subject b = subject ∧
      ad_request d = Some (cb_request b) ∧ cb_created_at b = now ∧
      cb_state b = CONFIRMATION_REQUESTED ∧
      cb_expires_at b = Z.min (ad_expires_at d) (now + CONFIRMATION_TTL))).
Proof.
  unfold request_confirmation. intros H. conf_inv.
  destruct (ad_action_identity d) as [i|]; [|by inv_ok]. exists i. conf_inv.
  unfold ad_is_expired in *. split_and!; try done; [by apply Z.leb_gt|].
  destruct (cs_get_active _ _) as [p|] eqn:Ep.
  - left. destruct (_ && _) eqn:E in H; [|by inv_ok]. conf_inv. split_and!; try done.
    by apply str_eqb_true.
  - right. conf_inv. unfold decision_request in *. destruct (ad_request d) as [rq|]; [|by inv_ok].
    conf_inv. match goal with Hc : check_ConfirmationBinding _ = Ok _ |- _ => apply check_cb_Ok in Hc end.
    subst. cbn in *. split_and!; try done.
    apply step_request; cbn; try done. match goal with Hc : (max_bindings <=? _) = false |- _ =>
      by apply Z.leb_gt in Hc end.
Qed.

Lemma stored_reads b : reads (S:=S) (stored b).
Proof. unfold stored. solve_atomic. Qed.
Lemma validate_binding_reads b now : reads (S:=S) (validate_binding b now).
Proof. unfold validate_binding. solve_atomic. Qed.
Hint Resolve stored_reads validate_binding_reads : atomicity.

(** A call that raises changed nothing. *)
Lemma service_atomic c : atomic (run_conf_call max_bindings c).
Proof.
  destruct c; cbn; apply atomic_then_ret;
    unfold request_confirmation, confirm, build_confirmation, validate, consume; solve_atomic.
Qed.

(** Every call leaves the store as it is or makes one [conf_step]. *)
Lemma run_conf_call_cases c s s' r :
  run_conf_call max_bindings c s = (s', r) →
  (s' = s ∧ ∀ b now, c = CConsume b now → is_ok r = false) ∨
  (∃ b', conf_step s b' ∧ s' = cs_put b' s ∧ r = Ok (Some b') ∧
    ∀ b now, c = CConsume b now → cb_state b' = CONSUMED ∧
      cb_confirmation_id b' = cb_confirmation_id b).
Proof.
  destruct r as [o|e]; [|by intros ->%service_atomic; left].
  destruct c as [d sj now|b sj now|b now|b now]; cbn; intros H; conf_inv.
  - apply request_run in H0 as (i & _ & _ & _ & _ & _ & [[-> _]|(-> & Hs & _)]); [by left|].
    right. by exists x0.
  - apply confirm_run in H0 as (_ & Hg & _ & Hs & Hm & ->%check_cb_Ok & ->). right.
    eexists. split_and!; [by apply step_confirm| | |]; done.
  - unfold validate in H0. conf_inv. by left.
  - apply consume_run in H0 as (Hg & _ & Hs & ->%check_cb_Ok & ->). right.
    eexists. split_and!; [by apply step_consume| | |]; [done..|]. intros. by simplify_eq.
Qed.

(** ** Invariants of every store the service produces *)

Definition binding_sound (b : ConfirmationBinding) : Prop :=
  match cb_state b with
  | CONFIRMATION_REQUESTED => cb_confirmed_by_subject b = None
  | CONF_CONFIRMED | CONSUMED =>
      ∃ subject, cb_confirmed_by_subject b = Some subject ∧ confirmer_matches b subject = true
  | _ => True
  end.

Record store_sound (s : S) : Prop := {
  ss_ok : ok s;
  ss_binding : ∀ id b, cs_get id s = Some b → binding_sound b;
  ss_active : ∀ id1 id2 b1 b2,
    cs_get id1 s = Some b1 → cs_get id2 s = Some b2 →
    active_state (cb_state b1) = true → active_state (cb_state b2) = true →
    cb_action_id b1 = cb_action_id b2 → id1 = id2;
  ss_count : cs_count s <= max_bindings;
}.

Lemma conf_step_binding_sound s b : store_sound s → conf_step s b → binding_sound b.
Proof.
  intros Hs Hstep. destruct Hstep as [b _ Hst Hby _ _|b sj Hg Hst Hm|b Hg Hst].
  - unfold binding_sound. by rewrite Hst.
  - by exists sj.
  - pose proof (ss_binding s Hs _ _ Hg) as H. unfold binding_sound in *. rewrite Hst in H.
    exact H.
Qed.

(** A step that writes an active binding has no active rival. *)
Lemma conf_step_no_rival s b id b2 :
  store_sound s → conf_step s b → active_state (cb_state b) = true →
  cs_get id s = Some b2 → active_state (cb_state b2) = true →
  cb_action_id b2 = cb_action_id b → id = cb_confirmation_id b.
Proof.
  intros Hs Hstep Ha H2 Ha2 He. destruct Hstep as [b _ _ _ Hno _|b sj Hg Hst _|b Hg Hst].
  - exfalso. assert (cs_has_active (cb_action_id b) s = true) as Hc; [|congruence].
    apply (law_has_active (ok:=ok)); [by apply Hs|]. by exists id, b2.
  - apply (ss_active s Hs _ _ b2 b); try done. by apply active_state_true; left.
  - done.
Qed.

Lemma conf_step_sound s b : store_sound s → conf_step s b → store_sound (cs_put b s).
Proof.
  intros Hs Hstep. split.
  - apply (law_put_ok (ok:=ok)), Hs.
  - intros id b'. rewrite (law_get_put (ok:=ok)). case_decide; [|by apply Hs].
    intros [= <-]. by eapply conf_step_binding_sound.
  - intros id1 id2 b1 b2. rewrite !(law_get_put (ok:=ok)). intros H1 H2 A1 A2 He.
    repeat case_decide; simplify_eq; try done; try by eapply (ss_active s Hs).
    all: first [by eapply conf_step_no_rival | by symmetry; eapply conf_step_no_rival].
  - rewrite (law_count_put (ok:=ok)) by apply Hs. pose proof (ss_count s Hs).
    destruct Hstep as [b _ _ _ _ Hc|b sj Hg _ _|b Hg _]; cbn [cb_with_state cb_confirmation_id].
    + case_decide; lia.
    + rewrite decide_False by congruence. lia.
    + rewrite decide_False by congruence. lia.
Qed.

Lemma conf_step_get_consumed s b id b0 :
  conf_step s b → cs_get id s = Some b0 → cb_state b0 = CONSUMED →
  cs_get id (cs_put b s) = Some b0.
Proof.
  intros Hstep Hg Hst. rewrite (law_get_put (ok:=ok)). case_decide as E; [|done]. subst id.
  destruct Hstep; cbn in *; congruence.
Qed.

(** Number of calls of [l] that consumed confirmation [id]. *)
Fixpoint consumptions (id : string) (l : list (conf_call * result (option ConfirmationBinding)))
  : nat :=
  match l with
  | [] => 0
  | (CConsume b _, Ok _) :: l' =>
      (if str_eqb (cb_confirmation_id b) id then 1 else 0) + consumptions id l'
  | _ :: l' => consumptions id l'
  end.

Lemma consumptions_skip id c r l :
  (∀ b now, c = CConsume b now → is_ok r = false) →
  consumptions id ((c, r) :: l) = consumptions id l.
Proof.
  intros H. destruct c as [| | |b now]; try done. destruct r; [|done].
  by discriminate (H b now).
Qed.

Lemma consumed_never_again s l s' id b0 :
  served max_bindings s l s' → cs_get id s = Some b0 → cb_state b0 = CONSUMED →
  consumptions id l = 0%nat.
Proof.
  induction 1 as [|s c r s1 l s' Hrun _ IH]; [done|]. intros Hg Hst.
  destruct (run_conf_call_cases _ _ _ _ Hrun) as [[-> Hno]|(b & Hb & -> & -> & Hc)].
  - rewrite consumptions_skip by done. auto.
  - pose proof (IH (conf_step_get_consumed _ _ _ _ Hb Hg Hst) Hst) as IH'.
    destruct c as [| | |b1 now]; cbn; try done. rewrite IH'.
    destruct (Hc _ _ eq_refl) as [Hcs Hid].
    case_match eqn:E; [|done]. apply str_eqb_true in E. subst id.
    cbn in Hrun. inv_ok. apply consume_run in H as (Hg' & _ & Hs' & _ & _). congruence.
Qed.

(** C15: a confirmation authorises at most one action: in every history of
    calls on the service, over any store with the protocol's laws, at most
    one [consume] of a given confirmation id returns, whatever the
    interleaving with other requests, confirmations and failed calls. *)
Theorem confirmation_single_use s l s' id :
  served max_bindings s l s' → (consumptions id l <= 1)%nat.
Proof.
  induction 1 as [|s c r s1 l s' Hrun Hl IH]; [cbn; lia|].
  destruct (run_conf_call_cases _ _ _ _ Hrun) as [[-> Hno]|(b & Hb & -> & -> & Hc)].
  - by rewrite consumptions_skip.
  - destruct c as [| | |b1 now]; cbn; try done.
    destruct (Hc _ _ eq_refl) as [Hcs Hid].
    case_match eqn:E; [|done]. apply str_eqb_true in E. subst id.
    rewrite (consumed_never_again _ _ _ (cb_confirmation_id b1) b Hl); [lia| |done].
    rewrite (law_get_put (ok:=ok)). by rewrite decide_True.
Qed.

(** In every store the service reaches from a sound one, a confirmed or
    consumed binding names a confirmer of the required kind (the requester
    for owner confirmation, somebody else for distinct approval), an action
    has at most one active confirmation, and the configured bound on
    bindings holds. *)
Lemma confirmation_store_sound s l s' :
  served max_bindings s l s' → store_sound s → store_sound s'.
Proof.
  induction 1 as [|s c r s1 l s' Hrun _ IH]; [done|]. intros Hs. apply IH.
  destruct (run_conf_call_cases _ _ _ _ Hrun) as [[-> _]|(b & Hb & -> & _)]; [done|].
  by apply conf_step_sound.
Qed.

(** [confirm] and [consume] return exactly when the presented binding is
    the stored one, unexpired and in the one state the step starts from (and
    the confirmer has the required kind), and then write just the next state. *)
Lemma confirmation_steps_spec s s' b b' subject now :
  check_ConfirmationBinding b = Ok b →
  bounded_string subject MAX_ACTOR_ID SAFE_ID = Ok subject →
  (confirm b subject now s = (s', Ok b') ↔
     subject ≠ EmptyString ∧ cs_get (cb_confirmation_id b) s = Some b ∧
     now < cb_expires_at b ∧ cb_state b = CONFIRMATION_REQUESTED ∧
     confirmer_matches b subject = true ∧
     b' = cb_with_state CONF_CONFIRMED (Some subject) b ∧ s' = cs_put b' s) ∧
  (consume b now s = (s', Ok b') ↔
     cs_get (cb_confirmation_id b) s = Some b ∧ now < cb_expires_at b ∧
     cb_state b = CONF_CONFIRMED ∧
     b' = cb_with_state CONSUMED (cb_confirmed_by_subject b) b ∧ s' = cs_put b' s).
Proof.
  intros Hb Hsj. rewrite confirm_run, consume_run.
  assert (∀ by_, match by_ with
                 | None => Ok EmptyString | Some s => bounded_string s MAX_ACTOR_ID SAFE_ID
                 end = Ok (default EmptyString by_) →
            ∀ st, check_ConfirmationBinding (cb_with_state st by_ b) =
                  Ok (cb_with_state st by_ b)) as Hck.
  { intros by_ Hby st. unfold check_ConfirmationBinding in *. cbn in *. rewrite Hby.
    by repeat match type of Hb with
      | rbind ?r _ = Ok _ => destruct r; cbn in *; [|discriminate Hb]
      end. }
  rewrite !Hck; [naive_solver| |by cbn].
  unfold check_ConfirmationBinding in Hb. inv_ok.
  destruct (cb_confirmed_by_subject b) as [by0|]; [|done]. cbn.
  match goal with H : bounded_string by0 _ _ = Ok ?x |- _ =>
    by rewrite (bounded_string_id _ _ _ _ H) in H end.
Qed.

(** A requested binding carries exactly the identity, the plan digest,
    the target revision, the request and the kind of the decision it
    answers; it is only given to the decision's own principal, for an
    allowing, unexpired decision; it expires no later than the decision and
    the confirmation TTL, and is stored, awaiting confirmation. *)
Lemma request_confirmation_binds d subject now s s' b :
  ok s →
  request_confirmation max_bindings d subject now s = (s', Ok b) →
  ∃ i, ad_action_identity d = Some i ∧ ad_allowed d = true ∧
    ad_principal_subject d = Some subject ∧ now < ad_expires_at d ∧
    cb_action_id b = id_action_id i ∧ cb_decision_id b = ad_decision_id d ∧
    cb_state b = CONFIRMATION_REQUESTED ∧ cs_get (cb_confirmation_id b) s' = Some b ∧
    (s' ≠ s → cb_plan_digest b = id_plan_digest i ∧ cb_target_revision b = id_target_revision i ∧
       cb_confirmation_kind b = ad_confirmation_kind d ∧ cb_requester_subject b = subject ∧
       ad_request d = Some (cb_request b) ∧
       cb_expires_at b <= ad_expires_at d ∧ cb_expires_at b <= now + CONFIRMATION_TTL).
Proof.
  intros Hok (i & Hi & Ha & _ & He & Hp & [(-> & Hg & Hd)|(-> & Hst & Ha' & Hd & Hrest)])%request_run;
    exists i.
  - apply (law_get_active (ok:=ok)) in Hg as (Hg & Hac & Hst); [|done]. split_and!; done.
  - rewrite (law_get_put (ok:=ok)), decide_True by done.
    destruct Hrest as (?&?&?&?&?&?&?&?). split_and!; try done. intros _. split_and!; try done; lia.
Qed.
End laws.
