(* ===== verification/AuditLedger.v ===== *)
(** * AuditLedger: the hash-chained audit ledger (control_plane/audit/)

    [AuditEventDraft] is the sanitized logical content of one event
    (models.py, sanitize.py), its canonical payload and chain hash are those
    of canonical.py and chain.py, and [ledger] is [InMemoryAuditLedger] of
    repository.py.  The random [event_id] is a field of the draft.

    Results: a ledger written through [append] verifies, whatever was
    appended; and [verify_chain] makes history binding, i.e. two ledgers that
    verify and end in the same hash hold the same events. *)

From S2P Require Import Prelude PyStr PyTime Sha256 Json PyDict Models.
From Stdlib Require Import Ascii String ZArith Lia.
From stdpp Require Import base strings sorting list.

Local Open Scope string_scope.
Local Open Scope Z_scope.
Local Open Scope aipm_scope.

(** ** sanitize.py *)

Definition MAX_AUDIT_REASON : Z := 256.
Definition MAX_AUDIT_RESULT_CODE : Z := 64.
Definition MAX_AUDIT_ID : Z := 128.
Definition MAX_AUDIT_SUBJECT : Z := 128.

Definition SECRET_MARKERS : list string :=
  ["password"; "passwd"; "secret"; "token"; "cookie"; "csrf"; "bearer "; "authorization:";
   "argon2"; "$argon2"; "credential"; "private key"; "-----begin"; "api_key"; "apikey";
   "session_id="; "sessionid="].

(** Some marker occurs in the folded text. *)
Definition has_secret_marker (v : string) : bool :=
  List.existsb (λ marker, str_in marker (casefold v)) SECRET_MARKERS.

Definition assert_no_secret_material (v : string) : result string :=
  require negb (has_secret_marker v) else_raise AuditEventError;; Ok v.

Definition bounded_reason (v : string) : result string :=
  require slen v <=? MAX_AUDIT_REASON else_raise AuditEventError;;
  require negb (str_any is_control v) else_raise AuditEventError;;
  assert_no_secret_material v.

(** [bounded_code], [bounded_reference] and [bounded_subject] are one test
    with different maxima. *)
Definition bounded_text (maximum : Z) (v : string) : result string :=
  require str_nonempty v && (slen v <=? maximum) else_raise AuditEventError;;
  require negb (str_any is_control v) else_raise AuditEventError;;
  assert_no_secret_material v.

Definition bounded_code : string → result string := bounded_text MAX_AUDIT_RESULT_CODE.
Definition bounded_subject : string → result string := bounded_text MAX_AUDIT_SUBJECT.
(** [if value is not None: ...] around a check. *)
Definition optional {A} (f : A → result A) (v : option A) : result (option A) :=
  match v with None => Ok None | Some a => let* a' := f a in Ok (Some a') end.

Definition bounded_reference (maximum : Z) : option string → result (option string) :=
  optional (bounded_text maximum).

(** ** models.py *)

Module AuditEventType.
Inductive t :=
  | AUTHENTICATION_SUCCESS | AUTHENTICATION_FAILURE | SESSION_CREATED | SESSION_REVOKED
  | CREDENTIAL_EPOCH_ROTATED | AUTHORIZATION_REQUESTED | AUTHORIZATION_ALLOWED
  | AUTHORIZATION_DENIED | ACTION_CREATED | ACTION_IDEMPOTENCY_REPLAY
  | ACTION_IDEMPOTENCY_CONFLICT | OWNER_CONFIRMATION_REQUESTED | OWNER_CONFIRMED
  | OWNER_CONFIRMATION_REJECTED | OWNER_CONFIRMATION_CONSUMED | LIFECYCLE_TRANSITION
  | KILL_SWITCH_ENGAGED | KILL_SWITCH_DISENGAGED | KILL_SWITCH_PERMANENT | LEASE_ACQUIRED
  | LEASE_RELEASED | LEASE_EXPIRED | RECOVERY_STARTED | RECOVERY_COMPLETED | EXECUTION_STARTED
  | EXECUTION_SUCCEEDED | EXECUTION_FAILED | VERIFICATION_STARTED | VERIFICATION_SUCCEEDED
  | VERIFICATION_FAILED | ROLLBACK_REQUESTED | ROLLBACK_SUCCEEDED | ROLLBACK_FAILED
  | REGISTRATION_CREATED | REGISTRATION_DISABLED | REGISTRATION_REVOKED | SYSTEM_ERROR.
End AuditEventType.
#[export] Instance AuditEventType_eq_dec : EqDecision AuditEventType.t.
Proof. solve_decision. Defined.
#[export] Instance AuditEventType_value : EnumValue AuditEventType.t := λ t,
  match t with
  | AuditEventType.AUTHENTICATION_SUCCESS => "authentication_success"
  | AuditEventType.AUTHENTICATION_FAILURE => "authentication_failure"
  | AuditEventType.SESSION_CREATED => "session_created"
  | AuditEventType.SESSION_REVOKED => "session_revoked"
  | AuditEventType.CREDENTIAL_EPOCH_ROTATED => "credential_epoch_rotated"
  | AuditEventType.AUTHORIZATION_REQUESTED => "authorization_requested"
  | AuditEventType.AUTHORIZATION_ALLOWED => "authorization_allowed"
  | AuditEventType.AUTHORIZATION_DENIED => "authorization_denied"
  | AuditEventType.ACTION_CREATED => "action_created"
  | AuditEventType.ACTION_IDEMPOTENCY_REPLAY => "action_idempotency_replay"
  | AuditEventType.ACTION_IDEMPOTENCY_CONFLICT => "action_idempotency_conflict"
  | AuditEventType.OWNER_CONFIRMATION_REQUESTED => "owner_confirmation_requested"
  | AuditEventType.OWNER_CONFIRMED => "owner_confirmed"
  | AuditEventType.OWNER_CONFIRMATION_REJECTED => "owner_confirmation_rejected"
  | AuditEventType.OWNER_CONFIRMATION_CONSUMED => "owner_confirmation_consumed"
  | AuditEventType.LIFECYCLE_TRANSITION => "lifecycle_transition"
  | AuditEventType.KILL_SWITCH_ENGAGED => "kill_switch_engaged"
  | AuditEventType.KILL_SWITCH_DISENGAGED => "kill_switch_disengaged"
  | AuditEventType.KILL_SWITCH_PERMANENT => "kill_switch_permanent"
  | AuditEventType.LEASE_ACQUIRED => "lease_acquired"
  | AuditEventType.LEASE_RELEASED => "lease_released"
  | AuditEventType.LEASE_EXPIRED => "lease_expired"
  | AuditEventType.RECOVERY_STARTED => "recovery_started"
  | AuditEventType.RECOVERY_COMPLETED => "recovery_completed"
  | AuditEventType.EXECUTION_STARTED => "execution_started"
  | AuditEventType.EXECUTION_SUCCEEDED => "execution_succeeded"
  | AuditEventType.EXECUTION_FAILED => "execution_failed"
  | AuditEventType.VERIFICATION_STARTED => "verification_started"
  | AuditEventType.VERIFICATION_SUCCEEDED => "verification_succeeded"
  | AuditEventType.VERIFICATION_FAILED => "verification_failed"
  | AuditEventType.ROLLBACK_REQUESTED => "rollback_requested"
  | AuditEventType.ROLLBACK_SUCCEEDED => "rollback_succeeded"
  | AuditEventType.ROLLBACK_FAILED => "rollback_failed"
  | AuditEventType.REGISTRATION_CREATED => "registration_created"
  | AuditEventType.REGISTRATION_DISABLED => "registration_disabled"
  | AuditEventType.REGISTRATION_REVOKED => "registration_revoked"
  | AuditEventType.SYSTEM_ERROR => "system_error"
  end.
#[export] Instance AuditEventType_inj : Inj (=) (=) (value (A:=AuditEventType.t)).
Proof. intros [] []; cbn; congruence. Qed.

Inductive AuditActorRole :=
  | REQUESTER | CONFIRMER | VERIFIER | EXECUTOR | KILL_SWITCH_OPERATOR | REGISTRATION_OPERATOR
  | AUDITOR | SYSTEM.
#[export] Instance AuditActorRole_eq_dec : EqDecision AuditActorRole.
Proof. solve_decision. Defined.
#[export] Instance AuditActorRole_value : EnumValue AuditActorRole := λ r,
  match r with
  | REQUESTER => "requester" | CONFIRMER => "confirmer" | VERIFIER => "verifier"
  | EXECUTOR => "executor" | KILL_SWITCH_OPERATOR => "kill_switch_operator"
  | REGISTRATION_OPERATOR => "registration_operator" | AUDITOR => "auditor" | SYSTEM => "system"
  end.
#[export] Instance AuditActorRole_inj : Inj (=) (=) (value (A:=AuditActorRole)).
Proof. intros [] []; cbn; congruence. Qed.

Definition SYSTEM_ACTOR_SUBJECT : string := "control-plane-system".
Definition UNAUTHENTICATED_ACTOR_SUBJECT : string := "unauthenticated".

Record AuditEventDraft := {
  ae_event_type : AuditEventType.t;
  ae_actor_subject : string;
  ae_occurred_at : datetime;
  ae_event_id : string;
  ae_actor_role : AuditActorRole;
  ae_action_id : option string;
  ae_plan_id : option string;
  ae_plan_revision : option Z;
  ae_plan_digest : option string;
  ae_target_id : option string;
  ae_environment : option string;
  ae_operation : option string;
  ae_decision_id : option string;
  ae_confirmation_id : option string;
  ae_lease_id : option string;
  ae_parent_event_id : option string;
  ae_policy_version : option string;
  ae_lifecycle_from : option string;
  ae_lifecycle_to : option string;
  ae_result_code : option string;
  ae_reason : option string;
}.
#[export] Instance AuditEventDraft_eq_dec : EqDecision AuditEventDraft.
Proof. solve_decision. Defined.

(** [AuditEventDraft.__post_init__] *)
Definition check_AuditEventDraft (d : AuditEventDraft) : result AuditEventDraft :=
  let* _ := bounded_subject (ae_actor_subject d) in
  let* _ := rmap (bounded_reference MAX_AUDIT_ID)
    [ae_action_id d; ae_plan_id d; ae_target_id d; ae_decision_id d; ae_confirmation_id d;
     ae_lease_id d; ae_parent_event_id d] in
  let* _ := rmap (bounded_reference 128)
    [ae_policy_version d; ae_environment d; ae_operation d; ae_lifecycle_from d;
     ae_lifecycle_to d] in
  require match ae_plan_revision d with Some r => 1 <=? r | None => true end
    else_raise AuditEventError;;
  let* _ := bounded_reference 64 (ae_plan_digest d) in
  let* _ := optional bounded_code (ae_result_code d) in
  let* _ := optional bounded_reason (ae_reason d) in
  Ok d.

(** ** canonical.py and chain.py *)

Definition AUDIT_CHAIN_VERSION : string := "mc612-audit-v1".

(** A payload with its [None] entries still in place. *)
Definition payload : Type := list (string * option json).

(** [{key: value for key, value in payload.items() if value is not None}] *)
Fixpoint cleaned (p : payload) : list (string * json) :=
  match p with
  | [] => []
  | (k, Some v) :: p' => (k, v) :: cleaned p'
  | (_, None) :: p' => cleaned p'
  end.

Definition canonical_audit_payload (p : payload) : string := dumps (JObj (cleaned p)).

(** [AuditEventDraft.logical_payload] *)
Definition logical_payload (d : AuditEventDraft) : payload :=
  [("actor_role", Some (JStr (value (ae_actor_role d))));
   ("actor_subject", Some (JStr (ae_actor_subject d)));
   ("chain_version", Some (JStr AUDIT_CHAIN_VERSION));
   ("event_type", Some (JStr (value (ae_event_type d))));
   ("occurred_at", Some (JStr (isoformat (ae_occurred_at d))));
   ("action_id", JStr <$> ae_action_id d);
   ("confirmation_id", JStr <$> ae_confirmation_id d);
   ("decision_id", JStr <$> ae_decision_id d);
   ("environment", JStr <$> ae_environment d);
   ("lifecycle_from", JStr <$> ae_lifecycle_from d);
   ("lifecycle_to", JStr <$> ae_lifecycle_to d);
   ("lease_id", JStr <$> ae_lease_id d);
   ("operation", JStr <$> ae_operation d);
   ("parent_event_id", JStr <$> ae_parent_event_id d);
   ("plan_digest", JStr <$> ae_plan_digest d);
   ("plan_id", JStr <$> ae_plan_id d);
   ("plan_revision", JInt <$> ae_plan_revision d);
   ("policy_version", JStr <$> ae_policy_version d);
   ("reason", JStr <$> ae_reason d);
   ("result_code", JStr <$> ae_result_code d);
   ("target_id", JStr <$> ae_target_id d)].

Definition chain_fields (d : AuditEventDraft) (previous_hash : string) (sequence : Z) : payload :=
  (logical_payload d ++
   [("event_id", Some (JStr (ae_event_id d))); ("previous_hash", Some (JStr previous_hash));
    ("sequence", Some (JInt sequence))])%list.

Definition GENESIS_PREVIOUS_HASH : string := sha256_hex (AUDIT_CHAIN_VERSION ++ ":genesis").

Definition newline : string := String (ascii_of_nat 10) EmptyString.

(** The text whose SHA-256 is the event hash. *)
Definition chain_text (previous_hash : string) (p : payload) : string :=
  previous_hash ++ newline ++ canonical_audit_payload p.

Definition compute_event_hash (previous_hash : string) (p : payload) : result string :=
  require slen previous_hash =? 64 else_raise ValueError;;
  Ok (sha256_hex (chain_text previous_hash p)).

Record AuditEvent := {
  ev_sequence : Z;
  ev_previous_hash : string;
  ev_event_hash : string;
  ev_draft : AuditEventDraft;
}.
#[export] Instance AuditEvent_eq_dec : EqDecision AuditEvent.
Proof. solve_decision. Defined.

(** [AuditEvent.__post_init__] *)
Definition check_AuditEvent (e : AuditEvent) : result AuditEvent :=
  require 1 <=? ev_sequence e else_raise AuditEventError;;
  require slen (ev_previous_hash e) =? 64 else_raise AuditEventError;;
  require slen (ev_event_hash e) =? 64 else_raise AuditEventError;;
  Ok e.

Definition chain_payload (e : AuditEvent) : payload :=
  chain_fields (ev_draft e) (ev_previous_hash e) (ev_sequence e).

Definition event_text (e : AuditEvent) : string := chain_text (ev_previous_hash e) (chain_payload e).

(** [ChainVerificationResult]: the message is dropped. *)
Record ChainVerificationResult := {
  cv_ok : bool;
  cv_events_checked : Z;
  cv_error_sequence : option Z;
}.

(** ** repository.py: InMemoryAuditLedger *)

Record ledger := {
  lg_max_events : Z;
  lg_events : list AuditEvent;
}.

Definition new_InMemoryAuditLedger (max_events : Z) : result ledger :=
  require negb (max_events <? 1) else_raise ValueError;;
  Ok {| lg_max_events := max_events; lg_events := [] |}.

Definition storage_corrupt : exn := ControlPlaneError STORAGE_CORRUPT.

Definition last_hash (es : list AuditEvent) : string :=
  match last es with Some e => ev_event_hash e | None => GENESIS_PREVIOUS_HASH end.

Definition append_in_transaction (d : AuditEventDraft) : M ledger AuditEvent :=
  do l <- getM;;
  assert_ negb (List.existsb (λ e, str_eqb (ae_event_id (ev_draft e)) (ae_event_id d)) (lg_events l))
    else_raise storage_corrupt;;
  assert_ negb (lg_max_events l <=? Z.of_nat (length (lg_events l))) else_raise storage_corrupt;;
  let sequence := Z.of_nat (length (lg_events l)) + 1 in
  let previous_hash := last_hash (lg_events l) in
  do event_hash <- liftM (compute_event_hash previous_hash (chain_fields d previous_hash sequence));;
  do event <- liftM (check_AuditEvent
    {| ev_sequence := sequence; ev_previous_hash := previous_hash; ev_event_hash := event_hash;
       ev_draft := d |});;
  do_ modifyM (λ l, {| lg_max_events := lg_max_events l; lg_events := (lg_events l ++ [event])%list |});;
  retM event.

(** [append] *)
Definition ledger_append (d : AuditEventDraft) : M ledger AuditEvent := append_in_transaction d.

Definition ledger_count (l : ledger) : Z := Z.of_nat (length (lg_events l)).

(** [events(limit)]: the last [limit] events. *)
Definition ledger_events (limit : Z) (l : ledger) : result (list AuditEvent) :=
  require negb ((limit <? 1) || (4096 <? limit)) else_raise ValueError;;
  Ok (drop (length (lg_events l) - Z.to_nat limit) (lg_events l)).

(** [verify_chain]: the loop over [enumerate(self._events, start=1)]. *)
Fixpoint verify_from (expected_sequence : Z) (previous_hash : string) (es : list AuditEvent)
  : result ChainVerificationResult :=
  match es with
  | [] => Ok {| cv_ok := true; cv_events_checked := expected_sequence - 1; cv_error_sequence := None |}
  | e :: es' =>
      if negb (ev_sequence e =? expected_sequence) then
        Ok {| cv_ok := false; cv_events_checked := expected_sequence - 1;
              cv_error_sequence := Some expected_sequence |}
      else if negb (str_eqb (ev_previous_hash e) previous_hash) then
        Ok {| cv_ok := false; cv_events_checked := expected_sequence - 1;
              cv_error_sequence := Some (ev_sequence e) |}
      else
        let* expected_hash := compute_event_hash (ev_previous_hash e) (chain_payload e) in
        if negb (str_eqb (ev_event_hash e) expected_hash) then
          Ok {| cv_ok := false; cv_events_checked := expected_sequence - 1;
                cv_error_sequence := Some (ev_sequence e) |}
        else verify_from (expected_sequence + 1) (ev_event_hash e) es'
  end.

Definition verify_chain (l : ledger) : result ChainVerificationResult :=
  verify_from 1 GENESIS_PREVIOUS_HASH (lg_events l).

(** ** Specification *)

(** The free-text fields a producer controls. *)
Definition draft_texts (d : AuditEventDraft) : list string :=
  ae_actor_subject d :: omap id
    [ae_action_id d; ae_plan_id d; ae_target_id d; ae_decision_id d; ae_confirmation_id d;
     ae_lease_id d; ae_parent_event_id d; ae_policy_version d; ae_environment d; ae_operation d;
     ae_lifecycle_from d; ae_lifecycle_to d; ae_plan_digest d; ae_result_code d; ae_reason d].

(** What an intact ledger is, newest event last. *)
Inductive chained : list AuditEvent → Prop :=
  | chained_nil : chained []
  | chained_snoc es e :
      chained es → ev_sequence e = Z.of_nat (length es) + 1 → ev_previous_hash e = last_hash es →
      ev_event_hash e = sha256_hex (event_text e) → chained (es ++ [e])%list.

(** Every text that is hashed along a ledger. *)
Definition hashed_texts (es : list AuditEvent) : list string :=
  (AUDIT_CHAIN_VERSION ++ ":genesis") :: List.map event_text es.

Fixpoint append_all (ds : list AuditEventDraft) (l : ledger) : ledger :=
  match ds with [] => l | d :: ds' => append_all ds' (fst (ledger_append d l)) end.

(** ** Lemmas *)

Lemma obj_get_inj (l1 l2 : list (string * json)) :
  dwf l1 → dwf l2 → dumps (JObj l1) = dumps (JObj l2) →
  ∀ k, canon <$> dget k l1 = canon <$> dget k l2.
Proof.
  intros H1 H2 H k. apply dumps_inj in H. cbn in H. injection H as H.
  rewrite <-!dget_map.
  assert (∀ l : list (string * json), dwf l → dwf (List.map (λ kv, (kv.1, canon kv.2)) l)) as Hm.
  { intros l. unfold dwf, dkeys. by rewrite <-list_fmap_compose. }
  transitivity (dget k (sort_keys (List.map (λ kv, (kv.1, canon kv.2)) l1))).
  - symmetry. apply dget_perm; [|apply sort_keys_perm]. unfold dwf, dkeys. rewrite sort_keys_perm.
    by apply Hm.
  - rewrite H. apply dget_perm; [|apply sort_keys_perm]. unfold dwf, dkeys. rewrite sort_keys_perm.
    by apply Hm.
Qed.

Lemma cleaned_keys p k : k ∈ dkeys (cleaned p) → k ∈ dkeys p.
Proof.
  unfold dkeys. induction p as [|[k' [v|]] p IH]; cbn; [done| |]; rewrite ?elem_of_cons; naive_solver.
Qed.
Lemma cleaned_wf p : dwf p → dwf (cleaned p).
Proof.
  unfold dwf, dkeys. induction p as [|[k [v|]] p IH]; cbn; [done| |];
    intros [Hn Hd]%NoDup_cons; auto.
  apply NoDup_cons. split; [|auto]. intros Hk. by apply Hn, cleaned_keys.
Qed.
Lemma cleaned_get p k : dwf p → dget k (cleaned p) = mjoin (dget k p).
Proof.
  unfold dwf, dkeys. induction p as [|[k' [v|]] p IH]; cbn; [done| |]; intros [Hn Hd]%NoDup_cons;
    case_decide; subst; cbn; auto.
  apply dget_None. intros Hk. by apply Hn, cleaned_keys.
Qed.

Lemma canonical_get_inj p1 p2 :
  dwf p1 → dwf p2 → canonical_audit_payload p1 = canonical_audit_payload p2 →
  ∀ k, canon <$> mjoin (dget k p1) = canon <$> mjoin (dget k p2).
Proof.
  intros H1 H2 H k. pose proof (obj_get_inj _ _ (cleaned_wf _ H1) (cleaned_wf _ H2) H k) as E.
  by rewrite !cleaned_get in E.
Qed.

Lemma chain_fields_wf d h n : dwf (chain_fields d h n).
Proof. unfold dwf, dkeys. cbn. by apply (bool_decide_unpack _); vm_compute. Qed.

Lemma fmap_JStr_inj (a b : option string) : canon <$> (JStr <$> a) = canon <$> (JStr <$> b) → a = b.
Proof. destruct a, b; cbn; congruence. Qed.
Lemma fmap_JInt_inj (a b : option Z) : canon <$> (JInt <$> a) = canon <$> (JInt <$> b) → a = b.
Proof. destruct a, b; cbn; congruence. Qed.

Lemma chain_fields_inj d1 d2 h1 h2 n1 n2 :
  valid_datetime (ae_occurred_at d1) → valid_datetime (ae_occurred_at d2) →
  canonical_audit_payload (chain_fields d1 h1 n1) = canonical_audit_payload (chain_fields d2 h2 n2) →
  d1 = d2 ∧ h1 = h2 ∧ n1 = n2.
Proof.
  intros V1 V2 H. pose proof (canonical_get_inj _ _ (chain_fields_wf _ _ _) (chain_fields_wf _ _ _) H) as G.
  clear H.
  pose proof (G "sequence") as E1. pose proof (G "previous_hash") as E2. cbn in E1, E2.
  split; [|by simplify_eq]. clear E1 E2.
  pose proof (G "actor_role") as E1. pose proof (G "actor_subject") as E2.
  pose proof (G "event_type") as E3. pose proof (G "occurred_at") as E4.
  pose proof (G "event_id") as E5. cbn -[value isoformat] in E1, E2, E3, E4, E5.
  injection E1 as E1%(inj value). injection E2 as E2. injection E3 as E3%(inj value).
  injection E4 as E4%isoformat_inj; [|done..]. injection E5 as E5.
  pose proof (fmap_JStr_inj _ _ (G "action_id")). pose proof (fmap_JStr_inj _ _ (G "confirmation_id")).
  pose proof (fmap_JStr_inj _ _ (G "decision_id")). pose proof (fmap_JStr_inj _ _ (G "environment")).
  pose proof (fmap_JStr_inj _ _ (G "lifecycle_from")). pose proof (fmap_JStr_inj _ _ (G "lifecycle_to")).
  pose proof (fmap_JStr_inj _ _ (G "lease_id")). pose proof (fmap_JStr_inj _ _ (G "operation")).
  pose proof (fmap_JStr_inj _ _ (G "parent_event_id")). pose proof (fmap_JStr_inj _ _ (G "plan_digest")).
  pose proof (fmap_JStr_inj _ _ (G "plan_id")). pose proof (fmap_JInt_inj _ _ (G "plan_revision")).
  pose proof (fmap_JStr_inj _ _ (G "policy_version")). pose proof (fmap_JStr_inj _ _ (G "reason")).
  pose proof (fmap_JStr_inj _ _ (G "result_code")). pose proof (fmap_JStr_inj _ _ (G "target_id")).
  clear G. destruct d1, d2; cbn in *. by subst.
Qed.

Lemma app_prefix_inj a1 a2 b1 b2 :
  slen a1 = slen a2 → (a1 ++ b1 = a2 ++ b2)%string → a1 = a2 ∧ b1 = b2.
Proof.
  unfold slen. intros Hl%Nat2Z.inj. revert a2 Hl.
  induction a1 as [|c a1 IH]; intros [|c2 a2]; simpl; intros; simplify_eq.
  - done.
  - by edestruct (IH a2) as [-> ->].
Qed.

Lemma chain_text_inj d1 d2 h1 h2 n1 n2 :
  valid_datetime (ae_occurred_at d1) → valid_datetime (ae_occurred_at d2) →
  slen h1 = 64 → slen h2 = 64 →
  chain_text h1 (chain_fields d1 h1 n1) = chain_text h2 (chain_fields d2 h2 n2) →
  d1 = d2 ∧ h1 = h2 ∧ n1 = n2.
Proof.
  unfold chain_text. intros V1 V2 L1 L2 [_ E]%app_prefix_inj; [|congruence].
  apply app_prefix_inj in E as [_ E]; [|done]. by apply chain_fields_inj in E.
Qed.

Lemma compute_event_hash_Ok h p r :
  compute_event_hash h p = Ok r ↔ slen h = 64 ∧ r = sha256_hex (chain_text h p).
Proof.
  unfold compute_event_hash. destruct (Z.eqb_spec (slen h) 64); cbn; split; intros; naive_solver.
Qed.

Lemma last_hash_snoc es e : last_hash (es ++ [e])%list = ev_event_hash e.
Proof. unfold last_hash. by rewrite last_snoc. Qed.

Lemma chained_last_len es : chained es → slen (last_hash es) = 64.
Proof.
  intros [|es' e _ _ _ Hh]; [apply sha256_hex_len|]. rewrite last_hash_snoc, Hh. apply sha256_hex_len.
Qed.

Lemma chained_snoc_inv es e :
  chained (es ++ [e])%list →
  chained es ∧ ev_sequence e = Z.of_nat (length es) + 1 ∧ ev_previous_hash e = last_hash es ∧
  ev_event_hash e = sha256_hex (event_text e).
Proof.
  intros H. inversion H as [E|es' e' ? ? ? ? E]; [by destruct es|].
  by apply app_inj_tail in E as [-> ->].
Qed.

Lemma chained_app_inv es1 es2 : chained (es1 ++ es2)%list → chained es1.
Proof.
  induction es2 as [|e es2 IH] using rev_ind; [by rewrite app_nil_r|].
  rewrite app_assoc. intros [H _]%chained_snoc_inv. auto.
Qed.

(** [verify_from] after an intact prefix decides whether the whole is intact. *)
Lemma verify_from_spec pre es :
  chained pre →
  ∃ c, verify_from (Z.of_nat (length pre) + 1) (last_hash pre) es = Ok c ∧
    (cv_ok c = true ↔ chained (pre ++ es)%list) ∧
    (cv_ok c = true → c = {| cv_ok := true; cv_events_checked := Z.of_nat (length (pre ++ es));
                             cv_error_sequence := None |}).
Proof.
  revert pre. induction es as [|e es IH]; intros pre Hpre; cbn [verify_from].
  { eexists. split; [done|]. rewrite app_nil_r. split; [done|]. intros _. f_equal. lia. }
  assert (chained (pre ++ e :: es)%list → chained (pre ++ [e])%list) as Hinv.
  { change (pre ++ e :: es)%list with (pre ++ ([e] ++ es))%list. rewrite app_assoc.
    apply chained_app_inv. }
  destruct (Z.eqb_spec (ev_sequence e) (Z.of_nat (length pre) + 1)) as [Hseq|Hseq]; cbn [negb].
  2: { eexists. split; [done|]. split; [|done]. split; [done|].
       by intros (_ & ? & _)%Hinv%chained_snoc_inv. }
  unfold str_eqb. case_bool_decide as Hprev; cbn [negb].
  2: { eexists. split; [done|]. split; [|done]. split; [done|].
       by intros (_ & _ & ? & _)%Hinv%chained_snoc_inv. }
  assert (compute_event_hash (ev_previous_hash e) (chain_payload e) = Ok (sha256_hex (event_text e))) as ->.
  { apply compute_event_hash_Ok. split; [|done]. rewrite Hprev. by apply chained_last_len. }
  cbn [rbind]. case_bool_decide as Hh; cbn [negb].
  2: { eexists. split; [done|]. split; [|done]. split; [done|].
       by intros (_ & _ & _ & ?)%Hinv%chained_snoc_inv. }
  destruct (IH (pre ++ [e])%list) as (c & Hc & Hok); [by constructor|].
  rewrite <-app_assoc in Hok. exists c. split; [|done]. rewrite <-Hc, last_hash_snoc. f_equal.
  rewrite length_app. cbn. lia.
Qed.

Lemma verify_chain_spec l :
  ∃ c, verify_chain l = Ok c ∧ (cv_ok c = true ↔ chained (lg_events l)) ∧
    (cv_ok c = true → c = {| cv_ok := true; cv_events_checked := ledger_count l;
                             cv_error_sequence := None |}).
Proof. apply (verify_from_spec [] (lg_events l)), chained_nil. Qed.

(** What one append does. *)
Lemma ledger_append_run d l l' r :
  ledger_append d l = (l', r) →
  (l' = l ∧ is_ok r = false) ∨
  (∃ e, r = Ok e ∧ ev_draft e = d ∧ lg_max_events l' = lg_max_events l ∧
    lg_events l' = (lg_events l ++ [e])%list ∧
    ev_sequence e = Z.of_nat (length (lg_events l)) + 1 ∧
    ev_previous_hash e = last_hash (lg_events l) ∧ ev_event_hash e = sha256_hex (event_text e) ∧
    ae_event_id d ∉ List.map (λ e, ae_event_id (ev_draft e)) (lg_events l) ∧
    Z.of_nat (length (lg_events l)) < lg_max_events l).
Proof.
  intros H. destruct r as [e|ex].
  - right. unfold ledger_append, append_in_transaction in H. inv_ok.
    match goal with Hc : compute_event_hash _ _ = Ok _ |- _ => apply compute_event_hash_Ok in Hc as [? ->] end.
    unfold check_AuditEvent in *. inv_ok. eexists. split_and!; cbn; try done; [|by apply Z.leb_gt].
    intros Hin. apply list_elem_of_In, List.in_map_iff in Hin as (e & He & Hin).
    match goal with Hx : List.existsb _ _ = false |- _ => rename Hx into Hex end.
    apply not_true_iff_false in Hex. apply Hex, List.existsb_exists. exists e. split; [done|].
    by apply bool_decide_eq_true.
  - left. split; [|done]. revert H. unfold ledger_append, append_in_transaction.
    assert (atomic (append_in_transaction d)) as Ha; [unfold append_in_transaction; solve_atomic|].
    apply Ha.
Qed.

(** The ledger's own invariant. *)
Record ledger_sound (l : ledger) : Prop := {
  ls_chained : chained (lg_events l);
  ls_ids : NoDup (List.map (λ e, ae_event_id (ev_draft e)) (lg_events l));
  ls_bound : Z.of_nat (length (lg_events l)) <= lg_max_events l;
}.

Lemma ledger_append_sound d l : ledger_sound l → ledger_sound (fst (ledger_append d l)).
Proof.
  destruct (ledger_append d l) as [l' r] eqn:E. cbn. intros [Hc Hi Hb].
  apply ledger_append_run in E as [[-> _]|(e & -> & Hd & Hm & Hl & Hs & Hp & Hh & Hni & Hlt)]; [by split|].
  split.
  - rewrite Hl. by constructor.
  - rewrite Hl, List.map_app. cbn. apply NoDup_app. split_and!; [done| |apply NoDup_singleton].
    intros x Hx ->%list_elem_of_singleton. by rewrite Hd in Hx.
  - rewrite Hl, Hm, length_app. cbn. lia.
Qed.

Lemma append_all_sound ds l : ledger_sound l → ledger_sound (append_all ds l).
Proof. revert l. induction ds as [|d ds IH]; intros l Hl; [done|]. by apply IH, ledger_append_sound. Qed.

Lemma ledger_append_prefix d l : lg_events l `prefix_of` lg_events (fst (ledger_append d l)).
Proof.
  destruct (ledger_append d l) as [l' r] eqn:E. cbn.
  apply ledger_append_run in E as [[-> _]|(e & _ & _ & _ & -> & _)]; [done|by exists [e]].
Qed.

Lemma bounded_text_Ok m v v' :
  bounded_text m v = Ok v' →
  v' = v ∧ has_secret_marker v = false ∧ str_any is_control v = false ∧ slen v <= m.
Proof. unfold bounded_text, assert_no_secret_material. intros H. inv_ok. split_and!; try done. lia. Qed.

Definition clean_text (v : string) : Prop :=
  has_secret_marker v = false ∧ str_any is_control v = false ∧ slen v <= MAX_AUDIT_REASON.

Lemma bounded_text_clean m v v' : m <= MAX_AUDIT_REASON → bounded_text m v = Ok v' → clean_text v.
Proof. intros Hm (_ & ? & ? & ?)%bounded_text_Ok. split_and!; [done..|lia]. Qed.
Lemma bounded_reason_clean v v' : bounded_reason v = Ok v' → clean_text v.
Proof.
  unfold bounded_reason, assert_no_secret_material. intros H. inv_ok. split_and!; [done..|lia].
Qed.
Lemma optional_clean (f : string → result string) o o' v :
  (∀ v v', f v = Ok v' → clean_text v) → optional f o = Ok o' → o = Some v → clean_text v.
Proof. intros Hf H ->. cbn in H. inv_ok. eauto. Qed.

Lemma rmap_reference_clean m l l' v :
  m <= MAX_AUDIT_REASON → rmap (bounded_reference m) l = Ok l' → Some v ∈ l → clean_text v.
Proof.
  intros Hm H%rmap_Ok Hin. apply list_elem_of_lookup in Hin as [i Hi].
  destruct (Forall2_lookup_l _ _ _ _ _ H Hi) as (o & _ & Ho).
  eapply optional_clean; [|exact Ho|done]. intros ? ?. by apply bounded_text_clean.
Qed.

Lemma append_all_max ds l : lg_max_events (append_all ds l) = lg_max_events l.
Proof.
  revert l. induction ds as [|d ds IH]; intros l; [done|]. cbn [append_all]. rewrite IH.
  destruct (ledger_append d l) as [l' r] eqn:E. cbn.
  by apply ledger_append_run in E as [[-> _]|(e & _ & _ & ? & _)].
Qed.

Lemma append_all_prefix ds l : lg_events l `prefix_of` lg_events (append_all ds l).
Proof.
  revert l. induction ds as [|d ds IH]; intros l; [done|]. cbn [append_all].
  etrans; [apply ledger_append_prefix|apply IH].
Qed.

Lemma hashed_texts_snoc es e t :
  t ∈ hashed_texts es → t ∈ hashed_texts (es ++ [e])%list.
Proof. unfold hashed_texts. rewrite List.map_app. rewrite !elem_of_cons, elem_of_app. tauto. Qed.

Lemma hashed_texts_last es e : event_text e ∈ hashed_texts (es ++ [e])%list.
Proof. unfold hashed_texts. rewrite List.map_app. right. apply elem_of_app. right. by left. Qed.

Lemma genesis_not_event e :
  slen (ev_previous_hash e) = 64 → (AUDIT_CHAIN_VERSION ++ ":genesis")%string ≠ event_text e.
Proof.
  intros H E. apply (f_equal slen) in E. unfold event_text, chain_text in E.
  change (slen (AUDIT_CHAIN_VERSION ++ ":genesis")) with 22 in E.
  rewrite !slen_app, H in E. pose proof (slen_nonneg (canonical_audit_payload (chain_payload e))).
  change (slen newline) with 1 in E. lia.
Qed.

Lemma chained_genesis es e :
  chained (es ++ [e])%list → GENESIS_PREVIOUS_HASH = last_hash (es ++ [e])%list →
  collision (AUDIT_CHAIN_VERSION ++ ":genesis") (event_text e).
Proof.
  intros (Hc & _ & Hp & Hh)%chained_snoc_inv E. rewrite last_hash_snoc, Hh in E. split; [|done].
  apply genesis_not_event. rewrite Hp. by apply chained_last_len.
Qed.

Lemma collision_sym a b : collision a b → collision b a.
Proof. intros [? ?]. by split. Qed.

Lemma chained_binding es1 es2 :
  (∀ e, e ∈ (es1 ++ es2)%list → valid_datetime (ae_occurred_at (ev_draft e))) →
  chained es1 → chained es2 → last_hash es1 = last_hash es2 →
  es1 = es2 ∨ ∃ t1 t2, t1 ∈ hashed_texts es1 ∧ t2 ∈ hashed_texts es2 ∧ collision t1 t2.
Proof.
  revert es2. induction es1 as [|e1 es1 IH] using rev_ind; intros es2 Hv C1 C2 E;
    destruct es2 as [|e2 es2 _] using rev_ind; [by left| | |].
  - right. eexists _, _. split_and!; [by left|apply hashed_texts_last|by eapply chained_genesis].
  - right. eexists _, _. split_and!; [apply hashed_texts_last|by left|].
    apply collision_sym. by eapply chained_genesis.
  - destruct (decide (event_text e1 = event_text e2)) as [Et|Et].
    + apply chained_snoc_inv in C1 as (C1 & S1 & P1 & H1), C2 as (C2 & S2 & P2 & H2).
      rewrite !last_hash_snoc in E. unfold event_text, chain_payload in Et.
      apply chain_text_inj in Et as (Ed & Ep & Es).
      2, 3: apply Hv; rewrite !elem_of_app, !list_elem_of_singleton; tauto.
      2, 3: rewrite ?P1, ?P2; by apply chained_last_len.
      assert (e1 = e2) as -> by (clear - Ed Ep Es E; destruct e1, e2; cbn in *; by subst).
      edestruct (IH es2) as [->|(t1 & t2 & ? & ? & ?)]; [ |exact C1|exact C2|congruence|by left| ].
      * intros e. specialize (Hv e). rewrite !elem_of_app in *. tauto.
      * right. exists t1, t2. split_and!; [by apply hashed_texts_snoc..|done].
    + right. eexists _, _. split_and!; [apply hashed_texts_last..|]. split; [done|].
      apply chained_snoc_inv in C1 as (_ & _ & _ & H1), C2 as (_ & _ & _ & H2).
      rewrite !last_hash_snoc in E. congruence.
Qed.

(** A text [bounded_text] accepts. *)
Definition clean_ref (m : Z) (v : string) : Prop :=
  v ≠ EmptyString ∧ slen v <= m ∧ str_any is_control v = false ∧ has_secret_marker v = false.

Lemma clean_ref_text m v : clean_ref m v → bounded_text m v = Ok v.
Proof.
  intros (Hn & Hl & Hc & Hs). unfold bounded_text, assert_no_secret_material.
  assert (str_nonempty v = true) as -> by by destruct v.
  by rewrite (proj2 (Z.leb_le _ _) Hl), Hc, Hs.
Qed.
Lemma clean_ref_reference m v : clean_ref m v → bounded_reference m (Some v) = Ok (Some v).
Proof. intros H. cbn. by rewrite clean_ref_text. Qed.

Lemma check_draft_id d d' : check_AuditEventDraft d = Ok d' → d' = d.
Proof. unfold check_AuditEventDraft. intros H. by inv_ok. Qed.

Lemma bounded_text_raises m v x : bounded_text m v = Raise x → x = AuditEventError.
Proof.
  unfold bounded_text, assert_no_secret_material.
  by repeat (destruct (raise_unless _ _) eqn:E; cbn;
          [clear E|apply raise_unless_Raise in E as [_ <-]; congruence]).
Qed.
Lemma bounded_reason_raises v x : bounded_reason v = Raise x → x = AuditEventError.
Proof.
  unfold bounded_reason, assert_no_secret_material.
  by repeat (destruct (raise_unless _ _) eqn:E; cbn;
          [clear E|apply raise_unless_Raise in E as [_ <-]; congruence]).
Qed.
Lemma optional_raises {A} (f : A → result A) o x :
  (∀ a, f a = Raise x → x = AuditEventError) → optional f o = Raise x → x = AuditEventError.
Proof. intros Hf. destruct o as [a|]; cbn; [|done]. destruct (f a) eqn:E; cbn; naive_solver. Qed.
Lemma rmap_raises {A B} (f : A → result B) l x :
  (∀ a, f a = Raise x → x = AuditEventError) → rmap f l = Raise x → x = AuditEventError.
Proof.
  intros Hf. induction l as [|a l IH]; cbn; [done|]. destruct (f a) eqn:E; cbn; [|naive_solver].
  destruct (rmap f l); cbn; naive_solver.
Qed.

(** The constructor has one way of failing. *)
Lemma check_draft_raises d x : check_AuditEventDraft d = Raise x → x = AuditEventError.
Proof.
  unfold check_AuditEventDraft. intros H.
  repeat match type of H with
    | rbind ?r _ = Raise _ => let E := fresh "E" in
        destruct r eqn:E; cbn [rbind] in H; [|injection H as ->; revert E]
    end; try discriminate H.
  all: repeat first
    [ apply bounded_text_raises | apply bounded_reason_raises | apply optional_raises
    | apply rmap_raises | intros [_ <-]%raise_unless_Raise; reflexivity
    | match goal with |- ∀ _, _ = Raise _ → _ => intros ? end ].
Qed.

(** Every free-text field of an accepted draft is clean. *)
Lemma draft_texts_clean d t :
  check_AuditEventDraft d = Ok d → t ∈ draft_texts d → clean_text t.
Proof.
  unfold check_AuditEventDraft, draft_texts. intros H Hin. inv_ok.
  assert (∀ m l l', m <= MAX_AUDIT_REASON → rmap (bounded_reference m) l = Ok l' →
            Some t ∈ l → clean_text t) as Hrefs by eauto using rmap_reference_clean.
  assert (∀ m o o', m <= MAX_AUDIT_REASON → optional (bounded_text m) o = Ok o' →
            o = Some t → clean_text t) as Hopt.
  { intros m o o' Hm. apply optional_clean. intros ? ?. by apply bounded_text_clean. }
  apply elem_of_cons in Hin as [->|Hin].
  { by eapply (bounded_text_clean MAX_AUDIT_SUBJECT). }
  apply list_elem_of_omap in Hin as (o & Hin & Ho). cbn in Ho. subst o.
  change (Some t ∈ ([ae_action_id d; ae_plan_id d; ae_target_id d; ae_decision_id d;
    ae_confirmation_id d; ae_lease_id d; ae_parent_event_id d] ++
    [ae_policy_version d; ae_environment d; ae_operation d; ae_lifecycle_from d;
     ae_lifecycle_to d] ++ [ae_plan_digest d; ae_result_code d; ae_reason d])%list) in Hin.
  apply elem_of_app in Hin as [Hin|[Hin|Hin]%elem_of_app].
  - eapply (Hrefs MAX_AUDIT_ID); [done| |eassumption]; eassumption.
  - eapply (Hrefs 128); [done| |eassumption]; eassumption.
  - rewrite !elem_of_cons in Hin. destruct Hin as [E|[E|[E|[]%not_elem_of_nil]]]; symmetry in E.
    + eapply (Hopt 64); [done| |eassumption]; eassumption.
    + eapply (Hopt MAX_AUDIT_RESULT_CODE); [done| |eassumption]; eassumption.
    + eapply (optional_clean bounded_reason); [apply bounded_reason_clean|done|done].
Qed.

Lemma append_all_drafts ds l e :
  e ∈ lg_events (append_all ds l) → e ∈ lg_events l ∨ ev_draft e ∈ ds.
Proof.
  revert l. induction ds as [|d ds IH]; intros l; [by left|]. cbn [append_all].
  intros [H|H]%IH; [|right; by right]. destruct (ledger_append d l) as [l' r] eqn:E. cbn in H.
  apply ledger_append_run in E as [[-> _]|(e' & _ & Hd & _ & Hl & _)]; [by left|].
  rewrite Hl, elem_of_app, list_elem_of_singleton in H. destruct H as [H| ->]; [by left|].
  right. rewrite Hd. by left.
Qed.

(** ** Properties *)

(** C25: The chain binds history: two ledgers that both pass [verify_chain] and
    end in the same hash hold exactly the same events, in the same order with
    the same content, unless two of the texts hashed along them are an
    explicit SHA-256 collision.  So an event cannot be edited, dropped,
    inserted or reordered behind a known head hash. *)
Theorem audit_history_binding l1 l2 c1 c2 :
  (∀ e, e ∈ (lg_events l1 ++ lg_events l2)%list → valid_datetime (ae_occurred_at (ev_draft e))) →
  verify_chain l1 = Ok c1 → cv_ok c1 = true →
  verify_chain l2 = Ok c2 → cv_ok c2 = true →
  last_hash (lg_events l1) = last_hash (lg_events l2) →
  lg_events l1 = lg_events l2 ∨
  ∃ t1 t2, t1 ∈ hashed_texts (lg_events l1) ∧ t2 ∈ hashed_texts (lg_events l2) ∧ collision t1 t2.
Proof.
  intros Hv V1 O1 V2 O2.
  destruct (verify_chain_spec l1) as (c1' & E1 & S1 & _), (verify_chain_spec l2) as (c2' & E2 & S2 & _).
  assert (chained (lg_events l1)) as C1 by (apply S1; congruence).
  assert (chained (lg_events l2)) as C2 by (apply S2; congruence).
  by apply chained_binding.
Qed.

(** A ledger that is only written by appends is intact: whatever drafts
    are appended, in any order, duplicates and overflowing appends included,
    [verify_chain] reports success over all events, event identities stay
    unique, the bound holds, and earlier events are never changed. *)
Lemma audit_appends_verify max_events ds1 ds2 l :
  new_InMemoryAuditLedger max_events = Ok l →
  let l1 := append_all ds1 l in
  let l2 := append_all ds2 l1 in
  verify_chain l2 = Ok {| cv_ok := true; cv_events_checked := ledger_count l2;
                          cv_error_sequence := None |} ∧
  NoDup (List.map (λ e, ae_event_id (ev_draft e)) (lg_events l2)) ∧
  ledger_count l2 <= max_events ∧ lg_events l1 `prefix_of` lg_events l2.
Proof.
  intros Hnew l1 l2. unfold new_InMemoryAuditLedger in Hnew. inv_ok.
  assert (ledger_sound l1) as H1.
  { apply append_all_sound. split; [apply chained_nil|apply NoDup_nil_2|cbn; lia]. }
  pose proof (append_all_sound ds2 l1 H1) as [C2 N2 B2]. fold l2 in C2, N2, B2.
  assert (lg_max_events l2 = max_events) as Hm by (unfold l2, l1; by rewrite !append_all_max).
  split_and!; [|done|unfold ledger_count; lia|apply append_all_prefix].
  destruct (verify_chain_spec l2) as (c & -> & Hok & Heq). f_equal. apply Heq. by apply Hok.
Qed.

(** No secret-like text, control character or unbounded text reaches the
    ledger: when every appended draft went through the draft constructor,
    each free-text field of each stored event is clean. *)
Lemma audit_ledger_clean max_events ds l e t :
  new_InMemoryAuditLedger max_events = Ok l →
  Forall (λ d, check_AuditEventDraft d = Ok d) ds →
  e ∈ lg_events (append_all ds l) → t ∈ draft_texts (ev_draft e) →
  has_secret_marker t = false ∧ str_any is_control t = false ∧ slen t <= MAX_AUDIT_REASON.
Proof.
  intros Hnew Hds [He|He]%append_all_drafts Ht.
  - unfold new_InMemoryAuditLedger in Hnew. inv_ok. by apply not_elem_of_nil in He.
  - rewrite Forall_forall in Hds. by eapply draft_texts_clean; [apply Hds|].
Qed.
