(* ===== verification/AuditBuilders.v ===== *)
(** * AuditBuilders: the typed event factories (control_plane/audit/builders.py)

    One definition per factory.  Each fills a draft and runs the draft's
    constructor, so a factory can raise [AuditEventError].  [rid] is the
    random event identifier [secrets.token_hex(16)] drawn by the draft. *)

From S2P Require Import Prelude PyStr PyTime Sha256 Json PyDict Models Lifecycle Identity Policy AuditLedger.
From Stdlib Require Import Ascii String ZArith Lia.
From stdpp Require Import base strings pretty list.

Local Open Scope string_scope.
Local Open Scope Z_scope.
Local Open Scope aipm_scope.

(** ** Filling a draft *)

(** The dataclass defaults. *)
Definition draft (rid : string) (t : AuditEventType.t) (actor : string) (role : AuditActorRole)
    (now : datetime) : AuditEventDraft :=
  {| ae_event_type := t; ae_actor_subject := actor; ae_occurred_at := now; ae_event_id := rid;
     ae_actor_role := role; ae_action_id := None; ae_plan_id := None; ae_plan_revision := None;
     ae_plan_digest := None; ae_target_id := None; ae_environment := None; ae_operation := None;
     ae_decision_id := None; ae_confirmation_id := None; ae_lease_id := None;
     ae_parent_event_id := None; ae_policy_version := None; ae_lifecycle_from := None;
     ae_lifecycle_to := None; ae_result_code := None; ae_reason := None |}.

(** Keyword arguments that the factories pass together. *)
Definition on_plan (action plan : option string) (revision : option Z) (digest : option string)
    (d : AuditEventDraft) : AuditEventDraft :=
  {| ae_event_type := ae_event_type d; ae_actor_subject := ae_actor_subject d;
     ae_occurred_at := ae_occurred_at d; ae_event_id := ae_event_id d;
     ae_actor_role := ae_actor_role d; ae_action_id := action; ae_plan_id := plan;
     ae_plan_revision := revision; ae_plan_digest := digest; ae_target_id := ae_target_id d;
     ae_environment := ae_environment d; ae_operation := ae_operation d;
     ae_decision_id := ae_decision_id d; ae_confirmation_id := ae_confirmation_id d;
     ae_lease_id := ae_lease_id d; ae_parent_event_id := ae_parent_event_id d;
     ae_policy_version := ae_policy_version d; ae_lifecycle_from := ae_lifecycle_from d;
     ae_lifecycle_to := ae_lifecycle_to d; ae_result_code := ae_result_code d;
     ae_reason := ae_reason d |}.
Definition on_target (target environment operation : option string) (d : AuditEventDraft)
  : AuditEventDraft :=
  {| ae_event_type := ae_event_type d; ae_actor_subject := ae_actor_subject d;
     ae_occurred_at := ae_occurred_at d; ae_event_id := ae_event_id d;
     ae_actor_role := ae_actor_role d; ae_action_id := ae_action_id d; ae_plan_id := ae_plan_id d;
     ae_plan_revision := ae_plan_revision d; ae_plan_digest := ae_plan_digest d;
     ae_target_id := target; ae_environment := environment; ae_operation := operation;
     ae_decision_id := ae_decision_id d; ae_confirmation_id := ae_confirmation_id d;
     ae_lease_id := ae_lease_id d; ae_parent_event_id := ae_parent_event_id d;
     ae_policy_version := ae_policy_version d; ae_lifecycle_from := ae_lifecycle_from d;
     ae_lifecycle_to := ae_lifecycle_to d; ae_result_code := ae_result_code d;
     ae_reason := ae_reason d |}.
Definition on_decision (decision confirmation parent policy : option string) (d : AuditEventDraft)
  : AuditEventDraft :=
  {| ae_event_type := ae_event_type d; ae_actor_subject := ae_actor_subject d;
     ae_occurred_at := ae_occurred_at d; ae_event_id := ae_event_id d;
     ae_actor_role := ae_actor_role d; ae_action_id := ae_action_id d; ae_plan_id := ae_plan_id d;
     ae_plan_revision := ae_plan_revision d; ae_plan_digest := ae_plan_digest d;
     ae_target_id := ae_target_id d; ae_environment := ae_environment d;
     ae_operation := ae_operation d; ae_decision_id := decision;
     ae_confirmation_id := confirmation; ae_lease_id := ae_lease_id d;
     ae_parent_event_id := parent; ae_policy_version := policy;
     ae_lifecycle_from := ae_lifecycle_from d; ae_lifecycle_to := ae_lifecycle_to d;
     ae_result_code := ae_result_code d; ae_reason := ae_reason d |}.
Definition on_outcome (from to code reason : option string) (d : AuditEventDraft)
  : AuditEventDraft :=
  {| ae_event_type := ae_event_type d; ae_actor_subject := ae_actor_subject d;
     ae_occurred_at := ae_occurred_at d; ae_event_id := ae_event_id d;
     ae_actor_role := ae_actor_role d; ae_action_id := ae_action_id d; ae_plan_id := ae_plan_id d;
     ae_plan_revision := ae_plan_revision d; ae_plan_digest := ae_plan_digest d;
     ae_target_id := ae_target_id d; ae_environment := ae_environment d;
     ae_operation := ae_operation d; ae_decision_id := ae_decision_id d;
     ae_confirmation_id := ae_confirmation_id d; ae_lease_id := ae_lease_id d;
     ae_parent_event_id := ae_parent_event_id d; ae_policy_version := ae_policy_version d;
     ae_lifecycle_from := from; ae_lifecycle_to := to; ae_result_code := code;
     ae_reason := reason |}.

(** The references an [AuthorizationDecision] and a [ConfirmationBinding] give. *)
Definition on_identity (i : option ActionIdentity) : AuditEventDraft → AuditEventDraft :=
  on_plan (id_action_id <$> i) (id_plan_id <$> i) (id_target_revision <$> i) (id_plan_digest <$> i).
Definition on_decision_target (a : AuthorizationDecision) : AuditEventDraft → AuditEventDraft :=
  on_target (ad_target_id a) (ad_environment a) (value <$> ad_operation a).
Definition of_decision (a : AuthorizationDecision) : AuditEventDraft → AuditEventDraft :=
  on_decision (Some (ad_decision_id a)) None None (Some (ad_policy_version a)).
Definition on_binding (b : ConfirmationBinding) (d : AuditEventDraft) : AuditEventDraft :=
  on_decision (Some (cb_decision_id b)) (Some (cb_confirmation_id b)) None
    (Some (cb_policy_version b))
  (on_target (Some (req_target_id (cb_request b))) (Some (req_environment (cb_request b)))
    (Some (value (req_operation (cb_request b))))
  (on_plan (Some (cb_action_id b)) (Some (cb_plan_id b)) (Some (cb_target_revision b))
    (Some (cb_plan_digest b)) d)).
Definition result_only (code : string) : AuditEventDraft → AuditEventDraft :=
  on_outcome None None (Some code) None.

(** [f"fence_{int(fencing_token)}"] and the like *)
Definition tagged (tag : string) (n : Z) : string := tag ++ pretty n.

(** ** The factories *)

Section builders.
Variable rid : string.
Local Notation new := (draft rid).
Local Notation build := check_AuditEventDraft.

Definition authentication_success (actor : string) (now : datetime) : result AuditEventDraft :=
  build (result_only "accepted" (new AuditEventType.AUTHENTICATION_SUCCESS actor REQUESTER now)).

Definition authentication_failure (reason_code : string) (now : datetime) : result AuditEventDraft :=
  build (result_only reason_code
    (new AuditEventType.AUTHENTICATION_FAILURE UNAUTHENTICATED_ACTOR_SUBJECT SYSTEM now)).

Definition session_created (actor : string) (now : datetime) : result AuditEventDraft :=
  build (new AuditEventType.SESSION_CREATED actor REQUESTER now).

Definition session_revoked (actor : string) (now : datetime) : result AuditEventDraft :=
  build (new AuditEventType.SESSION_REVOKED actor REQUESTER now).

Definition credential_epoch_rotated (now : datetime) (epoch : Z) : result AuditEventDraft :=
  build (on_outcome None None (Some "rotated")
           (Some (tagged "authentication epoch advanced to " epoch))
    (new AuditEventType.CREDENTIAL_EPOCH_ROTATED SYSTEM_ACTOR_SUBJECT SYSTEM now)).

Definition authorization_allowed (actor : string) (now : datetime) (a : AuthorizationDecision)
  : result AuditEventDraft :=
  build (result_only (value (ad_code a)) (of_decision a (on_decision_target a
    (on_identity (ad_action_identity a)
      (new AuditEventType.AUTHORIZATION_ALLOWED actor REQUESTER now))))).

Definition authorization_denied (actor : option string) (now : datetime)
    (a : AuthorizationDecision) : result AuditEventDraft :=
  let d := match truthy_subject actor with
           | Some s => new AuditEventType.AUTHORIZATION_DENIED s REQUESTER now
           | None => new AuditEventType.AUTHORIZATION_DENIED UNAUTHENTICATED_ACTOR_SUBJECT SYSTEM now
           end in
  build (result_only (value (ad_code a)) (of_decision a (on_decision_target a d))).

Definition action_created (actor : string) (now : datetime) (a : AuthorizationDecision)
    (from to : string) : result AuditEventDraft :=
  build (on_outcome (Some from) (Some to) (Some "created") None (of_decision a
    (on_decision_target a (on_identity (ad_action_identity a)
      (new AuditEventType.ACTION_CREATED actor REQUESTER now))))).

Definition action_idempotency_replay (actor : string) (now : datetime)
    (action_id decision_id : string) : result AuditEventDraft :=
  build (result_only "replayed" (on_decision (Some decision_id) None None None
    (on_plan (Some action_id) None None None
      (new AuditEventType.ACTION_IDEMPOTENCY_REPLAY actor REQUESTER now)))).

Definition action_idempotency_conflict (actor : string) (now : datetime)
  : result AuditEventDraft :=
  build (result_only "idempotency_conflict"
    (new AuditEventType.ACTION_IDEMPOTENCY_CONFLICT actor REQUESTER now)).

Definition lifecycle_transition (actor : string) (now : datetime) (a : AuthorizationDecision)
    (from to : string) : result AuditEventDraft :=
  build (on_outcome (Some from) (Some to) (Some "advanced") None (of_decision a
    (on_decision_target a (on_identity (ad_action_identity a)
      (new AuditEventType.LIFECYCLE_TRANSITION actor SYSTEM now))))).

Definition lifecycle_transition_confirmed (actor : string) (now : datetime)
    (b : ConfirmationBinding) (from to : string) : result AuditEventDraft :=
  build (on_outcome (Some from) (Some to) (Some "advanced") None (on_binding b
    (new AuditEventType.LIFECYCLE_TRANSITION actor CONFIRMER now))).

Definition owner_confirmation_requested (actor : string) (now : datetime)
    (b : ConfirmationBinding) : result AuditEventDraft :=
  build (result_only "requested" (on_binding b
    (new AuditEventType.OWNER_CONFIRMATION_REQUESTED actor REQUESTER now))).

Definition owner_confirmed (actor : string) (now : datetime) (b : ConfirmationBinding)
  : result AuditEventDraft :=
  build (result_only "confirmed" (on_binding b
    (new AuditEventType.OWNER_CONFIRMED actor CONFIRMER now))).

Definition owner_confirmation_rejected (actor : string) (now : datetime)
    (a : AuthorizationDecision) (reason_code : string) : result AuditEventDraft :=
  build (result_only reason_code (of_decision a
    (on_plan (id_action_id <$> ad_action_identity a) None None None
      (new AuditEventType.OWNER_CONFIRMATION_REJECTED actor CONFIRMER now)))).

Definition owner_confirmation_consumed (actor : string) (now : datetime)
    (b : ConfirmationBinding) : result AuditEventDraft :=
  build (result_only "consumed"
    (on_decision (Some (cb_decision_id b)) (Some (cb_confirmation_id b)) None
      (Some (cb_policy_version b))
    (on_plan (Some (cb_action_id b)) None None None
      (new AuditEventType.OWNER_CONFIRMATION_CONSUMED actor SYSTEM now)))).

Definition verification_started (actor : string) (now : datetime) (action_id : string)
    (plan_id : option string) (revision : option Z) (digest target environment policy : option string)
  : result AuditEventDraft :=
  build (result_only "started" (on_decision None None None policy
    (on_target target environment None (on_plan (Some action_id) plan_id revision digest
      (new AuditEventType.VERIFICATION_STARTED actor VERIFIER now))))).

Definition verification_finished (actor : string) (now : datetime) (action_id : string)
    (plan_id : option string) (revision : option Z) (digest target environment : option string)
    (verification_id : string) (success : bool) (reason_code version : string)
  : result AuditEventDraft :=
  build (on_outcome None None (Some reason_code) (Some ("verification contract " ++ version))
    (on_decision None None (Some verification_id) None
    (on_target target environment None (on_plan (Some action_id) plan_id revision digest
      (new (if success then AuditEventType.VERIFICATION_SUCCEEDED
            else AuditEventType.VERIFICATION_FAILED) actor VERIFIER now))))).

Definition rollback_requested (actor : string) (now : datetime) (action_id snapshot_id : string)
    (plan_id : option string) (revision : option Z) (digest : option string)
    (target environment : string) (decision_id : option string) (policy : string)
  : result AuditEventDraft :=
  build (result_only "requested"
    (on_decision decision_id None (Some snapshot_id) (Some policy)
    (on_target (Some target) (Some environment) None
    (on_plan (Some action_id) plan_id revision digest
      (new AuditEventType.ROLLBACK_REQUESTED actor REQUESTER now))))).

Definition lease_event (t : AuditEventType.t) (actor : string) (role : AuditActorRole)
    (now : datetime) (action_id : string) (plan_id : option string)
    (target environment lease_id : string) (fencing_token : Z) : result AuditEventDraft :=
  build (result_only (tagged "fence_" fencing_token)
    (on_decision None None (Some lease_id) None (on_target (Some target) (Some environment) None
    (on_plan (Some action_id) plan_id None None (new t actor role now))))).
Definition lease_acquired (actor : string) : datetime → string → option string → string → string →
    string → Z → result AuditEventDraft :=
  lease_event AuditEventType.LEASE_ACQUIRED actor SYSTEM.
Definition execution_started (actor : string) : datetime → string → option string → string →
    string → string → Z → result AuditEventDraft :=
  lease_event AuditEventType.EXECUTION_STARTED actor EXECUTOR.

Definition execution_finished (actor : string) (now : datetime) (action_id : string)
    (plan_id : option string) (target environment : string) (success : bool)
  : result AuditEventDraft :=
  build (result_only (if success then "succeeded" else "failed")
    (on_target (Some target) (Some environment) None (on_plan (Some action_id) plan_id None None
      (new (if success then AuditEventType.EXECUTION_SUCCEEDED
            else AuditEventType.EXECUTION_FAILED) actor EXECUTOR now)))).

Definition rollback_finished (actor : string) (now : datetime) (action_id : string)
    (plan_id : option string) (target environment : string) (success : bool)
    (contract_digest : option string) : result AuditEventDraft :=
  let code := if success then "restored" else "restore_failed" in
  let code := match truthy_subject contract_digest with
              | Some d => code ++ ":cd=" ++ str_take 16 d
              | None => code
              end in
  build (result_only code (on_target (Some target) (Some environment) None
    (on_plan (Some action_id) plan_id None None
      (new (if success then AuditEventType.ROLLBACK_SUCCEEDED
            else AuditEventType.ROLLBACK_FAILED) actor EXECUTOR now)))).

(** The dictionary of [kill_switch_changed] with its default. *)
Definition kill_switch_event (from to : string) : AuditEventType.t :=
  match dget (from, to)
    [(("engaged", "engaged"), AuditEventType.KILL_SWITCH_ENGAGED);
     (("engaged", "disengaged"), AuditEventType.KILL_SWITCH_DISENGAGED);
     (("disengaged", "engaged"), AuditEventType.KILL_SWITCH_ENGAGED);
     (("disengaged", "disengaged"), AuditEventType.KILL_SWITCH_DISENGAGED);
     (("disengaged", "permanent"), AuditEventType.KILL_SWITCH_PERMANENT);
     (("engaged", "permanent"), AuditEventType.KILL_SWITCH_PERMANENT)] with
  | Some t => t
  | None => if str_eqb to "engaged" then AuditEventType.KILL_SWITCH_ENGAGED
            else AuditEventType.KILL_SWITCH_DISENGAGED
  end.

Definition kill_switch_changed (actor : option string) (now : datetime) (environment : string)
    (from to : string) (epoch : Z) (reason : string) : result AuditEventDraft :=
  let d := match truthy_subject actor with
           | Some s => new (kill_switch_event from to) s KILL_SWITCH_OPERATOR now
           | None => new (kill_switch_event from to) SYSTEM_ACTOR_SUBJECT SYSTEM now
           end in
  build (on_outcome (Some from) (Some to) (Some (tagged "epoch_" epoch))
           (truthy_subject (Some reason))
    (on_target None (Some environment) None d)).
End builders.
