(* ===== verification/KillSwitch.v ===== *)
(** * KillSwitch: fail-closed kill switches (control_plane/kill_switch.py)

    [kill_store] is [InMemoryKillSwitchStore] with its optional audit ledger;
    the operations of [KillSwitchRegistry] run over it.  A registry knows
    whether it has an audit sink of its own ([audited]); [clock] is the value
    its clock gives during a call and [rid] the random event identifier.

    Results: production can never operate, staging operates exactly while the
    last accepted change disengaged it, epochs count the changes, and an
    engagement is refused exactly in the listed cases. *)

From S2P Require Import Prelude PyStr PyTime Sha256 Json PyDict Models Lifecycle ProjectPlan AuditLedger AuditBuilders.
From Stdlib Require Import Ascii String ZArith Lia.
From stdpp Require Import base strings pretty list.

Local Open Scope string_scope.
Local Open Scope Z_scope.
Local Open Scope aipm_scope.

Inductive KillSwitchState := ENGAGED | DISENGAGED | PERMANENT.
#[export] Instance KillSwitchState_eq_dec : EqDecision KillSwitchState.
Proof. solve_decision. Defined.
#[export] Instance KillSwitchState_value : EnumValue KillSwitchState := λ s,
  match s with ENGAGED => "engaged" | DISENGAGED => "disengaged" | PERMANENT => "permanent" end.

Record KillSwitch := {
  ks_environment : Environment;
  ks_state : KillSwitchState;
  ks_reason : string;
  ks_created_at : datetime;
  ks_updated_at : datetime;
  ks_epoch : Z;
  ks_actor_subject : option string;
}.
#[export] Instance KillSwitch_eq_dec : EqDecision KillSwitch.
Proof. solve_decision. Defined.

(** [_reason] *)
Definition ks_check_reason (r : string) : result string :=
  require slen r <=? 256 else_raise KillSwitchError;; Ok r.

(** [KillSwitch.__post_init__] *)
Definition check_KillSwitch (k : KillSwitch) : result KillSwitch :=
  require negb (negb (bool_decide (ks_environment k = STAGING)) &&
                negb (bool_decide (ks_state k = PERMANENT))) else_raise KillSwitchError;;
  let* _ := ks_check_reason (ks_reason k) in
  require 1 <=? ks_epoch k else_raise KillSwitchError;;
  require negb (ks_updated_at k <? ks_created_at k) else_raise KillSwitchError;;
  Ok k.

Definition permits_operations (k : KillSwitch) : bool :=
  bool_decide (ks_environment k = STAGING) && bool_decide (ks_state k = DISENGAGED).

(** ** InMemoryKillSwitchStore *)

Record kill_store := {
  kst_records : dict Environment KillSwitch;
  kst_audit : option ledger;
}.

Definition record_for (e : Environment) (s : kill_store) : option KillSwitch :=
  dget e (kst_records s).

(** [for draft in audit_drafts: self._audit.append_in_transaction(draft)] *)
Fixpoint kst_append (ds : list AuditEventDraft) : M kill_store unit :=
  match ds with
  | [] => retM ()
  | d :: ds' =>
      do s <- getM;;
      match kst_audit s with
      | None => retM ()
      | Some l =>
          let '(l', r) := append_in_transaction d l in
          do_ putM {| kst_records := kst_records s; kst_audit := Some l' |};;
          do_ liftM r;;
          kst_append ds'
      end
  end.

Definition save (k : KillSwitch) (epoch : Z) (actor : option string) (drafts : list AuditEventDraft)
  : M kill_store unit :=
  do k' <- liftM (check_KillSwitch
    {| ks_environment := ks_environment k; ks_state := ks_state k; ks_reason := ks_reason k;
       ks_created_at := ks_created_at k; ks_updated_at := ks_updated_at k; ks_epoch := epoch;
       ks_actor_subject := actor |});;
  do_ modifyM (λ s, {| kst_records := dset (ks_environment k) k' (kst_records s);
                       kst_audit := kst_audit s |});;
  kst_append drafts.

(** ** KillSwitchRegistry *)

(** [_default_switch] *)
Definition default_switch (e : Environment) (clock : datetime) : result KillSwitch :=
  check_KillSwitch
    {| ks_environment := e; ks_state := match e with PRODUCTION => PERMANENT | STAGING => ENGAGED end;
       ks_reason := EmptyString; ks_created_at := clock; ks_updated_at := clock; ks_epoch := 1;
       ks_actor_subject := None |}.

Section registry.
(** The registry's own [_audit] is set. *)
Variable audited : bool.

(** [__init__]: an empty store is seeded, staging engaged and production
    permanent. *)
Definition new_KillSwitchRegistry (clock : datetime) : M kill_store unit :=
  do s <- getM;;
  match kst_records s with
  | [] =>
      do staging <- liftM (default_switch STAGING clock);;
      do_ save staging 1 None [];;
      do production <- liftM (default_switch PRODUCTION clock);;
      save production 1 None []
  | _ => retM ()
  end.

Definition switch (e : Environment) (clock : datetime) : M kill_store KillSwitch :=
  do s <- getM;;
  match record_for e s with
  | None => liftM (default_switch e clock)
  | Some k => retM k
  end.

Definition permits (e : Environment) (clock : datetime) : M kill_store bool :=
  do k <- switch e clock;; retM (permits_operations k).

(** [_audit_drafts] *)
Definition ks_audit_drafts (rid : string) (clock : datetime) (updated : KillSwitch)
    (old_state : KillSwitchState) (actor : option string) : result (list AuditEventDraft) :=
  if audited then
    let* d := kill_switch_changed rid actor clock (value (ks_environment updated))
                (value old_state) (value (ks_state updated)) (ks_epoch updated)
                (ks_reason updated) in
    Ok [d]
  else Ok [].

(** The common tail of [engage] and [disengage]. *)
Definition change_to (st : KillSwitchState) (e : Environment) (reason : string)
    (now : option datetime) (actor : option string) (rid : string) (clock : datetime)
  : M kill_store KillSwitch :=
  do k <- switch e clock;;
  assert_ negb (bool_decide (ks_state k = PERMANENT)) else_raise KillSwitchError;;
  do reason <- liftM (ks_check_reason reason);;
  do updated <- liftM (check_KillSwitch
    {| ks_environment := e; ks_state := st;
       ks_reason := if str_nonempty reason then reason else ks_reason k;
       ks_created_at := ks_created_at k; ks_updated_at := default clock now;
       ks_epoch := ks_epoch k + 1; ks_actor_subject := actor |});;
  do drafts <- liftM (ks_audit_drafts rid clock updated (ks_state k) actor);;
  do_ save updated (ks_epoch updated) actor drafts;;
  retM updated.

Definition engage : Environment → string → option datetime → option string → string → datetime →
    M kill_store KillSwitch := change_to ENGAGED.

Definition disengage (e : Environment) (reason : string) (now : option datetime)
    (actor : option string) (rid : string) (clock : datetime) : M kill_store KillSwitch :=
  assert_ negb (bool_decide (e = PRODUCTION)) else_raise KillSwitchError;;
  change_to DISENGAGED e reason now actor rid clock.

Definition engage_all (reason : string) (now : option datetime) (actor : option string)
    (rid : string) (clock : datetime) : M kill_store unit :=
  do_ engage STAGING reason now actor rid clock;; retM ().

(** One client call; the flag says whether it engages. *)
Inductive switch_call :=
  | SEngage (e : Environment) (reason : string) (now : option datetime) (actor : option string)
      (rid : string) (clock : datetime)
  | SDisengage (e : Environment) (reason : string) (now : option datetime)
      (actor : option string) (rid : string) (clock : datetime).

Definition run_switch_call (c : switch_call) : M kill_store KillSwitch :=
  match c with
  | SEngage e r n a rid clk => engage e r n a rid clk
  | SDisengage e r n a rid clk => disengage e r n a rid clk
  end.

(** The calls in order, with what each answered. *)
Fixpoint run_switch_calls (cs : list switch_call) (s : kill_store)
  : kill_store * list (result KillSwitch) :=
  match cs with
  | [] => (s, [])
  | c :: cs' =>
      let '(s1, r) := run_switch_call c s in
      let '(s2, rs) := run_switch_calls cs' s1 in (s2, r :: rs)
  end.
End registry.

(** ** One change, as a function *)

Section changes.
Variable audited : bool.

(** The record a change writes. *)
Definition changed (st : KillSwitchState) (k : KillSwitch) (reason : string)
    (now : option datetime) (actor : option string) (clock : datetime) : KillSwitch :=
  {| ks_environment := ks_environment k; ks_state := st;
     ks_reason := if str_nonempty reason then reason else ks_reason k;
     ks_created_at := ks_created_at k; ks_updated_at := default clock now;
     ks_epoch := ks_epoch k + 1; ks_actor_subject := actor |}.

Definition put_switch (k : KillSwitch) (s : kill_store) : kill_store :=
  {| kst_records := dset (ks_environment k) k (kst_records s); kst_audit := kst_audit s |}.

(** The records of a store are what the constructor accepts, under their own
    environment, and only production is permanent. *)
Definition switches_ok (s : kill_store) : Prop :=
  kst_audit s = None ∧
  ∀ e, ∃ k, record_for e s = Some k ∧ ks_environment k = e ∧ check_KillSwitch k = Ok k ∧
    (ks_state k = PERMANENT ↔ e = PRODUCTION).

Lemma check_KillSwitch_Ok k k' :
  check_KillSwitch k = Ok k' ↔
  k' = k ∧ (ks_environment k = STAGING ∨ ks_state k = PERMANENT) ∧ slen (ks_reason k) <= 256 ∧
  1 <= ks_epoch k ∧ ks_created_at k <= ks_updated_at k.
Proof.
  unfold check_KillSwitch, ks_check_reason. split.
  - intros H. inv_ok. split_and!; try lia; [done|].
    repeat case_bool_decide; cbn in *; auto; done.
  - intros (-> & He & Hr & Hp & Ht).
    assert (bool_decide (ks_environment k = STAGING) || bool_decide (ks_state k = PERMANENT) = true)
      as E by (rewrite orb_true_iff, !bool_decide_eq_true; done).
    rewrite <-negb_orb, E. cbn.
    rewrite (proj2 (Z.leb_le _ _) Hr). cbn. rewrite (proj2 (Z.leb_le _ _) Hp). cbn.
    by rewrite (proj2 (Z.ltb_ge _ _) Ht).
Qed.

Lemma save_run k ep actor drafts s :
  kst_audit s = None → check_KillSwitch k = Ok k → ep = ks_epoch k → actor = ks_actor_subject k →
  save k ep actor drafts s = (put_switch k s, Ok ()).
Proof.
  intros Hn Hc -> ->. unfold save, bindM, liftM.
  replace {| ks_environment := _ |} with k by by destruct k. rewrite Hc. cbn.
  unfold put_switch. destruct drafts; cbn; [done|]. unfold bindM, getM. cbn. by rewrite Hn.
Qed.

Lemma switch_run e clock s k : record_for e s = Some k → switch e clock s = (s, Ok k).
Proof. intros H. unfold switch, bindM, getM. by rewrite H. Qed.

(** What a change answers, apart from the store. *)
Definition change_result (st : KillSwitchState) (k : KillSwitch) (reason : string)
    (now : option datetime) (actor : option string) (rid : string) (clock : datetime)
  : result KillSwitch :=
  require negb (bool_decide (ks_state k = PERMANENT)) else_raise KillSwitchError;;
  let* reason := ks_check_reason reason in
  let* updated := check_KillSwitch (changed st k reason now actor clock) in
  let* _ := ks_audit_drafts audited rid clock updated (ks_state k) actor in
  Ok updated.

(** Under a silent store a change either happens completely or not at all. *)
Lemma change_to_eq st e reason now actor rid clock s k :
  kst_audit s = None → record_for e s = Some k → ks_environment k = e →
  change_to audited st e reason now actor rid clock s =
    match change_result st k reason now actor rid clock with
    | Ok k' => (put_switch k' s, Ok k')
    | Raise x => (s, Raise x)
    end.
Proof.
  intros Hn Hk <-. unfold change_to, change_result, bindM, liftM, retM.
  rewrite (switch_run _ _ _ _ Hk). destruct (raise_unless _ _) as [[]|]; cbn [rbind]; [|done].
  destruct (ks_check_reason reason) as [reason'|] eqn:Er; cbn [rbind]; [|done].
  fold (changed st k reason' now actor clock).
  destruct (check_KillSwitch _) as [k'|] eqn:Ec; cbn [rbind]; [|done].
  destruct (ks_audit_drafts _ _ _ _ _ _) as [ds|]; cbn [rbind]; [|done].
  pose proof Ec as (-> & _)%check_KillSwitch_Ok. by rewrite save_run.
Qed.

Lemma change_result_Ok st k reason now actor rid clock k' :
  check_KillSwitch k = Ok k →
  change_result st k reason now actor rid clock = Ok k' ↔
    k' = changed st k reason now actor clock ∧
    ks_state k ≠ PERMANENT ∧ slen reason <= 256 ∧ ks_created_at k <= default clock now ∧
    (ks_environment k = STAGING ∨ st = PERMANENT) ∧
    is_ok (ks_audit_drafts audited rid clock k' (ks_state k) actor) = true.
Proof.
  intros (_ & _ & Hr & He & _)%check_KillSwitch_Ok. unfold change_result, ks_check_reason. split.
  - intros H. inv_ok. match goal with Hc : check_KillSwitch _ = Ok _ |- _ =>
      apply check_KillSwitch_Ok in Hc as (-> & ? & _ & _ & ?) end.
    match goal with Hd : ks_audit_drafts _ _ _ _ _ _ = _ |- _ => rewrite Hd end.
    split_and!; try done. lia.
  - intros (-> & Hp & Hl & Ht & Hor & Hd). rewrite bool_decide_false by done.
    rewrite (proj2 (Z.leb_le _ _) Hl). cbn [negb raise_unless rbind].
    rewrite (proj2 (check_KillSwitch_Ok _ (changed st k reason now actor clock))).
    2: { cbn. split_and!; try done; [by case_match|lia]. }
    cbn [rbind]. by destruct (ks_audit_drafts _ _ _ _ _ _).
Qed.

Lemma change_to_run st e reason now actor rid clock s k s' r :
  switches_ok s → record_for e s = Some k → st ≠ PERMANENT →
  change_to audited st e reason now actor rid clock s = (s', r) →
  match r with
  | Raise _ => s' = s
  | Ok k' => s' = put_switch k' s ∧ k' = changed st k reason now actor clock ∧ e = STAGING ∧
             check_KillSwitch k' = Ok k'
  end.
Proof.
  intros [Hn Hs] Hk Hst. destruct (Hs e) as (k0 & Hk0 & He & Hc & Hp).
  assert (k0 = k) as -> by congruence. rewrite (change_to_eq _ _ _ _ _ _ _ _ k) by done.
  destruct (change_result _ _ _ _ _ _ _) as [k'|x] eqn:E; intros [= <- <-]; [|done].
  apply change_result_Ok in E as (-> & ? & ? & ? & [Henv|] & _); [|done..].
  apply check_KillSwitch_Ok in Hc as (_ & _ & ? & ? & _).
  split_and!; [done..|congruence|]. apply check_KillSwitch_Ok. cbn.
  split_and!; [done|by left|by case_match|lia|done].
Qed.

Lemma put_switch_ok s k' :
  switches_ok s → ks_environment k' = STAGING → ks_state k' ≠ PERMANENT →
  check_KillSwitch k' = Ok k' → switches_ok (put_switch k' s).
Proof.
  intros [Hn Hs] He Hst Hc. split; [done|]. intros e. unfold record_for, put_switch. cbn.
  rewrite He, dget_set. case_decide as E; [|apply Hs]. subst e. exists k'. split_and!; try done.
Qed.

(** What a call that returned did, and that a refused one did nothing. *)
Lemma run_switch_call_cases c s s' r :
  switches_ok s → run_switch_call audited c s = (s', r) →
  switches_ok s' ∧
  match r with
  | Raise _ => s' = s
  | Ok k' => ∃ k, record_for STAGING s = Some k ∧ record_for STAGING s' = Some k' ∧
      ks_epoch k' = ks_epoch k + 1 ∧
      ks_state k' = match c with SEngage _ _ _ _ _ _ => ENGAGED | _ => DISENGAGED end
  end.
Proof.
  intros Hs H. set (st := match c with SEngage _ _ _ _ _ _ => ENGAGED | _ => DISENGAGED end).
  set (e := match c with SEngage e _ _ _ _ _ | SDisengage e _ _ _ _ _ => e end).
  destruct (proj2 Hs e) as (k & Hk & _).
  assert ((s' = s ∧ ∃ x, r = Raise x) ∨ ∃ reason now actor rid clock,
    change_to audited st e reason now actor rid clock s = (s', r)) as [[-> [x ->]]|(reason & now & actor & rid & clock & Hc)].
  { destruct c as [e' r' n a rid clk|e' r' n a rid clk]; cbn in H; [by eauto 10|].
    unfold disengage, bindM, liftM in H.
    destruct (raise_unless _ _) as [[]|]; [by eauto 10|]. simplify_eq. eauto. }
  { done. }
  apply (change_to_run _ _ _ _ _ _ _ _ _ _ _ Hs Hk) in Hc; [|subst st; by destruct c].
  destruct r as [k'|x]; [|by subst].
  destruct Hc as (-> & Hk' & He & Hc). rewrite He in Hk.
  assert (ks_environment k = STAGING) as Henv.
  { destruct (proj2 Hs STAGING) as (? & ? & ? & _). congruence. }
  assert (ks_environment k' = STAGING) as Henv' by by rewrite Hk'.
  assert (ks_state k' = st) as Hst' by by rewrite Hk'.
  split.
  - apply put_switch_ok; try done. rewrite Hst'. subst st. by destruct c.
  - exists k. unfold record_for, put_switch in *. cbn. rewrite Henv', dget_set_eq.
    split_and!; try done. by rewrite Hk'.
Qed.

(** Whether staging was left open, and how often it changed. *)
Fixpoint staging_open (cs : list switch_call) (rs : list (result KillSwitch)) (was : bool) : bool :=
  match cs, rs with
  | SEngage _ _ _ _ _ _ :: cs', Ok _ :: rs' => staging_open cs' rs' false
  | SDisengage _ _ _ _ _ _ :: cs', Ok _ :: rs' => staging_open cs' rs' true
  | _ :: cs', _ :: rs' => staging_open cs' rs' was
  | _, _ => was
  end.
Fixpoint accepted_changes (rs : list (result KillSwitch)) : Z :=
  match rs with
  | [] => 0
  | Ok _ :: rs' => 1 + accepted_changes rs'
  | Raise _ :: rs' => accepted_changes rs'
  end.

Lemma run_switch_calls_spec cs s s' rs k :
  switches_ok s → record_for STAGING s = Some k →
  run_switch_calls audited cs s = (s', rs) →
  switches_ok s' ∧ ∃ k', record_for STAGING s' = Some k' ∧
    ks_epoch k' = ks_epoch k + accepted_changes rs ∧
    bool_decide (ks_state k' = DISENGAGED) =
      staging_open cs rs (bool_decide (ks_state k = DISENGAGED)).
Proof.
  revert s rs k. induction cs as [|c cs IH]; intros s rs k Hs Hk H; cbn in H.
  { simplify_eq. split; [done|]. exists k. cbn. split_and!; [done|lia|done]. }
  destruct (run_switch_call audited c s) as [s1 r] eqn:E1.
  destruct (run_switch_calls audited cs s1) as [s2 rs'] eqn:E2. simplify_eq.
  apply (run_switch_call_cases _ _ _ _ Hs) in E1 as [Hs1 Hr].
  destruct r as [k1|x].
  - destruct Hr as (k0 & Hk0 & Hk1 & Hep & Hst). simplify_eq.
    destruct (IH s1 rs' k1 Hs1 Hk1 E2) as [Hs' (k' & Hk' & He' & Hst')]. split; [done|].
    exists k'. split_and!; [done|cbn; lia|]. rewrite Hst'. destruct c; cbn; by rewrite Hst.
  - subst s1. destruct (IH s rs' k Hs Hk E2) as [Hs' (k' & Hk' & He' & Hst')]. split; [done|].
    exists k'. split_and!; [done|done|]. rewrite Hst'. by destruct c.
Qed.

(** The seeded store. *)
Definition fresh_store : kill_store := {| kst_records := []; kst_audit := None |}.

Lemma new_registry_ok clock :
  ∃ s k, new_KillSwitchRegistry clock fresh_store = (s, Ok ()) ∧ switches_ok s ∧
    record_for STAGING s = Some k ∧ ks_epoch k = 1 ∧ ks_state k = ENGAGED.
Proof.
  assert (∀ e, default_switch e clock = Ok {| ks_environment := e;
    ks_state := match e with PRODUCTION => PERMANENT | STAGING => ENGAGED end;
    ks_reason := EmptyString; ks_created_at := clock; ks_updated_at := clock; ks_epoch := 1;
    ks_actor_subject := None |}) as Hd.
  { intros e. apply check_KillSwitch_Ok. cbn. split_and!; try done; destruct e; auto. }
  unfold new_KillSwitchRegistry, bindM, getM, liftM. cbn [kst_records fresh_store].
  rewrite !Hd. pose proof (Hd STAGING) as HS. pose proof (Hd PRODUCTION) as HP.
  unfold default_switch in HS, HP. rewrite (save_run _ 1 None []) by done.
  rewrite (save_run _ 1 None []) by done.
  eexists _, _. split; [done|]. split_and!; try done. split; [done|].
  intros []; unfold record_for, put_switch; cbn [kst_records fresh_store dset ks_environment dget].
  - eexists. split; [done|]. split_and!; try done.
  - eexists. split; [done|]. split_and!; try done.
Qed.

Lemma permits_run e clock s k :
  record_for e s = Some k → permits e clock s = (s, Ok (permits_operations k)).
Proof. intros H. unfold permits, bindM. by rewrite (switch_run _ _ _ _ H). Qed.
End changes.

(** ** Properties *)

(** C28: Fail closed.  From the seeded registry and through any sequence of
    engage and disengage calls, accepted or refused, production never permits
    an operation; staging permits exactly when the last accepted change was a
    disengagement; the epoch counts the accepted changes; and an environment
    without a record does not permit either. *)
Theorem kill_switch_fail_closed audited clock cs s0 s rs t :
  new_KillSwitchRegistry clock fresh_store = (s0, Ok ()) →
  run_switch_calls audited cs s0 = (s, rs) →
  permits PRODUCTION t s = (s, Ok false) ∧
  permits STAGING t s = (s, Ok (staging_open cs rs false)) ∧
  (∃ k, record_for STAGING s = Some k ∧ ks_epoch k = 1 + accepted_changes rs) ∧
  ∀ e st, record_for e st = None → permits e t st = (st, Ok false).
Proof.
  intros H0 H. destruct (new_registry_ok clock) as (s0' & k & E & Hok & Hk & Hep & Hst).
  rewrite E in H0. injection H0 as ->.
  destruct (run_switch_calls_spec audited _ _ _ _ _ Hok Hk H) as [[Hn Hs] (k' & Hk' & He' & Ho)].
  split_and!.
  - destruct (Hs PRODUCTION) as (p & Hp & Hpe & _). rewrite (permits_run _ _ _ _ Hp).
    unfold permits_operations. by rewrite Hpe.
  - rewrite (permits_run _ _ _ _ Hk'). unfold permits_operations.
    destruct (Hs STAGING) as (p & Hp & Hpe & _). simplify_eq. rewrite Ho, Hst.
    by rewrite bool_decide_true by done.
  - exists k'. by rewrite He', Hep.
  - intros e st Hne. unfold permits, switch, bindM, getM. rewrite Hne. unfold liftM, default_switch.
    match goal with |- context [check_KillSwitch ?x] => assert (check_KillSwitch x = Ok x) as -> end.
    { apply check_KillSwitch_Ok. cbn. split_and!; try done; destruct e; auto. }
    by destruct e.
Qed.

(** What an emergency stop needs.  On a well-formed store without a ledger
    of its own, [engage] of staging returns exactly when the reason has at
    most 256 characters, the given time is not before the creation of the
    switch and, when the registry is audited, the evidence can be built; it
    then leaves the switch engaged one epoch later.  Otherwise nothing
    changes. *)
Lemma kill_switch_engage_spec audited s k reason now actor rid clock s' r :
  switches_ok s → record_for STAGING s = Some k →
  engage audited STAGING reason now actor rid clock s = (s', r) →
  let k' := changed ENGAGED k reason now actor clock in
  let accepted := slen reason <= 256 ∧ ks_created_at k <= default clock now ∧
    (audited = true → is_ok (kill_switch_changed rid actor clock "staging" (value (ks_state k))
                               "engaged" (ks_epoch k + 1) (ks_reason k')) = true) in
  (accepted → r = Ok k' ∧ record_for STAGING s' = Some k' ∧ permits_operations k' = false) ∧
  (¬ accepted → s' = s ∧ is_ok r = false).
Proof.
  intros [Hn Hs] Hk H k' accepted. destruct (Hs STAGING) as (k0 & Hk0 & He & Hc & Hp).
  assert (k0 = k) as -> by congruence. unfold engage in H.
  rewrite (change_to_eq audited _ _ _ _ _ _ _ _ k) in H by done.
  assert (is_ok (ks_audit_drafts audited rid clock k' (ks_state k) actor) = true ↔
    (audited = true → is_ok (kill_switch_changed rid actor clock "staging" (value (ks_state k))
                               "engaged" (ks_epoch k + 1) (ks_reason k')) = true)) as Hd.
  { unfold ks_audit_drafts. destruct audited; [|by split]. cbn [ks_environment k' changed].
    rewrite He. cbn [value ks_state ks_epoch k' changed].
    change (value STAGING) with "staging"%string. change (value ENGAGED) with "engaged"%string.
    destruct (kill_switch_changed _ _ _ _ _ _ _ _); cbn; naive_solver. }
  assert (accepted ↔ change_result audited ENGAGED k reason now actor rid clock = Ok k') as Hiff.
  { rewrite change_result_Ok by done. fold k'. rewrite Hd. unfold accepted.
    assert (ks_state k ≠ PERMANENT) by (by intros ?%Hp). naive_solver. }
  split.
  - intros Ha%Hiff. rewrite Ha in H. simplify_eq. split_and!; [done| |by apply andb_false_r].
    unfold record_for, put_switch. cbn [kst_records]. cbn. by rewrite He, dget_set_eq.
  - intros Hna. destruct (change_result _ _ _ _ _ _ _ _) as [k1|x] eqn:E; simplify_eq; [|done].
    destruct Hna. apply Hiff. pose proof E as (-> & _)%change_result_Ok; done.
Qed.

(** An audited emergency stop is refused, and staging stays open, when its
    reason mentions a word of the secret list, such as "leaked token". *)
Lemma engage_refused_for_secret_reason s k reason now actor rid clock :
  switches_ok s → record_for STAGING s = Some k → slen reason <= 256 →
  ks_created_at k <= default clock now → has_secret_marker reason = true →
  engage true STAGING reason now actor rid clock s = (s, Raise AuditEventError).
Proof.
  intros [Hn Hs] Hk Hl Ht Hm. destruct (Hs STAGING) as (k0 & Hk0 & He & Hc & Hp).
  assert (k0 = k) as -> by congruence. unfold engage.
  rewrite (change_to_eq true _ _ _ _ _ _ _ _ k) by done. unfold change_result, ks_check_reason.
  rewrite bool_decide_false by (by intros ?%Hp). rewrite (proj2 (Z.leb_le _ _) Hl). cbn [negb raise_unless rbind].
  rewrite (proj2 (check_KillSwitch_Ok _ (changed ENGAGED k reason now actor clock))).
  2: { apply check_KillSwitch_Ok in Hc as (_ & _ & ? & ? & ?). cbn.
       split_and!; [done|by left|by case_match|lia|done]. }
  cbn [rbind]. assert (str_nonempty reason = true) as Hne by by destruct reason.
  unfold ks_audit_drafts. cbn [ks_reason changed]. rewrite Hne.
  destruct (kill_switch_changed _ _ _ _ _ _ _ _) as [d|x] eqn:E; cbn [rbind].
  - exfalso. unfold kill_switch_changed in E. pose proof E as ->%check_draft_id.
    apply (draft_texts_clean _ reason) in E as [E _]; [congruence|].
    unfold draft_texts. right. apply list_elem_of_omap. exists (Some reason). split; [|done].
    cbn -[kill_switch_event]. rewrite Hne. rewrite !elem_of_cons. tauto.
  - by apply check_draft_raises in E as ->.
Qed.
