(* ===== verification/Verification.v ===== *)
(** * Verification: post-condition checks and the records kept with them
    (control_plane/verification.py, control_plane/storage/sqlite_store.py)

    The comparison of an expected state with an independently observed one,
    the typed execution outcomes and the retry rule.  [vid] is the random
    verification identifier [secrets.token_hex(16)] and [clock] the time
    [datetime.now] gives.

    The record types of the storage layer that the action repository keeps:
    [ExecutionLease] with its fencing token, and [PlanSnapshot], the
    integrity-protected before-image of a plan revision. *)

From S2P Require Import Prelude PyStr PyDict PyTime Sha256 Json Models ProjectPlan AuditLedger.
From Stdlib Require Import Ascii String ZArith Lia.
From stdpp Require Import base strings list.

Local Open Scope string_scope.
Local Open Scope Z_scope.
Local Open Scope aipm_scope.

Definition VERIFICATION_VERSION : string := "mc612-verification-v1".
Definition PLAN_READBACK_VERIFIER : string := "control-plane-plan-readback".
Definition MAX_EVIDENCE_REFERENCES : Z := 8.

Inductive VerificationCode :=
  | PASSED | PLAN_MISSING | TARGET_MISMATCH | ENVIRONMENT_MISMATCH | REVISION_MISMATCH
  | DIGEST_MISMATCH | ENABLED_MISMATCH | FIELD_MISMATCH | INVALID_EXPECTATION.
#[export] Instance VerificationCode_eq_dec : EqDecision VerificationCode.
Proof. solve_decision. Defined.
#[export] Instance VerificationCode_value : EnumValue VerificationCode := λ c,
  match c with
  | PASSED => "passed" | PLAN_MISSING => "plan_missing" | TARGET_MISMATCH => "target_mismatch"
  | ENVIRONMENT_MISMATCH => "environment_mismatch" | REVISION_MISMATCH => "revision_mismatch"
  | DIGEST_MISMATCH => "digest_mismatch" | ENABLED_MISMATCH => "enabled_mismatch"
  | FIELD_MISMATCH => "field_mismatch" | INVALID_EXPECTATION => "invalid_expectation"
  end.

Module ExecutionOutcome.
Inductive t :=
  | MUTATION_NOT_STARTED | MUTATION_STARTED | MUTATION_SUCCEEDED | MUTATION_FAILED
  | VERIFICATION_SUCCEEDED | VERIFICATION_FAILED | ROLLBACK_NOT_REQUIRED | ROLLBACK_REQUESTED
  | ROLLBACK_SUCCEEDED | ROLLBACK_FAILED | UNKNOWN_OUTCOME.
End ExecutionOutcome.
#[export] Instance ExecutionOutcome_eq_dec : EqDecision ExecutionOutcome.t.
Proof. solve_decision. Defined.
#[export] Instance ExecutionOutcome_value : EnumValue ExecutionOutcome.t := λ o,
  match o with
  | ExecutionOutcome.MUTATION_NOT_STARTED => "mutation_not_started"
  | ExecutionOutcome.MUTATION_STARTED => "mutation_started"
  | ExecutionOutcome.MUTATION_SUCCEEDED => "mutation_succeeded"
  | ExecutionOutcome.MUTATION_FAILED => "mutation_failed"
  | ExecutionOutcome.VERIFICATION_SUCCEEDED => "verification_succeeded"
  | ExecutionOutcome.VERIFICATION_FAILED => "verification_failed"
  | ExecutionOutcome.ROLLBACK_NOT_REQUIRED => "rollback_not_required"
  | ExecutionOutcome.ROLLBACK_REQUESTED => "rollback_requested"
  | ExecutionOutcome.ROLLBACK_SUCCEEDED => "rollback_succeeded"
  | ExecutionOutcome.ROLLBACK_FAILED => "rollback_failed"
  | ExecutionOutcome.UNKNOWN_OUTCOME => "unknown_outcome"
  end.
#[export] Instance ExecutionOutcome_inj : Inj (=) (=) (value (A:=ExecutionOutcome.t)).
Proof. intros [] []; cbn; congruence. Qed.

(** [ExecutionOutcome(value)] *)
Definition all_outcomes : list ExecutionOutcome.t :=
  [ExecutionOutcome.MUTATION_NOT_STARTED; ExecutionOutcome.MUTATION_STARTED;
   ExecutionOutcome.MUTATION_SUCCEEDED; ExecutionOutcome.MUTATION_FAILED;
   ExecutionOutcome.VERIFICATION_SUCCEEDED; ExecutionOutcome.VERIFICATION_FAILED;
   ExecutionOutcome.ROLLBACK_NOT_REQUIRED; ExecutionOutcome.ROLLBACK_REQUESTED;
   ExecutionOutcome.ROLLBACK_SUCCEEDED; ExecutionOutcome.ROLLBACK_FAILED;
   ExecutionOutcome.UNKNOWN_OUTCOME].
Definition outcome_of_value (v : string) : result ExecutionOutcome.t :=
  match List.find (λ o, str_eqb (value o) v) all_outcomes with
  | Some o => Ok o
  | None => Raise ValueError
  end.

Definition retry_permitted (outcome : option ExecutionOutcome.t) : bool :=
  match outcome with
  | None => true
  | Some o => bool_decide (o = ExecutionOutcome.MUTATION_NOT_STARTED)
  end.

(** ** Expected and observed states *)

Record ExpectedState := {
  ex_target_id : string;
  ex_environment : string;
  ex_revision : Z;
  ex_canonical_digest : option string;
  ex_enabled : bool;
  ex_fields : list (string * string);
}.

(** [ExpectedState.__post_init__]: the fields end up sorted. *)
Definition new_ExpectedState (e : ExpectedState) : result ExpectedState :=
  let* _ := bounded_reference MAX_AUDIT_ID (Some (ex_target_id e)) in
  let* _ := bounded_reference 32 (Some (ex_environment e)) in
  require 1 <=? ex_revision e else_raise AuditEventError;;
  let* _ := bounded_reference 64 (ex_canonical_digest e) in
  Ok {| ex_target_id := ex_target_id e; ex_environment := ex_environment e;
        ex_revision := ex_revision e; ex_canonical_digest := ex_canonical_digest e;
        ex_enabled := ex_enabled e; ex_fields := sort_pairs (ex_fields e) |}.

Record ObservedState := {
  ob_target_id : string;
  ob_environment : string;
  ob_revision : Z;
  ob_canonical_digest : string;
  ob_enabled : bool;
  ob_fields : list (string * string);
  ob_observed_at : datetime;
}.

(** [ObservedState.__post_init__] *)
Definition new_ObservedState (o : ObservedState) : result ObservedState :=
  let* _ := bounded_reference MAX_AUDIT_ID (Some (ob_target_id o)) in
  let* _ := bounded_reference 32 (Some (ob_environment o)) in
  require 1 <=? ob_revision o else_raise AuditEventError;;
  let* _ := bounded_reference 64 (Some (ob_canonical_digest o)) in
  Ok {| ob_target_id := ob_target_id o; ob_environment := ob_environment o;
        ob_revision := ob_revision o; ob_canonical_digest := ob_canonical_digest o;
        ob_enabled := ob_enabled o; ob_fields := sort_pairs (ob_fields o);
        ob_observed_at := ob_observed_at o |}.

Definition observed_from_plan (plan : ProjectPlan) (clock : datetime) : result ObservedState :=
  new_ObservedState
    {| ob_target_id := pp_target_id plan; ob_environment := value (pp_environment plan);
       ob_revision := pp_revision plan; ob_canonical_digest := pp_digest plan;
       ob_enabled := pp_enabled plan;
       ob_fields := [("objective", pp_objective plan); ("title", pp_title plan)];
       ob_observed_at := clock |}.

Definition expected_from_plan (plan : ProjectPlan) (fields : list (string * string))
  : result ExpectedState :=
  new_ExpectedState
    {| ex_target_id := pp_target_id plan; ex_environment := value (pp_environment plan);
       ex_revision := pp_revision plan; ex_canonical_digest := Some (pp_digest plan);
       ex_enabled := pp_enabled plan; ex_fields := sort_pairs fields |}.

(** ** Results *)

Record VerificationResult := {
  vr_verification_id : string;
  vr_action_id : string;
  vr_success : bool;
  vr_reason_code : VerificationCode;
  vr_expected_revision : Z;
  vr_observed_revision : option Z;
  vr_expected_digest : option string;
  vr_observed_digest : option string;
  vr_observed_at : datetime;
  vr_verifier : string;
  vr_verification_version : string;
  vr_evidence_references : list string;
}.

(** [VerificationResult.__post_init__] *)
Definition check_VerificationResult (r : VerificationResult) : result VerificationResult :=
  let* _ := bounded_reference MAX_AUDIT_ID (Some (vr_verification_id r)) in
  let* _ := bounded_reference MAX_AUDIT_ID (Some (vr_action_id r)) in
  require eqb (vr_success r) (bool_decide (vr_reason_code r = PASSED)) else_raise AuditEventError;;
  let* _ := bounded_code (value (vr_reason_code r)) in
  let* _ := bounded_reference 64 (vr_expected_digest r) in
  let* _ := bounded_reference 64 (vr_observed_digest r) in
  require Z.of_nat (length (vr_evidence_references r)) <=? MAX_EVIDENCE_REFERENCES
    else_raise AuditEventError;;
  let* _ := rmap (λ s, bounded_reference MAX_AUDIT_ID (Some s)) (vr_evidence_references r) in
  require str_eqb (vr_verification_version r) VERIFICATION_VERSION else_raise AuditEventError;;
  Ok r.

(** [dict(pairs)]: later pairs replace earlier ones. *)
Definition dict_of (l : list (string * string)) : dict string string :=
  fold_left (λ d kv, dset (fst kv) (snd kv) d) l [].

Definition verification_code (expected : ExpectedState) (observed : ObservedState)
  : VerificationCode :=
  if negb (str_eqb (ex_target_id expected) (ob_target_id observed)) then TARGET_MISMATCH
  else if negb (str_eqb (ex_environment expected) (ob_environment observed))
  then ENVIRONMENT_MISMATCH
  else if negb (ex_revision expected =? ob_revision observed) then REVISION_MISMATCH
  else if match ex_canonical_digest expected with
          | Some d => negb (str_eqb d (ob_canonical_digest observed))
          | None => false
          end then DIGEST_MISMATCH
  else if negb (eqb (ex_enabled expected) (ob_enabled observed)) then ENABLED_MISMATCH
  else
    let observed_fields := dict_of (ob_fields observed) in
    if List.forallb (λ kv, bool_decide (dget (fst kv) observed_fields = Some (snd kv)))
         (dict_of (ex_fields expected))
    then PASSED else FIELD_MISMATCH.

Definition verify (expected : ExpectedState) (observed : ObservedState) (action_id vid : string)
  : result VerificationResult :=
  let code := verification_code expected observed in
  check_VerificationResult
    {| vr_verification_id := vid; vr_action_id := action_id;
       vr_success := bool_decide (code = PASSED); vr_reason_code := code;
       vr_expected_revision := ex_revision expected;
       vr_observed_revision := Some (ob_revision observed);
       vr_expected_digest := ex_canonical_digest expected;
       vr_observed_digest := Some (ob_canonical_digest observed);
       vr_observed_at := ob_observed_at observed; vr_verifier := PLAN_READBACK_VERIFIER;
       vr_verification_version := VERIFICATION_VERSION; vr_evidence_references := [] |}.

(** ** Properties *)

Lemma verification_code_PASSED e o :
  verification_code e o = PASSED ↔
    ex_target_id e = ob_target_id o ∧ ex_environment e = ob_environment o ∧
    ex_revision e = ob_revision o ∧
    (∀ d, ex_canonical_digest e = Some d → d = ob_canonical_digest o) ∧
    ex_enabled e = ob_enabled o ∧
    ∀ k v, (k, v) ∈ dict_of (ex_fields e) → dget k (dict_of (ob_fields o)) = Some v.
Proof.
  unfold verification_code, str_eqb.
  case_bool_decide; cbn [negb]; [|naive_solver].
  case_bool_decide; cbn [negb]; [|naive_solver].
  destruct (Z.eqb_spec (ex_revision e) (ob_revision o)); cbn [negb]; [|naive_solver].
  assert (match ex_canonical_digest e with
          | Some d => negb (bool_decide (d = ob_canonical_digest o)) | None => false end = false ↔
          ∀ d, ex_canonical_digest e = Some d → d = ob_canonical_digest o) as Hd.
  { destruct (ex_canonical_digest e) as [d|]; [|done]. rewrite negb_false_iff, bool_decide_eq_true.
    naive_solver. }
  destruct (match ex_canonical_digest e with Some _ => _ | None => _ end) eqn:E.
  { split; [done|]. intros (_ & _ & _ & Hd' & _). by apply Hd in Hd'. }
  destruct (Bool.eqb_spec (ex_enabled e) (ob_enabled o)); cbn [negb]; [|naive_solver].
  assert (List.forallb (λ kv, bool_decide (dget kv.1 (dict_of (ob_fields o)) = Some kv.2))
            (dict_of (ex_fields e)) = true ↔
          ∀ k v, (k, v) ∈ dict_of (ex_fields e) → dget k (dict_of (ob_fields o)) = Some v) as Hf.
  { rewrite List.forallb_forall. setoid_rewrite <-list_elem_of_In.
    setoid_rewrite bool_decide_eq_true. split.
    - intros Hall k v Hin. by apply (Hall (k, v)).
    - intros Hall [k v] Hin. by apply Hall. }
  destruct (List.forallb _ _); split; try done; naive_solver.
Qed.

Lemma pp_payload_inj p q :
  valid_datetime (pp_created_at p) → valid_datetime (pp_updated_at p) →
  valid_datetime (pp_created_at q) → valid_datetime (pp_updated_at q) →
  dumps (pp_payload p) = dumps (pp_payload q) → pp_with_digest EmptyString p = pp_with_digest EmptyString q.
Proof.
  intros V1 V2 V3 V4 H. unfold pp_payload in H. canon_inv H.
  repeat match goal with
    | E : isoformat _ = isoformat _ |- _ => apply isoformat_inj in E; [|done..]
    end.
  destruct p, q; cbn in *. by subst.
Qed.

(** A verification that succeeds is evidence about the whole plan: when
    [verify] of the state expected from plan [p] succeeds against the state
    observed from plan [q], the two plans agree on every field of the
    canonical payload, unless their payloads are an explicit SHA-256
    collision.  No claim of the executor enters. *)
Lemma verified_plan_is_expected p q fields clock e o aid vid r :
  valid_datetime (pp_created_at p) → valid_datetime (pp_updated_at p) →
  valid_datetime (pp_created_at q) → valid_datetime (pp_updated_at q) →
  expected_from_plan p fields = Ok e → observed_from_plan q clock = Ok o →
  verify e o aid vid = Ok r → vr_success r = true →
  pp_with_digest EmptyString p = pp_with_digest EmptyString q ∨
  collision (dumps (pp_payload p)) (dumps (pp_payload q)).
Proof.
  intros V1 V2 V3 V4 He Ho Hv Hs. unfold verify, check_VerificationResult in Hv. inv_ok.
  cbn in Hs. apply bool_decide_eq_true, verification_code_PASSED in Hs as (_ & _ & _ & Hd & _).
  unfold expected_from_plan, new_ExpectedState in He. inv_ok.
  unfold observed_from_plan, new_ObservedState in Ho. inv_ok. cbn in Hd.
  specialize (Hd _ eq_refl). unfold pp_digest in Hd.
  destruct (decide (dumps (pp_payload p) = dumps (pp_payload q))) as [E|E]; [|by right].
  left. by apply pp_payload_inj.
Qed.

(** The outcome of [verify] says exactly what holds: on well-formed
    references it returns, success is equivalent to every predicate of the
    closed set, and the reported code is the first failing one. *)
Lemma verify_spec e o aid vid :
  clean_ref MAX_AUDIT_ID vid → clean_ref MAX_AUDIT_ID aid →
  (∀ d, ex_canonical_digest e = Some d → clean_ref 64 d) → clean_ref 64 (ob_canonical_digest o) →
  ∃ r, verify e o aid vid = Ok r ∧ vr_action_id r = aid ∧ vr_verification_id r = vid ∧
    vr_reason_code r = verification_code e o ∧
    (vr_success r = true ↔
      ex_target_id e = ob_target_id o ∧ ex_environment e = ob_environment o ∧
      ex_revision e = ob_revision o ∧
      (∀ d, ex_canonical_digest e = Some d → d = ob_canonical_digest o) ∧
      ex_enabled e = ob_enabled o ∧
      ∀ k v, (k, v) ∈ dict_of (ex_fields e) → dget k (dict_of (ob_fields o)) = Some v).
Proof.
  intros Hv Ha He Ho. unfold verify, check_VerificationResult. cbn [vr_verification_id vr_action_id
    vr_success vr_reason_code vr_expected_digest vr_observed_digest vr_evidence_references
    vr_verification_version].
  rewrite !clean_ref_reference by done. cbn [rbind]. rewrite eqb_reflx. cbn [raise_unless rbind].
  assert (bounded_code (value (verification_code e o)) = Ok (value (verification_code e o))) as ->
    by (by destruct (verification_code e o)).
  cbn [rbind].
  assert (bounded_reference 64 (ex_canonical_digest e) = Ok (ex_canonical_digest e)) as ->.
  { destruct (ex_canonical_digest e); [|done]. by apply clean_ref_reference, He. }
  cbn. eexists. split; [done|]. cbn. split_and!; try done.
  by rewrite bool_decide_eq_true, verification_code_PASSED.
Qed.

Definition SNAPSHOT_VERSION_DEFAULT : string := "mc612-snapshot-v1".
(** [timedelta(minutes=5)] *)
Definition DEFAULT_LEASE_TTL : Z := minutes 5.

Record ExecutionLease := {
  ls_lease_id : string;
  ls_action_id : string;
  ls_environment : string;
  ls_fencing_token : Z;
  ls_state : string;
  ls_granted_at : datetime;
  ls_expires_at : datetime;
  ls_released_at : option datetime;
  ls_holder : option string;
  ls_action_version : option Z;
}.
#[export] Instance ExecutionLease_eq_dec : EqDecision ExecutionLease.
Proof. solve_decision. Defined.

(** [ExecutionLease.__post_init__] *)
Definition check_ExecutionLease (l : ExecutionLease) : result ExecutionLease :=
  require 1 <=? ls_fencing_token l else_raise storage_corrupt;;
  require match ls_action_version l with Some v => 1 <=? v | None => true end
    else_raise storage_corrupt;;
  Ok l.

(** [replace(lease, state="released", released_at=now)] *)
Definition released (now : datetime) (l : ExecutionLease) : ExecutionLease :=
  {| ls_lease_id := ls_lease_id l; ls_action_id := ls_action_id l;
     ls_environment := ls_environment l; ls_fencing_token := ls_fencing_token l;
     ls_state := "released"; ls_granted_at := ls_granted_at l; ls_expires_at := ls_expires_at l;
     ls_released_at := Some now; ls_holder := ls_holder l;
     ls_action_version := ls_action_version l |}.

Record PlanSnapshot := {
  sn_snapshot_id : string;
  sn_target_id : string;
  sn_environment : string;
  sn_revision : Z;
  sn_canonical_digest : string;
  sn_payload_canonical : string;
  sn_action_id : option string;
  sn_captured_at : datetime;
  sn_plan_id : option string;
  sn_snapshot_version : string;
  sn_integrity_digest : string;
}.
#[export] Instance PlanSnapshot_eq_dec : EqDecision PlanSnapshot.
Proof. solve_decision. Defined.

Definition snapshot_payload (s : PlanSnapshot) : json :=
  JObj [("action_id", JOpt JStr (sn_action_id s));
        ("canonical_digest", JStr (sn_canonical_digest s));
        ("captured_at", JStr (isoformat (sn_captured_at s)));
        ("environment", JStr (sn_environment s));
        ("plan_id", JOpt JStr (sn_plan_id s));
        ("payload_canonical", JStr (sn_payload_canonical s));
        ("revision", JInt (sn_revision s));
        ("snapshot_id", JStr (sn_snapshot_id s));
        ("snapshot_version", JStr (sn_snapshot_version s));
        ("target_id", JStr (sn_target_id s))].

(** [_snapshot_integrity_digest] *)
Definition snapshot_integrity_digest (s : PlanSnapshot) : string :=
  sha256_hex (dumps (snapshot_payload s)).

Definition sn_with_digest (d : string) (s : PlanSnapshot) : PlanSnapshot :=
  {| sn_snapshot_id := sn_snapshot_id s; sn_target_id := sn_target_id s;
     sn_environment := sn_environment s; sn_revision := sn_revision s;
     sn_canonical_digest := sn_canonical_digest s; sn_payload_canonical := sn_payload_canonical s;
     sn_action_id := sn_action_id s; sn_captured_at := sn_captured_at s;
     sn_plan_id := sn_plan_id s; sn_snapshot_version := sn_snapshot_version s;
     sn_integrity_digest := d |}.

(** [PlanSnapshot.__post_init__] *)
Definition new_PlanSnapshot (s : PlanSnapshot) : result PlanSnapshot :=
  require str_eqb (sn_snapshot_version s) SNAPSHOT_VERSION_DEFAULT else_raise storage_corrupt;;
  require 1 <=? sn_revision s else_raise storage_corrupt;;
  require HEX 64 (sn_canonical_digest s) else_raise storage_corrupt;;
  let expected := snapshot_integrity_digest s in
  if str_nonempty (sn_integrity_digest s)
  then require str_eqb (sn_integrity_digest s) expected else_raise storage_corrupt;; Ok s
  else Ok (sn_with_digest expected s).

(** ** Properties *)

Lemma snapshot_payload_digest d s : snapshot_payload (sn_with_digest d s) = snapshot_payload s.
Proof. done. Qed.

Lemma sn_with_digest_twice s d : sn_with_digest d (sn_with_digest EmptyString s) = sn_with_digest d s.
Proof. done. Qed.

Lemma snapshot_payload_inj s1 s2 :
  valid_datetime (sn_captured_at s1) → valid_datetime (sn_captured_at s2) →
  dumps (snapshot_payload s1) = dumps (snapshot_payload s2) →
  sn_with_digest EmptyString s1 = sn_with_digest EmptyString s2.
Proof.
  intros V1 V2 H. unfold snapshot_payload in H.
  canon_inv H.
  repeat match goal with
    | E : isoformat _ = isoformat _ |- _ => apply isoformat_inj in E; [|done..]
    | E : canon (JOpt JStr _) = canon (JOpt JStr _) |- _ => apply JOpt_str_inj in E
    end.
  destruct s1, s2; cbn in *. by subst.
Qed.

Lemma new_PlanSnapshot_Ok s s' :
  new_PlanSnapshot s = Ok s' →
  s' = sn_with_digest (snapshot_integrity_digest s) s ∧ 1 <= sn_revision s ∧
  HEX 64 (sn_canonical_digest s) = true.
Proof.
  unfold new_PlanSnapshot. intros H. inv_ok. case_match; inv_ok; split_and!; try done; try lia.
  match goal with H : str_eqb _ (snapshot_integrity_digest _) = true |- _ =>
    apply bool_decide_eq_true in H; rewrite <-H end.
  by destruct s'.
Qed.

(** A stored snapshot cannot be altered: two snapshots the constructor
    accepts with the same integrity digest are the same snapshot, plan
    content, owner action and capture time included, unless their canonical
    texts are an explicit SHA-256 collision. *)
Lemma snapshot_integrity s1 s2 t1 t2 :
  valid_datetime (sn_captured_at s1) → valid_datetime (sn_captured_at s2) →
  new_PlanSnapshot s1 = Ok t1 → new_PlanSnapshot s2 = Ok t2 →
  sn_integrity_digest t1 = sn_integrity_digest t2 →
  t1 = t2 ∨ collision (dumps (snapshot_payload t1)) (dumps (snapshot_payload t2)).
Proof.
  intros V1 V2 (-> & _ & _)%new_PlanSnapshot_Ok (-> & _ & _)%new_PlanSnapshot_Ok E.
  rewrite !snapshot_payload_digest. cbn in E.
  destruct (String.string_dec (dumps (snapshot_payload s1)) (dumps (snapshot_payload s2))) as [H|H];
    [left|by right].
  rewrite E, <-(sn_with_digest_twice s1), <-(sn_with_digest_twice s2).
  by rewrite (snapshot_payload_inj s1 s2).
Qed.
