(* ===== verification/SqlRows.v ===== *)
(** * SqlRows: rows and the values they hold (control_plane/storage/sqlite_store.py)

    What the statements of the stores write for a decision, an action, a
    confirmation, a plan, a lease, a snapshot and a verification, and the
    mappers that rebuild the value from a row, failing closed on anything the
    constructors refuse.  The round trips say the mappers undo the writers. *)

From S2P Require Import Prelude PyStr PyTime PyDict PyIso Sha256 Json JsonParse Models Lifecycle.
From S2P Require Import ProjectPlan Identity Policy AuditLedger Verification KillSwitch SqlTables.
From Stdlib Require Import Ascii String ZArith Lia.
From stdpp Require Import base strings list.

Local Open Scope string_scope.
Local Open Scope Z_scope.
Local Open Scope aipm_scope.

#[export] Instance LifecycleState_members : Enumerated LifecycleState :=
  [REQUESTED; PLANNED; CONFIRMATION_REQUIRED; CONFIRMED; SNAPSHOT_CAPTURED; INVALIDATED; EXPIRED; REJECTED;
   LEASED; RUNNING; EXECUTED_PENDING_VERIFICATION; VERIFIED_SUCCESS; VERIFICATION_FAILED; EXECUTION_FAILED;
   CANCEL_REQUESTED; TIMED_OUT; INTERRUPTED; RECONCILIATION_REQUIRED; ROLLBACK_REQUESTED; ROLLED_BACK;
   ROLLBACK_UNAVAILABLE; ROLLBACK_FAILED].
#[export] Instance ConfirmationKind_members : Enumerated ConfirmationKind := [OWNER_CONFIRMATION; DISTINCT_APPROVAL].
#[export] Instance ConfirmationState_members : Enumerated ConfirmationState :=
  [CONFIRMATION_REQUESTED; CONF_CONFIRMED; CONSUMED; CONF_EXPIRED; CONF_INVALIDATED].
#[export] Instance PolicyCode_members : Enumerated PolicyCode :=
  [ALLOWED; UNVERIFIED_IDENTITY; EXPIRED_IDENTITY; MISSING_ROLE; PC_UNSUPPORTED_OPERATION; TARGET_NOT_ALLOWED;
   ENVIRONMENT_NOT_ALLOWED; SELF_APPROVAL; Policy.PLAN_MISSING; PLAN_DISABLED; PC_PLAN_EXPIRED;
   PLAN_ENVIRONMENT_MISMATCH; FIELD_NOT_ALLOWED; PC_INVALID_REQUEST].
#[export] Instance Environment_members : Enumerated Environment := [STAGING; PRODUCTION].
#[export] Instance VerificationCode_members : Enumerated VerificationCode :=
  [PASSED; Verification.PLAN_MISSING; TARGET_MISMATCH; ENVIRONMENT_MISMATCH; REVISION_MISMATCH; DIGEST_MISMATCH;
   ENABLED_MISMATCH; FIELD_MISMATCH; INVALID_EXPECTATION].
#[export] Instance KillSwitchState_members : Enumerated KillSwitchState := [ENGAGED; DISENGAGED; PERMANENT].

Class EnumLaw (A : Type) `{Enumerated A} := enum_value : ∀ x : A, enum_of (value x) = Ok x.
#[export] Instance OperationKind_law : EnumLaw OperationKind.
Proof. by intros []. Qed.
#[export] Instance LifecycleState_law : EnumLaw LifecycleState.
Proof. by intros []. Qed.
#[export] Instance ConfirmationKind_law : EnumLaw ConfirmationKind.
Proof. by intros []. Qed.
#[export] Instance ConfirmationState_law : EnumLaw ConfirmationState.
Proof. by intros []. Qed.
#[export] Instance PolicyCode_law : EnumLaw PolicyCode.
Proof. by intros []. Qed.
#[export] Instance Environment_law : EnumLaw Environment.
Proof. by intros []. Qed.
#[export] Instance VerificationCode_law : EnumLaw VerificationCode.
Proof. by intros []. Qed.
#[export] Instance KillSwitchState_law : EnumLaw KillSwitchState.
Proof. by intros []. Qed.

Definition sql_bool (b : bool) : Z := if b then 1 else 0.
Definition of_sql_bool (z : Z) : bool := negb (z =? 0).

(** ** Requests *)

(** [payload[k]] *)
Definition item (k : string) (v : pyval) : result pyval :=
  match v with
  | VObj d => match dget k d with Some x => Ok x | None => Raise KeyError end
  | _ => Raise TypeError
  end.
(** A field the constructor takes as text: another type is refused there. *)
Definition text_field (v : pyval) : result string :=
  match v with VStr s => Ok s | _ => Raise invalid_request end.

(** [(item[0], item[1])]: also the first two characters of a text. *)
Definition pair_item (v : pyval) : result (pyval * pyval) :=
  match v with
  | VArr (a :: b :: _) => Ok (a, b)
  | VArr _ => Raise IndexError
  | VStr (String a (String b _)) => Ok (VStr (String a ""), VStr (String b ""))
  | VStr _ => Raise IndexError
  | VObj _ => Raise KeyError
  | _ => Raise TypeError
  end.
(** What iterating over a value yields. *)
Definition iterate (v : pyval) : result (list pyval) :=
  match v with
  | VArr l => Ok l
  | VStr s => Ok (List.map (λ c, VStr (String c "")) (String.list_ascii_of_string s))
  | VObj d => Ok (List.map VStr (dkeys d))
  | _ => Raise TypeError
  end.
Definition text_pair (p : pyval * pyval) : result (string * string) :=
  let* k := text_field (fst p) in let* v := text_field (snd p) in Ok (k, v).

Definition request_of_payload (payload : pyval) : result ActionRequest :=
  let* op := item "operation" payload in
  let* operation := match op with VStr s => enum_of s | _ => Raise ValueError end in
  let* target := item "target_id" payload in
  let* ikey := item "idempotency_key" payload in
  let* meta := item "metadata" payload in
  let* items := iterate meta in
  let* pairs := rmap pair_item items in
  let* environment := item "environment" payload in
  let* target := text_field target in
  let* ikey := text_field ikey in
  let* environment := text_field environment in
  let* metadata := rmap text_pair pairs in
  new_ActionRequest operation target ikey metadata environment.

(** [_request_from_canonical] *)
Definition request_from_canonical (canonical : string) : result ActionRequest :=
  let* request := or_corrupt (match (let* payload := loads canonical in request_of_payload payload) with
                              | Raise (ControlPlaneError _) => Raise corrupt
                              | r => r
                              end) in
  require str_eqb (request_canonical request) canonical else_raise corrupt;;
  Ok request.

(** ** Decisions and actions *)

Definition decision_row_of (d : AuthorizationDecision) (subject : string) (i : ActionIdentity) (r : ActionRequest)
  : decision_row :=
  {| dr_decision_id := ad_decision_id d; dr_action_id := id_action_id i; dr_allowed := sql_bool (ad_allowed d);
     dr_code := value (ad_code d); dr_operation := id_operation i; dr_target_id := id_target_id i;
     dr_environment := id_environment i; dr_policy_version := id_policy_version i;
     dr_principal_subject := subject; dr_confirmation_required := sql_bool (ad_confirmation_required d);
     dr_confirmation_kind := value (ad_confirmation_kind d); dr_plan_id := id_plan_id i;
     dr_plan_revision := id_target_revision i; dr_plan_digest := id_plan_digest i;
     dr_target_digest := id_target_digest i; dr_request_canonical := request_canonical r;
     dr_decided_at := isoformat (ad_decided_at d); dr_expires_at := isoformat (ad_expires_at d) |}.

Definition action_row_of (decision_id : string) (i : ActionIdentity) (a : ActionLifecycle) : action_row :=
  {| ar_action_id := lc_action_id a; ar_decision_id := decision_id; ar_idempotency_key := lc_idempotency_key a;
     ar_operation := id_operation i; ar_target_id := id_target_id i; ar_environment := id_environment i;
     ar_plan_id := id_plan_id i; ar_plan_revision := id_target_revision i; ar_plan_digest := id_plan_digest i;
     ar_target_digest := id_target_digest i; ar_requester_subject := id_requester_subject i;
     ar_policy_version := id_policy_version i; ar_lifecycle_state := value (lc_state a);
     ar_confirmation_kind := value (lc_confirmation_kind a); ar_approver_subject := lc_approver_subject a;
     ar_created_at := isoformat (lc_created_at a); ar_updated_at := isoformat (lc_created_at a);
     ar_expires_at := isoformat (lc_expires_at a); ar_version := lc_version a;
     ar_rollback_of_action_id := lc_rollback_of_action_id a; ar_snapshot_id := lc_snapshot_id a;
     ar_outcome := Some "mutation_not_started"; ar_contract_version := None; ar_capability_version := None;
     ar_contract_digest := None; ar_action_protocol := lc_action_protocol a |}.

(** [_identity_from_row], on an action row and on a decision row. *)
Definition verified_identity (i : ActionIdentity) : result ActionIdentity :=
  require verify_action_identity i else_raise corrupt;; Ok i.
Definition identity_from_row (r : action_row) : result ActionIdentity :=
  verified_identity
    {| id_action_id := ar_action_id r; id_plan_id := ar_plan_id r; id_plan_digest := ar_plan_digest r;
       id_target_revision := ar_plan_revision r; id_target_digest := ar_target_digest r;
       id_policy_version := ar_policy_version r; id_requester_subject := ar_requester_subject r;
       id_operation := ar_operation r; id_target_id := ar_target_id r; id_environment := ar_environment r |}.
Definition decision_identity (r : decision_row) : result ActionIdentity :=
  verified_identity
    {| id_action_id := dr_action_id r; id_plan_id := dr_plan_id r; id_plan_digest := dr_plan_digest r;
       id_target_revision := dr_plan_revision r; id_target_digest := dr_target_digest r;
       id_policy_version := dr_policy_version r; id_requester_subject := dr_principal_subject r;
       id_operation := dr_operation r; id_target_id := dr_target_id r; id_environment := dr_environment r |}.

(** [_decision_from_row] *)
Definition decision_from_row (r : decision_row) : result AuthorizationDecision :=
  or_corrupt (
    let* code := enum_of (dr_code r) in
    let* operation := enum_of (dr_operation r) in
    let* decided_at := parse_timestamp (dr_decided_at r) in
    let* expires_at := parse_timestamp (dr_expires_at r) in
    let* identity := decision_identity r in
    let* kind := enum_of (dr_confirmation_kind r) in
    let* request := request_from_canonical (dr_request_canonical r) in
    check_AuthorizationDecision
      {| ad_decision_id := dr_decision_id r; ad_allowed := of_sql_bool (dr_allowed r); ad_code := code;
         ad_operation := Some operation; ad_target_id := Some (dr_target_id r);
         ad_environment := Some (dr_environment r); ad_policy_version := dr_policy_version r;
         ad_principal_subject := Some (dr_principal_subject r);
         ad_confirmation_required := of_sql_bool (dr_confirmation_required r); ad_decided_at := decided_at;
         ad_expires_at := expires_at; ad_action_identity := Some identity;
         ad_plan_revision := Some (dr_plan_revision r); ad_plan_digest := Some (dr_plan_digest r);
         ad_confirmation_kind := kind; ad_request := Some request |}).

(** [_scope_from_row] *)
Definition scope_from_row (r : action_row) : result ActionScope :=
  check_ActionScope {| sc_target_id := ar_target_id r; sc_environment := ar_environment r;
                       sc_policy_version := ar_policy_version r |}.

(** [_lifecycle_from_row] *)
Definition lifecycle_from_row (r : action_row) : result ActionLifecycle :=
  or_corrupt (
    let* state := enum_of (ar_lifecycle_state r) in
    require 0 <=? ar_version r else_raise corrupt;;
    let* _ := identity_from_row r in
    require str_nonempty (ar_action_protocol r) else_raise corrupt;;
    let* operation := enum_of (ar_operation r) in
    let* scope := scope_from_row r in
    let* kind := enum_of (ar_confirmation_kind r) in
    let* created_at := parse_timestamp (ar_created_at r) in
    let* expires_at := parse_timestamp (ar_expires_at r) in
    check_ActionLifecycle
      {| lc_action_id := ar_action_id r; lc_plan_id := ar_plan_id r; lc_plan_digest := ar_plan_digest r;
         lc_operation := operation; lc_scope := scope; lc_state := state;
         lc_requester_subject := ar_requester_subject r; lc_action_protocol := ar_action_protocol r;
         lc_confirmation_kind := kind; lc_approver_subject := ar_approver_subject r;
         lc_idempotency_key := ar_idempotency_key r; lc_created_at := created_at; lc_expires_at := expires_at;
         lc_version := ar_version r; lc_decision_id := ar_decision_id r;
         lc_plan_revision := ar_plan_revision r; lc_rollback_of_action_id := ar_rollback_of_action_id r;
         lc_snapshot_id := ar_snapshot_id r |}).

(** ** Confirmations *)

Definition confirmation_row_of (b : ConfirmationBinding) : confirmation_row :=
  {| cr_confirmation_id := cb_confirmation_id b; cr_decision_id := cb_decision_id b;
     cr_action_id := cb_action_id b; cr_plan_id := cb_plan_id b; cr_plan_digest := cb_plan_digest b;
     cr_target_revision := cb_target_revision b; cr_target_digest := cb_target_digest b;
     cr_policy_version := cb_policy_version b; cr_requester_subject := cb_requester_subject b;
     cr_confirmed_by_subject := cb_confirmed_by_subject b;
     cr_confirmation_kind := value (cb_confirmation_kind b);
     cr_request_canonical := request_canonical (cb_request b); cr_scope := cb_scope b;
     cr_state := value (cb_state b); cr_created_at := isoformat (cb_created_at b);
     cr_expires_at := isoformat (cb_expires_at b); cr_consumed_at := None |}.

(** [_confirmation_from_row] *)
Definition confirmation_from_row (r : confirmation_row) : result ConfirmationBinding :=
  or_corrupt (
    let* kind := enum_of (cr_confirmation_kind r) in
    let* request := request_from_canonical (cr_request_canonical r) in
    let* created_at := parse_timestamp (cr_created_at r) in
    let* expires_at := parse_timestamp (cr_expires_at r) in
    let* state := enum_of (cr_state r) in
    check_ConfirmationBinding
      {| cb_confirmation_id := cr_confirmation_id r; cb_decision_id := cr_decision_id r;
         cb_action_id := cr_action_id r; cb_plan_id := cr_plan_id r; cb_plan_digest := cr_plan_digest r;
         cb_target_revision := cr_target_revision r; cb_target_digest := cr_target_digest r;
         cb_policy_version := cr_policy_version r; cb_requester_subject := cr_requester_subject r;
         cb_confirmation_kind := kind; cb_request := request; cb_created_at := created_at;
         cb_expires_at := expires_at; cb_confirmed_by_subject := cr_confirmed_by_subject r;
         cb_scope := cr_scope r; cb_state := state |}).

(** ** Plans, leases, snapshots, verifications *)

Definition plan_row_of (p : ProjectPlan) : plan_row :=
  {| pl_target_id := pp_target_id p; pl_environment := value (pp_environment p); pl_revision := pp_revision p;
     pl_title := pp_title p; pl_objective := pp_objective p; pl_enabled := sql_bool (pp_enabled p);
     pl_canonical_digest := pp_canonical_digest p; pl_created_at := isoformat (pp_created_at p);
     pl_updated_at := isoformat (pp_updated_at p) |}.

(** [_plan_row_to_domain] *)
Definition plan_row_to_domain (r : plan_row) : result ProjectPlan :=
  let* plan := or_corrupt (
    let* environment := enum_of (pl_environment r) in
    let* created_at := parse_timestamp (pl_created_at r) in
    let* updated_at := parse_timestamp (pl_updated_at r) in
    Ok {| pp_target_id := pl_target_id r; pp_environment := environment; pp_revision := pl_revision r;
          pp_title := pl_title r; pp_objective := pl_objective r; pp_created_at := created_at;
          pp_updated_at := updated_at; pp_enabled := of_sql_bool (pl_enabled r);
          pp_canonical_digest := pl_canonical_digest r |}) in
  require negb ((pl_revision r <? 1) || negb (str_eqb (pp_digest plan) (pp_canonical_digest plan)))
    else_raise corrupt;;
  Ok plan.

Definition lease_row_of (l : ExecutionLease) : lease_row :=
  {| lr_lease_id := ls_lease_id l; lr_action_id := ls_action_id l; lr_environment := ls_environment l;
     lr_fencing_token := ls_fencing_token l; lr_state := ls_state l; lr_holder := ls_holder l;
     lr_granted_at := isoformat (ls_granted_at l); lr_expires_at := isoformat (ls_expires_at l);
     lr_released_at := isoformat <$> ls_released_at l; lr_action_version := ls_action_version l |}.

(** The value [SQLiteLeaseRepository.get] builds. *)
Definition lease_from_row (r : lease_row) : result ExecutionLease :=
  or_corrupt (
    let* granted_at := parse_timestamp (lr_granted_at r) in
    let* expires_at := parse_timestamp (lr_expires_at r) in
    let* released_at :=
      match lr_released_at r with
      | Some s => if str_nonempty s then let* t := parse_timestamp s in Ok (Some t) else Ok None
      | None => Ok None
      end in
    check_ExecutionLease
      {| ls_lease_id := lr_lease_id r; ls_action_id := lr_action_id r; ls_environment := lr_environment r;
         ls_fencing_token := lr_fencing_token r; ls_state := lr_state r; ls_granted_at := granted_at;
         ls_expires_at := expires_at; ls_released_at := released_at; ls_holder := lr_holder r;
         ls_action_version := lr_action_version r |}).

(** [_insert_snapshot_row] and [_snapshot_from_row] *)
Definition snapshot_row_of (s : PlanSnapshot) : snapshot_row :=
  {| sr_snapshot_id := sn_snapshot_id s; sr_target_id := sn_target_id s; sr_environment := sn_environment s;
     sr_revision := sn_revision s; sr_canonical_digest := sn_canonical_digest s;
     sr_payload_canonical := sn_payload_canonical s; sr_action_id := sn_action_id s;
     sr_captured_at := isoformat (sn_captured_at s); sr_plan_id := sn_plan_id s;
     sr_snapshot_version := sn_snapshot_version s; sr_integrity_digest := sn_integrity_digest s |}.
Definition snapshot_from_row (r : snapshot_row) : result PlanSnapshot :=
  or_corrupt (
    let* captured_at := parse_timestamp (sr_captured_at r) in
    new_PlanSnapshot
      {| sn_snapshot_id := sr_snapshot_id r; sn_target_id := sr_target_id r; sn_environment := sr_environment r;
         sn_revision := sr_revision r; sn_canonical_digest := sr_canonical_digest r;
         sn_payload_canonical := sr_payload_canonical r; sn_action_id := sr_action_id r;
         sn_captured_at := captured_at; sn_plan_id := sr_plan_id r; sn_snapshot_version := sr_snapshot_version r;
         sn_integrity_digest := sr_integrity_digest r |}).

(** [_verification_integrity_digest] *)
Definition verification_payload (verification_id action_id : string) (success : bool) (reason_code : string)
    (expected_revision : Z) (observed_revision : option Z) (expected_digest observed_digest : option string)
    (verifier verification_version evidence_references observed_at : string) : json :=
  JObj [("action_id", JStr action_id); ("evidence_references", JStr evidence_references);
        ("expected_digest", JOpt JStr expected_digest); ("expected_revision", JInt expected_revision);
        ("observed_at", JStr observed_at); ("observed_digest", JOpt JStr observed_digest);
        ("observed_revision", JOpt JInt observed_revision); ("reason_code", JStr reason_code);
        ("success", JBool success); ("verification_id", JStr verification_id);
        ("verification_version", JStr verification_version); ("verifier", JStr verifier)].
(** [json.dumps(list(result.evidence_references), …)] *)
Definition evidence_text (r : VerificationResult) : string := enc (JArr (List.map JStr (vr_evidence_references r))).
Definition verification_digest (w : verification_row) : string :=
  sha256_hex (dumps (verification_payload (vw_verification_id w) (vw_action_id w) (of_sql_bool (vw_success w))
    (vw_reason_code w) (vw_expected_revision w) (vw_observed_revision w) (vw_expected_digest w)
    (vw_observed_digest w) (vw_verifier w) (vw_verification_version w) (vw_evidence_references w)
    (vw_observed_at w))).

Definition unsigned_verification_row (r : VerificationResult) : verification_row :=
  {| vw_verification_id := vr_verification_id r; vw_action_id := vr_action_id r;
     vw_success := sql_bool (vr_success r); vw_reason_code := value (vr_reason_code r);
     vw_expected_revision := vr_expected_revision r; vw_observed_revision := vr_observed_revision r;
     vw_expected_digest := vr_expected_digest r; vw_observed_digest := vr_observed_digest r;
     vw_verifier := vr_verifier r; vw_verification_version := vr_verification_version r;
     vw_evidence_references := evidence_text r; vw_observed_at := isoformat (vr_observed_at r);
     vw_integrity_digest := "" |}.
Definition vw_with_digest (d : string) (w : verification_row) : verification_row :=
  {| vw_verification_id := vw_verification_id w; vw_action_id := vw_action_id w; vw_success := vw_success w;
     vw_reason_code := vw_reason_code w; vw_expected_revision := vw_expected_revision w;
     vw_observed_revision := vw_observed_revision w; vw_expected_digest := vw_expected_digest w;
     vw_observed_digest := vw_observed_digest w; vw_verifier := vw_verifier w;
     vw_verification_version := vw_verification_version w;
     vw_evidence_references := vw_evidence_references w; vw_observed_at := vw_observed_at w;
     vw_integrity_digest := d |}.
Definition verification_row_of (r : VerificationResult) : verification_row :=
  let w := unsigned_verification_row r in vw_with_digest (verification_digest w) w.

(** [tuple(json.loads(text))] of a list of strings. *)
Definition evidence_from_text (s : string) : result (list string) :=
  let* v := loads s in
  let* items := iterate v in
  rmap (λ x, match x with VStr t => Ok t | _ => Raise AuditEventError end) items.

Record StoredVerificationRecord := { sv_record : VerificationResult; sv_integrity_digest : string }.

(** [_verification_from_row] *)
Definition verification_from_row (w : verification_row) : result StoredVerificationRecord :=
  let* result := or_corrupt (
    let* code := enum_of (vw_reason_code w) in
    let* observed_at := parse_timestamp (vw_observed_at w) in
    let* evidence := evidence_from_text (vw_evidence_references w) in
    check_VerificationResult
      {| vr_verification_id := vw_verification_id w; vr_action_id := vw_action_id w;
         vr_success := of_sql_bool (vw_success w); vr_reason_code := code;
         vr_expected_revision := vw_expected_revision w; vr_observed_revision := vw_observed_revision w;
         vr_expected_digest := vw_expected_digest w; vr_observed_digest := vw_observed_digest w;
         vr_observed_at := observed_at; vr_verifier := vw_verifier w;
         vr_verification_version := vw_verification_version w; vr_evidence_references := evidence |}) in
  require str_eqb (vw_integrity_digest w) (verification_digest w) else_raise corrupt;;
  Ok {| sv_record := result; sv_integrity_digest := verification_digest w |}.

(** ** Round trips *)

Lemma parse_isoformat t : valid_datetime t → parse_timestamp (isoformat t) = Ok t.
Proof. intros Ht. unfold parse_timestamp. rewrite fromisoformat_isoformat by done. cbn. f_equal. lia. Qed.
Lemma of_sql_bool_id b : of_sql_bool (sql_bool b) = b.
Proof. by destruct b. Qed.
Lemma or_corrupt_Ok {A} (r : result A) a : or_corrupt r = Ok a ↔ r = Ok a.
Proof. destruct r as [x|[]]; cbn; repeat case_match; naive_solver. Qed.
Lemma rmap_text_fields l : rmap text_pair (List.map (λ kv, (VStr (fst kv), VStr (snd kv))) l) = Ok l.
Proof. induction l as [|[k v] l IH]; [done|]. cbn in *. by rewrite IH. Qed.
Lemma rmap_pair_items l :
  rmap pair_item (List.map of_json (List.map (λ kv, JArr [JStr (fst kv); JStr (snd kv)]) l))
  = Ok (List.map (λ kv : string * string, (VStr (fst kv), VStr (snd kv))) l).
Proof. induction l as [|[k v] l IH]; [done|]. cbn in *. by rewrite IH. Qed.

(** A request the constructor built. *)
Definition request_wf (r : ActionRequest) : Prop :=
  new_ActionRequest (req_operation r) (req_target_id r) (req_idempotency_key r) (req_metadata r)
    (req_environment r) = Ok r.

Lemma request_of_canonical r : request_wf r → request_from_canonical (request_canonical r) = Ok r.
Proof.
  intros Hw. unfold request_from_canonical.
  assert ((let* payload := loads (request_canonical r) in request_of_payload payload) = Ok r)%aipm as ->.
  { unfold request_canonical, request_payload.
    match goal with |- context [dumps (JObj ?kvs)] =>
      destruct (loads_object kvs) as (d & -> & _ & _ & _ & Hd);
        [by apply (bool_decide_unpack _)|] end.
    cbn [rbind]. unfold request_of_payload, item.
    assert (dget "operation" d = Some (VStr (value (req_operation r)))) as -> by by rewrite Hd.
    assert (dget "target_id" d = Some (VStr (req_target_id r))) as -> by by rewrite Hd.
    assert (dget "idempotency_key" d = Some (VStr (req_idempotency_key r))) as -> by by rewrite Hd.
    assert (dget "metadata" d = Some (of_json (pairs_json (req_metadata r)))) as ->
      by (rewrite <- (canon_pairs (req_metadata r)) at 1; by rewrite Hd).
    assert (dget "environment" d = Some (VStr (req_environment r))) as -> by by rewrite Hd.
    cbn -[value]. rewrite enum_value. cbn [rbind]. rewrite rmap_pair_items. cbn [rbind].
    by rewrite rmap_text_fields. }
  cbn. unfold str_eqb. by rewrite bool_decide_true.
Qed.
