(* ===== verification/Rollback.v ===== *)
(** * Rollback: planning the inverse of a failed mutation (control_plane/rollback.py)

    [plan_rollback] compares a failed action, the snapshot taken before it and
    the plan as it is now.  The snapshot's payload is JSON text of any content;
    what Python makes of JSON numbers with a fraction or an exponent, and the
    texts of values that are not strings, is the record [py_values].
    [restored_snapshot] shows that the payload of a captured snapshot is read
    back as the plan it was taken from. *)

From S2P Require Import Prelude PyStr PyText PyDict PyTime PyIso Sha256 Json JsonParse Models AuditLedger.
From S2P Require Import ProjectPlan Verification.
From Stdlib Require Import Ascii String ZArith Lia.
From stdpp Require Import base strings pretty gmap list.

Local Open Scope string_scope.
Local Open Scope Z_scope.
Local Open Scope aipm_scope.

Definition ROLLBACK_PLAN_VERSION : string := "mc612-rollback-v1".
Definition REVERSIBLE_OPERATIONS : list OperationKind := [UPDATE_PROJECT_PLAN].

Module RollbackSafetyCode.
Inductive t := SAFE | WRONG_SNAPSHOT | STALE_SNAPSHOT | WRONG_TARGET | NON_REVERSIBLE | FIELD_NOT_REVERSIBLE
  | CURRENT_STATE_MISMATCH | INVALID_SNAPSHOT | ALREADY_ROLLED_BACK.
End RollbackSafetyCode.
#[export] Instance RollbackSafetyCode_eq_dec : EqDecision RollbackSafetyCode.t.
Proof. solve_decision. Defined.
#[export] Instance RollbackSafetyCode_value : EnumValue RollbackSafetyCode.t := λ c,
  match c with
  | RollbackSafetyCode.SAFE => "safe"
  | RollbackSafetyCode.WRONG_SNAPSHOT => "wrong_snapshot"
  | RollbackSafetyCode.STALE_SNAPSHOT => "stale_snapshot"
  | RollbackSafetyCode.WRONG_TARGET => "wrong_target"
  | RollbackSafetyCode.NON_REVERSIBLE => "non_reversible"
  | RollbackSafetyCode.FIELD_NOT_REVERSIBLE => "field_not_reversible"
  | RollbackSafetyCode.CURRENT_STATE_MISMATCH => "current_state_mismatch"
  | RollbackSafetyCode.INVALID_SNAPSHOT => "invalid_snapshot"
  | RollbackSafetyCode.ALREADY_ROLLED_BACK => "already_rolled_back"
  end.

Record RollbackPlan := {
  rb_plan_version : string;
  rb_original_action_id : string;
  rb_snapshot_id : string;
  rb_target_id : string;
  rb_environment : string;
  rb_expected_post_revision : Z;
  rb_expected_post_fields : list (string * string);
  rb_restore_revision : Z;
  rb_restore_digest : string;
  rb_restore_fields : list (string * string);
  rb_reversible_fields : list string;
  rb_safe : bool;
  rb_reason_code : RollbackSafetyCode.t;
}.

(** [RollbackPlan.__post_init__] *)
Definition check_RollbackPlan (p : RollbackPlan) : result RollbackPlan :=
  require str_eqb (rb_plan_version p) ROLLBACK_PLAN_VERSION else_raise AuditEventError;;
  let* original := bounded_text MAX_AUDIT_ID (rb_original_action_id p) in
  let* snapshot := bounded_text MAX_AUDIT_ID (rb_snapshot_id p) in
  let* target := bounded_text MAX_AUDIT_ID (rb_target_id p) in
  let* environment := bounded_text 32 (rb_environment p) in
  require 1 <=? rb_expected_post_revision p else_raise AuditEventError;;
  require 1 <=? rb_restore_revision p else_raise AuditEventError;;
  let* digest := bounded_text 64 (rb_restore_digest p) in
  require Bool.eqb (rb_safe p) (bool_decide (rb_reason_code p = RollbackSafetyCode.SAFE)) else_raise AuditEventError;;
  Ok {| rb_plan_version := rb_plan_version p; rb_original_action_id := original; rb_snapshot_id := snapshot;
        rb_target_id := target; rb_environment := environment;
        rb_expected_post_revision := rb_expected_post_revision p;
        rb_expected_post_fields := sort_pairs (rb_expected_post_fields p);
        rb_restore_revision := rb_restore_revision p; rb_restore_digest := digest;
        rb_restore_fields := sort_pairs (rb_restore_fields p);
        rb_reversible_fields := sorted_list (rb_reversible_fields p);
        rb_safe := rb_safe p; rb_reason_code := rb_reason_code p |}.

(** [_unsafe] *)
Definition unsafe (original : ActionLifecycle) (snapshot : option PlanSnapshot) (reason : RollbackSafetyCode.t)
  : result RollbackPlan :=
  let text f := match snapshot with
                | Some sn => if str_nonempty (f sn) then f sn else "unknown"
                | None => "unknown"
                end in
  check_RollbackPlan
    {| rb_plan_version := ROLLBACK_PLAN_VERSION; rb_original_action_id := lc_action_id original;
       rb_snapshot_id := match snapshot with Some sn => sn_snapshot_id sn | None => "unknown" end;
       rb_target_id := text sn_target_id; rb_environment := text sn_environment;
       rb_expected_post_revision := 1; rb_expected_post_fields := []; rb_restore_revision := 1;
       rb_restore_digest := string_of_list_ascii (repeat "0"%char 64); rb_restore_fields := [];
       rb_reversible_fields := []; rb_safe := false; rb_reason_code := reason |}.

(** ** The payload of a snapshot *)

(** [value[key]] *)
Definition get_item (v : pyval) (key : string) : result pyval :=
  match v with
  | VObj d => match dget key d with Some x => Ok x | None => Raise KeyError end
  | _ => Raise TypeError
  end.

Record py_values := {
  (** [int(x)] of a float, which may also be infinite or not a number *)
  py_float_int : string → result Z;
  py_float_true : string → bool;
  (** [str(x)] of a float, a list or a dictionary *)
  py_str_other : pyval → string;
  (** [json.dumps] of a dictionary that holds a float *)
  py_dumps_floats : dict string pyval → string;
}.

(** The digits of [int(text)]: underscores only between digits. *)
Fixpoint int_digits (s : string) (acc : Z) (after_digit : bool) : option Z :=
  match s with
  | EmptyString => if after_digit then Some acc else None
  | String c s' =>
      match digit_value c with
      | Some v => int_digits s' (10 * acc + v) true
      | None => if Ascii.eqb c "_" && after_digit then int_digits s' acc false else None
      end
  end.
Definition int_of_text (s : string) : result Z :=
  let unsigned t := match int_digits t 0 false with Some z => Ok z | None => Raise ValueError end in
  match strip s with
  | String "-" t => let* z := unsigned t in Ok (- z)
  | String "+" t => unsigned t
  | t => unsigned t
  end.

(** The value as JSON again, unless there is a float in it. *)
Fixpoint to_json (v : pyval) : option json :=
  match v with
  | VNull => Some JNull
  | VBool b => Some (JBool b)
  | VInt z => Some (JInt z)
  | VFloat _ => None
  | VStr s => Some (JStr s)
  | VArr l => JArr <$> foldr (λ x acc, match to_json x, acc with Some j, Some js => Some (j :: js) | _, _ => None end) (Some []) l
  | VObj d => JObj <$> foldr (λ kv acc, match to_json (snd kv), acc with
                                        | Some j, Some js => Some ((fst kv, j) :: js) | _, _ => None end) (Some []) d
  end.

Section payload.
Variable py : py_values.

(** [int(value)], [bool(value)], [str(value)] *)
Definition py_int (v : pyval) : result Z :=
  match v with
  | VInt z => Ok z
  | VBool b => Ok (if b then 1 else 0)
  | VFloat t => py_float_int py t
  | VStr s => int_of_text s
  | VNull | VArr _ | VObj _ => Raise TypeError
  end.
Definition py_bool (v : pyval) : bool :=
  match v with
  | VNull => false
  | VBool b => b
  | VInt z => negb (z =? 0)
  | VFloat t => py_float_true py t
  | VStr s => str_nonempty s
  | VArr l => match l with [] => false | _ => true end
  | VObj d => match d with [] => false | _ => true end
  end.

(** [datetime_from_iso] *)
Definition datetime_from_iso (v : pyval) : result iso_datetime :=
  match v with
  | VStr s => let* d := fromisoformat s in
              match iso_offset d with Some _ => Ok d | None => Raise ValueError end
  | _ => Raise TypeError
  end.
Definition environment_of_value (v : pyval) : result Environment :=
  match v with
  | VStr s => if str_eqb s "staging" then Ok STAGING else if str_eqb s "production" then Ok PRODUCTION
              else Raise ValueError
  | _ => Raise ValueError
  end.

(** The plan a payload describes: a [ProjectPlan] does not check its fields. *)
Record restored_plan := {
  rs_target_id : pyval;
  rs_environment : Environment;
  rs_revision : Z;
  rs_title : pyval;
  rs_objective : pyval;
  rs_created_at : iso_datetime;
  rs_updated_at : iso_datetime;
  rs_enabled : bool;
}.
Definition restored_payload (p : restored_plan) : dict string pyval :=
  [("created_at", VStr (iso_text (rs_created_at p))); ("enabled", VBool (rs_enabled p));
   ("environment", VStr (value (rs_environment p))); ("objective", rs_objective p);
   ("revision", VInt (rs_revision p)); ("target_id", rs_target_id p); ("title", rs_title p);
   ("updated_at", VStr (iso_text (rs_updated_at p)))].
Definition restored_digest (p : restored_plan) : string :=
  sha256_hex match to_json (VObj (restored_payload p)) with
             | Some j => dumps j
             | None => py_dumps_floats py (restored_payload p)
             end.

(** [_plan_from_snapshot_payload] *)
Definition plan_from_snapshot_payload (payload_canonical : string) : result restored_plan :=
  let* payload := loads payload_canonical in
  let* target := get_item payload "target_id" in
  let* environment := let* v := get_item payload "environment" in environment_of_value v in
  let* revision := let* v := get_item payload "revision" in py_int v in
  let* title := get_item payload "title" in
  let* objective := get_item payload "objective" in
  let* created := let* v := get_item payload "created_at" in datetime_from_iso v in
  let* updated := let* v := get_item payload "updated_at" in datetime_from_iso v in
  let* enabled := get_item payload "enabled" in
  Ok {| rs_target_id := target; rs_environment := environment; rs_revision := revision; rs_title := title;
        rs_objective := objective; rs_created_at := created; rs_updated_at := updated;
        rs_enabled := py_bool enabled |}.

(** The exceptions [plan_rollback] takes for an invalid snapshot. *)
Definition payload_error (e : exn) : bool := is_value_error e || bool_decide (e = TypeError ∨ e = KeyError).

Definition is_text (v : pyval) (s : string) : bool := match v with VStr t => str_eqb t s | _ => false end.

(** ** Planning *)

(** [dict(mutation_fields or {})], as the pairs in order. *)
Definition fields_reversible (fs : list (string * string)) : bool :=
  negb (bool_decide (fs = [])) && List.forallb (λ kv, mem (fst kv) ALLOWED_FIELDS) fs.

(** The checks before the payload is read. *)
Definition binding_fault (original : ActionLifecycle) (sn : PlanSnapshot) : option RollbackSafetyCode.t :=
  if negb (bool_decide (sn_action_id sn = Some (lc_action_id original))) then Some RollbackSafetyCode.WRONG_SNAPSHOT
  else if negb (str_eqb (sn_target_id sn) (sc_target_id (lc_scope original)) &&
                str_eqb (sn_environment sn) (sc_environment (lc_scope original)))
  then Some RollbackSafetyCode.WRONG_TARGET
  else if negb (sn_revision sn =? lc_plan_revision original) then Some RollbackSafetyCode.STALE_SNAPSHOT
  else if negb (bool_decide (lc_operation original ∈ REVERSIBLE_OPERATIONS)) then Some RollbackSafetyCode.NON_REVERSIBLE
  else if bool_decide (lc_state original = ROLLED_BACK) then Some RollbackSafetyCode.ALREADY_ROLLED_BACK
  else None.

Definition plan_rollback (original : ActionLifecycle) (snapshot : option PlanSnapshot) (current_plan : ProjectPlan)
    (mutation_fields : option (list (string * string))) : result RollbackPlan :=
  match snapshot with
  | None => unsafe original None RollbackSafetyCode.INVALID_SNAPSHOT
  | Some sn =>
      match binding_fault original sn with
      | Some code => unsafe original snapshot code
      | None =>
          match plan_from_snapshot_payload (sn_payload_canonical sn) with
          | Raise e => if payload_error e then unsafe original snapshot RollbackSafetyCode.INVALID_SNAPSHOT else Raise e
          | Ok p =>
              if negb (is_text (rs_target_id p) (sn_target_id sn) && (rs_revision p =? sn_revision sn))
              then unsafe original snapshot RollbackSafetyCode.INVALID_SNAPSHOT
              else if bool_decide (lc_operation original = UPDATE_PROJECT_PLAN) then
                let fs := default [] mutation_fields in
                if negb (fields_reversible fs) then unsafe original snapshot RollbackSafetyCode.FIELD_NOT_REVERSIBLE
                else if negb (pp_revision current_plan =? rs_revision p + 1)
                then unsafe original snapshot RollbackSafetyCode.CURRENT_STATE_MISMATCH
                else check_RollbackPlan
                  {| rb_plan_version := ROLLBACK_PLAN_VERSION; rb_original_action_id := lc_action_id original;
                     rb_snapshot_id := sn_snapshot_id sn; rb_target_id := sn_target_id sn;
                     rb_environment := sn_environment sn; rb_expected_post_revision := rs_revision p + 1;
                     rb_expected_post_fields := sort_pairs fs; rb_restore_revision := rs_revision p;
                     rb_restore_digest := restored_digest p; rb_restore_fields := sort_pairs fs;
                     rb_reversible_fields := sorted_list ALLOWED_FIELDS; rb_safe := true;
                     rb_reason_code := RollbackSafetyCode.SAFE |}
              else unsafe original snapshot RollbackSafetyCode.NON_REVERSIBLE
          end
      end
  end.

(** [Executor._snapshot_restore_fields]: title and objective of the payload. *)
Definition snapshot_restore_fields (sn : PlanSnapshot) : result (pyval * pyval) :=
  let* payload := loads (sn_payload_canonical sn) in
  let* title := get_item payload "title" in
  let* objective := get_item payload "objective" in
  Ok (title, objective).
Definition py_str (v : pyval) : string :=
  match v with
  | VNull => "None"
  | VBool b => if b then "True" else "False"
  | VInt z => pretty z
  | VStr s => s
  | _ => py_str_other py v
  end.
End payload.

(** ** What planning shows *)

(** The entries of a payload [json.dumps] wrote. *)
Lemma payload_items kvs : dwf kvs → ∃ d, loads (dumps (JObj kvs)) = Ok (VObj d) ∧
  ∀ k j, dget k kvs = Some j → get_item (VObj d) k = Ok (of_json (canon j)).
Proof.
  intros Hw. destruct (loads_object kvs Hw) as (d & Hd & _ & _ & _ & Hget). exists d. split; [done|].
  intros k j Hk. cbn. by rewrite Hget, Hk.
Qed.
Lemma pp_payload_wf p kvs : pp_payload p = JObj kvs → dwf kvs.
Proof. unfold pp_payload. intros [= <-]. unfold dwf, dkeys. cbn. by repeat constructor; set_solver. Qed.

(** The plan read back from the payload of a snapshot that was captured of [p]. *)
Definition captured_plan (p : ProjectPlan) : restored_plan :=
  {| rs_target_id := VStr (pp_target_id p); rs_environment := pp_environment p; rs_revision := pp_revision p;
     rs_title := VStr (pp_title p); rs_objective := VStr (pp_objective p);
     rs_created_at := {| iso_local := pp_created_at p; iso_offset := Some 0 |};
     rs_updated_at := {| iso_local := pp_updated_at p; iso_offset := Some 0 |}; rs_enabled := pp_enabled p |}.

Lemma restored_snapshot py p : valid_datetime (pp_created_at p) → valid_datetime (pp_updated_at p) →
  plan_from_snapshot_payload py (dumps (pp_payload p)) = Ok (captured_plan p) ∧
  restored_digest py (captured_plan p) = pp_digest p.
Proof.
  intros Hc Hu. split.
  - destruct (pp_payload p) as [| | | | |kvs] eqn:Ep; try discriminate Ep.
    destruct (payload_items kvs (pp_payload_wf p kvs Ep)) as (d & Hd & Hget).
    unfold plan_from_snapshot_payload. rewrite Hd. cbn [rbind].
    unfold pp_payload in Ep. injection Ep as <-.
    rewrite (Hget "target_id" _ eq_refl), (Hget "environment" _ eq_refl), (Hget "revision" _ eq_refl),
      (Hget "title" _ eq_refl), (Hget "objective" _ eq_refl), (Hget "created_at" _ eq_refl),
      (Hget "updated_at" _ eq_refl), (Hget "enabled" _ eq_refl).
    cbn [canon of_json rbind datetime_from_iso py_int py_bool].
    rewrite !fromisoformat_isoformat by done. cbn [rbind iso_offset].
    unfold captured_plan. by destruct (pp_environment p).
  - unfold restored_digest, restored_payload, captured_plan, pp_digest, pp_payload.
    cbn [rs_target_id rs_environment rs_revision rs_title rs_objective rs_created_at rs_updated_at rs_enabled].
    rewrite !iso_text_isoformat. reflexivity.
Qed.

Lemma check_RollbackPlan_Ok p p' : check_RollbackPlan p = Ok p' →
  rb_safe p' = rb_safe p ∧ rb_reason_code p' = rb_reason_code p ∧ rb_restore_digest p' = rb_restore_digest p ∧
  rb_restore_revision p' = rb_restore_revision p ∧ rb_expected_post_revision p' = rb_expected_post_revision p ∧
  rb_restore_fields p' = sort_pairs (rb_restore_fields p) ∧
  rb_original_action_id p' = rb_original_action_id p ∧ rb_snapshot_id p' = rb_snapshot_id p ∧
  rb_target_id p' = rb_target_id p ∧ rb_environment p' = rb_environment p.
Proof.
  assert (Hb : ∀ m v v', bounded_text m v = Ok v' → v' = v)
    by (intros m v v'; unfold bounded_text, assert_no_secret_material; intros H; by inv_ok).
  unfold check_RollbackPlan. intros H. inv_ok. subst. cbn.
  repeat match goal with H : bounded_text _ _ = Ok _ |- _ => apply Hb in H as -> end. by split_and!.
Qed.
Lemma unsafe_Ok a sn code p : unsafe a sn code = Ok p → rb_safe p = false ∧ rb_reason_code p = code.
Proof. intros H. by apply check_RollbackPlan_Ok in H as (-> & -> & _). Qed.

(** The conditions under which a rollback is planned as safe. *)
Record rollback_allowed (a : ActionLifecycle) (sn : PlanSnapshot) (cur : ProjectPlan) (fs : list (string * string))
  : Prop := {
  ra_action : sn_action_id sn = Some (lc_action_id a);
  ra_target : sn_target_id sn = sc_target_id (lc_scope a);
  ra_environment : sn_environment sn = sc_environment (lc_scope a);
  ra_revision : sn_revision sn = lc_plan_revision a;
  ra_operation : lc_operation a = UPDATE_PROJECT_PLAN;
  ra_state : lc_state a ≠ ROLLED_BACK;
  ra_fields : fields_reversible fs = true;
  ra_current : pp_revision cur = sn_revision sn + 1;
}.

Lemma binding_fault_None a sn : binding_fault a sn = None ↔
  sn_action_id sn = Some (lc_action_id a) ∧ sn_target_id sn = sc_target_id (lc_scope a) ∧
  sn_environment sn = sc_environment (lc_scope a) ∧ sn_revision sn = lc_plan_revision a ∧
  lc_operation a = UPDATE_PROJECT_PLAN ∧ lc_state a ≠ ROLLED_BACK.
Proof.
  unfold binding_fault, str_eqb, REVERSIBLE_OPERATIONS.
  repeat case_bool_decide; cbn [negb andb]; try (split; [done|naive_solver]);
    destruct (Z.eqb_spec (sn_revision sn) (lc_plan_revision a)); cbn [negb]; try (split; [done|naive_solver]);
    match goal with H : lc_operation a ∈ _ |- _ => apply list_elem_of_singleton in H | H : lc_operation a ∉ _ |- _ => rewrite list_elem_of_singleton in H end;
    naive_solver.
Qed.

(** When a rollback is planned as safe, for a snapshot that was captured of
    the plan [p].  Exactly when the snapshot is the failed action's, for its
    target, environment and revision, the action was an update that is not
    rolled back yet, its fields are the mutable ones and the current plan is one
    revision past the snapshot.  The plan then names the digest of [p]; its
    "restore fields" are the fields of the failed mutation, not those of the
    snapshot.  Every other combination is a plan marked unsafe. *)
Lemma rollback_plan_spec py a sn p cur fs rb :
  sn_payload_canonical sn = dumps (pp_payload p) → valid_datetime (pp_created_at p) → valid_datetime (pp_updated_at p) →
  sn_target_id sn = pp_target_id p → sn_revision sn = pp_revision p →
  plan_rollback py a (Some sn) cur (Some fs) = Ok rb →
  (rb_safe rb = true ↔ rollback_allowed a sn cur fs) ∧
  (rb_reason_code rb = RollbackSafetyCode.SAFE ↔ rb_safe rb = true) ∧
  (rb_safe rb = true →
     rb_original_action_id rb = lc_action_id a ∧ rb_snapshot_id rb = sn_snapshot_id sn ∧
     rb_target_id rb = sn_target_id sn ∧ rb_environment rb = sn_environment sn ∧
     rb_restore_digest rb = pp_digest p ∧ rb_restore_revision rb = pp_revision p ∧
     rb_expected_post_revision rb = pp_revision cur ∧ rb_restore_fields rb = sort_pairs fs).
Proof.
  intros Hpay Hc Hu Ht Hrev. unfold plan_rollback.
  assert (Hunsafe : ∀ code, code ≠ RollbackSafetyCode.SAFE → unsafe a (Some sn) code = Ok rb →
            ¬ rollback_allowed a sn cur fs →
            (rb_safe rb = true ↔ rollback_allowed a sn cur fs) ∧
            (rb_reason_code rb = RollbackSafetyCode.SAFE ↔ rb_safe rb = true) ∧ (rb_safe rb = true → False)).
  { intros code Hcode E Hn. apply unsafe_Ok in E as [-> ->]. split_and!; [split; done|split; done|done]. }
  pose proof (binding_fault_None a sn) as Hbf.
  destruct (binding_fault a sn) as [code|] eqn:Eb.
  { intros E. destruct (Hunsafe code) as (H1 & H2 & H3); [|done| |].
    - unfold binding_fault in Eb. repeat (case_match; simplify_eq; try done).
    - intros []. assert (Some code = None) by (apply Hbf; by split_and!). done.
    - split_and!; [exact H1|exact H2|]. intros H. destruct (H3 H). }
  destruct (proj1 Hbf eq_refl) as (B1 & B2 & B3 & B4 & B5 & B6).
  destruct (restored_snapshot py p Hc Hu) as [Hrp Hdig]. rewrite Hpay, Hrp.
  cbn [rs_target_id rs_revision captured_plan is_text]. rewrite Ht, Hrev, str_eqb_refl, Z.eqb_refl. cbn [andb negb].
  rewrite bool_decide_eq_true_2 by done. change (default [] (Some fs)) with fs. cbv zeta.
  destruct (fields_reversible fs) eqn:Ef; cbn [negb].
  2:{ intros E. destruct (Hunsafe RollbackSafetyCode.FIELD_NOT_REVERSIBLE) as (H1 & H2 & H3); [done|exact E|intros []; congruence|].
      split_and!; [exact H1|exact H2|]. intros H. destruct (H3 H). }
  destruct (Z.eqb_spec (pp_revision cur) (pp_revision p + 1)) as [Ecur|Ecur]; cbn [negb].
  2:{ intros E. destruct (Hunsafe RollbackSafetyCode.CURRENT_STATE_MISMATCH) as (H1 & H2 & H3); [done|exact E|intros []; lia|].
      split_and!; [exact H1|exact H2|]. intros H. destruct (H3 H). }
  intros E. apply check_RollbackPlan_Ok in E. cbn in E. destruct E as (-> & -> & -> & -> & -> & -> & -> & -> & -> & ->).
  split_and!; [|by split|].
  - split; [intros _|intros _; reflexivity].
    constructor; [exact B1|exact B2|exact B3|exact B4|exact B5|exact B6|exact Ef|by rewrite Ecur, Hrev].
  - intros _. rewrite Hdig, Ecur, (sort_pairs_id (sort_pairs fs)) by apply sort_pairs_in_order. repeat split.
Qed.
