(* ===== verification/ActionRepo.v ===== *)
(** * ActionRepo: the action repository (control_plane/action_state.py)

    [repo] is [InMemoryActionRepository]: its dictionaries, the plan store it
    mutates and its optional audit ledger.  Every method is a computation over
    it.  [lrid] and [rid] are the random lease and event identifiers a call
    draws; [now] is the time the caller passes. *)

From S2P Require Import Prelude PyStr PyTime Sha256 Json PyDict Models Lifecycle ProjectPlan.
From S2P Require Import Identity Policy Confirmation AuditLedger AuditBuilders Verification.
From Stdlib Require Import Ascii String ZArith Lia.
From stdpp Require Import base strings gmap sorting list.

Local Open Scope string_scope.
Local Open Scope Z_scope.
Local Open Scope aipm_scope.

Definition MAX_RECORDS : Z := 4096.

Definition state_conflict : exn := ControlPlaneError STATE_CONFLICT.

(** ** Registration coherence *)

Definition opt_truthy (o : option string) : bool :=
  match o with Some s => str_nonempty s | None => false end.

(** [validate_action_registration] *)
Definition validate_action_registration (d : AuthorizationDecision) (a : ActionLifecycle)
  : result unit :=
  match ad_allowed d, ad_action_identity d with
  | true, Some i =>
      require verify_action_identity i else_raise storage_corrupt;;
      require str_eqb (lc_action_id a) (id_action_id i) && str_eqb (lc_plan_id a) (id_plan_id i)
        else_raise storage_corrupt;;
      require str_eqb (lc_plan_digest a) (id_plan_digest i) &&
              str_eqb (sc_policy_version (lc_scope a)) (id_policy_version i)
        else_raise storage_corrupt;;
      require lc_plan_revision a =? id_target_revision i else_raise storage_corrupt;;
      require str_eqb (lc_requester_subject a) (id_requester_subject i) else_raise storage_corrupt;;
      require negb (str_nonempty (lc_decision_id a)) || str_eqb (lc_decision_id a) (ad_decision_id d)
        else_raise storage_corrupt;;
      let* _ :=
        if str_eqb (value (lc_operation a)) "rollback_project_plan" then
          require opt_truthy (lc_rollback_of_action_id a) && opt_truthy (lc_snapshot_id a)
            else_raise storage_corrupt;;
          raise_unless (negb (bool_decide (lc_rollback_of_action_id a = Some (lc_action_id a))))
            storage_corrupt
        else Ok () in
      raise_unless match ad_request d with
                   | None => false
                   | Some r => str_eqb (req_idempotency_key r) (lc_idempotency_key a)
                   end storage_corrupt
  | _, _ => Raise storage_corrupt
  end.

(** ** State *)

Record ContractEvidence := {
  ce_contract_version : string;
  ce_capability_version : string;
  ce_contract_digest : string;
}.

(** [(target_id, operation.value, idempotency_key)] *)
Definition idem_key : Type := string * string * string.

Record repo := {
  rp_max_records : Z;
  rp_audit : option ledger;
  rp_plans : option plan_store;
  rp_decisions : dict string AuthorizationDecision;
  rp_actions : dict string ActionLifecycle;
  rp_idempotency : dict idem_key string;
  rp_confirmations : conf_dict;
  rp_snapshots : dict string PlanSnapshot;
  rp_verifications : dict string VerificationResult;
  rp_outcomes : dict string string;
  rp_contract_evidence : dict string ContractEvidence;
  rp_leases : dict string ExecutionLease;
}.

Definition new_InMemoryActionRepository (max_records : Z) (audit : option ledger)
    (plans : option plan_store) : result repo :=
  require negb (max_records <? 1) else_raise ValueError;;
  Ok {| rp_max_records := max_records; rp_audit := audit; rp_plans := plans; rp_decisions := [];
        rp_actions := []; rp_idempotency := []; rp_confirmations := []; rp_snapshots := [];
        rp_verifications := []; rp_outcomes := []; rp_contract_evidence := []; rp_leases := [] |}.

(** Field updates. *)
Definition set_audit (x : option ledger) (s : repo) : repo :=
  {| rp_max_records := rp_max_records s; rp_audit := x; rp_plans := rp_plans s;
     rp_decisions := rp_decisions s; rp_actions := rp_actions s;
     rp_idempotency := rp_idempotency s; rp_confirmations := rp_confirmations s;
     rp_snapshots := rp_snapshots s; rp_verifications := rp_verifications s;
     rp_outcomes := rp_outcomes s; rp_contract_evidence := rp_contract_evidence s;
     rp_leases := rp_leases s |}.
Definition set_plans (x : option plan_store) (s : repo) : repo :=
  {| rp_max_records := rp_max_records s; rp_audit := rp_audit s; rp_plans := x;
     rp_decisions := rp_decisions s; rp_actions := rp_actions s;
     rp_idempotency := rp_idempotency s; rp_confirmations := rp_confirmations s;
     rp_snapshots := rp_snapshots s; rp_verifications := rp_verifications s;
     rp_outcomes := rp_outcomes s; rp_contract_evidence := rp_contract_evidence s;
     rp_leases := rp_leases s |}.
Definition set_registered (ds : dict string AuthorizationDecision) (x : dict string ActionLifecycle)
    (ks : dict idem_key string) (s : repo) : repo :=
  {| rp_max_records := rp_max_records s; rp_audit := rp_audit s; rp_plans := rp_plans s;
     rp_decisions := ds; rp_actions := x;
     rp_idempotency := ks; rp_confirmations := rp_confirmations s;
     rp_snapshots := rp_snapshots s; rp_verifications := rp_verifications s;
     rp_outcomes := rp_outcomes s; rp_contract_evidence := rp_contract_evidence s;
     rp_leases := rp_leases s |}.
Definition set_action (id : string) (a : ActionLifecycle) (s : repo) : repo :=
  set_registered (rp_decisions s) (dset id a (rp_actions s)) (rp_idempotency s) s.
Definition set_confirmations (x : conf_dict) (s : repo) : repo :=
  {| rp_max_records := rp_max_records s; rp_audit := rp_audit s; rp_plans := rp_plans s;
     rp_decisions := rp_decisions s; rp_actions := rp_actions s;
     rp_idempotency := rp_idempotency s; rp_confirmations := x;
     rp_snapshots := rp_snapshots s; rp_verifications := rp_verifications s;
     rp_outcomes := rp_outcomes s; rp_contract_evidence := rp_contract_evidence s;
     rp_leases := rp_leases s |}.
Definition set_snapshot (x : PlanSnapshot) (s : repo) : repo :=
  {| rp_max_records := rp_max_records s; rp_audit := rp_audit s; rp_plans := rp_plans s;
     rp_decisions := rp_decisions s; rp_actions := rp_actions s;
     rp_idempotency := rp_idempotency s; rp_confirmations := rp_confirmations s;
     rp_snapshots := dset (sn_snapshot_id x) x (rp_snapshots s);
     rp_verifications := rp_verifications s;
     rp_outcomes := rp_outcomes s; rp_contract_evidence := rp_contract_evidence s;
     rp_leases := rp_leases s |}.
Definition set_verification (x : VerificationResult) (s : repo) : repo :=
  {| rp_max_records := rp_max_records s; rp_audit := rp_audit s; rp_plans := rp_plans s;
     rp_decisions := rp_decisions s; rp_actions := rp_actions s;
     rp_idempotency := rp_idempotency s; rp_confirmations := rp_confirmations s;
     rp_snapshots := rp_snapshots s;
     rp_verifications := dset (vr_verification_id x) x (rp_verifications s);
     rp_outcomes := rp_outcomes s; rp_contract_evidence := rp_contract_evidence s;
     rp_leases := rp_leases s |}.
Definition set_outcome (id : string) (x : string) (s : repo) : repo :=
  {| rp_max_records := rp_max_records s; rp_audit := rp_audit s; rp_plans := rp_plans s;
     rp_decisions := rp_decisions s; rp_actions := rp_actions s;
     rp_idempotency := rp_idempotency s; rp_confirmations := rp_confirmations s;
     rp_snapshots := rp_snapshots s; rp_verifications := rp_verifications s;
     rp_outcomes := dset id x (rp_outcomes s); rp_contract_evidence := rp_contract_evidence s;
     rp_leases := rp_leases s |}.
Definition set_contract_evidence (id : string) (x : ContractEvidence) (s : repo) : repo :=
  {| rp_max_records := rp_max_records s; rp_audit := rp_audit s; rp_plans := rp_plans s;
     rp_decisions := rp_decisions s; rp_actions := rp_actions s;
     rp_idempotency := rp_idempotency s; rp_confirmations := rp_confirmations s;
     rp_snapshots := rp_snapshots s; rp_verifications := rp_verifications s;
     rp_outcomes := rp_outcomes s;
     rp_contract_evidence := dset id x (rp_contract_evidence s); rp_leases := rp_leases s |}.
Definition set_lease (id : string) (x : ExecutionLease) (s : repo) : repo :=
  {| rp_max_records := rp_max_records s; rp_audit := rp_audit s; rp_plans := rp_plans s;
     rp_decisions := rp_decisions s; rp_actions := rp_actions s;
     rp_idempotency := rp_idempotency s; rp_confirmations := rp_confirmations s;
     rp_snapshots := rp_snapshots s; rp_verifications := rp_verifications s;
     rp_outcomes := rp_outcomes s; rp_contract_evidence := rp_contract_evidence s;
     rp_leases := dset id x (rp_leases s) |}.

Definition get_decision (id : string) (s : repo) : option AuthorizationDecision := dget id (rp_decisions s).
Definition get_action (id : string) (s : repo) : option ActionLifecycle := dget id (rp_actions s).
Definition outcome_for_action (id : string) (s : repo) : option string := dget id (rp_outcomes s).
Definition get_contract_evidence (id : string) (s : repo) : option ContractEvidence :=
  dget id (rp_contract_evidence s).
Definition get_confirmation (id : string) (s : repo) : option ConfirmationBinding :=
  dget id (rp_confirmations s).

(** [_append_evidence] *)
Fixpoint append_evidence (drafts : list AuditEventDraft) : M repo unit :=
  match drafts with
  | [] => retM ()
  | d :: drafts' =>
      do s <- getM;;
      match rp_audit s with
      | None => retM ()
      | Some l =>
          let '(l', r) := append_in_transaction d l in
          do_ putM (set_audit (Some l') s);;
          do_ liftM r;;
          append_evidence drafts'
      end
  end.

(** ** Registration and advance *)

Definition lifecycle_key (a : ActionLifecycle) : idem_key :=
  (sc_target_id (lc_scope a), value (lc_operation a), lc_idempotency_key a).

Definition register_action (d : AuthorizationDecision) (a : ActionLifecycle)
    (drafts : list AuditEventDraft) : M repo unit :=
  do_ liftM (validate_action_registration d a);;
  do s <- getM;;
  match dget (lifecycle_key a) (rp_idempotency s) with
  | Some existing =>
      if str_eqb existing (lc_action_id a) && bool_decide (is_Some (ad_request d))
      then retM () else raiseM (ControlPlaneError IDEMPOTENCY_CONFLICT)
  | None =>
      assert_ negb (dmem (lc_action_id a) (rp_actions s)) else_raise storage_corrupt;;
      assert_ negb (rp_max_records s <=? dlen (rp_actions s)) else_raise invalid_request;;
      do_ modifyM (λ s, set_registered (dset (ad_decision_id d) d (rp_decisions s))
                          (dset (lc_action_id a) a (rp_actions s))
                          (dset (lifecycle_key a) (lc_action_id a) (rp_idempotency s)) s);;
      append_evidence drafts
  end.

Definition find_action_by_idempotency (target_id operation idempotency_key : string) (s : repo)
  : option ActionLifecycle :=
  match dget (target_id, operation, idempotency_key) (rp_idempotency s) with
  | None => None
  | Some id => get_action id s
  end.

(** [self._actions.get(action_id)], or the "Unknown action" refusal. *)
Definition the_action (id : string) : M repo ActionLifecycle :=
  do s <- getM;;
  match get_action id s with Some a => retM a | None => raiseM storage_corrupt end.

Definition check_version (a : ActionLifecycle) (expected_version : Z) : M repo unit :=
  liftM (raise_unless (lc_version a =? expected_version) state_conflict).

Definition check_state (a : ActionLifecycle) (st : LifecycleState) : M repo unit :=
  liftM (raise_unless (bool_decide (lc_state a = st)) state_conflict).

Definition advance_action (id : string) (expected_version : Z) (next_state : LifecycleState)
    (approver_subject : string) (now : datetime) (drafts : list AuditEventDraft)
  : M repo ActionLifecycle :=
  do a <- the_action id;;
  do_ check_version a expected_version;;
  do advanced <- liftM (advance a next_state (Some now) (Some approver_subject));;
  do_ modifyM (set_action id advanced);;
  do_ append_evidence drafts;;
  retM advanced.

Definition capture_snapshot_and_advance (sn : PlanSnapshot) (id : string) (expected_version : Z)
    (now : datetime) (drafts : list AuditEventDraft) : M repo ActionLifecycle :=
  assert_ bool_decide (sn_action_id sn = Some id) else_raise storage_corrupt;;
  do s <- getM;;
  match get_action id s with
  | None => raiseM (ControlPlaneError STALE_EVIDENCE)
  | Some current =>
      assert_ sn_revision sn =? lc_plan_revision current else_raise ControlPlaneError STALE_EVIDENCE;;
      do_ check_state current CONFIRMED;;
      assert_ negb (dmem id (rp_snapshots s)) else_raise storage_corrupt;;
      do advanced <- advance_action id expected_version SNAPSHOT_CAPTURED
                       (lc_requester_subject current) now [];;
      do_ modifyM (set_snapshot sn);;
      do_ append_evidence drafts;;
      retM advanced
  end.

Definition snapshot_for_action (id : string) (s : repo) : option PlanSnapshot :=
  List.find (λ sn, bool_decide (sn_action_id sn = Some id)) (dvalues (rp_snapshots s)).

(** ** Outcomes and contract evidence *)

Definition mark_outcome (id : string) (expected_version : Z) (outcome : string)
    (drafts : list AuditEventDraft) : M repo ActionLifecycle :=
  do normalized <- liftM (match outcome_of_value outcome with
                          | Ok o => Ok o
                          | Raise _ => Raise storage_corrupt
                          end);;
  do current <- the_action id;;
  do_ check_version current expected_version;;
  do s <- getM;;
  assert_ negb (bool_decide (outcome_for_action id s =
                             Some (value ExecutionOutcome.UNKNOWN_OUTCOME)) &&
                bool_decide (normalized = ExecutionOutcome.MUTATION_NOT_STARTED))
    else_raise state_conflict;;
  do_ modifyM (set_outcome id (value normalized));;
  do_ append_evidence drafts;;
  retM current.

(** [expected_version] is a parameter the code never reads. *)
Definition bind_contract_evidence (id : string) (expected_version : Z) (e : ContractEvidence)
  : M repo unit :=
  do s <- getM;;
  match get_contract_evidence id s with
  | Some existing =>
      if str_eqb (ce_contract_digest existing) (ce_contract_digest e)
      then retM () else raiseM storage_corrupt
  | None => modifyM (set_contract_evidence id e)
  end.

(** ** Leases *)

Definition release_lease (id lease_id : string) (fencing_token : Z) (now : datetime)
  : M repo bool :=
  do s <- getM;;
  match dget id (rp_leases s) with
  | None => retM false
  | Some l =>
      if negb (str_eqb (ls_lease_id l) lease_id) || negb (ls_fencing_token l =? fencing_token)
      then retM false
      else
        do l' <- liftM (check_ExecutionLease (released now l));;
        do_ modifyM (set_lease id l');;
        retM true
  end.

Definition lease_live (now : datetime) (l : ExecutionLease) : bool :=
  negb (negb (str_eqb (ls_state l) "granted") || (ls_expires_at l <=? now)).

Definition active_lease (id : string) (now : datetime) (s : repo) : option ExecutionLease :=
  match dget id (rp_leases s) with
  | Some l => if lease_live now l then Some l else None
  | None => None
  end.

(** [max((lease.fencing_token for lease in ... if lease.action_id == id), default=0)] *)
Definition max_token (id : string) (s : repo) : Z :=
  foldr (λ l m, if str_eqb (ls_action_id l) id then Z.max (ls_fencing_token l) m else m) 0
    (dvalues (rp_leases s)).

Definition acquire_lease (id : string) (expected_version : Z) (now : datetime)
    (drafts : list AuditEventDraft) (lrid rid : string)
  : M repo (ExecutionLease * ActionLifecycle) :=
  do current <- the_action id;;
  do_ check_state current SNAPSHOT_CAPTURED;;
  do_ check_version current expected_version;;
  assert_ negb (lc_is_expired current now) else_raise ControlPlaneError EXPIRED_PLAN;;
  do s <- getM;;
  assert_ bool_decide (active_lease id now s = None) else_raise state_conflict;;
  let fencing_token := max_token id s + 1 in
  do advanced <- advance_action id expected_version LEASED (lc_requester_subject current) now [];;
  do lease <- liftM (check_ExecutionLease
    {| ls_lease_id := lrid; ls_action_id := id; ls_environment := sc_environment (lc_scope current);
       ls_fencing_token := fencing_token; ls_state := "granted"; ls_granted_at := now;
       ls_expires_at := now + DEFAULT_LEASE_TTL; ls_released_at := None; ls_holder := None;
       ls_action_version := Some (lc_version advanced) |});;
  do_ modifyM (set_lease id lease);;
  do drafts' <- liftM (match drafts with
                       | [] =>
                           let* d := lease_acquired rid "control-plane-system" now id
                             (Some (lc_plan_id current)) (sc_target_id (lc_scope current))
                             (sc_environment (lc_scope current)) (ls_lease_id lease) fencing_token in
                           Ok [d]
                       | _ => Ok drafts
                       end);;
  do_ append_evidence drafts';;
  retM (lease, advanced).

(** ** Execution *)

Definition begin_execution (id : string) (expected_version : Z) (confirmation_id : string)
    (now : datetime) (drafts : list AuditEventDraft) : M repo ActionLifecycle :=
  do current <- the_action id;;
  do_ check_state current LEASED;;
  do_ check_version current expected_version;;
  do s <- getM;;
  match get_confirmation confirmation_id s with
  | None => raiseM mismatch
  | Some b =>
      assert_ bool_decide (cb_state b = CONF_CONFIRMED) else_raise mismatch;;
      do advanced <- advance_action id expected_version RUNNING (lc_requester_subject current) now [];;
      do consumed <- liftM (check_ConfirmationBinding
        (cb_with_state CONSUMED (cb_confirmed_by_subject b) b));;
      do_ modifyM (λ s, set_confirmations (dset confirmation_id consumed (rp_confirmations s)) s);;
      do_ append_evidence drafts;;
      retM advanced
  end.

(** [self._plans.update(...)]; any exception, the missing store included,
    becomes STALE_EVIDENCE. *)
Definition update_plans (target_id : string) (expected_revision : Z) (fields : gmap string string)
    (now : datetime) : M repo unit :=
  do s <- getM;;
  match rp_plans s with
  | None => raiseM (ControlPlaneError STALE_EVIDENCE)
  | Some plans =>
      let '(plans', r) := plans_update target_id expected_revision fields now plans in
      do_ putM (set_plans (Some plans') s);;
      match r with Ok _ => retM () | Raise _ => raiseM (ControlPlaneError STALE_EVIDENCE) end
  end.

Definition execute_plan_mutation (id : string) (expected_version expected_revision : Z)
    (fields : gmap string string) (now : datetime) (drafts : list AuditEventDraft)
  : M repo ActionLifecycle :=
  do current <- the_action id;;
  do_ check_state current RUNNING;;
  do_ check_version current expected_version;;
  do_ update_plans (sc_target_id (lc_scope current)) expected_revision fields now;;
  do advanced <- advance_action id expected_version EXECUTED_PENDING_VERIFICATION
                   (lc_requester_subject current) now [];;
  do_ modifyM (set_outcome id "mutation_succeeded");;
  do_ append_evidence drafts;;
  retM advanced.

Definition record_verification_outcome (id : string) (expected_version : Z)
    (r : VerificationResult) (now : datetime) (drafts : list AuditEventDraft)
  : M repo ActionLifecycle :=
  do current <- the_action id;;
  do_ check_state current EXECUTED_PENDING_VERIFICATION;;
  do_ check_version current expected_version;;
  let target := if vr_success r then VERIFIED_SUCCESS else VERIFICATION_FAILED in
  do advanced <- advance_action id expected_version target (lc_requester_subject current) now [];;
  do_ modifyM (set_verification r);;
  do_ modifyM (set_outcome id
       (if vr_success r then "verification_succeeded" else "verification_failed"));;
  do_ append_evidence drafts;;
  retM advanced.

(** [outcome] is the text that ends up stored. *)
Definition mark_reconciled (id : string) (expected_version : Z) (to_state : LifecycleState)
    (outcome : string) (now : datetime) (drafts : list AuditEventDraft) : M repo ActionLifecycle :=
  do current <- the_action id;;
  do_ check_version current expected_version;;
  do advanced <- advance_action id expected_version to_state (lc_requester_subject current) now [];;
  do_ modifyM (set_outcome id outcome);;
  do_ append_evidence drafts;;
  retM advanced.

(** [audit_drafts] is accepted and never appended. *)
Definition advance_rollback_state (id : string) (expected_version : Z)
    (from_states : list LifecycleState) (to_state : LifecycleState) (now : datetime)
    (drafts : list AuditEventDraft) : M repo ActionLifecycle :=
  do current <- the_action id;;
  assert_ bool_decide (lc_state current ∈ from_states) else_raise state_conflict;;
  do_ check_version current expected_version;;
  advance_action id expected_version to_state (lc_requester_subject current) now [].

Definition save_verification (r : VerificationResult) (drafts : list AuditEventDraft)
  : M repo VerificationResult :=
  do_ modifyM (set_verification r);;
  do_ append_evidence drafts;;
  retM r.

Definition records_for_action (id : string) (s : repo) : list VerificationResult :=
  List.filter (λ r, str_eqb (vr_action_id r) id) (dvalues (rp_verifications s)).

(** ** Confirmations *)

Definition put_confirmation (b : ConfirmationBinding) : M repo unit :=
  modifyM (λ s, set_confirmations (dset (cb_confirmation_id b) b (rp_confirmations s)) s).

(** [ConfirmationStore], as [OwnerConfirmationService] sees the repository. *)
#[export] Instance repo_conf_store : ConfStore repo := {
  cs_put := λ b s, set_confirmations (dset (cb_confirmation_id b) b (rp_confirmations s)) s;
  cs_get := get_confirmation;
  cs_has_active := λ a s,
    List.existsb (λ b, str_eqb (cb_action_id b) a && active_state (cb_state b))
      (dvalues (rp_confirmations s));
  cs_get_active := λ a s, find_active a (dvalues (rp_confirmations s));
  cs_count := λ s, dlen (rp_confirmations s);
}.

Record LifecycleTransition := {
  lt_action_id : string;
  lt_expected_version : Z;
  lt_next_state : LifecycleState;
  lt_approver_subject : string;
  lt_now : datetime;
}.

Definition record_confirmation_with_advance (b : ConfirmationBinding) (t : LifecycleTransition)
    (drafts : list AuditEventDraft) : M repo ActionLifecycle :=
  assert_ str_eqb (cb_action_id b) (lt_action_id t) else_raise mismatch;;
  do confirmed <- liftM (check_ConfirmationBinding
    (cb_with_state CONF_CONFIRMED (cb_confirmed_by_subject b) b));;
  do_ modifyM (λ s, set_confirmations
    (dset (cb_confirmation_id confirmed) confirmed (rp_confirmations s)) s);;
  do advanced <- advance_action (lt_action_id t) (lt_expected_version t) (lt_next_state t)
                   (lt_approver_subject t) (lt_now t) [];;
  do_ append_evidence drafts;;
  retM advanced.

(** ** Enumeration *)

(** The key [(created_at, action_id)] in tuple order. *)
Definition action_leb (a b : ActionLifecycle) : bool :=
  (lc_created_at a <? lc_created_at b) ||
  ((lc_created_at a =? lc_created_at b) && String.leb (lc_action_id a) (lc_action_id b)).

(** [sorted], stable. *)
Fixpoint insert_action (a : ActionLifecycle) (l : list ActionLifecycle) : list ActionLifecycle :=
  match l with
  | [] => [a]
  | b :: l' => if action_leb a b then a :: b :: l' else b :: insert_action a l'
  end.
Fixpoint sort_actions (l : list ActionLifecycle) : list ActionLifecycle :=
  match l with
  | [] => []
  | a :: l' => insert_action a (sort_actions l')
  end.

Definition non_terminal_action_ids (limit : Z) (s : repo) : result (list string) :=
  require 1 <=? limit else_raise storage_corrupt;;
  let live := List.filter (λ a, negb (in_states (lc_state a) terminal_states))
                (dvalues (rp_actions s)) in
  Ok (List.map lc_action_id (take (Z.to_nat limit) (sort_actions live))).

(** [max(candidates, key=...)]: the first of the largest. *)
Fixpoint max_action (best : ActionLifecycle) (l : list ActionLifecycle) : ActionLifecycle :=
  match l with
  | [] => best
  | a :: l' => max_action (if action_leb a best then best else a) l'
  end.

Definition latest_action_for_target (target_id : string) (s : repo) : option ActionLifecycle :=
  match List.filter (λ a, str_eqb (sc_target_id (lc_scope a)) target_id) (dvalues (rp_actions s)) with
  | [] => None
  | a :: l => Some (max_action a l)
  end.

(** ** Calls and histories *)

Inductive repo_call :=
  | CRegister (d : AuthorizationDecision) (a : ActionLifecycle) (drafts : list AuditEventDraft)
  | CAdvance (id : string) (v : Z) (st : LifecycleState) (actor : string) (now : datetime)
      (drafts : list AuditEventDraft)
  | CCapture (sn : PlanSnapshot) (id : string) (v : Z) (now : datetime)
      (drafts : list AuditEventDraft)
  | CMarkOutcome (id : string) (v : Z) (outcome : string) (drafts : list AuditEventDraft)
  | CBindContract (id : string) (v : Z) (e : ContractEvidence)
  | CRelease (id lease_id : string) (token : Z) (now : datetime)
  | CAcquire (id : string) (v : Z) (now : datetime) (drafts : list AuditEventDraft)
      (lrid rid : string)
  | CBegin (id : string) (v : Z) (confirmation_id : string) (now : datetime)
      (drafts : list AuditEventDraft)
  | CExecute (id : string) (v rev : Z) (fields : gmap string string) (now : datetime)
      (drafts : list AuditEventDraft)
  | CVerify (id : string) (v : Z) (r : VerificationResult) (now : datetime)
      (drafts : list AuditEventDraft)
  | CReconcile (id : string) (v : Z) (st : LifecycleState) (outcome : string) (now : datetime)
      (drafts : list AuditEventDraft)
  | CRollback (id : string) (v : Z) (from : list LifecycleState) (st : LifecycleState)
      (now : datetime) (drafts : list AuditEventDraft)
  | CSave (r : VerificationResult) (drafts : list AuditEventDraft)
  | CPutConfirmation (b : ConfirmationBinding)
  | CRecordConfirmation (b : ConfirmationBinding) (t : LifecycleTransition)
      (drafts : list AuditEventDraft).

Definition ignore {S A} (m : M S A) : M S unit := do_ m;; retM ().

Definition run_repo_call (c : repo_call) : M repo unit :=
  match c with
  | CRegister d a ds => register_action d a ds
  | CAdvance id v st actor now ds => ignore (advance_action id v st actor now ds)
  | CCapture sn id v now ds => ignore (capture_snapshot_and_advance sn id v now ds)
  | CMarkOutcome id v o ds => ignore (mark_outcome id v o ds)
  | CBindContract id v e => bind_contract_evidence id v e
  | CRelease id l t now => ignore (release_lease id l t now)
  | CAcquire id v now ds lrid rid => ignore (acquire_lease id v now ds lrid rid)
  | CBegin id v cid now ds => ignore (begin_execution id v cid now ds)
  | CExecute id v rev fs now ds => ignore (execute_plan_mutation id v rev fs now ds)
  | CVerify id v r now ds => ignore (record_verification_outcome id v r now ds)
  | CReconcile id v st o now ds => ignore (mark_reconciled id v st o now ds)
  | CRollback id v from st now ds => ignore (advance_rollback_state id v from st now ds)
  | CSave r ds => ignore (save_verification r ds)
  | CPutConfirmation b => put_confirmation b
  | CRecordConfirmation b t ds => ignore (record_confirmation_with_advance b t ds)
  end.

(** A history: the calls in order with their answers. *)
Inductive history : repo → list (repo_call * result unit) → repo → Prop :=
  | history_nil s : history s [] s
  | history_cons s c r s1 l s' :
      run_repo_call c s = (s1, r) → history s1 l s' → history s ((c, r) :: l) s'.

(** ** Specification *)

(** One accepted move of a lifecycle value, and any number of them. *)
Definition lifecycle_step (a a' : ActionLifecycle) : Prop :=
  ∃ target now actor, advance a target now actor = Ok a'.
Definition advances : ActionLifecycle → ActionLifecycle → Prop := rtc lifecycle_step.

(** What a recorded lease says of its action: the action has been leased, and
    once it has left LEASED the version the lease is bound to is past. *)
Definition lease_of (l : ExecutionLease) (a : ActionLifecycle) : Prop :=
  (rank (lc_state a) <= rank LEASED)%nat ∧
  ∃ v, ls_action_version l = Some v ∧ v <= lc_version a ∧
       (lc_state a ≠ LEASED → v < lc_version a).

(** Well-formed repositories. *)
Record repo_ok (s : repo) : Prop := {
  ro_action : ∀ id a, get_action id s = Some a → lc_action_id a = id;
  ro_idem : ∀ k id, dget k (rp_idempotency s) = Some id →
    ∃ a, get_action id s = Some a ∧ lifecycle_key a = k;
  ro_key : ∀ id a, get_action id s = Some a → dget (lifecycle_key a) (rp_idempotency s) = Some id;
  ro_bound : dlen (rp_actions s) <= rp_max_records s;
  ro_leases : dwf (rp_leases s);
  ro_lease : ∀ id l, dget id (rp_leases s) = Some l →
    ls_action_id l = id ∧ ls_fencing_token l = 1 ∧
    ∃ a, get_action id s = Some a ∧ lease_of l a;
}.

(** What no call ever undoes. *)
Record evolves (s s' : repo) : Prop := {
  ev_action : ∀ id a, get_action id s = Some a → ∃ a', get_action id s' = Some a' ∧ advances a a';
  ev_idem : ∀ k id, dget k (rp_idempotency s) = Some id → dget k (rp_idempotency s') = Some id;
  ev_contract : ∀ id e, get_contract_evidence id s = Some e → get_contract_evidence id s' = Some e;
  ev_lease : ∀ id l, dget id (rp_leases s) = Some l →
    ∃ l', dget id (rp_leases s') = Some l' ∧ ls_lease_id l' = ls_lease_id l;
}.

Definition safe_step (s s' : repo) : Prop := repo_ok s → repo_ok s' ∧ evolves s s'.

(** ** Lemmas *)

Lemma lifecycle_step_facts a a' :
  lifecycle_step a a' →
  lc_version a' = lc_version a + 1 ∧ (rank (lc_state a') < rank (lc_state a))%nat ∧
  lc_action_id a' = lc_action_id a ∧ lifecycle_key a' = lifecycle_key a ∧ same_binding a a'.
Proof.
  intros (t & now & actor & H). pose proof (advance_state _ _ _ _ _ H) as (Hs & Hv & Hb).
  apply advance_Ok in H as (He & _ & (ap & -> & _) & _). apply edge_rank in He.
  split_and!; try done.
Qed.

Lemma advances_facts a a' :
  advances a a' →
  lc_version a <= lc_version a' ∧ (rank (lc_state a') <= rank (lc_state a))%nat ∧
  lc_action_id a' = lc_action_id a ∧ lifecycle_key a' = lifecycle_key a.
Proof.
  induction 1 as [|a b c Hab _ (V & R & I & K)]; [split_and!; done || lia|].
  apply lifecycle_step_facts in Hab as (V' & R' & I' & K' & _). split_and!; try lia; congruence.
Qed.

Lemma lease_of_step l a a' : lifecycle_step a a' → lease_of l a → lease_of l a'.
Proof.
  intros (Hv & Hr & _)%lifecycle_step_facts [Hrank (v & Hl & Hle & _)]. split; [lia|].
  exists v. split; [done|]. lia.
Qed.

#[export] Instance evolves_preorder : PreOrder evolves.
Proof.
  split.
  - intros s. split; intros; eauto. eexists. by split; [|apply rtc_refl].
  - intros s1 s2 s3 [A1 I1 C1 L1] [A2 I2 C2 L2]. split; intros; eauto.
    + destruct (A1 _ _ H) as (a1 & Ha1 & S1). destruct (A2 _ _ Ha1) as (a2 & Ha2 & S2).
      exists a2. split; [done|]. by etrans.
    + destruct (L1 _ _ H) as (l1 & Hl1 & E1). destruct (L2 _ _ Hl1) as (l2 & Hl2 & E2).
      exists l2. split; [done|]. congruence.
Qed.
#[export] Instance safe_step_preorder : PreOrder safe_step.
Proof.
  split.
  - intros s Hs. by split.
  - intros s1 s2 s3 H1 H2 Hs. destruct (H1 Hs) as [Hs2 E1]. destruct (H2 Hs2) as [Hs3 E2].
    split; [done|by etrans].
Qed.

(** Writes that leave actions, keys, contracts and leases alone. *)
Definition same_core (s s' : repo) : Prop :=
  rp_actions s' = rp_actions s ∧ rp_idempotency s' = rp_idempotency s ∧
  rp_contract_evidence s' = rp_contract_evidence s ∧ rp_leases s' = rp_leases s ∧
  rp_max_records s' = rp_max_records s.

Lemma same_core_safe s s' : same_core s s' → safe_step s s'.
Proof.
  intros (HA & HI & HC & HL & HM) [A I K B D L].
  unfold get_action in *. split.
  - split; unfold get_action; rewrite ?HA, ?HI, ?HL, ?HM; done.
  - split; unfold get_action, get_contract_evidence; rewrite ?HA, ?HI, ?HC, ?HL; intros; eauto.
    eexists. by split; [|apply rtc_refl].
Qed.

Lemma safe_core s s' : 
  rp_actions s' = rp_actions s → rp_idempotency s' = rp_idempotency s →
  rp_contract_evidence s' = rp_contract_evidence s → rp_leases s' = rp_leases s →
  rp_max_records s' = rp_max_records s → safe_step s s'.
Proof. intros. by apply same_core_safe. Qed.

(** Replacing an action by a value it advances to. *)
Lemma set_action_safe id a a' s :
  get_action id s = Some a → lifecycle_step a a' → safe_step s (set_action id a' s).
Proof.
  intros Ha Hstep [A I K B D L].
  pose proof (lifecycle_step_facts _ _ Hstep) as (Hv & Hr & Hi & Hk & _).
  assert (∀ id', get_action id' (set_action id a' s) =
            if decide (id' = id) then Some a' else get_action id' s) as Hget
    by (intros; apply dget_set).
  split; [split|split]; unfold set_action; cbn [rp_idempotency rp_leases rp_max_records
    rp_contract_evidence set_registered].
  - intros id' b. fold (set_action id a' s). rewrite Hget. case_decide; [|apply A].
    intros [= <-]. subst. rewrite Hi. by apply A.
  - intros k id' Hid. destruct (I _ _ Hid) as (b & Hb & <-). fold (set_action id a' s).
    rewrite Hget. case_decide as E; [|eauto]. subst. exists a'. split; [done|]. congruence.
  - intros id' b. fold (set_action id a' s). rewrite Hget. case_decide; [|apply K].
    intros [= <-]. subst. rewrite Hk. by apply K.
  - cbn. rewrite dset_len. unfold get_action in Ha. rewrite decide_False by congruence. lia.
  - done.
  - intros id' l Hl. destruct (L _ _ Hl) as (? & ? & b & Hb & Hrank). split_and!; [done..|].
    fold (set_action id a' s). rewrite Hget. case_decide as E; [|eauto]. subst. exists a'.
    split; [done|]. simplify_eq. by eapply lease_of_step.
  - intros id' b Hb. fold (set_action id a' s). rewrite Hget. case_decide as E.
    + subst. simplify_eq. exists a'. split; [done|]. by apply rtc_once.
    + exists b. split; [done|apply rtc_refl].
  - done.
  - done.
  - eauto.
Qed.

Lemma append_evidence_cons d ds s :
  append_evidence (d :: ds) s =
    match rp_audit s with
    | None => (s, Ok ())
    | Some l =>
        let '(l', r) := append_in_transaction d l in
        match r with
        | Ok _ => append_evidence ds (set_audit (Some l') s)
        | Raise x => (set_audit (Some l') s, Raise x)
        end
    end.
Proof.
  cbn [append_evidence]. unfold bindM at 1, getM. destruct (rp_audit s) as [l|]; [|done].
  by destruct (append_in_transaction d l) as [l' [e|x]].
Qed.

Lemma append_evidence_core ds s s' r :
  append_evidence ds s = (s', r) → same_core s s' ∧ ∀ id, get_action id s' = get_action id s.
Proof.
  revert s. induction ds as [|d ds IH]; intros s H.
  { cbn in H. unfold retM in H. by simplify_eq. }
  rewrite append_evidence_cons in H. destruct (rp_audit s) as [l|]; [|by simplify_eq].
  destruct (append_in_transaction d l) as [l' [e|x]].
  - apply IH in H as [(? & ? & ? & ? & ?) Hg]. by split.
  - by simplify_eq.
Qed.

Lemma append_evidence_safe ds : keeps safe_step (append_evidence ds).
Proof. intros s s' r H. by apply same_core_safe, (append_evidence_core ds s s' r). Qed.

Lemma the_action_reads id : reads (the_action id).
Proof. unfold the_action. solve_atomic. Qed.
Lemma check_version_reads a v : reads (check_version a v).
Proof. unfold check_version. solve_atomic. Qed.
Lemma check_state_reads a st : reads (check_state a st).
Proof. unfold check_state. solve_atomic. Qed.
#[export] Hint Resolve the_action_reads check_version_reads check_state_reads : atomicity.

Lemma the_action_Ok id s s' a : the_action id s = (s', Ok a) ↔ s' = s ∧ get_action id s = Some a.
Proof.
  unfold the_action, bindM, getM. destruct (get_action id s); cbn; unfold retM, raiseM; naive_solver.
Qed.
Lemma check_version_Ok a v s s' u : check_version a v s = (s', Ok u) ↔ s' = s ∧ lc_version a = v.
Proof.
  unfold check_version. destruct u. rewrite liftM_raise_unless_Ok, Z.eqb_eq. naive_solver.
Qed.
Lemma check_state_Ok a st s s' u : check_state a st s = (s', Ok u) ↔ s' = s ∧ lc_state a = st.
Proof.
  unfold check_state. destruct u. rewrite liftM_raise_unless_Ok, bool_decide_eq_true. naive_solver.
Qed.

(** [repo_inv] is [inv_ok] that also understands the guards of this file. *)
Ltac repo_inv := repeat (inv_ok; match goal with
  | H : the_action _ _ = (_, Ok _) |- _ => apply the_action_Ok in H as [-> ?]
  | H : check_version _ _ _ = (_, Ok _) |- _ => apply check_version_Ok in H as [-> ?]
  | H : check_state _ _ _ = (_, Ok _) |- _ => apply check_state_Ok in H as [-> ?]
  end); inv_ok.

(** An accepted advance: the version matched and one lifecycle step was taken. *)
Lemma advance_action_Ok id v st actor now ds s s' a' :
  advance_action id v st actor now ds s = (s', Ok a') →
  ∃ a, get_action id s = Some a ∧ lc_version a = v ∧
    advance a st (Some now) (Some actor) = Ok a' ∧ get_action id s' = Some a' ∧
    (∀ id', id' ≠ id → get_action id' s' = get_action id' s) ∧
    rp_leases s' = rp_leases s.
Proof.
  unfold advance_action. intros H. repo_inv.
  match goal with H : append_evidence _ _ = _ |- _ =>
    apply append_evidence_core in H as [(_ & _ & _ & HL & _) Hg] end.
  eexists. split_and!; try done.
  - rewrite Hg. unfold get_action, set_action. cbn. by rewrite dget_set_eq.
  - intros id' Hne. rewrite Hg. unfold get_action, set_action. cbn. by rewrite dget_set_ne.
Qed.

Lemma advance_action_safe id v st actor now ds : keeps safe_step (advance_action id v st actor now ds).
Proof.
  intros s. unfold advance_action. repeat keeps_step; repo_inv; try apply append_evidence_safe.
  eapply set_action_safe; [eassumption|]. eexists _, _, _. eassumption.
Qed.

(** A write outside the core. *)
Ltac core_write := apply keeps_from_modify; by apply safe_core.

(** Walks an operation down to its writes and closes the ordinary ones. *)
Ltac safe_walk :=
  repeat first
    [ apply advance_action_safe | apply append_evidence_safe | core_write | keeps_step ].

Lemma register_action_safe d a ds : keeps safe_step (register_action d a ds).
Proof.
  intros s. unfold register_action. safe_walk. repo_inv.
  match goal with H : dget (lifecycle_key _) _ = None |- _ => rename H into Hidem end.
  match goal with H : dmem _ _ = false |- _ => rename H into Hnew; apply dmem_false in Hnew end.
  match goal with H : (rp_max_records _ <=? _) = false |- _ => rename H into Hb; apply Z.leb_gt in Hb end.
  match goal with |- safe_step ?s0 _ => rename s0 into s end.
  intros [A I K B D L].
  set (s1 := set_registered _ _ _ s).
  assert (∀ id, get_action id s1 = if decide (id = lc_action_id a) then Some a else get_action id s)
    as Hget by (intros; apply dget_set).
  split; [split|split]; unfold s1; cbn [rp_idempotency rp_leases rp_max_records
    rp_contract_evidence set_registered].
  - intros id b. fold s1. rewrite Hget. case_decide; [naive_solver|apply A].
  - intros k id. rewrite dget_set. fold s1. rewrite Hget. case_decide as Ek.
    + intros [= <-]. rewrite decide_True by done. by exists a.
    + intros Hid. destruct (I _ _ Hid) as (b & Hb' & <-). rewrite decide_False; [eauto|].
      intros ->. unfold get_action in Hb'. congruence.
  - intros id b. fold s1. rewrite Hget, dget_set. case_decide as Ei.
    + intros [= <-]. by rewrite decide_True, Ei by done.
    + intros Hb'. rewrite decide_False; [by apply K|]. intros E. apply K in Hb'. congruence.
  - cbn. rewrite dset_len, decide_True by done. lia.
  - done.
  - intros id l Hl. destruct (L _ _ Hl) as (? & ? & b & Hb' & ?). split_and!; [done..|].
    fold s1. rewrite Hget. case_decide as Ei; [|eauto]. subst. unfold get_action in Hb'. congruence.
  - intros id b Hb'. fold s1. rewrite Hget. exists b. split; [|apply rtc_refl].
    rewrite decide_False; [done|]. intros ->. unfold get_action in Hb'. congruence.
  - intros k id Hid. rewrite dget_set, decide_False; [done|]. congruence.
  - done.
  - eauto.
Qed.

Lemma capture_safe sn id v now ds : keeps safe_step (capture_snapshot_and_advance sn id v now ds).
Proof. intros s. unfold capture_snapshot_and_advance. safe_walk. Qed.

Lemma mark_outcome_safe id v o ds : keeps safe_step (mark_outcome id v o ds).
Proof. intros s. unfold mark_outcome. safe_walk. Qed.

Lemma bind_contract_safe id v e : keeps safe_step (bind_contract_evidence id v e).
Proof.
  intros s. unfold bind_contract_evidence. safe_walk. inv_ok. intros Hs. split.
  - destruct Hs. by split.
  - split; cbn; eauto; [intros i b Hb; exists b; split; [done|apply rtc_refl]|].
    intros i e0 He. unfold get_contract_evidence in *. cbn. rewrite dget_set_ne; [done|]. congruence.
Qed.

(** A lease that replaces the one of the same action. *)
Lemma set_lease_safe id l l' s :
  dget id (rp_leases s) = Some l → ls_action_id l' = ls_action_id l →
  ls_fencing_token l' = ls_fencing_token l → ls_lease_id l' = ls_lease_id l →
  ls_action_version l' = ls_action_version l → safe_step s (set_lease id l' s).
Proof.
  intros Hl Ha Ht Hid Hver [A I K B D L]. split; [split|split]; try done; cbn.
  - by apply dset_wf.
  - intros i l0. rewrite dget_set. case_decide as E; [|apply L]. intros [= <-]. subst.
    destruct (L _ _ Hl) as (? & ? & ?). unfold lease_of. rewrite Ha, Ht, Hver. done.
  - intros i a Hi. exists a. split; [done|apply rtc_refl].
  - intros i l0 Hi. rewrite dget_set. case_decide as E; [|eauto]. subst. simplify_eq. eauto.
Qed.

Lemma check_lease_Ok l l' : check_ExecutionLease l = Ok l' → l' = l.
Proof. unfold check_ExecutionLease. intros H. by inv_ok. Qed.

Lemma release_lease_safe id lid tok now : keeps safe_step (release_lease id lid tok now).
Proof.
  intros s. unfold release_lease. safe_walk. inv_ok.
  match goal with H : check_ExecutionLease _ = Ok _ |- _ => apply check_lease_Ok in H as -> end.
  by eapply set_lease_safe.
Qed.

(** The first lease of an action. *)
Lemma new_lease_safe id l a s :
  dget id (rp_leases s) = None → ls_action_id l = id → ls_fencing_token l = 1 →
  get_action id s = Some a → lease_of l a → safe_step s (set_lease id l s).
Proof.
  intros Hn Hid Ht Ha Hr [A I K B D L]. split; [split|split]; try done; cbn.
  - by apply dset_wf.
  - intros i l0. rewrite dget_set. case_decide as E; [|apply L]. intros [= <-]. subst. eauto.
  - intros i b Hi. exists b. split; [done|apply rtc_refl].
  - intros i l0 Hi. rewrite dget_set, decide_False; [eauto|]. congruence.
Qed.

(** Before its lease an action has no lease record at all, so the token is 1. *)
Lemma unleased id a s :
  repo_ok s → get_action id s = Some a → lc_state a = SNAPSHOT_CAPTURED →
  dget id (rp_leases s) = None ∧ max_token id s = 0.
Proof.
  intros Hs Ha Hst.
  assert (dget id (rp_leases s) = None) as Hn.
  { destruct (dget id (rp_leases s)) as [l|] eqn:E; [|done].
    destruct (ro_lease s Hs _ _ E) as (_ & _ & b & Hb & Hr & _). simplify_eq. rewrite Hst in Hr.
    vm_compute in Hr. lia. }
  split; [done|]. unfold max_token.
  assert (∀ l, l ∈ dvalues (rp_leases s) → ls_action_id l ≠ id) as Hall.
  { intros l Hl. apply value_dget in Hl as [k Hk]; [|apply (ro_leases s Hs)].
    destruct (ro_lease s Hs _ _ Hk) as (<- & _). congruence. }
  induction (dvalues (rp_leases s)) as [|l ls IH]; [done|]. cbn.
  unfold str_eqb. rewrite bool_decide_false by (apply Hall; by left).
  apply IH. intros l' Hl'. apply Hall. by right.
Qed.

(** A well-formed starting store may be assumed. *)
Lemma keeps_from_pre {A} s (m : M repo A) :
  (repo_ok s → keeps_from safe_step s m) → keeps_from safe_step s m.
Proof. intros H s' r Hm Hs. by eapply H. Qed.

Lemma acquire_lease_safe id v now ds lrid rid : keeps safe_step (acquire_lease id v now ds lrid rid).
Proof.
  intros s. apply keeps_from_pre. intros Hs. unfold acquire_lease. safe_walk. repo_inv.
  match goal with H : check_ExecutionLease _ = Ok _ |- _ => apply check_lease_Ok in H as -> end.
  match goal with H : advance_action _ _ _ _ _ _ _ = _ |- _ =>
    apply advance_action_Ok in H as (b & Hb & _ & Hadv & Hb' & _ & HL) end.
  match goal with H : lc_state _ = SNAPSHOT_CAPTURED, Ha : get_action _ _ = Some _ |- _ =>
    destruct (unleased _ _ _ Hs Ha H) as [Hn Hm] end.
  eapply new_lease_safe; [by rewrite HL|done|cbn; lia|done|].
  apply advance_state in Hadv as [Hst' _]. split; [by rewrite Hst'|]. eexists. split; [done|]. by split; [lia|].
Qed.

Lemma begin_execution_safe id v cid now ds : keeps safe_step (begin_execution id v cid now ds).
Proof. intros s. unfold begin_execution. safe_walk. Qed.

Lemma update_plans_safe t rev fs now : keeps safe_step (update_plans t rev fs now).
Proof. intros s. unfold update_plans. safe_walk; unfold getM in *; inv_ok; by apply safe_core. Qed.

Lemma execute_plan_mutation_safe id v rev fs now ds :
  keeps safe_step (execute_plan_mutation id v rev fs now ds).
Proof.
  intros s. unfold execute_plan_mutation.
  repeat first
    [ apply update_plans_safe | apply advance_action_safe | apply append_evidence_safe
    | core_write | keeps_step ].
Qed.

Lemma run_repo_call_safe c : keeps safe_step (run_repo_call c).
Proof.
  intros s. destruct c; cbn [run_repo_call]; unfold ignore;
    [apply register_action_safe|..|apply keeps_from_modify; by apply safe_core|];
    try apply bind_contract_safe;
    (apply keeps_from_bind; [exact _| |intros; apply keeps_from_reads; [exact _|solve_atomic]]).
  - apply advance_action_safe.
  - apply capture_safe.
  - apply mark_outcome_safe.
  - apply release_lease_safe.
  - apply acquire_lease_safe.
  - apply begin_execution_safe.
  - apply execute_plan_mutation_safe.
  - unfold record_verification_outcome. safe_walk.
  - unfold mark_reconciled. safe_walk.
  - unfold advance_rollback_state. safe_walk.
  - unfold save_verification. safe_walk.
  - unfold record_confirmation_with_advance. safe_walk.
Qed.

Lemma history_safe s l s' : history s l s' → safe_step s s'.
Proof.
  induction 1 as [s|s c r s1 l s' Hc _ IH]; [reflexivity|]. etrans; [|exact IH].
  by eapply run_repo_call_safe.
Qed.

(** ** What accepted calls report *)

(** The action and version a call is guarded by. *)
Definition cas_of (c : repo_call) : option (string * Z) :=
  match c with
  | CAdvance id v _ _ _ _ | CCapture _ id v _ _ | CAcquire id v _ _ _ _ | CBegin id v _ _ _
  | CExecute id v _ _ _ _ | CVerify id v _ _ _ | CReconcile id v _ _ _ _
  | CRollback id v _ _ _ _ => Some (id, v)
  | CRecordConfirmation _ t _ => Some (lt_action_id t, lt_expected_version t)
  | _ => None
  end.

(** The phase of an action's life a call carries out, by the state it starts
    from: snapshot, lease, start, mutation, verification. *)
Definition phase_of (c : repo_call) : option (string * LifecycleState) :=
  match c with
  | CCapture _ id _ _ _ => Some (id, CONFIRMED)
  | CAcquire id _ _ _ _ _ => Some (id, SNAPSHOT_CAPTURED)
  | CBegin id _ _ _ _ => Some (id, LEASED)
  | CExecute id _ _ _ _ _ => Some (id, RUNNING)
  | CVerify id _ _ _ _ => Some (id, EXECUTED_PENDING_VERIFICATION)
  | _ => None
  end.

Definition accepted_of {A} (f : repo_call → option A) : list (repo_call * result unit) → list A :=
  omap (λ cr, match snd cr with Ok _ => f (fst cr) | Raise _ => None end).

Lemma append_evidence_get ds s s' r id :
  append_evidence ds s = (s', r) → get_action id s' = get_action id s.
Proof. intros H. by apply append_evidence_core in H as [_ ->]. Qed.

Lemma update_plans_get t rev fs now s s' r id :
  update_plans t rev fs now s = (s', r) → get_action id s' = get_action id s.
Proof.
  unfold update_plans, bindM, getM, raiseM. destruct (rp_plans s) as [p|]; [|by intros [= <- _]].
  destruct (plans_update _ _ _ _ p) as [p' [x|x]]; by intros [= <- _].
Qed.

Ltac advance_inv := repeat match goal with
  | H : advance_action _ _ _ _ _ _ _ = (_, Ok _) |- _ =>
      let b := fresh "b" in let Hb := fresh "Hb" in let Hv := fresh "Hv" in
      let Hadv := fresh "Hadv" in let Hb' := fresh "Hb'" in
      apply advance_action_Ok in H as (b & Hb & Hv & Hadv & Hb' & _ & _)
  | H : append_evidence _ _ = (_, Ok _) |- _ =>
      let Hg := fresh "Hg" in
      pose proof (λ id, append_evidence_get _ _ _ _ id H) as Hg; clear H
  | H : update_plans _ _ _ _ _ = (_, Ok _) |- _ =>
      let Hg := fresh "Hg" in
      pose proof (λ id, update_plans_get _ _ _ _ _ _ _ id H) as Hg; clear H
  end.

(** [id] was at version [v] and took one lifecycle step. *)
Definition took (id : string) (v : Z) (s s' : repo) (st : option LifecycleState) : Prop :=
  ∃ a a', get_action id s = Some a ∧ lc_version a = v ∧ lifecycle_step a a' ∧
    get_action id s' = Some a' ∧ ∀ x, st = Some x → lc_state a = x.

Ltac took_by d :=
  unfold d in *; repo_inv; advance_inv; simplify_eq;
  eexists _, _; split_and!;
    [eassumption|done|eexists _, _, _; eassumption
    |repeat match goal with Hg : ∀ id, get_action id _ = _ |- _ => rewrite Hg; clear Hg end;
     eassumption
    |by intros ? [= <-]].

Lemma advance_took id v st actor now ds s s' a' :
  advance_action id v st actor now ds s = (s', Ok a') → took id v s s' None.
Proof.
  intros (a & Ha & Hv & Hadv & Ha' & _)%advance_action_Ok. exists a, a'. split_and!; try done.
  by eexists _, _, _.
Qed.
Lemma capture_took sn id v now ds s s' a' :
  capture_snapshot_and_advance sn id v now ds s = (s', Ok a') → took id v s s' (Some CONFIRMED).
Proof.
  intros H. unfold capture_snapshot_and_advance in H. repo_inv.
  case_match; [|by repo_inv]. took_by capture_snapshot_and_advance.
Qed.
Lemma acquire_took id v now ds lrid rid s s' la :
  acquire_lease id v now ds lrid rid s = (s', Ok la) → took id v s s' (Some SNAPSHOT_CAPTURED).
Proof. intros H. took_by acquire_lease. Qed.
Lemma begin_took id v cid now ds s s' a' :
  begin_execution id v cid now ds s = (s', Ok a') → took id v s s' (Some LEASED).
Proof.
  intros H. unfold begin_execution in H. repo_inv.
  case_match; [|by repo_inv]. took_by begin_execution.
Qed.
Lemma execute_took id v rev fs now ds s s' a' :
  execute_plan_mutation id v rev fs now ds s = (s', Ok a') → took id v s s' (Some RUNNING).
Proof.
  intros H. unfold execute_plan_mutation in H. repo_inv. advance_inv.
  match goal with Hu : ∀ id, get_action id ?s1 = get_action id _, Hb : get_action _ ?s1 = Some _ |- _ =>
    rewrite Hu in Hb; clear Hu end.
  took_by execute_plan_mutation.
Qed.
Lemma verify_took id v r now ds s s' a' :
  record_verification_outcome id v r now ds s = (s', Ok a') →
  took id v s s' (Some EXECUTED_PENDING_VERIFICATION).
Proof. intros H. took_by record_verification_outcome. Qed.
Lemma reconcile_took id v st o now ds s s' a' :
  mark_reconciled id v st o now ds s = (s', Ok a') → took id v s s' None.
Proof. intros H. took_by mark_reconciled. Qed.
Lemma rollback_took id v from st now ds s s' a' :
  advance_rollback_state id v from st now ds s = (s', Ok a') → took id v s s' None.
Proof. intros H. took_by advance_rollback_state. Qed.
Lemma record_confirmation_took b t ds s s' a' :
  record_confirmation_with_advance b t ds s = (s', Ok a') →
  took (lt_action_id t) (lt_expected_version t) s s' None.
Proof. intros H. took_by record_confirmation_with_advance. Qed.

(** An accepted versioned call found the version it expected and moved the
    action by one lifecycle step; a phase call found its phase. *)
Lemma accepted_call c s s' id v :
  run_repo_call c s = (s', Ok ()) → cas_of c = Some (id, v) →
  took id v s s' (snd <$> phase_of c).
Proof.
  intros H Hc. destruct c; cbn in Hc; simplify_eq; cbn [run_repo_call] in H; unfold ignore in H;
    repo_inv.
  - by eapply advance_took.
  - by eapply capture_took.
  - by eapply acquire_took.
  - by eapply begin_took.
  - by eapply execute_took.
  - by eapply verify_took.
  - by eapply reconcile_took.
  - by eapply rollback_took.
  - by eapply record_confirmation_took.
Qed.

Lemma history_evolves s l s' : history s l s' → repo_ok s → repo_ok s' ∧ evolves s s'.
Proof. intros H Hs. by apply (history_safe _ _ _ H). Qed.

(** In every continuation of a well-formed store, accepted versions of a known
    action are not below its version, accepted phases not above its state. *)
Lemma accepted_from s l s' id a :
  history s l s' → repo_ok s → get_action id s = Some a →
  (∀ v, (id, v) ∈ accepted_of cas_of l → lc_version a <= v) ∧
  (∀ st, (id, st) ∈ accepted_of phase_of l → (rank st <= rank (lc_state a))%nat).
Proof.
  intros H. revert a. induction H as [s|s c r s1 l s' Hc _ IH]; intros a Hs Ha.
  { by split; intros x Hx%not_elem_of_nil. }
  pose proof (run_repo_call_safe c s s1 r Hc Hs) as [Hs1 E1].
  destruct (ev_action _ _ E1 _ _ Ha) as (a1 & Ha1 & Hadv).
  apply advances_facts in Hadv as (Hv & Hr & _).
  destruct (IH a1 Hs1 Ha1) as [IHv IHp].
  assert (∀ v, (id, v) ∈ accepted_of cas_of l → lc_version a <= v) as Hv'
    by (intros v Hin; specialize (IHv v Hin); lia).
  assert (∀ st, (id, st) ∈ accepted_of phase_of l → (rank st <= rank (lc_state a))%nat) as Hp'
    by (intros st Hin; specialize (IHp st Hin); lia).
  destruct r as [[]|e]; [|by split].
  split; cbn.
  - intros v. destruct (cas_of c) as [[id1 v1]|] eqn:Ec; [|apply Hv'].
    intros [[= -> ->]|Hin]%elem_of_cons; [|by apply Hv'].
    destruct (accepted_call _ _ _ _ _ Hc Ec) as (b & _ & Hb & <- & _). simplify_eq. lia.
  - intros st. destruct (phase_of c) as [[id1 st1]|] eqn:Ec; [|apply Hp'].
    intros [[= -> ->]|Hin]%elem_of_cons; [|by apply Hp'].
    assert (∃ v, cas_of c = Some (id1, v)) as [v Hcas] by (destruct c; cbn in *; naive_solver).
    destruct (accepted_call _ _ _ _ _ Hc Hcas) as (b & b' & Hb & _ & _ & _ & Hst).
    assert (b = a) as -> by congruence. rewrite (Hst st1) by (by rewrite Ec). lia.
Qed.

Lemma accepted_NoDup s l s' :
  history s l s' → repo_ok s → NoDup (accepted_of cas_of l) ∧ NoDup (accepted_of phase_of l).
Proof.
  induction 1 as [s|s c r s1 l s' Hc Hl IH]; intros Hs; [by split; apply NoDup_nil_2|].
  pose proof (run_repo_call_safe c s s1 r Hc Hs) as [Hs1 _].
  destruct (IH Hs1) as [Nv Np]. destruct r as [[]|e]; [|by split]. split; cbn.
  - destruct (cas_of c) as [[id v]|] eqn:Ec; [|done]. apply NoDup_cons. split; [|done].
    destruct (accepted_call _ _ _ _ _ Hc Ec) as (a & a' & _ & <- & Hstep & Ha' & _).
    apply lifecycle_step_facts in Hstep as (Hv & _).
    intros Hin. apply (accepted_from _ _ _ _ _ Hl Hs1 Ha') in Hin. lia.
  - destruct (phase_of c) as [[id st]|] eqn:Ec; [|done]. apply NoDup_cons. split; [|done].
    assert (∃ v, cas_of c = Some (id, v)) as [v Hcas] by (destruct c; cbn in *; naive_solver).
    destruct (accepted_call _ _ _ _ _ Hc Hcas) as (a & a' & _ & _ & Hstep & Ha' & Hst).
    apply lifecycle_step_facts in Hstep as (_ & Hr & _). rewrite (Hst st) in Hr by (by rewrite Ec).
    intros Hin. apply (accepted_from _ _ _ _ _ Hl Hs1 Ha') in Hin. lia.
Qed.

Lemma validate_registration_request d a :
  validate_action_registration d a = Ok () → is_Some (ad_request d).
Proof.
  unfold validate_action_registration. intros H. destruct (ad_allowed d); [|done].
  destruct (ad_action_identity d); [|done]. inv_ok. destruct (ad_request d); [by eexists|].
  match goal with H : raise_unless _ _ = Ok _ |- _ => discriminate H | H : false = true |- _ => discriminate H end.
Qed.

Lemma register_binds d a ds s s1 :
  register_action d a ds s = (s1, Ok ()) →
  dget (lifecycle_key a) (rp_idempotency s1) = Some (lc_action_id a).
Proof.
  unfold register_action. intros H. repo_inv.
  match goal with H : context [dget (lifecycle_key a) ?i] |- _ => destruct (dget (lifecycle_key a) i) eqn:E end.
  - destruct (str_eqb _ _) eqn:Es; [|by repo_inv]. apply bool_decide_eq_true in Es. subst.
    cbn [andb] in *. destruct (bool_decide _); repo_inv. done.
  - repo_inv. match goal with H : append_evidence _ _ = _ |- _ =>
      apply append_evidence_core in H as [(_ & -> & _) _] end.
    cbn. by rewrite dget_set_eq.
Qed.

Lemma new_repo_ok m au pl s : new_InMemoryActionRepository m au pl = Ok s → repo_ok s.
Proof.
  unfold new_InMemoryActionRepository. intros H. inv_ok. split; try done.
  - unfold dlen. cbn. lia.
  - by apply NoDup_nil_2.
Qed.

(** ** Properties *)

(** Each phase of an action happens at most once, whatever is called: in
    every history of calls on a repository, at most one snapshot capture, one
    lease, one start of execution, one plan mutation and one recorded
    verification are accepted for a given action. *)
Lemma phases_at_most_once m au pl s0 l s :
  new_InMemoryActionRepository m au pl = Ok s0 → history s0 l s →
  NoDup (accepted_of phase_of l).
Proof. intros H0%new_repo_ok H. by apply (accepted_NoDup _ _ _ H). Qed.

(** No lost update: in every history, two accepted calls never consumed
    the same version of the same action, so of two writers that read the same
    version at most one succeeds. *)
Lemma action_versions_used_once m au pl s0 l s :
  new_InMemoryActionRepository m au pl = Ok s0 → history s0 l s →
  NoDup (accepted_of cas_of l).
Proof. intros H0%new_repo_ok H. by apply (accepted_NoDup _ _ _ H). Qed.

(** C16: The repository refines the lifecycle machine.  Every reachable store is
    well formed: actions are stored under their own identity, the idempotency
    index and the actions agree, the record bound holds, a lease exists only
    for an action that got as far as LEASED and its fencing token is 1.  And
    between any two points of a history every action moved only by accepted
    lifecycle steps; idempotency keys, contract evidence and lease identities
    were never rebound. *)
Theorem repository_refines_lifecycle m au pl s0 l1 s1 l2 s2 :
  new_InMemoryActionRepository m au pl = Ok s0 → history s0 l1 s1 → history s1 l2 s2 →
  repo_ok s2 ∧ evolves s1 s2.
Proof.
  intros H0%new_repo_ok H1 H2. apply (history_evolves _ _ _ H1) in H0 as [Hs1 _].
  by apply (history_evolves _ _ _ H2).
Qed.

(** C29: An idempotency key is bound once and for all.  After an accepted
    registration, whatever happens next, registering another action under the
    same target, operation and key is refused and changes nothing, the key
    resolves to the registered action, and replaying a valid registration of
    that action returns without effect. *)
Theorem idempotency_key_binds s d a ds s1 l s2 d' a' ds' :
  repo_ok s → register_action d a ds s = (s1, Ok ()) → history s1 l s2 →
  lifecycle_key a' = lifecycle_key a →
  (∃ b, find_action_by_idempotency (sc_target_id (lc_scope a)) (value (lc_operation a))
          (lc_idempotency_key a) s2 = Some b ∧ lc_action_id b = lc_action_id a) ∧
  (lc_action_id a' ≠ lc_action_id a → ∃ e, register_action d' a' ds' s2 = (s2, Raise e)) ∧
  (lc_action_id a' = lc_action_id a → validate_action_registration d' a' = Ok () →
     register_action d' a' ds' s2 = (s2, Ok ())).
Proof.
  intros Hs Hreg Hl Hk.
  pose proof (register_action_safe _ _ _ _ _ _ Hreg Hs) as [Hs1 _].
  assert (dget (lifecycle_key a) (rp_idempotency s1) = Some (lc_action_id a)) as Hid1
    by by eapply register_binds.
  destruct (history_evolves _ _ _ Hl Hs1) as [Hs2 E2].
  pose proof (ev_idem _ _ E2 _ _ Hid1) as Hid2.
  split_and!.
  - unfold find_action_by_idempotency.
    change (dget _ (rp_idempotency s2)) with (dget (lifecycle_key a) (rp_idempotency s2)).
    rewrite Hid2.
    destruct (ro_idem _ Hs2 _ _ Hid2) as (b & Hb & _). exists b. split; [done|].
    by apply (ro_action _ Hs2).
  - intros Hne. unfold register_action, bindM, liftM, getM.
    destruct (validate_action_registration d' a') as [[]|e]; [|by eexists].
    rewrite Hk, Hid2. unfold str_eqb. rewrite bool_decide_false by congruence. cbn. by eexists.
  - intros He Hv. unfold register_action, bindM, liftM, getM. rewrite Hv, Hk, Hid2, He.
    unfold str_eqb. rewrite bool_decide_true by done.
    apply validate_registration_request in Hv. by rewrite bool_decide_true.
Qed.
