(* ===== verification/SqlStore.v ===== *)
(** * SqlStore: the durable action repository (control_plane/storage/sqlite_store.py)

    The methods of [SQLiteActionRepository], each in the order of the source:
    the reads, the guards on what was read, then one transaction.  [c] is the
    circumstances of the call; [lrid] and [rid] are the random lease and event
    identifiers it draws.  The audit sink on the same database is a parameter:
    a row writer that may refuse. *)

From S2P Require Import Prelude PyStr PyTime PyDict PyIso Sha256 Json Models Lifecycle ProjectPlan.
From S2P Require Import Identity Policy AuditLedger AuditBuilders Verification SqlTables SqlRows ActionRepo.
From Stdlib Require Import Ascii String ZArith Lia.
From stdpp Require Import base strings gmap list.

Local Open Scope string_scope.
Local Open Scope Z_scope.
Local Open Scope aipm_scope.

(** ** Column updates *)

Definition set_progress (state : string) (version : Z) (updated_at : string) (r : action_row) : action_row :=
  {| ar_action_id := ar_action_id r; ar_decision_id := ar_decision_id r; ar_idempotency_key := ar_idempotency_key r;
     ar_operation := ar_operation r; ar_target_id := ar_target_id r; ar_environment := ar_environment r;
     ar_plan_id := ar_plan_id r; ar_plan_revision := ar_plan_revision r; ar_plan_digest := ar_plan_digest r;
     ar_target_digest := ar_target_digest r; ar_requester_subject := ar_requester_subject r;
     ar_policy_version := ar_policy_version r; ar_lifecycle_state := state;
     ar_confirmation_kind := ar_confirmation_kind r; ar_approver_subject := ar_approver_subject r;
     ar_created_at := ar_created_at r; ar_updated_at := updated_at; ar_expires_at := ar_expires_at r;
     ar_version := version; ar_rollback_of_action_id := ar_rollback_of_action_id r;
     ar_snapshot_id := ar_snapshot_id r; ar_outcome := ar_outcome r;
     ar_contract_version := ar_contract_version r; ar_capability_version := ar_capability_version r;
     ar_contract_digest := ar_contract_digest r; ar_action_protocol := ar_action_protocol r |}.
Definition set_approver (approver : option string) (r : action_row) : action_row :=
  {| ar_action_id := ar_action_id r; ar_decision_id := ar_decision_id r; ar_idempotency_key := ar_idempotency_key r;
     ar_operation := ar_operation r; ar_target_id := ar_target_id r; ar_environment := ar_environment r;
     ar_plan_id := ar_plan_id r; ar_plan_revision := ar_plan_revision r; ar_plan_digest := ar_plan_digest r;
     ar_target_digest := ar_target_digest r; ar_requester_subject := ar_requester_subject r;
     ar_policy_version := ar_policy_version r; ar_lifecycle_state := ar_lifecycle_state r;
     ar_confirmation_kind := ar_confirmation_kind r; ar_approver_subject := approver;
     ar_created_at := ar_created_at r; ar_updated_at := ar_updated_at r; ar_expires_at := ar_expires_at r;
     ar_version := ar_version r; ar_rollback_of_action_id := ar_rollback_of_action_id r;
     ar_snapshot_id := ar_snapshot_id r; ar_outcome := ar_outcome r;
     ar_contract_version := ar_contract_version r; ar_capability_version := ar_capability_version r;
     ar_contract_digest := ar_contract_digest r; ar_action_protocol := ar_action_protocol r |}.
(** The columns that no lifecycle value reads. *)
Definition set_evidence (outcome contract_version capability_version contract_digest : option string)
    (updated_at : string) (r : action_row) : action_row :=
  {| ar_action_id := ar_action_id r; ar_decision_id := ar_decision_id r; ar_idempotency_key := ar_idempotency_key r;
     ar_operation := ar_operation r; ar_target_id := ar_target_id r; ar_environment := ar_environment r;
     ar_plan_id := ar_plan_id r; ar_plan_revision := ar_plan_revision r; ar_plan_digest := ar_plan_digest r;
     ar_target_digest := ar_target_digest r; ar_requester_subject := ar_requester_subject r;
     ar_policy_version := ar_policy_version r; ar_lifecycle_state := ar_lifecycle_state r;
     ar_confirmation_kind := ar_confirmation_kind r; ar_approver_subject := ar_approver_subject r;
     ar_created_at := ar_created_at r; ar_updated_at := updated_at; ar_expires_at := ar_expires_at r;
     ar_version := ar_version r; ar_rollback_of_action_id := ar_rollback_of_action_id r;
     ar_snapshot_id := ar_snapshot_id r; ar_outcome := outcome;
     ar_contract_version := contract_version; ar_capability_version := capability_version;
     ar_contract_digest := contract_digest; ar_action_protocol := ar_action_protocol r |}.
Definition set_outcome (outcome updated_at : string) (r : action_row) : action_row :=
  set_evidence (Some outcome) (ar_contract_version r) (ar_capability_version r) (ar_contract_digest r) updated_at r.

(** [SET lifecycle_state = ?, version = ?, updated_at = ?] for an advanced action. *)
Definition moved (a : ActionLifecycle) (updated_at : string) : action_row → action_row :=
  set_progress (value (lc_state a)) (lc_version a) updated_at.

Definition consume_row (r : confirmation_row) : confirmation_row :=
  {| cr_confirmation_id := cr_confirmation_id r; cr_decision_id := cr_decision_id r; cr_action_id := cr_action_id r;
     cr_plan_id := cr_plan_id r; cr_plan_digest := cr_plan_digest r; cr_target_revision := cr_target_revision r;
     cr_target_digest := cr_target_digest r; cr_policy_version := cr_policy_version r;
     cr_requester_subject := cr_requester_subject r; cr_confirmed_by_subject := cr_confirmed_by_subject r;
     cr_confirmation_kind := cr_confirmation_kind r; cr_request_canonical := cr_request_canonical r;
     cr_scope := cr_scope r; cr_state := "consumed"; cr_created_at := cr_created_at r;
     cr_expires_at := cr_expires_at r; cr_consumed_at := cr_consumed_at r |}.
Definition release_row (released_at : string) (r : lease_row) : lease_row :=
  {| lr_lease_id := lr_lease_id r; lr_action_id := lr_action_id r; lr_environment := lr_environment r;
     lr_fencing_token := lr_fencing_token r; lr_state := "released"; lr_holder := lr_holder r;
     lr_granted_at := lr_granted_at r; lr_expires_at := lr_expires_at r; lr_released_at := Some released_at;
     lr_action_version := lr_action_version r |}.
(** [SET revision = ?, title = ?, objective = ?, canonical_digest = ?, updated_at = ?] *)
Definition rewrite_plan (p : ProjectPlan) (r : plan_row) : plan_row :=
  {| pl_target_id := pl_target_id r; pl_environment := pl_environment r; pl_revision := pp_revision p;
     pl_title := pp_title p; pl_objective := pp_objective p; pl_enabled := pl_enabled r;
     pl_canonical_digest := pp_canonical_digest p; pl_created_at := pl_created_at r;
     pl_updated_at := isoformat (pp_updated_at p) |}.

(** ** Conditions *)

Definition action_is (id : string) (r : action_row) : bool := str_eqb (ar_action_id r) id.
Definition at_version (id : string) (v : Z) (r : action_row) : bool := action_is id r && (ar_version r =? v).
Definition at_version_in (id : string) (v : Z) (state : string) (r : action_row) : bool :=
  at_version id v r && str_eqb (ar_lifecycle_state r) state.

Section repository.
(** [self._audit.append_in_transaction] *)
Context (append_row : AuditEventDraft → M database unit).

(** [_append_evidence] *)
Fixpoint append_evidence (drafts : list AuditEventDraft) : M database unit :=
  match drafts with
  | [] => retM ()
  | d :: drafts' => do_ append_row d;; append_evidence drafts'
  end.

(** [if cursor.rowcount != 1: raise …] *)
Definition one_row (e : exn) (count : Z) : M database unit := liftM (raise_unless (count =? 1) e).

(** ** Reads *)

Definition get_decision (id : string) : M database (option AuthorizationDecision) :=
  do row <- sql_select_one (λ r, str_eqb (dr_decision_id r) id);;
  match row with
  | None => retM None
  | Some r => do d <- liftM (decision_from_row r);; retM (Some d)
  end.

Definition optional_action (row : option action_row) : M database (option ActionLifecycle) :=
  match row with
  | None => retM None
  | Some r => do a <- liftM (lifecycle_from_row r);; retM (Some a)
  end.
Definition get_action (id : string) : M database (option ActionLifecycle) :=
  do row <- sql_select_one (action_is id);; optional_action row.
Definition find_action_by_idempotency (target_id operation idempotency_key : string)
  : M database (option ActionLifecycle) :=
  do row <- sql_select_one (λ r, str_eqb (ar_target_id r) target_id && str_eqb (ar_operation r) operation &&
                                 str_eqb (ar_idempotency_key r) idempotency_key);;
  optional_action row.

(** The row a guarded call starts from. *)
Definition action_row_at (id : string) : M database action_row :=
  do row <- sql_select_one (action_is id);;
  match row with Some r => retM r | None => raiseM corrupt end.
Definition current_action (id : string) : M database ActionLifecycle :=
  do r <- action_row_at id;; liftM (lifecycle_from_row r).

(** [ORDER BY created_at, action_id] *)
Definition created_leb (a b : action_row) : bool :=
  match String.compare (ar_created_at a) (ar_created_at b) with
  | Lt => true
  | Eq => String.leb (ar_action_id a) (ar_action_id b)
  | Gt => false
  end.
Definition non_terminal_action_ids (limit : Z) : M database (list string) :=
  assert_ negb (limit <? 1) else_raise corrupt;;
  do l <- sql_select (λ r, negb (mem (ar_lifecycle_state r) (List.map value terminal_states)));;
  retM (List.map ar_action_id (take (Z.to_nat limit) (order_by created_leb l))).
Definition latest_action_for_target (target_id : string) : M database (option ActionLifecycle) :=
  do l <- sql_select (λ r, str_eqb (ar_target_id r) target_id);;
  optional_action (head (order_by (λ a b, created_leb b a) l)).

Definition outcome_for_action (id : string) : M database (option string) :=
  do row <- sql_select_one (action_is id);;
  retM (match row with Some r => ar_outcome r | None => None end).
Definition get_contract_evidence (id : string) : M database (option (option string * option string * option string)) :=
  do row <- sql_select_one (action_is id);;
  retM ((λ r, (ar_contract_version r, ar_capability_version r, ar_contract_digest r)) <$> row).

(** ** Registration *)

Definition handle_registration_conflict (a : ActionLifecycle) : M database unit :=
  do existing <- find_action_by_idempotency (sc_target_id (lc_scope a)) (value (lc_operation a)) (lc_idempotency_key a);;
  match existing with
  | Some b => if str_eqb (lc_action_id b) (lc_action_id a) then retM ()
              else raiseM (ControlPlaneError IDEMPOTENCY_CONFLICT)
  | None => raiseM corrupt
  end.

(** The two statements of the transaction; a column declared NOT NULL refuses
    a decision without a subject. *)
Definition insert_registration (d : AuthorizationDecision) (i : ActionIdentity) (r : ActionRequest)
    (a : ActionLifecycle) : M database unit :=
  match ad_principal_subject d with
  | None => raiseM IntegrityError
  | Some subject =>
      do_ sql_insert (decision_row_of d subject i r);;
      sql_insert (action_row_of (ad_decision_id d) i a)
  end.

Definition register_action (c : circumstances) (d : AuthorizationDecision) (a : ActionLifecycle)
    (drafts : list AuditEventDraft) : M database unit :=
  do_ liftM (validate_action_registration d a);;
  match ad_action_identity d, ad_request d with
  | Some i, Some r =>
      catchM
        (transaction c (do_ insert_registration d i r a;; append_evidence drafts))
        (λ e, match e with
              | IntegrityError => Some (handle_registration_conflict a)
              | SqliteError => Some (raiseM corrupt)
              | _ => None
              end)
  | _, _ => raiseM corrupt
  end.

(** ** Guarded moves *)

Definition check_version (a : ActionLifecycle) (expected_version : Z) : M database unit :=
  liftM (raise_unless (lc_version a =? expected_version) state_conflict).
Definition check_state (a : ActionLifecycle) (st : LifecycleState) : M database unit :=
  liftM (raise_unless (bool_decide (lc_state a = st)) state_conflict).
(** [validate_transition] and then [advance_lifecycle], which validates again. *)
Definition advanced_from (a : ActionLifecycle) (st : LifecycleState) (now : option datetime) : M database ActionLifecycle :=
  do_ liftM (validate_transition a st now None);; liftM (advance a st now None).

Definition advance_action (c : circumstances) (id : string) (expected_version : Z) (next_state : LifecycleState)
    (approver_subject : string) (now : option datetime) (drafts : list AuditEventDraft) : M database ActionLifecycle :=
  do current <- current_action id;;
  assert_ negb (bool_decide (next_state = SNAPSHOT_CAPTURED)) else_raise state_conflict;;
  do_ liftM (validate_transition current next_state now (Some approver_subject));;
  do_ check_version current expected_version;;
  do advanced <- liftM (advance current next_state now (Some approver_subject));;
  do_ or_sqlite state_conflict (transaction c (
    do n <- sql_update (at_version id expected_version)
              (λ r, set_approver (lc_approver_subject advanced) (moved advanced (stamp c now) r));;
    do_ one_row state_conflict n;;
    append_evidence drafts));;
  retM advanced.

(** The transaction most moves share: [WHERE action_id = ? AND version = ? AND
    lifecycle_state = ?]. *)
Definition move (id : string) (expected_version : Z) (current advanced : ActionLifecycle)
    (set : action_row → action_row) (drafts : list AuditEventDraft) : M database unit :=
  do n <- sql_update (at_version_in id expected_version (value (lc_state current))) set;;
  do_ one_row state_conflict n;;
  append_evidence drafts.

Definition capture_snapshot_and_advance (c : circumstances) (sn : PlanSnapshot) (id : string) (expected_version : Z)
    (now : option datetime) (drafts : list AuditEventDraft) : M database ActionLifecycle :=
  do current <- current_action id;;
  do_ check_state current CONFIRMED;;
  assert_ bool_decide (sn_action_id sn = Some id) else_raise corrupt;;
  assert_ sn_revision sn =? lc_plan_revision current else_raise ControlPlaneError STALE_EVIDENCE;;
  do_ liftM (validate_transition current SNAPSHOT_CAPTURED now None);;
  do_ check_version current expected_version;;
  do advanced <- liftM (advance current SNAPSHOT_CAPTURED now None);;
  do_ or_sqlite corrupt (transaction c (
    do_ sql_insert (snapshot_row_of sn);;
    move id expected_version current advanced (moved advanced (stamp c now)) drafts));;
  retM advanced.

Definition mark_outcome (c : circumstances) (id : string) (expected_version : Z) (outcome : string)
    (now : option datetime) (drafts : list AuditEventDraft) : M database ActionLifecycle :=
  do normalized <- liftM (match outcome_of_value outcome with Ok o => Ok o | Raise _ => Raise corrupt end);;
  do row <- action_row_at id;;
  do current <- liftM (lifecycle_from_row row);;
  do_ check_version current expected_version;;
  assert_ negb (bool_decide (ar_outcome row = Some (value ExecutionOutcome.UNKNOWN_OUTCOME)) &&
                bool_decide (normalized = ExecutionOutcome.MUTATION_NOT_STARTED)) else_raise state_conflict;;
  do_ or_sqlite corrupt (transaction c (
    do n <- sql_update (at_version id expected_version) (set_outcome (value normalized) (stamp c now));;
    do_ one_row state_conflict n;;
    append_evidence drafts));;
  retM current.

(** ** Leases *)

(** [SQLiteLeaseRepository.get] *)
Definition get_lease (lease_id : string) : M database (option ExecutionLease) :=
  do row <- sql_select_one (λ r, str_eqb (lr_lease_id r) lease_id);;
  match row with
  | None => retM None
  | Some r => do l <- liftM (lease_from_row r);; retM (Some l)
  end.
Definition granted_after (id moment : string) (r : lease_row) : bool :=
  str_eqb (lr_action_id r) id && str_eqb (lr_state r) "granted" && text_ltb moment (lr_expires_at r).
Definition token_geb (a b : lease_row) : bool := lr_fencing_token b <=? lr_fencing_token a.
(** [… ORDER BY fencing_token DESC LIMIT 1], then the lease by its identifier. *)
Definition newest_lease (c : circumstances) (p : lease_row → bool) : M database (option ExecutionLease) :=
  do l <- sql_select p;;
  match order_by token_geb l with
  | [] => retM None
  | r :: _ => do_ gap c 1;; get_lease (lr_lease_id r)
  end.
Definition active_lease (c : circumstances) (id : string) (now : option datetime) : M database (option ExecutionLease) :=
  newest_lease c (granted_after id (stamp c now)).
Definition last_lease (c : circumstances) (id : string) : M database (option ExecutionLease) :=
  newest_lease c (λ r, str_eqb (lr_action_id r) id).

(** [SELECT COALESCE(MAX(fencing_token), 0)] *)
Definition top_token (id : string) (l : list lease_row) : Z :=
  match List.filter (λ r, str_eqb (lr_action_id r) id) l with
  | [] => 0
  | r :: l' => foldr (λ x m, Z.max (lr_fencing_token x) m) (lr_fencing_token r) l'
  end.
Definition max_token (id : string) : M database Z := λ db, (db, Ok (top_token id (db_leases db))).

(** [current.is_expired(now or self._now_iso())]: the text has no [tzinfo]. *)
Definition lease_expiry_check (a : ActionLifecycle) (now : option datetime) : result unit :=
  match now with
  | None => Raise AttributeError
  | Some t => raise_unless (negb (lc_is_expired a t)) (ControlPlaneError EXPIRED_PLAN)
  end.

Definition acquire_lease (c : circumstances) (id : string) (expected_version : Z) (now : option datetime)
    (drafts : list AuditEventDraft) (lrid rid : string) : M database (ExecutionLease * ActionLifecycle) :=
  do current <- current_action id;;
  do_ check_state current SNAPSHOT_CAPTURED;;
  do_ check_version current expected_version;;
  do_ liftM (lease_expiry_check current now);;
  do_ liftM (validate_transition current LEASED now None);;
  let granted_at := default (cc_clock c) now in
  let expires_at := granted_at + DEFAULT_LEASE_TTL in
  do advanced <- liftM (advance current LEASED (Some granted_at) None);;
  do lease <- or_sqlite corrupt (transaction c (
    do existing <- sql_select_one (granted_after id (isoformat granted_at));;
    assert_ negb (is_some existing) else_raise state_conflict;;
    do top <- max_token id;;
    do lease <- liftM (check_ExecutionLease
      {| ls_lease_id := lrid; ls_action_id := id; ls_environment := sc_environment (lc_scope current);
         ls_fencing_token := top + 1; ls_state := "granted"; ls_granted_at := granted_at;
         ls_expires_at := expires_at; ls_released_at := None; ls_holder := None;
         ls_action_version := Some (lc_version advanced) |});;
    do_ sql_insert (lease_row_of lease);;
    do n <- sql_update (at_version_in id expected_version (value (lc_state current)))
              (moved advanced (isoformat granted_at));;
    do_ one_row state_conflict n;;
    do drafts' <- liftM (match drafts with
                         | [] => let* d := lease_acquired rid "control-plane-system" granted_at id
                                   (Some (lc_plan_id current)) (sc_target_id (lc_scope current))
                                   (sc_environment (lc_scope current)) (ls_lease_id lease) (ls_fencing_token lease) in
                                 Ok [d]
                         | _ => Ok drafts
                         end);;
    do_ append_evidence drafts';;
    retM lease));;
  retM (lease, advanced).

Definition release_lease (c : circumstances) (id lease_id : string) (fencing_token : Z) (now : option datetime)
  : M database bool :=
  or_sqlite corrupt (transaction c (
    do n <- sql_update (λ r, str_eqb (lr_action_id r) id && str_eqb (lr_lease_id r) lease_id &&
                             (lr_fencing_token r =? fencing_token) && str_eqb (lr_state r) "granted")
              (release_row (stamp c now));;
    retM (n =? 1))).

(** ** Execution *)

Definition begin_execution (c : circumstances) (id : string) (expected_version : Z) (confirmation_id : string)
    (now : option datetime) (drafts : list AuditEventDraft) : M database ActionLifecycle :=
  do current <- current_action id;;
  do_ check_state current LEASED;;
  do_ check_version current expected_version;;
  do advanced <- advanced_from current RUNNING now;;
  do_ or_sqlite corrupt (transaction c (
    do consumed <- sql_update (λ r, str_eqb (cr_confirmation_id r) confirmation_id && str_eqb (cr_state r) "confirmed")
                     consume_row;;
    do_ one_row (ControlPlaneError CONFIRMATION_MISMATCH) consumed;;
    move id expected_version current advanced (moved advanced (stamp c now)) drafts));;
  retM advanced.

(** [plan.update(…, now=now or self._now_iso())]: [ProjectPlan.update] refuses
    a text once it gets to the timestamp. *)
Definition update_plan (p : ProjectPlan) (expected_revision : Z) (fields : gmap string string)
    (now : option datetime) : result ProjectPlan :=
  match now with
  | Some t => pp_update p expected_revision fields t
  | None => let* _ := pp_update p expected_revision fields 0 in Raise ProjectPlanError
  end.

Definition execute_plan_mutation (c : circumstances) (id : string) (expected_version expected_revision : Z)
    (fields : gmap string string) (now : option datetime) (drafts : list AuditEventDraft)
  : M database ActionLifecycle :=
  do current <- current_action id;;
  do_ check_state current RUNNING;;
  do_ check_version current expected_version;;
  do_ gap c 1;;
  do row <- sql_select_one (λ r, str_eqb (pl_target_id r) (sc_target_id (lc_scope current)));;
  match row with
  | None => raiseM corrupt
  | Some r =>
      do plan <- liftM (plan_row_to_domain r);;
      do updated <- liftM (update_plan plan expected_revision fields now);;
      do advanced <- liftM (advance current EXECUTED_PENDING_VERIFICATION now None);;
      do_ or_sqlite (ControlPlaneError STALE_EVIDENCE) (transaction c (
        do n <- sql_update (λ r, str_eqb (pl_target_id r) (sc_target_id (lc_scope current)) &&
                                 (pl_revision r =? expected_revision)) (rewrite_plan updated);;
        do_ one_row (ControlPlaneError STALE_EVIDENCE) n;;
        move id expected_version current advanced
          (λ r, set_outcome "mutation_succeeded" (stamp c now) (moved advanced (stamp c now) r)) drafts));;
      retM advanced
  end.

Definition record_verification_outcome (c : circumstances) (id : string) (expected_version : Z)
    (v : VerificationResult) (now : option datetime) (drafts : list AuditEventDraft) : M database ActionLifecycle :=
  do current <- current_action id;;
  do_ check_state current EXECUTED_PENDING_VERIFICATION;;
  do_ check_version current expected_version;;
  let target_state := if vr_success v then VERIFIED_SUCCESS else VERIFICATION_FAILED in
  do advanced <- advanced_from current target_state now;;
  do_ or_sqlite corrupt (transaction c (
    do_ sql_insert (verification_row_of v);;
    move id expected_version current advanced
      (λ r, set_outcome (if vr_success v then "verification_succeeded" else "verification_failed") (stamp c now)
              (moved advanced (stamp c now) r)) drafts));;
  retM advanced.

Definition mark_reconciled (c : circumstances) (id : string) (expected_version : Z) (to_state : LifecycleState)
    (outcome : string) (now : option datetime) (drafts : list AuditEventDraft) : M database ActionLifecycle :=
  do current <- current_action id;;
  do_ check_version current expected_version;;
  do advanced <- advanced_from current to_state now;;
  do_ or_sqlite corrupt (transaction c (
    move id expected_version current advanced
      (λ r, set_outcome outcome (stamp c now) (moved advanced (stamp c now) r)) drafts));;
  retM advanced.

Definition advance_rollback_state (c : circumstances) (id : string) (expected_version : Z)
    (from_states : list LifecycleState) (to_state : LifecycleState) (now : option datetime)
    (drafts : list AuditEventDraft) : M database ActionLifecycle :=
  do current <- current_action id;;
  assert_ bool_decide (lc_state current ∈ from_states) else_raise state_conflict;;
  do_ check_version current expected_version;;
  do advanced <- advanced_from current to_state now;;
  do_ or_sqlite corrupt (transaction c (
    move id expected_version current advanced (moved advanced (stamp c now)) drafts));;
  retM advanced.

(** The transaction is outside any [try], and its row count is not looked at. *)
Definition bind_contract_evidence (c : circumstances) (id : string) (expected_version : Z)
    (contract_version capability_version contract_digest : string) : M database unit :=
  do row <- action_row_at id;;
  match ar_contract_digest row with
  | Some bound => if str_eqb bound contract_digest then retM () else raiseM corrupt
  | None =>
      transaction c (
        do _n <- sql_update (at_version id expected_version)
          (λ r, set_evidence (ar_outcome r) (Some contract_version) (Some capability_version) (Some contract_digest)
                  (ar_updated_at r) r);;
        retM ())
  end.

(** ** Confirmations *)

(** [_upsert_confirmation] *)
Definition upsert_confirmation (b : ConfirmationBinding) : M database unit :=
  do existing <- sql_select_one (λ r, str_eqb (cr_confirmation_id r) (cb_confirmation_id b));;
  assert_ negb (match existing with Some r => str_eqb (cr_state r) (value CONSUMED) | None => false end)
    else_raise ControlPlaneError CONFIRMATION_MISMATCH;;
  sql_replace (confirmation_row_of b).

Definition put_confirmation (c : circumstances) (b : ConfirmationBinding) : M database unit :=
  or_sqlite corrupt (transaction c (upsert_confirmation b)).

Definition optional_confirmation (row : option confirmation_row) : M database (option ConfirmationBinding) :=
  match row with
  | None => retM None
  | Some r => do b <- liftM (confirmation_from_row r);; retM (Some b)
  end.
Definition get_confirmation (id : string) : M database (option ConfirmationBinding) :=
  do row <- sql_select_one (λ r, str_eqb (cr_confirmation_id r) id);; optional_confirmation row.
Definition get_active_for_action (id : string) : M database (option ConfirmationBinding) :=
  do row <- sql_select_one (λ r, str_eqb (cr_action_id r) id && str_eqb (cr_state r) (value CONFIRMATION_REQUESTED));;
  optional_confirmation row.
Definition ACTIVE_CONFIRMATION_STATES : list string := ["confirmation_requested"; "confirmed"].
Definition has_active_for_action (id : string) : M database bool :=
  do l <- sql_select (λ r, str_eqb (cr_action_id r) id);;
  retM (List.existsb (λ r, mem (cr_state r) ACTIVE_CONFIRMATION_STATES) l).
Definition count : M database Z := sql_count (R := confirmation_row).
Definition as_mapping : M database (dict string ConfirmationBinding) :=
  do l <- sql_select (λ _ : confirmation_row, true);;
  do bs <- liftM (rmap (λ r, let* b := confirmation_from_row r in Ok (cr_confirmation_id r, b)) l);;
  retM (fold_left (λ d kv, dset (fst kv) (snd kv) d) bs []).

Definition record_confirmation_with_advance (c : circumstances) (b : ConfirmationBinding) (action_id : string)
    (expected_version : Z) (next_state : LifecycleState) (approver_subject : string) (now : option datetime)
    (drafts : list AuditEventDraft) : M database ActionLifecycle :=
  assert_ str_eqb (cb_action_id b) action_id else_raise ControlPlaneError CONFIRMATION_MISMATCH;;
  do current <- current_action action_id;;
  do_ liftM (validate_transition current next_state now (Some approver_subject));;
  do_ check_version current expected_version;;
  do advanced <- liftM (advance current next_state now (Some approver_subject));;
  do_ or_sqlite state_conflict (transaction c (
    do_ upsert_confirmation b;;
    do n <- sql_update (at_version action_id expected_version)
              (λ r, set_approver (lc_approver_subject advanced) (moved advanced (stamp c now) r));;
    do_ one_row state_conflict n;;
    append_evidence drafts));;
  retM advanced.

(** ** Verification evidence, leases and snapshots *)

(** [SQLiteVerificationRepository] *)
Definition save_verification (c : circumstances) (v : VerificationResult) (drafts : list AuditEventDraft)
  : M database StoredVerificationRecord :=
  do_ or_sqlite corrupt (transaction c (
    do_ sql_insert (verification_row_of v);; append_evidence drafts));;
  retM {| sv_record := v; sv_integrity_digest := vw_integrity_digest (verification_row_of v) |}.
Definition get_verification (id : string) : M database (option StoredVerificationRecord) :=
  do row <- sql_select_one (λ r, str_eqb (vw_verification_id r) id);;
  match row with
  | None => retM None
  | Some r => do v <- liftM (verification_from_row r);; retM (Some v)
  end.
End repository.
