(* ===== verification/SqlRefine.v ===== *)
(** * SqlRefine: what the durable repository does to the database

    [run_sql_call] is one call under its circumstances.  [later] relates a
    database to what calls can turn it into: rows stay, in order, and each
    action's row either reads as the same lifecycle value or has moved to a
    higher version by accepted lifecycle steps; a consumed confirmation stays
    consumed; a lease keeps its identity and fencing token.  Every call keeps
    [later] whatever calls of the other connections come between its reads and
    its transaction, so any interleaving does. *)

From S2P Require Import Prelude PyStr PyTime PyDict PyIso Sha256 Json Models Lifecycle ProjectPlan.
From S2P Require Import Identity Policy AuditLedger AuditBuilders Verification SqlTables SqlRows ActionRepo SqlStore.
From Stdlib Require Import Ascii String ZArith Lia.
From stdpp Require Import base strings gmap relations list.

Local Open Scope string_scope.
Local Open Scope Z_scope.
Local Open Scope aipm_scope.

(** ** Action rows *)

(** The columns a lifecycle value is read from. *)
Definition life (r : action_row) : action_row := set_evidence None None None None "" r.

Lemma lifecycle_from_life r : lifecycle_from_row (life r) = lifecycle_from_row r.
Proof. done. Qed.
Lemma life_eq r r' : life r = life r' → lifecycle_from_row r = lifecycle_from_row r' ∧
  ar_action_id r = ar_action_id r' ∧ ar_version r = ar_version r'.
Proof.
  intros H. split_and!.
  - by rewrite <- (lifecycle_from_life r), H.
  - by apply (f_equal ar_action_id) in H.
  - by apply (f_equal ar_version) in H.
Qed.

Lemma lifecycle_from_row_Ok r a : lifecycle_from_row r = Ok a →
  lc_action_id a = ar_action_id r ∧ lc_version a = ar_version r ∧ ar_lifecycle_state r = value (lc_state a) ∧
  lc_approver_subject a = ar_approver_subject r ∧ lifecycle_wf a.
Proof.
  unfold lifecycle_from_row. rewrite or_corrupt_Ok. intros H. inv_ok.
  match goal with E : check_ActionLifecycle _ = Ok a |- _ => rename E into Hc end.
  apply check_wf in Hc as [Ha Hwf].
  match goal with E : enum_of (ar_lifecycle_state r) = Ok _ |- _ => rename E into Hs end.
  subst a. cbn. split_and!; try done.
  unfold enum_of in Hs. destruct (List.find _ _) eqn:Ef; [|done]. injection Hs as ->.
  apply List.find_some in Ef as [_ Ef]. by apply bool_decide_eq_true in Ef.
Qed.

Lemma wf_version a : lifecycle_wf a → 0 ≤ lc_version a.
Proof. unfold lifecycle_wf, check_ActionLifecycle. intros H. inv_ok. by apply Z.leb_le. Qed.

(** Writing an advanced value's columns makes the row read as that value. *)
Lemma row_advanced r a st now actor a' t : lifecycle_from_row r = Ok a → advance a st now actor = Ok a' →
  lifecycle_from_row (set_approver (lc_approver_subject a') (moved a' t r)) = Ok a'.
Proof.
  intros Hr Ha.
  pose proof (advance_Ok _ _ _ _ _ Ha) as (_ & Hwf & (ap & He & _) & _).
  assert (0 ≤ lc_version a') as Hv by by apply wf_version.
  unfold lifecycle_from_row in *. rewrite or_corrupt_Ok in *. inv_ok.
  cbn [set_approver moved set_progress ar_lifecycle_state ar_version ar_action_protocol ar_operation
       ar_confirmation_kind ar_created_at ar_expires_at].
  rewrite enum_value. cbn [rbind]. rewrite (proj2 (Z.leb_le _ _)) by done. cbn [raise_unless rbind].
  change (identity_from_row (set_approver _ _)) with (identity_from_row r).
  change (scope_from_row (set_approver _ _)) with (scope_from_row r).
  repeat match goal with
    | E : identity_from_row r = Ok _ |- _ => rewrite E; clear E
    | E : scope_from_row r = Ok _ |- _ => rewrite E; clear E
    | E : enum_of _ = Ok _ |- _ => rewrite E; clear E
    | E : parse_timestamp _ = Ok _ |- _ => rewrite E; clear E
    | E : str_nonempty _ = true |- _ => rewrite E; clear E
    end; cbn [rbind raise_unless].
  match goal with E : check_ActionLifecycle _ = Ok a |- _ => apply check_wf in E as [Hid _] end.
  etrans; [|exact Hwf]. f_equal. by subst.
Qed.
Lemma row_moved r a st now a' t : lifecycle_from_row r = Ok a → advance a st now None = Ok a' →
  lifecycle_from_row (moved a' t r) = Ok a'.
Proof.
  intros Hr Ha. rewrite <- (row_advanced r a st now None a' t Hr Ha). f_equal.
  pose proof (advance_Ok _ _ _ _ _ Ha) as (_ & _ & (ap & -> & Hne & Hc) & _). cbn.
  assert (ap = ar_approver_subject r) as ->; [|by destruct r].
  apply lifecycle_from_row_Ok in Hr as (_ & _ & _ & <- & _). apply Hne. intros ->.
  by destruct (Hc eq_refl) as (? & ? & _).
Qed.

(** What calls do to one row. *)
Definition row_step (r r' : action_row) : Prop :=
  life r = life r' ∨
  ar_version r < ar_version r' ∧
  ∃ a a', lifecycle_from_row r = Ok a ∧ lifecycle_from_row r' = Ok a' ∧ advances a a'.

#[export] Instance row_step_preorder : PreOrder row_step.
Proof.
  split; [by left|]. intros r1 r2 r3 [E1|(V1 & a1 & a2 & R1 & R2 & A1)] [E2|(V2 & b1 & b2 & S1 & S2 & A2)].
  - left. congruence.
  - right. apply life_eq in E1 as (L & _ & V). split; [lia|]. exists b1, b2. rewrite L. auto.
  - right. apply life_eq in E2 as (L & _ & V). split; [lia|]. exists a1, a2. rewrite <- L. auto.
  - right. split; [lia|]. exists a1, b2. assert (b1 = a2) as -> by congruence. split_and!; [done|done|]. unfold advances in *. by etrans.
Qed.
Lemma row_step_id r r' : row_step r r' → ar_action_id r' = ar_action_id r.
Proof.
  intros [E|(_ & a & a' & R & R' & A)]; [by apply life_eq in E as (_ & -> & _)|].
  apply lifecycle_from_row_Ok in R as [<- _]. apply lifecycle_from_row_Ok in R' as [<- _].
  by apply advances_facts in A as (_ & _ & -> & _).
Qed.
(** At the same version a row still reads as the same value. *)
Lemma row_step_same r r' a : row_step r r' → lifecycle_from_row r = Ok a → ar_version r' = lc_version a →
  lifecycle_from_row r' = Ok a.
Proof.
  intros [E|(V & _)] R Hv; [by apply life_eq in E as (<- & _)|].
  apply lifecycle_from_row_Ok in R as (_ & R & _). lia.
Qed.
Lemma row_step_progress r r' a : row_step r r' → lifecycle_from_row r = Ok a →
  ∃ a', lifecycle_from_row r' = Ok a' ∧ advances a a'.
Proof.
  intros [E|(_ & b & a' & R & R' & A)] H; [|assert (b = a) as -> by congruence; eauto].
  exists a. split; [by apply life_eq in E as (<- & _)|apply rtc_refl].
Qed.

(** ** Databases *)

(** [l'] is [l] with its rows moved on by [R], and rows added at the end. *)
Definition grown {R} (step : R → R → Prop) (l l' : list R) : Prop :=
  ∃ l1 new, l' = (l1 ++ new)%list ∧ Forall2 step l l1.
#[export] Instance grown_preorder {R} (step : R → R → Prop) `{!PreOrder step} : PreOrder (grown step).
Proof.
  split.
  - intros l. exists l, []. rewrite app_nil_r. by split.
  - intros l1 l2 l3 (m1 & n1 & -> & F1) (m2 & n2 & -> & F2).
    apply Forall2_app_inv_l in F2 as (m & k & F2 & _ & ->). exists m, (k ++ n2)%list. rewrite app_assoc.
    split; [done|]. by etrans.
Qed.
Lemma grown_app {R} (step : R → R → Prop) `{!Reflexive step} l new : grown step l (l ++ new).
Proof. exists l, new. by split. Qed.
Lemma grown_map {R} (step : R → R → Prop) f l : (∀ x, x ∈ l → step x (f x)) → grown step l (List.map f l).
Proof.
  intros Hf. exists (List.map f l), []. rewrite app_nil_r. split; [done|].
  induction l as [|x l IH]; constructor; [apply Hf; by left|]. apply IH. intros y Hy. apply Hf. by right.
Qed.
Lemma grown_elem {R} (step : R → R → Prop) l l' x : grown step l l' → x ∈ l → ∃ y, y ∈ l' ∧ step x y.
Proof.
  intros (l1 & new & -> & F) Hx. apply list_elem_of_lookup_1 in Hx as [i Hx].
  destruct (Forall2_lookup_l _ _ _ _ _ F Hx) as (y & Hy & Hs). exists y. split; [|done].
  apply elem_of_app. left. by eapply list_elem_of_lookup_2.
Qed.

Definition lease_step (l l' : lease_row) : Prop :=
  lr_lease_id l' = lr_lease_id l ∧ lr_action_id l' = lr_action_id l ∧ lr_fencing_token l' = lr_fencing_token l ∧
  (lr_state l' = lr_state l ∨ lr_state l' = "released").
#[export] Instance lease_step_preorder : PreOrder lease_step.
Proof.
  split; [by intros l; unfold lease_step; auto|].
  intros a b d (? & ? & ? & Hs) (? & ? & ? & Hs'). unfold lease_step. split_and!; try congruence.
  destruct Hs' as [->|]; auto.
Qed.

Definition consumed (id : string) (s : database) : Prop :=
  ∃ r, r ∈ db_confirmations s ∧ cr_confirmation_id r = id ∧ cr_state r = "consumed".

(** The primary keys the proofs need. *)
Definition db_ok (s : database) : Prop :=
  NoDup (List.map ar_action_id (db_actions s)) ∧ NoDup (List.map cr_confirmation_id (db_confirmations s)).

Record later (s s' : database) : Prop := {
  lt_actions : grown row_step (db_actions s) (db_actions s');
  lt_leases : grown lease_step (db_leases s) (db_leases s');
  lt_consumed : ∀ id, consumed id s → consumed id s';
}.
#[export] Instance later_preorder : PreOrder later.
Proof. split; [by split|]. intros a b d [A1 L1 C1] [A2 L2 C2]. split; [by etrans|by etrans|auto]. Qed.

Definition safe (s s' : database) : Prop := db_ok s → db_ok s' ∧ later s s'.
#[export] Instance safe_preorder : PreOrder safe.
Proof.
  split; [by intros s Hs; split|]. intros a b d H1 H2 Ha. destruct (H1 Ha) as [Hb L1]. destruct (H2 Hb) as [Hd L2].
  split; [done|]. by etrans.
Qed.

(** The row of an action. *)
Definition row_of (id : string) (s : database) : option action_row := List.find (action_is id) (db_actions s).
(** The lifecycle value stored for an action. *)
Definition stored (id : string) (s : database) : option ActionLifecycle :=
  match row_of id s with Some r => match lifecycle_from_row r with Ok a => Some a | Raise _ => None end | None => None end.

Lemma row_of_elem id s r : row_of id s = Some r → r ∈ db_actions s ∧ ar_action_id r = id.
Proof.
  intros [H1 H2]%List.find_some. split; [by apply list_elem_of_In|]. by apply bool_decide_eq_true in H2.
Qed.
Lemma action_is_true id r : action_is id r = true ↔ ar_action_id r = id.
Proof. apply bool_decide_eq_true. Qed.
Lemma NoDup_map_inj {A B} (f : A → B) l x y : NoDup (List.map f l) → x ∈ l → y ∈ l → f x = f y → x = y.
Proof.
  induction l as [|z l IH]; cbn; intros Hn Hx Hy Hf; [by apply not_elem_of_nil in Hx|].
  apply NoDup_cons in Hn as [Hz Hn].
  assert (∀ w, w ∈ l → f z = f w → False) as Hno.
  { intros w Hw Hfw. apply Hz. rewrite Hfw. by apply list_elem_of_In, List.in_map, list_elem_of_In. }
  apply elem_of_cons in Hx as [->|Hx], Hy as [->|Hy]; try done; [exfalso; eauto..|auto].
Qed.
Lemma row_of_unique id s r : db_ok s → r ∈ db_actions s → ar_action_id r = id → row_of id s = Some r.
Proof.
  intros [Hn _] Hr Hid. unfold row_of. destruct (List.find _ _) as [r'|] eqn:E.
  - apply List.find_some in E as [E1 E2]. apply action_is_true in E2. f_equal.
    apply (NoDup_map_inj _ _ _ _ Hn); [by apply list_elem_of_In|done|congruence].
  - exfalso. apply list_elem_of_In in Hr. apply (List.find_none _ _ E) in Hr.
    apply not_true_iff_false in Hr. by apply Hr, action_is_true.
Qed.
Lemma later_row id s s' r : db_ok s' → later s s' → row_of id s = Some r → ∃ r', row_of id s' = Some r' ∧ row_step r r'.
Proof.
  intros Hok [A _ _] [Hr Hid]%row_of_elem. destruct (grown_elem _ _ _ _ A Hr) as (r' & Hr' & Hs).
  exists r'. split; [|done]. apply row_of_unique; [done..|]. by rewrite (row_step_id _ _ Hs).
Qed.
Lemma stored_row id s a : stored id s = Some a ↔ ∃ r, row_of id s = Some r ∧ lifecycle_from_row r = Ok a.
Proof. unfold stored. split; [|by intros (r & -> & ->)]. repeat case_match; naive_solver. Qed.
Lemma later_stored id s s' a : db_ok s' → later s s' → stored id s = Some a → ∃ a', stored id s' = Some a' ∧ advances a a'.
Proof.
  intros Hok L (r & Hr & Ha)%stored_row. destruct (later_row _ _ _ _ Hok L Hr) as (r' & Hr' & Hs).
  destruct (row_step_progress _ _ _ Hs Ha) as (a' & Ha' & Hadv). exists a'. split; [|done].
  apply stored_row. eauto.
Qed.

(** ** Statements *)

(** Changes the invariants do not see. *)
Definition framed (s s' : database) : Prop :=
  db_actions s' = db_actions s ∧ db_confirmations s' = db_confirmations s ∧ db_leases s' = db_leases s.
Lemma framed_safe s s' : framed s s' → safe s s'.
Proof.
  intros (HA & HC & HL) [N1 N2]. split; [split; congruence|]. split; rewrite ?HA, ?HL; [done..|].
  intros id (r & Hr & H). exists r. by rewrite HC.
Qed.

(** What the repository expects of the ledger on the same database: it writes
    its own table only, one row per draft it accepts. *)
Class EvidenceSink (append_row : AuditEventDraft → M database unit) := {
  sink_frame : ∀ d s s' r, append_row d s = (s', r) → s' = set_rows (R := ledger_row) (db_ledger s') s;
  sink_appends : ∀ d s s' u, append_row d s = (s', Ok u) →
    ∃ row, gr_event_id row = ae_event_id d ∧ db_ledger s' = (db_ledger s ++ [row])%list;
}.

Definition calm (c : circumstances) : Prop := ∀ k s, safe s (cc_others c k s).

Lemma update_actions_safe p f s : (∀ x, x ∈ db_actions s → p x = true → row_step x (f x)) →
  keeps_from safe s (sql_update (R := action_row) p f).
Proof.
  intros Hf s' r [= <- _] [N1 N2]. cbn [rows actions_table].
  assert (∀ x, x ∈ db_actions s → row_step x (if p x then f x else x)) as Hs.
  { intros x Hx. destruct (p x) eqn:E; [by apply Hf|reflexivity]. }
  split; [split; [|done]|split; [|done|done]]; cbn.
  - rewrite List.map_map. erewrite List.map_ext_in; [exact N1|].
    intros x Hx%list_elem_of_In. by apply row_step_id, Hs.
  - by apply grown_map.
Qed.
Lemma release_safe p t s : keeps_from safe s (sql_update (R := lease_row) p (release_row t)).
Proof.
  intros s' r [= <- _] [N1 N2]. split; [by split|]. split; cbn; [done| |done].
  apply grown_map. intros x _. destruct (p x); [|reflexivity]. unfold lease_step. cbn. auto.
Qed.
Lemma insert_lease_safe l s : keeps_from safe s (sql_insert (R := lease_row) l).
Proof.
  intros s' r. unfold sql_insert, bindM, getM, liftM, putM. destruct (raise_unless _ _).
  - intros [= <- _] [N1 N2]. split; [by split|]. split; cbn; [done| |done]. apply grown_app. apply _.
  - by intros [= <- _].
Qed.
Lemma fresh_key_spec {R} `{SqlTable R} (r : R) s : fresh_key r s = true → row_key r ∉ List.map row_key (rows s).
Proof.
  unfold fresh_key. intros Hf%negb_true_iff Hin. apply not_true_iff_false in Hf. apply Hf, List.existsb_exists.
  apply list_elem_of_In, List.in_map_iff in Hin as (x & He & Hx). exists x. split; [done|]. by apply bool_decide_eq_true.
Qed.
Lemma insert_action_safe a s : keeps_from safe s (sql_insert (R := action_row) a).
Proof.
  intros s' r. unfold sql_insert, bindM, getM, liftM, putM.
  destruct (fresh_key a s && admits a s) eqn:E; cbn [raise_unless]; [|by intros [= <- _]].
  apply andb_true_iff in E as [E _]. apply fresh_key_spec in E.
  intros [= <- _] [N1 N2]. split; [split; [|done]|split; [|done|done]]; cbn.
  - rewrite List.map_app. apply NoDup_app. split_and!; [done| |apply NoDup_singleton].
    intros x Hx ->%list_elem_of_singleton. by apply E.
  - apply grown_app. apply _.
Qed.
Lemma frame_insert {R} `{SqlTable R} (r : R) s : (∀ l, framed s (set_rows l s)) → keeps_from safe s (sql_insert r).
Proof.
  intros Hf s' x. unfold sql_insert, bindM, getM, liftM, putM. destruct (raise_unless _ _); intros [= <- _];
    [apply framed_safe, Hf|done].
Qed.
Lemma frame_update {R} `{SqlTable R} p (f : R → R) s :
  (∀ l, framed s (set_rows l s)) → keeps_from safe s (sql_update p f).
Proof. intros Hf s' x [= <- _]. apply framed_safe, Hf. Qed.

(** Marking a confirmation consumed, and storing one that is not over a
    consumed one. *)
Lemma consume_safe p s : keeps_from safe s (sql_update (R := confirmation_row) p consume_row).
Proof.
  intros s' r [= <- _] [N1 N2]. split; [split; [done|]|split; cbn; [done|done|]]; cbn.
  - rewrite List.map_map. erewrite List.map_ext; [exact N2|]. intros x. by destruct (p x).
  - intros id (x & Hx & Hid & Hc). exists (if p x then consume_row x else x). split_and!.
    + apply list_elem_of_In, List.in_map_iff. exists x. split; [done|]. by apply list_elem_of_In.
    + by destruct (p x).
    + by destruct (p x).
Qed.
Lemma upsert_safe b s : keeps_from safe s (upsert_confirmation b).
Proof.
  intros s' r. unfold upsert_confirmation, sql_select_one, sql_replace, bindM, getM, liftM, putM. cbn [rows confirmations_table].
  destruct (List.find _ _) as [x|] eqn:Ex; cbn [negb raise_unless].
  2: destruct (admits _ _); cbn [raise_unless]; [|by intros [= <- _]].
  1: destruct (str_eqb (cr_state x) _) eqn:Ec; cbn [negb raise_unless]; [by intros [= <- _]|];
     destruct (admits _ _); cbn [raise_unless]; [|by intros [= <- _]].
  all: intros [= <- _] [N1 N2]; set (l := db_confirmations s) in *.
  all: assert (∀ y, y ∈ l → cr_confirmation_id y = cb_confirmation_id b → cr_state y ≠ "consumed") as Hno.
  1: { intros y Hy Hid Hc. apply List.find_some in Ex as [Hx Hxid]. apply bool_decide_eq_true in Hxid.
       assert (y = x) as -> by (apply (NoDup_map_inj _ _ _ _ N2); [done|by apply list_elem_of_In|congruence]).
       apply bool_decide_eq_false in Ec. by apply Ec. }
  2: { intros y Hy Hid _. apply list_elem_of_In in Hy. apply (List.find_none _ _ Ex) in Hy.
       by apply bool_decide_eq_false in Hy. }
  all: split; [split; [done|]|split; cbn; [done|done|]]; cbn.
  all: fold l.
  1, 3: rewrite List.map_app; apply NoDup_app; split_and!;
    [ | |apply NoDup_singleton].
  1, 3: clear -N2; induction l as [|y l IH]; cbn in *; [done|]; apply NoDup_cons in N2 as [Hy N2];
    destruct (negb _); cbn; [|by apply IH]; apply NoDup_cons; split; [|by apply IH];
    intros Hin; apply Hy; apply list_elem_of_In, List.in_map_iff in Hin as (z & <- & Hz);
    apply List.filter_In in Hz as [Hz _]; by apply list_elem_of_In, List.in_map.
  1, 2: intros k Hk ->%list_elem_of_singleton; apply list_elem_of_In, List.in_map_iff in Hk as (z & Hz & Hin);
    apply List.filter_In in Hin as [_ Hne]; apply negb_true_iff, bool_decide_eq_false in Hne; by apply Hne.
  all: intros id (y & Hy & Hid & Hc); exists y; split; [|done]; apply elem_of_app; left;
    apply list_elem_of_In, List.filter_In; split; [by apply list_elem_of_In|];
    apply negb_true_iff, bool_decide_eq_false; intros He; by apply (Hno y Hy).
Qed.

(** ** Transactions *)

Lemma keeps_from_ok {A} s (m : M database A) : (db_ok s → keeps_from safe s m) → keeps_from safe s m.
Proof. intros H s' r Hm Hok. by eapply H. Qed.
Lemma gap_safe c k s : calm c → keeps_from safe s (gap c k).
Proof. intros Hc s' r [= <- _]. apply Hc. Qed.
Lemma keeps_from_transaction {A} (R : database → database → Prop) `{!PreOrder R} c (m : M database A) s :
  (∀ k t, R t (cc_others c k t)) → (∀ s1, R s s1 → keeps_from R s1 m) → keeps_from R s (transaction c m).
Proof.
  intros Hc Hm s' r. unfold transaction, gap, modifyM, bindM, raiseM.
  destruct (cc_locked c); [intros [= <- _]; apply Hc|].
  destruct (m _) as [s2 [a|e]] eqn:E; intros [= <- _]; [|apply Hc].
  etrans; [apply Hc|]. eapply Hm; [apply Hc|exact E].
Qed.
Lemma transaction_safe {A} c (m : M database A) s : calm c →
  (∀ s1, safe s s1 → keeps_from safe s1 m) → keeps_from safe s (transaction c m).
Proof. apply keeps_from_transaction, _. Qed.
Lemma transaction_Ok {A} c (m : M database A) s s' a : transaction c m s = (s', Ok a) → m (cc_others c 0 s) = (s', Ok a).
Proof.
  unfold transaction, gap, modifyM, bindM, raiseM. destruct (cc_locked c); [done|]. by destruct (m _) as [s2 [x|x]].
Qed.
Lemma or_sqlite_Ok {A} e (m : M database A) s s' a : or_sqlite e m s = (s', Ok a) → m s = (s', Ok a).
Proof.
  unfold or_sqlite, catchM. destruct (m s) as [s1 [x|x]]; [done|]. by destruct (is_sqlite_error x).
Qed.
Lemma transaction_Raise {A} c (m : M database A) s s' e : transaction c m s = (s', Raise e) → s' = cc_others c 0 s.
Proof.
  unfold transaction, gap, modifyM, bindM, raiseM. destruct (cc_locked c); [by intros [= <- _]|].
  by destruct (m _) as [s2 [x|x]]; intros [= <- _].
Qed.
Lemma keeps_from_catch {A} (R : database → database → Prop) `{!PreOrder R} (m : M database A) h s : keeps_from R s m →
  (∀ s1 e m', h e = Some m' → keeps_from R s1 m') → keeps_from R s (catchM m h).
Proof.
  intros Hm Hh s' r. unfold catchM. destruct (m s) as [s1 [a|e]] eqn:E; [intros [= <- _]; by eapply Hm|].
  destruct (h e) as [m'|] eqn:Eh; [|intros [= <- _]; by eapply Hm].
  intros H. etrans; [by eapply Hm|]. by eapply Hh.
Qed.
Lemma keeps_from_or_sqlite {A} (R : database → database → Prop) `{!PreOrder R} e (m : M database A) s :
  keeps_from R s m → keeps_from R s (or_sqlite e m).
Proof.
  intros Hm. apply keeps_from_catch; [apply _|done|]. intros s1 x m'. destruct (is_sqlite_error x); [|done].
  intros [= <-]. by apply keeps_from_reads; [apply _|apply reads_raise].
Qed.
Lemma catch_safe {A} (m : M database A) h s : keeps_from safe s m →
  (∀ s1 e m', h e = Some m' → keeps_from safe s1 m') → keeps_from safe s (catchM m h).
Proof. apply keeps_from_catch, _. Qed.
Lemma or_sqlite_safe {A} e (m : M database A) s : keeps_from safe s m → keeps_from safe s (or_sqlite e m).
Proof. apply keeps_from_or_sqlite, _. Qed.

Lemma reads_select {R} `{SqlTable R} p : reads (sql_select (R := R) p).
Proof. done. Qed.
Lemma reads_select_one {R} `{SqlTable R} p : reads (sql_select_one (R := R) p).
Proof. done. Qed.
Lemma reads_max_token id : reads (max_token id).
Proof. done. Qed.
Lemma reads_action_row_at id : reads (action_row_at id).
Proof. unfold action_row_at. apply reads_bind; [done|]. intros [r|]; done. Qed.
Lemma reads_current_action id : reads (current_action id).
Proof. apply reads_bind; [apply reads_action_row_at|done]. Qed.
Lemma reads_advanced_from a st now : reads (advanced_from a st now).
Proof. by apply reads_bind. Qed.
Lemma reads_one_row e n : reads (one_row e n).
Proof. done. Qed.
Lemma reads_check_version a v : reads (SqlStore.check_version a v).
Proof. done. Qed.
Lemma reads_check_state a st : reads (SqlStore.check_state a st).
Proof. done. Qed.
Lemma reads_optional_action row : reads (optional_action row).
Proof. destruct row; [|done]. by apply reads_bind. Qed.
Lemma reads_find t o k : reads (SqlStore.find_action_by_idempotency t o k).
Proof. apply reads_bind; [done|]. intros. apply reads_optional_action. Qed.
Lemma reads_conflict a : reads (handle_registration_conflict a).
Proof. apply reads_bind; [apply reads_find|]. intros [b|]; [destruct (str_eqb _ _)|]; done. Qed.
#[export] Hint Resolve reads_select reads_select_one reads_max_token reads_action_row_at reads_current_action
  reads_advanced_from reads_one_row reads_check_version reads_check_state reads_optional_action reads_find
  reads_conflict : atomicity.

Lemma current_action_Ok id s s' a : current_action id s = (s', Ok a) →
  s' = s ∧ ∃ r, row_of id s = Some r ∧ lifecycle_from_row r = Ok a.
Proof.
  unfold current_action, action_row_at, sql_select_one. intros H. inv_ok.
  cbn [rows actions_table] in *. unfold row_of. destruct (List.find _ _) as [r|]; inv_ok. eauto.
Qed.

(** The rows a guarded [UPDATE] matches still read as the value the guards saw,
    whatever has been committed since. *)
Lemma guarded_row id s s1 r a x : safe s s1 → db_ok s → row_of id s = Some r → lifecycle_from_row r = Ok a →
  x ∈ db_actions s1 → at_version id (lc_version a) x = true →
  row_of id s1 = Some x ∧ lifecycle_from_row x = Ok a.
Proof.
  intros Hs Hok Hr Ha Hx [Hid Hv]%andb_true_iff. destruct (Hs Hok) as [Hok1 L].
  apply action_is_true in Hid. apply Z.eqb_eq in Hv.
  pose proof (row_of_unique _ _ _ Hok1 Hx Hid) as Hrow. split; [done|].
  destruct (later_row _ _ _ _ Hok1 L Hr) as (r' & Hr' & Hst). simplify_eq. by eapply row_step_same.
Qed.
Lemma at_version_in_weaken id v st x : at_version_in id v st x = true → at_version id v x = true.
Proof. by intros [? _]%andb_true_iff. Qed.

(** The writes of a move: each turns a row reading as [a] into one reading as [a']. *)
Definition writes (a a' : ActionLifecycle) (f : action_row → action_row) : Prop :=
  ∀ x, lifecycle_from_row x = Ok a → lifecycle_from_row (f x) = Ok a'.
Lemma writes_moved a st now a' t : advance a st now None = Ok a' → writes a a' (moved a' t).
Proof. intros H x Hx. by eapply row_moved. Qed.
Lemma writes_outcome a a' f o t : writes a a' f → writes a a' (λ r, SqlStore.set_outcome o t (f r)).
Proof. intros H x Hx. by apply H. Qed.
Lemma writes_approver a st now actor a' t : advance a st now actor = Ok a' →
  writes a a' (λ r, set_approver (lc_approver_subject a') (moved a' t r)).
Proof. intros H x Hx. by eapply row_advanced. Qed.

Lemma writes_step a a' f x : lifecycle_step a a' → writes a a' f → lifecycle_from_row x = Ok a → row_step x (f x).
Proof.
  intros Hst Hw Hx. right. pose proof (Hw _ Hx) as Hx'. pose proof (lifecycle_step_facts _ _ Hst) as (Hv & _).
  pose proof (lifecycle_from_row_Ok _ _ Hx) as (_ & Hvx & _). pose proof (lifecycle_from_row_Ok _ _ Hx') as (_ & Hvx' & _).
  split; [lia|]. exists a, a'. split_and!; [done..|]. by apply rtc_once.
Qed.
Lemma update_guarded_safe id s s1 r a a' p f :
  safe s s1 → db_ok s → row_of id s = Some r → lifecycle_from_row r = Ok a → lifecycle_step a a' → writes a a' f →
  (∀ x, p x = true → at_version id (lc_version a) x = true) → keeps_from safe s1 (sql_update p f).
Proof.
  intros Hs Hok Hr Ha Hst Hw Hp. apply update_actions_safe. intros x Hx Hpx.
  destruct (guarded_row _ _ _ _ _ _ Hs Hok Hr Ha Hx (Hp _ Hpx)) as [_ Hx']. by eapply writes_step.
Qed.

(** ** Walking through a call *)

Lemma bind_reads_safe {A B} (m : M database A) (k : A → M database B) s : reads m →
  (∀ a, m s = (s, Ok a) → keeps_from safe s (k a)) → keeps_from safe s (bindM m k).
Proof.
  intros Hm Hk s' r. unfold bindM. pose proof (Hm s) as Hs. destruct (m s) as [s1 [a|e]] eqn:E; cbn in Hs; subst s1.
  - by apply Hk.
  - by intros [= <- _].
Qed.
Lemma bind_safe {A B} (m : M database A) (k : A → M database B) s0 s : safe s0 s → keeps_from safe s m →
  (∀ a s1, m s = (s1, Ok a) → safe s0 s1 → keeps_from safe s1 (k a)) → keeps_from safe s (bindM m k).
Proof. intros H0 Hm Hk. apply keeps_from_bind; [apply _|done|]. intros a s1 E H1. apply Hk; [done|]. by etrans. Qed.

(** Facts of the steps taken. *)
Ltac step_facts := repeat match goal with
  | H : current_action _ _ = (_, Ok _) |- _ => apply current_action_Ok in H as (_ & ? & ? & ?)
  | H : SqlStore.check_version _ _ _ = (_, Ok _) |- _ =>
      unfold SqlStore.check_version in H; apply liftM_raise_unless_Ok in H as [?%Z.eqb_eq _]
  | H : liftM (advance _ _ _ _) _ = (_, Ok _) |- _ => unfold liftM in H; injection H as H
  | H : advanced_from _ _ _ _ = (_, Ok _) |- _ =>
      unfold advanced_from in H; apply bindM_Ok in H as (? & ? & _ & H); unfold liftM in H; injection H as _ H
  end.
Ltac sql_step :=
  first
    [ apply frame_insert; by intros
    | apply frame_update; by intros
    | apply consume_safe | apply upsert_safe | apply insert_lease_safe | apply release_safe
    | match goal with |- keeps_from safe _ (bindM _ _) =>
        apply bind_reads_safe; [solve [solve_atomic]|intros ? ?; step_facts] end
    | match goal with Hs : safe ?s0 ?s |- keeps_from safe ?s (bindM _ _) =>
        apply (bind_safe _ _ s0 s Hs); [|clear Hs; intros ? ? ? Hs] end
    | apply or_sqlite_safe
    | match goal with Hs : safe ?s0 ?s |- keeps_from safe ?s (transaction _ _) =>
        apply transaction_safe; [assumption|];
        let s1 := fresh "s" in let H := fresh in intros s1 H; apply (transitivity Hs) in H; clear Hs; rename H into Hs end
    | match goal with |- keeps_from safe _ (gap _ _) => by apply gap_safe end
    | apply keeps_from_reads; [apply _|solve [solve_atomic]]
    | match goal with |- keeps_from safe _ (match ?x with _ => _ end) => destruct x eqn:? end ].

(** ** Calls *)

Inductive sql_call :=
  | QRegister (d : AuthorizationDecision) (a : ActionLifecycle) (drafts : list AuditEventDraft)
  | QAdvance (id : string) (v : Z) (st : LifecycleState) (actor : string) (now : option datetime)
      (drafts : list AuditEventDraft)
  | QCapture (sn : PlanSnapshot) (id : string) (v : Z) (now : option datetime) (drafts : list AuditEventDraft)
  | QMarkOutcome (id : string) (v : Z) (outcome : string) (now : option datetime) (drafts : list AuditEventDraft)
  | QBindContract (id : string) (v : Z) (cv kv digest : string)
  | QAcquire (id : string) (v : Z) (now : option datetime) (drafts : list AuditEventDraft) (lrid rid : string)
  | QRelease (id lease_id : string) (token : Z) (now : option datetime)
  | QBegin (id : string) (v : Z) (confirmation_id : string) (now : option datetime) (drafts : list AuditEventDraft)
  | QExecute (id : string) (v rev : Z) (fields : gmap string string) (now : option datetime)
      (drafts : list AuditEventDraft)
  | QVerify (id : string) (v : Z) (r : VerificationResult) (now : option datetime) (drafts : list AuditEventDraft)
  | QReconcile (id : string) (v : Z) (st : LifecycleState) (outcome : string) (now : option datetime)
      (drafts : list AuditEventDraft)
  | QRollback (id : string) (v : Z) (from : list LifecycleState) (st : LifecycleState) (now : option datetime)
      (drafts : list AuditEventDraft)
  | QPutConfirmation (b : ConfirmationBinding)
  | QRecordConfirmation (b : ConfirmationBinding) (id : string) (v : Z) (st : LifecycleState) (actor : string)
      (now : option datetime) (drafts : list AuditEventDraft)
  | QSaveVerification (r : VerificationResult) (drafts : list AuditEventDraft).

Definition ignore {A} (m : M database A) : M database unit := do _a <- m;; retM ().

Section calls.
Context (append_row : AuditEventDraft → M database unit).

Definition run_sql_call (c : circumstances) (q : sql_call) : M database unit :=
  match q with
  | QRegister d a ds => SqlStore.register_action append_row c d a ds
  | QAdvance id v st actor now ds => ignore (SqlStore.advance_action append_row c id v st actor now ds)
  | QCapture sn id v now ds => ignore (SqlStore.capture_snapshot_and_advance append_row c sn id v now ds)
  | QMarkOutcome id v o now ds => ignore (SqlStore.mark_outcome append_row c id v o now ds)
  | QBindContract id v cv kv d => SqlStore.bind_contract_evidence c id v cv kv d
  | QAcquire id v now ds l r => ignore (SqlStore.acquire_lease append_row c id v now ds l r)
  | QRelease id l t now => ignore (SqlStore.release_lease c id l t now)
  | QBegin id v cid now ds => ignore (SqlStore.begin_execution append_row c id v cid now ds)
  | QExecute id v rev fs now ds => ignore (SqlStore.execute_plan_mutation append_row c id v rev fs now ds)
  | QVerify id v r now ds => ignore (SqlStore.record_verification_outcome append_row c id v r now ds)
  | QReconcile id v st o now ds => ignore (SqlStore.mark_reconciled append_row c id v st o now ds)
  | QRollback id v from st now ds => ignore (SqlStore.advance_rollback_state append_row c id v from st now ds)
  | QPutConfirmation b => SqlStore.put_confirmation c b
  | QRecordConfirmation b id v st actor now ds =>
      ignore (SqlStore.record_confirmation_with_advance append_row c b id v st actor now ds)
  | QSaveVerification r ds => ignore (SqlStore.save_verification append_row c r ds)
  end.

Context `{!EvidenceSink append_row}.

Lemma sql_append_evidence_safe ds : ∀ s, keeps_from safe s (SqlStore.append_evidence append_row ds).
Proof.
  induction ds as [|d ds IH]; intros s; [by intros s' r [= <- _]|]. cbn [SqlStore.append_evidence].
  apply keeps_from_bind; [apply _| |intros; apply IH].
  intros s' r H. apply sink_frame in H as ->. by apply framed_safe.
Qed.

(** The guarded write of a move, wherever in its transaction it stands. *)
Ltac guarded :=
  match goal with
  | Hs : safe ?s0 ?s, Hr : row_of _ ?s0 = Some _, Ha : lifecycle_from_row _ = Ok ?a, Hadv : advance ?a _ _ _ = Ok ?b
    |- keeps_from safe ?s (sql_update _ _) =>
      eapply (update_guarded_safe _ s0 s _ a b); [exact Hs|assumption|exact Hr|exact Ha|by eexists _, _, _| |];
      [eauto using writes_moved, writes_outcome, writes_approver
      |intros ?; try (intros ?%at_version_in_weaken); congruence]
  end.
Ltac sql_call_safe :=
  repeat first [ guarded | apply sql_append_evidence_safe | sql_step ].

Ltac sql_call_start := intros Hc; apply keeps_from_ok; intros Hok; match goal with |- keeps_from safe ?s _ =>
  assert (safe s s) as Hs by done end.

Lemma sql_advance_action_safe c id v st actor now ds s : calm c →
  keeps_from safe s (SqlStore.advance_action append_row c id v st actor now ds).
Proof. sql_call_start. unfold SqlStore.advance_action. sql_call_safe. Qed.
Lemma sql_capture_safe c sn id v now ds s : calm c →
  keeps_from safe s (SqlStore.capture_snapshot_and_advance append_row c sn id v now ds).
Proof. sql_call_start. unfold SqlStore.capture_snapshot_and_advance, move. sql_call_safe.
Qed.
Lemma begin_safe c id v cid now ds s : calm c →
  keeps_from safe s (SqlStore.begin_execution append_row c id v cid now ds).
Proof. sql_call_start. unfold SqlStore.begin_execution, move. sql_call_safe. Qed.
Lemma sql_execute_safe c id v rev fs now ds s : calm c →
  keeps_from safe s (SqlStore.execute_plan_mutation append_row c id v rev fs now ds).
Proof. sql_call_start. unfold SqlStore.execute_plan_mutation, move. sql_call_safe. Qed.
Lemma verify_safe c id v r now ds s : calm c →
  keeps_from safe s (SqlStore.record_verification_outcome append_row c id v r now ds).
Proof. sql_call_start. unfold SqlStore.record_verification_outcome, move. sql_call_safe. Qed.
Lemma sql_reconcile_safe c id v st o now ds s : calm c →
  keeps_from safe s (SqlStore.mark_reconciled append_row c id v st o now ds).
Proof. sql_call_start. unfold SqlStore.mark_reconciled, move. sql_call_safe. Qed.
Lemma rollback_state_safe c id v from st now ds s : calm c →
  keeps_from safe s (SqlStore.advance_rollback_state append_row c id v from st now ds).
Proof. sql_call_start. unfold SqlStore.advance_rollback_state, move. sql_call_safe. Qed.
Lemma sql_record_confirmation_safe c b id v st actor now ds s : calm c →
  keeps_from safe s (SqlStore.record_confirmation_with_advance append_row c b id v st actor now ds).
Proof. sql_call_start. unfold SqlStore.record_confirmation_with_advance. sql_call_safe. Qed.
Lemma acquire_safe c id v now ds lrid rid s : calm c →
  keeps_from safe s (SqlStore.acquire_lease append_row c id v now ds lrid rid).
Proof. sql_call_start. unfold SqlStore.acquire_lease. sql_call_safe. Qed.
Lemma sql_mark_outcome_safe c id v o now ds s : calm c →
  keeps_from safe s (SqlStore.mark_outcome append_row c id v o now ds).
Proof.
  sql_call_start. unfold SqlStore.mark_outcome.
  repeat first [ apply update_actions_safe; intros x _ _; by left | apply sql_append_evidence_safe | sql_step ].
Qed.
Lemma sql_bind_contract_safe c id v cv kv d s : calm c →
  keeps_from safe s (SqlStore.bind_contract_evidence c id v cv kv d).
Proof.
  sql_call_start. unfold SqlStore.bind_contract_evidence.
  repeat first [ apply update_actions_safe; intros x _ _; by left | apply sql_append_evidence_safe | sql_step ].
Qed.
Lemma register_safe c d a ds s : calm c → keeps_from safe s (SqlStore.register_action append_row c d a ds).
Proof.
  sql_call_start. unfold SqlStore.register_action, insert_registration. sql_step.
  repeat sql_step. apply catch_safe.
  - repeat first [ apply sql_append_evidence_safe | apply insert_action_safe | sql_step ].
  - intros s1 [] m'; try done; intros [= <-]; by repeat sql_step.
Qed.

Lemma run_sql_call_safe c q s : calm c → keeps_from safe s (run_sql_call c q).
Proof.
  intros Hc. assert (safe s s) as Hs by done. destruct q; cbn [run_sql_call]; unfold ignore, SqlStore.release_lease,
    SqlStore.put_confirmation, SqlStore.save_verification.
  all: repeat first [ apply register_safe | apply sql_advance_action_safe | apply sql_capture_safe | apply sql_mark_outcome_safe
    | apply sql_bind_contract_safe | apply acquire_safe | apply begin_safe | apply sql_execute_safe | apply verify_safe
    | apply sql_reconcile_safe | apply rollback_state_safe | apply sql_record_confirmation_safe | apply sql_append_evidence_safe
    | assumption | sql_step ].
Qed.
End calls.
