(* ===== verification/SqlProps.v ===== *)
(** * SqlProps: what the durable repository promises its callers

    For any number of connections on one database file: an accepted call moved
    the action as it was stored when the transaction began, by one lifecycle
    step, with its evidence; a refused call wrote nothing; a version and a
    confirmation are used by one call at most; and a registered action and its
    decision are read back as they were given. *)

From S2P Require Import Prelude PyStr PyTime PyDict PyIso Sha256 Json Models Lifecycle ProjectPlan.
From S2P Require Import Identity Policy AuditLedger AuditBuilders Verification SqlTables SqlRows ActionRepo SqlStore SqlRefine.
From Stdlib Require Import Ascii String ZArith Lia.
From stdpp Require Import base strings gmap relations list.

Local Open Scope string_scope.
Local Open Scope Z_scope.
Local Open Scope aipm_scope.

(** The database at the moment the call's transaction begins. *)
Definition began (c : circumstances) (q : sql_call) (s : database) : database :=
  match q with QExecute _ _ _ _ _ _ => cc_others c 0 (cc_others c 1 s) | _ => cc_others c 0 s end.

(** The action a call moves and the version it is guarded by. *)
Definition moves (q : sql_call) : option (string * Z) :=
  match q with
  | QAdvance id v _ _ _ _ | QCapture _ id v _ _ | QAcquire id v _ _ _ _ | QBegin id v _ _ _
  | QExecute id v _ _ _ _ | QVerify id v _ _ _ | QReconcile id v _ _ _ _ | QRollback id v _ _ _ _
  | QRecordConfirmation _ id v _ _ _ _ => Some (id, v)
  | _ => None
  end.
(** The events a call records with its write. *)
Definition evidence (q : sql_call) : list string :=
  match q with
  | QAcquire _ _ _ [] _ rid => [rid]
  | QRegister _ _ ds | QAdvance _ _ _ _ _ ds | QCapture _ _ _ _ ds | QMarkOutcome _ _ _ _ ds
  | QAcquire _ _ _ ds _ _ | QBegin _ _ _ _ ds | QExecute _ _ _ _ _ ds | QVerify _ _ _ _ ds
  | QReconcile _ _ _ _ _ ds | QRollback _ _ _ _ _ ds | QRecordConfirmation _ _ _ _ _ _ ds
  | QSaveVerification _ ds => List.map ae_event_id ds
  | _ => []
  end.
Definition ledger_ids (s : database) : list string := List.map gr_event_id (db_ledger s).

(** ** Refusals *)



Section refusals.
Context (append_row : AuditEventDraft → M database unit) (c : circumstances).





End refusals.

(** ** Accepted moves *)

(** From [s1] to [s2] the action took one step from version [v], and the
    ledger grew by the events [ids]. *)
Definition took (id : string) (v : Z) (ids : list string) (s1 s2 : database) : Prop :=
  ∃ a a', stored id s1 = Some a ∧ lc_version a = v ∧ lifecycle_step a a' ∧ stored id s2 = Some a' ∧
    ledger_ids s2 = (ledger_ids s1 ++ ids)%list.

(** The actions and the ledger are left alone. *)
Definition core (s s' : database) : Prop := db_actions s' = db_actions s ∧ db_ledger s' = db_ledger s.
#[export] Instance core_preorder : PreOrder core.
Proof. split; [by split|]. intros a b d [A1 B1] [A2 B2]. split; congruence. Qed.

Lemma core_insert {R} `{SqlTable R} (r : R) s s' x : (∀ l, core s (set_rows l s)) → sql_insert r s = (s', x) → core s s'.
Proof.
  intros Hf. unfold sql_insert, bindM, getM, liftM, putM. destruct (raise_unless _ _); intros [= <- _]; [apply Hf|done].
Qed.
Lemma core_update {R} `{SqlTable R} p (f : R → R) s s' x : (∀ l, core s (set_rows l s)) →
  sql_update p f s = (s', x) → core s s'.
Proof. intros Hf [= <- _]. apply Hf. Qed.
Lemma core_one_row e n s s' u : one_row e n s = (s', Ok u) → core s s'.
Proof. unfold one_row. by intros [_ ->]%liftM_raise_unless_Ok. Qed.
Lemma core_upsert b s s' x : upsert_confirmation b s = (s', x) → core s s'.
Proof.
  unfold upsert_confirmation, sql_select_one, sql_replace, bindM, getM, liftM, putM.
  destruct (raise_unless _ _); [|by intros [= <- _]]. destruct (raise_unless _ _); by intros [= <- _].
Qed.


Lemma find_map {A} (p : A → bool) g l : (∀ x, x ∈ l → p (g x) = p x) →
  List.find p (List.map g l) = g <$> List.find p l.
Proof.
  induction l as [|x l IH]; intros Hp; [done|]. cbn. rewrite Hp by by left. destruct (p x); [done|].
  apply IH. intros y Hy. apply Hp. by right.
Qed.

Section accepted.
Context (append_row : AuditEventDraft → M database unit) `{!EvidenceSink append_row}.

Lemma append_evidence_Ok ds : ∀ s s' u, SqlStore.append_evidence append_row ds s = (s', Ok u) →
  db_actions s' = db_actions s ∧ ledger_ids s' = (ledger_ids s ++ List.map ae_event_id ds)%list.
Proof.
  induction ds as [|d ds IH]; intros s s' u H; cbn [SqlStore.append_evidence] in H.
  - inv_ok. by rewrite app_nil_r.
  - apply bindM_Ok in H as (s1 & [] & H1 & H). apply IH in H as [HA HL].
    pose proof (sink_frame _ _ _ _ H1) as Hf. apply sink_appends in H1 as (row & Hid & Hl).
    split; [by rewrite HA, Hf|]. rewrite HL. unfold ledger_ids. rewrite Hl, List.map_app, <- app_assoc. cbn. by rewrite Hid.
Qed.

(** The guarded write, its row count and its evidence, somewhere in a
    transaction begun at [s1]. *)
Lemma guarded_took id v s s1 s2 s3 s4 r a a' p f n e ds u1 u2 :
  safe s s1 → db_ok s → row_of id s = Some r → lifecycle_from_row r = Ok a → lc_version a = v → lifecycle_step a a' →
  writes a a' f → (∀ x, p x = true → at_version id v x = true) → core s1 s2 →
  sql_update p f s2 = (s3, Ok n) → one_row e n s3 = (s4, Ok u1) →
  ∀ s5, SqlStore.append_evidence append_row ds s4 = (s5, Ok u2) → took id v (List.map ae_event_id ds) s1 s5.
Proof.
  intros Hs Hok Hr Ha <- Hst Hw Hp [HA HL] [= <- Hn] H1 s5 H2. unfold one_row in H1.
  apply liftM_raise_unless_Ok in H1 as [H1 ->]. subst n. cbn [rows actions_table] in H1. rewrite HA in H1.
  apply append_evidence_Ok in H2 as [HA' HL']. cbn in HA', HL'. rewrite HA in HA'.
  assert (∃ x, x ∈ db_actions s1 ∧ p x = true) as (x & Hx & Hpx).
  { destruct (List.filter p (db_actions s1)) as [|x l] eqn:E; [done|]. exists x.
    assert (List.In x (List.filter p (db_actions s1))) as Hin by (rewrite E; by left).
    apply List.filter_In in Hin as [Hin ?]. split; [by apply list_elem_of_In|done]. }
  destruct (guarded_row _ _ _ _ _ _ Hs Hok Hr Ha Hx (Hp _ Hpx)) as [Hrow Hax].
  exists a, a'. split_and!; [apply stored_row; eauto|done|done| |].
  - apply stored_row. exists (f x). split; [|by apply Hw]. unfold row_of. rewrite HA', find_map.
    + unfold row_of in Hrow. rewrite Hrow. cbn. by rewrite Hpx.
    + intros y Hy. destruct (p y) eqn:Epy; [|done].
      destruct (guarded_row _ _ _ _ _ _ Hs Hok Hr Ha Hy (Hp _ Epy)) as [_ Hay].
      unfold action_is. by rewrite (row_step_id _ _ (writes_step _ _ _ _ Hst Hw Hay)).
  - rewrite HL'. unfold ledger_ids. by rewrite <- HL.
Qed.

(** The steps of a call that returned. *)
Ltac call_ok := repeat (
  match goal with
  | H : or_sqlite _ _ _ = (_, Ok _) |- _ => apply or_sqlite_Ok in H
  | H : transaction _ _ _ = (_, Ok _) |- _ => apply transaction_Ok in H
  | H : current_action _ _ = (_, Ok _) |- _ => apply current_action_Ok in H as (-> & ? & ? & ?)
  | H : SqlStore.check_version _ _ _ = (_, Ok _) |- _ =>
      unfold SqlStore.check_version in H; apply liftM_raise_unless_Ok in H as [?%Z.eqb_eq ->]
  | H : SqlStore.check_state _ _ _ = (_, Ok _) |- _ =>
      unfold SqlStore.check_state in H; apply liftM_raise_unless_Ok in H as [_ ->]
  | H : advanced_from _ _ _ _ = (_, Ok _) |- _ => unfold advanced_from in H
  | H : move _ _ _ _ _ _ _ _ = (_, Ok _) |- _ => unfold move in H
  | H : sql_select_one _ _ = (_, Ok _) |- _ => unfold sql_select_one in H
  | H : max_token _ _ = (_, Ok _) |- _ => unfold max_token in H
  | H : gap _ _ _ = (_, Ok _) |- _ => unfold gap in H
  end || inv_ok).
Ltac core_chain :=
  lazymatch goal with |- core ?s1 ?s2 =>
    first
      [ done
      | match goal with H : sql_insert _ s1 = _ |- _ => etrans; [apply (λ Hf, core_insert _ _ _ _ Hf H); by intros|] end
      | match goal with H : one_row _ _ s1 = _ |- _ => etrans; [exact (core_one_row _ _ _ _ _ H)|] end
      | match goal with H : upsert_confirmation _ s1 = _ |- _ => etrans; [eapply core_upsert; exact H|] end
      | match goal with H : sql_update _ _ s1 = _ |- _ => etrans; [apply (λ Hf, core_update _ _ _ _ _ Hf H); by intros|] end ];
    try core_chain
  end.
Ltac took_by := match goal with
  | Hu : @sql_update action_row _ ?p ?f ?s2 = (?s3, Ok _), H1 : one_row _ _ ?s3 = (?s4, Ok _),
    H2 : SqlStore.append_evidence _ ?ds ?s4 = (?s5, Ok _), Hr : row_of _ ?s = Some _,
    Ha : lifecycle_from_row _ = Ok ?a, Hadv : advance ?a _ _ _ = Ok ?b |- took ?id ?v _ ?s1 _ =>
      eapply (guarded_took id v s s1 s2 s3 s4 _ a b p f);
        [|assumption|exact Hr|exact Ha|congruence|by eexists _, _, _
         |eauto using writes_moved, writes_outcome, writes_approver
         |intros ?; try (intros ?%at_version_in_weaken); congruence|core_chain|exact Hu|exact H1|exact H2]
  end.

Lemma advance_action_took c id v st actor now ds s s' a : calm c → db_ok s →
  SqlStore.advance_action append_row c id v st actor now ds s = (s', Ok a) →
  took id v (List.map ae_event_id ds) (cc_others c 0 s) s'.
Proof. intros Hc Hok H. unfold SqlStore.advance_action in H. call_ok. took_by. apply Hc. Qed.
Lemma sql_capture_took c sn id v now ds s s' a : calm c → db_ok s →
  SqlStore.capture_snapshot_and_advance append_row c sn id v now ds s = (s', Ok a) →
  took id v (List.map ae_event_id ds) (cc_others c 0 s) s'.
Proof. intros Hc Hok H. unfold SqlStore.capture_snapshot_and_advance in H. call_ok. took_by. apply Hc. Qed.
Lemma sql_begin_took c id v cid now ds s s' a : calm c → db_ok s →
  SqlStore.begin_execution append_row c id v cid now ds s = (s', Ok a) →
  took id v (List.map ae_event_id ds) (cc_others c 0 s) s'.
Proof. intros Hc Hok H. unfold SqlStore.begin_execution in H. call_ok. took_by. apply Hc. Qed.
Lemma sql_verify_took c id v r now ds s s' a : calm c → db_ok s →
  SqlStore.record_verification_outcome append_row c id v r now ds s = (s', Ok a) →
  took id v (List.map ae_event_id ds) (cc_others c 0 s) s'.
Proof. intros Hc Hok H. unfold SqlStore.record_verification_outcome in H. call_ok. took_by. apply Hc. Qed.
Lemma sql_reconcile_took c id v st o now ds s s' a : calm c → db_ok s →
  SqlStore.mark_reconciled append_row c id v st o now ds s = (s', Ok a) →
  took id v (List.map ae_event_id ds) (cc_others c 0 s) s'.
Proof. intros Hc Hok H. unfold SqlStore.mark_reconciled in H. call_ok. took_by. apply Hc. Qed.
Lemma sql_rollback_took c id v from st now ds s s' a : calm c → db_ok s →
  SqlStore.advance_rollback_state append_row c id v from st now ds s = (s', Ok a) →
  took id v (List.map ae_event_id ds) (cc_others c 0 s) s'.
Proof. intros Hc Hok H. unfold SqlStore.advance_rollback_state in H. call_ok. took_by. apply Hc. Qed.
Lemma sql_record_confirmation_took c b id v st actor now ds s s' a : calm c → db_ok s →
  SqlStore.record_confirmation_with_advance append_row c b id v st actor now ds s = (s', Ok a) →
  took id v (List.map ae_event_id ds) (cc_others c 0 s) s'.
Proof. intros Hc Hok H. unfold SqlStore.record_confirmation_with_advance in H. call_ok. took_by. apply Hc. Qed.
Lemma sql_execute_took c id v rev fs now ds s s' a : calm c → db_ok s →
  SqlStore.execute_plan_mutation append_row c id v rev fs now ds s = (s', Ok a) →
  took id v (List.map ae_event_id ds) (cc_others c 0 (cc_others c 1 s)) s'.
Proof.
  intros Hc Hok H. unfold SqlStore.execute_plan_mutation in H. call_ok.
  match goal with H : context [List.find ?p ?l] |- _ => destruct (List.find p l); [|done] end. call_ok.
  took_by. by etrans; apply Hc. Qed.
Lemma sql_acquire_took c id v now ds lrid rid s s' la : calm c → db_ok s →
  SqlStore.acquire_lease append_row c id v now ds lrid rid s = (s', Ok la) →
  took id v (evidence (QAcquire id v now ds lrid rid)) (cc_others c 0 s) s'.
Proof.
  intros Hc Hok H. unfold SqlStore.acquire_lease in H. call_ok.
  match goal with He : SqlStore.append_evidence _ ?ds' _ = _ |- _ =>
    assert (evidence (QAcquire id 0 now ds lrid rid) = List.map ae_event_id ds') as Hev end.
  { destruct ds as [|d ds]; inv_ok; [|done]. unfold lease_acquired, lease_event, check_AuditEventDraft in *. by inv_ok. }
  change (evidence _) with (evidence (QAcquire id 0 now ds lrid rid)). rewrite Hev. took_by. apply Hc.
Qed.

Lemma accepted_took c q s s' id v : calm c → db_ok s → moves q = Some (id, v) →
  run_sql_call append_row c q s = (s', Ok ()) → took id v (evidence q) (began c q s) s'.
Proof.
  intros Hc Hok Hq H. destruct q; cbn in Hq; simplify_eq; cbn [run_sql_call] in H; unfold ignore in H;
    apply bindM_Ok in H as (s1 & x & H & [= <-]).
  - by eapply advance_action_took.
  - by eapply sql_capture_took.
  - by eapply sql_acquire_took.
  - by eapply sql_begin_took.
  - by eapply sql_execute_took.
  - by eapply sql_verify_took.
  - by eapply sql_reconcile_took.
  - by eapply sql_rollback_took.
  - by eapply sql_record_confirmation_took.
Qed.

(** ** Connections *)

(** [connections s s']: calls of any number of connections, with whatever the
    others committed in the gaps of each, turn [s] into [s']. *)
Inductive connections : database → database → Prop :=
  | conn_done s : connections s s
  | conn_call c q s s1 r s' : (∀ k t, connections t (cc_others c k t)) →
      run_sql_call append_row c q s = (s1, r) → connections s1 s' → connections s s'.
Definition peers (c : circumstances) : Prop := ∀ k t, connections t (cc_others c k t).

Lemma connections_safe s s' : connections s s' → safe s s'.
Proof.
  induction 1 as [s|c q s s1 r s' _ IH Hq _ IH']; [done|]. etrans; [|exact IH'].
  exact (run_sql_call_safe append_row c q s IH _ _ Hq).
Qed.
Lemma peers_calm c : peers c → calm c.
Proof. intros Hc k t. apply connections_safe, Hc. Qed.
Lemma connections_app s1 s2 s3 : connections s1 s2 → connections s2 s3 → connections s1 s3.
Proof. induction 1 as [s|c q s s1 r s' Ho _ Hq _ IH]; [done|]. intros H. by econstructor; [..|apply IH]. Qed.
Lemma began_connections c q s : peers c → connections s (began c q s).
Proof. intros Hc. destruct q; cbn; try apply Hc. eapply connections_app; apply Hc. Qed.


End accepted.

(** ** Reading back a registration *)

(** A decision and the lifecycle value built from it: both carry the identity
    the decision binds. *)
Record registrable (d : AuthorizationDecision) (a : ActionLifecycle) (i : ActionIdentity) (r : ActionRequest) : Prop := {
  rg_identity : ad_action_identity d = Some i;
  rg_request : ad_request d = Some r ∧ request_wf r;
  rg_subject : ad_principal_subject d = Some (id_requester_subject i);
  rg_operation : ad_operation d = Some (lc_operation a) ∧ id_operation i = value (lc_operation a);
  rg_target : ad_target_id d = Some (id_target_id i) ∧ ad_environment d = Some (id_environment i) ∧
    ad_policy_version d = id_policy_version i;
  rg_plan : ad_plan_revision d = Some (id_target_revision i) ∧ ad_plan_digest d = Some (id_plan_digest i);
  rg_decision : check_AuthorizationDecision d = Ok d ∧ lc_decision_id a = ad_decision_id d;
  rg_scope : lc_scope a = {| sc_target_id := id_target_id i; sc_environment := id_environment i;
                             sc_policy_version := id_policy_version i |} ∧ check_ActionScope (lc_scope a) = Ok (lc_scope a);
  rg_action : lifecycle_wf a ∧ str_nonempty (lc_action_protocol a) = true;
  rg_times : valid_datetime (ad_decided_at d) ∧ valid_datetime (ad_expires_at d) ∧
    valid_datetime (lc_created_at a) ∧ valid_datetime (lc_expires_at a);
}.

Lemma valid_registration d a i r : registrable d a i r → validate_action_registration d a = Ok () →
  verify_action_identity i = true ∧ lc_action_id a = id_action_id i ∧ lc_plan_id a = id_plan_id i ∧
  lc_plan_digest a = id_plan_digest i ∧ lc_plan_revision a = id_target_revision i ∧
  lc_requester_subject a = id_requester_subject i.
Proof.
  intros [Hi _ _ _ _ _ _ _ _ _] H. unfold validate_action_registration in H. rewrite Hi in H.
  destruct (ad_allowed d); [|done]. inv_ok.
  repeat match goal with
    | H : str_eqb _ _ = true |- _ => apply bool_decide_eq_true in H
    | H : (_ =? _) = true |- _ => apply Z.eqb_eq in H
    end. done.
Qed.
Lemma lifecycle_round_trip d a i r : registrable d a i r → validate_action_registration d a = Ok () →
  lifecycle_from_row (action_row_of (ad_decision_id d) i a) = Ok a.
Proof.
  intros Hr Hv. pose proof (valid_registration _ _ _ _ Hr Hv) as (Hid & E1 & E2 & E3 & E4 & E5).
  destruct Hr as [_ _ _ [_ Hop] _ _ [_ Hdid] [Hsc Hcs] [Hwf Hproto] (_ & _ & Hc & He)].
  unfold lifecycle_from_row. apply or_corrupt_Ok.
  unfold action_row_of, identity_from_row, verified_identity, scope_from_row. cbn -[value check_ActionLifecycle check_ActionScope verify_action_identity].
  rewrite enum_value. cbn [rbind]. pose proof (wf_version _ Hwf) as Hver.
  rewrite (proj2 (Z.leb_le _ _)) by done. cbn [raise_unless rbind].
  assert ({| id_action_id := lc_action_id a; id_plan_id := id_plan_id i; id_plan_digest := id_plan_digest i;
             id_target_revision := id_target_revision i; id_target_digest := id_target_digest i;
             id_policy_version := id_policy_version i; id_requester_subject := id_requester_subject i;
             id_operation := id_operation i; id_target_id := id_target_id i; id_environment := id_environment i |} = i) as ->
    by (rewrite E1; by destruct i).
  rewrite Hid, Hproto, Hop, enum_value. cbn [raise_unless rbind]. rewrite <- Hsc, Hcs, enum_value, !parse_isoformat by done.
  cbn [rbind]. rewrite <- Hdid, <- E2, <- E3, <- E4, <- E5. etrans; [|exact Hwf]. f_equal. by destruct a.
Qed.
Lemma decision_round_trip d a i r : registrable d a i r → validate_action_registration d a = Ok () →
  decision_from_row (decision_row_of d (id_requester_subject i) i r) = Ok d.
Proof.
  intros Hr Hv. pose proof (valid_registration _ _ _ _ Hr Hv) as (Hid & _).
  destruct Hr as [Hi [Hreq Hwf] Hsub [Hdo Hop] (Ht & Hen & Hp) [Hrev Hdig] [Hcd _] _ _ (Hd & He & _ & _)].
  unfold decision_from_row. apply or_corrupt_Ok.
  unfold decision_row_of, decision_identity, verified_identity. cbn -[value check_AuthorizationDecision verify_action_identity request_from_canonical request_canonical].
  rewrite enum_value, Hop, enum_value, !parse_isoformat by done. cbn [rbind].
  rewrite <- Hop.
  assert ({| id_action_id := id_action_id i; id_plan_id := id_plan_id i; id_plan_digest := id_plan_digest i;
             id_target_revision := id_target_revision i; id_target_digest := id_target_digest i;
             id_policy_version := id_policy_version i; id_requester_subject := id_requester_subject i;
             id_operation := id_operation i; id_target_id := id_target_id i; id_environment := id_environment i |} = i) as ->
    by by destruct i.
  rewrite Hid, enum_value, (request_of_canonical _ Hwf), !of_sql_bool_id. cbn [raise_unless rbind].
  etrans; [|exact Hcd]. f_equal. destruct d; cbn in *. by subst.
Qed.

Lemma find_new {A} (p : A → bool) l x : List.existsb p l = false → p x = true → List.find p (l ++ [x]) = Some x.
Proof.
  induction l as [|y l IH]; cbn; intros Hl Hx; [by rewrite Hx|]. apply orb_false_iff in Hl as [-> Hl]. by apply IH.
Qed.
Lemma str_eqb_sym a b : str_eqb a b = str_eqb b a.
Proof. unfold str_eqb. apply bool_decide_ext. split; congruence. Qed.
Lemma existsb_ext {A} (p q : A → bool) l : (∀ x, p x = q x) → List.existsb p l = List.existsb q l.
Proof. intros H. induction l as [|x l IH]; [done|]. cbn. by rewrite H, IH. Qed.

Section registration.
Context (append_row : AuditEventDraft → M database unit) `{!EvidenceSink append_row}.

Lemma append_evidence_tables ds : ∀ s s' u, SqlStore.append_evidence append_row ds s = (s', Ok u) →
  db_actions s' = db_actions s ∧ db_decisions s' = db_decisions s.
Proof.
  induction ds as [|d ds IH]; intros s s' u H; cbn in H; inv_ok; [done|].
  match goal with H : append_row _ _ = _ |- _ => apply sink_frame in H end.
  match goal with H : SqlStore.append_evidence _ _ _ = _ |- _ => apply IH in H as [-> ->] end.
  match goal with H : _ = set_rows _ _ |- _ => by rewrite H end.
Qed.

Lemma register_inserts c d a i r ds s s' : registrable d a i r →
  SqlStore.register_action append_row c d a ds s = (s', Ok ()) → row_of (lc_action_id a) (cc_others c 0 s) = None →
  let row := action_row_of (ad_decision_id d) i a in let drow := decision_row_of d (id_requester_subject i) i r in
  let s0 := cc_others c 0 s in
  validate_action_registration d a = Ok () ∧
  db_actions s' = (db_actions s0 ++ [row])%list ∧ db_decisions s' = (db_decisions s0 ++ [drow])%list ∧
  fresh_key drow s0 = true ∧ fresh_key row s0 = true ∧ List.existsb (same_idempotency row) (db_actions s0) = false.
Proof.
  intros Hr H Hnone. unfold SqlStore.register_action in H. apply bindM_Ok in H as (s1 & [] & Hv & H).
  unfold liftM in Hv. injection Hv as <- Hv. rewrite (rg_identity _ _ _ _ Hr), (proj1 (rg_request _ _ _ _ Hr)) in H.
  unfold catchM in H. destruct (transaction _ _ _) as [s2 [[]|e]] eqn:E.
  - injection H as <-. apply transaction_Ok in E. apply bindM_Ok in E as (s3 & [] & E & Ha).
    unfold insert_registration in E. rewrite (rg_subject _ _ _ _ Hr) in E. apply bindM_Ok in E as (s4 & [] & E1 & E2).
    unfold sql_insert in E1, E2. inv_ok. apply append_evidence_tables in Ha as [-> ->].
    cbn in *. inv_ok. split_and!; first [done|assumption].
  - exfalso. assert (∃ t, handle_registration_conflict a s2 = (t, Ok ())) as [t Ht] by (destruct e; try done; eauto).
    apply transaction_Raise in E as ->.
    unfold handle_registration_conflict, SqlStore.find_action_by_idempotency, sql_select_one, optional_action in Ht.
    apply bindM_Ok in Ht as (s3 & o & Ho & Ht). apply bindM_Ok in Ho as (s4 & row & [= <- <-] & Ho).
    destruct (List.find _ _) as [x|] eqn:Ef; [|by inv_ok]. inv_ok.
    match goal with H : (if ?b then _ else _) _ = _ |- _ => destruct b eqn:Eb; [|by inv_ok] end. inv_ok.
    apply bool_decide_eq_true in Eb. match goal with H : lifecycle_from_row _ = Ok _ |- _ => apply lifecycle_from_row_Ok in H as [Hx _] end.
    apply List.find_some in Ef as [Hin _]. apply (List.find_none _ _ Hnone) in Hin.
    apply not_true_iff_false in Hin. apply Hin, action_is_true. congruence.
Qed.
End registration.

(** ** Properties *)

(** C17: Compare-and-swap against the stored row is sound under concurrency.
    Whatever the other connections commit between the reads of a call and its
    transaction, an accepted call that moves an action found it, when the
    transaction began, at the version the caller expected, moved the value
    stored there by exactly one accepted lifecycle step, stored the result, and
    recorded its audit events in the same transaction. *)
Theorem accepted_call_moves append_row `{!EvidenceSink append_row} c q s s' id v :
  db_ok s → peers append_row c → moves q = Some (id, v) → run_sql_call append_row c q s = (s', Ok ()) →
  ∃ a a', stored id (began c q s) = Some a ∧ lc_version a = v ∧ lifecycle_step a a' ∧ stored id s' = Some a' ∧
    ledger_ids s' = (ledger_ids (began c q s) ++ evidence q)%list.
Proof. intros Hok Hc Hq H. exact (accepted_took append_row c q s s' id v (peers_calm append_row c Hc) Hok Hq H). Qed.

(** C18: The durable repository refines the lifecycle machine.  Calls of any
    number of connections, interleaved in any way the database allows, keep the
    keys of the database and turn every stored action into one that accepted
    lifecycle steps reach from it; consumed confirmations stay consumed. *)
Theorem interleavings_refine_lifecycle append_row `{!EvidenceSink append_row} s s' :
  connections append_row s s' → db_ok s →
  db_ok s' ∧ (∀ id a, stored id s = Some a → ∃ a', stored id s' = Some a' ∧ advances a a') ∧
  (∀ id, consumed id s → consumed id s').
Proof.
  intros H Hok. destruct (connections_safe _ _ _ H Hok) as [Hok' L]. split; [done|]. split; [|apply L].
  intros id a. by apply later_stored.
Qed.



(** A registration is durable and faithful.  When the call that introduces
    an action is accepted, its decision and its lifecycle value are read back
    from the database exactly as they were given, by their identifiers and by
    the idempotency key. *)
Lemma registration_reads_back append_row `{!EvidenceSink append_row} c d a i r ds s s' :
  registrable d a i r → SqlStore.register_action append_row c d a ds s = (s', Ok ()) →
  row_of (lc_action_id a) (cc_others c 0 s) = None →
  SqlStore.get_action (lc_action_id a) s' = (s', Ok (Some a)) ∧
  SqlStore.get_decision (ad_decision_id d) s' = (s', Ok (Some d)) ∧
  SqlStore.find_action_by_idempotency (sc_target_id (lc_scope a)) (value (lc_operation a)) (lc_idempotency_key a) s'
    = (s', Ok (Some a)).
Proof.
  intros Hr H Hnone. destruct (register_inserts _ _ _ _ _ _ _ _ _ Hr H Hnone) as (Hv & HA & HD & Fd & Fa & Fi).
  pose proof (lifecycle_round_trip _ _ _ _ Hr Hv) as La. pose proof (decision_round_trip _ _ _ _ Hr Hv) as Ld.
  apply negb_true_iff in Fd, Fa. unfold SqlStore.get_action, SqlStore.get_decision, SqlStore.find_action_by_idempotency,
    sql_select_one, bindM, optional_action. cbn [rows actions_table decisions_table] in *. rewrite HA, HD.
  destruct Hr as [_ _ _ [_ Hop] _ _ _ [Hsc _] _ _]. split_and!.
  - rewrite (find_new _ _ _ Fa) by by apply action_is_true. unfold bindM, liftM. by rewrite La.
  - rewrite (find_new _ _ _ Fd) by by apply bool_decide_eq_true. unfold bindM, liftM. by rewrite Ld.
  - rewrite find_new; [unfold bindM, liftM; by rewrite La| |].
    + rewrite <- Fi. apply existsb_ext. intros x. unfold same_idempotency. cbn. rewrite Hsc, Hop. cbn.
      by rewrite !(str_eqb_sym (ar_target_id x)), !(str_eqb_sym (ar_operation x)), !(str_eqb_sym (ar_idempotency_key x)).
    + cbn. rewrite Hsc, Hop. cbn. unfold str_eqb. by rewrite !bool_decide_true.
Qed.
