(* ===== verification/SqlLedger.v ===== *)
(** * SqlLedger: the audit ledger in the database (control_plane/audit/repository.py)

    [SQLiteAuditLedger]: one row per event, appended in the caller's
    transaction or in one of its own.  The rows of a ledger written by appends
    hold the events of the in-memory ledger given the same drafts, and
    [verify_chain] of the rows answers what it answers of the events. *)

From S2P Require Import Prelude PyStr PyTime PyDict PyIso Sha256 Json Models.
From S2P Require Import AuditLedger SqlTables SqlRows SqlRefine.
From Stdlib Require Import Ascii String ZArith Lia.
From stdpp Require Import base strings list.

Local Open Scope string_scope.
Local Open Scope Z_scope.
Local Open Scope aipm_scope.

Definition MAX_APPEND_ATTEMPTS : nat := 4.

#[export] Instance AuditActorRole_members : Enumerated AuditActorRole :=
  [REQUESTER; CONFIRMER; VERIFIER; EXECUTOR; KILL_SWITCH_OPERATOR; REGISTRATION_OPERATOR; AUDITOR; SYSTEM].
#[export] Instance AuditActorRole_law : EnumLaw AuditActorRole.
Proof. by intros []. Qed.
#[export] Instance AuditEventType_members : Enumerated AuditEventType.t :=
  [AuditEventType.AUTHENTICATION_SUCCESS; AuditEventType.AUTHENTICATION_FAILURE; AuditEventType.SESSION_CREATED;
   AuditEventType.SESSION_REVOKED; AuditEventType.CREDENTIAL_EPOCH_ROTATED; AuditEventType.AUTHORIZATION_REQUESTED;
   AuditEventType.AUTHORIZATION_ALLOWED; AuditEventType.AUTHORIZATION_DENIED; AuditEventType.ACTION_CREATED;
   AuditEventType.ACTION_IDEMPOTENCY_REPLAY; AuditEventType.ACTION_IDEMPOTENCY_CONFLICT;
   AuditEventType.OWNER_CONFIRMATION_REQUESTED; AuditEventType.OWNER_CONFIRMED;
   AuditEventType.OWNER_CONFIRMATION_REJECTED; AuditEventType.OWNER_CONFIRMATION_CONSUMED;
   AuditEventType.LIFECYCLE_TRANSITION; AuditEventType.KILL_SWITCH_ENGAGED; AuditEventType.KILL_SWITCH_DISENGAGED;
   AuditEventType.KILL_SWITCH_PERMANENT; AuditEventType.LEASE_ACQUIRED; AuditEventType.LEASE_RELEASED;
   AuditEventType.LEASE_EXPIRED; AuditEventType.RECOVERY_STARTED; AuditEventType.RECOVERY_COMPLETED;
   AuditEventType.EXECUTION_STARTED; AuditEventType.EXECUTION_SUCCEEDED; AuditEventType.EXECUTION_FAILED;
   AuditEventType.VERIFICATION_STARTED; AuditEventType.VERIFICATION_SUCCEEDED; AuditEventType.VERIFICATION_FAILED;
   AuditEventType.ROLLBACK_REQUESTED; AuditEventType.ROLLBACK_SUCCEEDED; AuditEventType.ROLLBACK_FAILED;
   AuditEventType.REGISTRATION_CREATED; AuditEventType.REGISTRATION_DISABLED; AuditEventType.REGISTRATION_REVOKED;
   AuditEventType.SYSTEM_ERROR].
#[export] Instance AuditEventType_law : EnumLaw AuditEventType.t.
Proof. by intros []. Qed.

(** ** Rows *)

Definition ledger_row_of (sequence : Z) (d : AuditEventDraft) (previous_hash event_hash : string) : ledger_row :=
  {| gr_sequence := sequence; gr_event_id := ae_event_id d; gr_event_type := value (ae_event_type d);
     gr_occurred_at := isoformat (ae_occurred_at d); gr_actor_subject := ae_actor_subject d;
     gr_actor_role := value (ae_actor_role d); gr_action_id := ae_action_id d; gr_plan_id := ae_plan_id d;
     gr_plan_revision := ae_plan_revision d; gr_plan_digest := ae_plan_digest d; gr_target_id := ae_target_id d;
     gr_environment := ae_environment d; gr_operation := ae_operation d; gr_decision_id := ae_decision_id d;
     gr_confirmation_id := ae_confirmation_id d; gr_lease_id := ae_lease_id d;
     gr_parent_event_id := ae_parent_event_id d; gr_policy_version := ae_policy_version d;
     gr_lifecycle_from := ae_lifecycle_from d; gr_lifecycle_to := ae_lifecycle_to d;
     gr_result_code := ae_result_code d; gr_reason := ae_reason d; gr_previous_hash := previous_hash;
     gr_event_hash := event_hash; gr_chain_version := AUDIT_CHAIN_VERSION |}.

(** [_parse_timestamp] of this module *)
Definition audit_timestamp (value : string) : result datetime :=
  match parse_timestamp value with Ok t => Ok t | Raise _ => Raise AuditEventError end.

(** [_event_from_row] *)
Definition event_from_row (r : ledger_row) : result AuditEvent :=
  let* draft := or_corrupt (match
    (let* event_type := enum_of (gr_event_type r) in
     let* occurred_at := audit_timestamp (gr_occurred_at r) in
     let* role := enum_of (gr_actor_role r) in
     check_AuditEventDraft
       {| ae_event_type := event_type; ae_actor_subject := gr_actor_subject r; ae_occurred_at := occurred_at;
          ae_event_id := gr_event_id r; ae_actor_role := role; ae_action_id := gr_action_id r;
          ae_plan_id := gr_plan_id r; ae_plan_revision := gr_plan_revision r; ae_plan_digest := gr_plan_digest r;
          ae_target_id := gr_target_id r; ae_environment := gr_environment r; ae_operation := gr_operation r;
          ae_decision_id := gr_decision_id r; ae_confirmation_id := gr_confirmation_id r;
          ae_lease_id := gr_lease_id r; ae_parent_event_id := gr_parent_event_id r;
          ae_policy_version := gr_policy_version r; ae_lifecycle_from := gr_lifecycle_from r;
          ae_lifecycle_to := gr_lifecycle_to r; ae_result_code := gr_result_code r; ae_reason := gr_reason r |})
    with Raise (ControlPlaneError _) => Raise corrupt | x => x end) in
  require str_eqb (gr_chain_version r) AUDIT_CHAIN_VERSION else_raise corrupt;;
  check_AuditEvent {| ev_sequence := gr_sequence r; ev_previous_hash := gr_previous_hash r;
                      ev_event_hash := gr_event_hash r; ev_draft := draft |}.

(** ** Operations *)

Definition sequence_desc (a b : ledger_row) : bool := gr_sequence b <=? gr_sequence a.
Definition sequence_asc (a b : ledger_row) : bool := gr_sequence a <=? gr_sequence b.

(** [_last_hash] *)
Definition row_last_hash (l : list ledger_row) : string :=
  match order_by sequence_desc l with r :: _ => gr_event_hash r | [] => GENESIS_PREVIOUS_HASH end.
(** [SELECT COALESCE(MAX(sequence), 0)] *)
Definition top_sequence (l : list ledger_row) : Z :=
  match l with [] => 0 | r :: l' => foldr (λ x m, Z.max (gr_sequence x) m) (gr_sequence r) l' end.

(** [_append_in_transaction] *)
Definition append_in_transaction (d : AuditEventDraft) : M database AuditEvent :=
  do db <- getM;;
  assert_ fresh_key (ledger_row_of 0 d "" "") db else_raise corrupt;;
  let sequence := top_sequence (db_ledger db) + 1 in
  let previous_hash := row_last_hash (db_ledger db) in
  do event_hash <- liftM (compute_event_hash previous_hash (chain_fields d previous_hash sequence));;
  do_ sql_insert (ledger_row_of sequence d previous_hash event_hash);;
  liftM (check_AuditEvent {| ev_sequence := sequence; ev_previous_hash := previous_hash;
                             ev_event_hash := event_hash; ev_draft := d |}).

(** [append]: up to four attempts against a database that fails. *)
Fixpoint append_attempts (n : nat) (c : nat → circumstances) (d : AuditEventDraft) : M database AuditEvent :=
  match n with
  | O => raiseM corrupt
  | S n' =>
      catchM (transaction (c n') (append_in_transaction d))
        (λ e, if is_sqlite_error e then Some (append_attempts n' c d) else None)
  end.
Definition append (c : nat → circumstances) (d : AuditEventDraft) : M database AuditEvent :=
  append_attempts MAX_APPEND_ATTEMPTS c d.

(** [events(limit)]: the last [limit] rows, newest last. *)
Definition events (limit : Z) : M database (list AuditEvent) :=
  assert_ negb ((limit <? 1) || (4096 <? limit)) else_raise ValueError;;
  do db <- getM;;
  liftM (rmap event_from_row (rev (take (Z.to_nat limit) (order_by sequence_desc (db_ledger db))))).

Definition ledger_count : M database Z := sql_count (R := ledger_row).

(** [verify_chain]: the loop over the rows, fetched 256 at a time. *)
Fixpoint verify_rows (expected_sequence : Z) (previous_hash : string) (l : list ledger_row)
  : result ChainVerificationResult :=
  match l with
  | [] => Ok {| cv_ok := true; cv_events_checked := expected_sequence - 1; cv_error_sequence := None |}
  | r :: l' =>
      match event_from_row r with
      | Raise _ => Ok {| cv_ok := false; cv_events_checked := expected_sequence - 1;
                         cv_error_sequence := Some expected_sequence |}
      | Ok e =>
          if negb (ev_sequence e =? expected_sequence) then
            Ok {| cv_ok := false; cv_events_checked := expected_sequence - 1;
                  cv_error_sequence := Some expected_sequence |}
          else if negb (str_eqb (ev_previous_hash e) previous_hash) then
            Ok {| cv_ok := false; cv_events_checked := expected_sequence - 1;
                  cv_error_sequence := Some (ev_sequence e) |}
          else
            let* expected_hash := compute_event_hash (ev_previous_hash e) (chain_payload e) in
            if negb (str_eqb (ev_event_hash e) expected_hash) then
              Ok {| cv_ok := false; cv_events_checked := expected_sequence - 1;
                    cv_error_sequence := Some (ev_sequence e) |}
            else verify_rows (expected_sequence + 1) (ev_event_hash e) l'
      end
  end.
Definition verify_chain : M database ChainVerificationResult :=
  λ db, (db, verify_rows 1 GENESIS_PREVIOUS_HASH (order_by sequence_asc (db_ledger db))).

(** The sink the stores are given. *)
Definition append_row (d : AuditEventDraft) : M database unit := do _e <- append_in_transaction d;; retM ().

#[export] Instance sqlite_sink : EvidenceSink append_row.
Proof.
  split.
  - intros d s s' r. unfold append_row, append_in_transaction, sql_insert, bindM, getM, liftM, putM.
    destruct (raise_unless _ _); [|by intros [= <- _]; destruct s]. destruct (compute_event_hash _ _); [|by intros [= <- _]; destruct s].
    destruct (raise_unless _ _); [|by intros [= <- _]; destruct s]. destruct (check_AuditEvent _); by intros [= <- _].
  - intros d s s' u H. unfold append_row, append_in_transaction in H. inv_ok.
    match goal with H : sql_insert ?r _ = _ |- _ => exists r; unfold sql_insert in H end. by inv_ok.
Qed.

(** ** Refinement of the in-memory ledger *)

Definition event_row (e : AuditEvent) : ledger_row :=
  ledger_row_of (ev_sequence e) (ev_draft e) (ev_previous_hash e) (ev_event_hash e).
(** A draft the constructor built, at a time the calendar has. *)
Definition draft_ok (d : AuditEventDraft) : Prop :=
  valid_datetime (ae_occurred_at d) ∧ check_AuditEventDraft d = Ok d.
Definition event_ok (e : AuditEvent) : Prop := draft_ok (ev_draft e) ∧ check_AuditEvent e = Ok e.

Lemma event_from_row_row e : event_ok e → event_from_row (event_row e) = Ok e.
Proof.
  intros [[Ht Hd] He]. unfold event_from_row, event_row, audit_timestamp. cbn -[value check_AuditEventDraft check_AuditEvent].
  rewrite enum_value. cbn [rbind]. rewrite parse_isoformat by done. cbn [rbind]. rewrite enum_value. cbn [rbind].
  replace (check_AuditEventDraft _) with (Ok (ev_draft e)) by (rewrite <- Hd; f_equal; by destruct e as [? ? ? []]).
  cbn [or_corrupt rbind raise_unless str_eqb]. rewrite <- He. f_equal. by destruct e.
Qed.

(** Rows numbered from [k]. *)
Definition numbered (k : nat) (l : list ledger_row) : Prop :=
  List.map gr_sequence l = List.map Z.of_nat (List.seq k (length l)).
Lemma numbered_cons k r l : numbered k (r :: l) ↔ gr_sequence r = Z.of_nat k ∧ numbered (S k) l.
Proof. unfold numbered. cbn. split; [intros [= H1 H2]; auto|intros [-> ->]; done]. Qed.
Lemma numbered_above k l x : numbered k l → x ∈ l → Z.of_nat k ≤ gr_sequence x.
Proof.
  revert k. induction l as [|r l IH]; intros k Hn Hx; [by apply not_elem_of_nil in Hx|].
  apply numbered_cons in Hn as [Hr Hn]. apply elem_of_cons in Hx as [->|Hx]; [lia|].
  specialize (IH _ Hn Hx). lia.
Qed.
Lemma insert_desc r l : (∀ x, x ∈ l → gr_sequence r < gr_sequence x) → insert_by sequence_desc r l = (l ++ [r])%list.
Proof.
  induction l as [|x l IH]; intros Hl; [done|]. cbn. unfold sequence_desc at 1.
  rewrite (proj2 (Z.leb_gt _ _)) by (apply Hl; by left). f_equal. apply IH. intros y Hy. apply Hl. by right.
Qed.
Lemma order_desc l : ∀ k, numbered k l → order_by sequence_desc l = rev l.
Proof.
  induction l as [|r l IH]; intros k Hn; [done|]. apply numbered_cons in Hn as [Hr Hn]. cbn.
  rewrite (IH _ Hn). apply insert_desc. intros x Hx%list_elem_of_In%List.in_rev%list_elem_of_In.
  pose proof (numbered_above _ _ _ Hn Hx). lia.
Qed.
Lemma order_asc l : ∀ k, numbered k l → order_by sequence_asc l = l.
Proof.
  induction l as [|r l IH]; intros k Hn; [done|]. apply numbered_cons in Hn as [Hr Hn]. cbn.
  rewrite (IH _ Hn). destruct l as [|x l]; [done|]. cbn. apply numbered_cons in Hn as [Hx _]. unfold sequence_asc.
  by rewrite (proj2 (Z.leb_le _ _)) by lia.
Qed.
Lemma max_numbered l m : ∀ k, numbered k l → l ≠ [] →
  foldr (λ x m, Z.max (gr_sequence x) m) m l = Z.max m (Z.of_nat (k + length l) - 1).
Proof.
  induction l as [|r l IH]; intros k Hn Hl; [done|]. apply numbered_cons in Hn as [Hr Hn]. cbn [foldr length].
  destruct l as [|x l]; [cbn; lia|]. rewrite (IH _ Hn) by done. cbn [length]. lia.
Qed.
Lemma top_numbered l : numbered 1 l → top_sequence l = Z.of_nat (length l).
Proof.
  destruct l as [|r l]; intros Hn; [done|]. apply numbered_cons in Hn as [Hr Hn]. unfold top_sequence. cbn [length].
  destruct l as [|x l]; [done|]. rewrite (max_numbered _ _ _ Hn) by done. cbn [length]. lia.
Qed.

Lemma chained_numbered es : chained es → numbered 1 (List.map event_row es).
Proof.
  unfold numbered. rewrite List.length_map, List.map_map. cbn. induction 1 as [|es e _ IH Hs _ _]; [done|].
  rewrite List.map_app, length_app, List.seq_app, List.map_app, IH. cbn. f_equal. f_equal. lia.
Qed.
Lemma row_last_hash_events es : chained es → row_last_hash (List.map event_row es) = last_hash es.
Proof.
  intros Hc. unfold row_last_hash, last_hash. rewrite (order_desc _ 1) by by apply chained_numbered.
  destruct es as [|e es _] using rev_ind; [done|]. rewrite List.map_app, rev_app_distr. cbn. by rewrite last_snoc.
Qed.

(** The rows hold the events. *)
Record holds (l : ledger) (db : database) : Prop := {
  ho_rows : db_ledger db = List.map event_row (lg_events l);
  ho_events : Forall event_ok (lg_events l);
  ho_sound : ledger_sound l;
}.

Lemma fresh_event d db l : db_ledger db = List.map event_row (lg_events l) →
  fresh_key (ledger_row_of 0 d "" "") db = negb (List.existsb (λ e, str_eqb (ae_event_id (ev_draft e)) (ae_event_id d)) (lg_events l)).
Proof.
  intros H. unfold fresh_key. cbn [rows ledger_table]. rewrite H. f_equal. clear H.
  induction (lg_events l) as [|e es IH]; [done|]. cbn in *. by rewrite IH.
Qed.
Lemma fresh_sequence es n x y z : chained es → n = Z.of_nat (length es) + 1 →
  List.existsb (λ r, gr_sequence r =? gr_sequence (ledger_row_of n x y z)) (List.map event_row es) = false.
Proof.
  intros Hc ->. apply not_true_iff_false. intros (r & Hr & He)%List.existsb_exists. apply Z.eqb_eq in He. cbn in He.
  pose proof (chained_numbered _ Hc) as Hn. unfold numbered in Hn. rewrite List.length_map in Hn.
  apply (List.in_map gr_sequence) in Hr. rewrite Hn, He in Hr. apply List.in_map_iff in Hr as (k & Hk & Hin%List.in_seq). lia.
Qed.

(** One append, in the caller's transaction. *)
Lemma append_holds d l db l' r : holds l db → draft_ok d → Z.of_nat (length (lg_events l)) < lg_max_events l →
  AuditLedger.append_in_transaction d l = (l', r) → ∃ db', append_in_transaction d db = (db', r) ∧ holds l' db'.
Proof.
  intros [HR HE HS] Hd Hm H. pose proof (ledger_append_sound d l HS) as HS'. unfold ledger_append in HS'.
  rewrite H in HS'. cbn in HS'.
  unfold AuditLedger.append_in_transaction in H. unfold append_in_transaction, sql_insert.
  unfold bindM, getM, liftM, putM, modifyM, retM in *. rewrite (fresh_event _ _ _ HR).
  destruct (List.existsb _ _) eqn:Ex; cbn [negb raise_unless] in *.
  { injection H as <- <-. eexists. split; [done|]. by split. }
  rewrite (proj2 (Z.leb_gt _ _)) in H by done. cbn [negb raise_unless] in H.
  rewrite HR, (top_numbered _ (chained_numbered _ (ls_chained _ HS))), (row_last_hash_events _ (ls_chained _ HS)), List.length_map.
  set (n := Z.of_nat (length (lg_events l)) + 1) in *. set (h := last_hash (lg_events l)) in *.
  destruct (compute_event_hash h _) as [eh|x] eqn:Eh; [|injection H as <- <-; eexists; split; [done|by split]].
  assert (fresh_key (ledger_row_of n d h eh) db = true) as ->.
  { change (fresh_key (ledger_row_of n d h eh) db) with (fresh_key (ledger_row_of 0 d "" "") db).
    by rewrite (fresh_event _ _ _ HR), Ex. }
  unfold admits, ledger_table. rewrite HR, (fresh_sequence _ _ _ _ _ (ls_chained _ HS) eq_refl). cbn [negb andb raise_unless].
  destruct (check_AuditEvent _) as [e|x] eqn:Ee.
  - injection H as <- <-. eexists. split; [done|]. assert (e = {| ev_sequence := n; ev_previous_hash := h; ev_event_hash := eh; ev_draft := d |}) as ->.
    { unfold check_AuditEvent in Ee. by inv_ok. }
    split; cbn; [by rewrite HR, List.map_app|apply Forall_app; split; [done|]; apply Forall_singleton; by split|done].
  - exfalso. revert Ee. unfold check_AuditEvent. cbn [ev_sequence ev_previous_hash ev_event_hash].
    rewrite (proj2 (Z.leb_le 1 n)) by lia. rewrite (proj2 (Z.eqb_eq (slen h) 64)) by by apply chained_last_len, HS.
    match goal with H : compute_event_hash _ _ = Ok _ |- _ => apply compute_event_hash_Ok in H as [_ ->] end.
    by rewrite sha256_hex_len.
Qed.

Definition sql_append_all (ds : list AuditEventDraft) (db : database) : database :=
  fold_left (λ db d, fst (append_row d db)) ds db.

Lemma append_all_holds ds : ∀ l db, holds l db → Forall draft_ok ds →
  Z.of_nat (length (lg_events l) + length ds) ≤ lg_max_events l → holds (append_all ds l) (sql_append_all ds db).
Proof.
  induction ds as [|d ds IH]; intros l db H Hds Hm; [done|]. apply Forall_cons in Hds as [Hd Hds].
  cbn [append_all sql_append_all fold_left length] in *. unfold ledger_append.
  destruct (AuditLedger.append_in_transaction d l) as [l' r] eqn:E.
  destruct (append_holds _ _ _ _ _ H Hd ltac:(lia) E) as (db' & E' & H').
  assert (fst (append_row d db) = db') as -> by (unfold append_row, bindM; rewrite E'; by destruct r).
  cbn [fst]. apply IH; [done..|]. pose proof (ledger_append_run d l l' r E) as [[-> _]|(e & _ & _ & -> & -> & _)]; [lia|].
  rewrite length_app. cbn. lia.
Qed.

Lemma verify_rows_events es : Forall event_ok es → ∀ n h, verify_rows n h (List.map event_row es) = verify_from n h es.
Proof.
  induction 1 as [|e es He _ IH]; intros n h; [done|]. cbn [List.map verify_rows verify_from].
  rewrite event_from_row_row by done. destruct (negb _); [done|]. destruct (negb _); [done|].
  destruct (compute_event_hash _ _); [|done]. cbn [rbind]. destruct (negb _); [done|]. apply IH.
Qed.
Lemma read_rows es : Forall event_ok es → rmap event_from_row (List.map event_row es) = Ok es.
Proof. induction 1 as [|e es He _ IH]; [done|]. cbn [List.map rmap]. by rewrite event_from_row_row, IH. Qed.

Lemma events_hold limit l db : holds l db → snd (events limit db) = ledger_events limit l.
Proof.
  intros [HR HE HS]. unfold events, ledger_events, bindM, liftM, getM.
  destruct (raise_unless _ _); cbn [rbind snd]; [|done]. rewrite HR, (order_desc _ 1) by apply chained_numbered, HS.
  rewrite List.firstn_rev, rev_involutive, List.length_map, List.skipn_map. by apply read_rows, Forall_drop.
Qed.

(** C21: The durable ledger is the in-memory ledger without the bound.  Whatever
    drafts are appended to an empty ledger table, accepted or refused, its rows
    are the rows of the events the in-memory ledger of that history holds; the
    audit of the rows answers what the audit of the events answers, and a
    bounded read returns those events, newest last. *)
Theorem durable_ledger_refines m ds db l0 :
  new_InMemoryAuditLedger m = Ok l0 → Z.of_nat (length ds) ≤ m → db_ledger db = [] → Forall draft_ok ds →
  let l := append_all ds l0 in
  let db' := sql_append_all ds db in
  db_ledger db' = List.map event_row (lg_events l) ∧
  snd (verify_chain db') = AuditLedger.verify_chain l ∧
  ∀ limit, snd (events limit db') = ledger_events limit l.
Proof.
  intros H0 Hm Hdb Hds l db'. unfold new_InMemoryAuditLedger in H0. inv_ok.
  assert (holds l db') as Hold.
  { apply append_all_holds; [|done|done]. split; cbn; [done|done|]. split; [constructor|by apply NoDup_nil_2|cbn; lia]. }
  split; [apply Hold|]. split; [|intros; by apply events_hold].
  destruct Hold as [HR HE HS]. unfold verify_chain, AuditLedger.verify_chain. cbn [snd].
  rewrite HR, (order_asc _ 1) by apply chained_numbered, HS. by apply verify_rows_events.
Qed.
