(* ===== verification/ActionSpec.v ===== *)
(** * ActionSpec: what the repository's operations do, branch by branch

    Functional specifications of the operations of [ActionRepo]: plan
    mutation, outcome marking, leases, enumeration; and the repository as a
    store for the confirmation service. *)

From S2P Require Import Prelude PyStr PyTime Sha256 Json PyDict Models Lifecycle ProjectPlan.
From S2P Require Import Identity Policy Confirmation AuditLedger AuditBuilders Verification.
From S2P Require Import ActionRepo.
From Stdlib Require Import Ascii String ZArith Lia.
From stdpp Require Import base strings gmap sorting list.

Local Open Scope string_scope.
Local Open Scope Z_scope.
Local Open Scope aipm_scope.

(** ** The repository keeps the confirmation protocol *)

Definition repo_conf_ok (s : repo) : Prop := conf_dict_ok (rp_confirmations s).

#[export] Instance repo_conf_laws : ConfStoreLaws repo repo_conf_ok.
Proof.
  destruct conf_dict_laws as [L1 L2 L3 L4 L5 L6].
  split; unfold repo_conf_ok; cbn in *; intros; rewrite ?L6; eauto.
Qed.

(** ** Computing an operation *)

Lemma the_action_run id s :
  the_action id s = match get_action id s with Some a => (s, Ok a) | None => (s, Raise storage_corrupt) end.
Proof. unfold the_action, bindM, getM. by destruct (get_action id s). Qed.
Lemma check_version_run a v (s : repo) :
  check_version a v s = (s, if lc_version a =? v then Ok () else Raise state_conflict).
Proof. unfold check_version, liftM, raise_unless. by destruct (_ =? _). Qed.
Lemma check_state_run a st (s : repo) :
  check_state a st s = (s, if decide (lc_state a = st) then Ok () else Raise state_conflict).
Proof. unfold check_state, liftM, raise_unless. by destruct (decide (lc_state a = st)); [rewrite bool_decide_true|rewrite bool_decide_false]. Qed.

Lemma advance_action_run id st actor now s a :
  get_action id s = Some a →
  advance_action id (lc_version a) st actor now [] s =
    match advance a st (Some now) (Some actor) with
    | Ok a' => (set_action id a' s, Ok a')
    | Raise e => (s, Raise e)
    end.
Proof.
  intros H. unfold advance_action, bindM, liftM. rewrite the_action_run, H, check_version_run, Z.eqb_refl.
  by destruct (advance a st (Some now) (Some actor)).
Qed.

Lemma set_plans_same s plans : rp_plans s = Some plans → set_plans (Some plans) s = s.
Proof. destruct s; cbn. by intros ->. Qed.

Lemma update_plans_run t rev fs now s plans :
  rp_plans s = Some plans →
  update_plans t rev fs now s =
    match plans !! t with
    | Some p =>
        match pp_update p rev fs now with
        | Ok p' => (set_plans (Some (<[t := p']> plans)) s, Ok ())
        | Raise _ => (s, Raise (ControlPlaneError STALE_EVIDENCE))
        end
    | None => (s, Raise (ControlPlaneError STALE_EVIDENCE))
    end.
Proof.
  intros H. unfold update_plans, bindM, getM. rewrite H, plans_update_run.
  destruct (plans !! t) as [p|]; [destruct (pp_update p rev fs now)|]; cbn;
    by rewrite ?(set_plans_same s plans H).
Qed.

(** ** Plan mutation *)

Lemma wf_approver a :
  lifecycle_wf a → lc_state a ∈ approver_required_states → lc_approver_subject a ≠ None.
Proof.
  unfold lifecycle_wf, check_ActionLifecycle. intros H Hin. inv_ok. intros Hn.
  match goal with H : (bool_decide _ && bool_decide _) = false |- _ => revert H end.
  by rewrite !bool_decide_true.
Qed.

(** C27: [execute_plan_mutation], every branch.  A call that does not find the
    action RUNNING at the expected version changes nothing.  Otherwise the
    plan update decides: refused, nothing changes (STALE_EVIDENCE); accepted
    before the action's expiry, the plan holds the new revision, the action
    moves to EXECUTED_PENDING_VERIFICATION and the outcome is recorded;
    accepted at or after the expiry, the plan is mutated although the call
    raises and the action stays RUNNING without an outcome. *)
Theorem execute_plan_mutation_spec id v rev fs now s a plans :
  get_action id s = Some a → lifecycle_wf a → rp_plans s = Some plans →
  let t := sc_target_id (lc_scope a) in
  let run := execute_plan_mutation id v rev fs now [] s in
  ((lc_state a ≠ RUNNING ∨ lc_version a ≠ v) → run = (s, Raise state_conflict)) ∧
  (lc_state a = RUNNING → lc_version a = v →
    match option_map (λ p, pp_update p rev fs now) (plans !! t) with
    | Some (Ok p') =>
        let mutated := set_plans (Some (<[t := p']> plans)) s in
        (now < lc_expires_at a → ∃ a',
           run = (set_outcome id "mutation_succeeded" (set_action id a' mutated), Ok a') ∧
           lc_state a' = EXECUTED_PENDING_VERIFICATION ∧ lc_version a' = v + 1 ∧
           same_binding a a') ∧
        (lc_expires_at a <= now → run = (mutated, Raise LifecycleError))
    | _ => run = (s, Raise (ControlPlaneError STALE_EVIDENCE))
    end).
Proof.
  intros Ha Hwf Hp t run.
  assert (run = if bool_decide (lc_state a = RUNNING) && (lc_version a =? v) then
                  bindM (update_plans t rev fs now) (λ _,
                  bindM (advance_action id v EXECUTED_PENDING_VERIFICATION
                           (lc_requester_subject a) now []) (λ a',
                  bindM (modifyM (set_outcome id "mutation_succeeded")) (λ _, retM a'))) s
                else (s, Raise state_conflict)) as Hrun.
  { unfold run, execute_plan_mutation. unfold bindM at 1. rewrite the_action_run, Ha.
    unfold bindM at 1. unfold check_state at 1, liftM at 1.
    destruct (bool_decide (lc_state a = RUNNING)); cbn [raise_unless andb]; [|done].
    unfold bindM at 1. rewrite check_version_run. by destruct (lc_version a =? v). }
  split.
  - intros Hor. rewrite Hrun. case_bool_decide; [|done]. cbn [andb].
    destruct (Z.eqb_spec (lc_version a) v); [naive_solver|done].
  - intros Hst Hv. clearbody run. subst v. rewrite bool_decide_true, Z.eqb_refl in Hrun by done.
    cbn [andb] in Hrun. unfold bindM at 1 in Hrun.
    rewrite (update_plans_run _ _ _ _ _ plans) in Hrun by done.
    destruct (plans !! t) as [p|]; [|done]. cbn [option_map].
    destruct (pp_update p rev fs now) as [p'|]; [|done]. set (mutated := set_plans _ s) in *.
    unfold bindM at 1 in Hrun. rewrite (advance_action_run _ _ _ _ _ a) in Hrun by done.
    rewrite Hrun. split.
    + intros Hnow.
      destruct (advance_accepts a EXECUTED_PENDING_VERIFICATION (Some now)
                  (Some (lc_requester_subject a))) as [a' Hadv];
        [done|by rewrite Hst; apply (bool_decide_unpack _); vm_compute|by intros ? [= <-]; left
        |done|intros _ _; apply wf_approver; [done|]|].
      { rewrite Hst. by apply (bool_decide_unpack _); vm_compute. }
      rewrite Hadv. exists a'. apply advance_state in Hadv as (? & ? & ?). split_and!; done.
    + intros Hnow. by rewrite advance_expired.
Qed.

(** ** Outcome marking *)

(** The guard on unknown outcomes.  [mark_outcome] refuses to reset an
    unknown outcome to "not started" in one call, but the same two-step
    sequence through "mutation started" is accepted and leaves the action
    recorded as not started, which [retry_permitted] treats as retryable. *)
Lemma unknown_outcome_reset s id a :
  get_action id s = Some a → rp_audit s = None →
  outcome_for_action id s = Some (value ExecutionOutcome.UNKNOWN_OUTCOME) →
  let v := lc_version a in
  mark_outcome id v (value ExecutionOutcome.MUTATION_NOT_STARTED) [] s = (s, Raise state_conflict) ∧
  ∃ s1 s2, mark_outcome id v (value ExecutionOutcome.MUTATION_STARTED) [] s = (s1, Ok a) ∧
    mark_outcome id v (value ExecutionOutcome.MUTATION_NOT_STARTED) [] s1 = (s2, Ok a) ∧
    outcome_for_action id s2 = Some (value ExecutionOutcome.MUTATION_NOT_STARTED) ∧
    retry_permitted (Some ExecutionOutcome.MUTATION_NOT_STARTED) = true.
Proof.
  intros Ha Hn Ho v.
  assert (∀ o s0, get_action id s0 = Some a →
    mark_outcome id v (value o) [] s0 =
      if bool_decide (outcome_for_action id s0 = Some (value ExecutionOutcome.UNKNOWN_OUTCOME)) &&
         bool_decide (o = ExecutionOutcome.MUTATION_NOT_STARTED)
      then (s0, Raise state_conflict) else (set_outcome id (value o) s0, Ok a)) as Hrun.
  { intros o s0 Ha0. unfold mark_outcome, bindM at 1, liftM.
    assert (outcome_of_value (value o) = Ok o) as -> by by destruct o.
    unfold bindM at 1. rewrite the_action_run, Ha0. unfold bindM at 1.
    rewrite check_version_run, Z.eqb_refl. unfold bindM, getM. by destruct (_ && _). }
  split.
  - by rewrite Hrun, Ho by done.
  - eexists _, _. rewrite Hrun by done.
    rewrite (bool_decide_false (ExecutionOutcome.MUTATION_STARTED = _)), andb_false_r by done.
    split; [done|]. rewrite Hrun by done.
    assert (outcome_for_action id (set_outcome id (value ExecutionOutcome.MUTATION_STARTED) s) =
            Some (value ExecutionOutcome.MUTATION_STARTED)) as -> by apply dget_set_eq.
    split; [done|]. split; [|done]. apply dget_set_eq.
Qed.

(** ** Leases *)

Lemma append_evidence_leases ds s s' r :
  append_evidence ds s = (s', r) → rp_leases s' = rp_leases s.
Proof. by intros [(_ & _ & _ & ? & _) _]%append_evidence_core. Qed.

Lemma acquire_lease_Ok id v now ds lrid rid s s' l a' :
  repo_ok s → acquire_lease id v now ds lrid rid s = (s', Ok (l, a')) →
  dget id (rp_leases s') = Some l ∧ ls_lease_id l = lrid ∧ ls_state l = "granted" ∧
  ls_fencing_token l = 1 ∧ ls_granted_at l = now ∧ ls_expires_at l = now + DEFAULT_LEASE_TTL ∧
  ls_action_version l = Some (v + 1) ∧ lc_state a' = LEASED ∧ now < lc_expires_at a' ∧
  get_action id s' = Some a' ∧ check_ExecutionLease l = Ok l.
Proof.
  intros Hs H. unfold acquire_lease in H. repo_inv.
  repeat match goal with
    | H : append_evidence _ _ = _ |- _ =>
        pose proof (append_evidence_leases _ _ _ _ H);
        pose proof (append_evidence_get _ _ _ _ id H); clear H
    end.
  match goal with H : check_ExecutionLease _ = Ok _ |- _ => rename H into Hck end.
  pose proof Hck as ->%check_lease_Ok.
  match goal with H : advance_action _ _ _ _ _ _ _ = _ |- _ =>
    apply advance_action_Ok in H as (b & Hb & _ & Hadv & Hb' & _ & _) end.
  simplify_eq.
  match goal with H : lc_state _ = SNAPSHOT_CAPTURED, Ha : get_action _ _ = Some _ |- _ =>
    destruct (unleased _ _ _ Hs Ha H) as [_ Hm] end.
  pose proof (advance_state _ _ _ _ _ Hadv) as (Hst & Hv & Hsame).
  match type of Hsame with same_binding ?b _ =>
    assert (lc_expires_at a' = lc_expires_at b) as He by (injection Hsame; congruence) end.
  unfold lc_is_expired in *.
  match goal with H : (lc_expires_at _ <=? _) = false |- _ => apply Z.leb_gt in H end.
  cbn. rewrite Hm. split_and!; try done; try congruence; try lia.
  - match goal with H : rp_leases _ = _ |- _ => rewrite H end. cbn. by rewrite dget_set_eq, Hm.
  - match goal with H : get_action id _ = get_action id _ |- _ => rewrite H end. done.
Qed.

(** Lease lifetime.  A lease that is granted on a well-formed repository
    carries token 1 and the action's new version; it is the action's active
    lease for exactly five minutes; only a release with its own identity and
    token ends it, and then it is not active at any time. *)
Lemma lease_lifetime id v now ds lrid rid s s1 l a' :
  repo_ok s → acquire_lease id v now ds lrid rid s = (s1, Ok (l, a')) →
  ls_fencing_token l = 1 ∧ ls_action_version l = Some (v + 1) ∧ lc_state a' = LEASED ∧
  (∀ t, active_lease id t s1 = if t <? now + minutes 5 then Some l else None) ∧
  (∀ lid tok t, lid ≠ lrid ∨ tok ≠ 1 → release_lease id lid tok t s1 = (s1, Ok false)) ∧
  (∀ t, ∃ s2, release_lease id lrid 1 t s1 = (s2, Ok true) ∧ ∀ t', active_lease id t' s2 = None).
Proof.
  intros Hs H. apply acquire_lease_Ok in H as (Hl & Hid & Hst & Htok & _ & Hexp & Hv & Hla & _ & _ & Hck); [|done].
  split_and!; try done.
  - intros t. unfold active_lease, lease_live. rewrite Hl, Hst, Hexp. cbn [negb orb].
    unfold str_eqb. rewrite bool_decide_true by done. cbn [negb orb]. unfold DEFAULT_LEASE_TTL.
    destruct (Z.ltb_spec t (now + minutes 5)), (Z.leb_spec (now + minutes 5) t); done || lia.
  - intros lid tok t Hor. unfold release_lease, bindM, getM. rewrite Hl, Hid, Htok.
    unfold str_eqb. case_bool_decide as E1; [|done]. cbn [negb orb].
    destruct (Z.eqb_spec 1 tok); [naive_solver|done].
  - intros t. unfold release_lease, bindM at 1, getM at 1. rewrite Hl, Hid, Htok.
    unfold str_eqb. rewrite bool_decide_true, Z.eqb_refl by done. cbn [negb orb].
    assert (check_ExecutionLease (released t l) = Ok (released t l)) as Hr.
    { unfold check_ExecutionLease in *. cbn. by destruct (raise_unless (1 <=? ls_fencing_token l) _), (raise_unless _ _). }
    unfold bindM, liftM. rewrite Hr. eexists. split; [done|]. intros t'. unfold active_lease.
    cbn. by rewrite dget_set_eq.
Qed.
