(* ===== verification/Recovery.v ===== *)
(** * Recovery: restart handling (control_plane/recovery.py, recovery_sweep.py)

    [RecoveryManager.recover] classifies one durable action and performs the
    single recovery transition, LEASED to RECONCILIATION_REQUIRED; the startup
    sweep runs it over every non-terminal action and isolates failures. *)

From S2P Require Import Prelude PyStr PyTime Sha256 Json PyDict Models Lifecycle ProjectPlan.
From S2P Require Import Identity Policy Confirmation AuditLedger AuditBuilders Verification.
From S2P Require Import ActionRepo ActionSpec.
From Stdlib Require Import Ascii String ZArith Lia.
From stdpp Require Import base strings gmap sorting list.

Local Open Scope string_scope.
Local Open Scope Z_scope.
Local Open Scope aipm_scope.

Record RecoveryOutcome := {
  ro_action_id : string;
  ro_entry_state : LifecycleState;
  ro_exit_state : option LifecycleState;
  ro_outcome : option ExecutionOutcome.t;
  ro_recovered : bool;
  ro_reason_code : string;
}.

Definition recovery_terminal : list LifecycleState :=
  [VERIFIED_SUCCESS; ROLLED_BACK; ROLLBACK_FAILED; EXECUTION_FAILED; REJECTED; EXPIRED; INVALIDATED].

(** An observation: nothing is recovered. *)
Definition observe (id : string) (st : LifecycleState) (o : option ExecutionOutcome.t)
    (reason : string) : RecoveryOutcome :=
  {| ro_action_id := id; ro_entry_state := st; ro_exit_state := None; ro_outcome := o;
     ro_recovered := false; ro_reason_code := reason |}.

(** [RecoveryManager.recover] *)
Definition recover (id : string) (now : option datetime) (clock : datetime)
  : M repo RecoveryOutcome :=
  do s <- getM;;
  match get_action id s with
  | None => raiseM RecoveryError
  | Some action =>
      let moment := default clock now in
      let st := lc_state action in
      let outcome_value := outcome_for_action id s in
      if in_states st recovery_terminal then retM (observe id st None "terminal_no_action")
      else if in_states st [REQUESTED; PLANNED; CONFIRMATION_REQUIRED]
      then retM (observe id st None "pre_lease_stale")
      else match st with
      | SNAPSHOT_CAPTURED => retM (observe id st None "ready_for_execution")
      | LEASED =>
          match active_lease id moment s with
          | None =>
              do advanced <- advance_action id (lc_version action) RECONCILIATION_REQUIRED
                               "control-plane-recovery" moment [];;
              retM {| ro_action_id := id; ro_entry_state := lc_state advanced;
                      ro_exit_state := Some (lc_state advanced);
                      ro_outcome := Some ExecutionOutcome.MUTATION_NOT_STARTED;
                      ro_recovered := true;
                      ro_reason_code := "lease_expired_reconciliation_required" |}
          | Some _ => retM (observe id st None "lease_active_ready")
          end
      | RUNNING =>
          if bool_decide (outcome_value = Some (value ExecutionOutcome.UNKNOWN_OUTCOME))
          then retM (observe id st (Some ExecutionOutcome.UNKNOWN_OUTCOME) "reconciliation_required")
          else retM (observe id st (Some ExecutionOutcome.UNKNOWN_OUTCOME) "outcome_marker_missing")
      | EXECUTED_PENDING_VERIFICATION => retM (observe id st None "verification_resumable")
      | ROLLBACK_REQUESTED => retM (observe id st None "rollback_resumable")
      | RECONCILIATION_REQUIRED =>
          retM (observe id st (Some ExecutionOutcome.UNKNOWN_OUTCOME) "reconciliation_required")
      | _ => retM (observe id st None "unrecognized_state")
      end
  end.

(** [RecoveryManager._action_ids]: an empty dictionary is falsy, so the code
    goes on to the database attribute, which this repository does not have. *)
Definition action_ids (s : repo) : result (list string) :=
  match rp_actions s with
  | [] => Raise AttributeError
  | actions => Ok (dkeys actions)
  end.

Fixpoint recover_each (ids : list string) (now : option datetime) (clock : datetime)
  : M repo (list RecoveryOutcome) :=
  match ids with
  | [] => retM []
  | id :: ids' =>
      do o <- recover id now clock;;
      do os <- recover_each ids' now clock;;
      retM (o :: os)
  end.

(** [RecoveryManager.scan] *)
Definition scan (now : option datetime) (clock : datetime) : M repo (list RecoveryOutcome) :=
  do s <- getM;;
  do ids <- liftM (action_ids s);;
  recover_each ids now clock.

(** ** The sweep *)

Definition DEFAULT_SWEEP_LIMIT : Z := 1000.


Record RecoverySweepResult := {
  sw_scanned : Z;
  sw_outcomes : list RecoveryOutcome;
  sw_errors : list string;
  sw_advanced_action_ids : list string;
}.

(** The loop: outcomes and the identities that failed. *)
Fixpoint sweep_loop (ids : list string) (clock : datetime)
  : M repo (list RecoveryOutcome * list string) :=
  match ids with
  | [] => retM ([], [])
  | id :: ids' => λ s,
      match recover id None clock s with
      | (s1, Ok o) =>
          (do r <- sweep_loop ids' clock;; retM (o :: fst r, snd r)) s1
      | (s1, Raise e) =>
          if is_value_error e then (do r <- sweep_loop ids' clock;; retM (fst r, id :: snd r)) s1
          else (s1, Raise e)
      end
  end.

(** [RecoverySweepError] is a [ValueError]. *)
Definition reconcile_non_terminal_actions (clock : datetime) (limit : Z)
  : M repo RecoverySweepResult :=
  assert_ 1 <=? limit else_raise ValueError;;
  do s <- getM;;
  do ids <- liftM (non_terminal_action_ids limit s);;
  do r <- sweep_loop ids clock;;
  retM {| sw_scanned := Z.of_nat (length (fst r)) + Z.of_nat (length (snd r));
          sw_outcomes := fst r; sw_errors := snd r;
          sw_advanced_action_ids := List.map ro_action_id (List.filter ro_recovered (fst r)) |}.

(** ** Lemmas *)

Lemma raise_unless_exn b e x : raise_unless b e = Raise x → x = e.
Proof. destruct b; naive_solver. Qed.
Lemma rbind_exn {A B} (r : result A) (k : A → result B) e x :
  (∀ y, r = Raise y → y = e) → (∀ a y, k a = Raise y → y = e) → rbind r k = Raise x → x = e.
Proof. destruct r; cbn; naive_solver. Qed.
Ltac exn_walk := repeat first
  [ apply raise_unless_exn
  | match goal with |- ∀ a y, _ = Raise y → _ => intros ? end
  | match goal with |- ∀ y, rbind _ _ = Raise y → _ => intros ?; apply rbind_exn end
  | match goal with |- ∀ y, raise_unless _ _ = Raise y → _ => intros ?; apply raise_unless_exn end
  | match goal with |- rbind _ _ = Raise _ → _ => apply rbind_exn end
  | match goal with |- context [match ?x with _ => _ end = Raise _] => destruct x end
  | match goal with |- ∀ y, Ok _ = Raise y → _ => by intros ? end
  | match goal with |- ∀ y, Raise _ = Raise y → _ => by intros ? [= <-] end
  | discriminate ].

Lemma stage2_id_exn s m y : stage2_id s m = Raise y → y = LifecycleError.
Proof. unfold stage2_id. exn_walk. Qed.
Lemma check_lifecycle_exn a y : check_ActionLifecycle a = Raise y → y = LifecycleError.
Proof.
  unfold check_ActionLifecycle, check_approver, stage2_id_opt.
  repeat first [apply stage2_id_exn | match goal with |- ∀ y, stage2_id _ _ = Raise y → _ => intros ?; apply stage2_id_exn end | progress exn_walk].
Qed.
Lemma advance_exn a target now actor y : advance a target now actor = Raise y → y = LifecycleError.
Proof.
  unfold advance, validate_transition, validate_confirmer.
  repeat first [apply check_lifecycle_exn | match goal with |- ∀ y, check_ActionLifecycle _ = Raise y → _ => intros ?; apply check_lifecycle_exn end | progress exn_walk].
Qed.

(** Whether [recover] will write. *)
Definition lease_lost (a : ActionLifecycle) (id : string) (moment : datetime) (s : repo) : bool :=
  bool_decide (lc_state a = LEASED) && bool_decide (active_lease id moment s = None).

Lemma recover_run id now clock s a :
  get_action id s = Some a →
  (lease_lost a id (default clock now) s = false →
     ∃ o, recover id now clock s = (s, Ok o) ∧ ro_recovered o = false ∧ ro_action_id o = id ∧
       ro_entry_state o = lc_state a) ∧
  (lease_lost a id (default clock now) s = true →
     match advance a RECONCILIATION_REQUIRED (Some (default clock now))
             (Some "control-plane-recovery") with
     | Ok a' => ∃ o, recover id now clock s = (set_action id a' s, Ok o) ∧ ro_recovered o = true ∧
                  ro_action_id o = id ∧ ro_exit_state o = Some RECONCILIATION_REQUIRED
     | Raise e => recover id now clock s = (s, Raise e)
     end).
Proof.
  intros Ha. unfold lease_lost. split.
  - intros Hl. unfold recover. unfold bindM at 1, getM. rewrite Ha.
    destruct (lc_state a) eqn:E; try (by eexists; split_and!).
    + rewrite bool_decide_true in Hl by done. cbn [andb] in Hl. apply bool_decide_eq_false in Hl.
      cbn -[active_lease]. destruct (active_lease _ _ s); [by eexists; split_and!|done].
    + change (in_states RUNNING recovery_terminal) with false.
      change (in_states RUNNING [REQUESTED; PLANNED; CONFIRMATION_REQUIRED]) with false.
      destruct (bool_decide (outcome_for_action id s = _)); by eexists; split_and!.
  - intros [Hst%bool_decide_eq_true Hn%bool_decide_eq_true]%andb_true_iff.
    assert (∃ k, recover id now clock s =
      bindM (advance_action id (lc_version a) RECONCILIATION_REQUIRED "control-plane-recovery"
               (default clock now) []) (λ a', retM (k a')) s ∧
      ∀ a', ro_recovered (k a') = true ∧ ro_action_id (k a') = id ∧
            ro_exit_state (k a') = Some (lc_state a')) as (k & -> & Hk).
    { eexists. unfold recover. unfold bindM at 1, getM. rewrite Ha, Hst.
      change (in_states LEASED recovery_terminal) with false.
      change (in_states LEASED [REQUESTED; PLANNED; CONFIRMATION_REQUIRED]) with false.
      cbn -[active_lease advance_action]. rewrite Hn. split; [reflexivity|]. done. }
    unfold bindM. rewrite (advance_action_run _ _ _ _ _ a) by done.
    destruct (advance a _ _ _) as [a'|] eqn:E; [|done]. destruct (Hk a') as (? & ? & Hx).
    apply advance_state in E as (Hst' & _). eexists. split_and!; try done. by rewrite Hx, Hst'.
Qed.

(** ** Properties *)

(** Recovery is conservative.  On a known action [recover] writes nothing
    unless the action is LEASED with no live lease; then, before the action's
    own expiry, it moves it to RECONCILIATION_REQUIRED, one version on, and at
    or after that expiry it raises and changes nothing. *)
Lemma recover_spec id now clock s a :
  get_action id s = Some a → lifecycle_wf a →
  let moment := default clock now in
  (lease_lost a id moment s = false →
     ∃ o, recover id now clock s = (s, Ok o) ∧ ro_recovered o = false ∧
       ro_entry_state o = lc_state a) ∧
  (lease_lost a id moment s = true → moment < lc_expires_at a →
     ∃ o a', recover id now clock s = (set_action id a' s, Ok o) ∧ ro_recovered o = true ∧
       lc_state a' = RECONCILIATION_REQUIRED ∧ lc_version a' = lc_version a + 1 ∧
       same_binding a a') ∧
  (lease_lost a id moment s = true → lc_expires_at a <= moment →
     recover id now clock s = (s, Raise LifecycleError)).
Proof.
  intros Ha Hwf moment. destruct (recover_run id now clock s a Ha) as [H1 H2]. fold moment in H1, H2.
  split_and!.
  - intros (o & ? & ? & ? & ?)%H1. eauto.
  - intros Hl Hm. specialize (H2 Hl).
    assert (lc_state a = LEASED) as Hst by (unfold lease_lost in Hl; by inv_ok).
    destruct (advance_accepts a RECONCILIATION_REQUIRED (Some moment)
                (Some "control-plane-recovery")) as [a' Hadv].
    + done.
    + rewrite Hst. by apply (bool_decide_unpack _); vm_compute.
    + intros ? [= <-]. by left.
    + done.
    + intros _ _. apply wf_approver; [done|]. rewrite Hst. by apply (bool_decide_unpack _); vm_compute.
    + rewrite Hadv in H2. destruct H2 as (o & -> & ? & _ & _). exists o, a'.
      apply advance_state in Hadv as (? & ? & ?). split_and!; done.
  - intros Hl Hm. specialize (H2 Hl).
    by rewrite advance_expired in H2.
Qed.

(** The lease-expiry transition cannot happen for actions that live no
    longer than the decision TTL, as every action of the service does: once
    the lease granted by [acquire_lease] has run out, the action itself has
    expired, so [recover] raises [LifecycleError] at every later moment and
    the action stays LEASED. *)
Lemma expired_lease_not_recovered id v granted ds lrid rid s s1 l a' t clock :
  repo_ok s → acquire_lease id v granted ds lrid rid s = (s1, Ok (l, a')) →
  lc_created_at a' <= granted → lc_expires_at a' <= lc_created_at a' + DECISION_TTL →
  ls_expires_at l <= t →
  recover id (Some t) clock s1 = (s1, Raise LifecycleError).
Proof.
  intros Hs H Hc He Ht.
  apply acquire_lease_Ok in H as (Hl & _ & _ & _ & _ & Hexp & _ & Hst & _ & Ha & _); [|done].
  destruct (recover_run id (Some t) clock s1 a' Ha) as [_ H2]. change (default clock (Some t)) with t in H2.
  assert (lease_lost a' id t s1 = true) as Hlost.
  { unfold lease_lost. rewrite Hst, bool_decide_true by done. cbn [andb].
    apply bool_decide_eq_true. unfold active_lease, lease_live. rewrite Hl.
    rewrite (proj2 (Z.leb_le _ _) Ht). by rewrite orb_true_r. }
  specialize (H2 Hlost). rewrite advance_expired in H2; [done|done|].
  unfold DEFAULT_LEASE_TTL, DECISION_TTL in *. lia.
Qed.

(** What the sweep may do to a store. *)
Record swept (clock : datetime) (s s' : repo) : Prop := {
  sp_action : ∀ id, get_action id s' = get_action id s ∨
    ∃ a a', get_action id s = Some a ∧ get_action id s' = Some a' ∧
      lease_lost a id clock s = true ∧ lifecycle_step a a' ∧ lc_state a' = RECONCILIATION_REQUIRED;
  sp_leases : rp_leases s' = rp_leases s;
  sp_plans : rp_plans s' = rp_plans s;
  sp_confirmations : rp_confirmations s' = rp_confirmations s;
  sp_outcomes : rp_outcomes s' = rp_outcomes s;
}.

#[export] Instance swept_preorder clock : PreOrder (swept clock).
Proof.
  split.
  - intros s. split; auto.
  - intros s1 s2 s3 [A1 L1 P1 C1 O1] [A2 L2 P2 C2 O2]. split; try congruence. intros id.
    destruct (A1 id) as [E1|(a & a' & Ha & Ha' & Hl & Hs & Hst)], (A2 id) as [E2|(b & b' & Hb & Hb' & Hlb & Hsb & Hstb)].
    + left. congruence.
    + right. exists b, b'. rewrite <-E1. split_and!; try done. unfold lease_lost, active_lease in *.
      by rewrite <-L1.
    + right. exists a, a'. split_and!; try done. congruence.
    + exfalso. assert (b = a') as -> by congruence. unfold lease_lost in Hlb. inv_ok. congruence.
Qed.

Lemma recover_swept id clock s s' r : recover id None clock s = (s', r) → swept clock s s'.
Proof.
  intros H. destruct (get_action id s) as [a|] eqn:Ha.
  2: { unfold recover, bindM, getM in H. rewrite Ha in H. by injection H as <- _. }
  destruct (recover_run id None clock s a Ha) as [H1 H2]. cbn [default] in H1, H2.
  destruct (lease_lost a id clock s) eqn:El.
  - specialize (H2 eq_refl). destruct (advance a _ _ _) as [a'|e] eqn:Hadv.
    + destruct H2 as (o & H2 & _). rewrite H2 in H. injection H as <- _.
      split; try done. intros id'. unfold set_action, get_action in *. cbn. rewrite dget_set.
      case_decide as E; [|by left]. subst. right. exists a, a'. split_and!; try done.
      * by eexists _, _, _.
      * by apply advance_state in Hadv as [? _].
    + rewrite H2 in H. injection H as <- _. reflexivity.
  - destruct (H1 eq_refl) as (o & Ho & _). rewrite Ho in H. injection H as <- _. reflexivity.
Qed.

Lemma recover_value_error id clock s s' e :
  recover id None clock s = (s', Raise e) → is_value_error e = true.
Proof.
  intros H. destruct (get_action id s) as [a|] eqn:Ha.
  2: { unfold recover, bindM, getM in H. rewrite Ha in H. by injection H as _ <-. }
  destruct (recover_run id None clock s a Ha) as [H1 H2].
  destruct (lease_lost a id _ s).
  - specialize (H2 eq_refl). destruct (advance a _ _ _) as [a'|y] eqn:Hadv.
    + destruct H2 as (o & H2 & _). by rewrite H2 in H.
    + rewrite H2 in H. injection H as _ <-. by apply advance_exn in Hadv as ->.
  - destruct (H1 eq_refl) as (o & Ho & _). by rewrite Ho in H.
Qed.

(** What recovering an action of [s] leaves in [s'] and answers: an observation
    that changes nothing, the recovery step, or an error that changes nothing. *)
Definition handled (clock : datetime) (s s' : repo) (os : list RecoveryOutcome) (es : list string)
    (id : string) (a : ActionLifecycle) : Prop :=
  if lease_lost a id clock s then
    match advance a RECONCILIATION_REQUIRED (Some clock) (Some "control-plane-recovery") with
    | Ok a' => get_action id s' = Some a' ∧
        ∃ o, o ∈ os ∧ ro_action_id o = id ∧ ro_recovered o = true ∧ ro_exit_state o = Some RECONCILIATION_REQUIRED
    | Raise _ => get_action id s' = Some a ∧ id ∈ es
    end
  else get_action id s' = Some a ∧
    ∃ o, o ∈ os ∧ ro_action_id o = id ∧ ro_recovered o = false ∧ ro_entry_state o = lc_state a.

Lemma recover_handled id clock s a : get_action id s = Some a →
  ∃ s1 r, recover id None clock s = (s1, r) ∧ (∀ id', id' ≠ id → get_action id' s1 = get_action id' s) ∧
    match r with
    | Ok o => ro_action_id o = id ∧ handled clock s s1 [o] [] id a
    | Raise e => is_value_error e = true ∧ handled clock s s1 [] [id] id a
    end.
Proof.
  intros Ha. destruct (recover_run id None clock s a Ha) as [H1 H2]. cbn [default] in H1, H2. unfold handled.
  destruct (lease_lost a id clock s).
  - specialize (H2 eq_refl). destruct (advance a _ _ _) as [a'|e] eqn:Hadv.
    + destruct H2 as (o & H2 & Hr & Hid & Hx). eexists _, _. split; [exact H2|]. split.
      * intros id' Hne. unfold set_action, get_action. cbn. by rewrite dget_set_ne.
      * split; [done|]. split; [unfold set_action, get_action; cbn; by rewrite dget_set_eq|].
        exists o. split; [by left|done].
    + eexists _, _. split; [exact H2|]. split; [done|]. split; [by apply advance_exn in Hadv as ->|].
      split; [done|by left].
  - destruct (H1 eq_refl) as (o & Ho & Hr & Hid & Hst). eexists _, _. split; [exact Ho|]. split; [done|].
    split; [done|]. split; [done|]. exists o. split; [by left|done].
Qed.

(** Later recoveries of other actions leave it handled. *)
Lemma handled_frame clock s s1 s' os es os' es' id a : handled clock s s1 os es id a →
  get_action id s' = get_action id s1 → os ⊆ os' → es ⊆ es' → handled clock s s' os' es' id a.
Proof.
  unfold handled. intros H Hs Ho He. destruct (lease_lost a id clock s); [destruct (advance _ _ _ _)|]; rewrite Hs.
  - destruct H as [? (o & Hin & ?)]. split; [done|]. exists o. split; [by apply Ho|done].
  - destruct H as [? Hin]. split; [done|by apply He].
  - destruct H as [? (o & Hin & ?)]. split; [done|]. exists o. split; [by apply Ho|done].
Qed.
Lemma handled_leases clock s s1 s' os es id a : rp_leases s1 = rp_leases s → handled clock s1 s' os es id a →
  handled clock s s' os es id a.
Proof. unfold handled, lease_lost, active_lease. by intros ->. Qed.

Lemma sweep_loop_spec ids clock : ∀ s, NoDup ids → (∀ id, id ∈ ids → is_Some (get_action id s)) →
  ∃ s' os es, sweep_loop ids clock s = (s', Ok (os, es)) ∧ swept clock s s' ∧
    (List.map ro_action_id os ++ es)%list ≡ₚ ids ∧ (∀ id, id ∉ ids → get_action id s' = get_action id s) ∧
    ∀ id a, id ∈ ids → get_action id s = Some a → handled clock s s' os es id a.
Proof.
  induction ids as [|id ids IH]; intros s Hn Hg; cbn [sweep_loop].
  { eexists _, _, _. split_and!; [done..|]. by intros id a ?%not_elem_of_nil. }
  apply NoDup_cons in Hn as [Hid Hn]. destruct (Hg id) as [a Ha]; [by left|].
  destruct (recover_handled id clock s a Ha) as (s1 & r & E & Hne & Hr). rewrite E.
  pose proof (recover_swept _ _ _ _ _ E) as Hs1.
  destruct (IH s1 Hn) as (s' & os & es & Hl & Hs & Hp & Hout & Hin).
  { intros id' Hid'. rewrite Hne by (by intros ->). apply Hg. by right. }
  assert (∀ id' b, id' ∈ ids → get_action id' s = Some b → handled clock s s' os es id' b) as Hrest.
  { intros id' b Hid' Hb. apply (handled_leases _ _ s1); [apply Hs1|]. apply Hin; [done|].
    rewrite Hne by (by intros ->). done. }
  assert (∀ id', id' ∉ id :: ids → get_action id' s' = get_action id' s) as Hframe.
  { intros id' Hno. rewrite Hout, Hne; [done|by intros ->; apply Hno; left|by intros ?; apply Hno; right]. }
  destruct r as [o|e].
  - destruct Hr as [Hoid Hh]. unfold bindM. rewrite Hl. eexists s', (o :: os), es.
    split_and!; [done|by etrans|cbn; by rewrite Hoid, Hp|done|]. intros id' b Hid' Hb.
    apply elem_of_cons in Hid' as [->|Hid'].
    + assert (b = a) as -> by congruence. eapply handled_frame; [exact Hh|by apply Hout|..]; [|by intros ? ?%not_elem_of_nil].
      intros x Hx%list_elem_of_singleton. subst. by left.
    + eapply handled_frame; [by apply Hrest|done|by intros x Hx; right|done].
  - destruct Hr as [Hv Hh]. rewrite Hv. unfold bindM. rewrite Hl. eexists s', os, (id :: es).
    split_and!; [done|by etrans|cbn; by rewrite <- Permutation_middle, Hp|done|]. intros id' b Hid' Hb.
    apply elem_of_cons in Hid' as [->|Hid'].
    + assert (b = a) as -> by congruence. eapply handled_frame; [exact Hh|by apply Hout|..]; [by intros ? ?%not_elem_of_nil|].
      intros x Hx%list_elem_of_singleton. subst. by left.
    + eapply handled_frame; [by apply Hrest|done|done|by intros x Hx; right].
Qed.

Lemma insert_action_perm a l : insert_action a l ≡ₚ a :: l.
Proof. induction l as [|b l IH]; [done|]. cbn. case_match; [done|]. rewrite IH. apply perm_swap. Qed.
Lemma sort_actions_perm l : sort_actions l ≡ₚ l.
Proof. induction l as [|a l IH]; [done|]. cbn. by rewrite insert_action_perm, IH. Qed.

(** The actions of a store: a dictionary keyed by identifier, of values the
    constructor accepts. *)
Record actions_keyed (s : repo) : Prop := {
  ak_keys : dwf (rp_actions s);
  ak_id : ∀ id a, get_action id s = Some a → lc_action_id a = id;
  ak_wf : ∀ id a, get_action id s = Some a → lifecycle_wf a;
}.

(** The actions a sweep enumerates: the non-terminal ones, oldest first. *)
Definition enumerated (limit : Z) (s : repo) : list ActionLifecycle :=
  take (Z.to_nat limit) (sort_actions (List.filter (λ a, negb (in_states (lc_state a) terminal_states))
                                         (dvalues (rp_actions s)))).

Lemma enumerated_elem limit s a : actions_keyed s → a ∈ enumerated limit s →
  get_action (lc_action_id a) s = Some a ∧ lc_state a ∉ terminal_states.
Proof.
  intros Hk Ha. unfold enumerated in Ha. apply elem_of_take in Ha as (i & Ha & _).
  apply list_elem_of_lookup_2 in Ha. rewrite sort_actions_perm in Ha.
  apply list_elem_of_In, List.filter_In in Ha as [Hin Hst]. apply list_elem_of_In in Hin.
  apply negb_true_iff, bool_decide_eq_false in Hst. split; [|done].
  destruct (value_dget _ _ (ak_keys _ Hk) Hin) as [k Hd]. by rewrite (ak_id _ Hk k a Hd).
Qed.
Lemma NoDup_map_filter {A B} (f : A → B) (p : A → bool) l : NoDup (List.map f l) → NoDup (List.map f (List.filter p l)).
Proof.
  induction l as [|a l IH]; cbn; [done|]. intros [Ha Hn]%NoDup_cons. destruct (p a); [|by apply IH]. cbn.
  apply NoDup_cons. split; [|by apply IH]. intros (b & Hb & Hin)%list_elem_of_In%List.in_map_iff.
  apply List.filter_In in Hin as [Hin _]. apply Ha, list_elem_of_In, List.in_map_iff. eauto.
Qed.
Lemma keyed_values s : actions_keyed s → List.map lc_action_id (dvalues (rp_actions s)) = dkeys (rp_actions s).
Proof.
  intros [Hk Hid _]. assert (∀ k a, (k, a) ∈ rp_actions s → lc_action_id a = k) as Hall.
  { intros k a Hin. apply Hid. by apply In_dget. }
  clear -Hall. unfold dkeys, dvalues. induction (rp_actions s) as [|[k a] d IH]; [done|]. cbn. f_equal.
  - apply Hall. by left.
  - apply IH. intros k' a' Hin. apply Hall. by right.
Qed.
Lemma enumerated_NoDup limit s : actions_keyed s → NoDup (List.map lc_action_id (enumerated limit s)).
Proof.
  intros Hk. unfold enumerated. set (l := sort_actions _). assert (NoDup (List.map lc_action_id l)) as Hn.
  - subst l. rewrite sort_actions_perm. apply NoDup_map_filter. rewrite keyed_values by done. apply Hk.
  - rewrite <- (take_drop (Z.to_nat limit) l), List.map_app in Hn. by apply NoDup_app in Hn as [? _].
Qed.

(** A lost lease is recovered before the action's own expiry, and not after. *)
Lemma handled_lost clock s s' os es id a : lifecycle_wf a → handled clock s s' os es id a → lease_lost a id clock s = true →
  if clock <? lc_expires_at a
  then (∃ a', get_action id s' = Some a' ∧ lc_state a' = RECONCILIATION_REQUIRED ∧ lifecycle_step a a') ∧
       ∃ o, o ∈ os ∧ ro_action_id o = id ∧ ro_recovered o = true
  else get_action id s' = Some a ∧ id ∈ es.
Proof.
  intros Hwf H Hl. unfold handled in H. rewrite Hl in H. destruct (Z.ltb_spec clock (lc_expires_at a)) as [Hlt|Hge].
  - assert (lc_state a = LEASED) as Hst by (unfold lease_lost in Hl; by inv_ok).
    destruct (advance_accepts a RECONCILIATION_REQUIRED (Some clock) (Some "control-plane-recovery")) as [a' Hadv].
    + done.
    + rewrite Hst. by apply (bool_decide_unpack _); vm_compute.
    + intros ? [= <-]. by left.
    + done.
    + intros _ _. apply wf_approver; [done|]. rewrite Hst. by apply (bool_decide_unpack _); vm_compute.
    + rewrite Hadv in H. destruct H as [Ha' (o & Ho & Hid & Hr & _)]. split; [|by exists o].
      exists a'. split; [done|]. split; [by apply advance_state in Hadv as [? _]|by eexists _, _, _].
  - by rewrite advance_expired in H.
Qed.

(** C37: The startup sweep is safe and total.  With a positive limit it never
    raises.  It enumerates the non-terminal actions, oldest first up to the
    limit, and answers each of them once, as an outcome or as an error under
    its identifier.  An action whose lease is still live, or that has none, is
    observed and kept; a leased action whose lease is gone is moved to
    RECONCILIATION_REQUIRED before its own expiry, and from then on is an error
    and kept.  Nothing else of the store changes. *)
Theorem sweep_safe_total clock limit s : 1 <= limit → actions_keyed s →
  ∃ s' res, reconcile_non_terminal_actions clock limit s = (s', Ok res) ∧ swept clock s s' ∧
    (List.map ro_action_id (sw_outcomes res) ++ sw_errors res)%list ≡ₚ List.map lc_action_id (enumerated limit s) ∧
    sw_scanned res = Z.of_nat (length (enumerated limit s)) ∧
    sw_advanced_action_ids res = List.map ro_action_id (List.filter ro_recovered (sw_outcomes res)) ∧
    ∀ a, a ∈ enumerated limit s → let id := lc_action_id a in
      lc_state a ∉ terminal_states ∧ get_action id s = Some a ∧
      if lease_lost a id clock s then
        if clock <? lc_expires_at a
        then (∃ a', get_action id s' = Some a' ∧ lc_state a' = RECONCILIATION_REQUIRED ∧ lifecycle_step a a') ∧
             id ∈ sw_advanced_action_ids res
        else get_action id s' = Some a ∧ id ∈ sw_errors res
      else get_action id s' = Some a ∧
        ∃ o, o ∈ sw_outcomes res ∧ ro_action_id o = id ∧ ro_recovered o = false ∧ ro_entry_state o = lc_state a.
Proof.
  intros H Hk.
  destruct (sweep_loop_spec (List.map lc_action_id (enumerated limit s)) clock s) as (s' & os & es & Hloop & Hs & Hp & _ & Hh).
  { by apply enumerated_NoDup. }
  { intros id (a & <- & Ha)%list_elem_of_In%List.in_map_iff. apply list_elem_of_In in Ha.
    apply enumerated_elem in Ha as [-> _]; [by eexists|done]. }
  eexists s', _. split.
  { unfold reconcile_non_terminal_actions, bindM, liftM, getM. rewrite (proj2 (Z.leb_le _ _) H). cbn [raise_unless].
    unfold non_terminal_action_ids. rewrite (proj2 (Z.leb_le _ _) H). cbn [raise_unless rbind].
    fold (enumerated limit s). rewrite Hloop. done. }
  cbn [sw_outcomes sw_errors sw_scanned sw_advanced_action_ids fst snd]. split_and!; [done|done| |done|].
  - apply Permutation_length in Hp. rewrite length_app, !List.length_map in Hp. lia.
  - intros a Ha. destruct (enumerated_elem _ _ _ Hk Ha) as [Hg Hst]. split; [done|]. split; [done|].
    assert (handled clock s s' os es (lc_action_id a) a) as Hha.
    { apply Hh; [|done]. apply list_elem_of_In, List.in_map, list_elem_of_In, Ha. }
    destruct (lease_lost a (lc_action_id a) clock s) eqn:El; [|unfold handled in Hha; by rewrite El in Hha].
    pose proof (handled_lost _ _ _ _ _ _ _ (ak_wf _ Hk _ _ Hg) Hha El) as Hf.
    destruct (clock <? lc_expires_at a); [|done]. destruct Hf as [Hf (o & Ho & Hid & Hr)]. split; [exact Hf|].
    rewrite <- Hid.
    apply list_elem_of_In, List.in_map, List.filter_In. split; [by apply list_elem_of_In|done].
Qed.
