(* ===== verification/Capability.v ===== *)
(** * Capability: the capability and executor registries (control_plane/capabilities_registry.py)

    A capability is a typed definition with its whole safety posture;
    [CapabilityRegistry] resolves identifiers to definitions and fails closed,
    [ExecutorRegistry] binds capabilities to executors, [resolve_target] turns
    a target of the plan store into a typed record.  A [frozenset] of strings
    is the sorted list of its elements. *)

From S2P Require Import Prelude PyStr PyDict Models ProjectPlan Identity AuditLedger.
From Stdlib Require Import Ascii String ZArith Lia.
From stdpp Require Import base strings gmap list.

Local Open Scope string_scope.
Local Open Scope Z_scope.
Local Open Scope aipm_scope.

Module RiskClass.
Inductive t := LOW | MEDIUM | HIGH | CRITICAL.
End RiskClass.
Inductive PrivilegeClass := CONTROL_PLANE_INTERNAL | SERVICE_ACCOUNT | HOST_ROOT.
Inductive CapabilityId :=
  | APPLY_PROJECT_PLAN | DRY_RUN_APPLY_PROJECT_PLAN | RESTART_ALLOWLISTED_SYSTEMD_UNIT
  | UPDATE_GIT_REF | REBUILD_COMPOSE_STACK | DOCKER_MUTATION | ARBITRARY_SCRIPT.
#[export] Instance PrivilegeClass_eq_dec : EqDecision PrivilegeClass.
Proof. solve_decision. Defined.
#[export] Instance CapabilityId_eq_dec : EqDecision CapabilityId.
Proof. solve_decision. Defined.
#[export] Instance CapabilityId_value : EnumValue CapabilityId := λ c,
  match c with
  | APPLY_PROJECT_PLAN => "apply_project_plan"
  | DRY_RUN_APPLY_PROJECT_PLAN => "dry_run_apply_project_plan"
  | RESTART_ALLOWLISTED_SYSTEMD_UNIT => "restart_allowlisted_systemd_unit"
  | UPDATE_GIT_REF => "update_git_ref" | REBUILD_COMPOSE_STACK => "rebuild_compose_stack"
  | DOCKER_MUTATION => "docker_mutation" | ARBITRARY_SCRIPT => "arbitrary_script"
  end.

Definition all_capabilities : list CapabilityId :=
  [APPLY_PROJECT_PLAN; DRY_RUN_APPLY_PROJECT_PLAN; RESTART_ALLOWLISTED_SYSTEMD_UNIT;
   UPDATE_GIT_REF; REBUILD_COMPOSE_STACK; DOCKER_MUTATION; ARBITRARY_SCRIPT].

(** [CapabilityId(value)] *)
Definition capability_of_value (s : string) : option CapabilityId :=
  List.find (λ c, str_eqb (value c) s) all_capabilities.

Record CapabilityDefinition := {
  cd_capability_id : CapabilityId;
  cd_version : string;
  cd_allowed_environments : list string;
  cd_target_type : string;
  cd_reversible : bool;
  cd_snapshot_contract : option string;
  cd_verification_contract : option string;
  cd_reconciliation_contract : option string;
  cd_risk_class : RiskClass.t;
  cd_privilege_class : PrivilegeClass;
  cd_enabled : bool;
  cd_automatic_rollback_allowed : bool;
  cd_permanently_forbidden : bool;
  cd_description : string;
}.

(** The constructor's normalisation of [allowed_environments]. *)
Definition normal_environments (l : list string) : list string :=
  sorted_set (List.map strip (List.filter (λ e, str_nonempty (strip e)) l)).

(** [CapabilityDefinition.__post_init__] *)
Definition new_CapabilityDefinition (d : CapabilityDefinition) : result CapabilityDefinition :=
  let* _ := bounded_reference 64 (Some (cd_version d)) in
  let normalized := normal_environments (cd_allowed_environments d) in
  require negb (cd_enabled d && bool_decide (normalized = []))
    else_raise CapabilityPolicyError "Enabled capability must declare allowed environments";;
  let* _ := bounded_reference 64 (Some (cd_target_type d)) in
  require negb (cd_permanently_forbidden d && cd_enabled d)
    else_raise CapabilityPolicyError "A permanently forbidden capability cannot be enabled";;
  require negb (cd_enabled d && bool_decide (cd_snapshot_contract d = None))
    else_raise CapabilityPolicyError "Enabled capability is missing its snapshot_contract";;
  require negb (cd_enabled d && bool_decide (cd_verification_contract d = None))
    else_raise CapabilityPolicyError "Enabled capability is missing its verification_contract";;
  require negb (cd_enabled d && bool_decide (cd_reconciliation_contract d = None))
    else_raise CapabilityPolicyError "Enabled capability is missing its reconciliation_contract";;
  require negb (cd_automatic_rollback_allowed d && negb (cd_reversible d))
    else_raise CapabilityPolicyError "Automatic rollback requires a reversible capability";;
  Ok {| cd_capability_id := cd_capability_id d; cd_version := cd_version d;
        cd_allowed_environments := normalized; cd_target_type := cd_target_type d;
        cd_reversible := cd_reversible d; cd_snapshot_contract := cd_snapshot_contract d;
        cd_verification_contract := cd_verification_contract d;
        cd_reconciliation_contract := cd_reconciliation_contract d;
        cd_risk_class := cd_risk_class d; cd_privilege_class := cd_privilege_class d;
        cd_enabled := cd_enabled d;
        cd_automatic_rollback_allowed := cd_automatic_rollback_allowed d;
        cd_permanently_forbidden := cd_permanently_forbidden d;
        cd_description := cd_description d |}.

Definition can_execute_in (d : CapabilityDefinition) (environment : string) : bool :=
  if cd_permanently_forbidden d || negb (cd_enabled d) then false
  else if negb (str_eqb environment "staging") then false
  else mem environment (cd_allowed_environments d).

(** ** The default posture *)

(** A disabled capability of [_DEFAULT_CAPABILITIES]. *)
Definition disabled (c : CapabilityId) (target : string) (risk : RiskClass.t)
    (privilege : PrivilegeClass) (forbidden : bool) (description : string) : CapabilityDefinition :=
  {| cd_capability_id := c; cd_version := "0"; cd_allowed_environments := [];
     cd_target_type := target; cd_reversible := false; cd_snapshot_contract := None;
     cd_verification_contract := None; cd_reconciliation_contract := None;
     cd_risk_class := risk; cd_privilege_class := privilege; cd_enabled := false;
     cd_automatic_rollback_allowed := false; cd_permanently_forbidden := forbidden;
     cd_description := description |}.

(** The two enabled ones. *)
Definition plan_capability (c : CapabilityId) (verification reconciliation : string)
    (rollback : bool) (description : string) : CapabilityDefinition :=
  {| cd_capability_id := c; cd_version := "1"; cd_allowed_environments := ["staging"];
     cd_target_type := "control_plane_project_plan"; cd_reversible := true;
     cd_snapshot_contract := Some "mc612-snapshot-v1";
     cd_verification_contract := Some verification;
     cd_reconciliation_contract := Some reconciliation; cd_risk_class := RiskClass.LOW;
     cd_privilege_class := CONTROL_PLANE_INTERNAL; cd_enabled := true;
     cd_automatic_rollback_allowed := rollback; cd_permanently_forbidden := false;
     cd_description := description |}.

Definition default_capabilities : list CapabilityDefinition :=
  [plan_capability APPLY_PROJECT_PLAN "mc612-verification-v1" "unknown-outcome-observation" true
     "CAS mutation of a control-plane ProjectPlan; the Shot-5/6 vertical slice.";
   plan_capability DRY_RUN_APPLY_PROJECT_PLAN "record-echo" "not-required" false
     "Records what a real executor would do; performs nothing.";
   disabled RESTART_ALLOWLISTED_SYSTEMD_UNIT "systemd_unit" RiskClass.HIGH SERVICE_ACCOUNT false
     "Typed preparation only: no unit allow-list, no verification contract; disabled.";
   disabled UPDATE_GIT_REF "git_repository" RiskClass.HIGH SERVICE_ACCOUNT false
     "Blocked: repo/ref allow-lists, worktree snapshot, reconciliation undefined.";
   disabled REBUILD_COMPOSE_STACK "compose_stack" RiskClass.HIGH SERVICE_ACCOUNT false
     "Blocked: project allow-list, image snapshot, down is non-reversible.";
   disabled DOCKER_MUTATION "docker_container" RiskClass.CRITICAL SERVICE_ACCOUNT false
     "Blocked: no bounded per-container contract exists.";
   disabled ARBITRARY_SCRIPT "none" RiskClass.CRITICAL HOST_ROOT true
     "Permanently forbidden: arbitrary command/script execution cannot be bounded."].

(** ** CapabilityRegistry *)

Definition capability_map : Type := dict CapabilityId CapabilityDefinition.

Definition new_CapabilityRegistry (capabilities : capability_map) : result capability_map :=
  require negb (bool_decide (dlen capabilities = 0))
    else_raise CapabilityPolicyError "Capability registry cannot be empty";;
  require List.forallb (λ kv, bool_decide (cd_capability_id (snd kv) = fst kv)) capabilities
    else_raise CapabilityPolicyError "Capability registry entries must be typed and self-consistent";;
  Ok capabilities.

Definition default_registry : capability_map :=
  List.map (λ d, (cd_capability_id d, d)) default_capabilities.

(** [resolve] of a typed identifier; with a string it is [resolve_value]. *)
Definition resolve (reg : capability_map) (c : CapabilityId) (version : option string)
  : result CapabilityDefinition :=
  match dget c reg with
  | None => Raise (CapabilityPolicyError "Unknown capability")
  | Some d =>
      require match version with Some v => str_eqb (cd_version d) v | None => true end
        else_raise CapabilityPolicyError "Capability version mismatch";;
      Ok d
  end.
Definition resolve_value (reg : capability_map) (s : string) (version : option string)
  : result CapabilityDefinition :=
  match capability_of_value s with
  | None => Raise (CapabilityPolicyError "Unknown capability")
  | Some c => resolve reg c version
  end.

(** The checks of [require_executable] after resolution. *)
Definition executable (d : CapabilityDefinition) (environment : string)
  : result CapabilityDefinition :=
  require negb (cd_permanently_forbidden d)
    else_raise CapabilityPolicyError "Capability is permanently forbidden";;
  require cd_enabled d else_raise CapabilityPolicyError "Capability is disabled";;
  require can_execute_in d environment
    else_raise CapabilityPolicyError "Capability is not allowed in this environment";;
  Ok d.
Definition require_executable (reg : capability_map) (c : CapabilityId) (environment : string)
    (version : option string) : result CapabilityDefinition :=
  let* d := resolve reg c version in executable d environment.
Definition require_executable_value (reg : capability_map) (s : string) (environment : string)
    (version : option string) : result CapabilityDefinition :=
  let* d := resolve_value reg s version in executable d environment.

(** ** ExecutorRegistry *)

Definition executor_map (E : Type) : Type := dict (CapabilityId * string) E.

Definition register_executor {E} (reg : capability_map) (c : CapabilityId) (executor : E)
  : M (executor_map E) unit :=
  do d <- liftM (resolve reg c None);;
  assert_ negb (cd_permanently_forbidden d)
    else_raise CapabilityPolicyError "A permanently forbidden capability cannot have an executor";;
  do executors <- getM;;
  assert_ negb (dmem (c, cd_version d) executors)
    else_raise CapabilityPolicyError "Duplicate executor registration";;
  putM (dset (c, cd_version d) executor executors).

Definition resolve_executor {E} (reg : capability_map) (c : CapabilityId) (version : option string)
    (executors : executor_map E) : result (CapabilityDefinition * E) :=
  let* d := resolve reg c version in
  match dget (cd_capability_id d, cd_version d) executors with
  | None => Raise (CapabilityPolicyError "No executor registered for this capability/version")
  | Some e => Ok (d, e)
  end.

(** ** Targets *)

Record TargetRecord := {
  tr_target_id : string;
  tr_plan_id : string;
  tr_environment : string;
  tr_allowed_capabilities : list CapabilityId;
}.

(** [TargetRecord.__post_init__] *)
Definition check_TargetRecord (t : TargetRecord) : result TargetRecord :=
  let* _ := bounded_reference MAX_AUDIT_ID (Some (tr_target_id t)) in
  let* _ := bounded_reference MAX_AUDIT_ID (Some (tr_plan_id t)) in
  let* _ := bounded_reference 32 (Some (tr_environment t)) in
  Ok t.

Definition supports_target (reg : capability_map) (c : CapabilityId) (environment target_type : string)
  : bool :=
  match require_executable reg c environment None with
  | Ok d => str_eqb (cd_target_type d) target_type
  | Raise _ => false
  end.

(** The comprehension's element is the requested capability, not the
    candidate, so the set has at most that one element. *)
Definition resolve_target (target_id : string) (plans : plan_store) (reg : capability_map)
    (c : CapabilityId) : result TargetRecord :=
  match plans !! target_id with
  | None => Raise (CapabilityPolicyError "Target is not registered")
  | Some plan =>
      let environment := value (pp_environment plan) in
      let* d := require_executable reg c environment None in
      let allowed :=
        if List.existsb (λ candidate, supports_target reg candidate environment (cd_target_type d))
             all_capabilities
        then [c] else [] in
      check_TargetRecord
        {| tr_target_id := pp_target_id plan; tr_plan_id := str_take 32 (pp_digest plan);
           tr_environment := environment; tr_allowed_capabilities := allowed |}
  end.

(** [validate_startup_configuration]; the registry is one by typing. *)
Definition validate_startup_configuration (owner_verifier_present database_path_permissions_ok : bool)
    (staging_targets_registered : Z) (unsafe_bind_detected : bool) : result unit :=
  let problems :=
    ((if owner_verifier_present then [] else ["owner authentication configuration is missing"]) ++
     (if database_path_permissions_ok then [] else ["control-plane database path is unsafe"]) ++
     (if staging_targets_registered <? 1 then ["no staging target is registered"] else []) ++
     (if unsafe_bind_detected then ["unsafe bind address configured"] else []))%list in
  match problems with
  | [] => Ok ()
  | _ => Raise (CapabilityPolicyError ("Startup configuration rejected: " ++ String.concat "; " problems))
  end.

(** ** Lemmas *)

Lemma capability_of_value_Some s c : capability_of_value s = Some c ↔ s = value c.
Proof.
  unfold capability_of_value. split.
  - intros [_ H%bool_decide_eq_true]%List.find_some. done.
  - intros ->. by destruct c.
Qed.

Lemma executable_Ok d environment d' :
  executable d environment = Ok d' ↔
  d' = d ∧ cd_permanently_forbidden d = false ∧ cd_enabled d = true ∧ environment = "staging" ∧
  "staging" ∈ cd_allowed_environments d.
Proof.
  unfold executable, can_execute_in, mem, str_eqb.
  destruct (cd_permanently_forbidden d), (cd_enabled d); cbn; try naive_solver.
  destruct (decide (environment = "staging")) as [->|Hne].
  - rewrite (bool_decide_eq_true_2 ("staging" = "staging")) by done. cbn.
    case_bool_decide; cbn; naive_solver.
  - rewrite (bool_decide_eq_false_2 (environment = "staging")) by done. cbn. naive_solver.
Qed.

Lemma require_executable_value_Ok reg s environment version d :
  require_executable_value reg s environment version = Ok d ↔
  ∃ c, s = value c ∧ dget c reg = Some d ∧ (∀ v, version = Some v → cd_version d = v) ∧
    cd_permanently_forbidden d = false ∧ cd_enabled d = true ∧ environment = "staging" ∧
    "staging" ∈ cd_allowed_environments d.
Proof.
  unfold require_executable_value, resolve_value, resolve. rewrite rbind_Ok. split.
  - intros (d0 & Hr & He). destruct (capability_of_value s) as [c|] eqn:Ec; [|done].
    apply capability_of_value_Some in Ec as ->. destruct (dget c reg) as [d1|] eqn:Ed; [|done].
    inv_ok. apply executable_Ok in He as (-> & ? & ? & ? & ?). exists c. split_and!; try done.
    intros v ->. match goal with H : str_eqb _ _ = true |- _ => by apply bool_decide_eq_true in H end.
  - intros (c & -> & Hd & Hv & Hrest). exists d.
    rewrite (proj2 (capability_of_value_Some _ c)), Hd by done. split.
    + destruct version as [v|]; [|done]. unfold str_eqb. by rewrite bool_decide_true by auto.
    + apply executable_Ok. naive_solver.
Qed.

Lemma new_definition_enabled d0 d :
  new_CapabilityDefinition d0 = Ok d → cd_enabled d = true →
  cd_permanently_forbidden d = false ∧ is_Some (cd_snapshot_contract d) ∧
  is_Some (cd_verification_contract d) ∧ is_Some (cd_reconciliation_contract d).
Proof.
  unfold new_CapabilityDefinition. intros H. inv_ok. cbn. intros He. rewrite He in *. cbn in *.
  rewrite andb_true_r in *.
  repeat match goal with H : bool_decide _ = false |- _ => apply bool_decide_eq_false in H end.
  split_and!; [done|..]; by apply not_eq_None_Some.
Qed.

(** A resolved target allows the requested capability and no other. *)
Lemma resolve_target_allowed t plans reg c r :
  resolve_target t plans reg c = Ok r → tr_allowed_capabilities r = [c].
Proof.
  unfold resolve_target. intros H. destruct (plans !! t) as [p|]; [|done].
  apply rbind_Ok in H as (d & Hd & H).
  assert (List.existsb (λ candidate, supports_target reg candidate (value (pp_environment p))
            (cd_target_type d)) all_capabilities = true) as E.
  { apply List.existsb_exists. exists c. split; [by destruct c; cbn; tauto|].
    unfold supports_target. rewrite Hd. by apply bool_decide_eq_true. }
  rewrite E in H. unfold check_TargetRecord in H. by inv_ok.
Qed.

(** ** Properties *)

(** Capabilities fail closed.  What a registry of constructed definitions
    resolves for execution is the entry of that name, at the requested
    version, enabled, not forbidden, with its snapshot, verification and
    reconciliation contracts declared, and only ever for staging.  On a fresh
    install exactly the plan mutation and its dry run resolve. *)
Lemma capability_fail_closed capabilities reg s environment version d :
  new_CapabilityRegistry capabilities = Ok reg →
  (∀ c d, (c, d) ∈ capabilities → ∃ d0, new_CapabilityDefinition d0 = Ok d) →
  (require_executable_value reg s environment version = Ok d →
     environment = "staging" ∧ s = value (cd_capability_id d) ∧
     (∀ v, version = Some v → cd_version d = v) ∧
     cd_enabled d = true ∧ cd_permanently_forbidden d = false ∧
     is_Some (cd_snapshot_contract d) ∧ is_Some (cd_verification_contract d) ∧
     is_Some (cd_reconciliation_contract d)) ∧
  (is_ok (require_executable_value default_registry s environment version) = true ↔
     s ∈ [value APPLY_PROJECT_PLAN; value DRY_RUN_APPLY_PROJECT_PLAN] ∧
     environment = "staging" ∧ (version = None ∨ version = Some "1")).
Proof.
  unfold new_CapabilityRegistry. intros Hreg Hcon. inv_ok.
  match goal with H : List.forallb _ _ = true |- _ => rename H into Hkeys end.
  rewrite List.forallb_forall in Hkeys. split.
  - intros (c & -> & Hd & Hv & _ & He & -> & _)%require_executable_value_Ok.
    apply dget_In in Hd. destruct (Hcon _ _ Hd) as [d0 H0].
    apply list_elem_of_In, Hkeys, bool_decide_eq_true in Hd. cbn in Hd. subst c.
    pose proof (new_definition_enabled _ _ H0 He). naive_solver.
  - split.
    + destruct (require_executable_value default_registry _ _ _) as [d'|] eqn:E; [intros _|done].
      apply require_executable_value_Ok in E as (c & -> & Hd & Hv & _ & He & -> & _).
      destruct c; cbn in Hd; simplify_eq; try done; (split; [set_solver|split; [done|]]);
        destruct version as [v|]; naive_solver.
    + intros (Hs & -> & Hv). assert (∃ d', require_executable_value default_registry s "staging" version = Ok d')
        as [d' ->]; [|done].
      assert (s = value APPLY_PROJECT_PLAN ∨ s = value DRY_RUN_APPLY_PROJECT_PLAN) as [-> | ->]
        by set_solver; destruct Hv as [-> | ->]; eexists; vm_compute; reflexivity.
Qed.
