(* ===== verification/Contract.v ===== *)
(** * Contract: execution contracts, service evidence and registrations

    [ExecutionContract] of control_plane/executor.py is the only input of the
    executor and of the gate; it may carry the [ServiceEvidenceContract] of
    models/compose_plan.py.  [ProjectRegistration] and its digest are those of
    control_plane/registration.py. *)

From S2P Require Import Prelude PyStr PyTime Sha256 Json PyDict Models ProjectPlan Identity.
From S2P Require Import AuditLedger.
From Stdlib Require Import Ascii String ZArith Lia.
From stdpp Require Import base strings gmap list.

Local Open Scope string_scope.
Local Open Scope Z_scope.
Local Open Scope aipm_scope.

(** ** Service evidence *)

Record ServiceEvidenceContract := {
  se_project_name : string;
  se_compose_identity : string;
  se_service_name : string;
  se_requested_scope : list string;
  se_derived_execution_scope : list string;
  se_atomicity : string;
  se_current_runtime_digest : option string;
  se_target_candidate_digest : option string;
  se_target_candidate_child_digest : option string;
  se_candidate_lookup_key : option string;
  se_provenance_verified : bool;
  se_dependency_scope : list string;
  se_health_contract_summary : string;
  se_plan_digest : string;
}.
#[export] Instance ServiceEvidenceContract_eq_dec : EqDecision ServiceEvidenceContract.
Proof. solve_decision. Defined.

(** [ServiceEvidenceContract.__post_init__] *)
Definition check_ServiceEvidenceContract (e : ServiceEvidenceContract)
  : result ServiceEvidenceContract :=
  require str_nonempty (se_project_name e) else_raise ValueError;;
  require str_nonempty (se_compose_identity e) else_raise ValueError;;
  require str_nonempty (se_service_name e) else_raise ValueError;;
  require negb (bool_decide (se_requested_scope e = [])) else_raise ValueError;;
  require negb (bool_decide (se_derived_execution_scope e = [])) else_raise ValueError;;
  require str_nonempty (se_atomicity e) else_raise ValueError;;
  require str_nonempty (se_health_contract_summary e) else_raise ValueError;;
  require HEX 64 (se_plan_digest e) else_raise ValueError;;
  Ok e.

Definition strs_json (l : list string) : json := JArr (List.map JStr l).

Definition evidence_payload (e : ServiceEvidenceContract) : json :=
  JObj [("atomicity", JStr (se_atomicity e));
        ("candidate_lookup_key", JOpt JStr (se_candidate_lookup_key e));
        ("compose_identity", JStr (se_compose_identity e));
        ("current_runtime_digest", JOpt JStr (se_current_runtime_digest e));
        ("dependency_scope", strs_json (se_dependency_scope e));
        ("derived_execution_scope", strs_json (se_derived_execution_scope e));
        ("health_contract_summary", JStr (se_health_contract_summary e));
        ("plan_digest", JStr (se_plan_digest e));
        ("project_name", JStr (se_project_name e));
        ("provenance_verified", JBool (se_provenance_verified e));
        ("requested_scope", strs_json (se_requested_scope e));
        ("service_name", JStr (se_service_name e));
        ("target_candidate_child_digest", JOpt JStr (se_target_candidate_child_digest e));
        ("target_candidate_digest", JOpt JStr (se_target_candidate_digest e))].

(** ** Execution contracts *)

Definition EXECUTION_CONTRACT_VERSION : string := "mc612-execution-contract-v2".
Definition CONTRACT_DIGEST_VERSION : string := "mc612-contract-digest-v1".
Definition SYSTEM_ACTOR : string := "control-plane-system".

(** The closed capability set of the executor has one element. *)
Inductive ExecutorCapability := EXEC_UPDATE_PROJECT_PLAN.
#[export] Instance ExecutorCapability_value : EnumValue ExecutorCapability :=
  λ _, "update_project_plan".
#[export] Instance ExecutorCapability_eq_dec : EqDecision ExecutorCapability.
Proof. solve_decision. Defined.

Record ExecutionContract := {
  ec_contract_version : string;
  ec_action_id : string;
  ec_action_version : Z;
  ec_operation : ExecutorCapability;
  ec_target_id : string;
  ec_environment : string;
  ec_plan_id : string;
  ec_expected_plan_revision : Z;
  ec_expected_plan_digest : string;
  ec_mutation_fields : list (string * string);
  ec_snapshot_id : string;
  ec_decision_id : string;
  ec_confirmation_id : string;
  ec_policy_version : string;
  ec_verification_version : string;
  ec_kill_switch_epoch : Z;
  ec_lease_id : string;
  ec_fencing_token : Z;
  ec_expires_at : datetime;
  ec_capability_version : string;
  ec_service_evidence : option ServiceEvidenceContract;
}.
#[export] Instance ExecutionContract_eq_dec : EqDecision ExecutionContract.
Proof. solve_decision. Defined.

(** The mutation fields end up sorted. *)
Definition ec_with_fields (fs : list (string * string)) (c : ExecutionContract)
  : ExecutionContract :=
  {| ec_contract_version := ec_contract_version c; ec_action_id := ec_action_id c;
     ec_action_version := ec_action_version c; ec_operation := ec_operation c;
     ec_target_id := ec_target_id c; ec_environment := ec_environment c;
     ec_plan_id := ec_plan_id c; ec_expected_plan_revision := ec_expected_plan_revision c;
     ec_expected_plan_digest := ec_expected_plan_digest c; ec_mutation_fields := fs;
     ec_snapshot_id := ec_snapshot_id c; ec_decision_id := ec_decision_id c;
     ec_confirmation_id := ec_confirmation_id c; ec_policy_version := ec_policy_version c;
     ec_verification_version := ec_verification_version c;
     ec_kill_switch_epoch := ec_kill_switch_epoch c; ec_lease_id := ec_lease_id c;
     ec_fencing_token := ec_fencing_token c; ec_expires_at := ec_expires_at c;
     ec_capability_version := ec_capability_version c;
     ec_service_evidence := ec_service_evidence c |}.

(** [ExecutionContract.__post_init__] *)
Definition new_ExecutionContract (c : ExecutionContract) : result ExecutionContract :=
  let reference m v := bounded_reference m (Some v) in
  let* _ := reference 64 (ec_capability_version c) in
  require str_eqb (ec_contract_version c) EXECUTION_CONTRACT_VERSION else_raise AuditEventError;;
  let* _ := reference MAX_AUDIT_ID (ec_action_id c) in
  require 1 <=? ec_action_version c else_raise AuditEventError;;
  let* _ := reference MAX_AUDIT_ID (ec_target_id c) in
  let* _ := reference 32 (ec_environment c) in
  let* _ := reference MAX_AUDIT_ID (ec_plan_id c) in
  require 1 <=? ec_expected_plan_revision c else_raise AuditEventError;;
  require HEX 64 (ec_expected_plan_digest c) else_raise AuditEventError;;
  let fs := sort_pairs (ec_mutation_fields c) in
  require negb (bool_decide (fs = [])) && List.forallb (λ kv, mem (fst kv) ALLOWED_FIELDS) fs
    else_raise AuditEventError;;
  let* _ := reference MAX_AUDIT_ID (ec_snapshot_id c) in
  let* _ := reference MAX_AUDIT_ID (ec_decision_id c) in
  let* _ := reference MAX_AUDIT_ID (ec_confirmation_id c) in
  let* _ := reference 64 (ec_policy_version c) in
  require 1 <=? ec_kill_switch_epoch c else_raise AuditEventError;;
  let* _ := reference MAX_AUDIT_ID (ec_lease_id c) in
  require 1 <=? ec_fencing_token c else_raise AuditEventError;;
  Ok (ec_with_fields fs c).

Definition ec_is_expired (c : ExecutionContract) (now : datetime) : bool := ec_expires_at c <=? now.

(** The payload of [canonical_payload]. *)
Definition contract_payload (c : ExecutionContract) : json :=
  JObj ([("action_id", JStr (ec_action_id c));
         ("action_version", JInt (ec_action_version c));
         ("capability", JStr (value (ec_operation c)));
         ("capability_version", JStr (ec_capability_version c));
         ("confirmation_id", JStr (ec_confirmation_id c));
         ("decision_id", JStr (ec_decision_id c));
         ("environment", JStr (ec_environment c));
         ("expected_plan_digest", JStr (ec_expected_plan_digest c));
         ("expected_plan_revision", JInt (ec_expected_plan_revision c));
         ("expires_at", JStr (isoformat (ec_expires_at c)));
         ("fencing_token", JInt (ec_fencing_token c));
         ("kill_switch_epoch", JInt (ec_kill_switch_epoch c));
         ("lease_id", JStr (ec_lease_id c));
         ("mutation_fields", pairs_json (ec_mutation_fields c));
         ("plan_id", JStr (ec_plan_id c));
         ("policy_version", JStr (ec_policy_version c));
         ("snapshot_id", JStr (ec_snapshot_id c));
         ("target_id", JStr (ec_target_id c));
         ("verification_version", JStr (ec_verification_version c));
         ("version", JStr CONTRACT_DIGEST_VERSION)] ++
        match ec_service_evidence c with
        | None => []
        | Some e => [("service_evidence", evidence_payload e)]
        end)%list.
Definition contract_canonical (c : ExecutionContract) : string := dumps (contract_payload c).
(** [ExecutionContract.digest] *)
Definition contract_digest (c : ExecutionContract) : string := sha256_hex (contract_canonical c).

(** ** Project registrations *)

Inductive RegistrationStatus := REGISTERED | REG_DISABLED | REVOKED.
#[export] Instance RegistrationStatus_eq_dec : EqDecision RegistrationStatus.
Proof. solve_decision. Defined.
#[export] Instance RegistrationStatus_value : EnumValue RegistrationStatus := λ s,
  match s with REGISTERED => "REGISTERED" | REG_DISABLED => "DISABLED" | REVOKED => "REVOKED" end.

Record ProjectRegistration := {
  rg_registration_id : string;
  rg_target_id : string;
  rg_environment : string;
  rg_status : RegistrationStatus;
  rg_canonical_project_path : string;
  rg_runtime_mode : string;
  rg_registration_digest : string;
  rg_registration_version : string;
  rg_registered_by : string;
  rg_registered_at : datetime;
  rg_compose_project_name : option string;
  rg_approved_by : option string;
  rg_approved_at : option datetime;
  rg_revoked_by : option string;
  rg_revoked_at : option datetime;
  rg_revocation_reason : option string;
  rg_updated_at : option datetime;
}.

Definition is_active (r : ProjectRegistration) : bool := bool_decide (rg_status r = REGISTERED).

(** [sorted(...)] of strings, repetitions kept. *)
Fixpoint insert_text (s : string) (l : list string) : list string :=
  match l with [] => [s] | t :: l' => if String.leb s t then s :: l else t :: insert_text s l' end.
Definition sort_texts (l : list string) : list string := foldr insert_text [] l.

Definition registration_payload (target_id path mode environment : string)
    (compose : option string) (hashes : list string) (registered_at version : string) : json :=
  JObj [("target_id", JStr target_id); ("canonical_project_path", JStr path);
        ("runtime_mode", JStr mode); ("environment", JStr environment);
        ("compose_project_name", JOpt JStr compose);
        ("compose_file_hashes", strs_json (sort_texts hashes));
        ("registered_at", JStr registered_at); ("registration_version", JStr version)].

(** [json.dumps] with the default [ensure_ascii]: of the ASCII characters it
    escapes DEL too. *)
Fixpoint escape_del (s : string) : string :=
  match s with
  | EmptyString => EmptyString
  | String c s' =>
      if (nat_of_ascii c =? 127)%nat then "\u007f" ++ escape_del s' else String c (escape_del s')
  end.
Definition dumps_ascii (j : json) : string := escape_del (dumps j).

Definition compute_registration_digest (target_id path mode environment : string)
    (compose : option string) (hashes : option (list string)) (registered_at version : string)
  : string :=
  sha256_hex (dumps_ascii (registration_payload target_id path mode environment compose
                             (default [] hashes) registered_at version)).

(** [verify_registration_digest]: a [ProjectRegistration] has no
    [compose_file_hashes] attribute, so the digest is recomputed only when the
    caller passes the hashes. *)
Definition verify_registration_digest (r : ProjectRegistration) (hashes : option (list string)) : bool :=
  HEX 64 (rg_registration_digest r) &&
  match hashes with
  | None => true
  | Some hs =>
      str_eqb (rg_registration_digest r)
        (compute_registration_digest (rg_target_id r) (rg_canonical_project_path r)
           (rg_runtime_mode r) (rg_environment r) (rg_compose_project_name r) (Some hs)
           (isoformat (rg_registered_at r)) (rg_registration_version r))
  end.

(** ** Lemmas *)

Lemma canon_texts_inj l l' : List.map canon (List.map JStr l) = List.map canon (List.map JStr l') → l = l'.
Proof.
  revert l'. induction l as [|a l IH]; intros [|b l']; cbn; intros H; simplify_eq; [done|].
  f_equal; auto.
Qed.

Lemma bounded_reference_ref m v o : bounded_reference m (Some v) = Ok o → clean_ref m v.
Proof.
  cbn. intros H. inv_ok. unfold bounded_text, assert_no_secret_material in *. inv_ok.
  split_and!; try done; [|lia]. intros ->. done.
Qed.

Lemma evidence_payload_inj e e' : canon (evidence_payload e) = canon (evidence_payload e') → e = e'.
Proof.
  intros H. apply (f_equal (λ j, enc j)) in H.
  change (dumps (evidence_payload e) = dumps (evidence_payload e')) in H.
  unfold evidence_payload in H. canon_inv H.
  repeat match goal with
    | E : canon (JOpt JStr _) = canon (JOpt JStr _) |- _ => apply JOpt_str_inj in E
    | E : List.map canon _ = List.map canon _ |- _ => apply canon_texts_inj in E
    end.
  destruct e, e'; cbn in *. by subst.
Qed.

(** The version is fixed by the constructor; every other field is in the
    digested text. *)
Lemma contract_canonical_inj c c' :
  valid_datetime (ec_expires_at c) → valid_datetime (ec_expires_at c') →
  ec_contract_version c = ec_contract_version c' →
  contract_canonical c = contract_canonical c' → c = c'.
Proof.
  intros V V' Hver H. unfold contract_canonical, contract_payload in H.
  assert (ec_operation c = ec_operation c') as Hop by (by destruct (ec_operation c), (ec_operation c')).
  destruct (ec_service_evidence c) as [e|] eqn:E, (ec_service_evidence c') as [e'|] eqn:E';
    cbn [app] in H.
  - remember (evidence_payload e) as j eqn:Hj. remember (evidence_payload e') as j' eqn:Hj'.
    canon_inv H. subst j j'.
    repeat match goal with
      | H : isoformat _ = isoformat _ |- _ => apply isoformat_inj in H; [|done..]
      | H : canon (evidence_payload _) = _ |- _ => apply evidence_payload_inj in H
      end.
    destruct c, c'; cbn in *. by subst.
  - canon_inv H. discriminate.
  - canon_inv H. discriminate.
  - canon_inv H.
    repeat match goal with
      | H : isoformat _ = isoformat _ |- _ => apply isoformat_inj in H; [|done..]
      end.
    destruct c, c'; cbn in *. by subst.
Qed.

Lemma new_contract_Ok c c' :
  new_ExecutionContract c = Ok c' →
  c' = ec_with_fields (sort_pairs (ec_mutation_fields c)) c ∧
  ec_contract_version c = EXECUTION_CONTRACT_VERSION ∧
  clean_ref 64 (ec_capability_version c) ∧ clean_ref MAX_AUDIT_ID (ec_action_id c) ∧
  clean_ref MAX_AUDIT_ID (ec_target_id c) ∧ HEX 64 (ec_expected_plan_digest c) = true ∧
  ec_mutation_fields c' ≠ [] ∧ (∀ k v, (k, v) ∈ ec_mutation_fields c' → k ∈ ALLOWED_FIELDS).
Proof.
  unfold new_ExecutionContract. intros H. inv_ok.
  repeat match goal with H : bounded_reference _ (Some _) = Ok _ |- _ => apply bounded_reference_ref in H end.
  match goal with H : List.forallb _ _ = true |- _ => rename H into HF end.
  rewrite List.forallb_forall in HF. split_and!; try done.
  - match goal with H : str_eqb _ _ = true |- _ => by apply bool_decide_eq_true in H end.
  - intros k v Hk. apply mem_true, (HF (k, v)). by apply list_elem_of_In.
Qed.

(** ** Properties *)

(** The contract digest binds the whole contract: two accepted contracts
    with the same digest are the same contract (the authorization artifacts,
    lease, fencing token, epoch, mutation fields and service evidence
    included), unless their canonical texts are an explicit SHA-256
    collision. *)
Lemma contract_digest_binds c1 c2 d1 d2 :
  valid_datetime (ec_expires_at c1) → valid_datetime (ec_expires_at c2) →
  new_ExecutionContract c1 = Ok d1 → new_ExecutionContract c2 = Ok d2 →
  contract_digest d1 = contract_digest d2 →
  d1 = d2 ∨ collision (contract_canonical d1) (contract_canonical d2).
Proof.
  intros V1 V2 (-> & H1 & _)%new_contract_Ok (-> & H2 & _)%new_contract_Ok E.
  destruct (String.string_dec (contract_canonical (ec_with_fields (sort_pairs (ec_mutation_fields c1)) c1))
              (contract_canonical (ec_with_fields (sort_pairs (ec_mutation_fields c2)) c2)))
    as [H|H]; [left|by right].
  apply contract_canonical_inj in H; try done. cbn. congruence.
Qed.
