(* ===== verification/SqlPlans.v ===== *)
(** * SqlPlans: project plans on disk (control_plane/storage/sqlite_store.py)

    [SQLiteProjectPlanStore]: a row per target, updated by compare-and-swap on
    its revision, with a fallback for targets known by a registration.  The
    repository's [execute_plan_mutation] writes the same rows.  Whatever calls
    of both interleave, a stored plan only moves by accepted updates, one
    revision each, and an accepted update starts from the plan stored when it
    commits. *)

From S2P Require Import Prelude PyStr PyTime PyDict PyIso Sha256 Json Models Lifecycle ProjectPlan Contract.
From S2P Require Import Identity Policy AuditLedger AuditBuilders Verification SqlTables SqlRows ActionRepo SqlStore SqlRefine.
From Stdlib Require Import Ascii String ZArith Lia.
From stdpp Require Import base strings gmap relations list.

Local Open Scope string_scope.
Local Open Scope Z_scope.
Local Open Scope aipm_scope.

(** ** SQLiteProjectPlanStore *)

Definition plan_of (target_id : string) (r : plan_row) : bool := str_eqb (pl_target_id r) target_id.

Definition create (c : circumstances) (p : ProjectPlan) : M database ProjectPlan :=
  assert_ bool_decide (pp_environment p = STAGING) else_raise ProjectPlanError;;
  do_ catchM (transaction c (sql_insert (plan_row_of p)))
    (λ e, match e with
          | IntegrityError => Some (raiseM PlanConflict)
          | SqliteError => Some (raiseM ProjectPlanError)
          | _ => None
          end);;
  retM p.

(** [datetime.fromisoformat(text)], with the instant it names; a text without
    an offset, which the store never writes, stands for its clock reading. *)
Definition instant_read (text : string) : result datetime :=
  let* d := fromisoformat text in Ok (iso_local d - default 0 (iso_offset d)).

(** The plan of a target that has only a registration. *)
Definition plan_of_registration (r : registration_row) : result ProjectPlan :=
  let* created_at := instant_read (gn_registered_at r) in
  let* updated_at := if str_nonempty (gn_updated_at r) then instant_read (gn_updated_at r) else Ok created_at in
  Ok {| pp_target_id := gn_target_id r;
        pp_environment := if str_eqb (gn_environment r) "production" then PRODUCTION else STAGING;
        pp_revision := 1; pp_title := "Project plan for " ++ gn_target_id r;
        pp_objective := "Manage registered project " ++ gn_target_id r ++ " in " ++ gn_environment r;
        pp_created_at := created_at; pp_updated_at := updated_at;
        pp_enabled := str_eqb (gn_status r) "REGISTERED"; pp_canonical_digest := gn_registration_digest r |}.

(** [ORDER BY registered_at DESC] *)
Definition registered_geb (a b : registration_row) : bool :=
  match String.compare (gn_registered_at a) (gn_registered_at b) with Lt => false | _ => true end.

Definition read (c : circumstances) (target_id : string) : M database ProjectPlan :=
  do row <- sql_select_one (plan_of target_id);;
  match row with
  | Some r => liftM (plan_row_to_domain r)
  | None =>
      do_ gap c 2;;
      do l <- sql_select (λ r, str_eqb (gn_target_id r) target_id);;
      match order_by registered_geb l with
      | r :: _ => liftM (plan_of_registration r)
      | [] => raiseM ProjectPlanError
      end
  end.

Definition update (c : circumstances) (target_id : string) (expected_revision : Z) (fields : gmap string string)
    (now : datetime) : M database ProjectPlan :=
  do current <- read c target_id;;
  do updated <- liftM (pp_update current expected_revision fields now);;
  do_ or_sqlite ProjectPlanError (transaction c (
    do n <- sql_update (λ r, plan_of target_id r && (pl_revision r =? expected_revision)) (rewrite_plan updated);;
    one_row PlanConflict n));;
  retM updated.

(** ** Rows *)

Definition plan_advances (p p' : ProjectPlan) : Prop := ∃ rev fields now, pp_update p rev fields now = Ok p'.

Lemma plan_update_Ok p rev fs now p' : pp_update p rev fs now = Ok p' →
  rev = pp_revision p ∧ pp_revision p' = rev + 1 ∧ pp_target_id p' = pp_target_id p ∧
  pp_environment p' = pp_environment p ∧ pp_created_at p' = pp_created_at p ∧ pp_enabled p' = pp_enabled p ∧
  pp_updated_at p' = now ∧ pp_digest p' = pp_canonical_digest p'.
Proof.
  unfold pp_update. intros H. inv_ok.
  match goal with H : (_ =? _) = true |- _ => apply Z.eqb_eq in H; subst end. done.
Qed.

Lemma plan_row_Ok r p : plan_row_to_domain r = Ok p →
  pp_target_id p = pl_target_id r ∧ pp_revision p = pl_revision r ∧ pp_digest p = pp_canonical_digest p ∧ 1 ≤ pp_revision p.
Proof.
  unfold plan_row_to_domain. intros H. apply rbind_Ok in H as (q & Hq & H). rewrite or_corrupt_Ok in Hq. inv_ok.
  match goal with H : _ || _ = false |- _ =>
    apply orb_false_iff in H as [?%Z.ltb_ge Hd%negb_false_iff] end.
  by apply bool_decide_eq_true in Hd.
Qed.

(** Writing an accepted update makes the row read as the updated plan. *)
Lemma rewritten_row r p rev fs now p' : plan_row_to_domain r = Ok p → pp_update p rev fs now = Ok p' →
  valid_datetime now → plan_row_to_domain (rewrite_plan p' r) = Ok p'.
Proof.
  intros Hr Hu Hnow. pose proof (plan_row_Ok _ _ Hr) as (_ & _ & _ & Hrev).
  pose proof (plan_update_Ok _ _ _ _ _ Hu) as (-> & Hr' & Ht & He & Hc & Hen & Hn & Hd).
  unfold plan_row_to_domain in *. apply rbind_Ok in Hr as (q & Hq & H). rewrite or_corrupt_Ok in Hq. inv_ok.
  cbn [rewrite_plan pl_environment pl_created_at pl_updated_at pl_revision pl_target_id pl_title pl_objective
       pl_enabled pl_canonical_digest] in *.
  repeat match goal with E : _ = Ok _ |- _ => rewrite E; clear E; cbn [rbind] end.
  rewrite parse_isoformat by done. cbn [rbind or_corrupt].
  cbn [pp_target_id pp_environment pp_created_at pp_enabled] in *.
  match goal with |- context [pp_digest ?x] => assert (x = p') as -> by (destruct p'; cbn in *; congruence) end.
  rewrite Hd. unfold str_eqb. rewrite bool_decide_true by done. rewrite (proj2 (Z.ltb_ge _ _)) by lia. done.
Qed.

(** What calls do to a row: nothing, or accepted updates. *)
Definition plan_step (r r' : plan_row) : Prop :=
  r = r' ∨
  pl_target_id r' = pl_target_id r ∧ pl_revision r < pl_revision r' ∧
  ∃ p p', plan_row_to_domain r = Ok p ∧ plan_row_to_domain r' = Ok p' ∧ rtc plan_advances p p'.
#[export] Instance plan_step_preorder : PreOrder plan_step.
Proof.
  split; [by left|]. intros r1 r2 r3 [->|(T1 & V1 & p1 & p2 & R1 & R2 & A1)]; [done|].
  intros [<-|(T2 & V2 & q1 & q2 & S1 & S2 & A2)]; right.
  - split_and!; [done|done|]. by exists p1, p2.
  - split_and!; [congruence|lia|]. exists p1, q2. assert (q1 = p2) as -> by congruence. split_and!; [done|done|]. by etrans.
Qed.
Lemma plan_step_target r r' : plan_step r r' → pl_target_id r' = pl_target_id r.
Proof. by intros [->|[? _]]. Qed.
Lemma plan_step_same r r' : plan_step r r' → pl_revision r' = pl_revision r → r' = r.
Proof. intros [->|(_ & ? & _)]; [done|lia]. Qed.
Lemma plan_step_progress r r' p : plan_step r r' → plan_row_to_domain r = Ok p →
  ∃ p', plan_row_to_domain r' = Ok p' ∧ rtc plan_advances p p'.
Proof.
  intros [->|(_ & _ & q & p' & R & R' & A)] H; [exists p; split; [done|apply rtc_refl]|].
  assert (q = p) as -> by congruence. eauto.
Qed.

Definition plans_ok (s : database) : Prop := NoDup (List.map pl_target_id (db_plans s)).
Definition plan_safe (s s' : database) : Prop := plans_ok s → plans_ok s' ∧ grown plan_step (db_plans s) (db_plans s').
#[export] Instance plan_safe_preorder : PreOrder plan_safe.
Proof.
  split; [by intros s Hs; split|]. intros a b d H1 H2 Ha. destruct (H1 Ha) as [Hb L1]. destruct (H2 Hb) as [Hd L2].
  split; [done|]. by etrans.
Qed.
Lemma same_plans s s' : db_plans s' = db_plans s → plan_safe s s'.
Proof. intros E Hs. unfold plans_ok. by rewrite E. Qed.

(** The row and the plan stored for a target. *)
Definition plan_row_at (target_id : string) (s : database) : option plan_row := List.find (plan_of target_id) (db_plans s).
Definition plan_at (target_id : string) (s : database) : option ProjectPlan :=
  match plan_row_at target_id s with
  | Some r => match plan_row_to_domain r with Ok p => Some p | Raise _ => None end
  | None => None
  end.

Lemma plan_row_elem t s r : plan_row_at t s = Some r → r ∈ db_plans s ∧ pl_target_id r = t.
Proof. intros [H1 H2]%List.find_some. split; [by apply list_elem_of_In|]. by apply bool_decide_eq_true in H2. Qed.
Lemma plan_row_unique t s r : plans_ok s → r ∈ db_plans s → pl_target_id r = t → plan_row_at t s = Some r.
Proof.
  intros Hn Hr Ht. destruct (plan_row_at t s) as [x|] eqn:E.
  - apply plan_row_elem in E as [Hx Hxt]. f_equal. apply (NoDup_map_inj _ _ _ _ Hn); [done..|congruence].
  - exfalso. apply list_elem_of_In in Hr. apply (List.find_none _ _ E) in Hr. by apply bool_decide_eq_false in Hr.
Qed.
Lemma later_plan t s s' r : plan_safe s s' → plans_ok s → plan_row_at t s = Some r →
  ∃ r', plan_row_at t s' = Some r' ∧ plan_step r r'.
Proof.
  intros Hs Hok [Hr Ht]%plan_row_elem. destruct (Hs Hok) as [Hok' G].
  destruct (grown_elem _ _ _ _ G Hr) as (r' & Hr' & Hst). exists r'. split; [|done].
  apply plan_row_unique; [done..|]. by rewrite (plan_step_target _ _ Hst).
Qed.

(** The compare-and-swap of a row read before the transaction. *)
Lemma rewrite_safe t s s1 r p rev fs now p' : plan_safe s s1 → plans_ok s → plan_row_at t s = Some r →
  plan_row_to_domain r = Ok p → pp_update p rev fs now = Ok p' → valid_datetime now →
  keeps_from plan_safe s1 (sql_update (λ x, plan_of t x && (pl_revision x =? rev)) (rewrite_plan p')).
Proof.
  intros Hs Hok Hr Hp Hu Hnow s' x [= <- _] Hok1. destruct (later_plan _ _ _ _ Hs Hok Hr) as (r1 & Hr1 & Hst).
  pose proof (plan_update_Ok _ _ _ _ _ Hu) as (-> & Hrev & _). pose proof (plan_row_Ok _ _ Hp) as (_ & Hpr & _ & _).
  assert (∀ y, y ∈ db_plans s1 → plan_step y (if plan_of t y && (pl_revision y =? pp_revision p) then rewrite_plan p' y else y)) as Hy.
  { intros y Hin. destruct (plan_of t y) eqn:Et; [|by left]. destruct (_ =? _) eqn:Ev; cbn [andb]; [|by left].
    apply bool_decide_eq_true in Et. apply Z.eqb_eq in Ev.
    rewrite (plan_row_unique t _ y Hok1 Hin Et) in Hr1. injection Hr1 as <-.
    assert (y = r) as -> by (apply (plan_step_same _ _ Hst); congruence).
    right. cbn [pl_target_id pl_revision rewrite_plan]. split_and!; [done|lia|]. exists p, p'.
    split_and!; [done|by eapply rewritten_row|]. apply rtc_once. by eexists _, _, _. }
  split; cbn.
  - unfold plans_ok. cbn. rewrite List.map_map. erewrite List.map_ext_in; [exact Hok1|].
    intros y Hin%list_elem_of_In. by apply plan_step_target, Hy.
  - by apply grown_map.
Qed.

(** ** Calls *)

Lemma frame_insert_plans {R} `{SqlTable R} (r : R) s : (∀ l, db_plans (set_rows l s) = db_plans s) →
  keeps_from plan_safe s (sql_insert r).
Proof.
  intros Hf s' x. unfold sql_insert, bindM, getM, liftM, putM. destruct (raise_unless _ _); intros [= <- _];
    [apply same_plans, Hf|done].
Qed.
Lemma frame_replace_plans {R} `{SqlTable R} (r : R) s : (∀ l, db_plans (set_rows l s) = db_plans s) →
  keeps_from plan_safe s (sql_replace r).
Proof.
  intros Hf s' x. unfold sql_replace, bindM, getM, liftM, putM. destruct (raise_unless _ _); intros [= <- _];
    [apply same_plans, Hf|done].
Qed.
Lemma frame_update_plans {R} `{SqlTable R} p (f : R → R) s : (∀ l, db_plans (set_rows l s) = db_plans s) →
  keeps_from plan_safe s (sql_update p f).
Proof. intros Hf s' x [= <- _]. apply same_plans, Hf. Qed.
Lemma insert_plan_safe r s : keeps_from plan_safe s (sql_insert (R := plan_row) r).
Proof.
  intros s' x. unfold sql_insert, bindM, getM, liftM, putM.
  destruct (fresh_key r s && admits r s) eqn:E; cbn [raise_unless]; [|by intros [= <- _]].
  apply andb_true_iff in E as [E _]. apply fresh_key_spec in E. intros [= <- _] Hok. split; cbn.
  - unfold plans_ok. cbn. rewrite List.map_app. apply NoDup_app. split_and!; [done| |apply NoDup_singleton].
    intros y Hy ->%list_elem_of_singleton. by apply E.
  - apply grown_app. apply _.
Qed.

Definition quiet_plans (c : circumstances) : Prop := ∀ k t, plan_safe t (cc_others c k t).

Inductive plan_call :=
  | PCreate (p : ProjectPlan)
  | PUpdate (target_id : string) (expected_revision : Z) (fields : gmap string string) (now : datetime)
  | PRepository (q : sql_call).

(** An update of a target that has a plan of its own, at a time of the
    calendar. *)
Definition own_plan (t : string) (s : database) : Prop := is_Some (plan_row_at t s).
Definition plan_timely (q : plan_call) (s : database) : Prop :=
  match q with
  | PUpdate t _ _ now => own_plan t s ∧ valid_datetime now
  | PRepository (QExecute _ _ _ _ (Some now) _) => valid_datetime now
  | _ => True
  end.

Section calls.
Context (append_row : AuditEventDraft → M database unit).

Definition run_plan_call (c : circumstances) (q : plan_call) : M database unit :=
  match q with
  | PCreate p => ignore (create c p)
  | PUpdate t rev fs now => ignore (update c t rev fs now)
  | PRepository q => run_sql_call append_row c q
  end.

Context `{!EvidenceSink append_row}.

Lemma append_evidence_plans ds : ∀ s, keeps_from plan_safe s (SqlStore.append_evidence append_row ds).
Proof.
  induction ds as [|d ds IH]; intros s; [by intros s' r [= <- _]|]. cbn [SqlStore.append_evidence].
  apply keeps_from_bind; [apply _| |intros; apply IH].
  intros s' r H. apply sink_frame in H as ->. by apply same_plans.
Qed.

Lemma ignore_keeps {A} (R : database → database → Prop) `{!PreOrder R} (m : M database A) s :
  keeps_from R s m → keeps_from R s (ignore m).
Proof. intros Hm. apply keeps_from_bind; [apply _|done|]. by intros a s1 _ _ s' r [= <- _]. Qed.

(** Everything but the plan statements. *)
Ltac plan_step :=
  first
    [ apply append_evidence_plans
    | apply frame_insert_plans; by intros
    | apply frame_replace_plans; by intros
    | apply frame_update_plans; by intros
    | apply ignore_keeps; [apply _|]
    | apply keeps_from_or_sqlite; [apply _|]
    | apply keeps_from_transaction; [apply _|assumption|intros ? _]
    | apply keeps_from_catch; [apply _| |intros ? ? ? ?; simplify_eq]
    | apply keeps_from_bind; [apply _| |intros ? ? _ _]
    | apply keeps_from_reads; [apply _|solve [solve_atomic]]
    | match goal with H : quiet_plans ?c |- keeps_from plan_safe _ (gap ?c _) => intros ? ? [= <- _]; apply H end
    | match goal with |- keeps_from plan_safe _ (match ?x with _ => _ end) => destruct x eqn:? end ].

Lemma plans_from_ok {A} (s : database) (m : M database A) : (plans_ok s → keeps_from plan_safe s m) → keeps_from plan_safe s m.
Proof. intros H s' r Hm Hok. by eapply H. Qed.

(** The write of a plan row read before the transaction, and what follows it. *)
Lemma swap_plans {A} t s s1 r p rev fs now p' (k : Z → M database A) : plan_safe s s1 → plans_ok s →
  plan_row_at t s = Some r → plan_row_to_domain r = Ok p → pp_update p rev fs now = Ok p' → valid_datetime now →
  (∀ n s2, keeps_from plan_safe s2 (k n)) →
  keeps_from plan_safe s1 (bindM (sql_update (λ x, plan_of t x && (pl_revision x =? rev)) (rewrite_plan p')) k).
Proof.
  intros Hs Hok Hr Hp Hu Hnow Hk. apply keeps_from_bind; [apply _|by eapply rewrite_safe|]. intros n s2 _ _. apply Hk.
Qed.

Lemma execute_plans c id v rev fs now ds s : quiet_plans c →
  match now with Some t => valid_datetime t | None => True end →
  keeps_from plan_safe s (SqlStore.execute_plan_mutation append_row c id v rev fs now ds).
Proof.
  intros Hc Hnow. unfold SqlStore.execute_plan_mutation, move.
  do 3 (apply keeps_from_bind; [apply _|apply keeps_from_reads; [apply _|solve [solve_atomic]]|intros ? ? _ _]).
  apply keeps_from_bind; [apply _|intros ? ? [= <- _]; apply Hc|]. intros _ ? _ _. apply plans_from_ok. intros Hok.
  apply keeps_from_bind; [apply _|by intros ? ? [= <- _]|]. intros row ? [= <- Hrow] _.
  destruct row as [r|]; [|by intros ? ? [= <- _]].
  apply keeps_from_bind; [apply _|by intros ? ? [= <- _]|]. intros p ? [= <- Hp] _.
  apply keeps_from_bind; [apply _|by intros ? ? [= <- _]|]. intros p' ? [= <- Hu] _.
  destruct now as [t|]; cbn [update_plan] in Hu; [|by destruct (pp_update p rev fs 0)].
  apply keeps_from_bind; [apply _|by intros ? ? [= <- _]|]. intros a' ? [= <- _] _.
  plan_step; [|plan_step]. apply keeps_from_or_sqlite; [apply _|].
  apply keeps_from_transaction; [apply _|done|]. intros ? Hs3.
  eapply swap_plans; [exact Hs3|exact Hok|exact Hrow|exact Hp|exact Hu|exact Hnow|].
  intros ? ?. repeat plan_step.
Qed.

Lemma repository_plans c q s : quiet_plans c →
  match q with QExecute _ _ _ _ (Some t) _ => valid_datetime t | _ => True end →
  keeps_from plan_safe s (run_sql_call append_row c q).
Proof.
  intros Hc Ht. destruct q; cbn [run_sql_call].
  9: apply ignore_keeps; [apply _|by apply execute_plans].
  all: unfold SqlStore.register_action, insert_registration, SqlStore.advance_action, capture_snapshot_and_advance,
    SqlStore.mark_outcome, SqlStore.bind_contract_evidence, SqlStore.acquire_lease, SqlStore.release_lease,
    SqlStore.begin_execution, SqlStore.record_verification_outcome, SqlStore.mark_reconciled,
    SqlStore.advance_rollback_state, SqlStore.put_confirmation, SqlStore.record_confirmation_with_advance,
    SqlStore.save_verification, upsert_confirmation, move; repeat plan_step.
  destruct e; simplify_eq; repeat plan_step.
Qed.

Lemma read_own c t s s' p : own_plan t s → read c t s = (s', Ok p) →
  s' = s ∧ ∃ r, plan_row_at t s = Some r ∧ plan_row_to_domain r = Ok p.
Proof.
  intros [r Hr] H. unfold read, sql_select_one in H. apply bindM_Ok in H as (s1 & row & [= <- <-] & H).
  cbn [rows plans_table] in H. fold (plan_row_at t s) in H. rewrite Hr in H. unfold liftM in H.
  injection H as <- H. eauto.
Qed.
Lemma read_keeps c t s : quiet_plans c → keeps_from plan_safe s (read c t).
Proof. intros Hc. unfold read. repeat plan_step. Qed.

Lemma update_plans c t rev fs now s : quiet_plans c → own_plan t s → valid_datetime now →
  keeps_from plan_safe s (update c t rev fs now).
Proof.
  intros Hc Hown Hnow. unfold update. apply plans_from_ok. intros Hok.
  apply keeps_from_bind; [apply _|by apply read_keeps|]. intros p s1 Hr _.
  apply read_own in Hr as (-> & r & Hr & Hp); [|done].
  apply keeps_from_bind; [apply _|by intros ? ? [= <- _]|]. intros p' ? [= <- Hu] _.
  plan_step; [|plan_step]. apply keeps_from_or_sqlite; [apply _|].
  apply keeps_from_transaction; [apply _|done|]. intros ? Hs3.
  eapply swap_plans; [exact Hs3|exact Hok|exact Hr|exact Hp|exact Hu|exact Hnow|].
  intros ? ?. repeat plan_step.
Qed.

Lemma run_plan_call_safe c q s : quiet_plans c → plan_timely q s → keeps_from plan_safe s (run_plan_call c q).
Proof.
  intros Hc Ht. destruct q as [p|t rev fs now|q]; cbn [run_plan_call plan_timely] in *.
  - unfold create. plan_step. plan_step; [plan_step|]. plan_step; [|plan_step].
    apply keeps_from_catch; [apply _| |intros ? [] ? [= <-]; plan_step].
    apply keeps_from_transaction; [apply _|done|]. intros ? _. apply insert_plan_safe.
  - apply ignore_keeps; [apply _|]. destruct Ht. by apply update_plans.
  - apply repository_plans; [done|]. by destruct q.
Qed.

(** Calls on plans of any number of connections; the other stores do not touch
    the table. *)
Inductive plan_histories : database → database → Prop :=
  | ph_done s : plan_histories s s
  | ph_call c q s s1 r s' : (∀ k t, plan_histories t (cc_others c k t)) → plan_timely q s →
      run_plan_call c q s = (s1, r) → plan_histories s1 s' → plan_histories s s'
  | ph_other s s1 s' : db_plans s1 = db_plans s → plan_histories s1 s' → plan_histories s s'.

Lemma plan_histories_safe s s' : plan_histories s s' → plan_safe s s'.
Proof.
  induction 1 as [s|c q s s1 r s' _ IHc Ht Hq _ IH|s s1 s' Hs _ IH]; [done|..].
  - etrans; [|exact IH]. exact (run_plan_call_safe c q s IHc Ht _ _ Hq).
  - etrans; [|exact IH]. by apply same_plans.
Qed.
End calls.

(** ** Properties *)

(** A stored plan only moves by accepted updates.  Whatever plan updates,
    executed mutations and other calls of any number of connections interleave,
    a target keeps its row, and the plan it reads as is reached from the one
    stored before by accepted updates, each of the next revision. *)
Lemma plans_follow_updates append_row `{!EvidenceSink append_row} s s' t p :
  plan_histories append_row s s' → plans_ok s → plan_at t s = Some p →
  ∃ p', plan_at t s' = Some p' ∧ rtc plan_advances p p' ∧ pp_digest p' = pp_canonical_digest p'.
Proof.
  intros H Hok Hp. unfold plan_at in *. destruct (plan_row_at t s) as [r|] eqn:Hr; [|done].
  destruct (plan_row_to_domain r) as [q|] eqn:Hd; [|done]. injection Hp as ->.
  destruct (later_plan _ _ _ _ (plan_histories_safe _ _ _ H) Hok Hr) as (r' & -> & Hst).
  destruct (plan_step_progress _ _ _ Hst Hd) as (p' & Hd' & Hadv). rewrite Hd'. exists p'.
  by apply plan_row_Ok in Hd' as (_ & _ & ? & _).
Qed.

(** C23: No lost update.  An accepted update of a plan was computed from the plan
    stored when its transaction began, at the revision the caller expected, and
    is what the database holds when it returns, whatever the other connections
    did between its read and its transaction. *)
Theorem durable_update_not_lost append_row `{!EvidenceSink append_row} c t rev fs now s s' p' :
  plans_ok s → (∀ k u, plan_histories append_row u (cc_others c k u)) → own_plan t s → valid_datetime now →
  update c t rev fs now s = (s', Ok p') →
  ∃ p, plan_at t (cc_others c 0 s) = Some p ∧ pp_revision p = rev ∧ pp_update p rev fs now = Ok p' ∧
    plan_at t s' = Some p'.
Proof.
  intros Hok Hc Hown Hnow H. unfold update in H. apply bindM_Ok in H as (s1 & p & Hr & H).
  apply (read_own c) in Hr as (-> & r & Hr & Hp); [|done].
  apply bindM_Ok in H as (s2 & q & [= <- Hu] & H). apply bindM_Ok in H as (s3 & [] & H & [= <- <-]).
  apply or_sqlite_Ok, transaction_Ok, bindM_Ok in H as (s4 & n & [= <- <-] & H). cbn [rows plans_table] in H.
  unfold one_row in H. apply liftM_raise_unless_Ok in H as [Hn ->].
  pose proof (plan_update_Ok _ _ _ _ _ Hu) as (-> & _). pose proof (plan_row_Ok _ _ Hp) as (_ & Hpr & _ & _).
  assert (plan_safe s (cc_others c 0 s)) as Hs by by apply (plan_histories_safe append_row).
  destruct (Hs Hok) as [Hok0 _]. destruct (later_plan _ _ _ _ Hs Hok Hr) as (r0 & Hr0 & Hst).
  assert (∃ y, y ∈ db_plans (cc_others c 0 s) ∧ plan_of t y = true ∧ pl_revision y = pp_revision p) as (y & Hy & Hyt & Hyr).
  { destruct (List.filter _ _) as [|y l] eqn:E in Hn; [done|]. exists y.
    assert (List.In y (y :: l)) as Hin by by left. rewrite <- E in Hin.
    apply List.filter_In in Hin as [Hin [? ?%Z.eqb_eq]%andb_true_iff]. by rewrite list_elem_of_In. }
  pose proof Hyt as Hyt'. apply bool_decide_eq_true in Hyt'.
  rewrite (plan_row_unique t _ y Hok0 Hy Hyt') in Hr0. injection Hr0 as <-.
  assert (y = r) as -> by (apply (plan_step_same _ _ Hst); congruence).
  exists p. unfold plan_at at 1. rewrite (plan_row_unique t _ r Hok0 Hy Hyt'), Hp. split_and!; [done..|].
  unfold plan_at. rewrite (plan_row_unique t _ (rewrite_plan q r)).
  - by rewrite (rewritten_row _ _ _ _ _ _ Hp Hu Hnow).
  - unfold plans_ok. cbn. rewrite List.map_map. erewrite List.map_ext; [exact Hok0|]. intros x. by destruct (_ && _).
  - cbn. apply list_elem_of_In, List.in_map_iff. exists r. rewrite Hyt. cbn [andb]. rewrite (proj2 (Z.eqb_eq _ _)) by done.
    split; [done|]. by apply list_elem_of_In.
  - done.
Qed.
