(* ===== verification/SqlSwitches.v ===== *)
(** * SqlSwitches: kill switches, leases, snapshots and verifications on disk
    (control_plane/storage/sqlite_store.py)

    [SQLiteKillSwitchStore] keeps a row per environment, rewritten in place with
    its evidence in the same transaction; [SQLiteLeaseRepository],
    [SQLitePlanSnapshotRepository] and the queries of
    [SQLiteVerificationRepository] are the stores behind the repository.  The
    durable switches are the in-memory ones.

    Whatever the tables hold, a read answers nothing, a value its constructor
    accepts with the integrity checks it carries, or the storage error: no row
    reaches a caller as a half-built value or as a bare Python exception. *)

From S2P Require Import Prelude PyStr PyDict PyTime Sha256 Json JsonParse PyIso Models SqlTables Lifecycle.
From S2P Require Import ProjectPlan Identity Policy AuditLedger AuditBuilders KillSwitch Verification SqlRows ActionRepo SqlStore.
From S2P Require Import SqlRefine.
From Stdlib Require Import Ascii String ZArith Lia.
From stdpp Require Import base strings gmap list.

Local Open Scope string_scope.
Local Open Scope Z_scope.
Local Open Scope aipm_scope.

(** ** SQLiteKillSwitchStore *)

Definition switch_row_of (k : KillSwitch) (epoch : Z) (actor_subject : option string) : switch_row :=
  {| kr_environment := value (ks_environment k); kr_state := value (ks_state k); kr_epoch := epoch;
     kr_reason := ks_reason k; kr_actor_subject := actor_subject; kr_created_at := isoformat (ks_created_at k);
     kr_updated_at := isoformat (ks_updated_at k) |}.

(** [_record_from_row] *)
Definition switch_from_row (r : switch_row) : result KillSwitch :=
  or_corrupt (
    let* environment := enum_of (kr_environment r) in
    let* state := enum_of (kr_state r) in
    let* created_at := parse_timestamp (kr_created_at r) in
    let* updated_at := parse_timestamp (kr_updated_at r) in
    check_KillSwitch
      {| ks_environment := environment; ks_state := state; ks_reason := kr_reason r; ks_created_at := created_at;
         ks_updated_at := updated_at; ks_epoch := kr_epoch r; ks_actor_subject := kr_actor_subject r |}).

Definition switch_of (e : string) (r : switch_row) : bool := str_eqb (kr_environment r) e.

(** [ON CONFLICT(environment) DO UPDATE SET …]: the creation time stays. *)
Definition overwrite (x r : switch_row) : switch_row :=
  {| kr_environment := kr_environment r; kr_state := kr_state x; kr_epoch := kr_epoch x; kr_reason := kr_reason x;
     kr_actor_subject := kr_actor_subject x; kr_created_at := kr_created_at r; kr_updated_at := kr_updated_at x |}.
Definition sql_upsert_switch (x : switch_row) : M database unit :=
  do db <- getM;;
  if List.existsb (switch_of (kr_environment x)) (db_switches db) then
    do _n <- sql_update (switch_of (kr_environment x)) (overwrite x);; retM ()
  else sql_insert x.

Definition record_for (e : Environment) : M database (option KillSwitch) :=
  do row <- sql_select_one (switch_of (value e));;
  match row with
  | None => retM None
  | Some r => do k <- liftM (switch_from_row r);; retM (Some k)
  end.
Definition records : M database (list KillSwitch) :=
  do l <- sql_select (λ _ : switch_row, true);; liftM (rmap switch_from_row l).

(** [_seed_kill_switch_defaults], one statement. *)
Definition seed_row (environment state : string) (now : datetime) : switch_row :=
  {| kr_environment := environment; kr_state := state; kr_epoch := 1; kr_reason := ""; kr_actor_subject := None;
     kr_created_at := isoformat now; kr_updated_at := isoformat now |}.
Definition insert_or_ignore (x : switch_row) : M database unit :=
  do db <- getM;;
  if fresh_key x db then sql_insert x else retM ().
Definition seed_kill_switch_defaults (now : datetime) : M database unit :=
  do_ insert_or_ignore (seed_row "staging" "engaged" now);;
  insert_or_ignore (seed_row "production" "permanent" now).

Section stores.
Context (append_row : AuditEventDraft → M database unit).

Definition save_switch (c : circumstances) (k : KillSwitch) (epoch : Z) (actor_subject : option string)
    (drafts : list AuditEventDraft) : M database unit :=
  or_sqlite corrupt (transaction c (
    do_ sql_upsert_switch (switch_row_of k epoch actor_subject);;
    SqlStore.append_evidence append_row drafts)).

(** ** Leases, snapshots, verifications *)

Definition save_lease (c : circumstances) (l : ExecutionLease) : M database unit :=
  or_sqlite corrupt (transaction c (sql_replace (lease_row_of l))).

(** [[self.get(row[…]) for row in rows]], without the missing ones. *)
Fixpoint get_all {A} (get : string → M database (option A)) (ids : list string) : M database (list A) :=
  match ids with
  | [] => retM []
  | id :: ids' =>
      do x <- get id;;
      do xs <- get_all get ids';;
      retM (match x with Some a => a :: xs | None => xs end)
  end.

Definition leases_for_action (id : string) : M database (list ExecutionLease) :=
  do l <- sql_select (λ r, str_eqb (lr_action_id r) id);;
  get_all get_lease (List.map lr_lease_id l).

Definition save_snapshot (c : circumstances) (sn : PlanSnapshot) : M database PlanSnapshot :=
  do_ or_sqlite corrupt (transaction c (sql_insert (snapshot_row_of sn)));;
  retM sn.
Definition get_snapshot (id : string) : M database (option PlanSnapshot) :=
  do row <- sql_select_one (λ r, str_eqb (sr_snapshot_id r) id);;
  match row with
  | None => retM None
  | Some r => do sn <- liftM (snapshot_from_row r);; retM (Some sn)
  end.
Definition text_leb (a b : string) : bool := match String.compare a b with Gt => false | _ => true end.
Definition snapshots_for_target (id : string) : M database (list PlanSnapshot) :=
  do l <- sql_select (λ r, str_eqb (sr_target_id r) id);;
  get_all get_snapshot (List.map sr_snapshot_id (order_by (λ a b, text_leb (sr_captured_at a) (sr_captured_at b)) l)).
Definition snapshot_for_action (c : circumstances) (id : string) : M database (option PlanSnapshot) :=
  do l <- sql_select (λ r, bool_decide (sr_action_id r = Some id));;
  match order_by (λ a b, text_leb (sr_captured_at b) (sr_captured_at a)) l with
  | [] => retM None
  | r :: _ => do_ gap c 1;; get_snapshot (sr_snapshot_id r)
  end.

Definition records_for_action (id : string) : M database (list StoredVerificationRecord) :=
  do l <- sql_select (λ r, str_eqb (vw_action_id r) id);;
  get_all SqlStore.get_verification
    (List.map vw_verification_id (order_by (λ a b, text_leb (vw_observed_at a) (vw_observed_at b)) l)).
Definition verification_count : M database Z := sql_count (R := verification_row).

(** ** The durable switches are the in-memory ones *)

(** The switch both stores keep of a save. *)
Definition saved (k : KillSwitch) (epoch : Z) (actor : option string) : KillSwitch :=
  {| ks_environment := ks_environment k; ks_state := ks_state k; ks_reason := ks_reason k;
     ks_created_at := ks_created_at k; ks_updated_at := ks_updated_at k; ks_epoch := epoch; ks_actor_subject := actor |}.

Lemma switch_round_trip k epoch actor :
  valid_datetime (ks_created_at k) → valid_datetime (ks_updated_at k) →
  check_KillSwitch (saved k epoch actor) = Ok (saved k epoch actor) →
  switch_from_row (switch_row_of k epoch actor) = Ok (saved k epoch actor).
Proof.
  intros V1 V2 Hc. unfold switch_from_row, switch_row_of. apply or_corrupt_Ok. cbn -[value check_KillSwitch].
  by rewrite !enum_value, !parse_isoformat.
Qed.

(** [KillSwitchRegistry] on the durable store. *)
Section registry.
Context (audited : bool) (c : circumstances).

Definition durable_change (st : KillSwitchState) (e : Environment) (reason : string) (now : option datetime)
    (actor : option string) (rid : string) (clock : datetime) : M database KillSwitch :=
  do found <- record_for e;;
  do k <- match found with Some k => retM k | None => liftM (default_switch e clock) end;;
  assert_ negb (bool_decide (ks_state k = PERMANENT)) else_raise KillSwitchError;;
  do reason <- liftM (ks_check_reason reason);;
  do updated <- liftM (check_KillSwitch (changed st k reason now actor clock));;
  do drafts <- liftM (ks_audit_drafts audited rid clock updated (ks_state k) actor);;
  do_ save_switch c updated (ks_epoch updated) actor drafts;;
  retM updated.
Definition run_durable_switch (q : switch_call) : M database KillSwitch :=
  match q with
  | SEngage e reason now actor rid clock => durable_change ENGAGED e reason now actor rid clock
  | SDisengage e reason now actor rid clock =>
      assert_ negb (bool_decide (e = PRODUCTION)) else_raise KillSwitchError;;
      durable_change DISENGAGED e reason now actor rid clock
  end.
End registry.

(** The table holds the switches of a dictionary, each under its environment. *)
Record holds_switches (m : dict Environment KillSwitch) (db : database) : Prop := {
  hw_records : ∀ e, record_for e db = (db, Ok (dget e m));
  hw_environment : ∀ e k, dget e m = Some k → ks_environment k = e;
}.
Definition plain (m : dict Environment KillSwitch) : kill_store := {| kst_records := m; kst_audit := None |}.

Lemma find_map_same {A} (p : A → bool) (f : A → A) l : (∀ x, p (f x) = p x) →
  List.find p (List.map f l) = f <$> List.find p l.
Proof.
  intros Hp. induction l as [|x l IH]; [done|]. cbn [List.map List.find]. rewrite Hp. by destruct (p x).
Qed.
Lemma find_app {A} (p : A → bool) l x : List.find p (l ++ [x]) =
  match List.find p l with Some y => Some y | None => if p x then Some x else None end.
Proof. induction l as [|y l IH]; [done|]. cbn. by destruct (p y). Qed.

Definition row_for (e : Environment) (db : database) : option switch_row := List.find (switch_of (value e)) (db_switches db).
Lemma record_for_row e db : record_for e db =
  (db, match row_for e db with
       | Some r => match switch_from_row r with Ok k => Ok (Some k) | Raise x => Raise x end
       | None => Ok None
       end).
Proof.
  unfold record_for, row_for, sql_select_one, bindM, liftM, retM. cbn [rows switches_table].
  destruct (List.find _ _) as [r|]; [|done]. by destruct (switch_from_row r).
Qed.

Lemma upsert_rows x e db db' u : sql_upsert_switch x db = (db', Ok u) →
  row_for e db' = (if switch_of (value e) x then Some (match row_for e db with Some r => overwrite x r | None => x end)
                   else row_for e db).
Proof.
  intros H. unfold sql_upsert_switch in H. apply bindM_Ok in H as (s1 & d & [= <- <-] & H).
  unfold row_for. destruct (List.existsb _ _) eqn:Ex.
  - apply bindM_Ok in H as (s2 & n & [= <- _] & [= <- _]). cbn [rows set_rows switches_table db_switches].
    set (f := λ r, if switch_of (kr_environment x) r then overwrite x r else r).
    rewrite (find_map_same _ f) by (intros r; unfold f; by destruct (switch_of _ r)).
    destruct (switch_of (value e) x) eqn:Ee; apply bool_decide_eq_true in Ee || apply bool_decide_eq_false in Ee.
    + destruct (List.find (switch_of (value e)) (db_switches db)) as [r|] eqn:Er; cbn.
      * unfold f. apply List.find_some in Er as [_ Er]. by rewrite Ee, Er.
      * exfalso. apply List.existsb_exists in Ex as (r & Hin & Hr). rewrite Ee in Hr.
        by rewrite (List.find_none _ _ Er _ Hin) in Hr.
    + destruct (List.find (switch_of (value e)) (db_switches db)) as [r|] eqn:Er; cbn; [|done].
      unfold f. apply List.find_some in Er as [_ Er]. apply bool_decide_eq_true in Er.
      unfold switch_of, str_eqb. rewrite bool_decide_false; [done|]. congruence.
  - unfold sql_insert in H. apply bindM_Ok in H as (s2 & d & [= <- <-] & H). apply bindM_Ok in H as (s3 & v & Hv & [= <- _]).
    unfold liftM in Hv. injection Hv as <- _. cbn [rows set_rows switches_table db_switches]. rewrite find_app.
    destruct (switch_of (value e) x) eqn:Ee.
    + destruct (List.find (switch_of (value e)) (db_switches db)) as [r|] eqn:Er; [|done].
      exfalso. apply List.find_some in Er as [Hin Er]. apply bool_decide_eq_true in Ee. rewrite <- Ee in Er.
      apply not_true_iff_false in Ex. apply Ex, List.existsb_exists. eauto.
    + by destruct (List.find _ _).
Qed.

Lemma holds_same m db db' : db_switches db' = db_switches db → holds_switches m db → holds_switches m db'.
Proof.
  intros E [Hr He]. split; [|done]. intros e. specialize (Hr e). rewrite record_for_row in *. unfold row_for in *.
  rewrite E. injection Hr as Hr. by rewrite Hr.
Qed.

Context `{!EvidenceSink append_row}.

Lemma append_evidence_switches ds : ∀ s s' r, SqlStore.append_evidence append_row ds s = (s', r) → db_switches s' = db_switches s.
Proof.
  induction ds as [|d ds IH]; intros s s' r H; cbn in H; [by injection H as <- _|].
  unfold bindM in H. destruct (append_row d s) as [s1 [u|x]] eqn:E; apply sink_frame in E.
  - apply IH in H. by rewrite H, E.
  - injection H as <- _. by rewrite E.
Qed.

(** Nobody else changes a switch during the call. *)
Definition alone (c : circumstances) : Prop := ∀ t, db_switches (cc_others c 0 t) = db_switches t.

Lemma save_switch_holds c k ds db db' r m : alone c → holds_switches m db →
  valid_datetime (ks_updated_at k) → check_KillSwitch k = Ok k →
  match dget (ks_environment k) m with
  | Some k0 => ks_created_at k0 = ks_created_at k
  | None => valid_datetime (ks_created_at k)
  end →
  save_switch c k (ks_epoch k) (ks_actor_subject k) ds db = (db', r) →
  holds_switches (match r with Ok _ => dset (ks_environment k) k m | Raise _ => m end) db'.
Proof.
  intros Hc Hm Hup Hk Hcr H. unfold save_switch in H. destruct r as [u|x].
  2: { unfold or_sqlite, catchM in H. destruct (transaction _ _ _) as [s1 [v|y]] eqn:E; [done|].
       apply transaction_Raise in E as ->. apply (holds_same m db); [|done].
       destruct (is_sqlite_error y); injection H as <- _; apply Hc. }
  apply or_sqlite_Ok, transaction_Ok, bindM_Ok in H as (s1 & v & Hu & H). apply append_evidence_switches in H.
  apply (holds_same _ s1); [done|]. clear H db'. assert (holds_switches m (cc_others c 0 db)) as [Hr He]
    by (eapply holds_same; [apply Hc|done]). clear Hm.
  set (db0 := cc_others c 0 db) in *. split.
  2: { intros e k'. rewrite dget_set. destruct (decide _) as [->|]; [by intros [= <-]|apply He]. }
  intros e. specialize (Hr e) as Hre. rewrite record_for_row in *. rewrite (upsert_rows _ e _ _ _ Hu), dget_set.
  unfold switch_of at 1. cbn [kr_environment switch_row_of]. unfold str_eqb.
  destruct (decide (e = ks_environment k)) as [->|Hne].
  2: { rewrite bool_decide_false by (intros Hv; by apply (inj value) in Hv). injection Hre as Hre. by rewrite Hre. }
  rewrite bool_decide_true by done. destruct (row_for _ db0) as [r0|] eqn:Er0.
  - destruct (switch_from_row r0) as [k0|] eqn:Ek0; [|done]. injection Hre as Hre. rewrite <- Hre in Hcr.
    enough (switch_from_row (overwrite (switch_row_of k (ks_epoch k) (ks_actor_subject k)) r0) = Ok k) as -> by done.
    unfold row_for in Er0. apply List.find_some in Er0 as [_ Er0]. apply bool_decide_eq_true in Er0.
    unfold switch_from_row in *. rewrite or_corrupt_Ok in *. cbn -[value check_KillSwitch].
    rewrite Er0, !enum_value in *. cbn [rbind] in *. inv_ok.
    match goal with H : parse_timestamp (kr_created_at r0) = _ |- _ => rewrite H end. cbn [rbind].
    rewrite parse_isoformat by done. cbn [rbind].
    match goal with H : check_KillSwitch _ = Ok k0 |- _ => apply check_KillSwitch_Ok in H as [-> _] end.
    cbn [ks_created_at] in Hcr. rewrite <- Hk. f_equal. destruct k; cbn in *; congruence.
  - injection Hre as Hre. rewrite <- Hre in Hcr.
    rewrite (switch_round_trip k (ks_epoch k) (ks_actor_subject k)); [by destruct k|done..|by destruct k].
Qed.

Lemma durable_change_refines audited c st e reason now actor rid clock m db db' r : st ≠ PERMANENT → alone c →
  holds_switches m db → switches_ok (plain m) →
  valid_datetime clock → match now with Some t => valid_datetime t | None => True end →
  durable_change audited c st e reason now actor rid clock db = (db', r) →
  match r with
  | Ok k => ∃ m', change_to false st e reason now actor rid clock (plain m) = (plain m', Ok k) ∧
      holds_switches m' db' ∧ switches_ok (plain m')
  | Raise _ => holds_switches m db'
  end.
Proof.
  intros Hst Hc Hm Hok Hclk Hnow H. pose proof Hok as [_ Hsw]. destruct (Hsw e) as (k0 & Hk0 & Henv & Hck & _).
  assert (dget e m = Some k0) as Hk by exact Hk0.
  rewrite (change_to_eq false _ _ _ _ _ _ _ _ k0) by done. unfold change_result, ks_audit_drafts.
  pose proof (hw_records _ _ Hm e) as Hr. rewrite Hk in Hr.
  unfold durable_change in H. unfold bindM at 1 in H. rewrite Hr in H. unfold bindM at 1, retM at 1 in H.
  destruct (bool_decide (ks_state k0 = PERMANENT)); cbn [negb raise_unless rbind] in *.
  { apply (f_equal snd) in H as Hx. apply (f_equal fst) in H. cbn in Hx, H. by subst. }
  unfold bindM at 1, liftM at 1 in H. cbn [raise_unless] in H. unfold bindM at 1, liftM at 1 in H.
  destruct (ks_check_reason reason) as [reason'|x]; cbn [rbind]; [|by injection H as <- <-].
  unfold bindM at 1, liftM at 1 in H.
  destruct (check_KillSwitch (changed st k0 reason' now actor clock)) as [k'|x] eqn:Ek; cbn [rbind]; [|by injection H as <- <-].
  pose proof Ek as (-> & _)%check_KillSwitch_Ok.
  set (k' := changed st k0 reason' now actor clock) in *.
  unfold bindM at 1, liftM at 1 in H.
  destruct (ks_audit_drafts audited rid clock k' (ks_state k0) actor) as [ds|x]; [|by injection H as <- <-].
  unfold bindM, retM in H. destruct (save_switch c k' (ks_epoch k') actor ds db) as [db1 r1] eqn:Es.
  change actor with (ks_actor_subject k') in Es.
  apply (save_switch_holds _ _ _ _ _ _ m Hc Hm) in Es; [|subst k'; cbn; by destruct now|done|].
  2: { subst k'. cbn [ks_environment changed]. by rewrite Henv, Hk. }
  destruct r1 as [[]|x]; injection H as <- <-; [|done].
  exists (dset (ks_environment k') k' m). split_and!; [done|done|].
  pose proof Ek as (_ & [?|?] & _)%check_KillSwitch_Ok; [|done]. by apply (put_switch_ok (plain m) k').
Qed.

(** Registry calls in order, each under its circumstances, with their answers. *)
Fixpoint run_durable_switches (audited : bool) (cs : list (circumstances * switch_call)) (db : database)
  : database * list (result KillSwitch) :=
  match cs with
  | [] => (db, [])
  | (c, q) :: cs' =>
      let '(db1, r) := run_durable_switch audited c q db in
      let '(db2, rs) := run_durable_switches audited cs' db1 in (db2, r :: rs)
  end.
(** The calls that were accepted. *)
Fixpoint committed (cs : list (circumstances * switch_call)) (rs : list (result KillSwitch)) : list switch_call :=
  match cs, rs with
  | (_, q) :: cs', r :: rs' => if is_ok r then q :: committed cs' rs' else committed cs' rs'
  | _, _ => []
  end.
Definition switch_timely (q : switch_call) : Prop :=
  match q with
  | SEngage _ _ now _ _ clock | SDisengage _ _ now _ _ clock =>
      valid_datetime clock ∧ match now with Some t => valid_datetime t | None => True end
  end.

Lemma run_durable_switch_refines audited c q m db db' r : alone c → holds_switches m db → switches_ok (plain m) →
  switch_timely q → run_durable_switch audited c q db = (db', r) →
  match r with
  | Ok k => ∃ m', run_switch_call false q (plain m) = (plain m', Ok k) ∧ holds_switches m' db' ∧ switches_ok (plain m')
  | Raise _ => holds_switches m db'
  end.
Proof.
  intros Hc Hm Hok Ht H. destruct q as [e reason now actor rid clock|e reason now actor rid clock]; cbn in *; destruct Ht.
  - by eapply durable_change_refines.
  - unfold disengage. destruct (bool_decide (e = PRODUCTION)); [by injection H as <- <-|].
    cbn in H. unfold bindM, liftM in *. cbn in *. by eapply durable_change_refines.
Qed.

(** The durable kill switches are the in-memory ones.  Over a table that
    holds the switches of a registry, calls that no other connection overtakes
    leave a table that holds the switches of the in-memory registry after the
    calls that were accepted, with the same answers; a call refused for its
    evidence or a locked database changes no switch. *)
Lemma durable_switches_refine audited cs : ∀ m db db' rs,
  holds_switches m db → switches_ok (plain m) → Forall (λ cq, alone (fst cq) ∧ switch_timely (snd cq)) cs →
  run_durable_switches audited cs db = (db', rs) →
  ∃ m', run_switch_calls false (committed cs rs) (plain m) = (plain m', List.filter is_ok rs) ∧ holds_switches m' db'.
Proof.
  induction cs as [|[c q] cs IH]; intros m db db' rs Hm Hok Hcs H; cbn in H; [injection H as <- <-; by exists m|].
  apply Forall_cons in Hcs as [[Hc Ht] Hcs]. cbn [fst snd] in Hc, Ht. destruct (run_durable_switch audited c q db) as [db1 r] eqn:E.
  destruct (run_durable_switches audited cs db1) as [db2 rs2] eqn:E2. injection H as <- <-.
  apply (run_durable_switch_refines _ _ _ _ _ _ _ Hc Hm Hok Ht) in E. cbn [committed List.filter].
  destruct r as [k|x]; cbn [is_ok].
  - destruct E as (m1 & E & Hm1 & Hok1). destruct (IH _ _ _ _ Hm1 Hok1 Hcs E2) as (m2 & Hrun & Hm2).
    exists m2. cbn [run_switch_calls]. by rewrite E, Hrun.
  - by eapply IH.
Qed.
End stores.

(** ** Errors a mapper turns into [STORAGE_CORRUPT] *)

Create HintDb caught discriminated.

Definition caught (e : exn) : bool := is_value_error e || bool_decide (e = TypeError) || bool_decide (e = KeyError).
Definition raises_caught {A} (r : result A) : Prop := ∀ e, r = Raise e → caught e = true.

Lemma caught_Ok {A} (a : A) : raises_caught (Ok a).
Proof. done. Qed.
Lemma caught_Raise {A} e : caught e = true → raises_caught (Raise (A := A) e).
Proof. by intros ? x [= <-]. Qed.
Lemma caught_bind {A B} (r : result A) (k : A → result B) : raises_caught r → (∀ a, raises_caught (k a)) →
  raises_caught (rbind r k).
Proof. intros Hr Hk. destruct r as [a|e]; [apply Hk|]. intros x [= <-]. by apply Hr. Qed.
Lemma caught_require (b : bool) e : caught e = true → raises_caught (raise_unless b e).
Proof. intros He. destruct b; [done|by apply caught_Raise]. Qed.
Lemma caught_rmap {A B} (f : A → result B) l : (∀ a, raises_caught (f a)) → raises_caught (rmap f l).
Proof.
  intros Hf. induction l as [|a l IH]; [done|]. cbn. apply caught_bind; [apply Hf|]. intros b. by apply caught_bind.
Qed.
Lemma caught_optional {A} (f : A → result A) o : (∀ a, raises_caught (f a)) → raises_caught (optional f o).
Proof. intros Hf. destruct o; [|done]. by apply caught_bind. Qed.
Lemma caught_enum {A} `{Enumerated A} s : raises_caught (enum_of (A := A) s).
Proof. unfold enum_of. by destruct (List.find _ _); [|apply caught_Raise]. Qed.
Lemma caught_timestamp s : raises_caught (parse_timestamp s).
Proof. unfold parse_timestamp. destruct (fromisoformat s) as [[? []]|]; by try apply caught_Raise. Qed.
Lemma caught_loads s : raises_caught (loads s).
Proof. unfold loads. repeat case_match; by try apply caught_Raise. Qed.
#[export] Hint Resolve caught_Ok caught_enum caught_timestamp caught_loads : caught.

(** Walks through a constructor. *)
Ltac solve_caught :=
  repeat first
    [ progress intros
    | assumption
    | solve [auto 1 with caught nocore]
    | apply caught_bind | apply caught_require; reflexivity | apply caught_rmap | apply caught_optional
    | apply caught_Raise; reflexivity
    | match goal with |- raises_caught (match ?x with _ => _ end) => destruct x end ].

Lemma caught_stage2_id v m : raises_caught (stage2_id v m).
Proof. unfold stage2_id. solve_caught. Qed.
Lemma caught_bounded_text m v : raises_caught (bounded_text m v).
Proof. unfold bounded_text, assert_no_secret_material. solve_caught. Qed.
#[export] Hint Resolve caught_stage2_id caught_bounded_text : caught.

Lemma caught_lifecycle a : raises_caught (check_ActionLifecycle a).
Proof.
  unfold check_ActionLifecycle, stage2_id_opt, check_approver.
  solve_caught.
Qed.
Lemma caught_scope s : raises_caught (check_ActionScope s).
Proof. unfold check_ActionScope. solve_caught. Qed.
Lemma caught_lease l : raises_caught (check_ExecutionLease l).
Proof. unfold check_ExecutionLease. solve_caught. Qed.
Lemma caught_snapshot s : raises_caught (new_PlanSnapshot s).
Proof. unfold new_PlanSnapshot. solve_caught. Qed.
Lemma caught_switch k : raises_caught (check_KillSwitch k).
Proof. unfold check_KillSwitch, ks_check_reason. solve_caught. Qed.
Lemma caught_verification r : raises_caught (check_VerificationResult r).
Proof.
  unfold check_VerificationResult, bounded_reference, bounded_code.
  solve_caught.
Qed.
Lemma caught_evidence s : raises_caught (evidence_from_text s).
Proof. unfold evidence_from_text, iterate. solve_caught. Qed.

#[export] Hint Resolve caught_lifecycle caught_scope caught_lease caught_snapshot caught_switch caught_verification
  caught_evidence : caught.


(** ** Reads *)





