(* ===== verification/Gate.v ===== *)
(** * Gate: the final execution gate (control_plane/gate.py)

    [FinalExecutionGate.evaluate] re-reads the world before an execution and
    returns a typed decision.  [gate_world] holds what the gate was built
    with; each numbered step of the method is one function that returns the
    denial code, if any, and [evaluate] runs them in order. *)

From S2P Require Import Prelude PyStr PyTime Sha256 Json PyDict Models Lifecycle ProjectPlan.
From S2P Require Import Identity Policy Confirmation AuditLedger AuditBuilders KillSwitch.
From S2P Require Import Verification ActionRepo Capability Contract.
From Stdlib Require Import Ascii String ZArith Lia.
From stdpp Require Import base strings gmap list.

Local Open Scope string_scope.
Local Open Scope Z_scope.
Local Open Scope aipm_scope.

Definition GATE_VERSION : string := "mc612-execution-gate-v1".

Definition gate_terminal : list LifecycleState :=
  [VERIFIED_SUCCESS; EXECUTION_FAILED; ROLLED_BACK; ROLLBACK_FAILED; REJECTED; EXPIRED; INVALIDATED].

Module GateCode.
Inductive t :=
  | ALLOWED | ACTION_MISSING | ACTION_TERMINAL | STALE_ACTION_VERSION | STALE_PLAN
  | CONTRACT_EXPIRED | ACTION_EXPIRED | CONTRACT_DIGEST_MISMATCH | CAPABILITY_DISABLED
  | CAPABILITY_UNKNOWN | CAPABILITY_VERSION_MISMATCH | ENVIRONMENT_DENIED | POLICY_MISMATCH
  | CONFIRMATION_MISSING | CONFIRMATION_CONSUMED | CONFIRMATION_EXPIRED | SNAPSHOT_MISSING
  | SNAPSHOT_MISMATCH | TARGET_MISMATCH | LEASE_MISSING | LEASE_EXPIRED | LEASE_FENCE_MISMATCH
  | KILL_SWITCH_ENGAGED | KILL_SWITCH_EPOCH_MISMATCH | INTERNAL_ERROR | PLAN_IDENTITY_MISMATCH
  | DEPENDENCY_SCOPE_MISMATCH | CURRENT_DIGEST_MISMATCH | CANDIDATE_DIGEST_MISMATCH
  | PROVENANCE_INVALID | DEPENDENCY_BLOCKED | HEALTH_CONTRACT_MISMATCH | LEASE_INVALID
  | CONFIRMATION_INVALID | ACTION_PROTOCOL_MISSING | ACTION_PROTOCOL_INVALID
  | ACTION_PROTOCOL_MISMATCH | LEGACY_MUTATION_BLOCKED | RECONCILIATION_INELIGIBLE
  | REGISTRATION_MISSING | REGISTRATION_ID_MISSING | REGISTRATION_DIGEST_MISSING
  | REGISTRATION_REVOKED | REGISTRATION_DISABLED | REGISTRATION_INACTIVE
  | REGISTRATION_ID_MISMATCH | REGISTRATION_DIGEST_MISMATCH | REGISTRATION_TARGET_MISMATCH
  | REGISTRATION_ENVIRONMENT_MISMATCH.
End GateCode.
#[export] Instance GateCode_eq_dec : EqDecision GateCode.t.
Proof. solve_decision. Defined.

#[export] Instance GateCode_value : EnumValue GateCode.t := λ c,
  match c with
  | GateCode.ALLOWED => "allowed" | GateCode.ACTION_MISSING => "action_missing"
  | GateCode.ACTION_TERMINAL => "action_terminal"
  | GateCode.STALE_ACTION_VERSION => "stale_action_version" | GateCode.STALE_PLAN => "stale_plan"
  | GateCode.CONTRACT_EXPIRED => "contract_expired" | GateCode.ACTION_EXPIRED => "action_expired"
  | GateCode.CONTRACT_DIGEST_MISMATCH => "contract_digest_mismatch"
  | GateCode.CAPABILITY_DISABLED => "capability_disabled"
  | GateCode.CAPABILITY_UNKNOWN => "capability_unknown"
  | GateCode.CAPABILITY_VERSION_MISMATCH => "capability_version_mismatch"
  | GateCode.ENVIRONMENT_DENIED => "environment_denied"
  | GateCode.POLICY_MISMATCH => "policy_mismatch"
  | GateCode.CONFIRMATION_MISSING => "confirmation_missing"
  | GateCode.CONFIRMATION_CONSUMED => "confirmation_consumed"
  | GateCode.CONFIRMATION_EXPIRED => "confirmation_expired"
  | GateCode.SNAPSHOT_MISSING => "snapshot_missing"
  | GateCode.SNAPSHOT_MISMATCH => "snapshot_mismatch"
  | GateCode.TARGET_MISMATCH => "target_mismatch" | GateCode.LEASE_MISSING => "lease_missing"
  | GateCode.LEASE_EXPIRED => "lease_expired"
  | GateCode.LEASE_FENCE_MISMATCH => "lease_fence_mismatch"
  | GateCode.KILL_SWITCH_ENGAGED => "kill_switch_engaged"
  | GateCode.KILL_SWITCH_EPOCH_MISMATCH => "kill_switch_epoch_mismatch"
  | GateCode.INTERNAL_ERROR => "internal_error"
  | GateCode.PLAN_IDENTITY_MISMATCH => "plan_identity_mismatch"
  | GateCode.DEPENDENCY_SCOPE_MISMATCH => "dependency_scope_mismatch"
  | GateCode.CURRENT_DIGEST_MISMATCH => "current_digest_mismatch"
  | GateCode.CANDIDATE_DIGEST_MISMATCH => "candidate_digest_mismatch"
  | GateCode.PROVENANCE_INVALID => "provenance_invalid"
  | GateCode.DEPENDENCY_BLOCKED => "dependency_blocked"
  | GateCode.HEALTH_CONTRACT_MISMATCH => "health_contract_mismatch"
  | GateCode.LEASE_INVALID => "lease_invalid"
  | GateCode.CONFIRMATION_INVALID => "confirmation_invalid"
  | GateCode.ACTION_PROTOCOL_MISSING => "action_protocol_missing"
  | GateCode.ACTION_PROTOCOL_INVALID => "action_protocol_invalid"
  | GateCode.ACTION_PROTOCOL_MISMATCH => "action_protocol_mismatch"
  | GateCode.LEGACY_MUTATION_BLOCKED => "legacy_mutation_blocked"
  | GateCode.RECONCILIATION_INELIGIBLE => "reconciliation_ineligible"
  | GateCode.REGISTRATION_MISSING => "registration_missing"
  | GateCode.REGISTRATION_ID_MISSING => "registration_id_missing"
  | GateCode.REGISTRATION_DIGEST_MISSING => "registration_digest_missing"
  | GateCode.REGISTRATION_REVOKED => "registration_revoked"
  | GateCode.REGISTRATION_DISABLED => "registration_disabled"
  | GateCode.REGISTRATION_INACTIVE => "registration_inactive"
  | GateCode.REGISTRATION_ID_MISMATCH => "registration_id_mismatch"
  | GateCode.REGISTRATION_DIGEST_MISMATCH => "registration_digest_mismatch"
  | GateCode.REGISTRATION_TARGET_MISMATCH => "registration_target_mismatch"
  | GateCode.REGISTRATION_ENVIRONMENT_MISMATCH => "registration_environment_mismatch"
  end.

Inductive OperationCategory := MUTATION | RECONCILIATION | PASSIVE_OBSERVATION.
#[export] Instance OperationCategory_eq_dec : EqDecision OperationCategory.
Proof. solve_decision. Defined.

(** ** Service evidence *)

(** An unmet dependency as [from_service_plan] summarises it. *)
Definition blocked_dependency (item : string) : bool :=
  List.existsb (λ marker, str_in marker item)
    ["status:missing"; "health:unhealthy"; "state:missing"; "state:error"].

Definition verify_service_evidence (authorized fresh : ServiceEvidenceContract)
    (expected_digest : option string) : GateCode.t :=
  if negb (se_provenance_verified fresh) then GateCode.PROVENANCE_INVALID
  else if negb (str_eqb (se_project_name authorized) (se_project_name fresh)) ||
          negb (str_eqb (se_compose_identity authorized) (se_compose_identity fresh)) ||
          negb (str_eqb (se_service_name authorized) (se_service_name fresh))
  then GateCode.PLAN_IDENTITY_MISMATCH
  else if negb (bool_decide (se_requested_scope authorized = se_requested_scope fresh))
  then GateCode.DEPENDENCY_SCOPE_MISMATCH
  else if negb (bool_decide (se_derived_execution_scope authorized = se_derived_execution_scope fresh))
  then GateCode.DEPENDENCY_SCOPE_MISMATCH
  else if negb (str_eqb (se_atomicity authorized) (se_atomicity fresh))
  then GateCode.PLAN_IDENTITY_MISMATCH
  else if negb (bool_decide (se_current_runtime_digest authorized = se_current_runtime_digest fresh))
  then GateCode.CURRENT_DIGEST_MISMATCH
  else if negb (bool_decide (se_target_candidate_digest authorized = se_target_candidate_digest fresh))
  then GateCode.CANDIDATE_DIGEST_MISMATCH
  else if negb (bool_decide (se_target_candidate_child_digest authorized =
                             se_target_candidate_child_digest fresh))
  then GateCode.CANDIDATE_DIGEST_MISMATCH
  else if negb (bool_decide (se_candidate_lookup_key authorized = se_candidate_lookup_key fresh))
  then GateCode.CANDIDATE_DIGEST_MISMATCH
  else if negb (str_eqb (se_health_contract_summary authorized) (se_health_contract_summary fresh))
  then GateCode.HEALTH_CONTRACT_MISMATCH
  else if negb (bool_decide (se_dependency_scope authorized = se_dependency_scope fresh))
  then if List.existsb blocked_dependency (se_dependency_scope fresh)
       then GateCode.DEPENDENCY_BLOCKED else GateCode.DEPENDENCY_SCOPE_MISMATCH
  else if match expected_digest with
          | Some d => negb (str_eqb (se_plan_digest fresh) d)
          | None => false
          end
  then GateCode.PLAN_IDENTITY_MISMATCH
  else if negb (str_eqb (se_plan_digest authorized) (se_plan_digest fresh))
  then GateCode.PLAN_IDENTITY_MISMATCH
  else GateCode.ALLOWED.

(** ** Decisions *)

Record ExecutionGateDecision := {
  gd_allowed : bool;
  gd_reason : GateCode.t;
  gd_action_id : string;
  gd_action_version : Z;
  gd_capability_id : string;
  gd_capability_version : string;
  gd_contract_digest : string;
  gd_policy_version : string;
  gd_kill_switch_epoch : Z;
  gd_target_id : string;
  gd_evaluated_at : datetime;
  gd_gate_version : string;
  gd_action_protocol : option string;
}.

(** [ExecutionGateDecision.__post_init__] *)
Definition check_ExecutionGateDecision (d : ExecutionGateDecision) : result ExecutionGateDecision :=
  let* _ := bounded_reference MAX_AUDIT_ID (Some (gd_action_id d)) in
  let* _ := bounded_reference 64 (Some (gd_capability_id d)) in
  let* _ := bounded_reference 64 (Some (gd_capability_version d)) in
  let* _ := bounded_reference 64 (Some (gd_contract_digest d)) in
  let* _ := bounded_reference MAX_AUDIT_ID (Some (gd_target_id d)) in
  let* _ := bounded_reference 32 (gd_action_protocol d) in
  require Bool.eqb (gd_allowed d) (bool_decide (gd_reason d = GateCode.ALLOWED)) else_raise ValueError;;
  Ok d.

(** The decision on a contract: only the code, the protocol and, in the
    exception handler, the capability name vary. *)
Definition decision_on (c : ExecutionContract) (code : GateCode.t) (capability : string)
    (protocol : option string) (evaluated_at : datetime) : result ExecutionGateDecision :=
  check_ExecutionGateDecision
    {| gd_allowed := bool_decide (code = GateCode.ALLOWED); gd_reason := code;
       gd_action_id := ec_action_id c; gd_action_version := ec_action_version c;
       gd_capability_id := capability; gd_capability_version := ec_capability_version c;
       gd_contract_digest := contract_digest c; gd_policy_version := ec_policy_version c;
       gd_kill_switch_epoch := ec_kill_switch_epoch c; gd_target_id := ec_target_id c;
       gd_evaluated_at := evaluated_at; gd_gate_version := GATE_VERSION;
       gd_action_protocol := protocol |}.

(** ** The world the gate reads *)

(** The registration store as the gate uses it. *)
Record registration_lookup := {
  rl_get : string → string → option ProjectRegistration;
  rl_get_by_registration_id : string → option ProjectRegistration;
}.

(** What [__init__] stores.  [gw_verifier] is the injected service-evidence
    verifier, an arbitrary callable. *)
Record gate_world := {
  gw_actions : repo;
  gw_plans : plan_store;
  gw_confirmation : string → option ConfirmationBinding;
  gw_snapshots : option (string → option PlanSnapshot);
  gw_switches : option kill_store;
  gw_capabilities : capability_map;
  gw_registrations : option registration_lookup;
  gw_verifier : option (ExecutionContract → ServiceEvidenceContract → datetime → result GateCode.t);
}.

(** The keyword arguments of [evaluate]; [clock] is what its clock and the
    kill-switch registry's clock give. *)
Record gate_call := {
  gc_now : option datetime;
  gc_clock : datetime;
  gc_service_evidence : option ServiceEvidenceContract;
  gc_service_scope : option (list string);
  gc_category : OperationCategory;
  gc_binding : option UpdateExecutionBinding;
  gc_expected_protocol : option string;
}.

(** ** The steps *)

(** Deny with [code] unless the condition holds. *)
Notation "'deny_unless' b 'else_deny' c ';;' k" := (if (b : bool) then k else Some c)
  (at level 10, b at level 100, c at level 99, k at level 200) : aipm_scope.

Section steps.
Variables (w : gate_world) (c : ExecutionContract) (call : gate_call).
Definition evaluated_at : datetime := default (gc_clock call) (gc_now call).

(** 1. The action exists, is live, at the contract's version, unexpired. *)
Definition gate_action (a : ActionLifecycle) : option GateCode.t :=
  deny_unless negb (in_states (lc_state a) gate_terminal) else_deny GateCode.ACTION_TERMINAL;;
  deny_unless lc_version a =? ec_action_version c else_deny GateCode.STALE_ACTION_VERSION;;
  deny_unless negb (lc_is_expired a evaluated_at) else_deny GateCode.ACTION_EXPIRED;;
  deny_unless str_nonempty (lc_action_protocol a) else_deny GateCode.ACTION_PROTOCOL_MISSING;;
  deny_unless mem (lc_action_protocol a) ["legacy-v1"; "mc616d2-v1"]
    else_deny GateCode.ACTION_PROTOCOL_INVALID;;
  None.

(** [_is_reconciliation_eligible] *)
Definition reconciliation_eligible (a : ActionLifecycle) : bool :=
  bool_decide (lc_state a = RECONCILIATION_REQUIRED) ||
  (str_nonempty (lc_action_id a) &&
   bool_decide (outcome_for_action (lc_action_id a) (gw_actions w) = Some "unknown_outcome")).

(** 1b. Protocol and operation taxonomy. *)
Definition gate_protocol (a : ActionLifecycle) : option GateCode.t :=
  let protocol := lc_action_protocol a in
  deny_unless
    match gc_binding call, gc_expected_protocol call with
    | Some b, Some p => str_eqb p (ueb_action_protocol b)
    | _, _ => true
    end else_deny GateCode.ACTION_PROTOCOL_MISMATCH;;
  deny_unless
    match gc_binding call, gc_expected_protocol call with
    | Some b, _ => str_eqb (ueb_action_protocol b) protocol
    | None, Some p => str_eqb p protocol
    | None, None => true
    end else_deny GateCode.ACTION_PROTOCOL_MISMATCH;;
  deny_unless negb (str_eqb protocol "legacy-v1" && bool_decide (gc_category call = MUTATION))
    else_deny GateCode.LEGACY_MUTATION_BLOCKED;;
  deny_unless negb (bool_decide (gc_category call = RECONCILIATION)) || reconciliation_eligible a
    else_deny GateCode.RECONCILIATION_INELIGIBLE;;
  None.

(** The branch without a current registration: a historical one is only used
    to name the reason. *)
Definition missing_registration (by_id : option ProjectRegistration) : GateCode.t :=
  match by_id with
  | None => GateCode.REGISTRATION_MISSING
  | Some r =>
      if bool_decide (rg_status r = REVOKED) then GateCode.REGISTRATION_REVOKED
      else if bool_decide (rg_status r = REG_DISABLED) then GateCode.REGISTRATION_DISABLED
      else if negb (str_eqb (rg_target_id r) (ec_target_id c))
      then GateCode.REGISTRATION_TARGET_MISMATCH
      else if negb (str_eqb (rg_environment r) (ec_environment c))
      then GateCode.REGISTRATION_ENVIRONMENT_MISMATCH
      else GateCode.REGISTRATION_MISSING
  end.

Definition registration_matches (r : ProjectRegistration) (id digest : string) : option GateCode.t :=
  deny_unless negb (bool_decide (rg_status r = REVOKED)) else_deny GateCode.REGISTRATION_REVOKED;;
  deny_unless negb (bool_decide (rg_status r = REG_DISABLED)) else_deny GateCode.REGISTRATION_DISABLED;;
  deny_unless is_active r else_deny GateCode.REGISTRATION_INACTIVE;;
  deny_unless str_eqb (rg_environment r) (ec_environment c)
    else_deny GateCode.REGISTRATION_ENVIRONMENT_MISMATCH;;
  deny_unless str_eqb (rg_target_id r) (ec_target_id c) else_deny GateCode.REGISTRATION_TARGET_MISMATCH;;
  deny_unless str_eqb id (rg_registration_id r) else_deny GateCode.REGISTRATION_ID_MISMATCH;;
  deny_unless str_eqb digest (rg_registration_digest r) else_deny GateCode.REGISTRATION_DIGEST_MISMATCH;;
  deny_unless verify_registration_digest r None else_deny GateCode.REGISTRATION_DIGEST_MISMATCH;;
  None.

(** 1c. Registration of a modern mutation that carries a binding. *)
Definition gate_registration (a : ActionLifecycle) : option GateCode.t :=
  if str_eqb (lc_action_protocol a) "mc616d2-v1" && bool_decide (gc_category call = MUTATION) then
    match gc_binding call with
    | None => None
    | Some b =>
        match truthy_subject (ueb_registration_id b), truthy_subject (ueb_registration_digest b) with
        | None, _ => Some GateCode.REGISTRATION_ID_MISSING
        | Some _, None => Some GateCode.REGISTRATION_DIGEST_MISSING
        | Some id, Some digest =>
            match gw_registrations w with
            | None => Some GateCode.REGISTRATION_MISSING
            | Some regs =>
                match rl_get regs (ec_target_id c) (ec_environment c) with
                | None => Some (missing_registration (rl_get_by_registration_id regs id))
                | Some r => registration_matches r id digest
                end
            end
        end
    end
  else None.

(** 2. The durable contract binding. *)
Definition gate_contract : option GateCode.t :=
  match get_contract_evidence (ec_action_id c) (gw_actions w) with
  | None => None
  | Some e =>
      deny_unless negb (str_nonempty (ce_contract_digest e)) ||
                  str_eqb (ce_contract_digest e) (contract_digest c)
        else_deny GateCode.CONTRACT_DIGEST_MISMATCH;;
      deny_unless negb (str_nonempty (ce_capability_version e)) ||
                  str_eqb (ce_capability_version e) (ec_capability_version c)
        else_deny GateCode.CAPABILITY_VERSION_MISMATCH;;
      None
  end.

Definition registry_capability : string :=
  if str_eqb (value (ec_operation c)) "update_project_plan" then "apply_project_plan"
  else value (ec_operation c).

(** The handler of [CapabilityPolicyError], by its message. *)
Definition capability_denial (message : string) : GateCode.t :=
  let m := casefold message in
  if str_in "unknown" m then GateCode.CAPABILITY_UNKNOWN
  else if str_in "version" m then GateCode.CAPABILITY_VERSION_MISMATCH
  else if str_in "environment" m then GateCode.ENVIRONMENT_DENIED
  else GateCode.CAPABILITY_DISABLED.

(** 3. The capability registry. *)
Definition gate_capability : result (option GateCode.t) :=
  match require_executable_value (gw_capabilities w) registry_capability (ec_environment c)
          (Some (ec_capability_version c)) with
  | Ok _ => Ok None
  | Raise (CapabilityPolicyError m) => Ok (Some (capability_denial m))
  | Raise e => Raise e
  end.

(** 4. The policy version. *)
Definition gate_policy (a : ActionLifecycle) : option GateCode.t :=
  deny_unless str_eqb (sc_policy_version (lc_scope a)) (ec_policy_version c)
    else_deny GateCode.POLICY_MISMATCH;;
  None.

(** 5. The confirmation. *)
Definition gate_confirmation : option GateCode.t :=
  match gw_confirmation w (ec_confirmation_id c) with
  | None => Some GateCode.CONFIRMATION_MISSING
  | Some b =>
      deny_unless str_eqb (cb_action_id b) (ec_action_id c) else_deny GateCode.CONFIRMATION_MISSING;;
      deny_unless negb (cb_is_expired b evaluated_at) else_deny GateCode.CONFIRMATION_EXPIRED;;
      deny_unless negb (bool_decide (cb_state b = CONSUMED)) else_deny GateCode.CONFIRMATION_CONSUMED;;
      None
  end.

(** 6. The snapshot. *)
Definition gate_snapshot : option GateCode.t :=
  match gw_snapshots w with
  | None => None
  | Some snapshot_for =>
      match snapshot_for (ec_action_id c) with
      | None => Some GateCode.SNAPSHOT_MISSING
      | Some sn =>
          deny_unless (sn_revision sn =? ec_expected_plan_revision c) &&
                      str_eqb (sn_target_id sn) (ec_target_id c) else_deny GateCode.SNAPSHOT_MISMATCH;;
          None
      end
  end.

(** [tuple(s.strip() for s in text.split(",") if s.strip())] *)
Definition scope_words (text : string) : list string :=
  List.map strip (List.filter (λ s, str_nonempty (strip s)) (split_on "," text)).

(** A metadata mapping that claims a scope or a service must agree with the
    evidence. *)
Definition metadata_agrees (metadata : list (string * string)) (e : ServiceEvidenceContract)
  : option GateCode.t :=
  let m := dict_of metadata in
  deny_unless match dget "service_scope" m with
              | Some text => bool_decide (scope_words text = se_derived_execution_scope e)
              | None => true
              end else_deny GateCode.DEPENDENCY_SCOPE_MISMATCH;;
  deny_unless match dget "service_name" m with
              | Some text => str_eqb (strip text) (se_service_name e)
              | None => true
              end else_deny GateCode.PLAN_IDENTITY_MISMATCH;;
  None.

Definition decision_metadata (a : ActionLifecycle) : list (string * string) :=
  if str_nonempty (lc_decision_id a) then
    match get_decision (lc_decision_id a) (gw_actions w) with
    | Some d => match ad_request d with Some r => req_metadata r | None => [] end
    | None => []
    end
  else [].

(** The digest handed to [verify_service_evidence] without a verifier. *)
Definition expected_evidence_digest : string :=
  match truthy_subject (dget "update_plan_digest" (dict_of (ec_mutation_fields c))) with
  | Some d => d
  | None => ec_expected_plan_digest c
  end.

Definition first_denial (x y : option GateCode.t) : option GateCode.t :=
  match x with Some code => Some code | None => y end.

(** 7. The evidence of a service plan, or else the plan itself. *)
Definition gate_evidence (a : ActionLifecycle) (e : ServiceEvidenceContract)
  : result (option GateCode.t) :=
  match first_denial
          (deny_unless match gc_service_scope call with
                       | Some scope => bool_decide (scope = se_derived_execution_scope e)
                       | None => true
                       end else_deny GateCode.DEPENDENCY_SCOPE_MISMATCH;; None)
          (first_denial (metadata_agrees (decision_metadata a) e)
             (metadata_agrees (ec_mutation_fields c) e)) with
  | Some code => Ok (Some code)
  | None =>
      let* code := match gw_verifier w with
                   | Some verify => verify c e evaluated_at
                   | None => Ok (verify_service_evidence e e (Some expected_evidence_digest))
                   end in
      Ok (if bool_decide (code = GateCode.ALLOWED) then None else Some code)
  end.

Definition gate_current_plan : option GateCode.t :=
  match gw_plans w !! ec_target_id c with
  | None => Some GateCode.STALE_PLAN
  | Some p =>
      deny_unless (pp_revision p =? ec_expected_plan_revision c) &&
                  str_eqb (pp_digest p) (ec_expected_plan_digest c) else_deny GateCode.STALE_PLAN;;
      None
  end.

Definition effective_evidence : option ServiceEvidenceContract :=
  match gc_service_evidence call with Some e => Some e | None => ec_service_evidence c end.

Definition gate_plan (a : ActionLifecycle) : result (option GateCode.t) :=
  match effective_evidence with
  | Some e => gate_evidence a e
  | None => Ok gate_current_plan
  end.

(** 8. The lease. *)
Definition gate_lease : option GateCode.t :=
  match active_lease (ec_action_id c) evaluated_at (gw_actions w) with
  | None => Some GateCode.LEASE_MISSING
  | Some l =>
      deny_unless str_eqb (ls_lease_id l) (ec_lease_id c) && (ls_fencing_token l =? ec_fencing_token c)
        else_deny GateCode.LEASE_FENCE_MISMATCH;;
      deny_unless negb (ls_expires_at l <=? evaluated_at) else_deny GateCode.LEASE_EXPIRED;;
      None
  end.

(** [_environment] of kill_switch.py on a string. *)
Definition environment_of (s : string) : result Environment :=
  if str_eqb s "staging" then Ok STAGING
  else if str_eqb s "production" then Ok PRODUCTION
  else Raise KillSwitchError.

Definition current_switch (k : kill_store) : result KillSwitch :=
  let* e := environment_of (ec_environment c) in snd (switch e (gc_clock call) k).

(** 9. The kill switch. *)
Definition gate_switch : result (option GateCode.t) :=
  match gw_switches w with
  | None => Ok None
  | Some k =>
      let* sw := current_switch k in
      Ok (deny_unless ks_epoch sw =? ec_kill_switch_epoch c else_deny GateCode.KILL_SWITCH_EPOCH_MISMATCH;;
          deny_unless permits_operations sw else_deny GateCode.KILL_SWITCH_ENGAGED;;
          None)
  end.

(** 10. The contract's own expiry. *)
Definition gate_expiry : option GateCode.t :=
  deny_unless negb (ec_is_expired c evaluated_at) else_deny GateCode.CONTRACT_EXPIRED;; None.

(** Steps in order: the first denial or exception wins. *)
Fixpoint run_steps (steps : list (result (option GateCode.t))) : result (option GateCode.t) :=
  match steps with
  | [] => Ok None
  | Ok None :: steps' => run_steps steps'
  | r :: _ => r
  end.

Definition later_steps (a : ActionLifecycle) : result (option GateCode.t) :=
  run_steps
    [Ok (gate_protocol a); Ok (gate_registration a); Ok gate_contract; gate_capability;
     Ok (gate_policy a); Ok gate_confirmation; Ok gate_snapshot; gate_plan a; Ok gate_lease;
     gate_switch; Ok gate_expiry].

(** The body of the [try]. *)
Definition gate_body : result ExecutionGateDecision :=
  let deny code protocol := decision_on c code "apply_project_plan" protocol evaluated_at in
  match get_action (ec_action_id c) (gw_actions w) with
  | None => deny GateCode.ACTION_MISSING None
  | Some a =>
      match gate_action a with
      | Some code => deny code None
      | None =>
          let* code := later_steps a in
          deny (default GateCode.ALLOWED code) (Some (lc_action_protocol a))
      end
  end.

(** [except (TypeError, ValueError, AttributeError)] *)
Definition gate_catches (e : exn) : bool :=
  match e with
  | TypeError | AttributeError => true
  | _ => is_value_error e
  end.

(** [FinalExecutionGate.evaluate] *)
Definition evaluate : result ExecutionGateDecision :=
  match gate_body with
  | Raise e =>
      if gate_catches e
      then decision_on c GateCode.INTERNAL_ERROR (value (ec_operation c)) None evaluated_at
      else Raise e
  | r => r
  end.
End steps.

(** ** Specification *)

(** The conditions of the current plan or of the service evidence. *)
Definition plan_confirmed (w : gate_world) (c : ExecutionContract) (call : gate_call)
    (a : ActionLifecycle) : Prop :=
  match effective_evidence c call with
  | Some e => gate_evidence w c call a e = Ok None
  | None => ∃ p, gw_plans w !! ec_target_id c = Some p ∧
              pp_revision p = ec_expected_plan_revision c ∧ pp_digest p = ec_expected_plan_digest c
  end.

(** A modern mutation that carries a binding names the current, active
    registration of its target. *)
Definition registered (w : gate_world) (c : ExecutionContract) (call : gate_call)
    (a : ActionLifecycle) : Prop :=
  ∀ b, lc_action_protocol a = "mc616d2-v1" → gc_category call = MUTATION → gc_binding call = Some b →
    ∃ regs r, gw_registrations w = Some regs ∧
      rl_get regs (ec_target_id c) (ec_environment c) = Some r ∧ rg_status r = REGISTERED ∧
      rg_target_id r = ec_target_id c ∧ rg_environment r = ec_environment c ∧
      ueb_registration_id b = Some (rg_registration_id r) ∧ rg_registration_id r ≠ EmptyString ∧
      ueb_registration_digest b = Some (rg_registration_digest r) ∧
      HEX 64 (rg_registration_digest r) = true.

(** The world in which the gate opens, for the action [a] it finds. *)
Record gate_open (w : gate_world) (c : ExecutionContract) (call : gate_call) (a : ActionLifecycle)
  : Prop := {
  go_action : get_action (ec_action_id c) (gw_actions w) = Some a;
  go_live : lc_state a ∉ gate_terminal;
  go_version : lc_version a = ec_action_version c;
  go_unexpired : evaluated_at call < lc_expires_at a;
  go_protocol : lc_action_protocol a ∈ ["legacy-v1"; "mc616d2-v1"] ∧
    (∀ b, gc_binding call = Some b → ueb_action_protocol b = lc_action_protocol a) ∧
    (∀ p, gc_expected_protocol call = Some p → p = lc_action_protocol a);
  go_category : (gc_category call = MUTATION → lc_action_protocol a = "mc616d2-v1") ∧
    (gc_category call = RECONCILIATION → reconciliation_eligible w a = true);
  go_registered : registered w c call a;
  go_contract : ∀ e, get_contract_evidence (ec_action_id c) (gw_actions w) = Some e →
    (ce_contract_digest e ≠ EmptyString → ce_contract_digest e = contract_digest c) ∧
    (ce_capability_version e ≠ EmptyString → ce_capability_version e = ec_capability_version c);
  go_staging : ec_environment c = "staging";
  go_capability : ∃ d, dget APPLY_PROJECT_PLAN (gw_capabilities w) = Some d ∧
    cd_version d = ec_capability_version c ∧ cd_enabled d = true ∧
    cd_permanently_forbidden d = false ∧ "staging" ∈ cd_allowed_environments d;
  go_policy : sc_policy_version (lc_scope a) = ec_policy_version c;
  go_confirmation : ∃ b, gw_confirmation w (ec_confirmation_id c) = Some b ∧
    cb_action_id b = ec_action_id c ∧ evaluated_at call < cb_expires_at b ∧ cb_state b ≠ CONSUMED;
  go_snapshot : ∀ snapshot_for, gw_snapshots w = Some snapshot_for →
    ∃ sn, snapshot_for (ec_action_id c) = Some sn ∧ sn_revision sn = ec_expected_plan_revision c ∧
      sn_target_id sn = ec_target_id c;
  go_plan : plan_confirmed w c call a;
  go_lease : ∃ l, active_lease (ec_action_id c) (evaluated_at call) (gw_actions w) = Some l ∧
    ls_lease_id l = ec_lease_id c ∧ ls_fencing_token l = ec_fencing_token c;
  go_switch : ∀ k, gw_switches w = Some k →
    ∃ sw, current_switch c call k = Ok sw ∧ ks_epoch sw = ec_kill_switch_epoch c ∧
      permits_operations sw = true;
  go_contract_expiry : evaluated_at call < ec_expires_at c;
}.

(** ** Lemmas *)

Lemma deny_unless_None (b : bool) (k : option GateCode.t) (x : GateCode.t) :
  (if b then k else Some x) = None ↔ b = true ∧ k = None.
Proof. destruct b; naive_solver. Qed.

Lemma str_eqb_eq a b : str_eqb a b = true ↔ a = b.
Proof. apply bool_decide_eq_true. Qed.
Lemma negb_bool_decide P `{Decision P} : negb (bool_decide P) = true ↔ ¬ P.
Proof. by rewrite negb_true_iff, bool_decide_eq_false. Qed.
Lemma negb_leb a b : negb (a <=? b) = true ↔ b < a.
Proof. rewrite negb_true_iff. apply Z.leb_gt. Qed.

(** Turns the Boolean tests of the steps into propositions. *)
Ltac tests :=
  rewrite ?deny_unless_None, ?andb_true_iff, ?orb_true_iff, ?str_eqb_eq, ?str_nonempty_true,
    ?negb_bool_decide, ?negb_leb, ?Z.eqb_eq, ?mem_true, ?bool_decide_eq_true.

Lemma gate_action_None c call a :
  gate_action c call a = None ↔
  lc_state a ∉ gate_terminal ∧ lc_version a = ec_action_version c ∧
  evaluated_at call < lc_expires_at a ∧ lc_action_protocol a ∈ ["legacy-v1"; "mc616d2-v1"].
Proof.
  unfold gate_action, in_states, lc_is_expired. tests.
  assert (lc_action_protocol a ∈ ["legacy-v1"; "mc616d2-v1"] → lc_action_protocol a ≠ EmptyString)
    by (intros H E; rewrite E in H; set_solver).
  naive_solver.
Qed.

Lemma or_not_impl (P Q : Prop) `{Decision Q} : (P ∨ ¬ Q) ↔ (Q → P).
Proof. destruct (decide Q); tauto. Qed.
Lemma not_or_impl (P Q : Prop) `{Decision Q} : (¬ Q ∨ P) ↔ (Q → P).
Proof. destruct (decide Q); tauto. Qed.
Lemma all_Some {A} (o : option A) (P : A → Prop) :
  (∀ x, o = Some x → P x) ↔ match o with Some x => P x | None => True end.
Proof. destruct o; split; [|intros ? ? [= <-]|..]; by auto. Qed.

Lemma gate_protocol_None w call a :
  gate_protocol w call a = None ↔
  (∀ b, gc_binding call = Some b → ueb_action_protocol b = lc_action_protocol a) ∧
  (∀ p, gc_expected_protocol call = Some p → p = lc_action_protocol a) ∧
  (gc_category call = MUTATION → lc_action_protocol a ≠ "legacy-v1") ∧
  (gc_category call = RECONCILIATION → reconciliation_eligible w a = true).
Proof.
  unfold gate_protocol. tests. rewrite negb_true_iff, andb_false_iff, !bool_decide_eq_false.
  rewrite (or_not_impl _ (gc_category call = MUTATION)), (not_or_impl _ (gc_category call = RECONCILIATION)).
  rewrite !all_Some. unfold str_eqb at 4. rewrite bool_decide_eq_false.
  destruct (gc_binding call), (gc_expected_protocol call); tests; intuition congruence.
Qed.

Lemma registration_matches_None c r id digest :
  registration_matches c r id digest = None ↔
  rg_status r = REGISTERED ∧ rg_environment r = ec_environment c ∧ rg_target_id r = ec_target_id c ∧
  id = rg_registration_id r ∧ digest = rg_registration_digest r ∧
  HEX 64 (rg_registration_digest r) = true.
Proof.
  unfold registration_matches, is_active, verify_registration_digest. tests.
  destruct (rg_status r); intuition congruence.
Qed.

Lemma truthy_Some_iff o s : truthy_subject o = Some s ↔ o = Some s ∧ s ≠ EmptyString.
Proof.
  unfold truthy_subject. destruct o as [t|]; [|by split; [|intros [? _]]].
  destruct (str_nonempty t) eqn:E.
  - apply str_nonempty_true in E. split; [by intros [= <-]|by intros [[= <-] _]].
  - split; [done|]. intros [[= <-] H]. apply str_nonempty_true in H. congruence.
Qed.

Lemma gate_registration_None w c call a :
  gate_registration w c call a = None ↔ registered w c call a.
Proof.
  unfold gate_registration, registered.
  destruct (str_eqb (lc_action_protocol a) "mc616d2-v1") eqn:Ep; cbn [andb].
  2: { apply bool_decide_eq_false in Ep. by split. }
  apply str_eqb_eq in Ep. case_bool_decide as Ec; [|by split].
  destruct (gc_binding call) as [b|]; [|by split].
  destruct (truthy_subject (ueb_registration_id b)) as [id|] eqn:Eid.
  2: { split; [done|]. intros H. destruct (H b Ep Ec eq_refl) as (? & r & _ & _ & _ & _ & _ & Hi & Hn & _).
       assert (truthy_subject (ueb_registration_id b) = Some (rg_registration_id r))
         by (by apply truthy_Some_iff). congruence. }
  apply truthy_Some_iff in Eid as [Eid Hid].
  destruct (truthy_subject (ueb_registration_digest b)) as [dg|] eqn:Edg.
  2: { split; [done|]. intros H. destruct (H b Ep Ec eq_refl) as (? & r & _ & _ & _ & _ & _ & _ & _ & Hi & Hh).
       assert (truthy_subject (ueb_registration_digest b) = Some (rg_registration_digest r)); [|congruence].
       apply truthy_Some_iff. split; [done|]. intros E. by rewrite E in Hh. }
  apply truthy_Some_iff in Edg as [Edg Hdg]. split.
  - destruct (gw_registrations w) as [regs|]; [|done].
    destruct (rl_get regs _ _) as [r|] eqn:Er; [|done].
    intros (Hs & He & Ht & -> & -> & Hx)%registration_matches_None b' _ _ [= <-].
    exists regs, r. by split_and!.
  - intros H. destruct (H b Ep Ec eq_refl) as (regs & r & -> & -> & Hs & Ht & He & Hi & _ & Hd & Hx).
    apply registration_matches_None. split_and!; try done; congruence.
Qed.

Lemma gate_contract_None w c :
  gate_contract w c = None ↔
  ∀ e, get_contract_evidence (ec_action_id c) (gw_actions w) = Some e →
    (ce_contract_digest e ≠ EmptyString → ce_contract_digest e = contract_digest c) ∧
    (ce_capability_version e ≠ EmptyString → ce_capability_version e = ec_capability_version c).
Proof.
  unfold gate_contract. rewrite all_Some.
  destruct (get_contract_evidence _ _) as [e|]; [|done]. tests.
  unfold str_nonempty. rewrite !negb_involutive. tests.
  destruct (String.string_dec (ce_contract_digest e) EmptyString),
    (String.string_dec (ce_capability_version e) EmptyString); tauto.
Qed.

Lemma capability_message m : is_Some (Some (capability_denial m)).
Proof. done. Qed.

(** Resolution raises nothing else. *)
Lemma require_executable_exn reg s environment version e :
  require_executable_value reg s environment version = Raise e → ∃ m, e = CapabilityPolicyError m.
Proof.
  unfold require_executable_value, resolve_value, resolve, executable, raise_unless, rbind.
  intros H. repeat case_match; simplify_eq; eauto.
Qed.

Lemma gate_capability_total w c : ∃ o, gate_capability w c = Ok o.
Proof.
  unfold gate_capability. destruct (require_executable_value _ _ _ _) as [d|e] eqn:E; [by eexists|].
  destruct (require_executable_exn _ _ _ _ _ E) as [m ->]. by eexists.
Qed.

Lemma gate_capability_None w c :
  gate_capability w c = Ok None ↔
  ec_environment c = "staging" ∧
  ∃ d, dget APPLY_PROJECT_PLAN (gw_capabilities w) = Some d ∧
    cd_version d = ec_capability_version c ∧ cd_enabled d = true ∧
    cd_permanently_forbidden d = false ∧ "staging" ∈ cd_allowed_environments d.
Proof.
  unfold gate_capability.
  replace (registry_capability c) with (value APPLY_PROJECT_PLAN)
    by (unfold registry_capability; by destruct (ec_operation c)).
  assert (∀ d, require_executable_value (gw_capabilities w) (value APPLY_PROJECT_PLAN)
                 (ec_environment c) (Some (ec_capability_version c)) = Ok d ↔
          dget APPLY_PROJECT_PLAN (gw_capabilities w) = Some d ∧
          cd_version d = ec_capability_version c ∧ cd_permanently_forbidden d = false ∧
          cd_enabled d = true ∧ ec_environment c = "staging" ∧ "staging" ∈ cd_allowed_environments d) as Hd.
  { intros d. rewrite require_executable_value_Ok. split.
    - intros (x & Hx & Hg & Hv & ?). assert (x = APPLY_PROJECT_PLAN) as -> by (by destruct x).
      specialize (Hv _ eq_refl). tauto.
    - intros (Hg & Hv & ?). exists APPLY_PROJECT_PLAN. split_and!; try tauto. by intros v [= <-]. }
  destruct (require_executable_value _ _ _ _) as [d|e] eqn:E.
  - pose proof (proj1 (Hd d) eq_refl). naive_solver.
  - destruct (require_executable_exn _ _ _ _ _ E) as [m ->]. split; [done|].
    intros (He & d & H). destruct_and! H. assert (Raise (CapabilityPolicyError m) = Ok d) as Hx; [|done].
    by apply Hd.
Qed.

Lemma gate_confirmation_None w c call :
  gate_confirmation w c call = None ↔
  ∃ b, gw_confirmation w (ec_confirmation_id c) = Some b ∧ cb_action_id b = ec_action_id c ∧
    evaluated_at call < cb_expires_at b ∧ cb_state b ≠ CONSUMED.
Proof.
  unfold gate_confirmation, cb_is_expired.
  destruct (gw_confirmation w _) as [b|]; [|naive_solver]. tests. naive_solver.
Qed.

Lemma gate_snapshot_None w c :
  gate_snapshot w c = None ↔
  ∀ snapshot_for, gw_snapshots w = Some snapshot_for →
    ∃ sn, snapshot_for (ec_action_id c) = Some sn ∧ sn_revision sn = ec_expected_plan_revision c ∧
      sn_target_id sn = ec_target_id c.
Proof.
  unfold gate_snapshot. rewrite all_Some. destruct (gw_snapshots w) as [f|]; [|done].
  destruct (f _) as [sn|]; [|naive_solver]. tests. naive_solver.
Qed.

Lemma gate_plan_None w c call a : gate_plan w c call a = Ok None ↔ plan_confirmed w c call a.
Proof.
  unfold gate_plan, plan_confirmed. destruct (effective_evidence c call); [done|].
  unfold gate_current_plan. destruct (gw_plans w !! _) as [p|]; [|naive_solver].
  split.
  - intros [= H]. revert H. tests. naive_solver.
  - intros (q & [= <-] & Hr & Hd). f_equal. tests. done.
Qed.

Lemma gate_lease_None w c call :
  gate_lease w c call = None ↔
  ∃ l, active_lease (ec_action_id c) (evaluated_at call) (gw_actions w) = Some l ∧
    ls_lease_id l = ec_lease_id c ∧ ls_fencing_token l = ec_fencing_token c.
Proof.
  unfold gate_lease. destruct (active_lease _ _ _) as [l|] eqn:E; [|naive_solver]. tests.
  assert (evaluated_at call < ls_expires_at l).
  { unfold active_lease, lease_live in E. destruct (dget _ _) as [l'|]; [|done].
    destruct (negb _) eqn:El; [|done]. simplify_eq.
    rewrite negb_true_iff, orb_false_iff, Z.leb_gt in El. tauto. }
  naive_solver.
Qed.

Lemma gate_switch_None w c call :
  gate_switch w c call = Ok None ↔
  ∀ k, gw_switches w = Some k →
    ∃ sw, current_switch c call k = Ok sw ∧ ks_epoch sw = ec_kill_switch_epoch c ∧
      permits_operations sw = true.
Proof.
  unfold gate_switch. rewrite all_Some. destruct (gw_switches w) as [k|]; [|done].
  destruct (current_switch c call k) as [sw|e]; [|by split; [|intros (? & ? & _)]]. cbn [rbind].
  split.
  - intros [= H]. revert H. tests. intros (? & ? & _). by exists sw.
  - intros (sw' & [= <-] & ? & ?). f_equal. by tests.
Qed.

(** Reading a switch raises [KillSwitchError] or nothing. *)
Lemma current_switch_exn c call k e : current_switch c call k = Raise e → e = KillSwitchError.
Proof.
  unfold current_switch, environment_of, switch, bindM, getM, liftM, retM, default_switch,
    check_KillSwitch, ks_check_reason, raise_unless, rbind.
  intros H. repeat (case_match; simplify_eq/=; try done).
Qed.

Lemma run_steps_None l : run_steps l = Ok None ↔ Forall (λ r, r = Ok None) l.
Proof.
  induction l as [|[[code|]|e] l IH]; cbn; rewrite ?Forall_cons; [done|..]; naive_solver.
Qed.

Lemma run_steps_exn l e : run_steps l = Raise e → Raise e ∈ l.
Proof. induction l as [|[[code|]|e'] l IH]; cbn; intros; simplify_eq; set_solver. Qed.

(** ** Decisions always pass their own checks *)

Lemma prefix_all p needle s : String.prefix needle s = true → str_all p s = true → str_all p needle = true.
Proof.
  revert s. induction needle as [|x needle IH]; intros [|y s]; cbn; try done.
  destruct (ascii_dec x y) as [->|]; [|done]. rewrite !andb_true_iff. intros H [? ?]. eauto.
Qed.
Lemma str_in_all p needle s : str_in needle s = true → str_all p s = true → str_all p needle = true.
Proof.
  induction s as [|c s IH]; cbn [str_in]; rewrite orb_true_iff.
  - intros [H|[=]]. by eapply prefix_all.
  - intros [H|H] Ha; [by eapply prefix_all|]. cbn in Ha. apply andb_true_iff in Ha as [_ ?]. auto.
Qed.

Lemma hex_casefold s : str_all is_hex s = true → casefold s = s.
Proof.
  induction s as [|c s IH]; [done|]. cbn. rewrite andb_true_iff. intros [Hc Hs].
  rewrite (IH Hs). f_equal. unfold lower_char.
  assert (is_upper c = false) as ->; [|done].
  unfold is_hex, is_upper, is_digit, PyStr.between in *.
  destruct (Z.leb_spec 65 (ord c)), (Z.leb_spec (ord c) 90), (Z.leb_spec 48 (ord c)),
    (Z.leb_spec (ord c) 57), (Z.leb_spec 97 (ord c)); cbn in *; lia || done.
Qed.

(** A hexadecimal text contains no secret marker: each marker has a letter
    beyond [f] or a punctuation character. *)
Lemma hex_no_marker s : str_all is_hex s = true → has_secret_marker s = false.
Proof.
  intros Hs. unfold has_secret_marker. rewrite (hex_casefold _ Hs).
  destruct (List.existsb _ _) eqn:E; [|done].
  apply List.existsb_exists in E as (m & Hm & Hin).
  pose proof (str_in_all is_hex _ _ Hin Hs) as Hx.
  assert (List.forallb (λ m, negb (str_all is_hex m)) SECRET_MARKERS = true) as HF by reflexivity.
  rewrite List.forallb_forall in HF. specialize (HF _ Hm). by rewrite Hx in HF.
Qed.

Lemma HEX_clean_ref s : HEX 64 s = true → clean_ref 64 s.
Proof.
  unfold HEX. rewrite andb_true_iff, Z.eqb_eq. intros [Ha Hl]. split_and!.
  - by intros ->.
  - lia.
  - by apply hex_no_control.
  - by apply hex_no_marker.
Qed.

Lemma decision_on_Ok c0 c code capability protocol now :
  new_ExecutionContract c0 = Ok c →
  capability ∈ ["apply_project_plan"; "update_project_plan"] →
  protocol ∈ [None; Some "legacy-v1"; Some "mc616d2-v1"] →
  ∃ d, decision_on c code capability protocol now = Ok d ∧ gd_reason d = code ∧
    gd_allowed d = bool_decide (code = GateCode.ALLOWED) ∧ gd_contract_digest d = contract_digest c.
Proof.
  intros (-> & _ & Hv & Ha & Ht & _)%new_contract_Ok Hc Hp.
  unfold decision_on, check_ExecutionGateDecision. cbn [gd_action_id gd_capability_id
    gd_capability_version gd_contract_digest gd_target_id gd_action_protocol gd_allowed gd_reason
    ec_with_fields ec_action_id ec_capability_version ec_target_id].
  rewrite (clean_ref_reference _ _ Ha), (clean_ref_reference _ _ Ht), (clean_ref_reference _ _ Hv).
  rewrite (clean_ref_reference 64 (contract_digest _)) by apply HEX_clean_ref, sha256_hex_HEX.
  assert (bounded_reference 64 (Some capability) = Ok (Some capability)) as ->
    by (rewrite !elem_of_cons in Hc; by destruct Hc as [->|[->|Hc%elem_of_nil]]).
  assert (bounded_reference 32 protocol = Ok protocol) as ->
    by (rewrite !elem_of_cons in Hp; by destruct Hp as [->|[->|[->|Hp%elem_of_nil]]]).
  cbn [rbind]. rewrite Bool.eqb_reflx. by eexists.
Qed.

(** ** The gate as a whole *)

Lemma later_steps_None w c call a :
  later_steps w c call a = Ok None ↔
  gate_protocol w call a = None ∧ gate_registration w c call a = None ∧ gate_contract w c = None ∧
  gate_capability w c = Ok None ∧ gate_policy c a = None ∧ gate_confirmation w c call = None ∧
  gate_snapshot w c = None ∧ gate_plan w c call a = Ok None ∧ gate_lease w c call = None ∧
  gate_switch w c call = Ok None ∧ gate_expiry c call = None.
Proof.
  unfold later_steps. rewrite run_steps_None. rewrite !Forall_cons, Forall_nil.
  split; intros H; destruct_and! H; split_and!; first [done | congruence].
Qed.

Lemma protocol_modern w call a :
  gate_protocol w call a = None ∧ lc_action_protocol a ∈ ["legacy-v1"; "mc616d2-v1"] ↔
  lc_action_protocol a ∈ ["legacy-v1"; "mc616d2-v1"] ∧
  (∀ b, gc_binding call = Some b → ueb_action_protocol b = lc_action_protocol a) ∧
  (∀ p, gc_expected_protocol call = Some p → p = lc_action_protocol a) ∧
  (gc_category call = MUTATION → lc_action_protocol a = "mc616d2-v1") ∧
  (gc_category call = RECONCILIATION → reconciliation_eligible w a = true).
Proof.
  rewrite gate_protocol_None, !elem_of_cons, elem_of_nil.
  assert (lc_action_protocol a = "mc616d2-v1" → lc_action_protocol a ≠ "legacy-v1") by congruence.
  tauto.
Qed.

(** The checks of the gate, one after the other, are its specification. *)
Lemma gate_open_iff w c call a :
  gate_open w c call a ↔
  get_action (ec_action_id c) (gw_actions w) = Some a ∧ gate_action c call a = None ∧
  later_steps w c call a = Ok None.
Proof.
  rewrite later_steps_None, gate_action_None, gate_registration_None, gate_contract_None,
    gate_capability_None, gate_confirmation_None, gate_snapshot_None, gate_plan_None,
    gate_lease_None, gate_switch_None.
  unfold gate_policy, gate_expiry, ec_is_expired. tests. pose proof (protocol_modern w call a) as Hp.
  split.
  - intros []. intuition.
  - intros H. destruct_and! H. constructor; intuition.
Qed.

(** What the steps can raise: a refused kill-switch read, or what the
    injected verifier raises. *)
Lemma later_steps_exn w c call a e :
  later_steps w c call a = Raise e →
  e = KillSwitchError ∨
  ∃ verify ev, gw_verifier w = Some verify ∧ verify c ev (evaluated_at call) = Raise e.
Proof.
  intros H%run_steps_exn. rewrite !elem_of_cons, elem_of_nil in H.
  destruct H as [H|[H|[H|[H|[H|[H|[H|[H|[H|[H|[H|[]]]]]]]]]]]]; try done.
  - destruct (gate_capability_total w c) as [o E]. congruence.
  - right. unfold gate_plan in H. destruct (effective_evidence c call) as [ev|]; [|done].
    unfold gate_evidence in H. destruct (first_denial _ _); [done|].
    destruct (gw_verifier w) as [verify|]; [|done]. exists verify, ev. split; [done|].
    by destruct (verify c ev (evaluated_at call)); simplify_eq/=.
  - left. unfold gate_switch in H. destruct (gw_switches w) as [k|]; [|done].
    destruct (current_switch c call k) eqn:E; simplify_eq/=. by eapply current_switch_exn.
Qed.

Lemma run_steps_code l code : run_steps l = Ok (Some code) → Ok (Some code) ∈ l.
Proof. induction l as [|[[code'|]|e'] l IH]; cbn; intros; simplify_eq; set_solver. Qed.

Ltac by_tests :=
  cbv zeta;
  repeat match goal with
    | |- (if ?b then _ else _) ≠ _ => destruct b
    | |- match ?o with _ => _ end ≠ _ => destruct o
    | |- Some (match ?o with _ => _ end) ≠ _ => destruct o
    end; try discriminate.

Lemma gate_evidence_denies w c call a ev : gate_evidence w c call a ev ≠ Ok (Some GateCode.ALLOWED).
Proof.
  unfold gate_evidence.
  assert (∀ m, metadata_agrees m ev ≠ Some GateCode.ALLOWED) as Hm
    by (intros m; unfold metadata_agrees; by_tests).
  destruct (first_denial _ _) as [code|] eqn:E.
  - intros [= ->]. unfold first_denial in E. repeat case_match; simplify_eq; by eapply Hm.
  - destruct (match gw_verifier w with Some _ => _ | None => _ end) as [code|e]; [|done].
    cbn. case_bool_decide; congruence.
Qed.

(** A step that answers denies. *)
Lemma later_steps_code w c call a code :
  later_steps w c call a = Ok (Some code) → code ≠ GateCode.ALLOWED.
Proof.
  intros H%run_steps_code ->. revert H. unfold later_steps.
  assert (∀ o : option GateCode.t, o ≠ Some GateCode.ALLOWED → (Ok (Some GateCode.ALLOWED) : result _) ≠ Ok o)
    as Hn by congruence.
  match goal with |- ?P → False => change (¬ P) end. rewrite !not_elem_of_cons. split_and!; try apply Hn.
  - unfold gate_protocol. by_tests.
  - unfold gate_registration, registration_matches, missing_registration. by_tests.
  - unfold gate_contract. by_tests.
  - unfold gate_capability. destruct (require_executable_value _ _ _ _) as [|[]]; try done.
    unfold capability_denial. by repeat case_match.
  - unfold gate_policy. by_tests.
  - unfold gate_confirmation. by_tests.
  - unfold gate_snapshot. by_tests.
  - unfold gate_plan. destruct (effective_evidence c call); [apply not_eq_sym, gate_evidence_denies|].
    apply Hn. unfold gate_current_plan. by_tests.
  - unfold gate_lease. by_tests.
  - unfold gate_switch. destruct (gw_switches w); [|done].
    destruct (current_switch c call _); [|done]. cbn. apply Hn. by_tests.
  - unfold gate_expiry. by_tests.
  - by intros ?%elem_of_nil.
Qed.

Lemma gate_action_code c call a : gate_action c call a ≠ Some GateCode.ALLOWED.
Proof. unfold gate_action. by_tests. Qed.

(** The body's verdict, before it is wrapped in a decision. *)
Lemma gate_body_cases w c call :
  (∃ code protocol, gate_body w c call = decision_on c code "apply_project_plan" protocol (evaluated_at call) ∧
     protocol ∈ [None; Some "legacy-v1"; Some "mc616d2-v1"] ∧
     (code = GateCode.ALLOWED ↔ ∃ a, gate_open w c call a)) ∨
  (∃ a e, later_steps w c call a = Raise e ∧ gate_body w c call = Raise e ∧
     ¬ ∃ a', gate_open w c call a').
Proof.
  unfold gate_body. destruct (get_action (ec_action_id c) (gw_actions w)) as [a|] eqn:Ea.
  2: { left. eexists _, None. split_and!; [done|set_solver|]. split; [done|].
       intros (a & Ha%gate_open_iff). destruct_and! Ha. congruence. }
  assert (∀ a', gate_open w c call a' → gate_action c call a = None ∧ later_steps w c call a = Ok None)
    as Hopen.
  { intros a' Ha%gate_open_iff. destruct_and! Ha. assert (a' = a) as -> by congruence. done. }
  destruct (gate_action c call a) as [code|] eqn:Eg.
  { left. eexists _, None. split_and!; [done|set_solver|]. split.
    - intros ->. by destruct (gate_action_code _ _ _ Eg).
    - intros (a' & [? _]%Hopen). congruence. }
  destruct (later_steps w c call a) as [code|e] eqn:El; cbn [rbind].
  - left. eexists _, _. split_and!; [done| |].
    + apply gate_action_None in Eg as (_ & _ & _ & Hp). rewrite !elem_of_cons in Hp. rewrite !elem_of_cons.
      destruct Hp as [->|[->|?%elem_of_nil]]; [by right; left|by right; right; left|done].
    + destruct code as [code|]; cbn; split; try done.
      * intros ->. by destruct (later_steps_code _ _ _ _ _ El).
      * intros (a' & [_ ?]%Hopen). congruence.
      * intros _. exists a. by apply gate_open_iff.
  - right. exists a, e. split_and!; [done..|]. intros (a' & [_ ?]%Hopen). congruence.
Qed.

(** C2: The final gate answers every accepted contract with a decision and
    allows exactly the worlds [gate_open] describes: the action is live, at
    the contract's version and of the modern protocol when the call mutates;
    the registration, contract evidence, capability, policy version,
    confirmation, snapshot, plan (or service evidence), lease with its
    fencing token, and kill-switch epoch all match and are unexpired.
    Everything else, an exception of a store or of the verifier included, is
    a denial. *)
Theorem gate_allows_iff w c0 c call :
  new_ExecutionContract c0 = Ok c →
  (∀ verify ev e, gw_verifier w = Some verify → verify c ev (evaluated_at call) = Raise e →
     gate_catches e = true) →
  ∃ d, evaluate w c call = Ok d ∧ gd_contract_digest d = contract_digest c ∧
    (gd_allowed d = true ↔ ∃ a, gate_open w c call a).
Proof.
  intros Hc Hv. unfold evaluate.
  destruct (gate_body_cases w c call) as [(code & protocol & -> & Hp & Hcode)|(a & e & El & -> & Hno)].
  - destruct (decision_on_Ok c0 c code "apply_project_plan" protocol (evaluated_at call))
      as (d & -> & _ & Hd & Hg); [done|apply list_elem_of_here|done|].
    exists d. split_and!; [done..|]. by rewrite Hd, bool_decide_eq_true.
  - assert (gate_catches e = true) as ->.
    { apply later_steps_exn in El as [->|(verify & ev & ? & ?)]; eauto. }
    destruct (decision_on_Ok c0 c GateCode.INTERNAL_ERROR (value (ec_operation c)) None (evaluated_at call))
      as (d & -> & _ & Hd & Hg); [done|by destruct (ec_operation c); set_solver|set_solver|].
    exists d. split_and!; [done..|]. rewrite Hd. split; [done|]. by intros ?%Hno.
Qed.
