(* ===== verification/Executor.v ===== *)
(** * Executor: the bounded reference executor (control_plane/executor.py)

    [execute] and [reconcile] over the action repository.  The service hands
    the executor the repository's own plan store, audit ledger and
    confirmation dictionary, so the one mutable state is [repo].  Everything
    else the executor holds is the record [executor].  [clk i] is the [i]-th
    clock reading of a call made without [now]; [draws] are the random
    identifiers it draws. *)

From S2P Require Import Prelude PyStr PyTime Sha256 Json PyDict Models Lifecycle ProjectPlan.
From S2P Require Import Identity Policy Confirmation AuditLedger AuditBuilders KillSwitch.
From S2P Require Import Verification ActionRepo ActionSpec Capability Contract Gate.
From Stdlib Require Import Ascii String ZArith Lia.
From stdpp Require Import base strings gmap list.

Local Open Scope string_scope.
Local Open Scope Z_scope.
Local Open Scope aipm_scope.

(** ** State and results *)

Record ExecutionResult := {
  er_action_id : string;
  er_outcome : ExecutionOutcome.t;
  er_lifecycle_state : LifecycleState;
  er_mutated_revision : option Z;
  er_verification_success : option bool;
  er_verification_id : option string;
  er_refusal_reason : option string;
  er_receipt_status : option string;
}.

(** A result with the dataclass defaults. *)
Definition result_of (c : ExecutionContract) (o : ExecutionOutcome.t) (st : LifecycleState)
    (revision : option Z) (receipt : option string) : ExecutionResult :=
  {| er_action_id := ec_action_id c; er_outcome := o; er_lifecycle_state := st;
     er_mutated_revision := revision; er_verification_success := None;
     er_verification_id := None; er_refusal_reason := None; er_receipt_status := receipt |}.

(** [__init__]: the stores beside the repository.  A receipt query answers
    with decoded JSON ([JNull] for None) or raises. *)
Record executor := {
  xr_kill_switches : option kill_store;
  xr_snapshots : option (repo → string → option PlanSnapshot);
  xr_receipt_query : option (string → Z → result json);
  xr_verifier : option (ExecutionContract → ServiceEvidenceContract → datetime → result GateCode.t);
}.

Record draws := {
  dr_started : string;
  dr_succeeded : string;
  dr_verification_started : string;
  dr_verification : string;
  dr_verification_finished : string;
}.

Definition refused (code : string) : exn := ExecutionRefused code.

(** The executor's plan store is the repository's. *)
Definition shared_plans (s : repo) : plan_store := default ∅ (rp_plans s).
Definition read_plan (target_id : string) : M repo ProjectPlan :=
  do s <- getM;; liftM (snd (plans_read target_id (shared_plans s))).

(** [dict(pairs)]: a later pair wins. *)
Definition dict_map (l : list (string * string)) : gmap string string := list_to_map (reverse l).

(** ** Audit drafts *)

Definition execution_started_draft (rid : string) (c : ExecutionContract) (moment : datetime)
  : result AuditEventDraft :=
  let* e := execution_started rid SYSTEM_ACTOR moment (ec_action_id c) (Some (ec_plan_id c))
              (ec_target_id c) (ec_environment c) (ec_lease_id c) (ec_fencing_token c) in
  check_AuditEventDraft
    (on_outcome (ae_lifecycle_from e) (ae_lifecycle_to e)
       (option_map (λ code, code ++ ":cd=" ++ str_take 16 (contract_digest c)) (ae_result_code e))
       (ae_reason e) e).

Definition execution_succeeded_draft (rid : string) (c : ExecutionContract) (moment : datetime)
  : result AuditEventDraft :=
  execution_finished rid SYSTEM_ACTOR moment (ec_action_id c) (Some (ec_plan_id c)) (ec_target_id c)
    (ec_environment c) true.

Definition verification_started_draft (rid : string) (c : ExecutionContract) (moment : datetime)
  : result AuditEventDraft :=
  verification_started rid SYSTEM_ACTOR moment (ec_action_id c) (Some (ec_plan_id c))
    (Some (ec_expected_plan_revision c)) None (Some (ec_target_id c)) (Some (ec_environment c)) None.

Definition verification_finished_draft (rid : string) (c : ExecutionContract)
    (r : VerificationResult) (moment : datetime) : result AuditEventDraft :=
  verification_finished rid SYSTEM_ACTOR moment (ec_action_id c) (Some (ec_plan_id c))
    (Some (ec_expected_plan_revision c)) None (Some (ec_target_id c)) (Some (ec_environment c))
    (vr_verification_id r) (vr_success r) (value (vr_reason_code r)) (vr_verification_version r).

(** ** Preconditions *)

Section executor.
Variables (x : executor) (d : draws) (clk : nat → datetime) (c : ExecutionContract).

(** The call of the gate: only [now] is passed. *)
Definition gate_call_at (moment : datetime) : gate_call :=
  {| gc_now := Some moment; gc_clock := clk 1; gc_service_evidence := None;
     gc_service_scope := None; gc_category := MUTATION; gc_binding := None;
     gc_expected_protocol := None |}.

(** The gate over the executor's stores.  An in-memory repository has no
    registration store. *)
Definition gate_view (s : repo) : gate_world :=
  {| gw_actions := s; gw_plans := shared_plans s; gw_confirmation := λ id, get_confirmation id s;
     gw_snapshots := option_map (λ f, f s) (xr_snapshots x); gw_switches := xr_kill_switches x;
     gw_capabilities := default_registry; gw_registrations := None; gw_verifier := xr_verifier x |}.

(** [_validate_world] *)
Definition validate_world (moment : datetime) : M repo ActionLifecycle :=
  do s <- getM;;
  match get_action (ec_action_id c) s with
  | None => raiseM (refused "action_missing")
  | Some a =>
      assert_ lc_version a =? ec_action_version c else_raise refused "stale_action_version";;
      assert_ str_eqb (value (lc_operation a)) (value (ec_operation c))
        else_raise refused "operation_mismatch";;
      assert_ str_eqb (sc_target_id (lc_scope a)) (ec_target_id c) &&
              str_eqb (sc_environment (lc_scope a)) (ec_environment c)
        else_raise refused "binding_mismatch";;
      assert_ str_eqb (lc_plan_id a) (ec_plan_id c) &&
              (lc_plan_revision a =? ec_expected_plan_revision c)
        else_raise refused "binding_mismatch";;
      assert_ negb (ec_is_expired c moment) else_raise refused "contract_expired";;
      assert_ negb (lc_is_expired a moment) else_raise refused "action_expired";;
      match xr_kill_switches x with
      | None => retM a
      | Some k =>
          do sw <- liftM (current_switch c (gate_call_at moment) k);;
          assert_ ks_epoch sw =? ec_kill_switch_epoch c
            else_raise refused "kill_switch_epoch_mismatch";;
          assert_ permits_operations sw else_raise refused "kill_switch_engaged";;
          retM a
      end
  end.

Definition contract_evidence : ContractEvidence :=
  {| ce_contract_version := ec_contract_version c;
     ce_capability_version := ec_capability_version c;
     ce_contract_digest := contract_digest c |}.

(** [_bind_and_check_gate] *)
Definition bind_and_check_gate (a : ActionLifecycle) (moment : datetime) : M repo unit :=
  if bool_decide (lc_state a = LEASED) then
    do_ bind_contract_evidence (ec_action_id c) (lc_version a) contract_evidence;;
    do s <- getM;;
    do decision <- liftM (evaluate (gate_view s) c (gate_call_at moment));;
    assert_ gd_allowed decision else_raise refused (value (gd_reason decision));;
    retM ()
  else retM ().

(** [_validate_confirmation] *)
Definition validate_confirmation (allow_consumed : bool) (moment : datetime) : M repo unit :=
  do s <- getM;;
  match get_confirmation (ec_confirmation_id c) s with
  | None => raiseM (refused "confirmation_missing")
  | Some b =>
      assert_ str_eqb (cb_action_id b) (ec_action_id c) else_raise refused "confirmation_mismatch";;
      assert_ negb (cb_is_expired b moment) else_raise refused "confirmation_expired";;
      assert_ negb (bool_decide (cb_state b = CONSUMED) && negb allow_consumed)
        else_raise refused "confirmation_consumed";;
      retM ()
  end.

(** [_validate_snapshot] *)
Definition validate_snapshot : M repo unit :=
  match xr_snapshots x with
  | None => raiseM (refused "snapshot_unavailable")
  | Some snapshot_for =>
      do s <- getM;;
      match snapshot_for s (ec_action_id c) with
      | None => raiseM (refused "snapshot_missing")
      | Some sn =>
          assert_ bool_decide (sn_action_id sn = Some (ec_action_id c)) &&
                  str_eqb (sn_snapshot_id sn) (ec_snapshot_id c)
            else_raise refused "snapshot_mismatch";;
          assert_ (sn_revision sn =? ec_expected_plan_revision c) &&
                  str_eqb (sn_target_id sn) (ec_target_id c) else_raise refused "snapshot_stale";;
          assert_ str_eqb (sn_environment sn) (ec_environment c)
            else_raise refused "snapshot_mismatch";;
          retM ()
      end
  end.

(** [_validate_lease] *)
Definition validate_lease (moment : datetime) : M repo unit :=
  do s <- getM;;
  match active_lease (ec_action_id c) moment s with
  | None => raiseM (refused "lease_missing")
  | Some l =>
      assert_ str_eqb (ls_lease_id l) (ec_lease_id c) else_raise refused "lease_mismatch";;
      assert_ ls_fencing_token l =? ec_fencing_token c else_raise refused "stale_fencing_token";;
      assert_ match ls_action_version l with Some v => v =? ec_action_version c | None => true end
        else_raise refused "stale_lease";;
      assert_ negb (ls_expires_at l <=? moment) else_raise refused "lease_expired";;
      retM ()
  end.

(** [_validate_current_plan] *)
Definition validate_current_plan : M repo ProjectPlan :=
  do current <- read_plan (ec_target_id c);;
  assert_ (pp_revision current =? ec_expected_plan_revision c) &&
          str_eqb (pp_digest current) (ec_expected_plan_digest c) else_raise refused "stale_plan";;
  retM current.

(** ** Execution *)

Definition executable_states : list LifecycleState :=
  [SNAPSHOT_CAPTURED; LEASED; RUNNING; EXECUTED_PENDING_VERIFICATION].

(** [_utc(now)], the [i]-th reading. *)
Definition utc (now : option datetime) (i : nat) : datetime := default (clk i) now.

(** The independent verification that ends [execute]. *)
Definition verify_and_record (now : option datetime) (current_version mutated_revision : Z)
  : M repo ExecutionResult :=
  do started <- liftM (verification_started_draft (dr_verification_started d) c (utc now 2));;
  do_ append_evidence [started];;
  do current_plan <- read_plan (ec_target_id c);;
  do expected <- liftM (new_ExpectedState
    {| ex_target_id := ec_target_id c; ex_environment := ec_environment c;
       ex_revision := mutated_revision; ex_canonical_digest := None;
       ex_enabled := pp_enabled current_plan; ex_fields := ec_mutation_fields c |});;
  do observed <- liftM (observed_from_plan current_plan (clk 3));;
  do r <- liftM (verify expected observed (ec_action_id c) (dr_verification d));;
  do finished <- liftM (verification_finished_draft (dr_verification_finished d) c r (utc now 4));;
  do final <- record_verification_outcome (ec_action_id c) current_version r (utc now 5) [finished];;
  do_ release_lease (ec_action_id c) (ec_lease_id c) (ec_fencing_token c) (utc now 6);;
  retM {| er_action_id := ec_action_id c;
          er_outcome := if vr_success r then ExecutionOutcome.VERIFICATION_SUCCEEDED
                        else ExecutionOutcome.VERIFICATION_FAILED;
          er_lifecycle_state := lc_state final; er_mutated_revision := Some mutated_revision;
          er_verification_success := Some (vr_success r);
          er_verification_id := Some (vr_verification_id r); er_refusal_reason := None;
          er_receipt_status := None |}.

(** The mutation, or its resumption, after the preconditions held. *)
Definition mutate_and_verify (a : ActionLifecycle) (now : option datetime) (moment : datetime)
  : M repo ExecutionResult :=
  do current_version <-
    (if bool_decide (lc_state a = LEASED) then
       do started <- liftM (execution_started_draft (dr_started d) c moment);;
       do advanced <- begin_execution (ec_action_id c) (lc_version a) (ec_confirmation_id c) moment
                        [started];;
       retM (lc_version advanced)
     else retM (lc_version a));;
  do s <- getM;;
  match get_action (ec_action_id c) s with
  | None => raiseM AttributeError
  | Some a1 =>
      match lc_state a1 with
      | RUNNING =>
          do draft <- liftM (execution_succeeded_draft (dr_succeeded d) c moment);;
          do succeeded <- execute_plan_mutation (ec_action_id c) current_version
                            (ec_expected_plan_revision c) (dict_map (ec_mutation_fields c)) moment
                            [draft];;
          verify_and_record now (lc_version succeeded) (ec_expected_plan_revision c + 1)
      | EXECUTED_PENDING_VERIFICATION =>
          verify_and_record now (lc_version a1) (ec_expected_plan_revision c + 1)
      | _ => raiseM (refused "invalid_lifecycle_state")
      end
  end.

(** [Executor.execute] *)
Definition execute (now : option datetime) : M repo ExecutionResult :=
  let moment := utc now 0 in
  do a <- validate_world moment;;
  do_ bind_and_check_gate a moment;;
  if bool_decide (lc_state a = VERIFIED_SUCCESS) then
    retM (result_of c ExecutionOutcome.VERIFICATION_SUCCEEDED (lc_state a) None None)
  else
    assert_ in_states (lc_state a) executable_states else_raise refused "invalid_lifecycle_state";;
    do_ validate_confirmation (negb (bool_decide (lc_state a = LEASED))) moment;;
    do_ validate_snapshot;;
    do_ validate_lease moment;;
    do_ validate_current_plan;;
    mutate_and_verify a now moment.

(** ** Reconciliation *)

(** [response.get(key)] of a decoded JSON value that is a dict. *)
Definition json_get (key : string) (kvs : list (string * json)) : json :=
  default JNull (dget key kvs).

Definition receipt_statuses : list string :=
  ["receipt_created"; "mutation_succeeded"; "mutation_failed"; "unknown_outcome"; "not_found";
   "evidence_unavailable"].

(** [_receipt_evidence_status] *)
Definition receipt_evidence_status (s : repo) : option string :=
  match xr_receipt_query x, get_contract_evidence (ec_action_id c) s with
  | Some query, Some bound =>
      if str_nonempty (ce_contract_digest bound) then
        match query (ec_action_id c) (ec_fencing_token c) with
        | Ok (JObj response) =>
            match json_get "mutation_status" response, json_get "evidence" response with
            | JStr status, JObj evidence =>
                if str_nonempty status && (slen status <=? 32) &&
                   match json_get "action_id" evidence with
                   | JStr id => str_eqb id (ec_action_id c)
                   | _ => false
                   end &&
                   match json_get "fencing_token" evidence with
                   | JInt token => token =? ec_fencing_token c
                   | _ => false
                   end &&
                   match json_get "contract_digest" evidence with
                   | JStr digest => str_eqb digest (ce_contract_digest bound)
                   | _ => false
                   end &&
                   mem status receipt_statuses
                then Some status else None
            | _, _ => None
            end
        | _ => None
        end
      else None
  | _, _ => None
  end.

(** [current_fields.get(name) == value] *)
Definition plan_field (p : ProjectPlan) (name : string) : option string :=
  if str_eqb name "title" then Some (pp_title p)
  else if str_eqb name "objective" then Some (pp_objective p) else None.

(** The observation shows the mutation done. *)
Definition post_state (p : ProjectPlan) : bool :=
  (pp_revision p =? ec_expected_plan_revision c + 1) &&
  List.forallb (λ kv, bool_decide (plan_field p (fst kv) = Some (snd kv)))
    (dict_of (ec_mutation_fields c)).

(** The observation shows the plan untouched. *)
Definition pre_state (p : ProjectPlan) : bool :=
  (pp_revision p =? ec_expected_plan_revision c) && str_eqb (pp_digest p) (ec_expected_plan_digest c).

(** [Executor.reconcile] *)
Definition reconcile (now : option datetime) : M repo ExecutionResult :=
  let moment := utc now 0 in
  do s <- getM;;
  match get_action (ec_action_id c) s with
  | None => raiseM (refused "action_missing")
  | Some a =>
      let outcome := outcome_for_action (ec_action_id c) s in
      if negb (bool_decide (outcome = Some (value ExecutionOutcome.UNKNOWN_OUTCOME))) then
        do o <- liftM (match outcome with
                       | Some v => outcome_of_value v
                       | None => Raise ValueError
                       end);;
        retM (result_of c o (lc_state a) None None)
      else
        do current <- read_plan (ec_target_id c);;
        if post_state current then
          do final <- mark_reconciled (ec_action_id c) (lc_version a) EXECUTED_PENDING_VERIFICATION
                        (value ExecutionOutcome.MUTATION_SUCCEEDED) moment [];;
          retM (result_of c ExecutionOutcome.MUTATION_SUCCEEDED (lc_state final)
                  (Some (pp_revision current)) None)
        else if pre_state current then
          do_ mark_reconciled (ec_action_id c) (lc_version a) RECONCILIATION_REQUIRED
                (value ExecutionOutcome.MUTATION_NOT_STARTED) moment [];;
          retM (result_of c ExecutionOutcome.MUTATION_NOT_STARTED RECONCILIATION_REQUIRED None None)
        else
          retM (result_of c ExecutionOutcome.UNKNOWN_OUTCOME (lc_state a) None
                  (receipt_evidence_status s))
  end.
End executor.

(** ** Inversion of the repository operations *)

Lemma append_evidence_audit ds s s' r : append_evidence ds s = (s', r) → ∃ l, s' = set_audit l s.
Proof.
  revert s. induction ds as [|d ds IH]; intros s H.
  { injection H as <- _. exists (rp_audit s). by destruct s. }
  rewrite append_evidence_cons in H. destruct (rp_audit s) as [l|] eqn:El.
  - destruct (append_in_transaction d l) as [l' [e|e]].
    + apply IH in H as [l2 ->]. by exists l2.
    + injection H as <- _. by eexists.
  - injection H as <- _. exists (rp_audit s). by destruct s.
Qed.

Lemma advance_nil_Ok id v st actor now s s' a' :
  advance_action id v st actor now [] s = (s', Ok a') →
  ∃ a, get_action id s = Some a ∧ lc_version a = v ∧ advance a st (Some now) (Some actor) = Ok a' ∧
    s' = set_action id a' s.
Proof. unfold advance_action. intros H. repo_inv. cbn in *. inv_ok. by eexists. Qed.

Lemma read_plan_Ok t s s' p :
  read_plan t s = (s', Ok p) → s' = s ∧ shared_plans s !! t = Some p.
Proof.
  unfold read_plan, plans_read, bindM, getM, liftM. cbn [snd].
  destruct (shared_plans s !! t) as [q|]; cbn [snd]; [by intros [= <- <-]|done].
Qed.

Ltac exec_inv := repeat (repo_inv; match goal with
  | H : read_plan _ _ = (_, Ok _) |- _ => apply read_plan_Ok in H as [-> ?]
  | H : advance_action _ _ _ _ _ [] _ = (_, Ok _) |- _ =>
      apply advance_nil_Ok in H as (? & ? & ? & ? & ->)
  | H : append_evidence _ _ = (_, Ok _) |- _ => apply append_evidence_audit in H as [? ->]
  end); repo_inv.

Lemma begin_execution_Ok id v cid now ds s s' a' :
  begin_execution id v cid now ds s = (s', Ok a') →
  ∃ a b l, get_action id s = Some a ∧ lc_state a = LEASED ∧ lc_version a = v ∧
    get_confirmation cid s = Some b ∧ cb_state b = CONF_CONFIRMED ∧
    advance a RUNNING (Some now) (Some (lc_requester_subject a)) = Ok a' ∧
    s' = set_audit l (set_confirmations
           (dset cid (cb_with_state CONSUMED (cb_confirmed_by_subject b) b) (rp_confirmations s))
           (set_action id a' s)).
Proof.
  unfold begin_execution. intros H. exec_inv.
  destruct (get_confirmation _ _) as [b|] eqn:Eb; [|done]. exec_inv. simplify_eq.
  match goal with H : check_ConfirmationBinding _ = Ok _ |- _ =>
    unfold check_ConfirmationBinding in H; repo_inv end.
  eexists _, b, _. by split_and!.
Qed.

Lemma update_plans_Ok t rev fs now s s' u plans :
  rp_plans s = Some plans → update_plans t rev fs now s = (s', Ok u) →
  ∃ p p', plans !! t = Some p ∧ pp_update p rev fs now = Ok p' ∧
    s' = set_plans (Some (<[t := p']> plans)) s.
Proof.
  intros Hp. rewrite (update_plans_run _ _ _ _ _ plans) by done.
  destruct (plans !! t) as [p|]; [|done]. destruct (pp_update p rev fs now) as [p'|] eqn:E; [|done].
  intros [= <-]. by exists p, p'.
Qed.

Lemma execute_plan_mutation_Ok id v rev fs now ds s s' a' plans :
  rp_plans s = Some plans → execute_plan_mutation id v rev fs now ds s = (s', Ok a') →
  ∃ a p p' l, get_action id s = Some a ∧ lc_state a = RUNNING ∧ lc_version a = v ∧
    plans !! sc_target_id (lc_scope a) = Some p ∧ pp_update p rev fs now = Ok p' ∧
    advance a EXECUTED_PENDING_VERIFICATION (Some now) (Some (lc_requester_subject a)) = Ok a' ∧
    s' = set_audit l (set_outcome id "mutation_succeeded" (set_action id a'
           (set_plans (Some (<[sc_target_id (lc_scope a) := p']> plans)) s))).
Proof.
  intros Hp. unfold execute_plan_mutation. intros H. exec_inv.
  match goal with H : update_plans _ _ _ _ _ = _ |- _ =>
    destruct (update_plans_Ok _ _ _ _ _ _ _ _ Hp H) as (p & p' & ? & ? & ->) end.
  match goal with H1 : get_action ?i ?s = Some ?a, H2 : get_action ?i (set_plans _ ?s) = Some ?b |- _ =>
    change (get_action i s = Some b) in H2; rewrite H1 in H2; injection H2 as <- end.
  eexists _, p, p', _. by split_and!.
Qed.

Lemma record_verification_Ok id v r now ds s s' a' :
  record_verification_outcome id v r now ds s = (s', Ok a') →
  ∃ a l, get_action id s = Some a ∧ lc_state a = EXECUTED_PENDING_VERIFICATION ∧ lc_version a = v ∧
    advance a (if vr_success r then VERIFIED_SUCCESS else VERIFICATION_FAILED) (Some now)
      (Some (lc_requester_subject a)) = Ok a' ∧
    s' = set_audit l (set_outcome id
           (if vr_success r then "verification_succeeded" else "verification_failed")
           (set_verification r (set_action id a' s))).
Proof. unfold record_verification_outcome. intros H. exec_inv. simplify_eq. by eexists _, _. Qed.

Lemma release_lease_Ok id lid tok now s s' b :
  release_lease id lid tok now s = (s', Ok b) →
  match dget id (rp_leases s) with
  | Some l => if str_eqb (ls_lease_id l) lid && (ls_fencing_token l =? tok)
              then s' = set_lease id (released now l) s else s' = s
  | None => s' = s
  end.
Proof.
  unfold release_lease. unfold bindM at 1, getM at 1. intros H.
  destruct (dget id (rp_leases s)) as [l|]; [|by repo_inv].
  destruct (str_eqb _ _), (_ =? _); cbn [negb orb andb] in *; repo_inv; try done.
  match goal with H : check_ExecutionLease _ = Ok _ |- _ => by apply check_lease_Ok in H as -> end.
Qed.

(** ** A plan verifies against its own update *)

Lemma dict_of_snoc l k v : dict_of (l ++ [(k, v)])%list = dset k v (dict_of l).
Proof. unfold dict_of. by rewrite fold_left_app. Qed.
Lemma dict_of_wf l : dwf (dict_of l).
Proof.
  induction l as [|[k v] l IH] using rev_ind; [constructor|]. rewrite dict_of_snoc. by apply dset_wf.
Qed.
Lemma dict_of_get l k : dget k (dict_of l) = dict_map l !! k.
Proof.
  induction l as [|[k' v] l IH] using rev_ind; [done|]. unfold dict_map in *.
  rewrite dict_of_snoc, reverse_snoc, dget_set. cbn [list_to_map foldr fst snd]. case_decide as E.
  - subst. by rewrite lookup_insert_eq.
  - by rewrite lookup_insert_ne.
Qed.

Lemma update_observed p rev fs now p' k v :
  pp_update p rev (dict_map fs) now = Ok p' → (k, v) ∈ dict_of fs → plan_field p' k = Some v.
Proof.
  intros H Hin. apply In_dget in Hin; [|apply dict_of_wf]. rewrite dict_of_get in Hin.
  apply pp_update_Ok in H. destruct_and! H.
  match goal with H : ∀ k v, _ → k ∈ ALLOWED_FIELDS |- _ => pose proof (H _ _ Hin) as Hk end.
  unfold ALLOWED_FIELDS in Hk. rewrite !elem_of_cons in Hk. unfold plan_field.
  destruct Hk as [->|[->|Hk%elem_of_nil]]; [..|done]; cbn; f_equal;
    match goal with H : _ p' = default _ _ |- _ => rewrite H, Hin; reflexivity end.
Qed.

Lemma observed_fields p clock o k v :
  observed_from_plan p clock = Ok o → plan_field p k = Some v →
  dget k (dict_of (ob_fields o)) = Some v.
Proof.
  unfold observed_from_plan, new_ObservedState. intros H. inv_ok. cbn. unfold plan_field, str_eqb.
  destruct (String.leb (pp_objective p) (pp_title p)) eqn:?; repeat case_bool_decide; by intros [= <-]; subst.
Qed.

(** The executor's own write always passes the independent verification. *)
Lemma own_write_passes c p now p' t clock e o :
  sort_pairs (ec_mutation_fields c) = ec_mutation_fields c →
  pp_update p (ec_expected_plan_revision c) (dict_map (ec_mutation_fields c)) now = Ok p' →
  pp_target_id p = t → t = ec_target_id c → ec_environment c = "staging" →
  new_ExpectedState
    {| ex_target_id := ec_target_id c; ex_environment := ec_environment c;
       ex_revision := ec_expected_plan_revision c + 1; ex_canonical_digest := None;
       ex_enabled := pp_enabled p'; ex_fields := ec_mutation_fields c |} = Ok e →
  observed_from_plan p' clock = Ok o → verification_code e o = PASSED.
Proof.
  intros Hsort Hu Ht -> Henv He Ho. apply verification_code_PASSED.
  pose proof (λ k v, observed_fields p' clock o k v Ho) as Hf.
  pose proof (λ k v, update_observed _ _ _ _ _ k v Hu) as Hp.
  apply pp_update_Ok in Hu as (Hr & Hr' & Ht' & He' & Hs & _).
  unfold new_ExpectedState in He. unfold observed_from_plan, new_ObservedState in Ho. inv_ok.
  cbn [ex_target_id ex_environment ex_revision ex_canonical_digest ex_enabled ex_fields
    ob_target_id ob_environment ob_revision ob_canonical_digest ob_enabled].
  rewrite Hsort. split_and!; try done; [congruence|by rewrite He', Hs, Henv|lia|].
  intros k v Hin. by apply Hf, Hp.
Qed.

(** ** The preconditions of an execution *)

(** The repository after the contract digest has been bound. *)
Definition with_contract (c : ExecutionContract) (s : repo) : repo :=
  match get_contract_evidence (ec_action_id c) s with
  | Some _ => s
  | None => set_contract_evidence (ec_action_id c) (contract_evidence c) s
  end.

(** What [validate_world] asks of the action beyond what the gate asks. *)
Definition binds (c : ExecutionContract) (a : ActionLifecycle) : Prop :=
  lc_version a = ec_action_version c ∧ lc_operation a = UPDATE_PROJECT_PLAN ∧
  sc_target_id (lc_scope a) = ec_target_id c ∧ sc_environment (lc_scope a) = ec_environment c ∧
  lc_plan_id a = ec_plan_id c ∧ lc_plan_revision a = ec_expected_plan_revision c.

Definition lease_matches (c : ExecutionContract) (moment : datetime) (s : repo) : Prop :=
  ∃ l, active_lease (ec_action_id c) moment s = Some l ∧ ls_lease_id l = ec_lease_id c ∧
    ls_fencing_token l = ec_fencing_token c ∧
    (∀ v, ls_action_version l = Some v → v = ec_action_version c).

Definition snapshot_matches (x : executor) (c : ExecutionContract) (s : repo) : Prop :=
  ∃ f sn, xr_snapshots x = Some f ∧ f s (ec_action_id c) = Some sn ∧
    sn_action_id sn = Some (ec_action_id c) ∧ sn_snapshot_id sn = ec_snapshot_id c ∧
    sn_revision sn = ec_expected_plan_revision c ∧ sn_target_id sn = ec_target_id c ∧
    sn_environment sn = ec_environment c.

Ltac to_props := repeat match goal with
  | H : str_eqb _ _ = true |- _ => apply str_eqb_eq in H
  | H : (_ =? _) = true |- _ => apply Z.eqb_eq in H
  | H : (_ <=? _) = false |- _ => apply Z.leb_gt in H
  | H : bool_decide _ = true |- _ => apply bool_decide_eq_true in H
  end.

Section steps.
Variables (x : executor) (d : draws) (clk : nat → datetime) (c : ExecutionContract).

Lemma validate_world_reads m : reads (validate_world x clk c m).
Proof. unfold validate_world. solve_atomic. Qed.
Lemma validate_confirmation_reads b m : reads (validate_confirmation c b m).
Proof. unfold validate_confirmation. solve_atomic. Qed.
Lemma validate_snapshot_reads : reads (validate_snapshot x c).
Proof. unfold validate_snapshot. solve_atomic. Qed.
Lemma validate_lease_reads m : reads (validate_lease c m).
Proof. unfold validate_lease. solve_atomic. Qed.
Lemma validate_current_plan_reads : reads (validate_current_plan c).
Proof. unfold validate_current_plan, read_plan. solve_atomic. Qed.

Lemma validate_world_Ok m s s' a :
  validate_world x clk c m s = (s', Ok a) →
  s' = s ∧ get_action (ec_action_id c) s = Some a ∧ binds c a ∧ m < lc_expires_at a.
Proof.
  intros H. pose proof (reads_Ok _ _ _ _ (validate_world_reads m) H) as ->. split; [done|].
  unfold validate_world in H. unfold bindM at 1, getM in H.
  destruct (get_action (ec_action_id c) s) as [b|]; [|done].
  unfold ec_is_expired, lc_is_expired in H. inv_ok. to_props.
  assert (b = a) as ->. { destruct (xr_kill_switches x); by inv_ok. }
  split; [done|]. split; [|done]. split_and!; try done.
  match goal with H : value (lc_operation a) = _ |- _ => revert H end.
  destruct (lc_operation a), (ec_operation c); by cbn.
Qed.

Lemma bind_contract_with s s' u v :
  bind_contract_evidence (ec_action_id c) v (contract_evidence c) s = (s', Ok u) →
  s' = with_contract c s.
Proof.
  unfold bind_contract_evidence, with_contract, bindM, getM.
  destruct (get_contract_evidence _ s) as [e|]; [destruct (str_eqb _ _)|]; by intros [= <-].
Qed.

Lemma evaluate_allowed w call dec :
  evaluate w c call = Ok dec → gd_allowed dec = true → ∃ a, gate_open w c call a.
Proof.
  unfold evaluate. destruct (gate_body_cases w c call) as [(code & p & -> & _ & Hcode)|(a & e & _ & -> & _)].
  - unfold decision_on, check_ExecutionGateDecision.
    destruct (let* _ := _ in _) as [d0|e] eqn:E; [|destruct (gate_catches e)]; intros H Ha.
    + simplify_eq. inv_ok. cbn in Ha. to_props. by apply Hcode.
    + inv_ok. done.
    + done.
  - destruct (gate_catches e); [|done]. unfold decision_on, check_ExecutionGateDecision.
    intros H Ha. inv_ok. done.
Qed.

Lemma bind_and_check_gate_Ok a m s s' u :
  bind_and_check_gate x clk c a m s = (s', Ok u) →
  (lc_state a = LEASED → s' = with_contract c s ∧
     ∃ a', gate_open (gate_view x (with_contract c s)) c (gate_call_at clk m) a') ∧
  (lc_state a ≠ LEASED → s' = s).
Proof.
  unfold bind_and_check_gate. case_bool_decide as E; intros H; [|by inv_ok].
  split; [intros _|done]. inv_ok.
  match goal with H : bind_contract_evidence _ _ _ _ = _ |- _ => apply bind_contract_with in H as -> end.
  split; [done|]. by eapply evaluate_allowed.
Qed.

Lemma validate_snapshot_Ok s s' u : validate_snapshot x c s = (s', Ok u) → snapshot_matches x c s.
Proof.
  unfold validate_snapshot, snapshot_matches. destruct (xr_snapshots x) as [f|]; [|done].
  unfold bindM at 1, getM. destruct (f s _) as [sn|] eqn:E; [|done]. intros H. inv_ok. to_props.
  exists f, sn. by split_and!.
Qed.

Lemma validate_lease_Ok m s s' u : validate_lease c m s = (s', Ok u) → lease_matches c m s.
Proof.
  unfold validate_lease, lease_matches. unfold bindM at 1, getM.
  destruct (active_lease _ m s) as [l|] eqn:E; [|done]. intros H. inv_ok. to_props.
  exists l. split_and!; try done. intros v Hv.
  match goal with H : match ls_action_version l with _ => _ end = true |- _ => rewrite Hv in H end.
  by to_props.
Qed.

Lemma validate_current_plan_Ok s s' p :
  validate_current_plan c s = (s', Ok p) →
  shared_plans s !! ec_target_id c = Some p ∧ pp_revision p = ec_expected_plan_revision c ∧
  pp_digest p = ec_expected_plan_digest c.
Proof.
  unfold validate_current_plan. intros H. inv_ok. to_props.
  match goal with H : read_plan _ _ = _ |- _ => by apply read_plan_Ok in H as [-> ?] end.
Qed.
End steps.

Lemma active_lease_dget id m s l : active_lease id m s = Some l → dget id (rp_leases s) = Some l.
Proof. unfold active_lease. destruct (dget id _) as [l'|]; [|done]. by case_match; intros; simplify_eq. Qed.

(** Only a leased action can present a lease bound to its current version. *)
Lemma lease_matches_leased c m s a :
  repo_ok s → get_action (ec_action_id c) s = Some a → lc_version a = ec_action_version c →
  lease_matches c m s → lc_state a = LEASED.
Proof.
  intros Hs Ha Hv (l & Hl & _ & _ & Hver). apply active_lease_dget in Hl.
  destruct (ro_lease s Hs _ _ Hl) as (_ & _ & b & Hb & _ & v & Hlv & _ & Hlt). simplify_eq.
  specialize (Hver _ Hlv). destruct (decide (lc_state a = LEASED)); [done|]. specialize (Hlt n). lia.
Qed.

(** What an execution leaves behind. *)
Record executed (c : ExecutionContract) (m : datetime) (s s' : repo) (a : ActionLifecycle) : Prop := {
  xd_plan : ∃ plans p p', rp_plans s = Some plans ∧ plans !! ec_target_id c = Some p ∧
    pp_revision p = ec_expected_plan_revision c ∧ pp_digest p = ec_expected_plan_digest c ∧
    pp_update p (ec_expected_plan_revision c) (dict_map (ec_mutation_fields c)) m = Ok p' ∧
    rp_plans s' = Some (<[ec_target_id c := p']> plans);
  xd_action : ∃ a', get_action (ec_action_id c) s' = Some a' ∧ lc_state a' = VERIFIED_SUCCESS ∧
    lc_version a' = lc_version a + 3 ∧ same_binding a a';
  xd_others : ∀ id, id ≠ ec_action_id c → get_action id s' = get_action id s;
  xd_confirmation : ∃ b, get_confirmation (ec_confirmation_id c) s = Some b ∧
    cb_state b = CONF_CONFIRMED ∧
    get_confirmation (ec_confirmation_id c) s' =
      Some (cb_with_state CONSUMED (cb_confirmed_by_subject b) b);
  xd_lease : ∀ t, active_lease (ec_action_id c) t s' = None;
  xd_outcome : outcome_for_action (ec_action_id c) s' = Some "verification_succeeded";
}.

Lemma same_binding_trans a b c : same_binding a b → same_binding b c → same_binding a c.
Proof. unfold same_binding. congruence. Qed.

Lemma get_set_action id a s : get_action id (set_action id a s) = Some a.
Proof. apply dget_set_eq. Qed.

(** The end of an execution, on a store whose lease is the contract's. *)
Lemma verify_and_record_Ok d clk c now v rev s s' r p l0 :
  shared_plans s !! ec_target_id c = Some p → dget (ec_action_id c) (rp_leases s) = Some l0 →
  ls_lease_id l0 = ec_lease_id c → ls_fencing_token l0 = ec_fencing_token c →
  verify_and_record d clk c now v rev s = (s', Ok r) →
  ∃ e o a a' vr l l', new_ExpectedState
      {| ex_target_id := ec_target_id c; ex_environment := ec_environment c;
         ex_revision := rev; ex_canonical_digest := None;
         ex_enabled := pp_enabled p; ex_fields := ec_mutation_fields c |} = Ok e ∧
    observed_from_plan p (clk 3%nat) = Ok o ∧ vr_success vr = bool_decide (verification_code e o = PASSED) ∧
    get_action (ec_action_id c) s = Some a ∧ lc_version a = v ∧
    advance a (if vr_success vr then VERIFIED_SUCCESS else VERIFICATION_FAILED) (Some (utc clk now 5))
      (Some (lc_requester_subject a)) = Ok a' ∧
    er_outcome r = (if vr_success vr then ExecutionOutcome.VERIFICATION_SUCCEEDED
                    else ExecutionOutcome.VERIFICATION_FAILED) ∧
    er_lifecycle_state r = lc_state a' ∧
    s' = set_lease (ec_action_id c) (released (utc clk now 6) l0)
           (set_audit l (set_outcome (ec_action_id c)
              (if vr_success vr then "verification_succeeded" else "verification_failed")
              (set_verification vr (set_action (ec_action_id c) a' (set_audit l' s))))).
Proof.
  intros Hp Hl Hid Htok. unfold verify_and_record. intros H. exec_inv.
  match goal with H : shared_plans (set_audit _ ?s) !! _ = Some ?q |- _ =>
    assert (q = p) as -> by (change (shared_plans s !! ec_target_id c = Some q) in H; congruence) end.
  match goal with H : record_verification_outcome _ _ _ _ _ _ = _ |- _ =>
    apply record_verification_Ok in H as (a & l & Ha & _ & Hv & Hadv & ->) end.
  match goal with H : release_lease _ _ _ _ _ = _ |- _ => apply release_lease_Ok in H; rename H into Hrel end.
  cbn [rp_leases set_audit set_outcome set_verification set_action set_registered] in Hrel.
  rewrite Hl in Hrel. unfold str_eqb in Hrel.
  rewrite bool_decide_true, (proj2 (Z.eqb_eq _ _)) in Hrel by done. cbn [andb] in Hrel. subst s'.
  match goal with H : verify ?e ?o _ _ = Ok ?r |- _ =>
    assert (vr_success r = bool_decide (verification_code e o = PASSED)) as Hs
      by (unfold verify, check_VerificationResult in H; by inv_ok) end.
  eexists _, _, a, _, _, _, _.
  split; [eassumption|]. split; [eassumption|]. split; [exact Hs|]. split; [exact Ha|].
  split; [exact Hv|]. split; [exact Hadv|]. repeat split.
Qed.

(** ** Executions *)

(** The mutation path of a leased action. *)
Lemma mutate_and_verify_leased d clk c a now m s s' r l0 p :
  get_action (ec_action_id c) s = Some a → lc_state a = LEASED →
  sc_target_id (lc_scope a) = ec_target_id c →
  dget (ec_action_id c) (rp_leases s) = Some l0 → ls_lease_id l0 = ec_lease_id c →
  ls_fencing_token l0 = ec_fencing_token c →
  is_Some (rp_plans s) → shared_plans s !! ec_target_id c = Some p → pp_target_id p = ec_target_id c →
  ec_environment c = "staging" → sort_pairs (ec_mutation_fields c) = ec_mutation_fields c →
  pp_revision p = ec_expected_plan_revision c → pp_digest p = ec_expected_plan_digest c →
  mutate_and_verify d clk c a now m s = (s', Ok r) →
  er_outcome r = ExecutionOutcome.VERIFICATION_SUCCEEDED ∧ executed c m s s' a.
Proof.
  intros Ha Hst Htg Hl0 Hid Htok [plans Hplans] Hp Hpt Henv Hsort Hrev Hdig H.
  unfold mutate_and_verify in H. rewrite bool_decide_true in H by done. exec_inv.
  match goal with H : begin_execution _ _ _ _ _ _ = _ |- _ =>
    apply begin_execution_Ok in H as (a0 & b & l1 & Ha0 & _ & _ & Hb & Hbs & Hadv1 & ->) end.
  assert (a0 = a) as -> by congruence. clear Ha0.
  match type of H with context [set_action _ ?a1 ?s0] => rename a1 into ar, s0 into s end.
  match type of H with context [get_action (ec_action_id c) ?s1] =>
    assert (get_action (ec_action_id c) s1 = Some ar) as Hg by apply get_set_action end.
  rewrite Hg in H. apply advance_state in Hadv1 as (Hst1 & Hv1 & Hb1). rewrite Hst1 in H. exec_inv.
  match goal with H : execute_plan_mutation _ _ _ _ _ _ _ = _ |- _ =>
    eapply execute_plan_mutation_Ok in H; [|exact Hplans];
    destruct H as (a2 & q & p' & l2 & Ha2 & _ & _ & Hq & Hu & Hadv2 & ->) end.
  assert (a2 = ar) as -> by congruence. clear Ha2.
  assert (sc_target_id (lc_scope ar) = ec_target_id c) as Htr
    by (injection Hb1; congruence). rewrite Htr in *.
  assert (shared_plans s = plans) as Hsp by (unfold shared_plans; by rewrite Hplans).
  assert (q = p) as -> by congruence.
  eapply (verify_and_record_Ok _ _ _ _ _ _ _ _ _ p' l0) in H;
    [|apply lookup_insert_eq|exact Hl0|exact Hid|exact Htok].
  destruct H as (e & o & a3 & a' & vr & l & l' & He & Ho & Hvr & Ha3 & Hv3 & Hadv3 & Hout & _ & ->).
  assert (a3 = x2) as -> by (assert (Some x2 = Some a3) by (rewrite <- Ha3; symmetry; apply get_set_action);
    congruence).
  rewrite (own_write_passes c p m p' (ec_target_id c) (clk 3%nat) e o) in Hvr by done.
  rewrite bool_decide_true in Hvr by done. rewrite Hvr in *.
  apply advance_state in Hadv2 as (_ & Hv2 & Hb2), Hadv3 as (Hst3 & Hv3' & Hb3).
  split; [done|]. split.
  - exists plans, p, p'. by split_and!.
  - exists a'. split; [apply get_set_action|]. split; [done|]. split; [lia|].
    eapply same_binding_trans; [eassumption|]. by eapply same_binding_trans.
  - intros id Hne. unfold get_action, set_lease, set_action. cbn. by rewrite !dget_set_ne.
  - exists b. split; [done|]. split; [done|]. apply dget_set_eq.
  - intros t. unfold active_lease, set_lease. cbn. by rewrite dget_set_eq.
  - apply dget_set_eq.
Qed.

(** Binding the digest touches nothing an execution looks at. *)
Lemma with_contract_cases c s :
  with_contract c s = s ∨ with_contract c s = set_contract_evidence (ec_action_id c) (contract_evidence c) s.
Proof. unfold with_contract. destruct (get_contract_evidence _ s); auto. Qed.
Lemma executed_with_contract c m s s' a : executed c m (with_contract c s) s' a → executed c m s s' a.
Proof. destruct (with_contract_cases c s) as [->| ->]; [done|]. intros []. by constructor. Qed.
Lemma with_contract_action c s id : get_action id (with_contract c s) = get_action id s.
Proof. by destruct (with_contract_cases c s) as [->| ->]. Qed.
Lemma with_contract_ok c s : repo_ok s → repo_ok (with_contract c s).
Proof. destruct (with_contract_cases c s) as [->| ->]; [done|]. intros []. by constructor. Qed.

(** Everything before the mutation, on a call that gets there. *)
Lemma execute_preconditions x d clk c now s s' r :
  execute x d clk c now s = (s', Ok r) →
  let m := utc clk now 0 in
  ∃ a, get_action (ec_action_id c) s = Some a ∧ binds c a ∧ m < lc_expires_at a ∧
  ((lc_state a = VERIFIED_SUCCESS ∧ s' = s ∧ er_outcome r = ExecutionOutcome.VERIFICATION_SUCCEEDED) ∨
   (∃ s1 p, (lc_state a = LEASED → s1 = with_contract c s ∧
               ∃ a', gate_open (gate_view x s1) c (gate_call_at clk m) a') ∧
      (lc_state a ≠ LEASED → s1 = s) ∧ lease_matches c m s1 ∧ snapshot_matches x c s1 ∧
      shared_plans s1 !! ec_target_id c = Some p ∧ pp_revision p = ec_expected_plan_revision c ∧
      pp_digest p = ec_expected_plan_digest c ∧
      mutate_and_verify d clk c a now m s1 = (s', Ok r))).
Proof.
  intros H m. unfold execute in H. fold m in H.
  apply bindM_Ok in H as (s0 & a & Hw & H). apply validate_world_Ok in Hw as (-> & Ha & Hb & Hm).
  exists a. do 3 (split; [done|]).
  apply bindM_Ok in H as (s1 & u & Hg & H). apply bind_and_check_gate_Ok in Hg as [Hgl Hgn].
  case_bool_decide as Ev.
  { left. assert (s1 = s) as -> by (apply Hgn; congruence). by inv_ok. }
  right. apply bindM_Ok in H as (? & ? & Hst & H). apply liftM_raise_unless_Ok in Hst as [_ ->].
  apply bindM_Ok in H as (? & ? & Hc & H). apply reads_Ok in Hc as ->; [|apply validate_confirmation_reads].
  apply bindM_Ok in H as (? & ? & Hs & H). pose proof (validate_snapshot_Ok _ _ _ _ _ Hs).
  apply reads_Ok in Hs as ->; [|apply validate_snapshot_reads].
  apply bindM_Ok in H as (? & ? & Hl & H). pose proof (validate_lease_Ok _ _ _ _ _ Hl).
  apply reads_Ok in Hl as ->; [|apply validate_lease_reads].
  apply bindM_Ok in H as (? & p & Hp & H). pose proof (validate_current_plan_Ok _ _ _ _ Hp) as (? & ? & ?).
  apply reads_Ok in Hp as ->; [|apply validate_current_plan_reads].
  exists s1, p. split_and!; try done. intros Hl'. destruct (Hgl Hl') as [-> ?]. done.
Qed.

(** ** Properties *)

(** C3: A call of the executor that returns either reports an action that is
    already verified and changes nothing, or found a leased action of the
    modern protocol for which the final gate is open and whose lease and
    snapshot are the contract's; then exactly the authorized update was made
    to the plan at the authorized revision and digest, the confirmation was
    consumed, the action went through RUNNING and
    EXECUTED_PENDING_VERIFICATION to VERIFIED_SUCCESS, and its lease is gone.
    In particular a run without interference never reports a failed
    verification. *)
Theorem execute_sound x d clk c0 c now s s' r :
  repo_ok s → new_ExecutionContract c0 = Ok c →
  is_Some (rp_plans s) → map_Forall plan_ok (shared_plans s) →
  execute x d clk c now s = (s', Ok r) →
  let m := utc clk now 0 in
  er_outcome r = ExecutionOutcome.VERIFICATION_SUCCEEDED ∧
  ∃ a, get_action (ec_action_id c) s = Some a ∧ binds c a ∧
    ((lc_state a = VERIFIED_SUCCESS ∧ s' = s) ∨
     (lc_state a = LEASED ∧ lc_action_protocol a = "mc616d2-v1" ∧
      gate_open (gate_view x (with_contract c s)) c (gate_call_at clk m) a ∧
      lease_matches c m s ∧ snapshot_matches x c (with_contract c s) ∧ executed c m s s' a)).
Proof.
  intros Hs Hc Hplans Hok H m.
  apply execute_preconditions in H as (a & Ha & Hb & Hm & [(Hst & -> & Ho)|H]).
  { split; [done|]. exists a. split_and!; [done..|]. by left. }
  destruct H as (s1 & p & Hleased & Hother & Hlease & Hsnap & Hp & Hrev & Hdig & H). fold m in H, Hlease.
  assert (lc_state a = LEASED) as Hst.
  { destruct (decide (lc_state a = LEASED)) as [|n]; [done|]. rewrite (Hother n) in Hlease.
    eapply lease_matches_leased; [exact Hs|exact Ha|apply Hb|exact Hlease]. }
  destruct (Hleased Hst) as (-> & a' & Hgate). fold m in Hgate.
  pose proof (go_action _ _ _ _ Hgate) as Ha'. cbn [gw_actions gate_view] in Ha'.
  rewrite with_contract_action in Ha'. assert (a' = a) as -> by congruence.
  pose proof (new_contract_Ok _ _ Hc) as (Hce & _).
  assert (sort_pairs (ec_mutation_fields c) = ec_mutation_fields c) as Hsort
    by (rewrite Hce; apply sort_pairs_id, sort_pairs_in_order).
  assert (rp_plans (with_contract c s) = rp_plans s ∧ shared_plans (with_contract c s) = shared_plans s ∧
    (lease_matches c m (with_contract c s) → lease_matches c m s)) as (Hpw & Hsw & Hlw)
    by (by destruct (with_contract_cases c s) as [->| ->]).
  destruct Hlease as (l0 & Hl0 & Hid & Htok & Hver). pose proof (active_lease_dget _ _ _ _ Hl0).
  destruct (mutate_and_verify_leased d clk c a now m (with_contract c s) s' r l0 p) as [Ho Hx]; try done.
  - by rewrite with_contract_action.
  - apply Hb.
  - by rewrite Hpw.
  - rewrite Hsw in Hp. by apply Hok.
  - apply (go_staging _ _ _ _ Hgate).
  - split; [done|]. exists a. split; [done|]. split; [done|]. right. split; [done|].
    split; [by apply (go_category _ _ _ _ Hgate)|]. split; [done|].
    split; [by apply Hlw; exists l0|]. split; [done|]. by apply executed_with_contract.
Qed.

(** One step of a computation that has only read so far. *)
Lemma bindM_reads {A B} (m : M repo A) (k : A → M repo B) s s' r :
  reads m → bindM m k s = (s', r) →
  (∃ e, s' = s ∧ r = Raise e) ∨ ∃ a, m s = (s, Ok a) ∧ k a s = (s', r).
Proof.
  intros Hm. unfold bindM. destruct (m s) as [s1 [a|e]] eqn:E;
    pose proof (reads_Ok _ _ _ _ Hm E) as ->.
  - intros H. right. by exists a.
  - intros [= <- <-]. left. by exists e.
Qed.

Lemma read_plan_run t s p : shared_plans s !! t = Some p → read_plan t s = (s, Ok p).
Proof. intros H. unfold read_plan, plans_read, bindM, getM, liftM. cbn [snd]. by rewrite H. Qed.

Lemma mark_reconciled_run id st o now s a :
  get_action id s = Some a →
  mark_reconciled id (lc_version a) st o now [] s =
    match advance a st (Some now) (Some (lc_requester_subject a)) with
    | Ok a' => (set_outcome id o (set_action id a' s), Ok a')
    | Raise e => (s, Raise e)
    end.
Proof.
  intros H. unfold mark_reconciled, bindM at 1. rewrite the_action_run, H.
  unfold bindM at 1. rewrite check_version_run, Z.eqb_refl.
  unfold bindM at 1. rewrite (advance_action_run _ _ _ _ _ a) by done.
  by destruct (advance a st (Some now) (Some (lc_requester_subject a))).
Qed.

(** An interrupted execution is never resumed: whatever contract is
    presented, [execute] on an action that is neither leased nor verified
    raises and writes nothing.  The branches of the source that resume from
    RUNNING and EXECUTED_PENDING_VERIFICATION are unreachable, since a lease
    is bound to the version the action had when it was leased. *)
Lemma execute_never_resumes x d clk c now s a :
  repo_ok s → get_action (ec_action_id c) s = Some a →
  lc_state a ≠ LEASED → lc_state a ≠ VERIFIED_SUCCESS →
  ∃ e, execute x d clk c now s = (s, Raise e).
Proof.
  intros Hs Ha Hl Hv. destruct (execute x d clk c now s) as [s' r] eqn:E.
  enough (∃ e, s' = s ∧ r = Raise e) as (e & -> & ->) by eauto.
  unfold execute in E. set (m := utc clk now 0) in *.
  apply bindM_reads in E as [|(a1 & Hw & E)]; [done| |apply validate_world_reads].
  apply validate_world_Ok in Hw as (_ & Ha1 & Hb & _). assert (a1 = a) as -> by congruence.
  unfold bind_and_check_gate in E. rewrite bool_decide_false in E by done.
  apply bindM_reads in E as [|(u & _ & E)]; [done| |apply reads_ret].
  rewrite bool_decide_false in E by done.
  apply bindM_reads in E as [|(? & _ & E)]; [done| |apply reads_lift].
  apply bindM_reads in E as [|(? & _ & E)]; [done| |apply validate_confirmation_reads].
  apply bindM_reads in E as [|(? & _ & E)]; [done| |apply validate_snapshot_reads].
  apply bindM_reads in E as [|(? & Hlease & E)]; [done| |apply validate_lease_reads].
  apply validate_lease_Ok in Hlease. destruct Hl.
  eapply lease_matches_leased; [exact Hs|exact Ha|apply Hb|exact Hlease].
Qed.

(** C13: Reconciliation of an action with an unknown outcome never guesses.  It
    reports success only when it observes the contract's fields at the next
    revision, "not started" only when it observes the authorized plan
    untouched, and otherwise changes nothing and keeps the outcome unknown,
    whatever the receipt says; the plan is never written.  An action whose
    outcome is already known is left alone. *)
Theorem reconcile_spec x clk c now s a p :
  get_action (ec_action_id c) s = Some a → shared_plans s !! ec_target_id c = Some p →
  let unknown := outcome_for_action (ec_action_id c) s = Some (value ExecutionOutcome.UNKNOWN_OUTCOME) in
  ∃ s' r, reconcile x clk c now s = (s', r) ∧ rp_plans s' = rp_plans s ∧
  (¬ unknown → s' = s) ∧
  (unknown → post_state c p = false → pre_state c p = false → s' = s ∧
     r = Ok (result_of c ExecutionOutcome.UNKNOWN_OUTCOME (lc_state a) None
               (receipt_evidence_status x c s))) ∧
  (∀ o, unknown → r = Ok o →
     match er_outcome o with
     | ExecutionOutcome.MUTATION_SUCCEEDED =>
         post_state c p = true ∧ lc_state a = RUNNING ∧
         outcome_for_action (ec_action_id c) s' = Some "mutation_succeeded"
     | ExecutionOutcome.MUTATION_NOT_STARTED =>
         post_state c p = false ∧ pre_state c p = true ∧
         outcome_for_action (ec_action_id c) s' = Some "mutation_not_started"
     | ExecutionOutcome.UNKNOWN_OUTCOME => s' = s
     | _ => False
     end).
Proof.
  intros Ha Hp unknown. unfold reconcile, bindM at 1, getM at 1. rewrite Ha.
  destruct (decide (outcome_for_action (ec_action_id c) s = Some (value ExecutionOutcome.UNKNOWN_OUTCOME)))
    as [Hu|Hu].
  2: { rewrite (bool_decide_false (_ = Some _)) by done. unfold bindM, liftM. cbn [negb].
       destruct (match outcome_for_action (ec_action_id c) s with Some _ => _ | None => _ end);
         eexists s, _; split_and!; try done; intros; by destruct Hu. }
  rewrite (bool_decide_true (_ = Some _)) by done. cbn [negb].
  unfold bindM at 1. rewrite (read_plan_run _ _ _ Hp).
  destruct (post_state c p) eqn:Epost.
  { unfold bindM. rewrite (mark_reconciled_run _ _ _ _ _ a) by done.
    destruct (advance a _ _ _) as [a'|e] eqn:Eadv; eexists _, _; split_and!; try done.
    intros o _ [= <-]. split; [done|]. split; [|apply dget_set_eq].
    apply advance_Ok in Eadv as (He & _). by apply edge_into in He. }
  destruct (pre_state c p) eqn:Epre.
  { unfold bindM. rewrite (mark_reconciled_run _ _ _ _ _ a) by done.
    destruct (advance a _ _ _) as [a'|e] eqn:Eadv; eexists _, _; split_and!; try done.
    intros o _ [= <-]. split; [done|]. split; [done|apply dget_set_eq]. }
  eexists s, _. split_and!; try done. by intros o _ [= <-].
Qed.
