(* ===== verification/RollbackExec.v ===== *)
(** * RollbackExec: executing a rollback (control_plane/executor.py, execute_rollback)

    The bounded inverse of a failed mutation, run as an action of its own: the
    contract is rebuilt from the repository, the final gate must be open for it,
    the plan is updated with the texts of the original action's snapshot, and an
    independent verification decides whether the original action becomes
    ROLLED_BACK or ROLLBACK_FAILED. *)

From S2P Require Import Prelude PyStr PyText PyDict PyTime PyIso Sha256 Json JsonParse Models Lifecycle ProjectPlan Identity Policy.
From S2P Require Import Confirmation AuditLedger AuditBuilders KillSwitch Verification Rollback.
From S2P Require Import ActionRepo ActionSpec Capability Contract Gate Executor.
From Stdlib Require Import Ascii String ZArith Lia.
From stdpp Require Import base strings gmap list.

Local Open Scope string_scope.
Local Open Scope Z_scope.
Local Open Scope aipm_scope.

(** Random identifiers of one call, beside those of an execution. *)
Record rollback_draws := {
  rd_execution : draws;
  rd_lease_id : string;
  rd_lease_event : string;
  rd_finished : string;
}.

Section rollback.
Variables (py : py_values) (x : executor) (d : rollback_draws) (clk : nat → datetime).

(** The first binding of the action that was confirmed, in the store's order. *)
Definition confirmed_binding (action_id : string) (s : repo) : option ConfirmationBinding :=
  List.find (λ b, str_eqb (cb_action_id b) action_id && bool_decide (cb_state b ∈ [CONF_CONFIRMED; CONSUMED]))
    (dvalues (rp_confirmations s)).

(** [_load_snapshot_for_original] *)
Definition load_snapshot_for_original (original_id : string) : M repo PlanSnapshot :=
  match xr_snapshots x with
  | None => raiseM (refused "snapshot_unavailable")
  | Some snapshot_for =>
      do s <- getM;;
      match snapshot_for s original_id with
      | None => raiseM (refused "snapshot_missing")
      | Some sn => retM sn
      end
  end.

(** The switch of an environment given as text. *)
Definition switch_of (k : kill_store) (environment : string) : result KillSwitch :=
  let* e := environment_of environment in snd (switch e (clk 1%nat) k).

(** [_contract_for_action] *)
Definition contract_fields (a : ActionLifecycle) (r : ActionRequest)
  : M repo (option PlanSnapshot * list (string * string)) :=
  match lc_rollback_of_action_id a with
  | Some original_id =>
      if str_nonempty original_id then
        do sn <- load_snapshot_for_original original_id;;
        do fs <- liftM (snapshot_restore_fields sn);;
        retM (Some sn, [("objective", py_str py (snd fs)); ("title", py_str py (fst fs))])
      else retM (None, mutation_metadata r)
  | None => retM (None, mutation_metadata r)
  end.
Definition contract_for_action (a : ActionLifecycle) (moment : datetime) : M repo ExecutionContract :=
  do s <- getM;;
  match (if str_nonempty (lc_decision_id a) then get_decision (lc_decision_id a) s else None) with
  | None => raiseM (refused "binding_missing")
  | Some decision =>
      match ad_request decision with
      | None => raiseM (refused "binding_missing")
      | Some request =>
          match active_lease (lc_action_id a) moment s with
          | None => raiseM (refused "lease_missing")
          | Some lease =>
              match confirmed_binding (lc_action_id a) s with
              | None => raiseM (refused "confirmation_missing")
              | Some binding =>
                  do sf <- contract_fields a request;;
                  let '(snapshot, mutation_fields) := sf in
                  do epoch <- liftM (match xr_kill_switches x with
                                     | None => Ok 1
                                     | Some k => let* sw := switch_of k (sc_environment (lc_scope a)) in Ok (ks_epoch sw)
                                     end);;
                  liftM (new_ExecutionContract
                    {| ec_contract_version := EXECUTION_CONTRACT_VERSION; ec_action_id := lc_action_id a;
                       ec_action_version := lc_version a; ec_operation := EXEC_UPDATE_PROJECT_PLAN;
                       ec_target_id := sc_target_id (lc_scope a); ec_environment := sc_environment (lc_scope a);
                       ec_plan_id := lc_plan_id a; ec_expected_plan_revision := lc_plan_revision a;
                       ec_expected_plan_digest := match ad_action_identity decision with
                                                  | Some i => id_target_digest i
                                                  | None => string_of_list_ascii (repeat "0"%char 64)
                                                  end;
                       ec_mutation_fields := mutation_fields;
                       ec_snapshot_id := match snapshot with
                                         | Some sn => sn_snapshot_id sn
                                         | None => match lc_snapshot_id a with
                                                   | Some id => if str_nonempty id then id else "unknown"
                                                   | None => "unknown"
                                                   end
                                         end;
                       ec_decision_id := ad_decision_id decision; ec_confirmation_id := cb_confirmation_id binding;
                       ec_policy_version := sc_policy_version (lc_scope a);
                       ec_verification_version := VERIFICATION_VERSION; ec_kill_switch_epoch := epoch;
                       ec_lease_id := ls_lease_id lease; ec_fencing_token := ls_fencing_token lease;
                       ec_expires_at := lc_expires_at a; ec_capability_version := "1";
                       ec_service_evidence := None |})
              end
          end
      end
  end.

(** The gate [execute_rollback] builds has no evidence verifier. *)
Definition without_verifier : executor :=
  {| xr_kill_switches := xr_kill_switches x; xr_snapshots := xr_snapshots x;
     xr_receipt_query := xr_receipt_query x; xr_verifier := None |}.

Definition rollback_eligible_states : list LifecycleState :=
  [VERIFICATION_FAILED; EXECUTION_FAILED; ROLLBACK_REQUESTED].

(** The checks of both actions. *)
Definition validate_rollback (rollback_id original_id : string) (moment : datetime)
  : M repo (ActionLifecycle * ActionLifecycle) :=
  do s <- getM;;
  match get_action rollback_id s with
  | None => raiseM (refused "action_missing")
  | Some rollback =>
      match get_action original_id s with
      | None => raiseM (refused "action_missing")
      | Some original =>
          assert_ bool_decide (lc_rollback_of_action_id rollback = Some original_id)
            else_raise refused "binding_mismatch";;
          assert_ in_states (lc_state original) rollback_eligible_states
            else_raise refused "invalid_original_state";;
          assert_ str_eqb (value (lc_operation rollback)) "rollback_project_plan" else_raise refused "operation_mismatch";;
          assert_ negb (lc_is_expired rollback moment || lc_is_expired original moment)
            else_raise refused "action_expired";;
          do permitted <- liftM (match xr_kill_switches x with
                                 | None => Ok true
                                 | Some k => let* sw := switch_of k (sc_environment (lc_scope rollback)) in
                                             Ok (permits_operations sw)
                                 end);;
          assert_ permitted else_raise refused "kill_switch_engaged";;
          retM (rollback, original)
      end
  end.

(** A value that is no string is refused by the plan like an empty one. *)
Definition field_text (v : pyval) : string := match v with VStr s => s | _ => "" end.
Definition rollback_finished_draft (original : ActionLifecycle) (success : bool) (moment : datetime)
    (c : ExecutionContract) : result AuditEventDraft :=
  rollback_finished (rd_finished d) SYSTEM_ACTOR moment (lc_action_id original) (Some (lc_plan_id original))
    (sc_target_id (lc_scope original)) (sc_environment (lc_scope original)) success (Some (contract_digest c)).

(** The restored fields of a snapshot. *)
Definition restore_fields (fs : pyval * pyval) : list (string * string) :=
  [("title", field_text (fst fs)); ("objective", field_text (snd fs))].

(** The verification that ends a rollback. *)
Definition verify_rollback (c : ExecutionContract) (rollback_id : string) (current_version : Z)
    (target environment original_id : string) (original : ActionLifecycle) (sn : PlanSnapshot) (now : option datetime)
  : M repo ExecutionResult :=
  let moment (i : nat) := utc clk now i in
  do started <- liftM (verification_started_draft (dr_verification_started (rd_execution d)) c (moment 2%nat));;
  do_ append_evidence [started];;
  do current_plan <- read_plan target;;
  do fs <- liftM (snapshot_restore_fields sn);;
  do expected <- liftM (new_ExpectedState
    {| ex_target_id := target; ex_environment := environment; ex_revision := pp_revision current_plan;
       ex_canonical_digest := None; ex_enabled := pp_enabled current_plan;
       ex_fields := [("objective", field_text (snd fs)); ("title", field_text (fst fs))] |});;
  do observed <- liftM (observed_from_plan current_plan (clk 3%nat));;
  do r <- liftM (verify expected observed rollback_id (dr_verification (rd_execution d)));;
  do finished <- liftM (verification_finished_draft (dr_verification_finished (rd_execution d)) c r (moment 4%nat));;
  do final <- record_verification_outcome rollback_id current_version r (moment 5%nat) [finished];;
  do draft <- liftM (rollback_finished_draft original (vr_success r) (moment 7%nat) c);;
  do restored <- advance_rollback_state original_id (lc_version original) [ROLLBACK_REQUESTED]
                   (if vr_success r then ROLLED_BACK else ROLLBACK_FAILED) (moment 6%nat) [draft];;
  do_ release_lease rollback_id (ec_lease_id c) (ec_fencing_token c) (moment 8%nat);;
  retM {| er_action_id := rollback_id;
          er_outcome := if vr_success r then ExecutionOutcome.ROLLBACK_SUCCEEDED else ExecutionOutcome.ROLLBACK_FAILED;
          er_lifecycle_state := if vr_success r then lc_state restored else lc_state final;
          er_mutated_revision := None; er_verification_success := Some (vr_success r);
          er_verification_id := Some (vr_verification_id r); er_refusal_reason := None; er_receipt_status := None |}.

(** The action of this id, which the source dereferences. *)
Definition reload (id : string) : M repo ActionLifecycle :=
  do s <- getM;; match get_action id s with Some a => retM a | None => raiseM AttributeError end.

(** The confirmation is consumed and the rollback runs. *)
Definition begin_rollback (c : ExecutionContract) (rollback_id : string) (rollback : ActionLifecycle)
    (moment : datetime) : M repo (Z * ActionLifecycle) :=
  if bool_decide (lc_state rollback = LEASED) then
    do started <- liftM (execution_started_draft (dr_started (rd_execution d)) c moment);;
    do advanced <- begin_execution rollback_id (lc_version rollback) (ec_confirmation_id c) moment [started];;
    do a <- reload rollback_id;;
    retM (lc_version advanced, a)
  else retM (lc_version rollback, rollback).

(** The bounded inverse mutation and its verification. *)
Definition restore_and_verify (c : ExecutionContract) (rollback_id original_id : string) (version : Z)
    (rollback original : ActionLifecycle) (now : option datetime) (moment : datetime) : M repo ExecutionResult :=
  do sn <- load_snapshot_for_original original_id;;
  do fs <- liftM (snapshot_restore_fields sn);;
  do current <- read_plan (sc_target_id (lc_scope rollback));;
  assert_ pp_revision current =? lc_plan_revision original + 1 else_raise refused "stale_plan";;
  do mutated <- (if bool_decide (lc_state rollback = RUNNING) then
                   do draft <- liftM (execution_succeeded_draft (dr_succeeded (rd_execution d)) c moment);;
                   do a <- execute_plan_mutation rollback_id version (pp_revision current)
                             (dict_map (restore_fields fs)) moment [draft];;
                   retM (lc_version a, a)
                 else retM (version, rollback));;
  let '(version, rollback) := mutated in
  verify_rollback c rollback_id version (sc_target_id (lc_scope rollback)) (sc_environment (lc_scope rollback))
    original_id original sn now.

(** The lease a rollback takes for itself when it has none yet. *)
Definition prepare_lease (rollback : ActionLifecycle) (rollback_id : string) (moment : datetime)
  : M repo ActionLifecycle :=
  if bool_decide (lc_state rollback = SNAPSHOT_CAPTURED) then
    do_ acquire_lease rollback_id (lc_version rollback) moment [] (rd_lease_id d) (rd_lease_event d);;
    reload rollback_id
  else retM rollback.

(** [Executor.execute_rollback] *)
Definition execute_rollback (rollback_id original_id : string) (now : option datetime) : M repo ExecutionResult :=
  let moment := utc clk now 0%nat in
  do actions <- validate_rollback rollback_id original_id moment;;
  let '(rollback0, original) := actions in
  do rollback <- prepare_lease rollback0 rollback_id moment;;
  do c <- contract_for_action rollback moment;;
  do_ validate_lease c moment;;
  do s <- getM;;
  do decision <- liftM (evaluate (gate_view without_verifier s) c (gate_call_at clk moment));;
  assert_ gd_allowed decision else_raise refused (value (gd_reason decision));;
  do_ bind_contract_evidence rollback_id (lc_version rollback) (contract_evidence c);;
  do running <- begin_rollback c rollback_id rollback moment;;
  restore_and_verify c rollback_id original_id (fst running) (snd running) original now moment.
End rollback.

(** ** Inversion of the steps *)

Section steps.
Variables (py : py_values) (x : executor) (d : rollback_draws) (clk : nat → datetime).

Lemma validate_rollback_Ok rid oid m s s' rb o :
  validate_rollback x clk rid oid m s = (s', Ok (rb, o)) →
  s' = s ∧ get_action rid s = Some rb ∧ get_action oid s = Some o ∧
  lc_rollback_of_action_id rb = Some oid ∧ lc_state o ∈ rollback_eligible_states ∧
  lc_operation rb = ROLLBACK_PROJECT_PLAN ∧ m < lc_expires_at rb ∧ m < lc_expires_at o.
Proof.
  unfold validate_rollback. unfold bindM at 1, getM at 1.
  destruct (get_action rid s) as [rb'|] eqn:Er; [|done].
  destruct (get_action oid s) as [o'|] eqn:Eo; [|done].
  unfold lc_is_expired, in_states. intros H. inv_ok. to_props.
  split_and!; try done.
  - match goal with H : value (lc_operation rb) = _ |- _ => revert H end. by destruct (lc_operation rb).
  - lia.
  - lia.
Qed.

Lemma acquired_lease_changes id v now ds lrid rid s s' la :
  acquire_lease id v now ds lrid rid s = (s', Ok la) →
  ∃ a a' l au, get_action id s = Some a ∧ lc_state a = SNAPSHOT_CAPTURED ∧ lc_version a = v ∧
    advance a LEASED (Some now) (Some (lc_requester_subject a)) = Ok a' ∧
    s' = set_audit au (set_lease id l (set_action id a' s)).
Proof.
  unfold acquire_lease. intros H. exec_inv. simplify_eq. by eexists _, _, _, _.
Qed.

(** The repository of which the contract is taken: the rollback action is
    leased, the rest is as the call found it. *)
Record leased_from (rid : string) (rb0 rb : ActionLifecycle) (s s1 : repo) : Prop := {
  lf_action : get_action rid s1 = Some rb;
  lf_binding : same_binding rb0 rb;
  lf_others : ∀ id, id ≠ rid → get_action id s1 = get_action id s;
  lf_plans : rp_plans s1 = rp_plans s;
  lf_confirmations : rp_confirmations s1 = rp_confirmations s;
  lf_snapshots : rp_snapshots s1 = rp_snapshots s;
}.

Lemma same_binding_refl a : same_binding a a.
Proof. done. Qed.
Lemma leased_from_refl rid rb s : get_action rid s = Some rb → leased_from rid rb rb s s.
Proof. intros. by split. Qed.

Lemma reload_Ok id s s' a : reload id s = (s', Ok a) → s' = s ∧ get_action id s = Some a.
Proof. unfold reload, bindM, getM. destruct (get_action id s); [by intros [= <- <-]|done]. Qed.

Lemma get_set_action_ne id id' a s : id ≠ id' → get_action id (set_action id' a s) = get_action id s.
Proof. intros. unfold get_action, set_action. cbn. by rewrite dget_set_ne. Qed.

Lemma prepare_lease_Ok rid rb0 m s s1 rb :
  get_action rid s = Some rb0 →
  prepare_lease d rb0 rid m s = (s1, Ok rb) →
  leased_from rid rb0 rb s s1 ∧ (lc_state rb0 = SNAPSHOT_CAPTURED ∨ rb = rb0) ∧ (repo_ok s → repo_ok s1).
Proof.
  unfold prepare_lease. intros Ha. case_bool_decide as Est; intros H.
  2: { inv_ok. split; [by apply leased_from_refl|]. auto. }
  exec_inv. match goal with H : acquire_lease _ _ _ _ _ _ _ = _ |- _ =>
    pose proof (acquire_lease_safe _ _ _ _ _ _ _ _ _ H) as Hsafe;
    apply acquired_lease_changes in H as (a & a' & l & au & Ha' & _ & _ & Hadv & ->) end.
  match goal with H : reload _ _ = _ |- _ => apply reload_Ok in H as [-> Hr] end.
  split; [|split; [by left|intros Hs; by apply Hsafe]].
  assert (a = rb0) as -> by congruence.
  change (get_action rid (set_action rid a' s) = Some rb) in Hr. rewrite get_set_action in Hr. simplify_eq.
  apply advance_state in Hadv as (_ & _ & ?). split; try done.
  - apply get_set_action.
  - intros id Hne. unfold get_action, set_audit, set_lease, set_action. cbn. by rewrite dget_set_ne.
Qed.

Lemma load_snapshot_reads oid : reads (load_snapshot_for_original x oid).
Proof. unfold load_snapshot_for_original. solve_atomic. Qed.

Lemma contract_for_action_Ok a m s s' c :
  contract_for_action py x clk a m s = (s', Ok c) →
  s' = s ∧ (∃ c0, new_ExecutionContract c0 = Ok c) ∧
  ec_action_id c = lc_action_id a ∧ ec_action_version c = lc_version a ∧
  ec_target_id c = sc_target_id (lc_scope a) ∧ ec_environment c = sc_environment (lc_scope a) ∧
  ec_plan_id c = lc_plan_id a ∧ ec_expected_plan_revision c = lc_plan_revision a ∧ ec_service_evidence c = None.
Proof.
  intros H. assert (reads (contract_for_action py x clk a m)) as Hr.
  { unfold contract_for_action, contract_fields, load_snapshot_for_original. solve_atomic. }
  pose proof (reads_Ok _ _ _ _ Hr H) as ->. split; [done|].
  unfold contract_for_action in H. unfold bindM at 1, getM at 1 in H.
  destruct (if str_nonempty _ then _ else _) as [dec|]; [|done].
  destruct (ad_request dec) as [req|]; [|done].
  destruct (active_lease _ _ _) as [lease|]; [|done].
  destruct (confirmed_binding _ _) as [b|]; [|done].
  apply bindM_Ok in H as (? & [sn fs] & _ & H). apply bindM_Ok in H as (? & epoch & _ & H).
  unfold liftM in H. injection H as _ H. split; [by eexists|].
  apply new_contract_Ok in H as [-> _]. by split_and!.
Qed.

(** What a verification that returns leaves behind, on a store whose lease is
    the contract's. *)
Lemma verify_rollback_Ok c rid v t env oid o sn now s s' r p l0 :
  shared_plans s !! t = Some p → dget rid (rp_leases s) = Some l0 →
  ls_lease_id l0 = ec_lease_id c → ls_fencing_token l0 = ec_fencing_token c → rid ≠ oid →
  verify_rollback d clk c rid v t env oid o sn now s = (s', Ok r) →
  ∃ title objective e ob vr a a' b b',
    snapshot_restore_fields sn = Ok (title, objective) ∧
    new_ExpectedState
      {| ex_target_id := t; ex_environment := env; ex_revision := pp_revision p; ex_canonical_digest := None;
         ex_enabled := pp_enabled p;
         ex_fields := [("objective", field_text objective); ("title", field_text title)] |} = Ok e ∧
    observed_from_plan p (clk 3%nat) = Ok ob ∧ vr_success vr = bool_decide (verification_code e ob = PASSED) ∧
    get_action rid s = Some a ∧
    advance a (if vr_success vr then VERIFIED_SUCCESS else VERIFICATION_FAILED) (Some (utc clk now 5))
      (Some (lc_requester_subject a)) = Ok a' ∧
    get_action oid s = Some b ∧ lc_state b = ROLLBACK_REQUESTED ∧ lc_version b = lc_version o ∧
    advance b (if vr_success vr then ROLLED_BACK else ROLLBACK_FAILED) (Some (utc clk now 6))
      (Some (lc_requester_subject b)) = Ok b' ∧
    er_outcome r = (if vr_success vr then ExecutionOutcome.ROLLBACK_SUCCEEDED
                    else ExecutionOutcome.ROLLBACK_FAILED) ∧
    rp_plans s' = rp_plans s ∧ rp_confirmations s' = rp_confirmations s ∧
    get_action rid s' = Some a' ∧ get_action oid s' = Some b' ∧
    (∀ id, id ≠ rid → id ≠ oid → get_action id s' = get_action id s) ∧
    (∀ m, active_lease rid m s' = None).
Proof.
  intros Hp Hl Hid Htok Hne. unfold verify_rollback. intros H. exec_inv.
  match goal with H : shared_plans (set_audit _ ?s) !! _ = Some ?q |- _ =>
    assert (q = p) as -> by (change (shared_plans s !! t = Some q) in H; congruence) end.
  match goal with H : snapshot_restore_fields sn = Ok ?fs |- _ => destruct fs as [title objective] end.
  match goal with H : record_verification_outcome _ _ _ _ _ _ = _ |- _ =>
    apply record_verification_Ok in H as (a & l & Ha & _ & Hv & Hadv & ->) end.
  match goal with H : advance_rollback_state _ _ _ _ _ _ _ = _ |- _ =>
    unfold advance_rollback_state in H; exec_inv end.
  match goal with H : release_lease _ _ _ _ _ = _ |- _ => apply release_lease_Ok in H; rename H into Hrel end.
  cbn [rp_leases set_audit set_outcome set_verification set_action set_registered] in Hrel.
  rewrite Hl in Hrel. unfold str_eqb in Hrel.
  rewrite bool_decide_true, (proj2 (Z.eqb_eq _ _)) in Hrel by done. cbn [andb] in Hrel. subst s'.
  match goal with H : verify ?e ?o _ _ = Ok ?r |- _ =>
    assert (vr_success r = bool_decide (verification_code e o = PASSED)) as Hs
      by (unfold verify, check_VerificationResult in H; by inv_ok) end.
  match goal with H : get_action oid (set_audit _ _) = Some ?b1, H' : get_action oid (set_audit _ _) = Some ?b2 |- _ =>
    tryif constr_eq b1 b2 then fail else
    (assert (b2 = b1) as -> by congruence; clear H'; rename H into Hb, b1 into b) end.
  match type of Hb with get_action _ (set_audit _ (set_outcome _ _ (set_verification _ (set_action _ ?a1 ?s1)))) = _ =>
    change (get_action oid (set_action rid a1 s1) = Some b) in Hb; rewrite get_set_action_ne in Hb by done end.
  match goal with H : lc_state b ∈ _ |- _ => apply list_elem_of_singleton in H end.
  eexists title, objective, _, _, _, a, _, b, _.
  do 12 (split; [try done; eassumption|]). repeat split; try done.
  - unfold get_action, set_lease. cbn. rewrite dget_set_ne by done. apply dget_set_eq.
  - apply dget_set_eq.
  - intros id Hr Ho. unfold get_action, set_lease. cbn. by rewrite !dget_set_ne.
  - intros m. unfold active_lease, set_lease. cbn. by rewrite dget_set_eq.
Qed.
End steps.

(** ** A rollback that returns *)

(** What a rollback leaves behind. *)
Record rolled_back (rid oid : string) (sn : PlanSnapshot) (m : datetime) (s s' : repo) (rb o : ActionLifecycle)
  : Prop := {
  rk_plan : ∃ plans p p' fs, rp_plans s = Some plans ∧ plans !! sc_target_id (lc_scope rb) = Some p ∧
    pp_revision p = lc_plan_revision o + 1 ∧ pp_revision p = lc_plan_revision rb ∧
    snapshot_restore_fields sn = Ok fs ∧ pp_update p (pp_revision p) (dict_map (restore_fields fs)) m = Ok p' ∧
    pp_title p' = field_text (fst fs) ∧ pp_objective p' = field_text (snd fs) ∧
    rp_plans s' = Some (<[sc_target_id (lc_scope rb) := p']> plans);
  rk_rollback : ∃ a, get_action rid s' = Some a ∧ lc_state a = VERIFIED_SUCCESS ∧ same_binding rb a;
  rk_original : ∃ a, get_action oid s' = Some a ∧ lc_state a = ROLLED_BACK ∧ lc_version a = lc_version o + 1 ∧
    same_binding o a;
  rk_others : ∀ id, id ≠ rid → id ≠ oid → get_action id s' = get_action id s;
  rk_confirmation : ∃ cid b, get_confirmation cid s = Some b ∧ cb_action_id b = rid ∧
    cb_state b = CONF_CONFIRMED ∧
    get_confirmation cid s' = Some (cb_with_state CONSUMED (cb_confirmed_by_subject b) b);
  rk_lease : ∀ t, active_lease rid t s' = None;
}.

(** The rollback's own write always passes the independent verification. *)
Lemma rollback_write_passes c fs p m p' t env clock e ob :
  pp_update p (pp_revision p) (dict_map (restore_fields fs)) m = Ok p' →
  pp_target_id p = t → t = ec_target_id c → env = "staging" → ec_environment c = env →
  new_ExpectedState
    {| ex_target_id := t; ex_environment := env; ex_revision := pp_revision p'; ex_canonical_digest := None;
       ex_enabled := pp_enabled p';
       ex_fields := [("objective", field_text (snd fs)); ("title", field_text (fst fs))] |} = Ok e →
  observed_from_plan p' clock = Ok ob → verification_code e ob = PASSED.
Proof.
  intros Hu Ht Htc -> Henv. pose proof (pp_update_Ok _ _ _ _ _ Hu) as (_ & -> & _).
  set (fields := [("objective", field_text (snd fs)); ("title", field_text (fst fs))]).
  assert (dict_map (restore_fields fs) = dict_map fields) as Hd.
  { unfold dict_map, restore_fields, fields. cbn. rewrite insert_insert_ne; done. }
  rewrite Hd in Hu. intros He Ho.
  pose (c1 := {| ec_contract_version := ""; ec_action_id := ""; ec_action_version := 0;
                 ec_operation := ec_operation c; ec_target_id := t; ec_environment := "staging"; ec_plan_id := "";
                 ec_expected_plan_revision := pp_revision p; ec_expected_plan_digest := "";
                 ec_mutation_fields := fields; ec_snapshot_id := ""; ec_decision_id := "";
                 ec_confirmation_id := ""; ec_policy_version := ""; ec_verification_version := "";
                 ec_kill_switch_epoch := 0; ec_lease_id := ""; ec_fencing_token := 0; ec_expires_at := 0;
                 ec_capability_version := ""; ec_service_evidence := None |}).
  by eapply (own_write_passes c1 p m p' t clock).
Qed.

Lemma snapshot_of_frame id s s' :
  rp_snapshots s' = rp_snapshots s → snapshot_for_action id s' = snapshot_for_action id s.
Proof. unfold snapshot_for_action. by intros ->. Qed.

Lemma load_snapshot_Ok x oid s s' sn :
  xr_snapshots x = Some (λ s id, snapshot_for_action id s) →
  load_snapshot_for_original x oid s = (s', Ok sn) → s' = s ∧ snapshot_for_action oid s = Some sn.
Proof.
  intros Hx. unfold load_snapshot_for_original. rewrite Hx. unfold bindM, getM.
  destruct (snapshot_for_action oid s); [by intros [= <- <-]|done].
Qed.

(** The mutation and its verification, on a repository whose rollback action
    runs under the contract. *)
Lemma restore_and_verify_Ok x d clk c rid oid ar o now m s s' r l0 p plans :
  xr_snapshots x = Some (λ s id, snapshot_for_action id s) → rid ≠ oid →
  get_action rid s = Some ar → get_action oid s = Some o → lc_state ar = RUNNING →
  ec_target_id c = sc_target_id (lc_scope ar) → ec_environment c = sc_environment (lc_scope ar) →
  ec_environment c = "staging" →
  dget rid (rp_leases s) = Some l0 → ls_lease_id l0 = ec_lease_id c → ls_fencing_token l0 = ec_fencing_token c →
  rp_plans s = Some plans → plans !! ec_target_id c = Some p → pp_target_id p = ec_target_id c →
  pp_revision p = lc_plan_revision ar →
  restore_and_verify x d clk c rid oid (lc_version ar) ar o now m s = (s', Ok r) →
  er_outcome r = ExecutionOutcome.ROLLBACK_SUCCEEDED ∧ lc_state o = ROLLBACK_REQUESTED ∧
  ∃ sn p' fs a b, snapshot_for_action oid s = Some sn ∧ pp_revision p = lc_plan_revision o + 1 ∧
    snapshot_restore_fields sn = Ok fs ∧ pp_update p (pp_revision p) (dict_map (restore_fields fs)) m = Ok p' ∧
    rp_plans s' = Some (<[ec_target_id c := p']> plans) ∧ rp_confirmations s' = rp_confirmations s ∧
    get_action rid s' = Some a ∧ lc_state a = VERIFIED_SUCCESS ∧ same_binding ar a ∧
    get_action oid s' = Some b ∧ lc_state b = ROLLED_BACK ∧ lc_version b = lc_version o + 1 ∧ same_binding o b ∧
    (∀ id, id ≠ rid → id ≠ oid → get_action id s' = get_action id s) ∧ (∀ m, active_lease rid m s' = None).
Proof.
  intros Hx Hne Ha Ho Hst Hct Hce Hstg Hl0 Hid Htok Hplans Hp Hpt Hrev H.
  unfold restore_and_verify in H. apply bindM_Ok in H as (s1 & sn & Hsn & H).
  apply load_snapshot_Ok in Hsn as [-> Hsn]; [|done].
  assert (shared_plans s = plans) as Hsp by (unfold shared_plans; by rewrite Hplans).
  rewrite (bool_decide_true (lc_state ar = RUNNING)) in H by done. exec_inv.
  rename x1 into fs, x3 into p0, x6 into s2, x11 into am.
  assert (p0 = p) as -> by congruence. to_props.
  match goal with H : execute_plan_mutation _ _ _ _ _ _ _ = _ |- _ =>
    eapply execute_plan_mutation_Ok in H; [|exact Hplans];
    destruct H as (a2 & q & p' & l2 & Ha2 & _ & _ & Hq & Hu & Hadv & ->) end.
  assert (a2 = ar) as -> by congruence. assert (q = p) as -> by congruence.
  apply advance_state in Hadv as (_ & Hv2 & Hb2).
  assert (sc_target_id (lc_scope am) = ec_target_id c ∧ sc_environment (lc_scope am) = ec_environment c) as [Htm Hem]
    by (split; injection Hb2; congruence).
  rewrite Htm, Hem in H. rewrite <- Hct in *.
  eapply (verify_rollback_Ok _ _ _ _ _ _ _ _ _ _ _ _ _ _ p' l0) in H;
    [|apply lookup_insert_eq|exact Hl0|exact Hid|exact Htok|exact Hne].
  destruct H as (title & objective & e & ob & vr & a & a' & b & b' & Hfs & He & Hob & Hvr & Har & Hadv & Hbo & Hbst &
    Hbv & Hbadv & Hout & Hpl & Hcf & Hga & Hgb & Hoth & Hls).
  assert (fs = (title, objective)) as -> by congruence.
  rewrite (rollback_write_passes c (title, objective) p m p' (ec_target_id c) (ec_environment c) (clk 3%nat) e ob)
    in Hvr by done.
  rewrite bool_decide_true in Hvr by done. rewrite Hvr in *.
  change (get_action oid (set_action rid am x0) = Some b) in Hbo. rewrite get_set_action_ne in Hbo by done.
  assert (b = o) as -> by congruence.
  change (get_action rid (set_action rid am x0) = Some a) in Har. rewrite get_set_action in Har.
  injection Har as <-.
  apply advance_state in Hadv as (Hst3 & _ & Hb3), Hbadv as (Hst4 & Hv4 & Hb4).
  split; [done|]. split; [done|]. exists sn, p', (title, objective), a', b'. split_and!; try done.
  - by eapply same_binding_trans.
  - intros id Hr' Ho'. rewrite Hoth by done.
    change (get_action id (set_action rid am x0) = get_action id x0). by apply get_set_action_ne.
Qed.

(** From the state of the leased rollback action on. *)
Lemma rollback_after_gate x d clk c rid oid rb o now m s s' s2 ran r l0 p :
  xr_snapshots x = Some (λ s id, snapshot_for_action id s) → rid ≠ oid →
  get_action rid s = Some rb → get_action oid s = Some o → lc_state rb = LEASED →
  ec_target_id c = sc_target_id (lc_scope rb) → ec_environment c = sc_environment (lc_scope rb) →
  ec_environment c = "staging" →
  dget rid (rp_leases s) = Some l0 → ls_lease_id l0 = ec_lease_id c → ls_fencing_token l0 = ec_fencing_token c →
  is_Some (rp_plans s) → shared_plans s !! ec_target_id c = Some p → pp_target_id p = ec_target_id c →
  pp_revision p = lc_plan_revision rb →
  (∀ b, get_confirmation (ec_confirmation_id c) s = Some b → cb_action_id b = rid) →
  begin_rollback d c rid rb m s = (s2, Ok ran) →
  restore_and_verify x d clk c rid oid (fst ran) (snd ran) o now m s2 = (s', Ok r) →
  er_outcome r = ExecutionOutcome.ROLLBACK_SUCCEEDED ∧ lc_state o = ROLLBACK_REQUESTED ∧
  ∃ sn, snapshot_for_action oid s = Some sn ∧ rolled_back rid oid sn m s s' rb o.
Proof.
  intros Hx Hne Ha Ho Hst Hct Hce Hstg Hl0 Hid Htok [plans Hplans] Hp Hpt Hrev Hconf Hb H.
  unfold begin_rollback in Hb. rewrite bool_decide_true in Hb by done. exec_inv.
  match goal with H : begin_execution _ _ _ _ _ _ = _ |- _ =>
    apply begin_execution_Ok in H as (a0 & b & l1 & Ha0 & _ & _ & Hcb & Hbs & Hadv1 & ->) end.
  assert (a0 = rb) as -> by congruence.
  match goal with H : reload _ _ = _ |- _ => apply reload_Ok in H as [-> Hr] end.
  assert (Hg := Hr). cbn in Hg. unfold get_action in Hg. cbn in Hg. rewrite dget_set_eq in Hg. injection Hg as ->.
  cbn [fst snd] in H. apply advance_state in Hadv1 as (Hst1 & Hv1 & Hb1).
  eapply (restore_and_verify_Ok _ _ _ _ _ _ _ _ _ _ _ _ _ l0 p plans) in H; try done.
  2: { unfold get_action, set_audit, set_confirmations, set_action. cbn. by rewrite dget_set_ne. }
  2-3: injection Hb1; congruence.
  2: { unfold shared_plans in Hp. by rewrite Hplans in Hp. }
  2: injection Hb1; congruence.
  destruct H as (Ho' & Hor & sn & p' & fs & a & b' & Hsn & Hpo & Hfs & Hu & Hpl & Hcf & Hga & Hsa & Hba & Hgb & Hsb & Hvb &
    Hbb & Hoth & Hls).
  split; [done|]. split; [done|]. exists sn. split; [done|]. split.
  - exists plans, p, p', fs. rewrite <- Hct. split; [done|].
    split; [unfold shared_plans in Hp; by rewrite Hplans in Hp|].
    do 4 (split; [done|]). pose proof (pp_update_Ok _ _ _ _ _ Hu) as Hf. destruct_and! Hf.
    split; [|split; [|done]]; match goal with H : _ p' = default _ _ |- _ = field_text _ => rewrite H end.
    + unfold dict_map. cbn. by rewrite lookup_insert_ne, lookup_insert_eq by done.
    + unfold dict_map. cbn. by rewrite lookup_insert_eq.
  - exists a. split_and!; try done. by eapply same_binding_trans.
  - by exists b'.
  - intros id Hr' Ho2. rewrite Hoth by done. unfold get_action, set_audit, set_confirmations, set_action. cbn.
    by rewrite dget_set_ne.
  - exists (ec_confirmation_id c), b. split_and!; try done; [by apply Hconf|].
    unfold get_confirmation. rewrite Hcf. apply dget_set_eq.
  - done.
Qed.

Lemma leased_from_with_contract rid rb0 rb c s s1 :
  leased_from rid rb0 rb s s1 → leased_from rid rb0 rb s (with_contract c s1).
Proof. destruct (with_contract_cases c s1) as [->| ->]; [done|]. intros []. by constructor. Qed.

(** Leasing the rollback action is part of what the call leaves behind. *)
Lemma rolled_back_leased rid oid sn m s s1 s' rb rb1 o :
  leased_from rid rb rb1 s s1 → rolled_back rid oid sn m s1 s' rb1 o → rolled_back rid oid sn m s s' rb o.
Proof.
  intros [_ Hb Hoth Hpl Hcf _] [Rp Rr Ro Roth Rc Rl]. unfold get_confirmation in Rc. rewrite Hcf in Rc.
  rewrite Hpl in Rp. split; try done.
  - replace (lc_plan_revision rb) with (lc_plan_revision rb1) by (injection Hb; congruence).
    by replace (lc_scope rb) with (lc_scope rb1) by (injection Hb; congruence).
  - destruct Rr as (a & ? & ? & ?). exists a. split_and!; try done. by eapply same_binding_trans.
  - intros. rewrite Roth by done. by apply Hoth.
Qed.

(** C10: A rollback that returns restored what it says.  It ran as a leased
    action of its own that names the original action; the final gate was open
    for the contract rebuilt from the repository; the original action was in
    ROLLBACK_REQUESTED and its plan exactly one revision past the one it was
    authorized for.  Then the plan carries the title and objective of the
    original action's snapshot at the next revision, the rollback action is
    verified, the original is ROLLED_BACK, the confirmation of the rollback is
    consumed, its lease is gone, and no other action moved.  A failed
    verification is never reported. *)
Theorem rollback_restores py x d clk rid oid now s s' r :
  repo_ok s → xr_snapshots x = Some (λ s id, snapshot_for_action id s) →
  is_Some (rp_plans s) → map_Forall plan_ok (shared_plans s) →
  execute_rollback py x d clk rid oid now s = (s', Ok r) →
  let m := utc clk now 0 in
  er_outcome r = ExecutionOutcome.ROLLBACK_SUCCEEDED ∧
  ∃ rb rb1 o sn c s1, get_action rid s = Some rb ∧ get_action oid s = Some o ∧
    lc_rollback_of_action_id rb = Some oid ∧ lc_operation rb = ROLLBACK_PROJECT_PLAN ∧
    lc_state rb ∈ [SNAPSHOT_CAPTURED; LEASED] ∧ lc_state o = ROLLBACK_REQUESTED ∧
    snapshot_for_action oid s = Some sn ∧ leased_from rid rb rb1 s s1 ∧
    ec_action_id c = rid ∧ lease_matches c m s1 ∧
    gate_open (gate_view (without_verifier x) s1) c (gate_call_at clk m) rb1 ∧
    rolled_back rid oid sn m s s' rb o.
Proof.
  intros Hs Hx Hplans Hok H m. unfold execute_rollback in H. fold m in H.
  apply bindM_Ok in H as (s0 & [rb o] & Hv & H).
  apply validate_rollback_Ok in Hv as (-> & Hrb & Ho & Hof & Hel & Hop & _).
  apply bindM_Ok in H as (s1 & rb1 & Hprep & H).
  pose proof (prepare_lease_Ok _ _ _ _ _ _ _ Hrb Hprep) as (Hlf & Hsc & Hs1). specialize (Hs1 Hs).
  apply bindM_Ok in H as (? & c & Hc & H). apply contract_for_action_Ok in Hc as (-> & _ & Hcid & Hcv & Hct & Hce & _ & Hcr & Hcev).
  rewrite (ro_action _ Hs1 _ _ (lf_action _ _ _ _ _ Hlf)) in Hcid.
  apply bindM_Ok in H as (? & ? & Hl & H). pose proof (validate_lease_Ok _ _ _ _ _ Hl) as Hlm.
  apply reads_Ok in Hl as ->; [|apply validate_lease_reads].
  apply bindM_Ok in H as (? & ? & Hget & H). injection Hget as <- <-.
  apply bindM_Ok in H as (? & dec & Hdec & H). injection Hdec as <- Hdec.
  apply bindM_Ok in H as (? & ? & Hal & H). apply liftM_raise_unless_Ok in Hal as [Hal ->].
  destruct (evaluate_allowed _ _ _ _ Hdec Hal) as (a' & Hgate).
  pose proof (go_action _ _ _ _ Hgate) as Ha'. cbn [gw_actions gate_view] in Ha'.
  rewrite Hcid, (lf_action _ _ _ _ _ Hlf) in Ha'. injection Ha' as <-.
  apply bindM_Ok in H as (s2 & ? & Hbind & H). apply bindM_Ok in H as (s3 & ran & Hbegin & H).
  rewrite <- Hcid in Hbind at 1. apply bind_contract_with in Hbind as ->.
  pose proof (leased_from_with_contract _ _ _ c _ _ Hlf) as Hlf2.
  assert (lc_state rb1 = LEASED) as Hst1
    by (eapply lease_matches_leased; [exact Hs1|rewrite Hcid; apply Hlf|by rewrite Hcv|exact Hlm]).
  assert (rid ≠ oid) as Hne.
  { intros <-. assert (o = rb) as -> by congruence. destruct Hsc as [E|E]; [|subst rb1];
      rewrite ?E, ?Hst1 in Hel; unfold rollback_eligible_states in Hel; rewrite !elem_of_cons, elem_of_nil in Hel;
      naive_solver. }
  pose proof (lf_binding _ _ _ _ _ Hlf) as Hb. pose proof (go_plan _ _ _ _ Hgate) as Hp.
  unfold plan_confirmed, effective_evidence in Hp. cbn [gc_service_evidence gate_call_at] in Hp. rewrite Hcev in Hp.
  destruct Hp as (p & Hp & Hpr & _). cbn [gw_plans gate_view] in Hp.
  destruct (go_confirmation _ _ _ _ Hgate) as (b & Hcb & Hba & _). cbn [gw_confirmation gate_view] in Hcb.
  destruct Hlm as (l0 & Hl0 & Hlid & Hltok & Hlv). pose proof (active_lease_dget _ _ _ _ Hl0) as Hl0'.
  assert (shared_plans (with_contract c s1) = shared_plans s) as Hsp
    by (unfold shared_plans; by rewrite (lf_plans _ _ _ _ _ Hlf2)).
  assert (shared_plans s1 = shared_plans s) as Hsp1 by (unfold shared_plans; by rewrite (lf_plans _ _ _ _ _ Hlf)).
  rewrite Hsp1 in Hp.
  assert (dget rid (rp_leases (with_contract c s1)) = Some l0) as Hl2
    by (rewrite <- Hcid; by destruct (with_contract_cases c s1) as [->| ->]).
  assert (get_confirmation (ec_confirmation_id c) (with_contract c s1) = Some b) as Hcb2
    by by destruct (with_contract_cases c s1) as [->| ->].
  destruct (rollback_after_gate x d clk c rid oid rb1 o now m (with_contract c s1) s' s3 ran r l0 p)
    as (Hout & Hro & sn & Hsn & Hrk); try done.
  - by apply (lf_action _ _ _ _ _ Hlf2).
  - by rewrite (lf_others _ _ _ _ _ Hlf2).
  - apply (go_staging _ _ _ _ Hgate).
  - by rewrite (lf_plans _ _ _ _ _ Hlf2).
  - by rewrite Hsp.
  - by apply Hok.
  - congruence.
  - intros b' Hb'. congruence.
  - split; [done|]. exists rb, rb1, o, sn, c, s1. rewrite (snapshot_of_frame _ s) in Hsn by apply Hlf2.
    split_and!; try done.
    + destruct Hsc as [->| <-]; [|rewrite Hst1]; set_solver.
    + exists l0. done.
    + by eapply rolled_back_leased.
Qed.
