(* ===== verification/Session.v ===== *)
(** * Session: the owner session store (control_plane/session.py)

    [OwnerSessionStore] keeps sessions in a dictionary and an authentication
    epoch.  Every call takes [now] explicitly; session identifiers and CSRF
    tokens, drawn by [secrets.token_urlsafe] in the source, are arguments.  The
    store is described by what its history says about an identifier: the last
    creation nothing has killed since, and the last time it was used. *)

From S2P Require Import Prelude PyStr PyTime Identity.
From Stdlib Require Import Ascii String ZArith Lia.
From stdpp Require Import base strings gmap fin_maps list.

Local Open Scope string_scope.
Local Open Scope Z_scope.
Local Open Scope aipm_scope.

(** ** Data *)

Record OwnerSession := {
  se_session_id : string;
  se_principal : OwnerPrincipal;
  se_auth_epoch : Z;
  se_created_at : datetime;
  se_last_seen_at : datetime;
  se_expires_at : datetime;
  se_inactivity_expires_at : datetime;
  se_csrf_token : string;
}.
#[export] Instance OwnerSession_eq_dec : EqDecision OwnerSession.
Proof. solve_decision. Defined.

Definition session_is_active (s : OwnerSession) (now : datetime) : bool :=
  (1 <=? se_auth_epoch s) && is_usable (se_principal s) now &&
  (now <? se_expires_at s) && (now <? se_inactivity_expires_at s).

(** [verify_csrf]: [None] is a request without a token. *)
Definition verify_csrf (s : OwnerSession) (presented : option string) : bool :=
  match presented with
  | None => false
  | Some p => str_nonempty p && str_nonempty (se_csrf_token s) && str_eqb p (se_csrf_token s)
  end.

Record session_store := {
  ss_sessions : gmap string OwnerSession;
  ss_absolute_lifetime : timedelta;
  ss_inactivity_timeout : timedelta;
  ss_auth_epoch : Z;
}.

Definition new_OwnerSessionStore (absolute inactivity : timedelta) (auth_epoch : Z) : result session_store :=
  require (0 <? absolute) && (0 <? inactivity) else_raise ValueError;;
  require 1 <=? auth_epoch else_raise ValueError;;
  Ok {| ss_sessions := ∅; ss_absolute_lifetime := absolute; ss_inactivity_timeout := inactivity;
        ss_auth_epoch := auth_epoch |}.

Definition with_sessions (m : gmap string OwnerSession) (s : session_store) : session_store :=
  {| ss_sessions := m; ss_absolute_lifetime := ss_absolute_lifetime s;
     ss_inactivity_timeout := ss_inactivity_timeout s; ss_auth_epoch := ss_auth_epoch s |}.

(** ** Operations *)

Definition create_session (session_id csrf_token : string) (principal : OwnerPrincipal) (now : datetime)
  : M session_store OwnerSession :=
  do s <- getM;;
  let session :=
    {| se_session_id := session_id; se_principal := principal; se_auth_epoch := ss_auth_epoch s;
       se_created_at := now; se_last_seen_at := now;
       se_expires_at := now + ss_absolute_lifetime s;
       se_inactivity_expires_at := now + ss_inactivity_timeout s;
       se_csrf_token := csrf_token |} in
  do_ modifyM (with_sessions (<[session_id := session]> (ss_sessions s)));;
  retM session.

Definition revoke_session (session_id : string) : M session_store unit :=
  modifyM (λ s, with_sessions (delete session_id (ss_sessions s)) s).
Definition revoke_all_sessions : M session_store unit := modifyM (with_sessions ∅).

(** The session as a successful lookup refreshes it. *)
Definition refreshed (x : OwnerSession) (inactivity : timedelta) (now : datetime) : OwnerSession :=
  {| se_session_id := se_session_id x; se_principal := se_principal x; se_auth_epoch := se_auth_epoch x;
     se_created_at := se_created_at x; se_last_seen_at := now; se_expires_at := se_expires_at x;
     se_inactivity_expires_at := Z.min (se_expires_at x) (now + inactivity);
     se_csrf_token := se_csrf_token x |}.

Definition get_session (session_id : string) (now : datetime) : M session_store (option OwnerSession) :=
  do s <- getM;;
  match ss_sessions s !! session_id with
  | None => retM None
  | Some x =>
      if negb (se_auth_epoch x =? ss_auth_epoch s) || negb (session_is_active x now) then
        do_ revoke_session session_id;;
        retM None
      else
        let y := refreshed x (ss_inactivity_timeout s) now in
        do_ modifyM (with_sessions (<[session_id := y]> (ss_sessions s)));;
        retM (Some y)
  end.

Definition rotate_session (session_id new_id new_csrf : string) (now : datetime)
  : M session_store (option OwnerSession) :=
  do existing <- get_session session_id now;;
  match existing with
  | None => retM None
  | Some x =>
      do_ revoke_session session_id;;
      do y <- create_session new_id new_csrf (se_principal x) now;;
      retM (Some y)
  end.

Definition active_count (now : datetime) (s : session_store) : nat :=
  size (filter (λ kv, (se_auth_epoch (snd kv) =? ss_auth_epoch s) && session_is_active (snd kv) now = true)
               (ss_sessions s)).

Definition rotate_store_epoch : M session_store Z :=
  do s <- getM;;
  do_ putM {| ss_sessions := ∅; ss_absolute_lifetime := ss_absolute_lifetime s;
              ss_inactivity_timeout := ss_inactivity_timeout s; ss_auth_epoch := ss_auth_epoch s + 1 |};;
  retM (ss_auth_epoch s + 1).

(** ** Histories *)

Inductive session_call :=
  | CallCreate (id csrf : string) (principal : OwnerPrincipal) (now : datetime)
  | CallGet (id : string) (now : datetime)
  | CallRevoke (id : string)
  | CallRevokeAll
  | CallRotate (id new_id new_csrf : string) (now : datetime)
  | CallRotateEpoch.

(** One call, and the session it answered with. *)
Definition session_step (c : session_call) (s : session_store) : session_store * option OwnerSession :=
  match c with
  | CallCreate id csrf p now =>
      match create_session id csrf p now s with (s', Ok x) => (s', Some x) | (s', Raise _) => (s', None) end
  | CallGet id now =>
      match get_session id now s with (s', Ok x) => (s', x) | (s', Raise _) => (s', None) end
  | CallRevoke id => (fst (revoke_session id s), None)
  | CallRevokeAll => (fst (revoke_all_sessions s), None)
  | CallRotate id n csrf now =>
      match rotate_session id n csrf now s with (s', Ok x) => (s', x) | (s', Raise _) => (s', None) end
  | CallRotateEpoch => (fst (rotate_store_epoch s), None)
  end.

Notation session_event := (session_call * option OwnerSession)%type.

(** The calls of a run with their answers, latest first. *)
Fixpoint session_run (calls : list session_call) (s : session_store) (past : list session_event)
  : session_store * list session_event :=
  match calls with
  | [] => (s, past)
  | c :: calls' => let '(s', x) := session_step c s in session_run calls' s' ((c, x) :: past)
  end.

(** The principal and time of the last creation of [id] that no revocation,
    rotation or change of epoch has ended since. *)
Fixpoint alive_since (id : string) (past : list session_event) : option (OwnerPrincipal * datetime) :=
  match past with
  | [] => None
  | (CallCreate id' _ p now, _) :: past' => if decide (id = id') then Some (p, now) else alive_since id past'
  | (CallRotate id' n _ now, Some x) :: past' =>
      if decide (id = n) then Some (se_principal x, now)
      else if decide (id = id') then None else alive_since id past'
  | (CallRotate id' _ _ _, None) :: past' => alive_since id past'
  | (CallRevoke id', _) :: past' => if decide (id = id') then None else alive_since id past'
  | (CallRevokeAll, _) :: _ | (CallRotateEpoch, _) :: _ => None
  | (CallGet _ _, _) :: past' => alive_since id past'
  end.

(** The time of the last creation or successful lookup of [id]. *)
Fixpoint last_touch (id : string) (past : list session_event) : option datetime :=
  match past with
  | [] => None
  | (CallCreate id' _ _ now, _) :: past' => if decide (id = id') then Some now else last_touch id past'
  | (CallGet id' now, Some _) :: past' => if decide (id = id') then Some now else last_touch id past'
  | (CallRotate id' n _ now, Some _) :: past' => if decide (id = n) then Some now else last_touch id past'
  | _ :: past' => last_touch id past'
  end.

Fixpoint epoch_rotations (past : list session_event) : Z :=
  match past with
  | [] => 0
  | (CallRotateEpoch, _) :: past' => 1 + epoch_rotations past'
  | _ :: past' => epoch_rotations past'
  end.

(** What the store holds, in terms of its history. *)
Record stored_ok (s : session_store) (past : list session_event) (id : string) (x : OwnerSession) : Prop := {
  so_alive : alive_since id past = Some (se_principal x, se_created_at x);
  so_touch : last_touch id past = Some (se_last_seen_at x);
  so_epoch : se_auth_epoch x = ss_auth_epoch s;
  so_expires : se_expires_at x = se_created_at x + ss_absolute_lifetime s;
  so_inactive : se_inactivity_expires_at x ≤ se_last_seen_at x + ss_inactivity_timeout s;
}.

Record sessions_ok (absolute inactivity : timedelta) (epoch0 : Z) (s : session_store)
    (past : list session_event) : Prop := {
  sk_absolute : ss_absolute_lifetime s = absolute;
  sk_inactivity : ss_inactivity_timeout s = inactivity;
  sk_epoch : ss_auth_epoch s = epoch0 + epoch_rotations past;
  sk_stored : ∀ id x, ss_sessions s !! id = Some x → stored_ok s past id x;
}.

(** ** Lookups *)

(** [get] answers exactly the sessions of the current epoch that are active. *)
Lemma get_session_spec id now s :
  get_session id now s =
  match ss_sessions s !! id with
  | Some x =>
      if (se_auth_epoch x =? ss_auth_epoch s) && session_is_active x now
      then (with_sessions (<[id := refreshed x (ss_inactivity_timeout s) now]> (ss_sessions s)) s,
            Ok (Some (refreshed x (ss_inactivity_timeout s) now)))
      else (with_sessions (delete id (ss_sessions s)) s, Ok None)
  | None => (s, Ok None)
  end.
Proof.
  unfold get_session, bindM, getM. destruct (ss_sessions s !! id) as [x|]; [|done].
  by destruct (se_auth_epoch x =? ss_auth_epoch s), (session_is_active x now).
Qed.

Lemma active_iff x now :
  session_is_active x now = true ↔
  1 ≤ se_auth_epoch x ∧ is_usable (se_principal x) now = true ∧
  now < se_expires_at x ∧ now < se_inactivity_expires_at x.
Proof. unfold session_is_active. rewrite !andb_true_iff, !Z.ltb_lt, Z.leb_le. tauto. Qed.

(** ** The invariant *)

Section invariant.
Context (absolute inactivity : timedelta) (epoch0 : Z).
Notation ok := (sessions_ok absolute inactivity epoch0).

Lemma stored_ok_ext s s' past e id x :
  ss_absolute_lifetime s' = ss_absolute_lifetime s → ss_inactivity_timeout s' = ss_inactivity_timeout s →
  ss_auth_epoch s' = ss_auth_epoch s →
  alive_since id (e :: past) = alive_since id past → last_touch id (e :: past) = last_touch id past →
  stored_ok s past id x → stored_ok s' (e :: past) id x.
Proof. intros E1 E2 E3 E4 E5 []. split; congruence. Qed.

Lemma stored_ok_created s past e id x :
  alive_since id (e :: past) = Some (se_principal x, se_created_at x) →
  last_touch id (e :: past) = Some (se_created_at x) →
  x = {| se_session_id := se_session_id x; se_principal := se_principal x; se_auth_epoch := ss_auth_epoch s;
         se_created_at := se_created_at x; se_last_seen_at := se_created_at x;
         se_expires_at := se_created_at x + ss_absolute_lifetime s;
         se_inactivity_expires_at := se_created_at x + ss_inactivity_timeout s;
         se_csrf_token := se_csrf_token x |} →
  stored_ok s (e :: past) id x.
Proof. intros E1 E2 ->. by split. Qed.

Lemma create_ok s past id csrf p now :
  ok s past →
  let x := {| se_session_id := id; se_principal := p; se_auth_epoch := ss_auth_epoch s; se_created_at := now;
              se_last_seen_at := now; se_expires_at := now + ss_absolute_lifetime s;
              se_inactivity_expires_at := now + ss_inactivity_timeout s; se_csrf_token := csrf |} in
  ok (with_sessions (<[id := x]> (ss_sessions s)) s) ((CallCreate id csrf p now, Some x) :: past).
Proof.
  intros [Ha Hi He Hs] x. split; [done|done|done|]. cbn. intros id' y.
  destruct (decide (id' = id)) as [->|Hne].
  - rewrite lookup_insert_eq. intros [= <-].
    apply stored_ok_created; cbn; try done; by rewrite decide_True.
  - rewrite lookup_insert_ne by done. intros Hy.
    apply (stored_ok_ext s); cbn; try done; [by rewrite decide_False..|by apply Hs].
Qed.

Lemma get_ok s past id now : ok s past →
  let '(s', x) := session_step (CallGet id now) s in ok s' ((CallGet id now, x) :: past).
Proof.
  intros [Ha Hi He Hs]. cbn [session_step]. rewrite get_session_spec. destruct (ss_sessions s !! id) as [x|] eqn:Ex.
  2: { split; [done..|]. intros id' y Hy. apply (stored_ok_ext s); try done. by apply Hs. }
  destruct (_ && _) eqn:Eact; cbn.
  - split; [done..|]. cbn. intros id' y. destruct (decide (id' = id)) as [->|Hne].
    + rewrite lookup_insert_eq. intros [= <-]. destruct (Hs id x Ex). split; cbn; try done.
      * by rewrite decide_True.
      * lia.
    + rewrite lookup_insert_ne by done. intros Hy.
      apply (stored_ok_ext s); cbn; try done; [by rewrite decide_False|by apply Hs].
  - split; [done..|]. cbn. intros id' y [Hne Hy]%lookup_delete_Some.
    apply (stored_ok_ext s); try done. by apply Hs.
Qed.

Lemma rotate_ok s past id n csrf now : ok s past →
  let '(s', x) := session_step (CallRotate id n csrf now) s in ok s' ((CallRotate id n csrf now, x) :: past).
Proof.
  intros [Ha Hi He Hs]. cbn [session_step]. unfold rotate_session, bindM at 1. rewrite get_session_spec.
  destruct (ss_sessions s !! id) as [x|] eqn:Ex.
  2: { split; [done..|]. intros id' y Hy. apply (stored_ok_ext s); try done. by apply Hs. }
  destruct (_ && _) eqn:Eact; cbn.
  - split; [done..|]. cbn. intros id' y. destruct (decide (id' = n)) as [->|Hne].
    + rewrite lookup_insert_eq. intros [= <-]. apply stored_ok_created; cbn; try done; by rewrite decide_True.
    + rewrite lookup_insert_ne, delete_insert_eq by done. intros [Hid Hy]%lookup_delete_Some.
      apply (stored_ok_ext s); cbn; try done;
        [by rewrite !decide_False by congruence|by rewrite decide_False|by apply Hs].
  - split; [done..|]. cbn. intros id' y [Hne Hy]%lookup_delete_Some.
    apply (stored_ok_ext s); try done. by apply Hs.
Qed.

Lemma session_step_ok c s past : ok s past →
  let '(s', x) := session_step c s in ok s' ((c, x) :: past).
Proof.
  intros Hok. destruct c as [id csrf p now|id now|id| |id n csrf now|].
  - cbn. by apply create_ok.
  - by apply get_ok.
  - destruct Hok as [Ha Hi He Hs]. cbn. split; [done..|]. cbn. intros id' y [Hne Hy]%lookup_delete_Some.
    apply (stored_ok_ext s); cbn; try done; [by rewrite decide_False by congruence|by apply Hs].
  - destruct Hok as [Ha Hi He Hs]. cbn. split; [done..|]. cbn. intros id' y. by rewrite lookup_empty.
  - by apply rotate_ok.
  - destruct Hok as [Ha Hi He Hs]. cbn. split; cbn; [done|done|lia|]. intros id' y. by rewrite lookup_empty.
Qed.

Lemma session_run_ok calls : ∀ s past, ok s past →
  let '(s', past') := session_run calls s past in ok s' past'.
Proof.
  induction calls as [|c calls IH]; intros s past Hok; cbn; [done|].
  pose proof (session_step_ok c s past Hok) as H1. destruct (session_step c s) as [s1 x]. by apply IH.
Qed.
End invariant.

Lemma new_store_ok absolute inactivity epoch s :
  new_OwnerSessionStore absolute inactivity epoch = Ok s → sessions_ok absolute inactivity epoch s [].
Proof.
  unfold new_OwnerSessionStore. intros E. inv_ok. split; cbn; [done|done|lia|].
  intros id x. by rewrite lookup_empty.
Qed.

(** ** Properties *)

(** C36: whatever calls a session store served, a lookup only returns a session
    whose identifier was created and not revoked, rotated away or ended by a
    change of epoch since; it carries the principal of that creation, still
    usable, is younger than the absolute lifetime and was used within the
    inactivity timeout, and belongs to the current epoch. *)
Theorem session_lookup_sound absolute inactivity epoch s0 calls id now :
  new_OwnerSessionStore absolute inactivity epoch = Ok s0 →
  let '(s, past) := session_run calls s0 [] in
  ∀ s' x, get_session id now s = (s', Ok (Some x)) →
    ∃ created touched,
      alive_since id past = Some (se_principal x, created) ∧ last_touch id past = Some touched ∧
      now < created + absolute ∧ now < touched + inactivity ∧ is_usable (se_principal x) now = true ∧
      se_auth_epoch x = epoch + epoch_rotations past.
Proof.
  intros H0. pose proof (session_run_ok _ _ _ calls _ _ (new_store_ok _ _ _ _ H0)) as Hok.
  destruct (session_run calls s0 []) as [s past]. destruct Hok as [Ha Hi He Hs].
  intros s' x. rewrite get_session_spec. destruct (ss_sessions s !! id) as [y|] eqn:Ey; [|done].
  destruct (_ && _) eqn:Eact; [|done]. apply andb_true_iff in Eact as [Eep Eact].
  apply Z.eqb_eq in Eep. apply active_iff in Eact as (_ & Hu & Hexp & Hin).
  intros [= _ <-]. destruct (Hs id y Ey). cbn in *.
  exists (se_created_at y), (se_last_seen_at y). split_and!; try done; [lia|lia|congruence].
Qed.
