(* ===== verification/SqlSessions.v ===== *)
(** * SqlSessions: the durable operator sessions (control_plane/storage/sqlite_store.py)

    [DurableSessionStore]: a row per session under the SHA-256 of its token.
    [durable] is the configuration of one store object, its epoch included;
    tokens drawn by [secrets.token_urlsafe] are arguments.  Rows are never
    removed and never un-revoked, so a token that was killed stays dead.  The
    inactivity deadline a row stores is never looked at by a lookup. *)

From S2P Require Import Prelude PyStr PyTime PyIso Sha256 Json Models Identity Session SqlTables SqlRows SqlRefine.
From Stdlib Require Import Ascii String ZArith Lia.
From stdpp Require Import base strings list.

Local Open Scope string_scope.
Local Open Scope Z_scope.
Local Open Scope aipm_scope.

Definition SESSION_VERSION_DEFAULT : string := "mc612-session-v1".

Record durable := { du_absolute_lifetime : timedelta; du_inactivity_timeout : timedelta; du_auth_epoch : Z }.

(** [DurableSessionStore.__init__] *)
Definition new_DurableSessionStore (absolute inactivity : option timedelta) (auth_epoch : Z) : result durable :=
  let absolute := default (minutes 30) absolute in
  let inactivity := default (minutes 10) inactivity in
  require negb ((absolute <=? 0) || (inactivity <=? 0)) else_raise ValueError;;
  require negb (auth_epoch <? 1) else_raise ValueError;;
  Ok {| du_absolute_lifetime := absolute; du_inactivity_timeout := inactivity; du_auth_epoch := auth_epoch |}.

(** [_hash_token] *)
Definition hash_token (token : string) : string := sha256_hex token.
Definition is_token (h : string) (r : session_row) : bool := str_eqb (ow_session_id_hash r) h.

Definition session_row_of (s : OwnerSession) : session_row :=
  {| ow_session_id_hash := hash_token (se_session_id s); ow_principal_subject := pr_subject (se_principal s);
     ow_auth_epoch := pr_auth_epoch (se_principal s); ow_created_at := isoformat (se_created_at s);
     ow_expires_at := isoformat (se_expires_at s);
     ow_inactivity_expires_at := isoformat (se_inactivity_expires_at s);
     ow_last_seen_at := isoformat (se_last_seen_at s); ow_revoked_at := None;
     ow_csrf_token_hash := se_csrf_token s; ow_session_version := SESSION_VERSION_DEFAULT |}.

Definition set_seen (last_seen : string) (revoked_at : option string) (r : session_row) : session_row :=
  {| ow_session_id_hash := ow_session_id_hash r; ow_principal_subject := ow_principal_subject r;
     ow_auth_epoch := ow_auth_epoch r; ow_created_at := ow_created_at r; ow_expires_at := ow_expires_at r;
     ow_inactivity_expires_at := ow_inactivity_expires_at r; ow_last_seen_at := last_seen;
     ow_revoked_at := revoked_at; ow_csrf_token_hash := ow_csrf_token_hash r;
     ow_session_version := ow_session_version r |}.
Definition unrevoked (r : session_row) : bool := bool_decide (ow_revoked_at r = None).

Section store.
Context (c : circumstances) (du : durable).
Definition moment (now : option datetime) : datetime := default (cc_clock c) now.

(** [create]: [raw_token] and [csrf_seed] are the two random tokens. *)
Definition create (raw_token csrf_seed : string) (principal : OwnerPrincipal) (now : option datetime)
  : M database OwnerSession :=
  let current := moment now in
  let session :=
    {| se_session_id := raw_token; se_principal := principal; se_auth_epoch := du_auth_epoch du;
       se_created_at := current; se_last_seen_at := current;
       se_expires_at := current + du_absolute_lifetime du;
       se_inactivity_expires_at := current + du_inactivity_timeout du;
       se_csrf_token := hash_token csrf_seed |} in
  do_ transaction c (sql_insert (session_row_of session));;
  retM session.

Definition revoke_where (p : session_row → bool) (current : datetime) : M database unit :=
  transaction c (
    do _n <- sql_update (λ r, p r && unrevoked r) (λ r, set_seen (ow_last_seen_at r) (Some (isoformat current)) r);;
    retM ()).
Definition revoke (session_id : string) (now : option datetime) : M database unit :=
  if negb (str_nonempty session_id) then retM ()
  else revoke_where (is_token (hash_token session_id)) (moment now).
Definition revoke_all (now : option datetime) : M database unit := revoke_where (λ _, true) (moment now).

(** The principal and the session [get] rebuilds from a row. *)
Definition principal_of_row (r : session_row) : result OwnerPrincipal :=
  match or_corrupt (
    let* created_at := parse_timestamp (ow_created_at r) in
    let* expires_at := parse_timestamp (ow_expires_at r) in
    new_OwnerPrincipal
      {| pr_subject := ow_principal_subject r; pr_issuer := OWNER_ISSUER;
         pr_authentication_method := ARGON2ID_OWNER_PASSPHRASE; pr_verification := VERIFIED;
         pr_auth_epoch := ow_auth_epoch r; pr_authenticated_at := created_at; pr_expires_at := expires_at;
         pr_roles := ["owner"]; pr_identity_version := PRINCIPAL_IDENTITY_VERSION |}) with
  | Raise (ControlPlaneError _) => Raise corrupt
  | x => x
  end.
Definition session_of_row (session_id : string) (current : datetime) (r : session_row) : result OwnerSession :=
  let* principal := principal_of_row r in
  let* created_at := parse_timestamp (ow_created_at r) in
  let* expires_at := parse_timestamp (ow_expires_at r) in
  Ok {| se_session_id := session_id; se_principal := principal; se_auth_epoch := ow_auth_epoch r;
        se_created_at := created_at; se_last_seen_at := current; se_expires_at := expires_at;
        se_inactivity_expires_at := Z.min expires_at (current + du_inactivity_timeout du);
        se_csrf_token := ow_csrf_token_hash r |}.

Definition get (session_id : string) (now : option datetime) : M database (option OwnerSession) :=
  if negb (str_nonempty session_id) then retM None else
  let current := moment now in
  do row <- sql_select_one (is_token (hash_token session_id));;
  match row with
  | None => retM None
  | Some r =>
      if negb (unrevoked r) || negb (ow_auth_epoch r =? du_auth_epoch du) then retM None else
      do session <- liftM (session_of_row session_id current r);;
      if negb (session_is_active session current) then
        do_ revoke session_id (Some current);;
        retM None
      else
        do_ transaction c (
          do _n <- sql_update (λ r, is_token (hash_token session_id) r && unrevoked r)
                     (λ r, set_seen (isoformat current) (ow_revoked_at r) r);;
          retM ());;
        retM (Some session)
  end.

Definition rotate (session_id new_token csrf_seed : string) (now : option datetime) : M database (option OwnerSession) :=
  let current := moment now in
  do existing <- get session_id (Some current);;
  match existing with
  | None => retM None
  | Some x =>
      do_ revoke session_id (Some current);;
      do y <- create new_token csrf_seed (se_principal x) (Some current);;
      retM (Some y)
  end.

Definition active_count (now : option datetime) : M database Z :=
  let current := isoformat (moment now) in
  do l <- sql_select (λ r, unrevoked r && (ow_auth_epoch r =? du_auth_epoch du) &&
                           text_ltb current (ow_expires_at r) && text_ltb current (ow_inactivity_expires_at r));;
  retM (Z.of_nat (length l)).

(** [rotate_auth_epoch].  The store moves its epoch before it writes:
    [next_epoch] is its configuration after the call, returned or raised. *)
Definition next_epoch : durable :=
  {| du_absolute_lifetime := du_absolute_lifetime du; du_inactivity_timeout := du_inactivity_timeout du;
     du_auth_epoch := du_auth_epoch du + 1 |}.
Definition rotate_auth_epoch : M database Z :=
  do_ revoke_where (λ _, true) (cc_clock c);;
  retM (du_auth_epoch next_epoch).
End store.

(** ** Calls of many connections *)

Inductive durable_call :=
  | DCreate (raw_token csrf_seed : string) (principal : OwnerPrincipal) (now : option datetime)
  | DGet (session_id : string) (now : option datetime)
  | DRevoke (session_id : string) (now : option datetime)
  | DRevokeAll (now : option datetime)
  | DRotate (session_id new_token csrf_seed : string) (now : option datetime)
  | DRotateEpoch.

Definition run_durable_call (c : circumstances) (du : durable) (q : durable_call) : M database (option OwnerSession) :=
  match q with
  | DCreate token seed p now => do x <- create c du token seed p now;; retM (Some x)
  | DGet id now => get c du id now
  | DRevoke id now => do_ revoke c id now;; retM None
  | DRevokeAll now => do_ revoke_all c now;; retM None
  | DRotate id token seed now => rotate c du id token seed now
  | DRotateEpoch => do_ rotate_auth_epoch c du;; retM None
  end.

(** The session a call creates begins and ends at times of the calendar. *)
Definition timely (c : circumstances) (du : durable) (q : durable_call) : Prop :=
  match q with
  | DCreate _ _ _ now | DRotate _ _ _ now =>
      valid_datetime (moment c now) ∧ valid_datetime (moment c now + du_absolute_lifetime du)
  | _ => True
  end.

(** What calls do to a row: [last_seen_at] moves, [revoked_at] is set once. *)
Definition kept (r r' : session_row) : Prop :=
  r' = set_seen (ow_last_seen_at r') (ow_revoked_at r') r ∧ (ow_revoked_at r ≠ None → ow_revoked_at r' = ow_revoked_at r).
#[export] Instance kept_preorder : PreOrder kept.
Proof.
  split; [intros r; split; [by destruct r|done]|].
  intros a b d [E1 R1] [E2 R2]. split; [by rewrite E2, E1|]. intros H. rewrite R2, R1; [done|done|]. by rewrite R1.
Qed.
Lemma kept_hash r r' : kept r r' → ow_session_id_hash r' = ow_session_id_hash r.
Proof. by intros [-> _]. Qed.

Section lifetime.
Context (absolute : timedelta).

(** A row as a store with this lifetime issued it. *)
Definition issued (r : session_row) : Prop :=
  ∃ t, valid_datetime t ∧ valid_datetime (t + absolute) ∧
    ow_created_at r = isoformat t ∧ ow_expires_at r = isoformat (t + absolute).
Definition sessions_ok (s : database) : Prop :=
  NoDup (List.map ow_session_id_hash (db_sessions s)) ∧ Forall issued (db_sessions s).
Definition session_safe (s s' : database) : Prop :=
  sessions_ok s → sessions_ok s' ∧ grown kept (db_sessions s) (db_sessions s').
#[export] Instance session_safe_preorder : PreOrder session_safe.
Proof.
  split; [by intros s Hs; split|]. intros a b d H1 H2 Ha. destruct (H1 Ha) as [Hb L1]. destruct (H2 Hb) as [Hd L2].
  split; [done|]. by etrans.
Qed.

Lemma update_sessions_safe p f s : (∀ r, p r = true → kept r (f r)) → keeps_from session_safe s (sql_update (R := session_row) p f).
Proof.
  intros Hf s' r [= <- _] [N1 N2].
  assert (∀ x, kept x (if p x then f x else x)) as Hk by (intros x; destruct (p x) eqn:E; [by apply Hf|reflexivity]).
  split; [split|]; cbn [rows sessions_table set_rows db_sessions].
  - rewrite List.map_map. erewrite List.map_ext; [exact N1|]. intros x. apply kept_hash, Hk.
  - apply Forall_forall. intros y (x & <- & Hx)%list_elem_of_In%List.in_map_iff.
    rewrite Forall_forall in N2. apply list_elem_of_In in Hx. destruct (N2 _ Hx) as (t & ? & ? & Hc & He).
    exists t. destruct (Hk x) as [-> _]. by split_and!.
  - apply grown_map. intros x _. apply Hk.
Qed.
Lemma insert_session_safe r s : issued r → keeps_from session_safe s (sql_insert (R := session_row) r).
Proof.
  intros Hi s' x. unfold sql_insert, bindM, getM, liftM, putM.
  destruct (fresh_key r s && admits r s) eqn:E; cbn [raise_unless]; [|by intros [= <- _]].
  apply andb_true_iff in E as [E _]. apply fresh_key_spec in E.
  intros [= <- _] [N1 N2]. split; [split|]; cbn.
  - rewrite List.map_app. apply NoDup_app. split_and!; [done| |apply NoDup_singleton].
    intros y Hy ->%list_elem_of_singleton. by apply E.
  - apply Forall_app. by split; [|apply Forall_singleton].
  - apply grown_app. apply _.
Qed.

Definition quiet (c : circumstances) : Prop := ∀ k t, session_safe t (cc_others c k t).

Section calls.
Context (c : circumstances) (Hc : quiet c).

Lemma revoke_where_safe p now s : keeps_from session_safe s (revoke_where c p now).
Proof.
  apply keeps_from_transaction; [apply _|done|]. intros s1 _.
  apply keeps_from_bind; [apply _| |by intros ? ? _ _ s' r [= <- _]].
  apply update_sessions_safe. intros r [_ Hr]%andb_true_iff. apply bool_decide_eq_true in Hr. by split.
Qed.
Lemma revoke_safe id now s : keeps_from session_safe s (revoke c id now).
Proof. unfold revoke. destruct (negb _); [by intros s' r [= <- _]|]. apply revoke_where_safe. Qed.
Lemma create_safe du token seed p now s : du_absolute_lifetime du = absolute →
  valid_datetime (moment c now) → valid_datetime (moment c now + absolute) →
  keeps_from session_safe s (create c du token seed p now).
Proof.
  intros Hdu H1 H2. unfold create. apply keeps_from_bind; [apply _| |by intros ? ? _ _ s' r [= <- _]].
  apply keeps_from_transaction; [apply _|done|]. intros s1 _. apply insert_session_safe.
  exists (moment c now). cbn. by rewrite Hdu.
Qed.
Lemma get_safe du id now s : keeps_from session_safe s (get c du id now).
Proof.
  unfold get. destruct (negb (str_nonempty id)); [by intros s' r [= <- _]|].
  apply keeps_from_bind; [apply _|by intros s' r [= <- _]|]. intros [r|] s1 _ _; [|by intros s' r [= <- _]].
  destruct (_ || _); [by intros s' x [= <- _]|].
  apply keeps_from_bind; [apply _|by intros s' x [= <- _]|]. intros x s2 _ _. destruct (negb _).
  - apply keeps_from_bind; [apply _|apply revoke_safe|by intros ? ? _ _ s' y [= <- _]].
  - apply keeps_from_bind; [apply _| |by intros ? ? _ _ s' y [= <- _]].
    apply keeps_from_transaction; [apply _|done|]. intros s3 _.
    apply keeps_from_bind; [apply _| |by intros ? ? _ _ s' y [= <- _]].
    by apply update_sessions_safe.
Qed.
Lemma rotate_safe du id token seed now s : du_absolute_lifetime du = absolute →
  valid_datetime (moment c now) → valid_datetime (moment c now + absolute) →
  keeps_from session_safe s (rotate c du id token seed now).
Proof.
  intros Hdu H1 H2. unfold rotate. apply keeps_from_bind; [apply _|apply get_safe|].
  intros [x|] s1 _ _; [|by intros s' r [= <- _]].
  apply keeps_from_bind; [apply _|apply revoke_safe|]. intros _ s2 _ _.
  apply keeps_from_bind; [apply _|by apply create_safe|by intros ? ? _ _ s' y [= <- _]].
Qed.
Lemma run_durable_call_safe du q s : du_absolute_lifetime du = absolute → timely c du q →
  keeps_from session_safe s (run_durable_call c du q).
Proof.
  intros Hdu Ht. destruct q; cbn [run_durable_call timely] in *; rewrite ?Hdu in Ht.
  2: apply get_safe.
  4: destruct Ht; by apply rotate_safe.
  all: apply keeps_from_bind; [apply _| |by intros ? ? _ _ s' y [= <- _]].
  - destruct Ht; by apply create_safe.
  - apply revoke_safe.
  - apply revoke_where_safe.
  - apply keeps_from_bind; [apply _|apply revoke_where_safe|by intros ? ? _ _ s' y [= <- _]].
Qed.
End calls.

(** Session calls of any number of connections, each with what the others
    committed in its gaps; the other stores do not touch the table. *)
Inductive session_histories : database → database → Prop :=
  | sn_done s : session_histories s s
  | sn_call c du q s s1 r s' : (∀ k t, session_histories t (cc_others c k t)) → du_absolute_lifetime du = absolute →
      timely c du q → run_durable_call c du q s = (s1, r) → session_histories s1 s' → session_histories s s'
  | sn_other s s1 s' : db_sessions s1 = db_sessions s → session_histories s1 s' → session_histories s s'.

Lemma session_histories_safe s s' : session_histories s s' → session_safe s s'.
Proof.
  induction 1 as [s|c du q s s1 r s' _ IHc Hdu Ht Hq _ IH|s s1 s' Hs _ IH]; [done|..].
  - etrans; [|exact IH]. exact (run_durable_call_safe c IHc du q s Hdu Ht _ _ Hq).
  - etrans; [|exact IH]. intros [N1 N2]. unfold sessions_ok. by rewrite Hs.
Qed.
End lifetime.

(** ** Lookups *)

Definition session_row_at (id : string) (s : database) : option session_row :=
  List.find (is_token (hash_token id)) (db_sessions s).

Lemma session_row_elem id s r : session_row_at id s = Some r → r ∈ db_sessions s ∧ ow_session_id_hash r = hash_token id.
Proof. intros [H1 H2]%List.find_some. split; [by apply list_elem_of_In|]. by apply bool_decide_eq_true in H2. Qed.
Lemma session_row_unique id s r : NoDup (List.map ow_session_id_hash (db_sessions s)) → r ∈ db_sessions s →
  ow_session_id_hash r = hash_token id → session_row_at id s = Some r.
Proof.
  intros Hn Hr Hid. destruct (session_row_at id s) as [r'|] eqn:E.
  - apply session_row_elem in E as [Hr' Hid']. f_equal. apply (NoDup_map_inj _ _ _ _ Hn); [done..|congruence].
  - exfalso. apply list_elem_of_In in Hr. apply (List.find_none _ _ E) in Hr. by apply bool_decide_eq_false in Hr.
Qed.

Lemma get_Ok c du id now s s' x : get c du id now s = (s', Ok (Some x)) →
  ∃ r, session_row_at id s = Some r ∧ ow_revoked_at r = None ∧ ow_auth_epoch r = du_auth_epoch du ∧
    session_of_row du id (moment c now) r = Ok x ∧ session_is_active x (moment c now) = true.
Proof.
  unfold get. destruct (str_nonempty id); [|done]. cbn [negb]. intros H. unfold sql_select_one in H.
  apply bindM_Ok in H as (s1 & row & [= <- <-] & H). cbn [rows sessions_table] in H. fold (session_row_at id s) in H.
  destruct (session_row_at id s) as [r|] eqn:Er; [|done]. exists r. split; [done|].
  destruct (unrevoked r) eqn:Eu; [|done]. apply bool_decide_eq_true in Eu.
  destruct (ow_auth_epoch r =? du_auth_epoch du) eqn:Ee; [|done]. apply Z.eqb_eq in Ee. cbn [negb orb] in H.
  apply bindM_Ok in H as (s2 & y & Hy & H). unfold liftM in Hy. injection Hy as <- Hy.
  destruct (session_is_active y _) eqn:Ea; cbn [negb] in H; apply bindM_Ok in H as (s3 & ? & _ & H); [|done].
  injection H as _ <-. by split_and!.
Qed.

Lemma principal_of_row_Ok r p : principal_of_row r = Ok p →
  pr_subject p = ow_principal_subject r ∧ parse_timestamp (ow_created_at r) = Ok (pr_authenticated_at p) ∧
  parse_timestamp (ow_expires_at r) = Ok (pr_expires_at p).
Proof.
  unfold principal_of_row. intros H. destruct (or_corrupt _) as [q|[]] eqn:E; try done. injection H as ->.
  rewrite or_corrupt_Ok in E. unfold new_OwnerPrincipal in E. by inv_ok.
Qed.
Lemma session_of_row_Ok du id current r x : session_of_row du id current r = Ok x →
  se_session_id x = id ∧ pr_subject (se_principal x) = ow_principal_subject r ∧
  parse_timestamp (ow_created_at r) = Ok (se_created_at x) ∧ parse_timestamp (ow_expires_at r) = Ok (se_expires_at x) ∧
  se_auth_epoch x = ow_auth_epoch r ∧ se_csrf_token x = ow_csrf_token_hash r.
Proof.
  unfold session_of_row. destruct (principal_of_row r) as [p|] eqn:Ep; [|done]. cbn [rbind]. intros H. inv_ok.
  by apply principal_of_row_Ok in Ep as [? _].
Qed.

(** A session of the table that has been revoked. *)
Definition killed (id : string) (s : database) : Prop :=
  ∃ r, r ∈ db_sessions s ∧ ow_session_id_hash r = hash_token id ∧ ow_revoked_at r ≠ None.
Definition known (id : string) (s : database) : Prop :=
  ∃ r, r ∈ db_sessions s ∧ ow_session_id_hash r = hash_token id.

Lemma grown_killed id s s' : grown kept (db_sessions s) (db_sessions s') → killed id s → killed id s'.
Proof.
  intros G (r & Hr & Hid & Hk). destruct (grown_elem _ _ _ _ G Hr) as (r' & Hr' & Hs).
  exists r'. split; [done|]. rewrite (kept_hash _ _ Hs). split; [done|]. destruct Hs as [_ ->]; done.
Qed.
Lemma grown_known id s s' : grown kept (db_sessions s) (db_sessions s') → known id s → known id s'.
Proof.
  intros G (r & Hr & Hid). destruct (grown_elem _ _ _ _ G Hr) as (r' & Hr' & Hs).
  exists r'. split; [done|]. by rewrite (kept_hash _ _ Hs).
Qed.

Lemma killed_get c du id now s : NoDup (List.map ow_session_id_hash (db_sessions s)) → killed id s →
  get c du id now s = (s, Ok None).
Proof.
  intros Hn (r & Hr & Hid & Hk). unfold get. destruct (str_nonempty id); [|done]. cbn [negb].
  unfold sql_select_one, bindM at 1. cbn [rows sessions_table].
  fold (session_row_at id s). rewrite (session_row_unique _ _ _ Hn Hr Hid).
  unfold unrevoked. rewrite bool_decide_false by done. done.
Qed.

Lemma revoke_where_kills c p now s s' id : revoke_where c p now s = (s', Ok ()) →
  (∀ r, ow_session_id_hash r = hash_token id → p r = true) → known id (cc_others c 0 s) → killed id s'.
Proof.
  intros H Hp (r & Hr & Hid). unfold revoke_where in H. apply transaction_Ok in H.
  apply bindM_Ok in H as (s1 & n & H & [= <-]). injection H as <- _.
  set (f := λ r, set_seen (ow_last_seen_at r) (Some (isoformat now)) r).
  exists (if p r && unrevoked r then f r else r). split_and!.
  - apply list_elem_of_In, List.in_map_iff. exists r. split; [done|]. by apply list_elem_of_In.
  - destruct (_ && _); [done|done].
  - rewrite (Hp _ Hid). destruct (unrevoked r) eqn:E; cbn; [done|]. by apply bool_decide_eq_false in E.
Qed.

(** The sessions a call ends: [x] is its answer. *)
Definition ends (q : durable_call) (x : option OwnerSession) (id : string) : Prop :=
  match q with
  | DRevoke id' _ => id' = id ∧ str_nonempty id = true
  | DRevokeAll _ | DRotateEpoch => True
  | DRotate id' _ _ _ => id' = id ∧ is_Some x
  | _ => False
  end.

Lemma call_kills absolute c du q x s s' id : quiet absolute c → sessions_ok absolute s →
  du_absolute_lifetime du = absolute → timely c du q → known id s →
  run_durable_call c du q s = (s', Ok x) → ends q x id → killed id s'.
Proof.
  intros Hc Hok Hdu Ht Hk H He. assert (∀ t, sessions_ok absolute t → known id t → known id (cc_others c 0 t)) as Hgap.
  { intros t Ht' Hk'. destruct (Hc 0%nat t Ht') as [_ G]. by eapply grown_known. }
  destruct q; cbn [run_durable_call ends timely] in *; try done.
  - destruct He as [-> Hne]. unfold revoke in H. rewrite Hne in H. cbn [negb] in H.
    apply bindM_Ok in H as (s1 & [] & H & [= <- <-]). eapply revoke_where_kills; [exact H| |by apply Hgap].
    intros r Hr. by apply bool_decide_eq_true.
  - apply bindM_Ok in H as (s1 & [] & H & [= <- <-]). eapply revoke_where_kills; [exact H|done|by apply Hgap].
  - destruct He as [-> [y ->]]. destruct Ht as [V1 V2]. rewrite Hdu in V2. unfold rotate in H.
    apply bindM_Ok in H as (s1 & z & Hg & H). destruct z as [z|]; [|done].
    apply bindM_Ok in H as (s2 & [] & Hr & H). apply bindM_Ok in H as (s3 & w & Hw & [= <- <-]).
    destruct (get_safe absolute c Hc _ _ _ _ _ _ Hg Hok) as [Hok1 G1].
    destruct (revoke_safe absolute c Hc _ _ _ _ _ Hr Hok1) as [Hok2 _].
    destruct (create_safe absolute c Hc _ _ _ _ _ _ Hdu V1 V2 _ _ Hw Hok2) as [_ G3].
    eapply grown_killed; [exact G3|]. unfold revoke in Hr.
    destruct (str_nonempty id) eqn:Hne; cbn [negb] in Hr.
    + eapply revoke_where_kills; [exact Hr| |apply Hgap; [done|by eapply grown_known]].
      intros r Hr'. by apply bool_decide_eq_true.
    + unfold get in Hg. by rewrite Hne in Hg.
  - apply bindM_Ok in H as (s1 & du' & H & [= <- <-]). unfold rotate_auth_epoch in H.
    apply bindM_Ok in H as (s2 & [] & H & [= <- _]). eapply revoke_where_kills; [exact H|done|by apply Hgap].
Qed.

(** The stored inactivity deadlines of all sessions, replaced. *)
Definition set_inactivity (t : string) (r : session_row) : session_row :=
  {| ow_session_id_hash := ow_session_id_hash r; ow_principal_subject := ow_principal_subject r;
     ow_auth_epoch := ow_auth_epoch r; ow_created_at := ow_created_at r; ow_expires_at := ow_expires_at r;
     ow_inactivity_expires_at := t; ow_last_seen_at := ow_last_seen_at r;
     ow_revoked_at := ow_revoked_at r; ow_csrf_token_hash := ow_csrf_token_hash r;
     ow_session_version := ow_session_version r |}.
Definition with_inactivity (t : string) (s : database) : database :=
  set_rows (List.map (set_inactivity t) (db_sessions s)) s.

Lemma transaction_answer {A} c (m : M database A) s t : (∀ s1 s2, snd (m s1) = snd (m s2)) →
  snd (transaction c m s) = snd (transaction c m t).
Proof.
  intros Hm. unfold transaction, gap, modifyM, bindM, raiseM. destruct (cc_locked c); [done|].
  specialize (Hm (cc_others c 0 s) (cc_others c 0 t)).
  destruct (m (cc_others c 0 s)) as [s1 r1], (m (cc_others c 0 t)) as [s2 r2]. cbn in Hm. subst. by destruct r2.
Qed.
Lemma bind_answer {A B} (m : M database A) (k : A → M database B) s t :
  snd (m s) = snd (m t) → (∀ a s1 s2, snd (k a s1) = snd (k a s2)) → snd (bindM m k s) = snd (bindM m k t).
Proof.
  intros Hm Hk. unfold bindM. destruct (m s) as [s1 r1], (m t) as [s2 r2]. cbn in Hm. subst.
  destruct r2; [apply Hk|done].
Qed.

Lemma select_one_then {R B} `{SqlTable R} p (k : option R → M database B) s :
  bindM (sql_select_one p) k s = k (List.find p (rows s)) s.
Proof. done. Qed.

(** The deadline a row stores is never looked at: whatever it says, a lookup
    answers the same. *)
Lemma stored_inactivity_not_read c du id now w s :
  snd (get c du id now (with_inactivity w s)) = snd (get c du id now s).
Proof.
  unfold get. destruct (str_nonempty id); [|done]. cbn [negb]. rewrite !select_one_then.
  cbn [rows sessions_table with_inactivity set_rows db_sessions].
  assert (List.find (is_token (hash_token id)) (List.map (set_inactivity w) (db_sessions s))
    = set_inactivity w <$> List.find (is_token (hash_token id)) (db_sessions s)) as ->.
  { induction (db_sessions s) as [|r l IH]; [done|]. cbn [List.map List.find].
    change (is_token (hash_token id) (set_inactivity w r)) with (is_token (hash_token id) r).
    by destruct (is_token _ r). }
  destruct (List.find _ _) as [r|]; [|done]. cbn [fmap option_fmap option_map].
  change (unrevoked (set_inactivity w r)) with (unrevoked r). cbn [ow_auth_epoch set_inactivity].
  destruct (_ || _); [done|]. change (session_of_row du id (moment c now) (set_inactivity w r)) with (session_of_row du id (moment c now) r).
  apply bind_answer; [done|]. intros x s1 s2. destruct (negb (session_is_active x (moment c now))).
  - apply bind_answer; [|done]. unfold revoke, revoke_where. destruct (negb _); [done|]. by apply transaction_answer.
  - apply bind_answer; [|done]. by apply transaction_answer.
Qed.

(** ** Properties *)

Lemma empty_sessions_ok absolute s : db_sessions s = [] → sessions_ok absolute s.
Proof. intros E. unfold sessions_ok. rewrite E. split; [apply NoDup_nil_2|done]. Qed.

(** The durable session store only answers sessions that are alive.  However
    the calls of any number of connections interleaved, a lookup answers a
    session of the table under the hash of that token that nobody revoked, of
    the store's epoch, issued less than the absolute lifetime ago, with the
    subject and the CSRF token it was issued with. *)
Lemma durable_session_lookup_sound absolute s0 s c du id now s' x :
  session_histories absolute s0 s → db_sessions s0 = [] → get c du id now s = (s', Ok (Some x)) →
  ∃ r created, session_row_at id s = Some r ∧ ow_revoked_at r = None ∧ ow_created_at r = isoformat created ∧
    se_created_at x = created ∧ moment c now < created + absolute ∧
    ow_auth_epoch r = du_auth_epoch du ∧ se_auth_epoch x = du_auth_epoch du ∧
    pr_subject (se_principal x) = ow_principal_subject r ∧ se_csrf_token x = ow_csrf_token_hash r.
Proof.
  intros Hh H0 Hg. destruct (session_histories_safe _ _ _ Hh (empty_sessions_ok _ _ H0)) as [[_ Hi] _].
  apply get_Ok in Hg as (r & Hr & Hrev & Hep & Hx & Hact). exists r, (se_created_at x).
  apply session_of_row_Ok in Hx as (_ & Hs & Hc & He & Hxe & Hcs). apply active_iff in Hact as (_ & _ & Hexp & _).
  pose proof Hr as [Hin _]%session_row_elem. rewrite Forall_forall in Hi.
  destruct (Hi _ Hin) as (t & V1 & V2 & Ec & Ee). rewrite Ec, parse_isoformat in Hc by done.
  rewrite Ee, parse_isoformat in He by done. injection Hc as Hc. injection He as He.
  split_and!; try done; congruence.
Qed.

(** C22: A session that was ended stays ended.  Once a call that revokes,
    rotates away or ends the epoch of a session has committed, no store on any
    connection answers that token again, whatever is called after it. *)
Theorem ended_session_stays_dead absolute s0 s c du q x id s1 s2 c' du' now :
  session_histories absolute s0 s → db_sessions s0 = [] → (∀ k t, session_histories absolute t (cc_others c k t)) →
  du_absolute_lifetime du = absolute → timely c du q → known id s → run_durable_call c du q s = (s1, Ok x) →
  ends q x id → session_histories absolute s1 s2 →
  get c' du' id now s2 = (s2, Ok None).
Proof.
  intros Hh H0 Hc Hdu Ht Hk Hq He Hh'.
  destruct (session_histories_safe _ _ _ Hh (empty_sessions_ok _ _ H0)) as [Hok _].
  assert (quiet absolute c) as Hqu by (intros k t; by apply session_histories_safe).
  pose proof (call_kills _ _ _ _ _ _ _ _ Hqu Hok Hdu Ht Hk Hq He) as Hkill.
  destruct (run_durable_call_safe absolute c Hqu du q s Hdu Ht _ _ Hq Hok) as [Hok1 _].
  destruct (session_histories_safe _ _ _ Hh' Hok1) as [[Hn _] G].
  apply killed_get; [done|]. by eapply grown_killed.
Qed.
