(* ===== verification/OwnerAuth.v ===== *)
(** * OwnerAuth: bounded owner authentication (control_plane/owner_auth.py)

    [OwnerAuthenticator.authenticate]: the lockout and cooldown that bound
    guessing, and the principal a success produces.  Verifying a secret is a
    call to the Argon2 library: the parameter [verify].  The failures since the
    last success determine the state, so a history of attempts is described by
    the times at which the verifier was asked. *)

From S2P Require Import Prelude PyStr PyTime Identity.
From Stdlib Require Import Ascii String ZArith Lia.
From stdpp Require Import base strings list.

Local Open Scope string_scope.
Local Open Scope Z_scope.
Local Open Scope aipm_scope.

Inductive FailureReason := ACCEPTED | REJECTED | COOLDOWN | LOCKED_OUT.
#[export] Instance FailureReason_eq_dec : EqDecision FailureReason.
Proof. solve_decision. Defined.
Definition failure_reason_value (r : FailureReason) : string :=
  match r with ACCEPTED => "accepted" | REJECTED => "rejected" | COOLDOWN => "cooldown" | LOCKED_OUT => "locked" end.

Record AuthenticationResult := {
  ar_accepted : bool;
  ar_reason : FailureReason;
  ar_retry_after_seconds : Z;
  ar_principal : option OwnerPrincipal;
}.

(** The mutable fields. *)
Record authenticator := {
  au_failure_count : Z;
  au_cooldown_until : option datetime;
  au_locked_until : option datetime;
  au_auth_epoch : Z;
}.

Section authenticate.
(** [Argon2idVerifier.verify] on the configured verifier. *)
Variable verify : string → bool.
Variable max_failures_before_lock lockout_seconds : Z.
Variable principal_lifetime : timedelta.
Variable subject issuer : string.

(** [OwnerAuthenticator.__init__] *)
Definition new_OwnerAuthenticator (auth_epoch : Z) : result authenticator :=
  require 1 <=? max_failures_before_lock else_raise ValueError;;
  require 1 <=? lockout_seconds else_raise ValueError;;
  require 0 <? principal_lifetime else_raise ValueError;;
  require 1 <=? auth_epoch else_raise ValueError;;
  Ok {| au_failure_count := 0; au_cooldown_until := None; au_locked_until := None;
        au_auth_epoch := auth_epoch |}.

Definition rotate_auth_epoch : M authenticator Z :=
  do s <- getM;;
  do_ putM {| au_failure_count := au_failure_count s; au_cooldown_until := au_cooldown_until s;
              au_locked_until := au_locked_until s; au_auth_epoch := au_auth_epoch s + 1 |};;
  retM (au_auth_epoch s + 1).

Definition principal_at (s : authenticator) (now : datetime) : result OwnerPrincipal :=
  new_OwnerPrincipal
    {| pr_subject := subject; pr_issuer := issuer;
       pr_authentication_method := ARGON2ID_OWNER_PASSPHRASE; pr_verification := VERIFIED;
       pr_auth_epoch := au_auth_epoch s; pr_authenticated_at := now;
       pr_expires_at := now + principal_lifetime; pr_roles := [OWNER_ROLE];
       pr_identity_version := PRINCIPAL_IDENTITY_VERSION |}.

(** [_remaining]: whole seconds, at least one. *)
Definition remaining (end_ start : datetime) : Z := Z.max 1 ((end_ - start) ÷ seconds 1).

Definition before (t : option datetime) (now : datetime) : bool :=
  match t with Some t => now <? t | None => false end.

Definition failed_result (reason : FailureReason) (retry : Z) : AuthenticationResult :=
  {| ar_accepted := false; ar_reason := reason; ar_retry_after_seconds := retry; ar_principal := None |}.

(** [min(30, 2 ** (failures - 1))] *)
Definition cooldown_seconds (failures : Z) : Z := Z.min 30 (2 ^ (failures - 1)).

Definition authenticate (secret : string) (now : datetime) : M authenticator AuthenticationResult :=
  do s <- getM;;
  if before (au_locked_until s) now then
    retM (failed_result LOCKED_OUT (remaining (default 0 (au_locked_until s)) now))
  else if before (au_cooldown_until s) now then
    retM (failed_result COOLDOWN (remaining (default 0 (au_cooldown_until s)) now))
  else if verify secret then
    do_ putM {| au_failure_count := 0; au_cooldown_until := None; au_locked_until := None;
                au_auth_epoch := au_auth_epoch s |};;
    do p <- liftM (principal_at s now);;
    retM {| ar_accepted := true; ar_reason := ACCEPTED; ar_retry_after_seconds := 0; ar_principal := Some p |}
  else
    let failures := au_failure_count s + 1 in
    if max_failures_before_lock <=? failures then
      do_ putM {| au_failure_count := failures; au_cooldown_until := None;
                  au_locked_until := Some (now + seconds lockout_seconds); au_auth_epoch := au_auth_epoch s |};;
      retM (failed_result LOCKED_OUT lockout_seconds)
    else
      let cooldown := cooldown_seconds failures in
      do_ putM {| au_failure_count := failures; au_cooldown_until := Some (now + seconds cooldown);
                  au_locked_until := au_locked_until s; au_auth_epoch := au_auth_epoch s |};;
      retM (failed_result REJECTED cooldown).

(** ** Histories *)

(** The attempt asked the verifier. *)
Definition consults (s : authenticator) (now : datetime) : bool :=
  negb (before (au_locked_until s) now) && negb (before (au_cooldown_until s) now).

(** Attempts and changes of epoch; the result lists the times of the wrong
    guesses since the last right one, latest first. *)
Inductive auth_call := Attempt (secret : string) (now : datetime) | RotateEpoch.

Definition guesses_after (c : auth_call) (s : authenticator) (guesses : list datetime) : list datetime :=
  match c with
  | RotateEpoch => guesses
  | Attempt secret now => if consults s now then if verify secret then [] else now :: guesses else guesses
  end.
Definition auth_step (c : auth_call) (s : authenticator) : authenticator :=
  match c with
  | RotateEpoch => fst (rotate_auth_epoch s)
  | Attempt secret now => fst (authenticate secret now s)
  end.
Fixpoint auth_run (calls : list auth_call) (s : authenticator) (guesses : list datetime)
  : authenticator * list datetime :=
  match calls with
  | [] => (s, guesses)
  | c :: calls' => auth_run calls' (auth_step c s) (guesses_after c s guesses)
  end.

(** ** The delay after the [n]-th wrong guess *)

Definition delay (n : Z) : timedelta :=
  seconds (if max_failures_before_lock <=? n then lockout_seconds else cooldown_seconds n).

(** The delays separate the guesses of a list, latest first. *)
Fixpoint spaced (guesses : list datetime) : Prop :=
  match guesses with
  | t2 :: ((t1 :: _) as rest) => t1 + delay (Z.of_nat (length rest)) ≤ t2 ∧ spaced rest
  | _ => True
  end.

(** The state agrees with the wrong guesses since the last right one. *)
Record auth_ok (s : authenticator) (guesses : list datetime) : Prop := {
  ak_count : au_failure_count s = Z.of_nat (length guesses);
  ak_spaced : spaced guesses;
  ak_blocked : ∀ t rest now, guesses = t :: rest → consults s now = true →
    t + delay (Z.of_nat (length guesses)) ≤ now;
}.

Lemma before_false t now : before t now = false ↔ match t with Some t => t ≤ now | None => True end.
Proof. destruct t; cbn; [apply Z.ltb_ge|done]. Qed.

Lemma authenticate_cases secret now s :
  fst (authenticate secret now s) =
  if consults s now then
    if verify secret then
      {| au_failure_count := 0; au_cooldown_until := None; au_locked_until := None;
         au_auth_epoch := au_auth_epoch s |}
    else
      let failures := au_failure_count s + 1 in
      if max_failures_before_lock <=? failures then
        {| au_failure_count := failures; au_cooldown_until := None;
           au_locked_until := Some (now + seconds lockout_seconds); au_auth_epoch := au_auth_epoch s |}
      else
        {| au_failure_count := failures; au_cooldown_until := Some (now + seconds (cooldown_seconds failures));
           au_locked_until := au_locked_until s; au_auth_epoch := au_auth_epoch s |}
  else s.
Proof.
  unfold authenticate, consults, bindM, getM.
  destruct (before (au_locked_until s) now); [done|]. destruct (before (au_cooldown_until s) now); [done|].
  cbn. destruct (verify secret).
  - unfold liftM. by destruct (principal_at s now).
  - by destruct (max_failures_before_lock <=? au_failure_count s + 1).
Qed.

Lemma auth_step_ok c s guesses : auth_ok s guesses → auth_ok (auth_step c s) (guesses_after c s guesses).
Proof.
  intros [Hc Hsp Hb]. destruct c as [secret now|]; cbn [auth_step guesses_after]; [|by split].
  rewrite authenticate_cases. destruct (consults s now) eqn:Econ; [|by split].
  destruct (verify secret); [by split|].
  assert (Hspaced : spaced (now :: guesses)).
  { destruct guesses as [|t rest]; [done|]. split; [|done]. by eapply Hb. }
  assert (Hlen : au_failure_count s + 1 = Z.of_nat (length (now :: guesses))) by (cbn [length]; lia).
  cbn zeta. rewrite Hlen. destruct (max_failures_before_lock <=? _) eqn:Emax;
    (split; [done|done|]); intros t rest later [= <- <-] Hlater; unfold delay; rewrite Emax;
    unfold consults in Hlater; cbn -[length] in Hlater;
    apply andb_true_iff in Hlater as [H1 H2];
    try apply negb_true_iff in H1; try apply negb_true_iff in H2; lia.
Qed.

Lemma auth_run_ok calls : ∀ s guesses, auth_ok s guesses →
  let '(s', guesses') := auth_run calls s guesses in auth_ok s' guesses'.
Proof.
  induction calls as [|c calls IH]; intros s guesses Hok; cbn; [done|]. by apply IH, auth_step_ok.
Qed.

Lemma new_authenticator_ok epoch s : new_OwnerAuthenticator epoch = Ok s → auth_ok s [] ∧ 1 ≤ lockout_seconds.
Proof. unfold new_OwnerAuthenticator. intros E. inv_ok. split; [by split|lia]. Qed.

(** A guess after the limit costs a full lockout. *)
Lemma spaced_lower t1 rest : spaced (t1 :: rest) → 1 ≤ lockout_seconds →
  ∀ t0, List.last (t1 :: rest) t1 = t0 →
  (Z.of_nat (length rest) + 1 - Z.max 1 max_failures_before_lock) * seconds lockout_seconds ≤ t1 - t0 ∧ t0 ≤ t1.
Proof.
  intros Hsp Hl. revert t1 Hsp. induction rest as [|t rest IH]; intros t1 Hsp t0 Hlast.
  - cbn in *. subst. unfold seconds. split; nia.
  - destruct Hsp as [Hd Hsp]. cbn [length] in *.
    assert (List.last (t :: rest) t = t0) as Hlast'.
    { rewrite <- Hlast. cbn. destruct rest as [|u l]; [done|]. clear.
      revert u. induction l as [|v l IHl]; intros u; [done|]. cbn. apply IHl. }
    destruct (IH t Hsp t0 Hlast') as [IHd IHt].
    assert (0 ≤ delay (Z.of_nat (S (length rest))) ∧
            (Z.max 1 max_failures_before_lock ≤ Z.of_nat (S (length rest)) →
             delay (Z.of_nat (S (length rest))) = seconds lockout_seconds)) as [Hpos Hlock].
    { unfold delay, seconds. destruct (_ <=? _) eqn:E; split; [lia|done| |].
      - unfold cooldown_seconds. pose proof (Z.pow_nonneg 2 (Z.of_nat (S (length rest)) - 1)). lia.
      - apply Z.leb_gt in E. lia. }
    split; [|lia]. rewrite Nat2Z.inj_succ in *. unfold seconds in *.
    destruct (Z.le_gt_cases (Z.max 1 max_failures_before_lock) (Z.succ (Z.of_nat (length rest)))) as [Hge|Hlt];
      [rewrite Hlock in Hd by done|]; nia.
Qed.
End authenticate.

(** ** Properties *)

(** However an attacker times the attempts, every wrong guess the verifier
    was asked about comes at least a cooldown ([min 30 2^(n-1)] seconds) or,
    from the limit on, a full lockout after the previous one, so the guesses
    past the limit take a lockout each. *)
Lemma guessing_is_bounded verify max_failures lockout lifetime epoch s0 calls :
  new_OwnerAuthenticator max_failures lockout lifetime epoch = Ok s0 →
  let '(s, guesses) := auth_run verify max_failures lockout lifetime OWNER_SUBJECT OWNER_ISSUER calls s0 [] in
  spaced max_failures lockout guesses ∧
  au_failure_count s = Z.of_nat (length guesses) ∧
  ∀ t rest, guesses = t :: rest →
    (Z.of_nat (length guesses) - max_failures) * seconds lockout ≤ t - List.last guesses t.
Proof.
  intros H0. pose proof (new_authenticator_ok _ _ _ _ _ H0) as [Hok Hl].
  assert (1 ≤ max_failures) as Hm by (unfold new_OwnerAuthenticator in H0; inv_ok; lia).
  pose proof (auth_run_ok verify max_failures lockout lifetime OWNER_SUBJECT OWNER_ISSUER calls s0 [] Hok) as H.
  destruct (auth_run _ _ _ _ _ _ calls s0 []) as [s guesses]. destruct H as [Hc Hsp _].
  split_and!; [done|done|]. intros t rest ->.
  destruct (spaced_lower max_failures lockout t rest Hsp Hl _ eq_refl) as [H _].
  cbn [length]. rewrite Z.max_r in H by done. lia.
Qed.
