(* ===== verification/Receipts.v ===== *)
(** * Receipts: the durable mutation fence (control_plane/mutation_receipt.py)

    The table [executor_mutation_receipts] as a map from [(action_id,
    fencing_token)] (its UNIQUE pair) to receipts; the primary key [receipt_id]
    is checked against every row.  Each call is one transaction on a connection
    of its own; [db] says whether SQLite could open it and run the statements: a
    call that could not raises and changes nothing (a rolled-back transaction).
    SQLite integers have 64 bits: a larger fencing token is an [OverflowError].  The random receipt id and the texts of
    the times are arguments. *)

From S2P Require Import Prelude PyStr PyText.
From Stdlib Require Import Ascii String ZArith Lia.
From stdpp Require Import base strings gmap fin_maps list.

Local Open Scope string_scope.
Local Open Scope Z_scope.
Local Open Scope aipm_scope.

Inductive MutationStatus := RECEIPT_CREATED | MUTATION_SUCCEEDED | MUTATION_FAILED | UNKNOWN_OUTCOME.
#[export] Instance MutationStatus_eq_dec : EqDecision MutationStatus.
Proof. solve_decision. Defined.
Definition mutation_status_value (s : MutationStatus) : string :=
  match s with
  | RECEIPT_CREATED => "receipt_created" | MUTATION_SUCCEEDED => "mutation_succeeded"
  | MUTATION_FAILED => "mutation_failed" | UNKNOWN_OUTCOME => "unknown_outcome"
  end.

Record MutationReceipt := {
  mr_receipt_id : string;
  mr_action_id : string;
  mr_fencing_token : Z;
  mr_capability_id : string;
  mr_target_id : string;
  mr_contract_digest : string;
  mr_mutation_status : MutationStatus;
  mr_provider_code : string;
  mr_created_at : string;
  mr_completed_at : option string;
}.
#[export] Instance MutationReceipt_eq_dec : EqDecision MutationReceipt.
Proof. solve_decision. Defined.

Definition receipt_text (s : string) : bool := str_nonempty s && (slen s <=? 128).

(** [MutationReceipt.__post_init__] *)
Definition check_MutationReceipt (r : MutationReceipt) : result MutationReceipt :=
  require List.forallb receipt_text
    [mr_receipt_id r; mr_action_id r; mr_capability_id r; mr_target_id r; mr_contract_digest r]
    else_raise ReceiptError;;
  require 1 <=? mr_fencing_token r else_raise ReceiptError;;
  Ok r.

Notation receipts := (gmap (string * Z) MutationReceipt).

(** The row the UPDATE of [complete] writes. *)
Definition completed (r : MutationReceipt) (status : MutationStatus) (code at_ : string) : MutationReceipt :=
  {| mr_receipt_id := mr_receipt_id r; mr_action_id := mr_action_id r;
     mr_fencing_token := mr_fencing_token r; mr_capability_id := mr_capability_id r;
     mr_target_id := mr_target_id r; mr_contract_digest := mr_contract_digest r;
     mr_mutation_status := status; mr_provider_code := code; mr_created_at := mr_created_at r;
     mr_completed_at := Some at_ |}.

(** ** Operations *)

Inductive db_state := DB_OK | DB_NO_CONNECTION | DB_FAILS.
#[export] Instance db_state_eq_dec : EqDecision db_state.
Proof. solve_decision. Defined.
(** [_connect], outside the [try] blocks. *)
Definition connect (db : db_state) : M receipts unit :=
  liftM (raise_unless (negb (bool_decide (db = DB_NO_CONNECTION))) SqliteError).
(** Binding a Python integer as a statement parameter. *)
Definition sqlite_integer (z : Z) : bool := (- 2 ^ 63 <=? z) && (z <? 2 ^ 63).

Definition claim (db : db_state) (receipt_id action_id : string) (fencing_token : Z)
    (capability_id target_id contract_digest moment : string) : M receipts MutationReceipt :=
  do receipt <- liftM (check_MutationReceipt
    {| mr_receipt_id := receipt_id; mr_action_id := action_id; mr_fencing_token := fencing_token;
       mr_capability_id := capability_id; mr_target_id := target_id;
       mr_contract_digest := contract_digest; mr_mutation_status := RECEIPT_CREATED;
       mr_provider_code := ""; mr_created_at := moment; mr_completed_at := None |});;
  do_ connect db;;
  assert_ bool_decide (db = DB_OK) else_raise ReceiptError;;
  assert_ sqlite_integer fencing_token else_raise OverflowError;;
  do s <- getM;;
  assert_ bool_decide (s !! (action_id, fencing_token) = None) else_raise ReceiptError;;
  assert_ bool_decide (map_Forall (λ _ r, mr_receipt_id r ≠ receipt_id) s) else_raise ReceiptError;;
  do_ modifyM (<[(action_id, fencing_token) := receipt]>);;
  retM receipt.

(** [get]: a failing connection raises [sqlite3.Error] itself; the stored row
    goes through the constructor again. *)
Definition get_receipt (db : db_state) (action_id : string) (fencing_token : Z)
  : M receipts (option MutationReceipt) :=
  do_ connect db;;
  assert_ bool_decide (db = DB_OK) else_raise SqliteError;;
  assert_ sqlite_integer fencing_token else_raise OverflowError;;
  do s <- getM;;
  match s !! (action_id, fencing_token) with
  | None => retM None
  | Some r => do r' <- liftM (check_MutationReceipt r);; retM (Some r')
  end.

Definition complete (db : db_state) (action_id : string) (fencing_token : Z) (status : MutationStatus)
    (provider_code moment : string) (db_get : db_state) : M receipts (option MutationReceipt) :=
  do_ connect db;;
  assert_ bool_decide (db = DB_OK) else_raise ReceiptError;;
  assert_ sqlite_integer fencing_token else_raise OverflowError;;
  do s <- getM;;
  match s !! (action_id, fencing_token) with
  | Some r =>
      assert_ bool_decide (mr_mutation_status r = RECEIPT_CREATED) else_raise ReceiptError;;
      do_ modifyM (<[(action_id, fencing_token) := completed r status provider_code moment]>);;
      get_receipt db_get action_id fencing_token
  | None => raiseM ReceiptError
  end.

Definition count_receipts (s : receipts) : nat := size s.

(** ** How receipts move

    A row is never removed, its identity never changes, and only a created one
    still changes (once, unless it is completed as created). *)
Definition receipt_step (r r' : MutationReceipt) : Prop :=
  r' = r ∨ (mr_mutation_status r = RECEIPT_CREATED ∧ ∃ status code at_, r' = completed r status code at_).
Definition receipts_grow (s s' : receipts) : Prop :=
  ∀ k r, s !! k = Some r → ∃ r', s' !! k = Some r' ∧ rtc receipt_step r r'.

#[export] Instance receipts_grow_pre : PreOrder receipts_grow.
Proof.
  split.
  - intros s k r H. exists r. split; [done|apply rtc_refl].
  - intros s1 s2 s3 H1 H2 k r H. destruct (H1 k r H) as (r' & H' & Hr). destruct (H2 k r' H') as (r'' & H'' & Hr').
    exists r''. split; [done|]. by etrans.
Qed.

(** Every row is filed under its own identity. *)
Definition receipts_wf (s : receipts) : Prop :=
  ∀ a f r, s !! (a, f) = Some r → mr_action_id r = a ∧ mr_fencing_token r = f ∧ 1 ≤ f ∧
    check_MutationReceipt r = Ok r.

Lemma check_receipt_Ok r r' : check_MutationReceipt r = Ok r' → r' = r ∧ 1 ≤ mr_fencing_token r.
Proof. unfold check_MutationReceipt. intros E. inv_ok. split; [done|lia]. Qed.

Lemma check_receipt_Raise r e : check_MutationReceipt r = Raise e → e = ReceiptError.
Proof.
  unfold check_MutationReceipt, rbind, raise_unless. destruct (List.forallb _ _); [|congruence].
  destruct (1 <=? _); congruence.
Qed.

Lemma claim_Ok db id a f c t d m s s' r : claim db id a f c t d m s = (s', Ok r) →
  s !! (a, f) = None ∧ s' = <[(a, f) := r]> s ∧ mr_action_id r = a ∧ mr_fencing_token r = f ∧
  mr_mutation_status r = RECEIPT_CREATED ∧ check_MutationReceipt r = Ok r.
Proof.
  unfold claim, connect. intros E. apply bindM_Ok in E as (s1 & r0 & E1 & E). unfold liftM at 1 in E1.
  injection E1 as <- E1. pose proof E1 as Hck. apply check_receipt_Ok in E1 as [-> _]. inv_ok.
  by split_and!.
Qed.
Lemma claim_integer db id a f c t d m s s' r : claim db id a f c t d m s = (s', Ok r) → sqlite_integer f = true.
Proof.
  unfold claim, connect. intros E. apply bindM_Ok in E as (s1 & r0 & _ & E). inv_ok. done.
Qed.
Lemma claim_atomic db id a f c t d m : atomic (claim db id a f c t d m).
Proof.
  unfold claim, connect. apply atomic_bind; [solve_atomic|intros receipt]. apply atomic_bind; [solve_atomic|intros _].
  apply atomic_bind; [solve_atomic|intros _]. apply atomic_bind; [solve_atomic|intros _].
  apply atomic_bind; [solve_atomic|intros s]. apply atomic_bind; [solve_atomic|intros _].
  apply atomic_bind; [solve_atomic|intros _]. by apply atomic_then_ret, atomic_modify.
Qed.

Lemma get_receipt_reads db a f : reads (get_receipt db a f).
Proof. unfold get_receipt, connect. solve_atomic. Qed.

Lemma complete_cases db a f st code m dbg s : ∃ s' res, complete db a f st code m dbg s = (s', res) ∧
  ((s' = s ∧ ∃ e, res = Raise e) ∨
   ∃ r, s !! (a, f) = Some r ∧ mr_mutation_status r = RECEIPT_CREATED ∧ s' = <[(a, f) := completed r st code m]> s).
Proof.
  assert (Hfail : ∀ e : exn, ∃ s' (res : result (option MutationReceipt)), (s, Raise e : result (option MutationReceipt)) = (s', res) ∧
            ((s' = s ∧ ∃ e, res = Raise e) ∨
             ∃ r, s !! (a, f) = Some r ∧ mr_mutation_status r = RECEIPT_CREATED ∧ s' = <[(a, f) := completed r st code m]> s))
    by (intros e; eexists _, _; split; [done|]; left; eauto).
  unfold complete, connect, bindM at 1 2 3 4, liftM at 1 2 3, raise_unless at 1 2 3.
  destruct (negb _); [|apply Hfail]. destruct (bool_decide (db = DB_OK)); [|apply Hfail].
  destruct (sqlite_integer f); [|apply Hfail]. cbn [getM].
  destruct (s !! (a, f)) as [r|] eqn:Er; [|apply Hfail].
  destruct (decide (mr_mutation_status r = RECEIPT_CREATED)) as [Hs|Hs].
  - rewrite (bool_decide_eq_true_2 _ Hs). unfold bindM at 1 2. cbn -[get_receipt].
    destruct (get_receipt dbg a f _) as [s' res] eqn:Eg.
    pose proof (reads_Ok _ _ _ _ (get_receipt_reads dbg a f) Eg) as ->.
    eexists _, _. split; [done|]. right. by exists r.
  - rewrite (bool_decide_eq_false_2 _ Hs). apply Hfail.
Qed.

(** Completing a fresh row: written exactly when the database works, whether or
    not the row can be read back. *)
Lemma complete_fresh db a f st code m dbg s r :
  s !! (a, f) = Some r → mr_mutation_status r = RECEIPT_CREATED → sqlite_integer f = true →
  (complete db a f st code m dbg s).1 =
    if bool_decide (db = DB_OK) then <[(a, f) := completed r st code m]> s else s.
Proof.
  intros Hr Hs Hz. unfold complete, connect, bindM at 1 2 3 4, liftM at 1 2 3.
  destruct db; cbn -[get_receipt]; [|done..].
  rewrite Hz. cbn -[get_receipt]. rewrite Hr, (bool_decide_eq_true_2 _ Hs). unfold bindM at 1 2. cbn -[get_receipt].
  apply get_receipt_reads.
Qed.

Lemma claim_keeps db id a f c t d m : keeps receipts_grow (claim db id a f c t d m).
Proof.
  intros s s' [r|e] E.
  - apply claim_Ok in E as (Hn & -> & _). intros k r' Hk. exists r'. split; [|apply rtc_refl].
    destruct (decide (k = (a, f))) as [->|Hne]; [congruence|]. by rewrite lookup_insert_ne.
  - apply claim_atomic in E as ->. reflexivity.
Qed.
Lemma complete_keeps db a f st code m dbg : keeps receipts_grow (complete db a f st code m dbg).
Proof.
  intros s s' res E. destruct (complete_cases db a f st code m dbg s) as (s1 & r1 & E1 & H).
  rewrite E in E1. injection E1 as <- <-. destruct H as [[-> _]|(r & Hr & Hst & ->)]; [reflexivity|].
  intros k r' Hk. destruct (decide (k = (a, f))) as [->|Hne].
  - rewrite Hr in Hk. injection Hk as <-. eexists. rewrite lookup_insert_eq. split; [done|].
    apply rtc_once. right. eauto.
  - rewrite lookup_insert_ne by done. exists r'. split; [done|apply rtc_refl].
Qed.

Lemma claim_wf db id a f c t d m s s' res : receipts_wf s → claim db id a f c t d m s = (s', res) → receipts_wf s'.
Proof.
  intros Hwf E. destruct res as [r|e]; [|by apply claim_atomic in E as ->].
  apply claim_Ok in E as (_ & -> & Ha & Hf & _ & Hck).
  intros a' f' r'. destruct (decide ((a', f') = (a, f))) as [[= -> ->]|Hne].
  - rewrite lookup_insert_eq. intros [= <-]. split_and!; try done. apply check_receipt_Ok in Hck as [_ H]. lia.
  - rewrite lookup_insert_ne by done. apply Hwf.
Qed.
Lemma complete_wf db a f st code m dbg s s' res :
  receipts_wf s → complete db a f st code m dbg s = (s', res) → receipts_wf s'.
Proof.
  intros Hwf E. destruct (complete_cases db a f st code m dbg s) as (s1 & r1 & E1 & H).
  rewrite E in E1. injection E1 as <- <-. destruct H as [[-> _]|(r & Hr & Hst & ->)]; [done|].
  destruct (Hwf _ _ _ Hr) as (Ha & Hf & Hf1 & Hck).
  intros a' f' r'. destruct (decide ((a', f') = (a, f))) as [[= -> ->]|Hne].
  - rewrite lookup_insert_eq. intros [= <-]. split_and!; try done.
    revert Hck. unfold check_MutationReceipt. cbn. destruct (_ && _); [|done]. cbn. by destruct (1 <=? _).
  - rewrite lookup_insert_ne by done. apply Hwf.
Qed.

(** A completed row never changes again. *)
Lemma final_receipt_stays r r' : rtc receipt_step r r' → mr_mutation_status r ≠ RECEIPT_CREATED → r' = r.
Proof.
  induction 1 as [r|r r1 r2 H1 _ IH]; [done|]. intros Hs. destruct H1 as [->|[Hc _]]; [by apply IH|done].
Qed.
