(* ===== verification/Wire.v ===== *)
(** * Wire: length-prefixed frames over a stream socket (control_plane/executor_ipc.py)

    A frame is the four-byte big-endian length of a payload of at most 4096
    bytes and the payload.  The receiving end of a connection is the sequence of
    pieces in which the kernel hands the bytes over, with the failure of a
    [recv] where one happens; its end is the end of file.  [recv_loop] is the
    loop of [_recv_exact] on fuel: every [recv] yields at least one byte, so the
    size asked for is enough ([recv_loop_spec]).  The main lemmas say that the
    pieces do not matter: whatever they are, a frame is read back as its payload
    and what follows it is left unread. *)

From S2P Require Import Prelude PyStr.
From Stdlib Require Import Ascii String ZArith Lia.
From stdpp Require Import base strings list.

Local Open Scope string_scope.
Local Open Scope Z_scope.
Local Open Scope aipm_scope.

Definition MAX_REQUEST_SIZE : Z := 4096.

(** ** [struct.pack] and [struct.unpack] with the format [>I] *)

Definition byte_char (z : Z) : ascii := ascii_of_nat (Z.to_nat (Z.land z 255)).
Definition pack_be32 (n : Z) : string :=
  String (byte_char (Z.shiftr n 24)) (String (byte_char (Z.shiftr n 16))
    (String (byte_char (Z.shiftr n 8)) (String (byte_char n) ""))).
Definition unpack_be32 (s : string) : result Z :=
  match s with
  | String a (String b (String c (String d ""))) =>
      Ok (Z.lor (Z.shiftl (ord a) 24) (Z.lor (Z.shiftl (ord b) 16) (Z.lor (Z.shiftl (ord c) 8) (ord d))))
  | _ => Raise StructError
  end.

Fixpoint str_drop (n : nat) (s : string) : string :=
  match n, s with
  | S n', String _ s' => str_drop n' s'
  | _, _ => s
  end.

(** ** Streams *)

(** A non-empty piece, or a [recv] that raises. *)
Inductive arrival := Data (c : ascii) (bs : string) | Failure (e : exn).
Notation stream := (list arrival).

(** [sock.recv(size)]: at most [size] bytes of the next piece. *)
Definition recv (size : nat) : M stream string := λ st,
  match st with
  | [] => ([], Ok "")
  | Failure e :: st' => (st', Raise e)
  | Data c bs :: st' =>
      (match str_drop size (String c bs) with "" => st' | String d r => Data d r :: st' end,
       Ok (str_take size (String c bs)))
  end.

(** [_recv_exact(sock, size)]: [None] at an end of file before any byte, the
    bytes so far at one in the middle. *)
Fixpoint recv_loop (fuel size : nat) (data : string) : M stream (option string) :=
  if (size <=? String.length data)%nat then retM (Some data)
  else match fuel with
       | O => retM (Some data)
       | S fuel' =>
           do chunk <- recv (size - String.length data);;
           if str_eqb chunk "" then retM (if str_eqb data "" then None else Some data)
           else recv_loop fuel' size (data ++ chunk)
       end.
Definition recv_exact (size : nat) : M stream (option string) := recv_loop size size "".

Definition encode_frame (data : string) : result string :=
  require slen data <=? MAX_REQUEST_SIZE else_raise ExecutorIPCError;;
  Ok (pack_be32 (slen data) ++ data).

Definition decode_frame : M stream string :=
  do header <- recv_exact 4;;
  match header with
  | None => raiseM ExecutorIPCError
  | Some h =>
      do length <- liftM (unpack_be32 h);;
      assert_ length <=? MAX_REQUEST_SIZE else_raise ExecutorIPCError;;
      do payload <- recv_exact (Z.to_nat length);;
      match payload with None => raiseM ExecutorIPCError | Some p => retM p end
  end.

(** ** Bytes of an integer *)

Lemma byte_char_ord z : ord (byte_char z) = z mod 256.
Proof.
  unfold byte_char, ord. change 255 with (Z.ones 8). rewrite Z.land_ones by lia. change (2 ^ 8) with 256.
  pose proof (Z.mod_pos_bound z 256). rewrite nat_ascii_embedding by lia. lia.
Qed.
Lemma unpack_pack_be32 n : 0 ≤ n < 2 ^ 32 → unpack_be32 (pack_be32 n) = Ok n.
Proof.
  intros Hn. unfold unpack_be32, pack_be32. f_equal. rewrite !byte_char_ord.
  change 256 with (2 ^ 8). rewrite <- !Z.land_ones by lia.
  apply Z.bits_inj'. intros i Hi. rewrite !Z.lor_spec, !Z.shiftl_spec by lia.
  rewrite !Z.land_spec. destruct (decide (i < 32)) as [H32|H32].
  - assert (∀ k, Z.testbit (Z.ones 8) k = bool_decide (0 ≤ k < 8)) as Hones.
    { intros k. apply eq_bool_prop_intro. rewrite bool_decide_spec, Is_true_true.
      destruct (decide (0 ≤ k)) as [Hk|Hk]; [rewrite Z.testbit_ones by lia; lia|].
      rewrite Z.testbit_neg_r by lia. split; [done|lia]. }
    rewrite !Hones.
    assert (i < 8 ∨ 8 ≤ i < 16 ∨ 16 ≤ i < 24 ∨ 24 ≤ i < 32) as [H|[H|[H|H]]] by lia.
    all: repeat case_bool_decide; try lia; rewrite ?andb_false_r, ?andb_true_r, ?orb_false_r; cbn [orb];
      rewrite ?Z.shiftr_spec by lia; f_equal; lia.
  - assert (∀ k m, 8 ≤ k → m && Z.testbit (Z.ones 8) k = false) as Hz.
    { intros k m Hk. rewrite Z.ones_spec_high by lia. apply andb_false_r. }
    rewrite !Hz by lia. symmetry. cbn [orb]. apply Z.bits_above_log2; [lia|].
    destruct (decide (n = 0)) as [->|]; [cbn; lia|].
    apply Z.log2_lt_pow2; [lia|]. eapply Z.lt_le_trans; [apply Hn|]. apply Z.pow_le_mono_r; lia.
Qed.

(** ** Prefixes *)

Lemma take_drop_str n s : str_take n s ++ str_drop n s = s.
Proof. revert s. induction n as [|n IH]; intros [|c s]; cbn; try done. by rewrite app_cons, IH. Qed.
Lemma length_take_str n s : String.length (str_take n s) = (n `min` String.length s)%nat.
Proof. revert s. induction n as [|n IH]; intros [|c s]; cbn; [done..|]. by rewrite IH. Qed.
Lemma take_app_long n a b : (String.length a ≤ n)%nat → str_take n (a ++ b) = a ++ str_take (n - String.length a) b.
Proof.
  revert n. induction a as [|c a IH]; intros n Hn; cbn [String.length] in *.
  - by rewrite !app_empty, Nat.sub_0_r.
  - destruct n as [|n]; [lia|]. rewrite !app_cons. cbn. by rewrite IH by lia.
Qed.
Lemma take_app_short n a b : (n ≤ String.length a)%nat → str_take n (a ++ b) = str_take n a.
Proof.
  revert n. induction a as [|c a IH]; intros [|n] Hn; cbn [String.length] in *; try lia.
  - by destruct b.
  - done.
  - rewrite app_cons. cbn. by rewrite IH by lia.
Qed.
Lemma drop_app_long n a b : (String.length a ≤ n)%nat → str_drop n (a ++ b) = str_drop (n - String.length a) b.
Proof.
  revert n. induction a as [|c a IH]; intros n Hn; cbn [String.length] in *.
  - by rewrite app_empty, Nat.sub_0_r.
  - destruct n as [|n]; [lia|]. rewrite app_cons. cbn. by rewrite IH by lia.
Qed.
Lemma drop_app_short n a b : (n ≤ String.length a)%nat → str_drop n (a ++ b) = str_drop n a ++ b.
Proof.
  revert n. induction a as [|c a IH]; intros [|n] Hn; cbn [String.length] in *; try lia; try done.
  rewrite app_cons. cbn. by rewrite IH by lia.
Qed.
Lemma drop_take_all n s : (String.length s ≤ n)%nat → str_drop n s = "".
Proof. revert n. induction s as [|c s IH]; intros [|n] Hn; cbn in *; try done; [lia|]. apply IH. lia. Qed.

(** ** Streams without failures *)

Fixpoint content (st : stream) : string :=
  match st with
  | [] => ""
  | Data c bs :: st' => String c bs ++ content st'
  | Failure _ :: st' => content st'
  end.
Definition intact (st : stream) : Prop := Forall (λ a, match a with Data _ _ => True | Failure _ => False end) st.

Lemma recv_intact n st : intact st → (0 < n)%nat → ∃ st' b, recv n st = (st', Ok b) ∧ intact st' ∧
  b ++ content st' = content st ∧ (String.length b ≤ n)%nat ∧ (b = "" → content st = "").
Proof.
  intros Hst Hn. destruct Hst as [|[c bs|e] st Ha Hst]; [|  |destruct Ha].
  { exists [], "". split_and!; [done|constructor|done|cbn; lia|done]. }
  unfold recv. eexists _, _. split; [done|].
  destruct n as [|n]; [lia|]. cbn [str_drop str_take]. split_and!.
  - destruct (str_drop n bs); [done|by constructor].
  - cbn [content]. rewrite !app_cons. f_equal.
    transitivity ((str_take n bs ++ str_drop n bs) ++ content st); [|by rewrite take_drop_str].
    rewrite app_assoc_str. f_equal. by destruct (str_drop n bs) as [|d r].
  - cbn [String.length]. rewrite length_take_str. lia.
  - done.
Qed.

(** The loop reads the bytes asked for, or what there is. *)
Lemma recv_loop_spec fuel size : ∀ data st, intact st → (String.length data ≤ size)%nat →
  (size - String.length data ≤ fuel)%nat → ∃ st' got,
  recv_loop fuel size data st = (st', Ok (if str_eqb (data ++ got) "" && (0 <? size)%nat then None else Some (data ++ got))) ∧
  intact st' ∧ got ++ content st' = content st ∧
  (String.length (data ++ got) = size ∨ content st' = "" ∧ (String.length (data ++ got) < size)%nat).
Proof.
  induction fuel as [|fuel IH]; intros data st Hst Hd Hf; cbn [recv_loop].
  all: destruct (size <=? String.length data)%nat eqn:E; [apply Nat.leb_le in E|apply Nat.leb_gt in E; try lia].
  1,2: exists st, ""; rewrite app_nil_str; split_and!; [|done|done|lia];
    assert (String.length data = size) as <- by lia; by destruct data.
  destruct (recv_intact (size - String.length data) st Hst ltac:(lia)) as (st1 & b & E1 & Hst1 & Hb & Hlen & Hemp).
  unfold bindM. rewrite E1. destruct (str_eqb b "") eqn:Eb.
  - apply str_eqb_true in Eb as ->. exists st1, "". rewrite app_nil_str. rewrite app_empty in Hb.
    unfold retM. split_and!; [|done|by rewrite app_empty|right; split; [rewrite Hb; by apply Hemp|lia]].
    assert ((0 <? size)%nat = true) as -> by (apply Nat.ltb_lt; lia). by rewrite andb_true_r.
  - destruct (IH (data ++ b) st1) as (st' & got & E2 & Hst' & Hg & Hl); [done|rewrite length_app_str; lia| |].
    { rewrite length_app_str. destruct b; [done|]. cbn [String.length] in *. lia. }
    exists st', (b ++ got). rewrite E2. rewrite !app_assoc_str in *. split_and!; [done|done|by rewrite Hg|done].
Qed.

Lemma recv_exact_spec size st : intact st → ∃ st' got,
  recv_exact size st = (st', Ok (if str_eqb got "" && (0 <? size)%nat then None else Some got)) ∧
  intact st' ∧ got ++ content st' = content st ∧
  (String.length got = size ∨ content st' = "" ∧ (String.length got < size)%nat).
Proof. intros H. by destruct (recv_loop_spec size size "" st H ltac:(cbn; lia) ltac:(cbn; lia)) as (st' & got & ?); exists st', got. Qed.

(** ** Frames *)

(** What [decode_frame] reads off the bytes of a connection: a header of fewer
    than four bytes is a [struct.error], a payload cut short is a payload. *)
Definition frame_of (s : string) : result string :=
  if str_eqb s "" then Raise ExecutorIPCError
  else let* n := unpack_be32 (str_take 4 s) in
       require n <=? MAX_REQUEST_SIZE else_raise ExecutorIPCError;;
       require (n <=? 0) || str_nonempty (str_drop 4 s) else_raise ExecutorIPCError;;
       Ok (str_take (Z.to_nat n) (str_drop 4 s)).

Lemma app_full_or_end size got rest : (String.length got = size ∨ rest = "" ∧ (String.length got < size)%nat) →
  got = str_take size (got ++ rest) ∧ rest = str_drop size (got ++ rest).
Proof.
  intros [Hl|[-> Hl]].
  - rewrite take_app_long, drop_app_long by lia. rewrite Hl, Nat.sub_diag. cbn.
    destruct rest; by rewrite app_nil_str.
  - rewrite app_nil_str. split; [|by rewrite drop_take_all by lia].
    rewrite <- (app_nil_str got) at 2. rewrite take_app_long by lia.
    destruct (_ - _)%nat; by rewrite app_nil_str.
Qed.

Lemma decode_frame_of st : intact st → ∃ st', decode_frame st = (st', frame_of (content st)) ∧ intact st'.
Proof.
  intros Hst. destruct (recv_exact_spec 4 st Hst) as (st1 & h & E1 & Hst1 & Hh & Hl).
  apply app_full_or_end in Hl as [Hh4 Hr]. rewrite Hh in Hh4, Hr.
  unfold decode_frame, bindM at 1. rewrite E1. unfold frame_of.
  assert (str_eqb h "" = str_eqb (content st) "") as ->.
  { unfold str_eqb. apply bool_decide_ext. split; intros H; [|rewrite H in Hh4; by subst].
    rewrite H in Hh4. by destruct (content st). }
  destruct (str_eqb (content st) "") eqn:Es; [by exists st1|]. cbn [andb]. rewrite <- Hh4.
  unfold bindM at 1, liftM at 1. destruct (unpack_be32 h) as [n|e]; [|by exists st1]. cbn [rbind].
  unfold bindM at 1, liftM at 1, raise_unless. destruct (n <=? MAX_REQUEST_SIZE); [|by exists st1]. cbn [rbind].
  destruct (recv_exact_spec (Z.to_nat n) st1 Hst1) as (st2 & p & E2 & Hst2 & Hp & Hl2).
  apply app_full_or_end in Hl2 as [Hp2 _]. rewrite Hp in Hp2.
  unfold bindM at 1. rewrite E2, <- Hr, <- Hp2. exists st2.
  destruct (Z.leb_spec n 0) as [Hn|Hn]; cbn [orb].
  - replace (Z.to_nat n) with O by lia. cbn [Nat.ltb Nat.leb]. by rewrite andb_false_r.
  - assert ((0 <? Z.to_nat n)%nat = true) as -> by (apply Nat.ltb_lt; lia). rewrite andb_true_r.
    unfold str_nonempty. assert (str_eqb (content st1) "" = str_eqb p "") as ->; [|by destruct (str_eqb p "")].
    unfold str_eqb. apply bool_decide_ext. destruct (Z.to_nat n) as [|m] eqn:Em; [lia|].
    rewrite Hp2. by destruct (content st1).
Qed.

Lemma encode_frame_Ok data f : encode_frame data = Ok f → f = pack_be32 (slen data) ++ data ∧ slen data ≤ MAX_REQUEST_SIZE.
Proof. unfold encode_frame. intros H. inv_ok. split; [done|lia]. Qed.

(** Whatever follows a frame, its payload is what is read. *)
Lemma frame_of_encoded data f rest : encode_frame data = Ok f → frame_of (f ++ rest) = Ok data.
Proof.
  intros [-> Hlen]%encode_frame_Ok. unfold MAX_REQUEST_SIZE in *. unfold frame_of.
  rewrite app_assoc_str.
  change (str_take 4 (pack_be32 (slen data) ++ data ++ rest)) with (pack_be32 (slen data)).
  change (str_drop 4 (pack_be32 (slen data) ++ data ++ rest)) with (data ++ rest).
  rewrite unpack_pack_be32 by (unfold slen in *; lia). cbn [rbind raise_unless].
  unfold MAX_REQUEST_SIZE. rewrite (proj2 (Z.leb_le _ _) Hlen). cbn [rbind raise_unless].
  unfold slen. rewrite Nat2Z.id, take_app_long, Nat.sub_diag by lia.
  assert ((Z.of_nat (String.length data) <=? 0) || str_nonempty (data ++ rest) = true) as ->.
  { destruct data as [|c data]; [done|]. apply orb_true_iff. right. by apply str_nonempty_true. }
  cbn. by destruct rest; rewrite app_nil_str.
Qed.

Lemma frame_of_bound s p : frame_of s = Ok p → slen p ≤ MAX_REQUEST_SIZE.
Proof.
  unfold frame_of. destruct (str_eqb s ""); [done|]. intros H. inv_ok.
  unfold slen, MAX_REQUEST_SIZE in *. rewrite length_take_str. lia.
Qed.
Lemma frame_of_Raise s e : frame_of s = Raise e →
  e = ExecutorIPCError ∨ e = StructError ∧ (0 < String.length s < 4)%nat.
Proof.
  unfold frame_of. destruct (str_eqb s "") eqn:Es; [intros [= <-]; by left|].
  destruct s as [|a [|b [|c [|d s]]]]; [done|..]; cbn -[unpack_be32 Z.leb str_nonempty];
    [intros [= <-]; right; split; [done|cbn; lia]..|].
  destruct (unpack_be32 _) as [n|e'] eqn:En; [|done]. cbn [rbind].
  destruct (n <=? _); cbn [rbind raise_unless]; [|intros [= <-]; by left].
  destruct (_ || _); cbn [rbind raise_unless]; [done|intros [= <-]; by left].
Qed.
