(* ===== verification/Ipc.v ===== *)
(** * Ipc: the messages of the executor channel (control_plane/executor_ipc.py)

    Requests, responses, receipt queries and their JSON texts.  A field of a
    parsed request that the constructor does not check ([capability_id],
    [target_id]) holds whatever JSON value was sent, so the record of a request
    has the type of those two fields as a parameter: [string] where the control
    plane builds it, [pyval] where the executor parses it.  The bytes of a text
    are its characters (ASCII); the other encodings [json.loads] detects in
    bytes are not modelled. *)

From S2P Require Import Prelude PyStr PyText PyDict Json JsonParse Wire.
From Stdlib Require Import Ascii String ZArith Lia.
From stdpp Require Import base strings list.

Local Open Scope string_scope.
Local Open Scope Z_scope.
Local Open Scope aipm_scope.

Definition CAPABILITY_EXECUTE_UPDATE_PLAN : string := "execute_update_plan".
Definition CAPABILITY_EXECUTE_SERVICE_UPDATE : string := "execute_service_update".
Definition QUERY_MESSAGE_TYPE : string := "query_mutation_receipt".
Definition EXECUTION_PROTOCOLS : list string := ["legacy-v1"; "mc616d2-v1"].

(** ** JSON values as Python reads them *)

(** [payload.get(key)] *)
Definition field (key : string) (d : dict string pyval) : pyval :=
  match dget key d with Some v => v | None => VNull end.
Definition is_null (v : pyval) : bool := match v with VNull => true | _ => false end.
(** [isinstance(v, str)] and a test of the string. *)
Definition str_with (p : string → bool) (v : pyval) : bool := match v with VStr s => p s | _ => false end.
(** [v if isinstance(v, str) else None] *)
Definition as_str (v : pyval) : option string := match v with VStr s => Some s | _ => None end.

(** ** Service scopes *)

Definition FORBIDDEN_CHARS : list ascii :=
  (list_ascii_of_string ";&|$`><'/\:@ " ++ List.map ascii_of_nat [10; 13; 9; 0; 34]%nat)%list.
Definition forbidden_char (c : ascii) : bool := bool_decide (c ∈ FORBIDDEN_CHARS) || is_space c.
Definition SERVICE_NAME_PATTERN (s : string) : bool :=
  match s with
  | EmptyString => false
  | String c s' => is_alnum c && str_all (λ c, is_alnum c || one_of "_.-" c) s'
  end.

(** The checks of one name of the scope. *)
Definition valid_service_name (item : string) : bool :=
  str_nonempty item && negb (match item with String c _ => Ascii.eqb c "-" | _ => false end) &&
  str_eqb item (strip item) && negb (str_any forbidden_char item) &&
  (SERVICE_NAME_PATTERN item && (slen item <=? 64)).

Fixpoint validate_names (seen : list string) (items : list pyval) : result (list string) :=
  match items with
  | [] => Ok []
  | VStr item :: items' =>
      require valid_service_name item else_raise ExecutorIPCError;;
      require negb (bool_decide (item ∈ seen)) else_raise ExecutorIPCError;;
      let* rest := validate_names (seen ++ [item]) items' in
      Ok (item :: rest)
  | _ :: _ => Raise ExecutorIPCError
  end.
Definition validate_service_scope (scope : pyval) : result (list string) :=
  match scope with
  | VArr items =>
      require negb (bool_decide (items = [])) else_raise ExecutorIPCError;;
      validate_names [] items
  | _ => Raise ExecutorIPCError
  end.

(** ** Requests *)

Record ExecutionRequest (V : Type) := {
  er_action_id : string;
  er_capability_id : V;
  er_target_id : V;
  er_contract_digest : string;
  er_lease_id : string;
  er_fencing_token : Z;
  er_action_protocol : string;
  er_plan_digest : option string;
  er_confirmation_id : option string;
  er_service_scope : option (list string);
  er_registration_id : option string;
  er_registration_digest : option string;
}.
Arguments er_action_id {V} _.
Arguments er_capability_id {V} _.
Arguments er_target_id {V} _.
Arguments er_contract_digest {V} _.
Arguments er_lease_id {V} _.
Arguments er_fencing_token {V} _.
Arguments er_action_protocol {V} _.
Arguments er_plan_digest {V} _.
Arguments er_confirmation_id {V} _.
Arguments er_service_scope {V} _.
Arguments er_registration_id {V} _.
Arguments er_registration_digest {V} _.

(** [__post_init__]; the scope is rewritten by its validated form. *)
Definition new_ExecutionRequest {V} (r : ExecutionRequest V) : result (ExecutionRequest V) :=
  require bool_decide (er_action_protocol r ∈ EXECUTION_PROTOCOLS) else_raise ExecutorIPCError;;
  match er_service_scope r with
  | None => Ok r
  | Some scope =>
      let* validated := validate_service_scope (VArr (List.map VStr scope)) in
      Ok {| er_action_id := er_action_id r; er_capability_id := er_capability_id r;
            er_target_id := er_target_id r; er_contract_digest := er_contract_digest r;
            er_lease_id := er_lease_id r; er_fencing_token := er_fencing_token r;
            er_action_protocol := er_action_protocol r; er_plan_digest := er_plan_digest r;
            er_confirmation_id := er_confirmation_id r; er_service_scope := Some validated;
            er_registration_id := er_registration_id r;
            er_registration_digest := er_registration_digest r |}
  end.

Definition REQUIRED_FIELDS : list string :=
  ["action_id"; "capability_id"; "target_id"; "contract_digest"; "lease_id"; "fencing_token";
   "action_protocol"].

(** [capability_id in (…)] *)
Definition is_update_capability (v : pyval) : bool :=
  str_with (λ s, str_eqb s CAPABILITY_EXECUTE_UPDATE_PLAN || str_eqb s CAPABILITY_EXECUTE_SERVICE_UPDATE) v.
Definition is_service_capability (v : pyval) : bool := str_with (λ s, str_eqb s CAPABILITY_EXECUTE_SERVICE_UPDATE) v.
Definition hex_or_null (size : Z) (v : pyval) : bool := is_null v || str_with (HEX size) v.

Definition request_of (d : dict string pyval) : result (ExecutionRequest pyval) :=
  require List.forallb (λ k, dmem k d) REQUIRED_FIELDS else_raise ExecutorIPCError;;
  require dlen d <=? 16 else_raise ExecutorIPCError;;
  let plan_digest := field "plan_digest" d in
  let confirmation_id := field "confirmation_id" d in
  let service_scope_raw := field "service_scope" d in
  let registration_id := field "registration_id" d in
  let registration_digest := field "registration_digest" d in
  let capability_id := field "capability_id" d in
  require negb (is_update_capability capability_id) ||
          (str_with str_nonempty plan_digest && str_with str_nonempty confirmation_id)
    else_raise ExecutorIPCError;;
  require negb (is_service_capability capability_id) || negb (is_null service_scope_raw)
    else_raise ExecutorIPCError;;
  require hex_or_null 64 plan_digest && hex_or_null 32 confirmation_id && hex_or_null 64 registration_digest
    else_raise ExecutorIPCError;;
  require is_null registration_id || str_with (λ s, str_nonempty s && (slen s <=? 128)) registration_id
    else_raise ExecutorIPCError;;
  let* service_scope := (if is_null service_scope_raw then Ok None
                         else let* s := validate_service_scope service_scope_raw in Ok (Some s)) in
  match field "action_id" d, field "contract_digest" d, field "lease_id" d, field "fencing_token" d,
        field "action_protocol" d with
  | VStr action_id, VStr contract_digest, VStr lease_id, VInt fencing_token, VStr action_protocol =>
      require str_nonempty action_id && str_nonempty contract_digest && str_nonempty lease_id
        else_raise ExecutorIPCError;;
      require bool_decide (action_protocol ∈ EXECUTION_PROTOCOLS) else_raise ExecutorIPCError;;
      new_ExecutionRequest
        {| er_action_id := action_id; er_capability_id := capability_id; er_target_id := field "target_id" d;
           er_contract_digest := contract_digest; er_lease_id := lease_id; er_fencing_token := fencing_token;
           er_action_protocol := action_protocol; er_plan_digest := as_str plan_digest;
           er_confirmation_id := as_str confirmation_id; er_service_scope := service_scope;
           er_registration_id := as_str registration_id;
           er_registration_digest := as_str registration_digest |}
  | _, _, _, _, _ => Raise ExecutorIPCError
  end.

(** [json.loads] of a frame with the errors it is caught under, then an object. *)
Definition loads_object_of (data : string) : result (dict string pyval) :=
  match loads data with
  | Ok (VObj d) => Ok d
  | Ok _ => Raise ExecutorIPCError
  | Raise JSONDecodeError => Raise ExecutorIPCError
  | Raise e => Raise e
  end.
Definition request_from_json (data : string) : result (ExecutionRequest pyval) :=
  let* d := loads_object_of data in request_of d.

Definition opt_field {A} (key : string) (f : A → json) (o : option A) : list (string * json) :=
  match o with Some a => [(key, f a)] | None => [] end.
Definition wire_payload (r : ExecutionRequest string) : list (string * json) :=
  ([("action_id", JStr (er_action_id r)); ("capability_id", JStr (er_capability_id r));
    ("target_id", JStr (er_target_id r)); ("contract_digest", JStr (er_contract_digest r));
    ("lease_id", JStr (er_lease_id r)); ("fencing_token", JInt (er_fencing_token r));
    ("action_protocol", JStr (er_action_protocol r))] ++
   opt_field "plan_digest" JStr (er_plan_digest r) ++
   opt_field "confirmation_id" JStr (er_confirmation_id r) ++
   opt_field "service_scope" (λ l, JArr (List.map JStr l)) (er_service_scope r) ++
   opt_field "registration_id" JStr (er_registration_id r) ++
   opt_field "registration_digest" JStr (er_registration_digest r))%list.
Definition request_to_json (r : ExecutionRequest string) : string := dumps (JObj (wire_payload r)).

(** ** Responses *)

Record ExecutionResponse (V : Type) := {
  rs_outcome : V; rs_provider_code : V; rs_action_id : V; rs_evidence_reference : V;
}.
Arguments rs_outcome {V} _.
Arguments rs_provider_code {V} _.
Arguments rs_action_id {V} _.
Arguments rs_evidence_reference {V} _.
Arguments Build_ExecutionResponse {V} _ _ _ _.

Definition response_payload (r : ExecutionResponse string) : list (string * json) :=
  [("outcome", JStr (rs_outcome r)); ("provider_code", JStr (rs_provider_code r));
   ("action_id", JStr (rs_action_id r)); ("evidence_reference", JStr (rs_evidence_reference r))].
Definition response_to_json (r : ExecutionResponse string) : string := dumps (JObj (response_payload r)).

(** The four subscripts of [send]: a reply that is no object is a [TypeError]
    (a list or a string indexed by a string, a number), a missing key a
    [KeyError]. *)
Definition response_of (v : pyval) : result (ExecutionResponse pyval) :=
  match v with
  | VObj d =>
      match dget "outcome" d, dget "provider_code" d, dget "action_id" d, dget "evidence_reference" d with
      | Some o, Some c, Some a, Some e => Ok (Build_ExecutionResponse o c a e)
      | _, _, _, _ => Raise KeyError
      end
  | _ => Raise TypeError
  end.

(** ** Receipt queries *)

Record ReceiptQueryRequest := { rq_action_id : string; rq_fencing_token : Z }.

Definition query_of (d : dict string pyval) : result ReceiptQueryRequest :=
  require (dlen d =? 3) && List.forallb (λ k, dmem k d) ["message_type"; "action_id"; "fencing_token"]
    else_raise ExecutorIPCError;;
  require str_with (str_eqb QUERY_MESSAGE_TYPE) (field "message_type" d) else_raise ExecutorIPCError;;
  match field "action_id" d, field "fencing_token" d with
  | VStr action_id, VInt token =>
      require HEX 64 action_id && (1 <=? token) else_raise ExecutorIPCError;;
      Ok {| rq_action_id := action_id; rq_fencing_token := token |}
  | _, _ => Raise ExecutorIPCError
  end.
Definition query_from_json (data : string) : result ReceiptQueryRequest :=
  let* d := loads_object_of data in query_of d.
Definition query_payload (q : ReceiptQueryRequest) : list (string * json) :=
  [("message_type", JStr QUERY_MESSAGE_TYPE); ("action_id", JStr (rq_action_id q));
   ("fencing_token", JInt (rq_fencing_token q))].
Definition query_to_json (q : ReceiptQueryRequest) : string := dumps (JObj (query_payload q)).

(** [_is_query_frame] *)
Definition is_query_frame (payload : string) : bool :=
  match loads payload with
  | Ok (VObj d) => str_with (str_eqb QUERY_MESSAGE_TYPE) (field "message_type" d)
  | _ => false
  end.

(** The values of an evidence map: a string, an integer or [None]. *)
Inductive scalar := SNone | SInt (z : Z) | SStr (s : string).
Definition scalar_json (v : scalar) : json :=
  match v with SNone => JNull | SInt z => JInt z | SStr s => JStr s end.

Record ReceiptQueryResponse := {
  qr_mutation_status : string;
  qr_provider_code : string;
  qr_evidence : dict string scalar;
}.
Definition query_response_payload (r : ReceiptQueryResponse) : list (string * json) :=
  [("mutation_status", JStr (qr_mutation_status r)); ("provider_code", JStr (qr_provider_code r));
   ("evidence", JObj (List.map (λ kv, (fst kv, scalar_json (snd kv))) (qr_evidence r)))].
Definition query_response_to_json (r : ReceiptQueryResponse) : string := dumps (JObj (query_response_payload r)).

Definition EVIDENCE_FIELDS : list string :=
  ["receipt_id"; "action_id"; "fencing_token"; "capability_id"; "target_id"; "contract_digest";
   "mutation_status"; "provider_code"; "created_at"; "completed_at"; "version"; "protocol_version";
   "evidence_reference"].
Fixpoint evidence_of (d : dict string pyval) : result (dict string scalar) :=
  match d with
  | [] => Ok []
  | (key, value) :: d' =>
      require bool_decide (key ∈ EVIDENCE_FIELDS) else_raise ExecutorIPCError;;
      let* v := match value with
                | VNull => Ok SNone
                | VStr s => require slen s <=? 160 else_raise ExecutorIPCError;; Ok (SStr s)
                | VInt z => Ok (SInt z)
                | _ => Raise ExecutorIPCError
                end in
      let* rest := evidence_of d' in
      Ok ((key, v) :: rest)
  end.
Definition query_response_of (d : dict string pyval) : result ReceiptQueryResponse :=
  require (dlen d =? 3) && List.forallb (λ k, dmem k d) ["mutation_status"; "provider_code"; "evidence"]
    else_raise ExecutorIPCError;;
  match field "mutation_status" d, field "provider_code" d, field "evidence" d with
  | VStr status, VStr code, VObj evidence =>
      require str_nonempty status && (slen status <=? 32) else_raise ExecutorIPCError;;
      require slen code <=? 128 else_raise ExecutorIPCError;;
      require dlen evidence <=? 16 else_raise ExecutorIPCError;;
      let* e := evidence_of evidence in
      Ok {| qr_mutation_status := status; qr_provider_code := code; qr_evidence := e |}
  | _, _, _ => Raise ExecutorIPCError
  end.
Definition query_response_from_json (data : string) : result ReceiptQueryResponse :=
  let* d := loads_object_of data in query_response_of d.

(** ** Service scopes: what the checks amount to *)

Definition canonical_name : string → bool := headed is_alnum (λ c, is_alnum c || one_of "_.-" c) 63.
Definition valid_scope (l : list string) : bool :=
  negb (bool_decide (l = [])) && List.forallb canonical_name l && bool_decide (NoDup l).

Lemma name_char_plain c : is_alnum c || one_of "_.-" c = true → forbidden_char c = false ∧ is_space c = false.
Proof. destruct c as [[] [] [] [] [] [] [] []]; intros H; try discriminate H; by split. Qed.
Lemma alnum_not_dash c : is_alnum c = true → Ascii.eqb c "-" = false.
Proof. destruct c as [[] [] [] [] [] [] [] []]; intros H; try discriminate H; done. Qed.

(** The blacklist, the dash and the white space checks follow from the pattern. *)
Lemma valid_service_name_canonical s : valid_service_name s = canonical_name s.
Proof.
  unfold valid_service_name, canonical_name, headed, SERVICE_NAME_PATTERN. destruct s as [|c s]; [done|].
  destruct (is_alnum c && str_all (λ c, is_alnum c || one_of "_.-" c) s) eqn:E; [|by rewrite andb_false_r].
  apply andb_true_iff in E as [Hc Hs].
  assert (str_all (λ c, is_alnum c || one_of "_.-" c) (String c s) = true) as Hall by (cbn; by rewrite Hc, Hs).
  assert (∀ p : ascii → bool, (∀ c, is_alnum c || one_of "_.-" c = true → p c = false) →
            str_any p (String c s) = false) as Hno.
  { intros p Hp. unfold str_any. apply negb_false_iff. revert Hall. generalize (String c s).
    induction s0 as [|d t IH]; [done|]. cbn. intros [Hd Ht]%andb_true_iff. rewrite (Hp d Hd). by apply IH. }
  rewrite (Hno forbidden_char) by (intros; by apply name_char_plain).
  rewrite (strip_id (String c s)) by (apply Hno; intros; by apply name_char_plain).
  rewrite str_eqb_refl, (alnum_not_dash c Hc).
  assert (str_nonempty (String c s) = true) as -> by by apply str_nonempty_true. cbn [negb andb].
  unfold slen. cbn [String.length]. apply eq_bool_prop_intro. rewrite !Is_true_true, !Z.leb_le. lia.
Qed.

Lemma validate_names_Ok items : ∀ seen l, validate_names seen items = Ok l ↔
  items = List.map VStr l ∧ Forall (λ s, canonical_name s = true) l ∧ NoDup l ∧ (∀ s, s ∈ l → s ∉ seen).
Proof.
  induction items as [|v items IH]; intros seen l; cbn.
  - split; [intros [= <-]; split_and!; [done..|constructor|by intros s ?%not_elem_of_nil]|].
    by intros (E & _); destruct l.
  - destruct v as [| | | |item| |]; try (split; [done|intros (E & _); by destruct l]).
    rewrite valid_service_name_canonical. split.
    + intros E. inv_ok. apply IH in H1 as (-> & Hf & Hd & Hs). split_and!.
      * done.
      * by constructor.
      * constructor; [|done]. intros Hin. apply (Hs item Hin), elem_of_app. right. by apply list_elem_of_singleton.
      * intros s [-> |Hin]%elem_of_cons; [done|]. intros Hseen. apply (Hs s Hin), elem_of_app. by left.
    + intros (E & Hf & Hd & Hs). destruct l as [|s l]; [done|]. injection E as -> ->.
      apply Forall_cons in Hf as [Hc Hf]. apply NoDup_cons in Hd as [Hn Hd]. rewrite Hc. cbn.
      rewrite bool_decide_eq_false_2 by (by apply Hs; left). cbn.
      rewrite (proj2 (IH (seen ++ [s])%list l)); [done|]. split_and!; [done..|].
      intros t Ht [Hin| ->%list_elem_of_singleton]%elem_of_app; [|done]. by apply (Hs t); [right|].
Qed.

Lemma result_err {A} (r : result A) (e : exn) : (∀ e', r = Raise e' → e' = e) → (∀ a, r ≠ Ok a) → r = Raise e.
Proof. intros He Ha. destruct r as [a|e']; [by destruct (Ha a)|]. by rewrite (He e'). Qed.

Lemma validate_names_Raise items : ∀ seen e, validate_names seen items = Raise e → e = ExecutorIPCError.
Proof.
  induction items as [|v items IH]; intros seen e; cbn; [done|].
  destruct v; cbn; try congruence. destruct (valid_service_name s); cbn; [|congruence].
  destruct (negb _); cbn; [|congruence]. destruct (validate_names _ items) eqn:E; cbn; [done|].
  intros [= <-]. by eapply IH.
Qed.
Lemma validate_scope_Raise v e : validate_service_scope v = Raise e → e = ExecutorIPCError.
Proof.
  destruct v; cbn; try congruence. destruct (negb _); cbn; [apply validate_names_Raise|congruence].
Qed.

Lemma validate_scope_Ok v l : validate_service_scope v = Ok l ↔ v = VArr (List.map VStr l) ∧ valid_scope l = true.
Proof.
  unfold valid_scope. rewrite !andb_true_iff, negb_true_iff, bool_decide_eq_false, bool_decide_eq_true.
  rewrite List.forallb_forall. setoid_rewrite <- list_elem_of_In.
  setoid_rewrite <- Forall_forall. destruct v as [| | | | |items|]; cbn; try (split; [done|by intros [? _]]).
  destruct (decide (items = [])) as [->|Hne].
  - rewrite bool_decide_eq_true_2 by done. cbn. split; [done|]. intros [E [[Hl _] _]]. by destruct l.
  - rewrite bool_decide_eq_false_2 by done. cbn. rewrite validate_names_Ok. split.
    + intros (-> & Hf & Hd & _). split_and!; [done|by intros ->|done|done].
    + intros ([= ->] & [? ?] & ?). split_and!; [done..|]. intros s _. apply not_elem_of_nil.
Qed.
Lemma strings_inj (l l' : list string) : List.map VStr l = List.map VStr l' → l = l'.
Proof.
  revert l'. induction l as [|s l IH]; intros [|s' l'] E; try done. injection E as -> E. by rewrite (IH l').
Qed.
Lemma validate_scope_strings l :
  validate_service_scope (VArr (List.map VStr l)) = if valid_scope l then Ok l else Raise ExecutorIPCError.
Proof.
  destruct (valid_scope l) eqn:E; [by apply validate_scope_Ok|].
  apply result_err; [apply validate_scope_Raise|]. intros l' [[= Hm%strings_inj] Hv]%validate_scope_Ok.
  congruence.
Qed.

(** ** Requests on the wire *)

(** The request the executor sees for the one that was sent. *)
Definition received (r : ExecutionRequest string) : ExecutionRequest pyval :=
  {| er_action_id := er_action_id r; er_capability_id := VStr (er_capability_id r);
     er_target_id := VStr (er_target_id r); er_contract_digest := er_contract_digest r;
     er_lease_id := er_lease_id r; er_fencing_token := er_fencing_token r;
     er_action_protocol := er_action_protocol r; er_plan_digest := er_plan_digest r;
     er_confirmation_id := er_confirmation_id r; er_service_scope := er_service_scope r;
     er_registration_id := er_registration_id r; er_registration_digest := er_registration_digest r |}.

Definition opt_all {A} (p : A → bool) (o : option A) : bool := match o with Some a => p a | None => true end.
Definition present {A} (o : option A) : bool := match o with Some _ => true | None => false end.

(** What the executor demands of a request, in terms of the request. *)
Definition acceptable (r : ExecutionRequest string) : bool :=
  let update := str_eqb (er_capability_id r) CAPABILITY_EXECUTE_UPDATE_PLAN in
  let service := str_eqb (er_capability_id r) CAPABILITY_EXECUTE_SERVICE_UPDATE in
  (negb (update || service) || present (er_plan_digest r) && present (er_confirmation_id r)) &&
  (negb service || present (er_service_scope r)) &&
  opt_all (HEX 64) (er_plan_digest r) && opt_all (HEX 32) (er_confirmation_id r) &&
  opt_all (HEX 64) (er_registration_digest r) &&
  opt_all (λ s, str_nonempty s && (slen s <=? 128)) (er_registration_id r) &&
  opt_all valid_scope (er_service_scope r) &&
  str_nonempty (er_action_id r) && str_nonempty (er_contract_digest r) && str_nonempty (er_lease_id r) &&
  bool_decide (er_action_protocol r ∈ EXECUTION_PROTOCOLS).

Lemma request_payload_wf r : dwf (wire_payload r).
Proof.
  unfold dwf, dkeys, wire_payload. apply (bool_decide_unpack _).
  destruct r as [? ? ? ? ? ? ? [] [] [] [] []]; reflexivity.
Qed.
Lemma request_payload_len r : dlen (wire_payload r) <= 16.
Proof. destruct r as [? ? ? ? ? ? ? [] [] [] [] []]; unfold dlen; cbn; lia. Qed.

Definition opt_val {A} (f : A → pyval) (o : option A) : pyval := match o with Some a => f a | None => VNull end.

Lemma strings_back l : List.map of_json (List.map canon (List.map JStr l)) = List.map VStr l.
Proof. induction l as [|s l IH]; cbn; congruence. Qed.

(** The fields a request is read back with. *)
Lemma request_fields r : ∃ d, loads (request_to_json r) = Ok (VObj d) ∧ dlen d <= 16 ∧
  List.forallb (λ k, dmem k d) REQUIRED_FIELDS = true ∧ field "message_type" d = VNull ∧
  (field "action_id" d = VStr (er_action_id r) ∧ field "capability_id" d = VStr (er_capability_id r) ∧
   field "target_id" d = VStr (er_target_id r) ∧ field "contract_digest" d = VStr (er_contract_digest r) ∧
   field "lease_id" d = VStr (er_lease_id r) ∧ field "fencing_token" d = VInt (er_fencing_token r) ∧
   field "action_protocol" d = VStr (er_action_protocol r)) ∧
  field "plan_digest" d = opt_val VStr (er_plan_digest r) ∧
  field "confirmation_id" d = opt_val VStr (er_confirmation_id r) ∧
  field "service_scope" d = opt_val (λ l, VArr (List.map VStr l)) (er_service_scope r) ∧
  field "registration_id" d = opt_val VStr (er_registration_id r) ∧
  field "registration_digest" d = opt_val VStr (er_registration_digest r).
Proof.
  destruct (loads_object (wire_payload r) (request_payload_wf r)) as (d & E & _ & Hl & _ & Hget).
  exists d. pose proof (request_payload_len r).
  split; [done|]. split; [lia|]. unfold field, dmem, REQUIRED_FIELDS. cbn [List.forallb]. rewrite !Hget.
  split; [reflexivity|]. split; [by destruct r as [? ? ? ? ? ? ? [] [] [] [] []]|].
  split; [done|].
  destruct r as [? ? ? ? ? ? ? [] [] [] [] []];
    repeat apply conj; first [reflexivity|cbn [opt_val er_service_scope]; rewrite <- strings_back; reflexivity].
Qed.

Lemma loads_object_Raise data e : loads_object_of data = Raise e → e = ExecutorIPCError.
Proof.
  unfold loads_object_of, loads. destruct (pvalue _ _) as [[v r]|]; [|congruence].
  destruct (str_eqb _ _); [destruct v; congruence|congruence].
Qed.

(** Splits the tests of a computation that raises. *)
Ltac raises_only :=
  repeat match goal with
    | H : Raise _ = Raise _ |- _ => injection H as <-
    | H : Ok _ = Raise _ |- _ => discriminate H
    | H : rbind (raise_unless ?b _) _ = Raise _ |- _ => destruct b; cbn [raise_unless rbind] in H
    | H : rbind ?m _ = Raise _ |- _ => destruct m eqn:?; cbn [rbind] in H
    | H : match ?x with _ => _ end = Raise _ |- _ => destruct x; cbn [rbind] in H
    | H : validate_service_scope _ = Raise _ |- _ => apply validate_scope_Raise in H
    end; try congruence.

Lemma new_request_Raise {V} (r : ExecutionRequest V) e : new_ExecutionRequest r = Raise e → e = ExecutorIPCError.
Proof. unfold new_ExecutionRequest. intros H. raises_only. Qed.
Lemma request_of_Raise d e : request_of d = Raise e → e = ExecutorIPCError.
Proof.
  unfold request_of. intros H. raises_only; try by apply new_request_Raise in H.
Qed.

Lemma HEX_nonempty n s : 0 < n → HEX n s = true → str_nonempty s = true.
Proof. intros Hn. destruct s; [|done]. unfold HEX. cbn. destruct n; lia || done. Qed.

Lemma as_str_opt o : as_str (opt_val VStr o) = o.
Proof. by destruct o. Qed.
Lemma null_or_str p o : is_null (opt_val VStr o) || str_with p (opt_val VStr o) = opt_all p o.
Proof. by destruct o. Qed.
Lemma null_scope o : is_null (opt_val (λ l, VArr (List.map VStr l)) o) = negb (present o).
Proof. by destruct o. Qed.
Lemma bound_fields n p o : 0 < n → opt_all (HEX n) o = true → str_with str_nonempty (opt_val VStr o) && p = present o && p.
Proof. intros Hn. destruct o as [s|]; [|done]. intros H. cbn in *. by rewrite (HEX_nonempty n s Hn H). Qed.

Lemma require_if {A} b e (k : unit → result A) : rbind (raise_unless b e) k = if b then k () else Raise e.
Proof. by destruct b. Qed.

(** Reading a written request: exactly the acceptable ones come back, as they
    were; every other is refused. *)
Lemma request_roundtrip r :
  request_from_json (request_to_json r) =
  if acceptable r then Ok (received r) else Raise ExecutorIPCError.
Proof.
  destruct (request_fields r) as (d & E & Hlen & Hreq & _ & (E1 & E2 & E3 & E4 & E5 & E6 & E7) & E8 & E9 & E10 & E11 & E12).
  unfold request_from_json, loads_object_of. rewrite E. cbn [rbind]. unfold request_of.
  rewrite Hreq, (proj2 (Z.leb_le _ _) Hlen). cbn [rbind raise_unless].
  rewrite E1, E2, E3, E4, E5, E6, E7, E8, E9, E10, E11, E12.
  clear E E1 E2 E3 E4 E5 E6 E7 E8 E9 E10 E11 E12 Hreq Hlen d.
  destruct r as [aid cap tgt dig lease tok proto pd cid scope rid rd]. unfold acceptable, received.
  cbn [er_action_id er_capability_id er_target_id er_contract_digest er_lease_id er_fencing_token
       er_action_protocol er_plan_digest er_confirmation_id er_service_scope er_registration_id
       er_registration_digest].
  unfold hex_or_null. rewrite !null_or_str, !as_str_opt, null_scope, negb_involutive, !require_if.
  cbn [is_update_capability is_service_capability str_with].
  set (service := str_eqb cap CAPABILITY_EXECUTE_SERVICE_UPDATE).
  set (update := str_eqb cap CAPABILITY_EXECUTE_UPDATE_PLAN || service).
  destruct (opt_all (HEX 64) pd) eqn:Hpd, (opt_all (HEX 32) cid) eqn:Hcid; cbn [andb];
    rewrite ?andb_false_r; cbn [andb]; try by repeat case_match.
  assert (str_with str_nonempty (opt_val VStr pd) && str_with str_nonempty (opt_val VStr cid)
          = present pd && present cid) as ->.
  { rewrite (bound_fields 64) by done. by rewrite andb_comm, (bound_fields 32), andb_comm by done. }
  destruct (negb update || present pd && present cid); [|done].
  destruct (negb service || present scope); [|done]. cbn [andb].
  destruct (opt_all (HEX 64) rd); [|done].
  destruct (opt_all (λ s, str_nonempty s && (slen s <=? 128)) rid); [|done]. cbn [andb].
  unfold new_ExecutionRequest. cbn [er_service_scope er_action_protocol].
  destruct scope as [l|]; cbn [present negb opt_val opt_all andb rbind].
  - rewrite validate_scope_strings. destruct (valid_scope l) eqn:Hl; [|done]. cbn [rbind andb].
    destruct (str_nonempty aid && str_nonempty dig && str_nonempty lease); [|done].
    destruct (bool_decide (proto ∈ EXECUTION_PROTOCOLS)); [|done]. cbn [rbind raise_unless andb er_service_scope].
    by rewrite validate_scope_strings, Hl.
  - destruct (str_nonempty aid && str_nonempty dig && str_nonempty lease); [|done].
    by destruct (bool_decide (proto ∈ EXECUTION_PROTOCOLS)).
Qed.

(** ** The other messages *)

(** The keys of a literal payload are distinct. *)
Ltac literal_wf := unfold dwf, dkeys; apply (bool_decide_unpack _); reflexivity.
(** Looks the literal keys up. *)
Ltac literal_dget :=
  repeat match goal with
    | |- context [dget ?k ?p] => let o := eval hnf in (dget k p) in change (dget k p) with o
    end; cbn [fmap option_fmap option_map].

Lemma loads_payload kvs : dwf kvs → ∃ d, loads_object_of (dumps (JObj kvs)) = Ok d ∧ dlen d = dlen kvs ∧
  dkeys d ≡ₚ dkeys kvs ∧ loads (dumps (JObj kvs)) = Ok (VObj d) ∧
  ∀ k, dget k d = (λ j, of_json (canon j)) <$> dget k kvs.
Proof.
  intros Hw. destruct (loads_object kvs Hw) as (d & E & _ & Hl & Hk & Hg).
  exists d. unfold loads_object_of. by rewrite E.
Qed.

Lemma query_roundtrip q :
  query_from_json (query_to_json q) =
    (if HEX 64 (rq_action_id q) && (1 <=? rq_fencing_token q) then Ok q else Raise ExecutorIPCError) ∧
  is_query_frame (query_to_json q) = true.
Proof.
  destruct (loads_payload (query_payload q)) as (d & E & Hl & _ & E' & Hg).
  { literal_wf. }
  unfold is_query_frame. change (query_to_json q) with (dumps (JObj (query_payload q))). rewrite E'.
  unfold field at 1. rewrite Hg. split; [|done].
  unfold query_from_json. change (query_to_json q) with (dumps (JObj (query_payload q))). rewrite E. cbn [rbind].
  unfold query_of, field, dmem. cbn [List.forallb]. rewrite !Hg, Hl, !require_if.
  destruct q as [a t]. literal_dget. cbn -[HEX Z.leb]. by destruct (HEX 64 a && (1 <=? t)).
Qed.

Lemma request_not_query r : is_query_frame (request_to_json r) = false.
Proof.
  destruct (request_fields r) as (d & E & _ & _ & Hm & _). unfold is_query_frame. by rewrite E, Hm.
Qed.

Definition response_received (r : ExecutionResponse string) : ExecutionResponse pyval :=
  Build_ExecutionResponse (VStr (rs_outcome r)) (VStr (rs_provider_code r)) (VStr (rs_action_id r))
    (VStr (rs_evidence_reference r)).
Lemma response_roundtrip r : ∃ v, loads (response_to_json r) = Ok v ∧ response_of v = Ok (response_received r).
Proof.
  destruct (loads_payload (response_payload r)) as (d & _ & _ & _ & E & Hg); [literal_wf|].
  exists (VObj d). split; [done|]. unfold response_of. by rewrite !Hg.
Qed.

(** *** Evidence maps *)

Definition scalar_val (v : scalar) : pyval := match v with SNone => VNull | SInt z => VInt z | SStr s => VStr s end.
Definition bounded_evidence (ev : dict string scalar) : bool :=
  List.forallb (λ kv, bool_decide (fst kv ∈ EVIDENCE_FIELDS) &&
                      match snd kv with SStr s => slen s <=? 160 | _ => true end) ev.

Lemma insert_key_map {A B} (f : A → B) k v l :
  insert_key k (f v) (List.map (λ kv, (fst kv, f (snd kv))) l) = List.map (λ kv, (fst kv, f (snd kv))) (insert_key k v l).
Proof. induction l as [|[k' v'] l IH]; [done|]. cbn. case_match; [done|]. cbn. by rewrite <- IH. Qed.
Lemma sort_keys_map {A B} (f : A → B) l :
  sort_keys (List.map (λ kv, (fst kv, f (snd kv))) l) = List.map (λ kv, (fst kv, f (snd kv))) (sort_keys l).
Proof. induction l as [|[k v] l IH]; [done|]. cbn. by rewrite IH, insert_key_map. Qed.

Lemma map_keys {A B} (f : A → B) (l : dict string A) : dkeys (List.map (λ kv, (fst kv, f (snd kv))) l) = dkeys l.
Proof. unfold dkeys. rewrite <- list_fmap_compose. by apply list_fmap_ext. Qed.

Lemma evidence_back ev : dwf ev →
  of_json (canon (JObj (List.map (λ kv, (fst kv, scalar_json (snd kv))) ev))) =
  VObj (List.map (λ kv, (fst kv, scalar_val (snd kv))) (sort_keys ev)).
Proof.
  intros Hw. cbn [canon of_json]. rewrite List.map_map. cbn [fst snd].
  rewrite (List.map_ext _ (λ kv, (fst kv, scalar_json (snd kv)))) by by intros [k []].
  rewrite (sort_keys_map scalar_json), List.map_map. cbn [fst snd].
  rewrite (List.map_ext _ (λ kv, (fst kv, scalar_val (snd kv)))) by by intros [k []].
  rewrite dict_of_id; [done|]. unfold dwf. rewrite (map_keys scalar_val). unfold dkeys. by rewrite sort_keys_perm.
Qed.

Lemma evidence_of_vals ev : bounded_evidence ev = true →
  evidence_of (List.map (λ kv, (fst kv, scalar_val (snd kv))) ev) = Ok ev.
Proof.
  induction ev as [|[k v] ev IH]; [done|]. unfold bounded_evidence. cbn [List.forallb fst snd].
  intros [[Hk Hv]%andb_true_iff H]%andb_true_iff. cbn [List.map evidence_of fst snd]. rewrite Hk. cbn [rbind raise_unless].
  rewrite (IH H). by destruct v as [|z|s]; cbn -[Z.leb]; rewrite ?Hv.
Qed.

Lemma bounded_evidence_perm e1 e2 : e1 ≡ₚ e2 → bounded_evidence e1 = bounded_evidence e2.
Proof.
  intros Hp. apply eq_bool_prop_intro. unfold bounded_evidence. rewrite !Is_true_true, !List.forallb_forall.
  split; intros H x Hx; apply H; apply list_elem_of_In in Hx; apply list_elem_of_In; by rewrite Hp + rewrite <- Hp.
Qed.

(** Evidence within the bounds of the channel arrives unchanged, its keys sorted. *)
Lemma query_response_roundtrip r :
  dwf (qr_evidence r) → bounded_evidence (qr_evidence r) = true → dlen (qr_evidence r) ≤ 16 →
  str_nonempty (qr_mutation_status r) = true → slen (qr_mutation_status r) ≤ 32 → slen (qr_provider_code r) ≤ 128 →
  query_response_from_json (query_response_to_json r) =
    Ok {| qr_mutation_status := qr_mutation_status r; qr_provider_code := qr_provider_code r;
          qr_evidence := sort_keys (qr_evidence r) |}.
Proof.
  intros Hw Hb Hl Hs Hs32 Hc.
  destruct (loads_payload (query_response_payload r)) as (d & E & Hdl & _ & _ & Hg); [literal_wf|].
  unfold query_response_from_json. change (query_response_to_json r) with (dumps (JObj (query_response_payload r))).
  rewrite E. cbn [rbind]. unfold query_response_of, field, dmem. cbn [List.forallb]. rewrite !Hg, Hdl.
  destruct r as [st code ev]. cbn [qr_mutation_status qr_provider_code qr_evidence] in *. literal_dget.
  rewrite evidence_back by done. cbn -[Z.leb evidence_of dlen List.map].
  rewrite Hs, (proj2 (Z.leb_le _ _) Hs32), (proj2 (Z.leb_le _ _) Hc).
  assert (dlen (List.map (λ kv, (kv.1, scalar_val kv.2)) (sort_keys ev)) <=? 16 = true) as ->.
  { apply Z.leb_le. unfold dlen in *. rewrite length_map. by rewrite sort_keys_perm. }
  cbn -[evidence_of]. rewrite evidence_of_vals; [done|].
  by rewrite (bounded_evidence_perm _ ev) by apply sort_keys_perm.
Qed.
