(* ===== verification/IpcServer.v ===== *)
(** * IpcServer: the executor's accept loop and its client (control_plane/executor_ipc.py)

    [serve_one] is one accepted connection: the peer's user id, the bytes it
    sends, whether a reply can be written back, and the text of the error a
    refusal carries.  The handlers work on a store [W] of their own and may
    raise; what escapes [serve_one] ends the accept loop.  [client_send] is the
    control plane's side, with the outcomes of connecting and writing as
    arguments. *)

From S2P Require Import Prelude PyStr PyText PyDict Json JsonParse Wire Ipc.
From Stdlib Require Import Ascii String ZArith Lia.
From stdpp Require Import base strings list.

Local Open Scope string_scope.
Local Open Scope Z_scope.
Local Open Scope aipm_scope.

Record conn (E : Type) := {
  c_uid : Z;
  c_stream : stream;
  (** [sendall] goes through *)
  c_sends : bool;
  (** the text of an error raised on this connection *)
  c_error_text : string;
  (** what the handlers draw from outside: the time, random identifiers *)
  c_env : E;
}.
Arguments c_uid {E} _.
Arguments c_stream {E} _.
Arguments c_sends {E} _.
Arguments c_error_text {E} _.
Arguments c_env {E} _.

Inductive reply := Executed (r : ExecutionResponse string) | Evidence (r : ReceiptQueryResponse).
(** What [serve_one] returns and the frame that was written. *)
Record served := { sv_reply : reply; sv_sent : option string }.

Definition plain_response (outcome code : string) : ExecutionResponse string :=
  {| rs_outcome := outcome; rs_provider_code := code; rs_action_id := ""; rs_evidence_reference := "" |}.
Definition unauthorized : ExecutionResponse string := plain_response "refused" "unauthorized_caller".
Definition query_failure : ReceiptQueryResponse :=
  {| qr_mutation_status := "evidence_unavailable"; qr_provider_code := "query_handler_failure"; qr_evidence := [] |}.

(** The exceptions [serve_one] turns into a refusal. *)
Definition ipc_error (e : exn) : bool := match e with ExecutorIPCError | JSONDecodeError => true | _ => false end.

Section server.
Context {W E : Type}.
Variable allowed_caller_uids : option (list Z).
Variable handler : E → ExecutionRequest pyval → M W (ExecutionResponse string).
Variable query_handler : option (E → ReceiptQueryRequest → M W ReceiptQueryResponse).

Definition authorized (c : conn E) : bool :=
  match allowed_caller_uids with None => true | Some uids => bool_decide (c_uid c ∈ uids) end.

(** [conn.sendall(encode_frame(text))] *)
Definition send_reply (c : conn E) (text : string) : result string :=
  let* f := encode_frame text in
  if c_sends c then Ok f else Raise OSError.
(** The same under [except OSError: pass]. *)
Definition try_send (c : conn E) (text : string) : result (option string) :=
  match send_reply c text with
  | Ok f => Ok (Some f)
  | Raise OSError => Ok None
  | Raise e => Raise e
  end.

Definition refusal (c : conn E) : ExecutionResponse string := plain_response "refused" (str_take 128 (c_error_text c)).

Definition query_exchange (qh : E → ReceiptQueryRequest → M W ReceiptQueryResponse) (c : conn E) (payload : string)
  : M W served :=
  catchM
    (do query <- liftM (query_from_json payload);;
     do response <- qh (c_env c) query;;
     do f <- liftM (send_reply c (query_response_to_json response));;
     retM {| sv_reply := Evidence response; sv_sent := Some f |})
    (λ _, Some (liftM (let* sent := try_send c (query_response_to_json query_failure) in
                       Ok {| sv_reply := Evidence query_failure; sv_sent := sent |}))).

Definition execution_exchange (c : conn E) (payload : string) : M W served :=
  do request <- liftM (request_from_json payload);;
  assert_ slen (er_action_id request) =? 64 else_raise ExecutorIPCError;;
  assert_ slen (er_contract_digest request) =? 64 else_raise ExecutorIPCError;;
  do response <- handler (c_env c) request;;
  do f <- liftM (send_reply c (response_to_json response));;
  retM {| sv_reply := Executed response; sv_sent := Some f |}.

Definition exchange (c : conn E) : M W served :=
  if negb (authorized c) then
    liftM (let* f := send_reply c (response_to_json unauthorized) in
           Ok {| sv_reply := Executed unauthorized; sv_sent := Some f |})
  else
    do payload <- liftM (snd (decode_frame (c_stream c)));;
    match query_handler with
    | Some qh => if is_query_frame payload then query_exchange qh c payload else execution_exchange c payload
    | None => execution_exchange c payload
    end.

Definition serve_one (c : conn E) : M W served :=
  catchM (exchange c)
    (λ e, if ipc_error e then
            Some (liftM (let* sent := try_send c (response_to_json (refusal c)) in
                         Ok {| sv_reply := Executed (refusal c); sv_sent := sent |}))
          else None).

(** [serve_forever] over the connections that arrive: an exception ends it. *)
Fixpoint serve_all (cs : list (conn E)) : M W (list served) :=
  match cs with
  | [] => retM []
  | c :: cs' => do s <- serve_one c;; do ss <- serve_all cs';; retM (s :: ss)
  end.
End server.

(** ** The client *)

Definition unknown_outcome (r : ExecutionRequest string) (code : string) : ExecutionResponse pyval :=
  Build_ExecutionResponse (VStr "unknown_outcome") (VStr code) (VStr (er_action_id r)) (VStr "").

(** [ExecutorIPCClient.send]: [connected] and [written] are what connecting and
    writing the frame did, [answer] what can be read back. *)
Definition client_send (connected written : result unit) (answer : stream) (r : ExecutionRequest string)
  : result (ExecutionResponse pyval) :=
  let sent :=
    let* _ := connected in
    let* _ := encode_frame (request_to_json r) in
    let* _ := written in
    let* payload := snd (decode_frame answer) in
    let* v := loads payload in
    response_of v in
  match sent with
  | Ok response => Ok response
  | Raise TimeoutError => Ok (unknown_outcome r "timeout")
  | Raise (OSError | ExecutorIPCError | JSONDecodeError | KeyError | TypeError) =>
      Ok (unknown_outcome r "transport_failure")
  | Raise e => Raise e
  end.

(** [ExecutorIPCClient.query_receipt]: every failure is [None]. *)
Definition query_receipt (connected written : result unit) (answer : stream) (q : ReceiptQueryRequest)
  : option ReceiptQueryResponse :=
  let sent :=
    let* _ := connected in
    let* _ := encode_frame (query_to_json q) in
    let* _ := written in
    let* payload := snd (decode_frame answer) in
    query_response_from_json payload in
  match sent with Ok response => Some response | Raise _ => None end.

(** ** Sizes of the fixed replies *)

Lemma length_esc s : (String.length (esc s) ≤ 6 * String.length s)%nat.
Proof.
  induction s as [|c s IH]; [done|]. cbn [esc]. rewrite length_app_str. cbn [String.length].
  assert (String.length (esc_char c) ≤ 6)%nat by (apply Nat.leb_le; by destruct c as [[] [] [] [] [] [] [] []]). lia.
Qed.
Lemma refusal_fits {E} (c : conn E) : slen (response_to_json (refusal c)) ≤ MAX_REQUEST_SIZE.
Proof.
  unfold refusal, plain_response. set (t := str_take 128 (c_error_text c)).
  assert (String.length t ≤ 128)%nat as Ht by (unfold t; rewrite length_take_str; lia).
  pose proof (length_esc t) as He. unfold slen, MAX_REQUEST_SIZE.
  assert (response_to_json (plain_response "refused" t) =
          (("{" ++ quote "action_id" ++ ":" ++ quote "" ++ "," ++ quote "evidence_reference" ++ ":" ++ quote "" ++ "," ++
            quote "outcome" ++ ":" ++ quote "refused" ++ "," ++ quote "provider_code" ++ ":" ++ String dquote "") ++
           (esc t ++ String dquote "") ++ "}")) as E1 by reflexivity.
  change {| rs_outcome := "refused"; rs_provider_code := t; rs_action_id := ""; rs_evidence_reference := "" |}
    with (plain_response "refused" t).
  rewrite E1, !length_app_str. cbn [String.length].
  match goal with |- Z.of_nat (?n + _) <= _ => let k := eval vm_compute in n in change n with k end. lia.
Qed.
Lemma unauthorized_fits : slen (response_to_json unauthorized) ≤ MAX_REQUEST_SIZE.
Proof. vm_compute. discriminate. Qed.
Lemma query_failure_fits : slen (query_response_to_json query_failure) ≤ MAX_REQUEST_SIZE.
Proof. vm_compute. discriminate. Qed.

Lemma encode_fits text : slen text ≤ MAX_REQUEST_SIZE → encode_frame text = Ok (pack_be32 (slen text) ++ text).
Proof. intros H. unfold encode_frame. by rewrite (proj2 (Z.leb_le _ _) H). Qed.

Section server_lemmas.
Context {W E : Type} (allowed : option (list Z)).
Context (handler : E → ExecutionRequest pyval → M W (ExecutionResponse string)).
Context (query_handler : option (E → ReceiptQueryRequest → M W ReceiptQueryResponse)).
Implicit Types (c : conn E) (w : W).

#[local] Notation serve_one := (serve_one allowed handler query_handler).
#[local] Notation authorized := (authorized allowed).

Lemma send_fits c text : slen text ≤ MAX_REQUEST_SIZE →
  send_reply c text = (if c_sends c then Ok (pack_be32 (slen text) ++ text) else Raise OSError) ∧
  try_send c text = Ok (if c_sends c then Some (pack_be32 (slen text) ++ text) else None).
Proof. intros H. unfold try_send, send_reply. rewrite encode_fits by done. cbn. by destruct (c_sends c). Qed.
Lemma send_reply_Raise c text e : send_reply c text = Raise e →
  (e = ExecutorIPCError ∧ MAX_REQUEST_SIZE < slen text) ∨ (e = OSError ∧ c_sends c = false).
Proof.
  unfold send_reply, encode_frame. destruct (Z.leb_spec (slen text) MAX_REQUEST_SIZE); cbn;
    [destruct (c_sends c); [done|intros [= <-]; by right]|intros [= <-]; by left].
Qed.

(** A refusal is always composed; it is written when the peer still reads. *)
Lemma serve_refused c w w' e : exchange allowed handler query_handler c w = (w', Raise e) → ipc_error e = true →
  serve_one c w = (w', Ok {| sv_reply := Executed (refusal c);
                             sv_sent := if c_sends c then Some (pack_be32 (slen (response_to_json (refusal c))) ++
                                                               response_to_json (refusal c)) else None |}).
Proof.
  intros E1 He. unfold IpcServer.serve_one, catchM. rewrite E1, He. unfold liftM.
  by rewrite (proj2 (send_fits c _ (refusal_fits c))).
Qed.
Lemma serve_through c w w' r : exchange allowed handler query_handler c w = (w', r) →
  (∀ e, r = Raise e → ipc_error e = false) → serve_one c w = (w', r).
Proof.
  intros E1 He. unfold IpcServer.serve_one, catchM. rewrite E1. destruct r as [s|e]; [done|]. by rewrite He.
Qed.

(** The two ways of a connection that is let in. *)
Lemma query_exchange_spec qh c payload w : ∃ s, (query_exchange qh c payload w).2 = Ok s ∧
  ((query_exchange qh c payload w).1 = w ∨
   ∃ q, query_from_json payload = Ok q ∧ (query_exchange qh c payload w).1 = (qh (c_env c) q w).1).
Proof.
  unfold query_exchange, catchM, bindM, liftM.
  rewrite (proj2 (send_fits c _ query_failure_fits)).
  destruct (query_from_json payload) as [q|e]; [|by eexists; split; [done|left]].
  destruct (qh (c_env c) q w) as [w1 [resp|e]] eqn:Eq; cbn;
    [|by eexists; split; [done|right]; exists q; rewrite Eq].
  destruct (send_reply c _); (eexists; split; [done|]; right; exists q; by rewrite Eq).
Qed.

Lemma execution_exchange_spec c payload w : ∃ w' r, execution_exchange handler c payload w = (w', r) ∧
  ((w' = w ∧ r = Raise ExecutorIPCError) ∨
   ∃ request, request_from_json payload = Ok request ∧ slen (er_action_id request) = 64 ∧
     slen (er_contract_digest request) = 64 ∧
     match handler (c_env c) request w with
     | (w1, Raise e) => w' = w1 ∧ r = Raise e
     | (w1, Ok resp) => w' = w1 ∧
         r = (let* f := send_reply c (response_to_json resp) in
              Ok {| sv_reply := Executed resp; sv_sent := Some f |})
     end).
Proof.
  unfold execution_exchange, bindM, liftM, raise_unless.
  destruct (request_from_json payload) as [request|e] eqn:Er.
  - destruct (Z.eqb_spec (slen (er_action_id request)) 64); [|by eexists _, _; split; [done|left]].
    destruct (Z.eqb_spec (slen (er_contract_digest request)) 64); [|by eexists _, _; split; [done|left]].
    destruct (handler (c_env c) request w) as [w1 [resp|e1]] eqn:Eh.
    + destruct (send_reply c (response_to_json resp)) eqn:Es;
        (eexists _, _; split; [done|]; right; exists request; split_and!; [done..|]; rewrite Eh, Es; done).
    + eexists _, _; split; [done|]; right; exists request; split_and!; [done..|]. by rewrite Eh.
  - eexists _, _; split; [done|]. left. split; [done|].
    unfold request_from_json in Er. destruct (loads_object_of payload) as [d|e'] eqn:Ed; cbn in Er.
    + by rewrite (request_of_Raise d e Er).
    + apply loads_object_Raise in Ed. congruence.
Qed.

Lemma exchange_cases c w :
  (authorized c = false ∧ exchange allowed handler query_handler c w =
     (w, let* f := send_reply c (response_to_json unauthorized) in
         Ok {| sv_reply := Executed unauthorized; sv_sent := Some f |})) ∨
  (authorized c = true ∧
   ((∃ e, snd (decode_frame (c_stream c)) = Raise e ∧ exchange allowed handler query_handler c w = (w, Raise e)) ∨
    ∃ payload, snd (decode_frame (c_stream c)) = Ok payload ∧
      ((∃ qh, query_handler = Some qh ∧ is_query_frame payload = true ∧
              exchange allowed handler query_handler c w = query_exchange qh c payload w) ∨
       ((query_handler = None ∨ is_query_frame payload = false) ∧
        exchange allowed handler query_handler c w = execution_exchange handler c payload w)))).
Proof.
  unfold exchange. destruct (authorized c); cbn; [right|left; done]. split; [done|].
  unfold bindM, liftM. destruct (snd (decode_frame (c_stream c))) as [payload|e]; [|left; by exists e].
  right. exists payload. split; [done|]. destruct query_handler as [qh|]; [|right; auto].
  destruct (is_query_frame payload) eqn:Eq; [left; by exists qh|right; auto].
Qed.

Lemma serve_one_state c w : (serve_one c w).1 = (exchange allowed handler query_handler c w).1.
Proof.
  unfold IpcServer.serve_one, catchM. destruct (exchange _ _ _ c w) as [w' [s|e]]; [done|]. by destruct (ipc_error e).
Qed.

(** A connection moves the store by the handler's run on one parsed request of
    an authorised peer, or by a query handler's run, or not at all. *)
Lemma serve_one_effect c w :
  (serve_one c w).1 = w ∨
  (authorized c = true ∧ ∃ payload, snd (decode_frame (c_stream c)) = Ok payload ∧
    ((∃ qh q, query_handler = Some qh ∧ query_from_json payload = Ok q ∧
              (serve_one c w).1 = (qh (c_env c) q w).1) ∨
     ∃ request, request_from_json payload = Ok request ∧ slen (er_action_id request) = 64 ∧
       slen (er_contract_digest request) = 64 ∧ (serve_one c w).1 = (handler (c_env c) request w).1)).
Proof.
  rewrite serve_one_state.
  destruct (exchange_cases c w) as [[_ ->]|[Ha [(e & _ & ->)|(payload & Hp & [(qh & Hq & _ & ->)|[_ ->]])]]];
    [by left..| |].
  - destruct (query_exchange_spec qh c payload w) as (s & _ & [->|(q & Eq & ->)]); [by left|].
    right. split; [done|]. exists payload. split; [done|]. left. by exists qh, q.
  - destruct (execution_exchange_spec c payload w) as (w' & r & -> & [[-> _]|(request & Er & H1 & H2 & H)]); [by left|].
    right. split; [done|]. exists payload. split; [done|]. right. exists request. split_and!; [done..|].
    destruct (handler (c_env c) request w) as [w1 [resp|e]]; by destruct H as [-> _].
Qed.

Lemma serve_one_keeps (R : W → W → Prop) `{!PreOrder R} c :
  (∀ env request, keeps R (handler env request)) →
  (∀ qh env q, query_handler = Some qh → reads (qh env q)) → keeps R (serve_one c).
Proof.
  intros Hh Hq w w' r E1. pose proof (serve_one_effect c w) as H. rewrite E1 in H. cbn in H.
  destruct H as [->|(_ & payload & _ & [(qh & q & Eq & _ & ->)|(request & _ & _ & _ & ->)])]; [done| |].
  - by rewrite (Hq qh (c_env c) q Eq w).
  - destruct (handler (c_env c) request w) as [w1 r1] eqn:Eh. by eapply Hh.
Qed.
Lemma serve_all_keeps (R : W → W → Prop) `{!PreOrder R} :
  (∀ env request, keeps R (handler env request)) →
  (∀ qh env q, query_handler = Some qh → reads (qh env q)) →
  ∀ cs, keeps R (serve_all allowed handler query_handler cs).
Proof.
  intros Hh Hq. induction cs as [|c cs IH]; intros w.
  - by apply keeps_from_reads.
  - cbn. apply keeps_from_bind; [done|by apply serve_one_keeps|]. intros s w1 _ _.
    apply keeps_from_bind; [done|apply IH|]. intros ss w2 _ _. by apply keeps_from_reads.
Qed.

(** ** What ends the accept loop *)

Lemma serve_one_escapes c w w' e : intact (c_stream c) → serve_one c w = (w', Raise e) →
  (e = StructError ∧ authorized c = true ∧ (0 < String.length (content (c_stream c)) < 4)%nat) ∨
  (e = OSError ∧ c_sends c = false) ∨
  (∃ request w1, handler (c_env c) request w = (w1, Raise e) ∧ ipc_error e = false).
Proof.
  intros Hst E1.
  assert (ipc_error e = false ∧ exchange allowed handler query_handler c w = (w', Raise e)) as [He E2].
  { destruct (exchange allowed handler query_handler c w) as [w1 r1] eqn:E2.
    destruct r1 as [s|e1].
    - rewrite (serve_through c w w1 (Ok s) E2) in E1 by done. done.
    - destruct (ipc_error e1) eqn:He; [by rewrite (serve_refused c w w1 e1 E2 He) in E1|].
      rewrite (serve_through c w w1 (Raise e1) E2) in E1 by (intros ? [= <-]; done). by injection E1 as <- <-. }
  destruct (exchange_cases c w) as [[_ H]|[Ha [(e1 & Hd & H)|(payload & Hp & [(qh & Hq & _ & H)|[_ H]])]]];
    rewrite H in E2; clear H.
  - rewrite (proj1 (send_fits c _ unauthorized_fits)) in E2. destruct (c_sends c) eqn:Es; [done|].
    injection E2 as <- <-. right. by left.
  - injection E2 as <- <-. destruct (decode_frame_of (c_stream c) Hst) as (st' & Hf & _). rewrite Hf in Hd.
    apply frame_of_Raise in Hd as [->|[-> ?]]; [done|]. by left.
  - destruct (query_exchange_spec qh c payload w) as (s & Hs & _). rewrite E2 in Hs. done.
  - destruct (execution_exchange_spec c payload w) as (w1 & r & E3 & H). rewrite E3 in E2. injection E2 as -> ->.
    destruct H as [[_ [= ->]]|(request & _ & _ & _ & H)]; [done|].
    destruct (handler (c_env c) request w) as [w2 [resp|e2]] eqn:Eh.
    + destruct H as [_ H]. destruct (send_reply c _) as [f|e2] eqn:Es; [done|]. injection H as ->.
      apply send_reply_Raise in Es as [[-> _]|[-> ?]]; [done|]. right. by left.
    + destruct H as [_ [= ->]]. right. right. by exists request, w2.
Qed.
End server_lemmas.

Section server_theorems.
Context {W E : Type} (allowed : option (list Z)).
Context (handler : E → ExecutionRequest pyval → M W (ExecutionResponse string)).
Context (query_handler : option (E → ReceiptQueryRequest → M W ReceiptQueryResponse)).
Implicit Types (c : conn E) (w : W).
#[local] Notation serve_one := (serve_one allowed handler query_handler).
#[local] Notation authorized := (authorized allowed).

(** What ends the executor's accept loop.  Over a connection whose [recv]s
    do not fail, [serve_one] either answers, or the peer is authorised and closes
    after one to three bytes, or the peer no longer reads its reply, or the
    handler raised something other than the two errors it answers: an
    ill-formed, oversized or unauthorised request never ends the loop.  The
    first two of these do end it, the second even after the handler ran. *)
Lemma accept_loop_ends c w :
  intact (c_stream c) →
  match serve_one c w with
  | (_, Ok _) => True
  | (w', Raise e) =>
      (e = StructError ∧ authorized c = true ∧ (0 < String.length (content (c_stream c)) < 4)%nat) ∨
      (e = OSError ∧ c_sends c = false) ∨
      (∃ request w1, handler (c_env c) request w = (w1, Raise e) ∧ ipc_error e = false)
  end ∧
  (authorized c = true → (0 < String.length (content (c_stream c)) < 4)%nat →
     serve_one c w = (w, Raise StructError)) ∧
  (∀ payload request w' response,
     authorized c = true → c_sends c = false → snd (decode_frame (c_stream c)) = Ok payload →
     is_query_frame payload = false → request_from_json payload = Ok request →
     slen (er_action_id request) = 64 → slen (er_contract_digest request) = 64 →
     handler (c_env c) request w = (w', Ok response) → slen (response_to_json response) ≤ MAX_REQUEST_SIZE →
     serve_one c w = (w', Raise OSError)).
Proof.
  intros Hst. split_and!.
  - destruct (serve_one c w) as [w' [s|e]] eqn:E1; [done|]. by eapply serve_one_escapes.
  - intros Ha Hlen. apply serve_through; [|by intros ? [= <-]].
    destruct (decode_frame_of (c_stream c) Hst) as (st' & Hf & _).
    assert (frame_of (content (c_stream c)) = Raise StructError) as Hs.
    { by destruct (content (c_stream c)) as [|? [|? [|? [|? ?]]]]; cbn in Hlen; try lia. }
    unfold exchange, bindM, liftM. rewrite Ha, Hf, Hs. done.
  - intros payload request w' response Ha Hs Hp Hq Hr H1 H2 Hh Hl. apply serve_through; [|by intros ? [= <-]].
    unfold exchange. rewrite Ha. cbn [negb]. unfold bindM at 1, liftM at 1. rewrite Hp.
    assert (execution_exchange handler c payload w = (w', Raise OSError)) as He.
    { unfold execution_exchange, bindM, liftM, raise_unless. rewrite Hr, H1, H2. cbn [Z.eqb Pos.eqb]. rewrite Hh.
      rewrite (proj1 (send_fits c _ Hl)), Hs. done. }
    destruct query_handler; [by rewrite Hq|done].
Qed.

(** What the client makes of a reply frame. *)
Lemma client_reads r f response answer rest : encode_frame (request_to_json r) = Ok f → intact answer →
  slen (response_to_json response) ≤ MAX_REQUEST_SIZE →
  content answer = (pack_be32 (slen (response_to_json response)) ++ response_to_json response) ++ rest →
  client_send (Ok ()) (Ok ()) answer r = Ok (response_received response).
Proof.
  intros Hf Ha Hl Hc. unfold client_send. rewrite Hf. cbn [rbind].
  destruct (decode_frame_of answer Ha) as (st' & Hd & _). rewrite Hd, Hc.
  rewrite (frame_of_encoded (response_to_json response)) by by apply encode_fits. cbn [snd rbind].
  destruct (response_roundtrip response) as (v & Hv & Hr). by rewrite Hv; cbn; rewrite Hr.
Qed.

(** The checks the executor makes of a sent request. *)
Definition admitted (r : ExecutionRequest string) : bool :=
  acceptable r && (slen (er_action_id r) =? 64) && (slen (er_contract_digest r) =? 64).

(** C14: one exchange over the channel, end to end.  A request sent by an
    authorised peer is run by the handler exactly when it is acceptable, and
    then as it was sent, however its bytes arrive and whatever follows them;
    what the client returns is the handler's response, field by field.  A
    request that is not acceptable changes nothing and is reported as refused;
    so is one whose response is too long for a frame, although the handler has
    run. *)
Theorem ipc_exchange c w r f rest :
  authorized c = true → intact (c_stream c) → c_sends c = true →
  encode_frame (request_to_json r) = Ok f → content (c_stream c) = f ++ rest →
  (∀ w' e, handler (c_env c) (received r) w = (w', Raise e) → ipc_error e = true) →
  ∃ w' response g,
    serve_one c w = (w', Ok {| sv_reply := Executed response; sv_sent := Some g |}) ∧
    (∀ answer more, intact answer → content answer = g ++ more →
       client_send (Ok ()) (Ok ()) answer r = Ok (response_received response)) ∧
    if admitted r then
      w' = (handler (c_env c) (received r) w).1 ∧
      response = match (handler (c_env c) (received r) w).2 with
                 | Ok resp => if slen (response_to_json resp) <=? MAX_REQUEST_SIZE then resp else refusal c
                 | Raise _ => refusal c
                 end
    else w' = w ∧ response = refusal c.
Proof.
  intros Ha Hst Hs Hf Hc Hh.
  destruct (decode_frame_of (c_stream c) Hst) as (st' & Hd & _).
  rewrite Hc, (frame_of_encoded _ f rest Hf) in Hd.
  assert (exchange allowed handler query_handler c w = execution_exchange handler c (request_to_json r) w) as He.
  { unfold exchange. rewrite Ha. cbn [negb]. unfold bindM at 1, liftM at 1. rewrite Hd. cbn [snd].
    destruct query_handler; [|done]. by rewrite request_not_query. }
  assert (Href : ∀ w' e, execution_exchange handler c (request_to_json r) w = (w', Raise e) → ipc_error e = true →
    ∃ g, serve_one c w = (w', Ok {| sv_reply := Executed (refusal c); sv_sent := Some g |}) ∧
         ∀ answer more, intact answer → content answer = g ++ more →
           client_send (Ok ()) (Ok ()) answer r = Ok (response_received (refusal c))).
  { intros w' e E1 E2. rewrite <- He in E1. eexists. rewrite (serve_refused _ _ _ c w w' e E1 E2), Hs.
    split; [done|]. intros answer more Hi. by apply (client_reads r f _ answer more Hf Hi (refusal_fits c)). }
  unfold admitted. unfold execution_exchange in He, Href. unfold bindM at 1, liftM at 1 in He.
  unfold bindM at 1, liftM at 1 in Href. rewrite request_roundtrip in He, Href.
  destruct (acceptable r); cbn [andb]; [|destruct (Href w ExecutorIPCError) as (g & Hg1 & Hg2); [done..|]; by exists w, (refusal c), g].
  cbn [er_action_id er_contract_digest received] in He, Href. unfold bindM, liftM, raise_unless in He, Href.
  destruct (slen (er_action_id r) =? 64); cbn [andb];
    [|destruct (Href w ExecutorIPCError) as (g & Hg1 & Hg2); [done..|]; by exists w, (refusal c), g].
  destruct (slen (er_contract_digest r) =? 64); cbn [andb];
    [|destruct (Href w ExecutorIPCError) as (g & Hg1 & Hg2); [done..|]; by exists w, (refusal c), g].
  destruct (handler (c_env c) (received r) w) as [w1 [resp|e]] eqn:Eh; cbn [fst snd].
  - destruct (Z.leb_spec (slen (response_to_json resp)) MAX_REQUEST_SIZE) as [Hl|Hl].
    + rewrite (proj1 (send_fits c _ Hl)), Hs in He.
      eexists w1, resp, _. split; [by apply serve_through; [exact He|]|]. split; [|done].
      intros answer more Hi. by apply (client_reads r f _ answer more Hf Hi Hl).
    + assert (send_reply c (response_to_json resp) = Raise ExecutorIPCError) as Hse.
      { unfold send_reply, encode_frame. by rewrite (proj2 (Z.leb_gt _ _) Hl). }
      rewrite Hse in Href. destruct (Href w1 ExecutorIPCError) as (g & Hg1 & Hg2); [done..|].
      by exists w1, (refusal c), g.
  - destruct (Href w1 e) as (g & Hg1 & Hg2); [done|by eapply Hh|]. by exists w1, (refusal c), g.
Qed.
End server_theorems.
