(* ===== verification/ImageRef.v ===== *)
(** * ImageRef: container image references and lookup keys

    [parse_image_reference] of services/compose/image_ref.py with the
    [ImageReference] and [CandidateLookupKey] of models/compose_intelligence.py.
    The main results: a rendered reference parses back to itself
    ([image_reference_roundtrip]), and the text that orders lookups determines
    the lookup key ([lookup_key_text_inj]). *)

From S2P Require Import Prelude PyStr PyText.
From stdpp Require Import base strings list.
From Stdlib Require Import Ascii String ZArith Lia.

Local Open Scope string_scope.
Local Open Scope Z_scope.
Local Open Scope aipm_scope.

(** ** Data *)

Record ImageReference := {
  ir_raw : string;
  ir_registry : string;
  ir_repository : string;
  ir_tag : option string;
  ir_digest : option string;
  ir_is_pinned_by_digest : bool;
  ir_is_local_build : bool;
}.
#[export] Instance ImageReference_eq_dec : EqDecision ImageReference.
Proof. solve_decision. Defined.

(** [ImageReference.canonical] *)
Definition canonical (r : ImageReference) : string :=
  let base := ir_registry r ++ "/" ++ ir_repository r in
  if truthy (ir_digest r) then base ++ "@" ++ default "" (ir_digest r)
  else if truthy (ir_tag r) then base ++ ":" ++ default "" (ir_tag r)
  else base.

Record CandidateLookupKey := {
  ck_registry : string;
  ck_repository : string;
  ck_tag : string;
  ck_target_arch : string;
  ck_target_os : string;
}.
#[export] Instance CandidateLookupKey_eq_dec : EqDecision CandidateLookupKey.
Proof. solve_decision. Defined.

(** [CandidateLookupKey.from_image_ref] *)
Definition from_image_ref (r : ImageReference) (target_arch target_os : string)
  : CandidateLookupKey :=
  let registry := strip (lower (if str_nonempty (ir_registry r) then ir_registry r else "docker.io")) in
  let repo := strip (lower (ir_repository r)) in
  let tag := strip (if truthy (ir_tag r) then default "" (ir_tag r) else "latest") in
  {| ck_registry := registry; ck_repository := repo;
     ck_tag := if str_eqb (lower tag) "latest" then "latest" else tag;
     ck_target_arch := strip (lower target_arch); ck_target_os := strip (lower target_os) |}.

(** [CandidateLookupKey.canonical_str] *)
Definition canonical_str (k : CandidateLookupKey) : string :=
  ck_registry k ++ "/" ++ ck_repository k ++ ":" ++ ck_tag k ++ " [" ++ ck_target_os k ++ "/"
  ++ ck_target_arch k ++ "]".

(** ** Parsing *)

Definition MAX_REF_LENGTH : Z := 512.

(** [^[a-zA-Z0-9_.:/@-]+$] *)
Definition ref_char (c : ascii) : bool := is_alnum c || one_of "_.:/@-" c.
Definition VALID_REF_CHARS (s : string) : bool := str_nonempty s && str_all ref_char s.
Definition is_xdigit (c : ascii) : bool := is_digit c || PyStr.between 97 102 c || PyStr.between 65 70 c.
(** [^[a-zA-Z0-9_+.-]+:[a-fA-F0-9]{32,128}$] *)
Definition DIGEST_RE (s : string) : bool :=
  match split_first ":" s with
  | Some (algorithm, h) =>
      str_nonempty algorithm && str_all (λ c, is_alnum c || one_of "_+.-" c) algorithm &&
      str_all is_xdigit h && (32 <=? slen h) && (slen h <=? 128)
  | None => false
  end.
(** [^[a-zA-Z0-9_.-]{1,128}$] *)
Definition tag_char (c : ascii) : bool := is_alnum c || one_of "_.-" c.
Definition TAG_RE (s : string) : bool :=
  str_all tag_char s && (1 <=? slen s) && (slen s <=? 128).

(** The digest split: [rem, digest = rem.split("@", 1)]. *)
Definition take_digest (clean : string) : result (string * option string) :=
  match split_first "@" clean with
  | Some (rem, digest) =>
      require DIGEST_RE digest else_raise ValueError;; Ok (rem, Some digest)
  | None => Ok (clean, None)
  end.

(** The tag: what follows the last colon, when that is past the last slash. *)
Definition take_tag (rem : string) : result (string * option string) :=
  if rfind "/" rem <? rfind ":" rem then
    match split_last ":" rem with
    | Some (name, tag) => require TAG_RE tag else_raise ValueError;; Ok (name, Some tag)
    | None => Ok (rem, None)
    end
  else Ok (rem, None).

Definition registry_like (p : string) : bool :=
  has_char "." p || has_char ":" p || str_eqb p "localhost".

(** Registry and repository. *)
Definition locate (rem : string) : string * string :=
  match split_on "/" rem with
  | [p] => ("docker.io", "library/" ++ p)
  | p :: ps =>
      if registry_like p then (p, join_with "/" ps)
      else ("docker.io", join_with "/" (p :: ps))
  | [] => ("docker.io", "")
  end.

Definition bad_path (s : string) : bool :=
  str_in ".." s || str_in "//" s || starts_with "/" s || ends_with "/" s.

Definition parse_image_reference (raw : string) (is_local_build : bool) : result ImageReference :=
  require str_nonempty raw else_raise ValueError;;
  let clean := strip raw in
  require slen clean <=? MAX_REF_LENGTH else_raise ValueError;;
  require negb (has_char "$" clean) else_raise ValueError;;
  require VALID_REF_CHARS clean else_raise ValueError;;
  require negb (bad_path clean) else_raise ValueError;;
  let* rd := take_digest clean in
  let* rt := take_tag (fst rd) in
  let digest := snd rd in
  let '(registry, repository) := locate (fst rt) in
  require str_nonempty repository else_raise ValueError;;
  let tag := if negb (truthy (snd rt)) && negb (truthy digest) then Some "latest" else snd rt in
  Ok {| ir_raw := clean; ir_registry := registry; ir_repository := repository; ir_tag := tag;
        ir_digest := digest; ir_is_pinned_by_digest := bool_decide (digest ≠ None);
        ir_is_local_build := is_local_build |}.

Example parse_hub : parse_image_reference " redis:7.2 " false =
  Ok {| ir_raw := "redis:7.2"; ir_registry := "docker.io"; ir_repository := "library/redis";
        ir_tag := Some "7.2"; ir_digest := None; ir_is_pinned_by_digest := false;
        ir_is_local_build := false |}.
Proof. reflexivity. Qed.
Example parse_port : parse_image_reference "registry.example.com:5000/app" false =
  Ok {| ir_raw := "registry.example.com:5000/app"; ir_registry := "registry.example.com:5000";
        ir_repository := "app"; ir_tag := Some "latest"; ir_digest := None;
        ir_is_pinned_by_digest := false; ir_is_local_build := false |}.
Proof. reflexivity. Qed.

(** A reference without a name passes: the check for an empty repository only
    sees the text with the [library/] prefix already added. *)
Lemma nameless_reference_accepted : parse_image_reference ":latest" false =
  Ok {| ir_raw := ":latest"; ir_registry := "docker.io"; ir_repository := "library/";
        ir_tag := Some "latest"; ir_digest := None; ir_is_pinned_by_digest := false;
        ir_is_local_build := false |}.
Proof. reflexivity. Qed.

(** ** Well-formed references *)

Definition ref_base (r : ImageReference) : string := ir_registry r ++ "/" ++ ir_repository r.

(** What a parsed reference satisfies: the registry is one path component
    that looks like a host, the repository is a path without empty
    components at its front, and there is a digest or a tag. *)
Record wf_reference (r : ImageReference) : Prop := {
  wr_registry : registry_like (ir_registry r) = true ∧ has_char "/" (ir_registry r) = false;
  wr_repository : ir_repository r ≠ "" ∧ begins "/" (ir_repository r) = false;
  wr_chars : str_all ref_char (ref_base r) = true ∧ has_char "@" (ref_base r) = false;
  wr_path : has_pair "." "." (ref_base r) = false ∧ has_pair "/" "/" (ref_base r) = false;
  wr_suffix :
    match ir_digest r with
    | Some d => DIGEST_RE d = true ∧ str_all ref_char d = true ∧ has_pair "." "." d = false
    | None => ∃ t, ir_tag r = Some t ∧ TAG_RE t = true ∧ has_pair "." "." t = false
    end;
  wr_tag : ∀ t, ir_tag r = Some t → TAG_RE t = true;
  wr_pinned : ir_is_pinned_by_digest r = bool_decide (ir_digest r ≠ None);
}.

(** Text between the delimiters of a reference. *)
Record clean_text (s : string) : Prop := {
  ct_chars : str_all ref_char s = true;
  ct_dots : has_pair "." "." s = false;
  ct_slashes : has_pair "/" "/" s = false;
  ct_front : begins "/" s = false;
}.

Lemma clean_text_split s c a b :
  clean_text s → s = a ++ String c b → clean_text a ∧ str_all ref_char b = true ∧ has_pair "." "." b = false.
Proof.
  intros [Hc Hd Hs Hf] ->. rewrite str_all_app, andb_true_iff in Hc. destruct Hc as [Hca Hcb].
  cbn [str_all] in Hcb. apply andb_true_iff in Hcb as [_ Hcb].
  rewrite has_pair_app, !orb_false_iff in Hd, Hs. destruct Hd as [[Hda Hdb] _], Hs as [[Hsa _] _].
  cbn [has_pair] in Hdb. apply orb_false_iff in Hdb as [_ Hdb].
  rewrite begins_app in Hf. split; [|done]. split; try done.
  unfold str_eqb in Hf. case_bool_decide as E; [by rewrite E|done].
Qed.

Lemma bad_path_clean s :
  bad_path s = false → VALID_REF_CHARS s = true → clean_text s ∧ finishes "/" s = false.
Proof.
  unfold bad_path, VALID_REF_CHARS. rewrite !orb_false_iff, andb_true_iff.
  rewrite !str_in_pair, starts_with_char, ends_with_char. intros (((? & ?) & ?) & ?) [_ ?]. done.
Qed.

Lemma DIGEST_RE_parts d : DIGEST_RE d = true →
  has_char "@" d = false ∧ has_char "/" d = false ∧ d ≠ "".
Proof.
  unfold DIGEST_RE. destruct (split_first ":" d) as [[a h]|] eqn:E; [|done].
  apply split_first_Some in E as [-> _]. rewrite !andb_true_iff. intros ((((_ & Ha) & Hh) & _) & _).
  rewrite !has_char_app, !has_char_cons.
  rewrite (has_char_class _ "@" _ Ha), (has_char_class _ "@" _ Hh), (has_char_class _ "/" _ Ha),
    (has_char_class _ "/" _ Hh) by done.
  split_and!; [done..|]. by destruct a.
Qed.

Lemma TAG_RE_parts t : TAG_RE t = true →
  str_all ref_char t = true ∧ has_char ":" t = false ∧ has_char "/" t = false ∧
  has_char "@" t = false ∧ t ≠ "".
Proof.
  unfold TAG_RE. rewrite !andb_true_iff, Z.leb_le. intros [[Ht Hl] _].
  rewrite !(has_char_class tag_char _ t Ht) by done. split_and!; try done.
  - revert Ht. apply str_all_impl. intros c. unfold tag_char, ref_char.
    rewrite !orb_true_iff. intros [?|Hc]; [by left|right].
    unfold one_of in *. rewrite bool_decide_eq_true in *. revert Hc. cbn.
    rewrite !elem_of_cons, !elem_of_nil. tauto.
  - intros ->. by unfold slen in Hl.
Qed.

(** The three shapes of [locate]. *)
Lemma locate_base name registry repository :
  clean_text name → has_char "@" name = false → locate name = (registry, repository) →
  registry_like registry = true ∧ has_char "/" registry = false ∧ begins "/" repository = false ∧
  str_all ref_char (registry ++ "/" ++ repository) = true ∧
  has_char "@" (registry ++ "/" ++ repository) = false ∧
  has_pair "." "." (registry ++ "/" ++ repository) = false ∧
  has_pair "/" "/" (registry ++ "/" ++ repository) = false.
Proof.
  intros [Hc Hd Hs Hf] Ha. unfold locate. pose proof (join_split "/" name) as Hj.
  destruct (split_on "/" name) as [|p [|q ps]] eqn:E; [by apply split_on_nonempty in E| |].
  - cbn in Hj. subst p. apply split_on_head in E. intros [= <- <-].
    change ("docker.io" ++ "/" ++ "library/" ++ name) with ("docker.io/library/" ++ name).
    rewrite str_all_app, Hc, has_char_app, Ha, !has_pair_app, Hd, Hs, Hf. done.
  - apply split_on_head in E. rewrite join_with_cons in Hj |- *.
    set (w := join_with "/" (q :: ps)) in *. clearbody w.
    change ("/" ++ w) with (String "/" w) in *.
    destruct (registry_like p) eqn:Hp; intros [= <- <-].
    + change ("/" ++ w) with (String "/" w). rewrite Hj. split_and!; try done.
      rewrite <- Hj, has_pair_app, !orb_false_iff in Hs. destruct Hs as [[_ Hs] _].
      cbn [has_pair] in Hs. rewrite Ascii.eqb_refl in Hs. by apply orb_false_iff in Hs as [Hs _].
    + change ("docker.io" ++ "/" ++ p ++ String "/" w) with ("docker.io/" ++ p ++ String "/" w).
      rewrite Hj, str_all_app, Hc, has_char_app, Ha, !has_pair_app, Hd, Hs, Hf. done.
Qed.

Lemma take_digest_Ok clean rem digest :
  take_digest clean = Ok (rem, digest) →
  has_char "@" rem = false ∧
  match digest with
  | Some d => clean = rem ++ String "@" d ∧ DIGEST_RE d = true
  | None => clean = rem
  end.
Proof.
  unfold take_digest. destruct (split_first "@" clean) as [[a d]|] eqn:E; intros H; inv_ok; simplify_eq.
  - by apply split_first_Some in E as [-> ?].
  - by apply split_first_None in E.
Qed.

Lemma take_tag_Ok rem name tag :
  take_tag rem = Ok (name, tag) →
  match tag with
  | Some t => rem = name ++ String ":" t ∧ TAG_RE t = true
  | None => rem = name
  end.
Proof.
  unfold take_tag. destruct (_ <? _); [|intros H; inv_ok; by simplify_eq].
  destruct (split_last ":" rem) as [[a t]|] eqn:E; intros H; inv_ok; simplify_eq; [|done].
  by apply split_last_Some in E as [-> ?].
Qed.

(** The steps of an accepted parse. *)
Lemma parse_Ok raw b r :
  parse_image_reference raw b = Ok r ↔
  raw ≠ "" ∧ slen (strip raw) ≤ MAX_REF_LENGTH ∧ has_char "$" (strip raw) = false ∧
  VALID_REF_CHARS (strip raw) = true ∧ bad_path (strip raw) = false ∧
  ∃ rem digest name tag registry repository,
    take_digest (strip raw) = Ok (rem, digest) ∧ take_tag rem = Ok (name, tag) ∧
    locate name = (registry, repository) ∧ repository ≠ "" ∧
    r = {| ir_raw := strip raw; ir_registry := registry; ir_repository := repository;
           ir_tag := if negb (truthy tag) && negb (truthy digest) then Some "latest" else tag;
           ir_digest := digest; ir_is_pinned_by_digest := bool_decide (digest ≠ None);
           ir_is_local_build := b |}.
Proof.
  unfold parse_image_reference. split.
  - intros H. apply rbind_Ok in H as (u1 & ?%raise_unless_Ok & H).
    apply rbind_Ok in H as (u2 & ?%raise_unless_Ok & H).
    apply rbind_Ok in H as (u3 & ?%raise_unless_Ok & H).
    apply rbind_Ok in H as (u4 & ?%raise_unless_Ok & H).
    apply rbind_Ok in H as (u5 & ?%raise_unless_Ok & H).
    apply rbind_Ok in H as ([rem digest] & ? & H).
    apply rbind_Ok in H as ([name tag] & ? & H). cbn [fst snd] in *.
    destruct (locate name) as [registry repository] eqn:?.
    apply rbind_Ok in H as (u6 & ?%raise_unless_Ok & H). injection H as <-.
    rewrite str_nonempty_true, negb_true_iff, Z.leb_le in *. split_and!; try done.
    exists rem, digest, name, tag, registry, repository. done.
  - intros (H1 & H2 & H3 & H4 & H5 & rem & digest & name & tag & registry & repository & H6 & H7 & H8 & H9 & ->).
    rewrite (proj2 (str_nonempty_true raw) H1), (proj2 (Z.leb_le _ _) H2), H3, H4, H5.
    cbn [raise_unless rbind negb]. rewrite H6. cbn [rbind fst snd]. rewrite H7.
    cbn [rbind fst snd]. rewrite H8, (proj2 (str_nonempty_true repository) H9). done.
Qed.

Lemma parse_wf raw b r :
  parse_image_reference raw b = Ok r → wf_reference r.
Proof.
  intros (_ & _ & _ & Hv & Hp & rem & digest & name & tag & registry & repository & Hdg & Ht & Hl & Hr & ->)%parse_Ok.
  destruct (bad_path_clean _ Hp Hv) as [Hclean _].
  apply take_digest_Ok in Hdg as [Ha Hdg]. apply take_tag_Ok in Ht.
  assert (clean_text rem ∧ match digest with Some d => str_all ref_char d = true ∧ has_pair "." "." d = false | None => True end)
    as [Hrem Hd].
  { destruct digest as [d|]; [destruct Hdg as [E _]|by rewrite <- Hdg].
    eapply clean_text_split in E; [|exact Hclean]. tauto. }
  assert (clean_text name ∧ has_char "@" name = false ∧
          match tag with Some t => TAG_RE t = true ∧ has_pair "." "." t = false | None => True end)
    as (Hname & Ha' & Htag).
  { destruct tag as [t|]; [destruct Ht as [E ?]|by rewrite <- Ht].
    pose proof (clean_text_split _ _ _ _ Hrem E) as ?. rewrite E, has_char_app, orb_false_iff in Ha. tauto. }
  destruct (locate_base _ _ _ Hname Ha' Hl) as (? & ? & ? & ? & ? & ? & ?).
  split; cbn; try done; cycle 1.
  { intros t. destruct tag as [t'|]; cbn; [|destruct (truthy digest); cbn; intros Ht'; by simplify_eq].
    destruct (_ && _); intros Ht'; simplify_eq; [done|tauto]. }
  destruct digest as [d|]; [tauto|]. destruct tag as [t|]; cbn.
  - destruct (TAG_RE_parts t) as (_ & _ & _ & _ & Hne); [tauto|].
    rewrite (proj2 (str_nonempty_true t) Hne). cbn. exists t. tauto.
  - exists "latest". done.
Qed.

(** ** Rendering and parsing back *)

Lemma ref_char_clean s : str_all ref_char s = true → has_char "$" s = false ∧ strip s = s.
Proof.
  intros Hs. split; [by apply (has_char_class ref_char)|]. apply strip_id.
  unfold str_any. rewrite negb_false_iff. revert Hs. apply str_all_impl.
  intros c. destruct c as [[] [] [] [] [] [] [] []]; by vm_compute.
Qed.

Lemma locate_wf r : wf_reference r → locate (ref_base r) = (ir_registry r, ir_repository r).
Proof.
  intros [[Hr Hs] _ _ _ _ _ _]. unfold locate, ref_base.
  change ("/" ++ ir_repository r) with (String "/" (ir_repository r)).
  rewrite split_on_app by done. pose proof (join_split "/" (ir_repository r)) as Hj.
  destruct (split_on "/" (ir_repository r)) as [|q ps] eqn:E; [by apply split_on_nonempty in E|].
  by rewrite Hr, Hj.
Qed.

Lemma last_field_base r :
  last_field "/" (ref_base r) = last_field "/" (ir_repository r).
Proof.
  unfold ref_base. change ("/" ++ ir_repository r) with (String "/" (ir_repository r)).
  by rewrite last_field_app.
Qed.

(** A rendered well-formed reference passes the checks before the splits. *)
Lemma rendered_clean r c suffix :
  wf_reference r → c = ":"%char ∨ c = "@"%char →
  str_all ref_char suffix = true → has_pair "." "." suffix = false →
  has_char "/" suffix = false → suffix ≠ "" →
  let s := ref_base r ++ String c suffix in
  str_all ref_char s = true ∧ bad_path s = false ∧ s ≠ "".
Proof.
  intros [[Hr Hrs] [Hn Hb] [Hc Ha] [Hd Hsl] _ _ _] Hcc Hsc Hsd Hss Hne s. subst s.
  assert (ir_registry r ≠ "") as Hrn by (intros E; by rewrite E in Hr).
  split_and!.
  - rewrite str_all_app, Hc. cbn [str_all]. rewrite Hsc. by destruct Hcc; subst c.
  - unfold bad_path. rewrite !str_in_pair, starts_with_char, ends_with_char.
    rewrite !has_pair_app, Hd, Hsl, begins_app, finishes_app. cbn [has_pair].
    rewrite Hsd, (has_pair_has "/" "/" suffix) by done.
    unfold str_eqb. rewrite !bool_decide_eq_false_2; [|done|].
    + unfold ref_base. rewrite begins_app. unfold str_eqb. rewrite bool_decide_eq_false_2 by done.
      rewrite (begins_has "/" (ir_registry r)) by done.
      assert (finishes "/" (String c suffix) = false) as ->.
      { apply finishes_has. rewrite has_char_cons, Hss. by destruct Hcc; subst c. }
      destruct Hcc; subst c; cbn; by rewrite !andb_false_r.
    + unfold ref_base. by destruct (ir_registry r).
  - unfold ref_base. by destruct (ir_registry r).
Qed.

(** [parse_image_reference(r.canonical)] of a well-formed reference. *)
Lemma parse_canonical r b :
  wf_reference r → slen (canonical r) ≤ MAX_REF_LENGTH →
  ir_digest r = None ∨ has_char ":" (last_field "/" (ir_repository r)) = false →
  parse_image_reference (canonical r) b =
    Ok {| ir_raw := canonical r; ir_registry := ir_registry r; ir_repository := ir_repository r;
          ir_tag := match ir_digest r with None => ir_tag r | Some _ => None end;
          ir_digest := ir_digest r; ir_is_pinned_by_digest := ir_is_pinned_by_digest r;
          ir_is_local_build := b |}.
Proof.
  intros Hwf Hlen Hcolon. apply parse_Ok. pose proof Hwf as [_ [Hn _] [_ Ha] _ Hsfx _ ->].
  unfold canonical in *. change (ir_registry r ++ "/" ++ ir_repository r) with (ref_base r) in *.
  destruct (ir_digest r) as [d|].
  - destruct Hsfx as (Hd & Hdc & Hdd), (DIGEST_RE_parts d) as (Hda & Hds & Hdn); [tauto|].
    cbn [truthy default id from_option] in *. rewrite (proj2 (str_nonempty_true d) Hdn) in *.
    change (ref_base r ++ "@" ++ d) with (ref_base r ++ String "@" d) in *.
    destruct (rendered_clean r "@" d) as (Hchars & Hbad & Hne); [auto..|].
    destruct (ref_char_clean _ Hchars) as [Hdollar ->].
    split_and!; try done; [unfold VALID_REF_CHARS; by rewrite (proj2 (str_nonempty_true _) Hne), Hchars|].
    exists (ref_base r), (Some d), (ref_base r), None, (ir_registry r), (ir_repository r).
    unfold take_digest, take_tag. rewrite (proj2 (split_first_Some _ _ _ _) (conj eq_refl Ha)), Hd.
    rewrite rfind_lt, last_field_base by done. destruct Hcolon as [?|Hcolon]; [done|].
    rewrite Hcolon. cbn [truthy negb andb]. rewrite (proj2 (str_nonempty_true d) Hdn).
    split_and!; try done. by apply locate_wf.
  - destruct Hsfx as (t & Ht & Htr & Htd). rewrite Ht in *. cbn [truthy default id from_option] in *.
    destruct (TAG_RE_parts t Htr) as (Htc & Htcol & Hts & Hta & Htn).
    rewrite (proj2 (str_nonempty_true t) Htn) in *.
    change (ref_base r ++ ":" ++ t) with (ref_base r ++ String ":" t) in *.
    destruct (rendered_clean r ":" t) as (Hchars & Hbad & Hne); [auto..|].
    destruct (ref_char_clean _ Hchars) as [Hdollar ->].
    split_and!; try done; [unfold VALID_REF_CHARS; by rewrite (proj2 (str_nonempty_true _) Hne), Hchars|].
    exists (ref_base r ++ String ":" t), None, (ref_base r), (Some t), (ir_registry r), (ir_repository r).
    unfold take_digest, take_tag. split_and!; try done.
    + rewrite (proj2 (split_first_None _ _)); [done|]. rewrite has_char_app, Ha, has_char_cons. done.
    + rewrite rfind_lt by done. unfold ref_base.
      assert (has_char ":" (last_field "/" ((ir_registry r ++ "/" ++ ir_repository r) ++ String ":" t)) = true) as ->.
      { rewrite app_assoc_str. change ("/" ++ ir_repository r) with (String "/" (ir_repository r)).
        rewrite app_cons, last_field_app. apply last_field_suffix. by rewrite has_char_cons, Hts. }
      rewrite (proj2 (split_last_Some _ _ _ _) (conj eq_refl Htcol)), Htr. done.
    + by apply locate_wf.
    + cbn [truthy]. by rewrite (proj2 (str_nonempty_true t) Htn).
Qed.

(** A reference that was parsed parses back from its canonical text to the
    same registry, repository, digest and tag (the tag is dropped when a digest
    is present), provided the text still fits the length bound and, for a
    digest, no colon is left in the last component of the repository. *)
Lemma image_reference_roundtrip raw b r :
  parse_image_reference raw b = Ok r →
  slen (canonical r) ≤ MAX_REF_LENGTH →
  ir_digest r = None ∨ has_char ":" (last_field "/" (ir_repository r)) = false →
  wf_reference r ∧
  parse_image_reference (canonical r) b =
    Ok {| ir_raw := canonical r; ir_registry := ir_registry r; ir_repository := ir_repository r;
          ir_tag := match ir_digest r with None => ir_tag r | Some _ => None end;
          ir_digest := ir_digest r; ir_is_pinned_by_digest := ir_is_pinned_by_digest r;
          ir_is_local_build := b |}.
Proof. intros H%parse_wf ? ?. split; [done|]. by apply parse_canonical. Qed.

(** Without the condition on colons the round trip is false. *)
Example digest_with_inner_colon :
  let d := "sha256:0123456789abcdef0123456789abcdef" in
  ∃ r r', parse_image_reference ("a:b:c@" ++ d) false = Ok r ∧ ir_repository r = "library/a:b" ∧
    parse_image_reference (canonical r) false = Ok r' ∧ ir_repository r' = "library/a".
Proof. eexists _, _. split_and!; reflexivity. Qed.

(** ** Lookup keys *)

Lemma lower_ref s : str_all ref_char s = true → str_all ref_char (lower s) = true.
Proof. apply str_all_lower. intros c. destruct c as [[] [] [] [] [] [] [] []]; by vm_compute. Qed.

Lemma lower_no_slash s : has_char "/" s = false → has_char "/" (lower s) = false.
Proof.
  unfold has_char, str_any. rewrite !negb_false_iff. apply str_all_lower.
  intros c. destruct c as [[] [] [] [] [] [] [] []]; by vm_compute.
Qed.

(** The fields of the key of a well-formed reference. *)
Lemma from_image_ref_wf r arch os :
  wf_reference r →
  let k := from_image_ref r arch os in
  ck_registry k = lower (ir_registry r) ∧ ck_repository k = lower (ir_repository r) ∧
  has_char "/" (ck_registry k) = false ∧ has_char ":" (ck_tag k) = false.
Proof.
  intros [[Hr Hs] [Hn _] [Hc _] _ _ Ht _] k. subst k. cbn.
  assert (str_nonempty (ir_registry r) = true) as ->.
  { apply str_nonempty_true. intros E. by rewrite E in Hr. }
  unfold ref_base in Hc. rewrite !str_all_app, !andb_true_iff in Hc. destruct Hc as (Hc1 & _ & Hc2).
  destruct (ref_char_clean _ (lower_ref _ Hc1)) as [_ ->].
  destruct (ref_char_clean _ (lower_ref _ Hc2)) as [_ ->].
  split_and!; [done|done|by apply lower_no_slash|].
  destruct (truthy (ir_tag r)) eqn:E.
  - destruct (ir_tag r) as [t|]; [|done]. destruct (TAG_RE_parts t) as (Hcs & Hcol & _); [by apply Ht|].
    cbn [default from_option id]. destruct (ref_char_clean _ Hcs) as [_ ->]. by case_match.
  - done.
Qed.

(** The text that orders lookups determines the key. *)
Lemma lookup_key_text_inj r1 r2 arch os :
  wf_reference r1 → wf_reference r2 →
  canonical_str (from_image_ref r1 arch os) = canonical_str (from_image_ref r2 arch os) →
  from_image_ref r1 arch os = from_image_ref r2 arch os.
Proof.
  intros H1 H2. destruct (from_image_ref_wf r1 arch os H1) as (_ & _ & A1 & B1).
  destruct (from_image_ref_wf r2 arch os H2) as (_ & _ & A2 & B2).
  assert (ck_target_arch (from_image_ref r1 arch os) = ck_target_arch (from_image_ref r2 arch os) ∧
          ck_target_os (from_image_ref r1 arch os) = ck_target_os (from_image_ref r2 arch os)) as [Ea Eo] by done.
  destruct (from_image_ref r1 arch os) as [g1 p1 t1 a1 o1], (from_image_ref r2 arch os) as [g2 p2 t2 a2 o2].
  cbn in *. subst a2 o2. unfold canonical_str. cbn.
  change (g1 ++ "/" ++ p1 ++ ":" ++ t1 ++ " [" ++ o1 ++ "/" ++ a1 ++ "]")
    with (g1 ++ String "/" (p1 ++ String ":" (t1 ++ (" [" ++ o1 ++ "/" ++ a1 ++ "]")))).
  change (g2 ++ "/" ++ p2 ++ ":" ++ t2 ++ " [" ++ o1 ++ "/" ++ a1 ++ "]")
    with (g2 ++ String "/" (p2 ++ String ":" (t2 ++ (" [" ++ o1 ++ "/" ++ a1 ++ "]")))).
  intros [-> H]%split_first_inj; [|done|done].
  rewrite <- !app_cons, <- !app_assoc_str in H. do 5 apply app_inj_l in H.
  apply split_last_inj in H as [-> ->]; done.
Qed.
