(* ===== verification/ComposeModel.v ===== *)
(** * ComposeModel: compose intelligence values

    The enumerations and records of models/compose_intelligence.py (image
    references and lookup keys are in [ImageRef]) and the result of a registry
    query from services/compose/registry_client.py.  Rendering
    ([to_dict]) is not modelled. *)

From S2P Require Import Prelude PyStr PyText PyTime Models ImageRef.
From Stdlib Require Import Ascii String ZArith Lia.
From stdpp Require Import base strings countable gmap list.

Local Open Scope string_scope.
Local Open Scope Z_scope.

(** ** Enumerations *)

Inductive ServiceCandidateStatus :=
  | ST_CURRENT | ST_UPDATE_AVAILABLE | ST_NOT_APPLICABLE | ST_DRIFT | ST_UNKNOWN.
#[export] Instance ServiceCandidateStatus_eq_dec : EqDecision ServiceCandidateStatus.
Proof. solve_decision. Defined.
#[export] Instance ServiceCandidateStatus_value : EnumValue ServiceCandidateStatus := λ s,
  match s with
  | ST_CURRENT => "current" | ST_UPDATE_AVAILABLE => "update_available"
  | ST_NOT_APPLICABLE => "not_applicable" | ST_DRIFT => "drift" | ST_UNKNOWN => "unknown"
  end.

(** [NEWER_DIGEST_AVAILABLE] is an alias of [CANDIDATE_DIGEST_DIFFERS]. *)
Inductive ServiceCandidateReason :=
  | RS_UP_TO_DATE | RS_CANDIDATE_DIGEST_DIFFERS | RS_LOCAL_BUILD | RS_PINNED_BY_DIGEST
  | RS_CONFIGURATION_DRIFT | RS_DISABLED_BY_PROFILE | RS_NO_RUNNING_CONTAINER
  | RS_BUDGET_EXHAUSTED | RS_NETWORK_BUDGET_EXHAUSTED | RS_REGISTRY_UNAVAILABLE
  | RS_REGISTRY_TIMEOUT | RS_AUTHENTICATION_REQUIRED | RS_ARCHITECTURE_UNAVAILABLE
  | RS_MANIFEST_UNAVAILABLE | RS_DIGEST_UNAVAILABLE | RS_SSRF_BLOCKED
  | RS_MALFORMED_IMAGE_REFERENCE.
#[export] Instance ServiceCandidateReason_eq_dec : EqDecision ServiceCandidateReason.
Proof. solve_decision. Defined.
#[export] Instance ServiceCandidateReason_value : EnumValue ServiceCandidateReason := λ s,
  match s with
  | RS_UP_TO_DATE => "up_to_date" | RS_CANDIDATE_DIGEST_DIFFERS => "candidate_digest_differs"
  | RS_LOCAL_BUILD => "local_build" | RS_PINNED_BY_DIGEST => "pinned_by_digest"
  | RS_CONFIGURATION_DRIFT => "configuration_drift"
  | RS_DISABLED_BY_PROFILE => "disabled_by_profile"
  | RS_NO_RUNNING_CONTAINER => "no_running_container"
  | RS_BUDGET_EXHAUSTED => "budget_exhausted"
  | RS_NETWORK_BUDGET_EXHAUSTED => "network_budget_exhausted"
  | RS_REGISTRY_UNAVAILABLE => "registry_unavailable" | RS_REGISTRY_TIMEOUT => "registry_timeout"
  | RS_AUTHENTICATION_REQUIRED => "authentication_required"
  | RS_ARCHITECTURE_UNAVAILABLE => "architecture_unavailable"
  | RS_MANIFEST_UNAVAILABLE => "manifest_unavailable"
  | RS_DIGEST_UNAVAILABLE => "digest_unavailable" | RS_SSRF_BLOCKED => "ssrf_blocked"
  | RS_MALFORMED_IMAGE_REFERENCE => "malformed_image_reference"
  end.

Inductive CandidateCacheFreshness := FRESH | STALE.
#[export] Instance CandidateCacheFreshness_eq_dec : EqDecision CandidateCacheFreshness.
Proof. solve_decision. Defined.

#[export] Instance CandidateLookupKey_countable : Countable CandidateLookupKey.
Proof.
  apply (inj_countable'
    (λ k, (ck_registry k, ck_repository k, ck_tag k, ck_target_arch k, ck_target_os k))
    (λ '(g, p, t, a, o), {| ck_registry := g; ck_repository := p; ck_tag := t;
                            ck_target_arch := a; ck_target_os := o |})).
  by intros [].
Defined.

(** ** Records *)

(** [RegistryCandidateResult] *)
Record RegistryCandidateResult := {
  rc_status : ServiceCandidateStatus;
  rc_reason : ServiceCandidateReason;
  rc_index_digest : option string;
  rc_child_digest : option string;
  rc_detail : option string;
}.
#[export] Instance RegistryCandidateResult_eq_dec : EqDecision RegistryCandidateResult.
Proof. solve_decision. Defined.

Record DeclaredServiceConfig := {
  dc_service_name : string;
  dc_image : option string;
  dc_image_ref : option ImageReference;
  dc_is_build : bool;
  dc_build_context : option string;
  dc_build_dockerfile : option string;
  dc_profiles : list string;
  dc_depends_on : list string;
  dc_labels : list (string * string);
  dc_source_files : list string;
  dc_parse_error : option string;
}.

Record ComposeServiceObservation := {
  co_service_name : string;
  co_container_names : list string;
  co_container_ids : list string;
  co_state : string;
  co_health : option string;
  co_declared_image : option string;
  co_declared_image_ref : option ImageReference;
  co_running_image : option string;
  co_running_image_id : option string;
  co_running_repo_digests : list string;
  co_candidate_digest : option string;
  co_candidate_child_digest : option string;
  co_candidate_status : ServiceCandidateStatus;
  co_candidate_reason : ServiceCandidateReason;
  co_candidate_detail : option string;
  co_is_build : bool;
  co_build_context : option string;
  co_build_dockerfile : option string;
  co_ports : list string;
  co_freshness : string;
  co_observed_at : option datetime;
  co_provenance_verified : bool;
  co_depends_on : list string;
  co_candidate_key : option CandidateLookupKey;
}.

Record ComposeProjectObservation := {
  cp_project_name : string;
  cp_compose_identity : string;
  cp_project_path : string;
  cp_compose_files : list string;
  cp_services : list ComposeServiceObservation;
  cp_running_services_count : Z;
  cp_total_services_count : Z;
  cp_updates_available_count : Z;
  cp_current_count : Z;
  cp_drift_count : Z;
  cp_not_applicable_count : Z;
  cp_unknown_count : Z;
  cp_observed_at : option datetime;
  cp_freshness : string;
  cp_error : option string;
}.
