(* ===== verification/CandidateCache.v ===== *)
(** * CandidateCache: the bounded LRU cache of registry candidates

    services/compose/cache.py.  The [OrderedDict] is a [dict] in order of
    recency.  Instants and durations are exact integers of some tick (the
    source uses floating-point seconds of the monotonic clock); [now] is always
    explicit.  The lock makes each method atomic, so the methods are functions
    on the state.

    The specification of an LRU cache is a finite map that stamps every entry
    with the logical time of its last use and, when full, drops the entry with
    the least stamp; [cache_refines_lru] shows that the recency list
    implements it. *)

From S2P Require Import Prelude PyStr PyDict ImageRef ComposeModel.
From Stdlib Require Import ZArith Lia.
From stdpp Require Import base strings gmap fin_maps sorting list.

Local Open Scope Z_scope.

Record CachedCandidateEntry := {
  ce_key : CandidateLookupKey;
  ce_result : RegistryCandidateResult;
  ce_cached_at : Z;
  ce_ttl_seconds : Z;
  ce_is_negative : bool;
}.
#[export] Instance CachedCandidateEntry_eq_dec : EqDecision CachedCandidateEntry.
Proof. solve_decision. Defined.

Definition is_fresh (e : CachedCandidateEntry) (now : Z) : bool :=
  now - ce_cached_at e <=? ce_ttl_seconds e.
Definition freshness (e : CachedCandidateEntry) (now : Z) : CandidateCacheFreshness :=
  if is_fresh e now then FRESH else STALE.
Definition age (e : CachedCandidateEntry) (now : Z) : Z := Z.max 0 (now - ce_cached_at e).

Record CandidateCache := {
  cc_max_capacity : Z;
  cc_positive_ttl : Z;
  cc_negative_ttl : Z;
  cc_entries : dict CandidateLookupKey CachedCandidateEntry;
  cc_hits : Z;
  cc_misses : Z;
  cc_evictions : Z;
}.

(** [CandidateCache.__init__] *)
Definition new_CandidateCache (max_capacity positive_ttl negative_ttl : Z) : CandidateCache :=
  {| cc_max_capacity := Z.max 1 max_capacity; cc_positive_ttl := positive_ttl;
     cc_negative_ttl := negative_ttl; cc_entries := []; cc_hits := 0; cc_misses := 0;
     cc_evictions := 0 |}.

Definition cc_with (c : CandidateCache) (d : dict CandidateLookupKey CachedCandidateEntry)
    (hits misses evictions : Z) : CandidateCache :=
  {| cc_max_capacity := cc_max_capacity c; cc_positive_ttl := cc_positive_ttl c;
     cc_negative_ttl := cc_negative_ttl c; cc_entries := d; cc_hits := hits;
     cc_misses := misses; cc_evictions := evictions |}.

(** [OrderedDict.move_to_end] of a present key. *)
Definition move_to_end (k : CandidateLookupKey) (e : CachedCandidateEntry)
    (d : dict CandidateLookupKey CachedCandidateEntry) : dict CandidateLookupKey CachedCandidateEntry :=
  (dpop k d ++ [(k, e)])%list.

Definition cache_get (k : CandidateLookupKey) (now : Z) (c : CandidateCache)
  : CandidateCache * option (RegistryCandidateResult * CandidateCacheFreshness) :=
  match dget k (cc_entries c) with
  | None => (cc_with c (cc_entries c) (cc_hits c) (cc_misses c + 1) (cc_evictions c), None)
  | Some e =>
      (cc_with c (move_to_end k e (cc_entries c)) (cc_hits c + 1) (cc_misses c) (cc_evictions c),
       Some (ce_result e, freshness e now))
  end.

Definition cache_peek (k : CandidateLookupKey) (now : Z) (c : CandidateCache)
  : option (RegistryCandidateResult * CandidateCacheFreshness) :=
  match dget k (cc_entries c) with
  | None => None
  | Some e => Some (ce_result e, freshness e now)
  end.

(** Results of an exhausted budget are never stored. *)
Definition budget_result (r : RegistryCandidateResult) : bool :=
  bool_decide (rc_reason r = RS_BUDGET_EXHAUSTED)
  || bool_decide (rc_reason r = RS_NETWORK_BUDGET_EXHAUSTED).

Definition cache_put (k : CandidateLookupKey) (r : RegistryCandidateResult) (ttl : option Z)
    (is_negative : bool) (now : Z) (c : CandidateCache) : CandidateCache :=
  if budget_result r then c else
  let e := {| ce_key := k; ce_result := r; ce_cached_at := now;
              ce_ttl_seconds := default (if is_negative then cc_negative_ttl c
                                         else cc_positive_ttl c) ttl;
              ce_is_negative := is_negative |} in
  let d := cc_entries c in
  if dmem k d then
    cc_with c (dset k e (dpop k d)) (cc_hits c) (cc_misses c) (cc_evictions c)
  else if cc_max_capacity c <=? dlen d then
    cc_with c (dset k e (List.tl d)) (cc_hits c) (cc_misses c) (cc_evictions c + 1)
  else cc_with c (dset k e d) (cc_hits c) (cc_misses c) (cc_evictions c).

Definition cache_evict (k : CandidateLookupKey) (c : CandidateCache) : CandidateCache * bool :=
  if dmem k (cc_entries c)
  then (cc_with c (dpop k (cc_entries c)) (cc_hits c) (cc_misses c) (cc_evictions c), true)
  else (c, false).

Definition cache_clear (c : CandidateCache) : CandidateCache := cc_with c [] 0 0 0.

Definition cache_len (c : CandidateCache) : Z := dlen (cc_entries c).

(** [CandidateCache.stats]: size, capacity, hits, misses, evictions. *)
Definition cache_stats (c : CandidateCache) : Z * Z * Z * Z * Z :=
  (dlen (cc_entries c), cc_max_capacity c, cc_hits c, cc_misses c, cc_evictions c).

(** ** Histories of calls *)

Inductive cache_op :=
  | OpGet (k : CandidateLookupKey) (now : Z)
  | OpPeek (k : CandidateLookupKey) (now : Z)
  | OpPut (k : CandidateLookupKey) (r : RegistryCandidateResult) (ttl : option Z) (neg : bool) (now : Z)
  | OpEvict (k : CandidateLookupKey)
  | OpClear.

Inductive cache_answer :=
  | Found (o : option (RegistryCandidateResult * CandidateCacheFreshness))
  | Removed (b : bool)
  | Done.

Definition cache_step (c : CandidateCache) (op : cache_op) : CandidateCache * cache_answer :=
  match op with
  | OpGet k now => let '(c', o) := cache_get k now c in (c', Found o)
  | OpPeek k now => (c, Found (cache_peek k now c))
  | OpPut k r ttl neg now => (cache_put k r ttl neg now c, Done)
  | OpEvict k => let '(c', b) := cache_evict k c in (c', Removed b)
  | OpClear => (cache_clear c, Done)
  end.

Fixpoint cache_run (c : CandidateCache) (ops : list cache_op) : CandidateCache * list cache_answer :=
  match ops with
  | [] => (c, [])
  | op :: ops' =>
      let '(c1, a) := cache_step c op in
      let '(c2, l) := cache_run c1 ops' in (c2, a :: l)
  end.

(** ** Specification: least recently used by logical time *)

Record lru := {
  lru_map : gmap CandidateLookupKey (CachedCandidateEntry * nat);
  lru_clock : nat;
}.
Definition lru_empty (clock : nat) : lru := {| lru_map := ∅; lru_clock := clock |}.

(** Use the entry: stamp it with the current logical time. *)
Definition lru_touch (k : CandidateLookupKey) (e : CachedCandidateEntry)
    (m : gmap CandidateLookupKey (CachedCandidateEntry * nat)) (clock : nat) : lru :=
  {| lru_map := <[k := (e, clock)]> m; lru_clock := S clock |}.

Definition lru_found (s : lru) (k : CandidateLookupKey) (now : Z)
  : option (RegistryCandidateResult * CandidateCacheFreshness) :=
  (λ '(e, _), (ce_result e, freshness e now)) <$> lru_map s !! k.

(** [v] carries the least stamp. *)
Definition oldest (m : gmap CandidateLookupKey (CachedCandidateEntry * nat))
    (v : CandidateLookupKey) : Prop :=
  ∃ e t, m !! v = Some (e, t) ∧ ∀ k' e' t', m !! k' = Some (e', t') → (t ≤ t')%nat.

Inductive lru_step (capacity pos neg_ttl : Z) : lru → cache_op → cache_answer → lru → Prop :=
  | LruHit s k now e t :
      lru_map s !! k = Some (e, t) →
      lru_step capacity pos neg_ttl s (OpGet k now) (Found (lru_found s k now))
        (lru_touch k e (lru_map s) (lru_clock s))
  | LruMiss s k now :
      lru_map s !! k = None →
      lru_step capacity pos neg_ttl s (OpGet k now) (Found None) s
  | LruPeek s k now :
      lru_step capacity pos neg_ttl s (OpPeek k now) (Found (lru_found s k now)) s
  | LruSkip s k r ttl neg now :
      budget_result r = true → lru_step capacity pos neg_ttl s (OpPut k r ttl neg now) Done s
  | LruPut s m k r ttl neg now :
      budget_result r = false →
      (m = lru_map s ∧ (is_Some (lru_map s !! k) ∨ Z.of_nat (size (lru_map s)) < capacity) ∨
       lru_map s !! k = None ∧ capacity ≤ Z.of_nat (size (lru_map s)) ∧
       ∃ v, oldest (lru_map s) v ∧ m = delete v (lru_map s)) →
      lru_step capacity pos neg_ttl s (OpPut k r ttl neg now) Done
        (lru_touch k {| ce_key := k; ce_result := r; ce_cached_at := now;
                        ce_ttl_seconds := default (if neg then neg_ttl else pos) ttl;
                        ce_is_negative := neg |} m (lru_clock s))
  | LruEvict s k :
      lru_step capacity pos neg_ttl s (OpEvict k) (Removed (bool_decide (is_Some (lru_map s !! k))))
        {| lru_map := delete k (lru_map s); lru_clock := lru_clock s |}
  | LruClear s :
      lru_step capacity pos neg_ttl s OpClear Done (lru_empty (lru_clock s)).

Inductive lru_run (capacity pos neg_ttl : Z)
  : lru → list cache_op → list cache_answer → lru → Prop :=
  | LruNil s : lru_run capacity pos neg_ttl s [] [] s
  | LruCons s op a s1 ops l s2 :
      lru_step capacity pos neg_ttl s op a s1 → lru_run capacity pos neg_ttl s1 ops l s2 →
      lru_run capacity pos neg_ttl s (op :: ops) (a :: l) s2.

(** ** The recency list implements the specification *)

Notation stamped := (dict CandidateLookupKey (CachedCandidateEntry * nat)).

(** Forget the stamps. *)
Definition unstamp (l : stamped) : dict CandidateLookupKey CachedCandidateEntry :=
  List.map (λ x, (fst x, fst (snd x))) l.

(** The stamped list behind a cache: stamps increase along the list. *)
Record stamping (c : CandidateCache) (s : lru) (l : stamped) : Prop := {
  sg_entries : cc_entries c = unstamp l;
  sg_keys : dwf l;
  sg_map : lru_map s = list_to_map l;
  sg_order : StronglySorted (λ x y, snd (snd x) < snd (snd y))%nat l;
  sg_clock : Forall (λ x, snd (snd x) < lru_clock s)%nat l;
}.

(** The bounds of a cache. *)
Record cache_bounds (c : CandidateCache) : Prop := {
  cb_capacity : 1 ≤ cc_max_capacity c;
  cb_size : dlen (cc_entries c) ≤ cc_max_capacity c;
  cb_results : Forall (λ x, budget_result (ce_result (snd x)) = false) (cc_entries c);
}.

Definition lru_rel (c : CandidateCache) (s : lru) : Prop := ∃ l, stamping c s l.

Lemma unstamp_dget k l : dget k (unstamp l) = fst <$> dget k l.
Proof. induction l as [|[k1 [e t]] l IH]; cbn; [done|]. by case_decide. Qed.
Lemma unstamp_dpop k l : dpop k (unstamp l) = unstamp (dpop k l).
Proof.
  unfold unstamp. induction l as [|[k1 [e t]] l IH]; cbn; [done|]. case_decide; [done|].
  cbn. by rewrite IH.
Qed.
Lemma unstamp_snoc l k e t : unstamp (l ++ [(k, (e, t))]) = (unstamp l ++ [(k, e)])%list.
Proof. unfold unstamp. by rewrite List.map_app. Qed.

Lemma dget_lookup {V} (k : CandidateLookupKey) (l : dict CandidateLookupKey V) :
  (list_to_map l : gmap _ V) !! k = dget k l.
Proof.
  induction l as [|[k1 v] l IH]; cbn; [apply lookup_empty|].
  destruct (decide (k = k1)) as [->|]; [by rewrite lookup_insert_eq|]. by rewrite lookup_insert_ne.
Qed.
Lemma dpop_map {V} (k : CandidateLookupKey) (l : dict CandidateLookupKey V) :
  dwf l → (list_to_map (dpop k l) : gmap _ V) = delete k (list_to_map l).
Proof.
  intros Hl. apply map_eq. intros k'. rewrite dget_lookup, dget_pop by done.
  destruct (decide (k' = k)) as [->|]; [by rewrite lookup_delete_eq|].
  by rewrite lookup_delete_ne, dget_lookup.
Qed.
Lemma dpop_sorted k (l : stamped) :
  StronglySorted (λ x y, snd (snd x) < snd (snd y))%nat l →
  StronglySorted (λ x y, snd (snd x) < snd (snd y))%nat (dpop k l).
Proof.
  induction 1 as [|[k1 v] l Hl IH Hx]; cbn; [constructor|]. case_decide; [done|].
  constructor; [done|]. by apply dpop_Forall.
Qed.

Lemma snoc_sorted (l : stamped) k e n :
  StronglySorted (λ x y, snd (snd x) < snd (snd y))%nat l →
  Forall (λ x, snd (snd x) < n)%nat l →
  StronglySorted (λ x y, snd (snd x) < snd (snd y))%nat (l ++ [(k, (e, n))]).
Proof.
  induction 1 as [|x l Hl IH Hx]; intros Hn; cbn; [repeat constructor|].
  apply Forall_cons in Hn as [Hn1 Hn]. constructor; [by apply IH|].
  apply Forall_app. split; [done|]. by constructor.
Qed.

(** Using an entry: the key, absent from [l], goes to the end with the
    current stamp. *)
Lemma stamp_touch s l k e c' :
  dwf l → StronglySorted (λ x y, snd (snd x) < snd (snd y))%nat l →
  Forall (λ x, snd (snd x) < lru_clock s)%nat l → dget k l = None →
  cc_entries c' = (unstamp l ++ [(k, e)])%list →
  stamping c' (lru_touch k e (list_to_map l) (lru_clock s)) (l ++ [(k, (e, lru_clock s))]).
Proof.
  intros Hw Hs Hc Hk E. pose proof Hk as Hk'. apply dget_None in Hk'. split; cbn.
  - by rewrite E, unstamp_snoc.
  - unfold dwf, dkeys in *. rewrite fmap_app. cbn. apply NoDup_app. split_and!; [done| |apply NoDup_singleton].
    by intros x Hx ->%list_elem_of_singleton.
  - rewrite list_to_map_snoc; done.
  - by apply snoc_sorted.
  - apply Forall_app. split; [|by repeat constructor].
    eapply Forall_impl; [exact Hc|]. cbn. lia.
Qed.

Lemma stamping_lookup c s l k : stamping c s l → dget k (cc_entries c) = fst <$> lru_map s !! k.
Proof. intros [-> _ -> _ _]. by rewrite unstamp_dget, dget_lookup. Qed.

Lemma stamping_size c s l : stamping c s l → Z.of_nat (size (lru_map s)) = dlen (cc_entries c).
Proof.
  intros [-> Hw -> _ _]. rewrite map_size_list_to_map by done.
  unfold dlen, unstamp. by rewrite List.length_map.
Qed.

Lemma stamping_pop c s l k c' :
  stamping c s l → cc_entries c' = dpop k (cc_entries c) →
  stamping c' {| lru_map := delete k (lru_map s); lru_clock := lru_clock s |} (dpop k l).
Proof.
  intros [E Hw M Ho Hc] E'. split; cbn.
  - by rewrite E', E, unstamp_dpop.
  - by apply dpop_wf.
  - by rewrite M, dpop_map.
  - by apply dpop_sorted.
  - by apply dpop_Forall.
Qed.

(** Putting an absent key after dropping some entries. *)
Lemma stamping_put c s l k e c' :
  stamping c s l → lru_map s !! k = None → cc_entries c' = dset k e (cc_entries c) →
  lru_rel c' (lru_touch k e (lru_map s) (lru_clock s)).
Proof.
  intros [E Hw M Ho Hc] Hk E'. rewrite M, dget_lookup in Hk.
  exists (l ++ [(k, (e, lru_clock s))]). rewrite M.
  eapply stamp_touch; [done..|]. rewrite E', E. apply dset_absent. by rewrite unstamp_dget, Hk.
Qed.

Lemma cache_get_refines c s l k now :
  stamping c s l →
  ∃ s', lru_step (cc_max_capacity c) (cc_positive_ttl c) (cc_negative_ttl c) s (OpGet k now)
          (Found (cache_get k now c).2) s' ∧ lru_rel (cache_get k now c).1 s'.
Proof.
  intros Hs. pose proof (stamping_lookup c s l k Hs) as Hg. unfold cache_get. rewrite Hg.
  destruct (lru_map s !! k) as [[e t]|] eqn:Ek; cbn.
  - exists (lru_touch k e (lru_map s) (lru_clock s)). split.
    + assert (Some (ce_result e, freshness e now) = lru_found s k now) as ->
        by (unfold lru_found; by rewrite Ek).
      by eapply LruHit.
    + pose proof (stamping_pop c s l k (cc_with c (dpop k (cc_entries c)) 0 0 0) Hs eq_refl) as [E Hw M Ho Hc].
      exists (dpop k l ++ [(k, (e, lru_clock s))]). cbn in *.
      assert (lru_touch k e (lru_map s) (lru_clock s) = lru_touch k e (list_to_map (dpop k l)) (lru_clock s)) as ->.
      { unfold lru_touch. f_equal. rewrite <- M. by rewrite insert_delete_eq. }
      eapply stamp_touch; [done..| |].
      * rewrite dget_pop by apply Hs. by rewrite decide_True.
      * cbn. unfold move_to_end. by rewrite E.
  - exists s. split; [by constructor|]. exists l. destruct Hs. by split.
Qed.

Lemma cache_put_refines c s l k r ttl neg now :
  stamping c s l → 1 ≤ cc_max_capacity c →
  ∃ s', lru_step (cc_max_capacity c) (cc_positive_ttl c) (cc_negative_ttl c) s
          (OpPut k r ttl neg now) Done s' ∧ lru_rel (cache_put k r ttl neg now c) s'.
Proof.
  intros Hs Hcap. unfold cache_put. destruct (budget_result r) eqn:Hb.
  { exists s. split; [by constructor|by exists l]. }
  pose proof (stamping_lookup c s l k Hs) as Hg. pose proof (stamping_size c s l Hs) as Hz.
  match goal with |- context [dset k ?x _] => set (e := x) end.
  destruct (dmem k (cc_entries c)) eqn:Hm.
  - apply dmem_true in Hm. rewrite Hg, fmap_is_Some in Hm.
    pose proof (stamping_pop c s l k (cc_with c (dpop k (cc_entries c)) 0 0 0) Hs eq_refl) as Hp.
    eexists. split; [eapply LruPut; [done|left; split; [reflexivity|by left]]|]. fold e.
    assert (lru_touch k e (lru_map s) (lru_clock s) = lru_touch k e (delete k (lru_map s)) (lru_clock s)) as ->
      by (unfold lru_touch; by rewrite insert_delete_eq).
    eapply (stamping_put _ _ _ k e _ Hp); [cbn; apply lookup_delete_eq|done].
  - apply dmem_false in Hm. rewrite Hg in Hm. apply fmap_None in Hm.
    destruct (Z.leb_spec (cc_max_capacity c) (dlen (cc_entries c))) as [Hfull|Hroom].
    + destruct l as [|[v [ev tv]] l].
      { destruct Hs as [E _ _ _ _]. rewrite E in Hfull. unfold dlen, unstamp in Hfull. cbn in Hfull. lia. }
      assert (oldest (lru_map s) v).
      { destruct Hs as [_ Hw M Ho _]. exists ev, tv. rewrite M. split.
        - rewrite dget_lookup. cbn. by rewrite decide_True.
        - intros k' e' t'. rewrite dget_lookup. intros Hk'%dget_In.
          apply StronglySorted_inv in Ho as [_ Ho]. apply elem_of_cons in Hk' as [Hk'|Hk'].
          + by injection Hk' as -> -> ->.
          + eapply (proj1 (Forall_forall _ _) Ho) in Hk'. cbn in Hk'. lia. }
      eexists. split.
      { eapply LruPut; [done|right; split_and!; [done|lia|by exists v]]. }
      fold e. assert (stamping (cc_with c (List.tl (cc_entries c)) 0 0 0)
                {| lru_map := delete v (lru_map s); lru_clock := lru_clock s |} l) as Hp.
      { pose proof (stamping_pop c s _ v (cc_with c (dpop v (cc_entries c)) 0 0 0) Hs eq_refl) as Hp.
        cbn [dpop] in Hp. rewrite decide_True in Hp by done. destruct Hp as [_ ? ? ? ?]. split; [|done..].
        cbn. destruct Hs as [-> _ _ _ _]. done. }
      eapply (stamping_put _ _ _ k e _ Hp); [|done]. cbn.
      destruct (decide (k = v)) as [->|]; [apply lookup_delete_eq|by rewrite lookup_delete_ne].
    + eexists. split; [eapply LruPut; [done|left; split; [reflexivity|right; lia]]|].
      by eapply (stamping_put c s l).
Qed.

(** One call is one step of the specification with the same answer. *)
Lemma cache_step_refines c s op :
  lru_rel c s → 1 ≤ cc_max_capacity c →
  ∃ s', lru_step (cc_max_capacity c) (cc_positive_ttl c) (cc_negative_ttl c) s op (cache_step c op).2 s'
        ∧ lru_rel (cache_step c op).1 s'.
Proof.
  intros [l Hs] Hcap. destruct op as [k now|k now|k r ttl neg now|k|]; cbn [cache_step].
  - destruct (cache_get_refines c s l k now Hs) as (s' & ? & ?). exists s'.
    by destruct (cache_get k now c).
  - exists s. split; [|by exists l]. cbn. unfold cache_peek. rewrite (stamping_lookup c s l k Hs).
    pose proof (LruPeek (cc_max_capacity c) (cc_positive_ttl c) (cc_negative_ttl c) s k now) as Hp.
    unfold lru_found in Hp. by destruct (lru_map s !! k) as [[e t]|].
  - destruct (cache_put_refines c s l k r ttl neg now Hs Hcap) as (s' & ? & ?). by exists s'.
  - eexists. split.
    + pose proof (LruEvict (cc_max_capacity c) (cc_positive_ttl c) (cc_negative_ttl c) s k) as Hp.
      unfold cache_evict, dmem. rewrite (stamping_lookup c s l k Hs).
      rewrite (bool_decide_ext _ _ (fmap_is_Some fst (lru_map s !! k))).
      case_bool_decide; exact Hp.
    + unfold cache_evict. destruct (dmem k (cc_entries c)) eqn:Hm; cbn.
      * exists (dpop k l). by eapply stamping_pop.
      * apply dmem_false in Hm. rewrite (stamping_lookup c s l k Hs) in Hm. apply fmap_None in Hm.
        exists l. rewrite delete_id by done. by destruct s.
  - exists (lru_empty (lru_clock s)). split; [constructor|]. exists []. cbn. split; cbn; try done; constructor.
Qed.

(** ** Bounds *)

Lemma dlen_app {K V} (d1 d2 : dict K V) : dlen (d1 ++ d2)%list = dlen d1 + dlen d2.
Proof. unfold dlen. rewrite List.length_app. lia. Qed.

Lemma new_cache_bounds cap pos neg : cache_bounds (new_CandidateCache cap pos neg).
Proof. split; cbn; [lia|unfold dlen; cbn; lia|constructor]. Qed.

Lemma cache_step_bounds c op :
  cache_bounds c → cache_bounds (cache_step c op).1 ∧ cc_max_capacity (cache_step c op).1 = cc_max_capacity c.
Proof.
  intros [Hc Hz Hr]. destruct op as [k now|k now|k r ttl neg now|k|]; cbn [cache_step].
  - unfold cache_get. destruct (dget k (cc_entries c)) as [e|] eqn:E; cbn; (split; [split|]); cbn; try done.
    + unfold move_to_end. rewrite dlen_app, dpop_len. unfold dlen at 2. cbn [length].
      rewrite decide_False by congruence. lia.
    + apply Forall_app. split; [by apply dpop_Forall|]. apply dget_In in E.
      constructor; [|constructor]. exact (proj1 (Forall_forall _ _) Hr _ E).
  - done.
  - unfold cache_put. destruct (budget_result r) eqn:Hb; [done|].
    match goal with |- context [dset k ?x _] => set (e := x) end. cbn.
    destruct (dmem k (cc_entries c)) eqn:Hm; [|destruct (Z.leb_spec (cc_max_capacity c) (dlen (cc_entries c)))];
      (split; [split|]); cbn; try done.
    + apply dmem_true in Hm as [e' He']. rewrite dset_len, dpop_len, decide_False by congruence.
      case_decide; lia.
    + apply dset_Forall; [by apply dpop_Forall|done].
    + rewrite dset_len. destruct (cc_entries c) as [|x d]; unfold dlen in *; cbn [List.tl length] in *; case_decide; lia.
    + apply dset_Forall; [|done]. destruct Hr; [constructor|done].
    + rewrite dset_len. case_decide; lia.
    + by apply dset_Forall.
  - unfold cache_evict. destruct (dmem k (cc_entries c)) eqn:Hm; cbn; (split; [split|]); cbn; try done.
    + rewrite dpop_len. case_decide; lia.
    + by apply dpop_Forall.
  - cbn. split; [split|]; cbn; try done. unfold dlen. cbn. lia.
Qed.

Lemma cache_step_ttl c op :
  cc_positive_ttl (cache_step c op).1 = cc_positive_ttl c ∧
  cc_negative_ttl (cache_step c op).1 = cc_negative_ttl c.
Proof.
  destruct op as [k now|k now|k r ttl neg now|k|]; cbn [cache_step]; try done.
  - unfold cache_get. by destruct (dget k (cc_entries c)).
  - unfold cache_put. by destruct (budget_result r), (dmem k (cc_entries c)), (cc_max_capacity c <=? dlen (cc_entries c)).
  - unfold cache_evict. by destruct (dmem k (cc_entries c)).
Qed.

Lemma cache_run_refines ops : ∀ c s,
  lru_rel c s → cache_bounds c →
  cache_bounds (cache_run c ops).1 ∧
  ∃ s', lru_run (cc_max_capacity c) (cc_positive_ttl c) (cc_negative_ttl c) s ops (cache_run c ops).2 s' ∧
        lru_rel (cache_run c ops).1 s'.
Proof.
  induction ops as [|op ops IH]; intros c s Hrel Hb; cbn.
  { split; [done|]. exists s. split; [constructor|done]. }
  destruct (cache_step_refines c s op Hrel (cb_capacity c Hb)) as (s1 & Hstep & Hrel1).
  destruct (cache_step_bounds c op Hb) as [Hb1 Hcap], (cache_step_ttl c op) as [Hp Hn].
  destruct (cache_step c op) as [c1 a]. cbn in *.
  destruct (IH c1 s1 Hrel1 Hb1) as [Hb2 (s2 & Hrun & Hrel2)].
  destruct (cache_run c1 ops) as [c2 l]. cbn in *. split; [done|]. exists s2. split; [|done].
  rewrite Hcap, Hp, Hn in Hrun. by econstructor.
Qed.

(** C39: whatever calls are made on a new cache, it answers as the least-recently-
    used specification does (a map stamped with logical times that drops the
    entry with the least stamp when full), holds at most its capacity, and never
    stores the result of an exhausted budget. *)
Theorem cache_refines_lru cap pos neg ops :
  let '(c, answers) := cache_run (new_CandidateCache cap pos neg) ops in
  (∃ s, lru_run (Z.max 1 cap) pos neg (lru_empty 0) ops answers s ∧
        (∀ k, dget k (cc_entries c) = fst <$> lru_map s !! k)) ∧
  cache_len c ≤ Z.max 1 cap ∧
  Forall (λ x, budget_result (ce_result (snd x)) = false) (cc_entries c).
Proof.
  pose proof (new_cache_bounds cap pos neg) as Hb.
  destruct (cache_run_refines ops (new_CandidateCache cap pos neg) (lru_empty 0)) as [Hb' (s & Hrun & l & Hl)];
    [|done|].
  { exists []. split; cbn; try done; constructor. }
  assert (cc_max_capacity (cache_run (new_CandidateCache cap pos neg) ops).1 = Z.max 1 cap) as Hcap.
  { generalize (new_CandidateCache cap pos neg), Hb, (eq_refl : cc_max_capacity (new_CandidateCache cap pos neg) = Z.max 1 cap).
    clear. induction ops as [|op ops IH]; intros c Hb E; cbn; [done|].
    destruct (cache_step_bounds c op Hb) as [Hb1 E1]. destruct (cache_step c op) as [c1 a]. cbn in *.
    specialize (IH c1 Hb1). destruct (cache_run c1 ops). cbn in *. rewrite IH; congruence. }
  destruct (cache_run _ ops) as [c answers]. cbn in *. split_and!.
  - exists s. split; [done|]. intros k. by apply (stamping_lookup c s l).
  - unfold cache_len. destruct Hb'. lia.
  - apply Hb'.
Qed.
