(* ===== verification/Scheduler.v ===== *)
(** * Scheduler: the query budget, and query scheduling and resolution

    services/compose/budget.py, the two-level budget of candidate queries.
    Instants and durations, floating-point seconds in the source, are whole
    microseconds; [now] is explicit.  A network operation that overruns the
    byte limit raises {e after} it was counted, so [record_network_op] is a
    computation that keeps its effect.

    [CandidateQueryScheduler.schedule_and_resolve] of
    services/compose/scheduler.py: a first pass resolves every service that
    needs no registry query, the others are grouped by lookup key, the keys are
    ordered by priority, each key is answered from the cache or by one query
    inside the budget, and the answers are projected back to the services.

    The registry query is the [query_fn] the source is constructed with: a
    parameter that may change the budget and may raise (with its message).  The
    monotonic clock is a parameter [clock], read once for every reading of the
    source; the number of readings is part of the state. *)

From S2P Require Import Prelude PyStr PyText PyDict Models ImageRef ComposeModel CandidateCache.
From Stdlib Require Import Ascii String ZArith Lia.
From stdpp Require Import base strings pretty list gmap.

Local Open Scope string_scope.
Local Open Scope Z_scope.
Local Open Scope aipm_scope.

Definition DEFAULT_MAX_LOGICAL_LOOKUPS : Z := 25.
Definition DEFAULT_MAX_NETWORK_OPS : Z := 50.
Definition DEFAULT_TOTAL_DEADLINE : Z := 8000000.
Definition DEFAULT_MAX_RESPONSE_BYTES : Z := 1024 * 1024.
Definition DEFAULT_MAX_AGGREGATE_BYTES : Z := 10 * 1024 * 1024.

Record TwoLevelBudget := {
  tb_max_logical_lookups : Z;
  tb_max_network_ops : Z;
  tb_total_deadline : Z;
  tb_max_response_bytes : Z;
  tb_max_aggregate_bytes : Z;
  tb_logical_lookups_performed : Z;
  tb_network_ops_performed : Z;
  tb_aggregate_bytes_received : Z;
  tb_start_monotonic : Z;
}.

(** [TwoLevelBudget()] at [now]: the start time is filled in when it is zero. *)
Definition default_budget (now : Z) : TwoLevelBudget :=
  {| tb_max_logical_lookups := DEFAULT_MAX_LOGICAL_LOOKUPS;
     tb_max_network_ops := DEFAULT_MAX_NETWORK_OPS;
     tb_total_deadline := DEFAULT_TOTAL_DEADLINE;
     tb_max_response_bytes := DEFAULT_MAX_RESPONSE_BYTES;
     tb_max_aggregate_bytes := DEFAULT_MAX_AGGREGATE_BYTES;
     tb_logical_lookups_performed := 0; tb_network_ops_performed := 0;
     tb_aggregate_bytes_received := 0; tb_start_monotonic := now |}.

Definition with_counts (b : TwoLevelBudget) (logical network bytes : Z) : TwoLevelBudget :=
  {| tb_max_logical_lookups := tb_max_logical_lookups b; tb_max_network_ops := tb_max_network_ops b;
     tb_total_deadline := tb_total_deadline b; tb_max_response_bytes := tb_max_response_bytes b;
     tb_max_aggregate_bytes := tb_max_aggregate_bytes b;
     tb_logical_lookups_performed := logical; tb_network_ops_performed := network;
     tb_aggregate_bytes_received := bytes; tb_start_monotonic := tb_start_monotonic b |}.

Definition deadline_monotonic (b : TwoLevelBudget) : Z := tb_start_monotonic b + tb_total_deadline b.
Definition remaining_time (b : TwoLevelBudget) (now : Z) : Z := Z.max 0 (deadline_monotonic b - now).

(** ** Text of a duration *)

(** The last decimals without trailing zeros, at least one digit. *)
Fixpoint trim_zeros (s : string) : string :=
  match s with
  | EmptyString => EmptyString
  | String c s' =>
      match trim_zeros s' with
      | EmptyString => if Ascii.eqb c "0" then EmptyString else String c EmptyString
      | t => String c t
      end
  end.
(** [str(seconds)] of a float of at least 1e-4 seconds. *)
Definition str_seconds (us : Z) : string :=
  let frac := trim_zeros (PyTime.pad 6 (us mod 1000000)) in
  pretty (us / 1000000) ++ "." ++ (if str_eqb frac "" then "0" else frac).

Example str_seconds_8 : str_seconds 8000000 = "8.0".
Proof. reflexivity. Qed.
Example str_seconds_quarter : str_seconds 250000 = "0.25".
Proof. reflexivity. Qed.

(** ** Checks *)

Definition denied (reason : ServiceCandidateReason) (text : string)
  : bool * option ServiceCandidateReason * option string := (false, Some reason, Some text).
Definition permitted : bool * option ServiceCandidateReason * option string := (true, None, None).

Definition timed_out (b : TwoLevelBudget) :=
  denied RS_REGISTRY_TIMEOUT
    ("Registry request timed out: operation deadline (" ++ str_seconds (tb_total_deadline b) ++ "s) exceeded").
Definition network_exhausted (b : TwoLevelBudget) :=
  denied RS_NETWORK_BUDGET_EXHAUSTED
    ("Physical network operations budget reached (" ++ pretty (tb_max_network_ops b) ++ ")").

Definition check_logical_lookup (b : TwoLevelBudget) (now : Z)
  : bool * option ServiceCandidateReason * option string :=
  if deadline_monotonic b <=? now then timed_out b
  else if tb_max_logical_lookups b <=? tb_logical_lookups_performed b then
    denied RS_BUDGET_EXHAUSTED
      ("Logical candidate lookup budget reached (" ++ pretty (tb_max_logical_lookups b) ++ ")")
  else if tb_max_network_ops b <=? tb_network_ops_performed b then network_exhausted b
  else permitted.

Definition check_network_op (b : TwoLevelBudget) (now : Z)
  : bool * option ServiceCandidateReason * option string :=
  if deadline_monotonic b <=? now then timed_out b
  else if tb_max_network_ops b <=? tb_network_ops_performed b then network_exhausted b
  else permitted.

Definition record_logical_lookup (b : TwoLevelBudget) : TwoLevelBudget :=
  with_counts b (tb_logical_lookups_performed b + 1) (tb_network_ops_performed b)
    (tb_aggregate_bytes_received b).

Definition record_network_op (bytes_received : Z) : M TwoLevelBudget unit := λ b,
  let b' := with_counts b (tb_logical_lookups_performed b) (tb_network_ops_performed b + 1)
              (tb_aggregate_bytes_received b + bytes_received) in
  (b', raise_unless (tb_aggregate_bytes_received b' <=? tb_max_aggregate_bytes b) ValueError).

(** ** What the checks promise *)

Lemma check_logical_lookup_iff b now :
  (check_logical_lookup b now).1.1 = true ↔
  now < deadline_monotonic b ∧ tb_logical_lookups_performed b < tb_max_logical_lookups b ∧
  tb_network_ops_performed b < tb_max_network_ops b.
Proof.
  unfold check_logical_lookup, timed_out, network_exhausted, denied, permitted.
  destruct (Z.leb_spec (deadline_monotonic b) now); [split; [done|lia]|].
  destruct (Z.leb_spec (tb_max_logical_lookups b) (tb_logical_lookups_performed b)); [split; [done|lia]|].
  destruct (Z.leb_spec (tb_max_network_ops b) (tb_network_ops_performed b)); split; done || lia.
Qed.

Lemma check_logical_lookup_answer b now :
  check_logical_lookup b now = permitted ∨
  ∃ reason text, check_logical_lookup b now = denied reason text ∧
    (reason = RS_REGISTRY_TIMEOUT ∨ reason = RS_BUDGET_EXHAUSTED ∨ reason = RS_NETWORK_BUDGET_EXHAUSTED).
Proof.
  unfold check_logical_lookup, timed_out, network_exhausted.
  repeat case_match; first [by left|right; eexists _, _; split; [reflexivity|tauto]].
Qed.

(** ** A client that checks before it records *)

(** One network operation of a disciplined client: [None] when it was not
    permitted. *)
Definition guarded_network_op (now bytes : Z) (b : TwoLevelBudget)
  : TwoLevelBudget * option (result unit) :=
  if (check_network_op b now).1.1
  then let '(b', r) := record_network_op bytes b in (b', Some r)
  else (b, None).

(** A client stops at the first operation that raised. *)
Fixpoint network_run (ops : list (Z * Z)) (b : TwoLevelBudget) : TwoLevelBudget * nat :=
  match ops with
  | [] => (b, O)
  | (now, bytes) :: ops' =>
      match guarded_network_op now bytes b with
      | (b', None) => network_run ops' b'
      | (b', Some (Raise _)) => (b', 1%nat)
      | (b', Some (Ok _)) => let '(b'', n) := network_run ops' b' in (b'', S n)
      end
  end.

Definition responses_bounded (limit : Z) (ops : list (Z * Z)) : Prop :=
  Forall (λ op, 0 ≤ snd op ≤ limit) ops.

Lemma network_run_spec ops : ∀ b b' n limit,
  responses_bounded limit ops → network_run ops b = (b', n) →
  tb_network_ops_performed b ≤ tb_max_network_ops b →
  tb_aggregate_bytes_received b ≤ tb_max_aggregate_bytes b →
  tb_network_ops_performed b' = tb_network_ops_performed b + Z.of_nat n ∧
  tb_network_ops_performed b' ≤ tb_max_network_ops b ∧
  (0 < limit → tb_aggregate_bytes_received b' ≤ tb_max_aggregate_bytes b + limit) ∧
  tb_logical_lookups_performed b' = tb_logical_lookups_performed b.
Proof.
  induction ops as [|[now bytes] ops IH]; intros b b' n limit Hall H Hops Hbytes; cbn in H.
  { injection H as <- <-. split_and!; lia. }
  apply Forall_cons in Hall as [Hone Hall]. cbn in Hone. unfold guarded_network_op in H.
  unfold check_network_op, timed_out, network_exhausted, denied, permitted in H.
  destruct (Z.leb_spec (deadline_monotonic b) now); cbn in H; [by eapply IH|].
  destruct (Z.leb_spec (tb_max_network_ops b) (tb_network_ops_performed b)); cbn in H; [by eapply IH|].
  unfold raise_unless in H.
  destruct (Z.leb_spec (tb_aggregate_bytes_received b + bytes) (tb_max_aggregate_bytes b)).
  - destruct (network_run ops _) as [b2 n2] eqn:E. injection H as <- <-.
    eapply (IH _ _ _ limit) in E; [|done|cbn; lia|cbn; lia]. cbn in E. lia.
  - injection H as <- <-. cbn. lia.
Qed.

(** A client that asks [check_network_op] before every operation and stops
    at the first error performs at most the permitted number of operations, and
    overruns the aggregate byte limit by at most one response. *)
Lemma network_budget_bounds ops now limit :
  responses_bounded limit ops → 0 < limit →
  let '(b, n) := network_run ops (default_budget now) in
  Z.of_nat n ≤ DEFAULT_MAX_NETWORK_OPS ∧ tb_network_ops_performed b = Z.of_nat n ∧
  tb_aggregate_bytes_received b ≤ DEFAULT_MAX_AGGREGATE_BYTES + limit.
Proof.
  intros Hall Hl. destruct (network_run ops (default_budget now)) as [b n] eqn:E.
  eapply network_run_spec in E; [|done|by cbv|by cbv]. cbn in E. unfold DEFAULT_MAX_NETWORK_OPS.
  destruct E as (E1 & E2 & E3 & _). split_and!; [unfold DEFAULT_MAX_NETWORK_OPS in *; lia|lia|auto].
Qed.

Record ServiceCandidateResolution := {
  sr_service_name : string;
  sr_candidate_key : option CandidateLookupKey;
  sr_candidate_digest : option string;
  sr_candidate_child_digest : option string;
  sr_candidate_status : ServiceCandidateStatus;
  sr_candidate_reason : ServiceCandidateReason;
  sr_candidate_detail : option string;
  sr_scheduling_state : string;
}.
#[export] Instance ServiceCandidateResolution_eq_dec : EqDecision ServiceCandidateResolution.
Proof. solve_decision. Defined.

(** The two entries of [service_runtime_metadata] that are read. *)
Record RuntimeMetadata := {
  rm_running_img : option string;
  rm_running_repo_digests : list string;
}.
Definition no_metadata : RuntimeMetadata :=
  {| rm_running_img := None; rm_running_repo_digests := [] |}.

Definition resolution name key digest child status reason detail state : ServiceCandidateResolution :=
  {| sr_service_name := name; sr_candidate_key := key; sr_candidate_digest := digest;
     sr_candidate_child_digest := child; sr_candidate_status := status;
     sr_candidate_reason := reason; sr_candidate_detail := Some detail;
     sr_scheduling_state := state |}.

(** ** First pass: services that need no query *)

Section classify.
Context {Container : Type}.
Variable target_arch target_os : string.
Variable declared_services : dict string DeclaredServiceConfig.
Variable containers_by_service : dict string (list Container).
(** [resolved_active_profiles], in sorted order. *)
Variable active_profiles : list string.
Variable service_runtime_metadata : dict string RuntimeMetadata.
Variable query_registries : bool.

Definition containers_of (name : string) : list Container :=
  default [] (dget name containers_by_service).
Definition metadata_of (name : string) : RuntimeMetadata :=
  default no_metadata (dget name service_runtime_metadata).

Definition key_of (r : ImageReference) : CandidateLookupKey := from_image_ref r target_arch target_os.

(** The digests a running container is known by. *)
Definition digest_of_repo (rd : string) : list string :=
  match split_first "@" rd with
  | Some (_, d) => [d]
  | None => if has_char ":" rd then [rd] else []
  end.
Definition known_running_digests (m : RuntimeMetadata) : list string :=
  (List.flat_map digest_of_repo (rm_running_repo_digests m) ++
   match rm_running_img m with
   | Some img => match split_first "@" img with Some (_, d) => [d] | None => [] end
   | None => []
   end)%list.

Definition pinned_digest_of (r : option ImageReference) : option string :=
  match r with
  | Some r => if ir_is_pinned_by_digest r then ir_digest r else None
  | None => None
  end.

(** A pinned service: compare the declared digest with the running ones. *)
Definition classify_pinned (name : string) (r : ImageReference) (m : RuntimeMetadata)
  : ServiceCandidateResolution :=
  let pinned := default "None" (ir_digest r) in
  let known := known_running_digests m in
  if bool_decide (known = []) then
    resolution name None (ir_digest r) None ST_UNKNOWN RS_DIGEST_UNAVAILABLE
      ("Running container has no verifiable image digest evidence to compare against declared pinned digest "
       ++ pinned) "skipped_pinned"
  else if bool_decide (ir_digest r ∈ (Some <$> known)) then
    resolution name None (ir_digest r) None ST_CURRENT RS_PINNED_BY_DIGEST
      ("Running container matches declared immutable digest " ++ pinned) "skipped_pinned"
  else
    resolution name None (ir_digest r) None ST_DRIFT RS_CONFIGURATION_DRIFT
      ("Running image digest(s) " ++ repr_list (sorted_list (deduplicate known))
       ++ " drift from declared immutable digest '" ++ pinned ++ "'") "skipped_pinned".

(** Does the running image drift from the declared one? *)
Definition is_drift (running_img : string) (declared : ImageReference) : bool :=
  match parse_image_reference running_img false with
  | Raise _ => false
  | Ok running =>
      if negb (str_eqb (ir_repository running) (ir_repository declared)) then true
      else truthy (ir_tag running) && truthy (ir_tag declared) &&
           negb (bool_decide (ir_tag running = ir_tag declared))
  end.

Definition disabled_resolution (name : string) (r : ImageReference) : ServiceCandidateResolution :=
  resolution name (Some (key_of r)) None None ST_UNKNOWN RS_REGISTRY_UNAVAILABLE
    "Registry queries disabled" "skipped_disabled".

Definition malformed (name detail : string) : ServiceCandidateResolution :=
  resolution name None None None ST_UNKNOWN RS_MALFORMED_IMAGE_REFERENCE detail "skipped_malformed".

Definition active_text : string :=
  if bool_decide (active_profiles = []) then "none" else repr_list active_profiles.

(** A resolution, or the key and reference to look up. *)
Definition classify (name : string)
  : result (ServiceCandidateResolution + (CandidateLookupKey * ImageReference)) :=
  let declared := dget name declared_services in
  let m := metadata_of name in
  let running_img := rm_running_img m in
  let declared_img := declared ≫= dc_image in
  let declared_ref := declared ≫= dc_image_ref in
  let is_build := from_option dc_is_build false declared in
  let profiles := from_option dc_profiles [] declared in
  let profile_inactive := negb (bool_decide (profiles = [])) &&
    negb (List.existsb (λ p, bool_decide (p ∈ active_profiles)) profiles) in
  if bool_decide (length (containers_of name) = 0%nat) then
    Ok (inl (
      if profile_inactive then
        resolution name None (pinned_digest_of declared_ref) None ST_NOT_APPLICABLE RS_DISABLED_BY_PROFILE
          ("Service is inactive under current profiles (service profiles: " ++ repr_list profiles
           ++ ", active profiles: " ++ active_text ++ ")") "skipped_profile"
      else
        resolution name None (pinned_digest_of declared_ref) None ST_NOT_APPLICABLE RS_NO_RUNNING_CONTAINER
          "No running container for service" "skipped_no_container"))
  else match declared with
  | None =>
      Ok (inl (malformed name
        ("Running container belongs to undeclared Compose service '" ++ name ++ "' (unmatched service)")))
  | Some dc =>
      if is_build && match declared_ref with None => true | Some r => ir_is_local_build r end then
        Ok (inl (resolution name None None None ST_NOT_APPLICABLE RS_LOCAL_BUILD
          ("Registry comparison not applicable: service is built from local context ("
           ++ (if truthy (dc_build_context dc) then default "" (dc_build_context dc) else ".") ++ ")")
          "skipped_local_build"))
      else if truthy (dc_parse_error dc) && negb is_build then
        Ok (inl (malformed name
          ("Declared service '" ++ name ++ "' configuration cannot be safely resolved: "
           ++ default "" (dc_parse_error dc) ++ "; failing closed")))
      else if truthy declared_img && bool_decide (declared_ref = None) && negb is_build then
        Ok (inl (malformed name
          ("Declared image expression '" ++ default "" declared_img
           ++ "' cannot be safely resolved (unresolved interpolation or invalid syntax); failing closed")))
      else if negb (truthy declared_img) && negb is_build then
        Ok (inl (malformed name "Service specifies neither image nor build configuration; failing closed"))
      else match declared_ref with
      | None => Raise AttributeError
      | Some r =>
          if ir_is_pinned_by_digest r then Ok (inl (classify_pinned name r m))
          else if truthy running_img && negb (bool_decide (running_img = Some "<none>")) && negb is_build then
            if is_drift (default "" running_img) r then
              Ok (inl (resolution name (Some (key_of r)) None None ST_DRIFT RS_CONFIGURATION_DRIFT
                ("Running image '" ++ default "" running_img
                 ++ "' drifts from declared Compose configuration '" ++ default "" declared_img ++ "'")
                "skipped_drift"))
            else if negb query_registries then Ok (inl (disabled_resolution name r))
            else Ok (inr (key_of r, r))
          else if negb query_registries then Ok (inl (disabled_resolution name r))
          else Ok (inr (key_of r, r))
      end
  end.

Notation resolutions := (dict string ServiceCandidateResolution).
Notation pending := (dict CandidateLookupKey (list (string * ImageReference))).

(** [key_to_services.setdefault(key, []).append((name, ref))] *)
Definition enqueue (k : CandidateLookupKey) (item : string * ImageReference) (p : pending) : pending :=
  dset k (default [] (dget k p) ++ [item])%list p.

Fixpoint first_pass (names : list string) (acc : resolutions * pending) : result (resolutions * pending) :=
  match names with
  | [] => Ok acc
  | name :: names' =>
      let* c := classify name in
      first_pass names'
        match c with
        | inl r => (dset name r (fst acc), snd acc)
        | inr (k, ref) => (fst acc, enqueue k (name, ref) (snd acc))
        end
  end.

(** ** Priorities *)

(** The tier of a key, given what the cache holds for it. *)
Definition tier (cached : option (RegistryCandidateResult * CandidateCacheFreshness))
    (services : list (string * ImageReference)) : Z :=
  if match cached with Some (_, FRESH) => true | _ => false end then 0
  else if List.existsb (λ s, negb (bool_decide (rm_running_repo_digests (metadata_of (fst s)) = []))) services
  then 1
  else if List.existsb (λ s, negb (bool_decide (length (containers_of (fst s)) = 0%nat))) services then 2
  else if bool_decide (cached ≠ None) then 3 else 4.

(** The order of [(tier, canonical_str)] pairs. *)
Definition prio_leb (a b : Z * string) : bool :=
  (fst a <? fst b) || ((fst a =? fst b) && String.leb (snd a) (snd b)).
Fixpoint insert_prio (x : (Z * string) * CandidateLookupKey) (l : list ((Z * string) * CandidateLookupKey))
  : list ((Z * string) * CandidateLookupKey) :=
  match l with
  | [] => [x]
  | y :: l' => if prio_leb (fst x) (fst y) then x :: l else y :: insert_prio x l'
  end.
Definition sort_prio (l : list ((Z * string) * CandidateLookupKey)) : list ((Z * string) * CandidateLookupKey) :=
  foldr insert_prio [] l.

(** ** Queries *)

Record schedule_state := {
  ss_cache : CandidateCache;
  ss_budget : TwoLevelBudget;
  ss_readings : nat;
}.

Variable clock : nat → Z.
(** The configured query: a result, or the message of the exception. *)
Variable query_fn : option (ImageReference → TwoLevelBudget → TwoLevelBudget * (RegistryCandidateResult + string)).

Notation S := (M schedule_state).

(** [time.monotonic()] *)
Definition monotonic : S Z := λ s,
  ({| ss_cache := ss_cache s; ss_budget := ss_budget s; ss_readings := (ss_readings s + 1)%nat |},
   Ok (clock (ss_readings s))).
Definition set_cache (c : CandidateCache) : S unit := λ s,
  ({| ss_cache := c; ss_budget := ss_budget s; ss_readings := ss_readings s |}, Ok ()).
Definition set_budget (b : TwoLevelBudget) : S unit := λ s,
  ({| ss_cache := ss_cache s; ss_budget := b; ss_readings := ss_readings s |}, Ok ()).

Fixpoint priorities (p : pending) : S (list ((Z * string) * CandidateLookupKey)) :=
  match p with
  | [] => retM []
  | (k, services) :: p' =>
      do now <- monotonic;;
      do s <- getM;;
      let t := tier (cache_peek k now (ss_cache s)) services in
      do rest <- priorities p';;
      retM (((t, canonical_str k), k) :: rest)
  end.

Definition unavailable (detail : string) : RegistryCandidateResult :=
  {| rc_status := ST_UNKNOWN; rc_reason := RS_REGISTRY_UNAVAILABLE; rc_index_digest := None;
     rc_child_digest := None; rc_detail := Some detail |}.

Definition is_negative_result (r : RegistryCandidateResult) : bool :=
  bool_decide (rc_status r = ST_UNKNOWN) &&
  (bool_decide (rc_reason r = RS_REGISTRY_UNAVAILABLE) || bool_decide (rc_reason r = RS_REGISTRY_TIMEOUT)).

Definition put_now (k : CandidateLookupKey) (r : RegistryCandidateResult) (neg : bool) : S unit :=
  do now <- monotonic;;
  do s <- getM;;
  set_cache (cache_put k r None neg now (ss_cache s)).

(** The query of one key, once the budget allowed it. *)
Definition query_key (k : CandidateLookupKey) (ref : ImageReference)
  : S (RegistryCandidateResult * string) :=
  do s <- getM;;
  do_ set_budget (record_logical_lookup (ss_budget s));;
  do s <- getM;;
  match query_fn with
  | Some q =>
      let '(b, answer) := q ref (ss_budget s) in
      do_ set_budget b;;
      match answer with
      | inl res =>
          do_ (if negb (budget_result res) then put_now k res (is_negative_result res) else retM ());;
          retM (res, "queried")
      | inr message =>
          let res := unavailable ("Registry query error: " ++ message) in
          do_ put_now k res true;;
          retM (res, "queried_error")
      end
  | None => retM (unavailable "No registry query provider configured", "unconfigured")
  end.

(** The lookup of one key: fresh cache, budget, query. *)
Definition lookup_key (k : CandidateLookupKey) (ref : ImageReference)
  : S (RegistryCandidateResult * string) :=
  do now <- monotonic;;
  do s <- getM;;
  let '(cache', cached) := cache_get k now (ss_cache s) in
  do_ set_cache cache';;
  match cached with
  | Some (res, FRESH) => retM (res, "cache_hit_fresh")
  | _ =>
      do now <- monotonic;;
      do s <- getM;;
      match check_logical_lookup (ss_budget s) now with
      | (true, _, _) => query_key k ref
      | (false, reason, detail) =>
          retM ({| rc_status := ST_UNKNOWN; rc_reason := default RS_BUDGET_EXHAUSTED reason;
                   rc_index_digest := None; rc_child_digest := None;
                   rc_detail := Some (if truthy detail then default "" detail else "Query budget exhausted") |},
                if bool_decide (reason = Some RS_REGISTRY_TIMEOUT) then "timeout" else "budget_exhausted")
      end
  end.

Fixpoint lookup_keys (keys : list CandidateLookupKey) (p : pending)
  : S (list (CandidateLookupKey * (RegistryCandidateResult * string))) :=
  match keys with
  | [] => retM []
  | k :: keys' =>
      match dget k p with
      | Some ((_, ref) :: _) =>
          do res <- lookup_key k ref;;
          do rest <- lookup_keys keys' p;;
          retM ((k, res) :: rest)
      | _ => raiseM KeyError
      end
  end.

(** ** Projection *)

(** Does a running digest name this candidate digest? *)
Definition names_digest (rd : string) (d : option string) : bool :=
  truthy d && (ends_with ("@" ++ default "" d) rd || str_eqb rd (default "" d)).
Definition digest_matches (res : RegistryCandidateResult) (digests : list string) : bool :=
  List.existsb (λ rd, names_digest rd (rc_index_digest res) || names_digest rd (rc_child_digest res)) digests.

(** [a or b] of optional strings. *)
Definition first_truthy (a b : option string) : option string := if truthy a then a else b.

Definition project (k : CandidateLookupKey) (res : RegistryCandidateResult) (state : string) (idx : nat)
    (name : string) : ServiceCandidateResolution :=
  let digests := rm_running_repo_digests (metadata_of name) in
  let cand := first_truthy (rc_index_digest res) (rc_child_digest res) in
  let child := rc_child_digest res in
  let state := match idx with O => state | _ => "deduplicated (" ++ state ++ ")" end in
  let detail := if truthy (rc_detail res) then default "" (rc_detail res) else "" in
  if truthy (rc_index_digest res) || truthy (rc_child_digest res) then
    if bool_decide (digests = []) then
      resolution name (Some k) cand child ST_UNKNOWN RS_DIGEST_UNAVAILABLE
        "Running container has no RepoDigests to compare against registry candidate" state
    else if digest_matches res digests then
      resolution name (Some k) cand child ST_CURRENT RS_UP_TO_DATE
        (strip ("Running digest matches registry candidate (" ++ detail ++ ")")) state
    else
      resolution name (Some k) cand child ST_UPDATE_AVAILABLE RS_CANDIDATE_DIGEST_DIFFERS
        (strip ("Registry candidate digest differs from running image: "
                ++ str_take 19 (default "" cand) ++ "... (" ++ detail ++ ")")) state
  else
    {| sr_service_name := name; sr_candidate_key := Some k; sr_candidate_digest := None;
       sr_candidate_child_digest := None; sr_candidate_status := rc_status res;
       sr_candidate_reason := rc_reason res; sr_candidate_detail := rc_detail res;
       sr_scheduling_state := state |}.

Fixpoint project_services (k : CandidateLookupKey) (res : RegistryCandidateResult) (state : string) (idx : nat)
    (services : list (string * ImageReference)) (acc : resolutions) : resolutions :=
  match services with
  | [] => acc
  | (name, _) :: services' =>
      project_services k res state (idx + 1) services' (dset name (project k res state idx name) acc)
  end.

Fixpoint project_all (answers : list (CandidateLookupKey * (RegistryCandidateResult * string)))
    (p : pending) (acc : resolutions) : resolutions :=
  match answers with
  | [] => acc
  | (k, (res, state)) :: answers' =>
      project_all answers' p (project_services k res state 0 (default [] (dget k p)) acc)
  end.

(** [CandidateQueryScheduler.schedule_and_resolve] *)
Definition schedule_and_resolve (all_service_names : list string) : S resolutions :=
  do acc <- liftM (first_pass all_service_names ([], []));;
  let '(done_, p) := acc in
  if negb query_registries || bool_decide (length p = 0%nat) then retM done_
  else
    do prios <- priorities p;;
    do answers <- lookup_keys (List.map snd (sort_prio prios)) p;;
    retM (project_all answers p done_).

(** ** Totality of the first pass *)

Lemma classify_total name : ∃ c, classify name = Ok c.
Proof.
  unfold classify. case_bool_decide; [eauto|].
  destruct (dget name declared_services) as [dc|]; cbn; [|eauto].
  destruct (dc_image_ref dc) as [r|]; cbn.
  - rewrite andb_false_r. cbn. repeat case_match; eauto.
  - destruct (dc_is_build dc), (truthy (dc_image dc)), (truthy (dc_parse_error dc)); cbn; eauto.
Qed.

(** What the first pass has collected after the names [seen]. *)
Record collected (seen : list string) (acc : resolutions) (p : pending) : Prop := {
  cl_resolved : ∀ name r, dget name acc = Some r ↔ name ∈ seen ∧ classify name = Ok (inl r);
  cl_pending : ∀ k name ref,
    (name, ref) ∈ default [] (dget k p) ↔ name ∈ seen ∧ classify name = Ok (inr (k, ref));
  cl_wf : dwf p;
  cl_nonempty : ∀ k l, dget k p = Some l → l ≠ [];
}.

Lemma collected_nil : collected [] [] [].
Proof.
  split; try done.
  - intros name r. cbn. pose proof (not_elem_of_nil name). split; [done|tauto].
  - intros k name ref. cbn. pose proof (not_elem_of_nil name). pose proof (not_elem_of_nil (name, ref)). tauto.
  - constructor.
Qed.

Lemma collected_resolved seen acc p name r :
  collected seen acc p → classify name = Ok (inl r) →
  collected (seen ++ [name]) (dset name r acc) p.
Proof.
  intros [Hr Hp Hw Hn] Hc. split; [| |done|done].
  - intros name' r'. rewrite dget_set, elem_of_app, list_elem_of_singleton.
    case_decide as Hd; [subst name'|rewrite Hr; tauto]. split.
    + intros [= <-]. split; [by right|done].
    + intros [_ E]. congruence.
  - intros k name' ref. rewrite Hp, elem_of_app, list_elem_of_singleton. split.
    + intros [? ?]. split; [by left|done].
    + intros [[?|Hin] E]; [done|]. subst name'. congruence.
Qed.

Lemma enqueue_get k k' item p :
  default [] (dget k' (enqueue k item p)) =
  if decide (k' = k) then (default [] (dget k p) ++ [item])%list else default [] (dget k' p).
Proof. unfold enqueue. rewrite dget_set. by case_decide. Qed.

Lemma collected_pending seen acc p name k ref :
  collected seen acc p → classify name = Ok (inr (k, ref)) →
  collected (seen ++ [name]) acc (enqueue k (name, ref) p).
Proof.
  intros [Hr Hp Hw Hn] Hc. split.
  - intros name' r. rewrite Hr, elem_of_app, list_elem_of_singleton. split.
    + intros [? ?]. split; [by left|done].
    + intros [[?|Hin] E]; [done|]. subst name'. congruence.
  - intros k' name' ref'. rewrite enqueue_get, elem_of_app, list_elem_of_singleton.
    case_decide as Hk; [subst k'|].
    + rewrite elem_of_app, list_elem_of_singleton, Hp. split.
      * intros [[? ?]|[= -> ->]]; [by split; [left|]|by split; [right|]].
      * intros [[Hin|Hin] Hc']; [by left|]. right. subst name'. congruence.
    + rewrite Hp. split; [by intros [? ?]; split; [left|]|].
      intros [[?|Hin] Hc']; [done|]. subst name'. congruence.
  - by apply dset_wf.
  - intros k' l. unfold enqueue. rewrite dget_set. case_decide; [|apply Hn].
    intros [= <-]. by destruct (default [] (dget k p)).
Qed.

Lemma first_pass_collects names : ∀ seen acc p,
  collected seen acc p →
  ∃ acc' p', first_pass names (acc, p) = Ok (acc', p') ∧ collected (seen ++ names) acc' p'.
Proof.
  induction names as [|name names IH]; intros seen acc p Hc; cbn.
  { exists acc, p. by rewrite app_nil_r. }
  destruct (classify_total name) as [c Ec]. rewrite Ec. cbn [rbind].
  replace (seen ++ name :: names)%list with ((seen ++ [name]) ++ names)%list by by rewrite <- app_assoc.
  destruct c as [r|[k ref]]; apply IH; [by apply collected_resolved|by apply collected_pending].
Qed.

(** ** Lookups *)

(** A registry result that claims no freshness without a digest. *)
Definition honest (res : RegistryCandidateResult) : Prop :=
  truthy (rc_index_digest res) || truthy (rc_child_digest res) = true ∨
  (rc_status res ≠ ST_UPDATE_AVAILABLE ∧ rc_status res ≠ ST_CURRENT).
Definition cache_honest (c : CandidateCache) : Prop :=
  Forall (λ x, honest (ce_result (snd x))) (cc_entries c).

(** The query leaves the count of logical lookups to the scheduler. *)
Definition query_keeps_logical : Prop :=
  ∀ q ref b, query_fn = Some q →
    tb_logical_lookups_performed (q ref b).1 = tb_logical_lookups_performed b ∧
    tb_max_logical_lookups (q ref b).1 = tb_max_logical_lookups b.
Definition query_honest : Prop :=
  ∀ q ref b res, query_fn = Some q → (q ref b).2 = inl res → honest res.

(** How lookups move the state. *)
Record lookup_step (s s' : schedule_state) : Prop := {
  lk_max : query_keeps_logical →
    tb_max_logical_lookups (ss_budget s') = tb_max_logical_lookups (ss_budget s);
  lk_logical : query_keeps_logical →
    tb_logical_lookups_performed (ss_budget s) ≤ tb_logical_lookups_performed (ss_budget s') ≤
    Z.max (tb_logical_lookups_performed (ss_budget s)) (tb_max_logical_lookups (ss_budget s));
  lk_cache : query_honest → cache_honest (ss_cache s) → cache_honest (ss_cache s');
}.

Lemma lookup_step_refl s : lookup_step s s.
Proof. split; [done|lia|done]. Qed.
Lemma lookup_step_trans s1 s2 s3 : lookup_step s1 s2 → lookup_step s2 s3 → lookup_step s1 s3.
Proof.
  intros [A1 B1 C1] [A2 B2 C2]. split.
  - intros H. by rewrite (A2 H), (A1 H).
  - intros H. specialize (A1 H). specialize (B1 H). specialize (B2 H). lia.
  - auto.
Qed.

Lemma cache_get_honest k now c : cache_honest c → cache_honest (cache_get k now c).1.
Proof.
  unfold cache_get, cache_honest. destruct (dget k (cc_entries c)) as [e|] eqn:E; cbn; [|done].
  intros H. unfold move_to_end. apply Forall_app. split; [by apply dpop_Forall|].
  constructor; [|constructor]. apply dget_In in E. exact (proj1 (Forall_forall _ _) H _ E).
Qed.
Lemma cache_get_found_honest k now c res f :
  cache_honest c → (cache_get k now c).2 = Some (res, f) → honest res.
Proof.
  unfold cache_get, cache_honest. destruct (dget k (cc_entries c)) as [e|] eqn:E; cbn; [|done].
  intros H [= <- <-]. apply dget_In in E. exact (proj1 (Forall_forall _ _) H _ E).
Qed.
Lemma cache_put_honest k r ttl neg now c :
  honest r → cache_honest c → cache_honest (cache_put k r ttl neg now c).
Proof.
  unfold cache_put, cache_honest. intros Hr Hc. destruct (budget_result r); [done|].
  destruct (dmem k (cc_entries c)); [|destruct (_ <=? _)]; cbn; apply dset_Forall; try done.
  - by apply dpop_Forall.
  - destruct Hc; [constructor|done].
Qed.

Lemma unavailable_honest detail : honest (unavailable detail).
Proof. by right. Qed.

Lemma query_key_spec k ref s :
  tb_logical_lookups_performed (ss_budget s) < tb_max_logical_lookups (ss_budget s) →
  ∃ s' res state, query_key k ref s = (s', Ok (res, state)) ∧ lookup_step s s' ∧
    (query_honest → honest res).
Proof.
  intros Hroom. unfold query_key, bindM, getM, set_budget, retM. cbn [ss_budget ss_cache ss_readings].
  destruct query_fn as [q|] eqn:Eq.
  - destruct (q ref (record_logical_lookup (ss_budget s))) as [b [res|message]] eqn:Ea; cbn [ss_budget ss_cache ss_readings].
    + assert (query_honest → honest res) as Hh.
      { intros H. eapply (H q ref _ res Eq). by rewrite Ea. }
      destruct (negb (budget_result res)) eqn:Hb; eexists _, res, _; (split; [reflexivity|]);
        (split; [|done]); split; cbn; try (intros Hk; destruct (Hk q ref (record_logical_lookup (ss_budget s)) Eq) as [E1 E2];
          rewrite Ea in E1, E2; cbn in E1, E2; lia).
      * intros H ?. apply cache_put_honest; auto.
      * done.
    + eexists _, _, _. split; [reflexivity|]. split; [|intros; apply unavailable_honest].
      split; cbn; try (intros Hk; destruct (Hk q ref (record_logical_lookup (ss_budget s)) Eq) as [E1 E2];
          rewrite Ea in E1, E2; cbn in E1, E2; lia).
      intros H ?. apply cache_put_honest; [apply unavailable_honest|done].
  - eexists _, _, _. split; [reflexivity|]. split; [|intros; apply unavailable_honest].
    split; cbn; [done|lia|done].
Qed.

Lemma lookup_key_spec k ref s :
  ∃ s' res state, lookup_key k ref s = (s', Ok (res, state)) ∧ lookup_step s s' ∧
    (query_honest → cache_honest (ss_cache s) → honest res).
Proof.
  unfold lookup_key, monotonic, bindM, getM, set_cache, retM. cbn [ss_budget ss_cache ss_readings].
  destruct (cache_get k (clock (ss_readings s)) (ss_cache s)) as [c' cached] eqn:Eg.
  pose proof (cache_get_honest k (clock (ss_readings s)) (ss_cache s)) as Hc. rewrite Eg in Hc. cbn in Hc.
  assert (Hfresh : ∀ n, lookup_step s {| ss_cache := c'; ss_budget := ss_budget s; ss_readings := n |})
    by (intros n; split; cbn; [done|lia|auto]).
  assert (Hslow : ∀ n m, ∃ s' res state,
    match check_logical_lookup (ss_budget s) (clock n) with
    | (true, _, _) => query_key k ref
    | (false, reason, detail) => retM (
        {| rc_status := ST_UNKNOWN; rc_reason := default RS_BUDGET_EXHAUSTED reason;
           rc_index_digest := None; rc_child_digest := None;
           rc_detail := Some (if truthy detail then default "" detail else "Query budget exhausted") |},
        if bool_decide (reason = Some RS_REGISTRY_TIMEOUT) then "timeout" else "budget_exhausted")
    end {| ss_cache := c'; ss_budget := ss_budget s; ss_readings := m |} = (s', Ok (res, state)) ∧
    lookup_step s s' ∧ (query_honest → cache_honest (ss_cache s) → honest res)).
  { intros n m. pose proof (check_logical_lookup_iff (ss_budget s) (clock n)) as Hiff.
    destruct (check_logical_lookup (ss_budget s) (clock n)) as [[[] reason] detail]; cbn in Hiff.
    - destruct (query_key_spec k ref {| ss_cache := c'; ss_budget := ss_budget s; ss_readings := m |})
        as (s' & res & state & E & Hs & Hh); [cbn; tauto|].
      exists s', res, state. split; [done|]. split; [|auto]. eapply lookup_step_trans; [apply Hfresh|exact Hs].
    - eexists _, _, _. split; [reflexivity|]. split; [apply Hfresh|]. intros _ _. by right. }
  destruct cached as [[res []]|]; cbn [ss_budget ss_cache ss_readings].
  - eexists _, res, _. split; [reflexivity|]. split; [apply Hfresh|]. intros _ H.
    eapply cache_get_found_honest; [exact H|]. by rewrite Eg.
  - apply Hslow.
  - apply Hslow.
Qed.

(** ** The whole run *)

Lemma bindM_run {A B} (m : S A) (k : A → S B) s s' a :
  m s = (s', Ok a) → bindM m k s = k a s'.
Proof. unfold bindM. by intros ->. Qed.

Lemma insert_prio_perm x l : insert_prio x l ≡ₚ x :: l.
Proof.
  induction l as [|y l IH]; cbn; [done|]. destruct (prio_leb x.1 y.1); [done|]. rewrite IH. constructor.
Qed.
Lemma sort_prio_perm l : sort_prio l ≡ₚ l.
Proof. induction l as [|x l IH]; cbn; [done|]. by rewrite insert_prio_perm, IH. Qed.

Lemma priorities_spec p : ∀ s, ∃ s' l, priorities p s = (s', Ok l) ∧ List.map snd l = dkeys p ∧
  ss_cache s' = ss_cache s ∧ ss_budget s' = ss_budget s.
Proof.
  induction p as [|[k services] p IH]; intros s; cbn.
  { by exists s, []. }
  destruct (IH {| ss_cache := ss_cache s; ss_budget := ss_budget s; ss_readings := (ss_readings s + 1)%nat |})
    as (s' & l & El & E & Ec & Eb).
  rewrite (bindM_run _ _ _ _ _ El). unfold retM. eexists s', _. split; [reflexivity|]. cbn.
  unfold dkeys in E. by rewrite E.
Qed.

Lemma lookup_keys_spec p keys : ∀ s,
  (∀ k l, dget k p = Some l → l ≠ []) → (∀ k, k ∈ keys → is_Some (dget k p)) →
  ∃ s' answers, lookup_keys keys p s = (s', Ok answers) ∧ answers.*1 = keys ∧ lookup_step s s' ∧
    (query_honest → cache_honest (ss_cache s) → ∀ k res state, (k, (res, state)) ∈ answers → honest res).
Proof.
  induction keys as [|k keys IH]; intros s Hne Hin; cbn.
  { exists s, []. split_and!; [done|done|apply lookup_step_refl|].
    intros _ _ k res state H. by apply not_elem_of_nil in H. }
  destruct (Hin k) as [l El]; [by left|]. rewrite El. destruct l as [|[name ref] l]; [by apply Hne in El|].
  destruct (lookup_key_spec k ref s) as (s1 & res & state & E1 & Hs1 & Hh1).
  rewrite (bindM_run _ _ _ _ _ E1).
  destruct (IH s1 Hne) as (s2 & answers & E2 & Ea & Hs2 & Hh2); [intros; apply Hin; by right|].
  rewrite (bindM_run _ _ _ _ _ E2). unfold retM. exists s2, ((k, (res, state)) :: answers).
  split_and!; [done|cbn; by rewrite Ea|by eapply lookup_step_trans|].
  intros Hq Hc k' res' state' [H|H]%elem_of_cons; [injection H as -> -> ->; auto|].
  eapply Hh2; [done| |exact H]. by apply Hs1.
Qed.

Lemma project_services_get k res state services : ∀ idx acc name,
  (name ∈ services.*1 ∧ ∃ i, dget name (project_services k res state idx services acc)
                             = Some (project k res state i name)) ∨
  (name ∉ services.*1 ∧ dget name (project_services k res state idx services acc) = dget name acc).
Proof.
  induction services as [|[n ref] services IH]; intros idx acc name; cbn.
  { right. split; [apply not_elem_of_nil|done]. }
  destruct (IH (idx + 1)%nat (dset n (project k res state idx n) acc) name) as [[Hin [i E]]|[Hn E]].
  - left. split; [by right|by exists i].
  - rewrite dget_set in E. case_decide as Hd.
    + left. subst n. split; [by left|by exists idx].
    + right. split; [|done]. by intros [?|?]%elem_of_cons.
Qed.

Notation queued p k := ((default [] (dget k p)).*1).

Lemma project_all_get p answers : ∀ acc name,
  (∃ k res state i, (k, (res, state)) ∈ answers ∧ name ∈ queued p k ∧
     dget name (project_all answers p acc) = Some (project k res state i name)) ∨
  ((∀ k, k ∈ answers.*1 → name ∉ queued p k) ∧ dget name (project_all answers p acc) = dget name acc).
Proof.
  induction answers as [|[k [res state]] answers IH]; intros acc name; cbn.
  { right. split; [by intros k ?%not_elem_of_nil|done]. }
  destruct (IH (project_services k res state 0 (default [] (dget k p)) acc) name)
    as [(k' & res' & state' & i & Hin & Hq & E)|[Hn E]].
  - left. exists k', res', state', i. split; [by right|done].
  - destruct (project_services_get k res state (default [] (dget k p)) 0 acc name) as [[Hin [i Ei]]|[Hnot Ei]].
    + left. exists k, res, state, i. split; [by left|]. split; [done|]. by rewrite E.
    + right. split; [|by rewrite E]. intros k' [->|?]%elem_of_cons; auto.
Qed.

(** Where a resolution comes from. *)
Definition resolved_as (answers : list (CandidateLookupKey * (RegistryCandidateResult * string)))
    (name : string) (r : ServiceCandidateResolution) : Prop :=
  classify name = Ok (inl r) ∨
  ∃ k ref res state i, classify name = Ok (inr (k, ref)) ∧ (k, (res, state)) ∈ answers ∧
    r = project k res state i name.

(** Without registry queries nothing is left for the second pass. *)
Lemma classify_offline name k ref :
  query_registries = false → classify name ≠ Ok (inr (k, ref)).
Proof.
  intros Hq. unfold classify. rewrite Hq. cbn [negb].
  case_bool_decide; [done|]. destruct (dget name declared_services) as [dc|]; [|done].
  cbn [mbind option_bind]. destruct (dc_image_ref dc) as [r|]; repeat case_match; done.
Qed.

Lemma schedule_spec names s :
  ∃ s' rs answers, schedule_and_resolve names s = (s', Ok rs) ∧ lookup_step s s' ∧
    (query_honest → cache_honest (ss_cache s) → ∀ k res state, (k, (res, state)) ∈ answers → honest res) ∧
    (∀ name, name ∉ names → dget name rs = None) ∧
    (∀ name, name ∈ names → ∃ r, dget name rs = Some r ∧ resolved_as answers name r).
Proof.
  unfold schedule_and_resolve.
  destruct (first_pass_collects names [] [] [] collected_nil) as (acc & p & E & [Hr Hp Hw Hne]).
  cbn [app] in *.
  rewrite (bindM_run (liftM (first_pass names ([], []))) _ s s (acc, p))
    by (unfold liftM; f_equal; exact E).
  assert (Hcase : ∀ name, name ∈ names →
    (∃ r, classify name = Ok (inl r) ∧ dget name acc = Some r) ∨
    (∃ k ref, classify name = Ok (inr (k, ref)) ∧ name ∈ queued p k)).
  { intros name Hin. destruct (classify_total name) as [[r|[k ref]] Ec].
    - left. exists r. split; [done|]. by apply Hr.
    - right. exists k, ref. split; [done|]. apply list_elem_of_fmap. exists (name, ref).
      split; [done|]. by apply Hp. }
  assert (Hnone : ∀ name, name ∉ names → dget name acc = None ∧ ∀ k, name ∉ queued p k).
  { intros name Hn. split.
    - destruct (dget name acc) eqn:Ea; [|done]. apply Hr in Ea as [? _]. done.
    - intros k ([n ref] & -> & Hin)%list_elem_of_fmap. apply Hp in Hin as [? _]. done. }
  destruct (negb query_registries || bool_decide (length p = 0%nat)) eqn:Hlen.
  { exists s, acc, []. split_and!; [done|apply lookup_step_refl| | |].
    - intros _ _ k res state H. by apply not_elem_of_nil in H.
    - intros name Hn. by apply Hnone.
    - intros name Hin. destruct (Hcase name Hin) as [(r & Ec & Er)|(k & ref & Ec & Hk)].
      + exists r. split; [done|by left].
      + exfalso. apply orb_true_iff in Hlen as [Hq%negb_true_iff|Hlen%bool_decide_eq_true].
        * by eapply classify_offline.
        * destruct p; [|done]. cbn in Hk. by apply not_elem_of_nil in Hk. }
  destruct (priorities_spec p s) as (s1 & prios & E1 & Ek & Ec1 & Eb1).
  rewrite (bindM_run _ _ _ _ _ E1).
  assert (Hkeys : ∀ k, k ∈ List.map snd (sort_prio prios) ↔ k ∈ dkeys p).
  { intros k. rewrite <- Ek. by rewrite sort_prio_perm. }
  destruct (lookup_keys_spec p (List.map snd (sort_prio prios)) s1 Hne) as (s2 & answers & E2 & Ea & Hs2 & Hh).
  { intros k Hk%Hkeys. destruct (dget k p) eqn:Ed; [done|]. by apply dget_None in Ed. }
  rewrite (bindM_run _ _ _ _ _ E2). unfold retM. exists s2, (project_all answers p acc), answers.
  split_and!; [done| | | |].
  - destruct Hs2 as [A B C]. rewrite Eb1, Ec1 in *. by split.
  - rewrite Ec1 in Hh. exact Hh.
  - intros name Hn. destruct (Hnone name Hn) as [Ha Hno].
    destruct (project_all_get p answers acc name) as [(k & res & state & i & _ & Hk & _)|[_ Eg]]; [by apply Hno in Hk|].
    by rewrite Eg.
  - intros name Hin. destruct (project_all_get p answers acc name) as [(k & res & state & i & Hk & Hqk & Eg)|[Hno Eg]].
    + eexists. split; [exact Eg|]. right. apply list_elem_of_fmap in Hqk as ([n ref] & -> & Hqk).
      apply Hp in Hqk as [_ Hc]. by exists k, ref, res, state, i.
    + destruct (Hcase name Hin) as [(r & Ec & Er)|(k & ref & Ec & Hk)].
      * exists r. split; [by rewrite Eg|by left].
      * exfalso. refine (Hno k _ Hk). rewrite Ea, Hkeys.
        apply list_elem_of_fmap in Hk as ([n ref'] & -> & Hk).
        destruct (dget k p) as [l|] eqn:Ed; [|by apply not_elem_of_nil in Hk].
        apply dget_In in Ed. apply list_elem_of_fmap. by exists (k, l).
Qed.

(** Scheduling always returns, resolves exactly the requested services, and
    starts no more logical lookups than the budget has left (for a query that
    leaves that count to the scheduler). *)
Lemma schedule_resolves names s :
  ∃ s' rs, schedule_and_resolve names s = (s', Ok rs) ∧
    (∀ name, is_Some (dget name rs) ↔ name ∈ names) ∧
    (query_keeps_logical →
     tb_logical_lookups_performed (ss_budget s) ≤ tb_logical_lookups_performed (ss_budget s') ≤
     Z.max (tb_logical_lookups_performed (ss_budget s)) (tb_max_logical_lookups (ss_budget s))).
Proof.
  destruct (schedule_spec names s) as (s' & rs & answers & E & Hs & _ & Hno & Hin).
  exists s', rs. split_and!; [done| |apply Hs]. intros name. split.
  - intros [r Hr]. destruct (decide (name ∈ names)) as [|Hn]; [done|]. rewrite Hno in Hr; done.
  - intros H. destruct (Hin name H) as (r & -> & _). eauto.
Qed.

(** ** What the statuses mean *)

(** The service runs and is declared with an image that can be looked up. *)
Definition comparable (name : string) (ref : ImageReference) : Prop :=
  containers_of name ≠ [] ∧ ∃ dc, dget name declared_services = Some dc ∧ dc_image_ref dc = Some ref.

Lemma classify_inl_status name r :
  classify name = Ok (inl r) →
  sr_candidate_status r ≠ ST_UPDATE_AVAILABLE ∧
  (sr_candidate_status r = ST_CURRENT → ∃ ref, comparable name ref ∧ ir_is_pinned_by_digest ref = true ∧
     ir_digest ref = sr_candidate_digest r ∧
     ∃ d, sr_candidate_digest r = Some d ∧ d ∈ known_running_digests (metadata_of name)).
Proof.
  unfold classify. case_bool_decide as Hc; [intros [= <-]; by destruct (_ && _)|].
  destruct (dget name declared_services) as [dc|] eqn:Ed; [|by intros [= <-]]. cbn [mbind option_bind from_option].
  do 4 (match goal with |- (if ?b then _ else _) = _ → _ => destruct b; [by intros [= <-]|] end).
  destruct (dc_image_ref dc) as [ref|] eqn:Er; [|done].
  destruct (ir_is_pinned_by_digest ref) eqn:Ep.
  - intros [= <-]. unfold classify_pinned. case_bool_decide; [done|]. case_bool_decide as Hd; [|done].
    split; [done|]. intros _. exists ref. split_and!; [|done|done|].
    + split; [by intros E; rewrite E in Hc|eauto].
    + cbn. apply list_elem_of_fmap in Hd as (d & -> & Hd). by exists d.
  - repeat case_match; intros [= <-]; done.
Qed.

Lemma classify_inr_comparable name k ref :
  classify name = Ok (inr (k, ref)) → comparable name ref ∧ ir_is_pinned_by_digest ref = false ∧ k = key_of ref.
Proof.
  unfold classify. case_bool_decide as Hc; [done|].
  destruct (dget name declared_services) as [dc|] eqn:Ed; [|done]. cbn [mbind option_bind from_option].
  do 4 (match goal with |- (if ?b then _ else _) = _ → _ => destruct b; [done|] end).
  destruct (dc_image_ref dc) as [r|] eqn:Er; [|done].
  destruct (ir_is_pinned_by_digest r) eqn:Ep; [done|].
  intros H. assert (k = key_of r ∧ ref = r) as [-> ->] by (repeat case_match; by simplify_eq).
  split_and!; [|done..]. split; [by intros E; rewrite E in Hc|eauto].
Qed.

(** A projected status other than the registry's own comes from comparing
    digests. *)
Lemma project_status k res state i name :
  honest res →
  let r := project k res state i name in
  let digests := rm_running_repo_digests (metadata_of name) in
  (sr_candidate_status r = ST_UPDATE_AVAILABLE →
     digests ≠ [] ∧ ∃ d, sr_candidate_digest r = Some d ∧ d ≠ "" ∧ ∀ rd, rd ∈ digests → names_digest rd (Some d) = false) ∧
  (sr_candidate_status r = ST_CURRENT →
     ∃ rd d, rd ∈ digests ∧ names_digest rd (Some d) = true ∧
       (sr_candidate_digest r = Some d ∨ sr_candidate_child_digest r = Some d)).
Proof.
  intros Hh r digests. subst r digests. unfold project, honest in *.
  destruct (truthy (rc_index_digest res) || truthy (rc_child_digest res)) eqn:Ht; cbn in Hh.
  2: { cbn. destruct Hh as [?|[H1 H2]]; done. }
  case_bool_decide as Hd; [done|]. destruct (digest_matches res _) eqn:Hm; cbn.
  - split; [done|]. intros _. unfold digest_matches in Hm. apply List.existsb_exists in Hm as (rd & Hin & Hm).
    apply list_elem_of_In in Hin. apply orb_true_iff in Hm as [Hm|Hm].
    + pose proof Hm as Hm'. unfold names_digest in Hm'. apply andb_true_iff in Hm' as [Hi _].
      destruct (rc_index_digest res) as [d|] eqn:Ei; [|done]. exists rd, d. split_and!; [done..|left].
      unfold first_truthy. by rewrite Hi.
    + pose proof Hm as Hm'. unfold names_digest in Hm'. apply andb_true_iff in Hm' as [Hi _].
      destruct (rc_child_digest res) as [d|] eqn:Ei; [|done]. exists rd, d. split_and!; [done..|by right].
  - split; [|done]. intros _. split; [done|].
    assert (Hno : ∀ rd, rd ∈ rm_running_repo_digests (metadata_of name) →
              names_digest rd (rc_index_digest res) = false ∧ names_digest rd (rc_child_digest res) = false).
    { intros rd Hin. apply orb_false_iff, not_true_is_false. intros E.
      assert (digest_matches res (rm_running_repo_digests (metadata_of name)) = true); [|congruence].
      apply List.existsb_exists. exists rd. split; [by apply list_elem_of_In|exact E]. }
    unfold first_truthy. destruct (truthy (rc_index_digest res)) eqn:Ei.
    + destruct (rc_index_digest res) as [d|]; [|done]. exists d. split_and!; [done|by apply str_nonempty_true|].
      intros rd Hin. by apply Hno.
    + cbn in Ht. destruct (rc_child_digest res) as [d|]; [|done]. exists d.
      split_and!; [done|by apply str_nonempty_true|]. intros rd Hin. by apply Hno.
Qed.

(** With a registry query and a cache whose results claim nothing without a
    digest, a service is reported updatable only on a candidate digest that no
    running digest of the running, unpinned service names, and current only
    when a running digest names the candidate or pinned digest. *)
Lemma candidate_status_evidence names s s' rs name r :
  query_honest → cache_honest (ss_cache s) →
  schedule_and_resolve names s = (s', Ok rs) → dget name rs = Some r →
  let digests := rm_running_repo_digests (metadata_of name) in
  (sr_candidate_status r = ST_UPDATE_AVAILABLE →
     ∃ ref d, comparable name ref ∧ ir_is_pinned_by_digest ref = false ∧ digests ≠ [] ∧
       sr_candidate_digest r = Some d ∧ d ≠ "" ∧ ∀ rd, rd ∈ digests → names_digest rd (Some d) = false) ∧
  (sr_candidate_status r = ST_CURRENT →
     (∃ d, sr_candidate_digest r = Some d ∧ d ∈ known_running_digests (metadata_of name)) ∨
     (∃ rd d, rd ∈ digests ∧ names_digest rd (Some d) = true ∧
        (sr_candidate_digest r = Some d ∨ sr_candidate_child_digest r = Some d))).
Proof.
  intros Hq Hc H Hr digests. destruct (schedule_spec names s) as (s2 & rs2 & answers & E & _ & Hh & Hno & Hin).
  rewrite E in H. injection H as <- <-.
  destruct (decide (name ∈ names)) as [Hn|Hn]; [|rewrite Hno in Hr; done].
  destruct (Hin name Hn) as (r2 & Hr2 & Has). rewrite Hr in Hr2. injection Hr2 as <-.
  destruct Has as [Hinl|(k & ref & res & state & i & Hinr & Ha & ->)].
  - destruct (classify_inl_status name r Hinl) as [Hnu Hcur]. split; [done|].
    intros Hst. destruct (Hcur Hst) as (ref & _ & _ & _ & Hd). by left.
  - destruct (project_status k res state i name) as [Hu Hcur]; [by eapply Hh|].
    destruct (classify_inr_comparable name k ref Hinr) as (Hcmp & Hp & _). split.
    + intros Hst. destruct (Hu Hst) as (Hd & d & ?). by exists ref, d.
    + intros Hst. right. by apply Hcur.
Qed.
End classify.
