(* ===== verification/UpdateModel.v ===== *)
(** * UpdateModel: the values of the update services

    The dataclasses of models/git.py, finding.py, health.py, health_report.py,
    recommendation.py, git_update_plan.py, git_transaction.py, rollback.py,
    verification.py, project.py and update.py that the update services pass
    around.  A file system path is its text. *)

From S2P Require Import Prelude PyStr PyText PyTime Models.
From Stdlib Require Import Ascii String ZArith Lia.
From stdpp Require Import base strings list.

Local Open Scope string_scope.
Local Open Scope Z_scope.

(** ** Git *)

Record GitRepository := {
  gr_exists : bool;
  gr_branch : option string;
  gr_current_sha : option string;
  gr_remote_sha : option string;
  gr_remote_url : option string;
  gr_dirty : bool;
  gr_detached : bool;
  gr_ahead : Z;
  gr_behind : Z;
  gr_modified_files : list string;
  gr_untracked_files : list string;
  gr_conflicted_files : list string;
  gr_stashes : list string;
  gr_last_fetch : option datetime;
  gr_last_commit_message : option string;
  gr_last_commit_author : option string;
}.
#[export] Instance GitRepository_eq_dec : EqDecision GitRepository.
Proof. solve_decision. Defined.

Record GitUpdatePlan := {
  gp_proceed : bool;
  gp_stash_required : bool;
  gp_fetch_required : bool;
  gp_pull_required : bool;
  gp_review_required : bool;
  gp_rollback_required : bool;
  gp_reasons : list string;
}.

Record GitTransactionResult := {
  gt_success : bool;
  gt_stashed : bool;
  gt_pulled : bool;
  gt_stash_applied : bool;
  gt_stash_preserved : bool;
  gt_conflicts : list string;
  gt_warnings : list string;
  gt_errors : list string;
}.

(** ** Health *)

Inductive Severity := SEV_INFO | SEV_WARNING | SEV_HIGH | SEV_CRITICAL.
#[export] Instance Severity_eq_dec : EqDecision Severity.
Proof. solve_decision. Defined.
#[export] Instance Severity_value : EnumValue Severity := λ s,
  match s with
  | SEV_INFO => "info" | SEV_WARNING => "warning" | SEV_HIGH => "high" | SEV_CRITICAL => "critical"
  end.

Inductive HealthState := HS_HEALTHY | HS_DEGRADED | HS_CRITICAL | HS_UNKNOWN.
#[export] Instance HealthState_eq_dec : EqDecision HealthState.
Proof. solve_decision. Defined.
#[export] Instance HealthState_value : EnumValue HealthState := λ s,
  match s with
  | HS_HEALTHY => "healthy" | HS_DEGRADED => "degraded" | HS_CRITICAL => "critical"
  | HS_UNKNOWN => "unknown"
  end.

Record Finding := {
  fi_code : string;
  fi_component : string;
  fi_severity : Severity;
  fi_title : string;
  fi_description : string;
  fi_recommendation : string;
  fi_resource : option string;
}.
#[export] Instance Finding_eq_dec : EqDecision Finding.
Proof. solve_decision. Defined.

Record Recommendation := {
  rec_priority : Z;
  rec_action : string;
}.
#[export] Instance Recommendation_eq_dec : EqDecision Recommendation.
Proof. solve_decision. Defined.

Record HealthReport := {
  hr_project : string;
  hr_score : Z;
  hr_state : HealthState;
  hr_critical : Z;
  hr_high : Z;
  hr_warning : Z;
  hr_info : Z;
  hr_findings : list Finding;
  hr_recommendations : list Recommendation;
}.
#[export] Instance HealthReport_eq_dec : EqDecision HealthReport.
Proof. solve_decision. Defined.

(** ** Updates *)

Inductive UpdateRisk := RISK_LOW | RISK_MEDIUM | RISK_HIGH | RISK_BLOCKED.
#[export] Instance UpdateRisk_eq_dec : EqDecision UpdateRisk.
Proof. solve_decision. Defined.
#[export] Instance UpdateRisk_value : EnumValue UpdateRisk := λ r,
  match r with
  | RISK_LOW => "low" | RISK_MEDIUM => "medium" | RISK_HIGH => "high" | RISK_BLOCKED => "blocked"
  end.

Record UpdatePlan := {
  up_project : string;
  up_project_path : string;
  up_dry_run : bool;
  up_proceed : bool;
  up_approval_required : bool;
  up_risk : UpdateRisk;
  up_reasons : list string;
  up_actions : list string;
  up_snapshot_required : bool;
  up_estimated_restart : bool;
  up_stash_required : bool;
  up_pull_required : bool;
  up_git : option GitRepository;
  up_health_before : option HealthReport;
  up_runtime_mode : string;
  up_systemd_units : list string;
  up_systemd_action : option string;
  up_health_probe_contract : option string;
}.
#[export] Instance UpdatePlan_eq_dec : EqDecision UpdatePlan.
Proof. solve_decision. Defined.

Inductive UpdateVerificationStatus := VS_SUCCESS | VS_WARNING | VS_FAILURE.
#[export] Instance UpdateVerificationStatus_eq_dec : EqDecision UpdateVerificationStatus.
Proof. solve_decision. Defined.

Record UpdateVerification := {
  uv_status : UpdateVerificationStatus;
  uv_passed : list string;
  uv_warnings : list string;
  uv_failures : list string;
  uv_error : option string;
}.

(** [UpdateVerification.update_successful] and [rollback_required] *)
Definition update_successful (v : UpdateVerification) : bool :=
  negb (bool_decide (uv_status v = VS_FAILURE)).
Definition rollback_required (v : UpdateVerification) : bool :=
  bool_decide (uv_status v = VS_FAILURE).

Record RestoreResult := {
  re_attempted : bool;
  re_success : bool;
  re_restored : list string;
  re_left_in_place : list string;
  re_skipped : list string;
  re_error : option string;
}.

Record UpdateAudit := {
  ua_project : string;
  ua_started_at : datetime;
  ua_finished_at : datetime;
  ua_mode : string;
  ua_outcome : string;
  ua_risk : UpdateRisk;
  ua_plan : UpdatePlan;
  ua_snapshot_path : option string;
  ua_health_after : option HealthReport;
  ua_error : option string;
  ua_restore : option RestoreResult;
  ua_verification : option UpdateVerification;
  ua_git_transaction : option GitTransactionResult;
  ua_audit_path : option string;
}.

Record ProjectCapabilities := {
  pc_has_compose : bool;
  pc_has_git : bool;
  pc_has_systemd : bool;
  pc_systemd_units : list string;
}.

(** The fields of [Project] the update services read. *)
Record Project := {
  pj_name : string;
  pj_path : string;
  pj_capabilities : ProjectCapabilities;
  pj_compose_files : list string;
  pj_git : option GitRepository;
  pj_systemd_units : list string;
}.

(** ** Paths *)

(** [Path(file).name]: the last component that is neither empty nor a dot. *)
Definition path_parts (p : string) : list string :=
  List.filter (λ w, negb (str_eqb w "") && negb (str_eqb w ".")) (split_on "/" p).
Definition path_name (p : string) : string := List.last (path_parts p) "".

Example path_name_ex : path_name "infra/./Dockerfile/" = "Dockerfile".
Proof. reflexivity. Qed.
