(* ===== verification/Registration.v ===== *)
(** * Registration: project registrations (control_plane/registration_service.py,
    SQLiteProjectRegistrationStore in control_plane/storage/sqlite_store.py)

    [RegistrationValidator] asks the operating system about a path and
    [RegistrationService] stamps the answer with a digest; [host] is what they
    ask, each question with its own answer.  The store keeps every registration
    ever made, one active per project and environment.

    Results: a registration the service creates names a directory of the allowed
    namespace that passed the ownership and permission tests, and verifies
    against the files hashed; whatever calls interleave, the store keeps one
    active registration per project and never changes what a registration
    declared. *)

From S2P Require Import Prelude PyStr PyText PyTime PyIso Sha256 Json Models AuditLedger AuditBuilders Contract UpdateModel.
From S2P Require Import SqlTables SqlRows SqlRefine SqlPlans.
From Stdlib Require Import Ascii String ZArith Lia.
From stdpp Require Import base strings list.

Local Open Scope string_scope.
Local Open Scope Z_scope.
Local Open Scope aipm_scope.

(** ** RegistrationValidator *)

Record stat_result := { st_uid : Z; st_gid : Z; st_mode : Z }.

(** What the validator asks of the system: [Path.resolve(strict=True)],
    [is_dir], the two [stat] calls, [getuid], [getgid], the glob of Compose
    files, the hash of one, and the injected identity resolver. *)
Record host := {
  ho_resolve : string → result string;
  ho_is_dir : string → bool;
  ho_owner_stat : string → result stat_result;
  ho_mode_stat : string → result stat_result;
  ho_uid : Z;
  ho_gid : Z;
  ho_compose_files : string → list string;
  ho_hash : string → result string;
  ho_identity : option (string → string → list string → option string);
}.

Record RegistrationValidationResult := {
  rv_valid : bool;
  rv_canonical_path : option string;
  rv_compose_project_name : option string;
  rv_compose_file_hashes : option (list string);
  rv_error_code : option string;
}.
Definition rejected (code : string) : RegistrationValidationResult :=
  {| rv_valid := false; rv_canonical_path := None; rv_compose_project_name := None; rv_compose_file_hashes := None;
     rv_error_code := Some code |}.
Definition accepted : RegistrationValidationResult :=
  {| rv_valid := true; rv_canonical_path := None; rv_compose_project_name := None; rv_compose_file_hashes := None;
     rv_error_code := None |}.

Definition ALLOWED_NAMESPACE : string := "/home/ubuntu/".
Definition SUPPORTED_RUNTIME_MODES : list string := ["compose"].

Section validator.
Context (h : host).

(** [except (OSError, ValueError)] *)
Definition os_failure (e : exn) : bool := is_value_error e || bool_decide (e = OSError).

(** [_validate_ownership] *)
Definition validate_ownership (path : string) : result RegistrationValidationResult :=
  match ho_owner_stat h path with
  | Raise e => if os_failure e then Ok (rejected "ownership_check_failed") else Raise e
  | Ok st =>
      if st_uid st =? 0 then Ok (rejected "root_owned")
      else if negb (st_uid st =? ho_uid h) && negb (ho_uid h =? 0) then Ok (rejected "ownership_mismatch")
      else Ok accepted
  end.

(** [_validate_permissions] *)
Definition validate_permissions (path : string) : result RegistrationValidationResult :=
  match ho_mode_stat h path with
  | Raise e => if os_failure e then Ok (rejected "permission_check_failed") else Raise e
  | Ok st =>
      if negb (Z.land (st_mode st) 2 =? 0) then Ok (rejected "world_writable")
      else if negb (Z.land (st_mode st) 16 =? 0) && negb (st_gid st =? ho_gid h)
      then Ok (rejected "group_writable_unsafe")
      else Ok accepted
  end.

(** [_validate_compose_registration]: [except Exception] around each hash. *)
Definition validate_compose_registration (path : string) : RegistrationValidationResult :=
  match ho_compose_files h path with
  | [] => rejected "no_compose_files"
  | files =>
      match ho_identity h with
      | None => rejected "compose_resolver_unavailable"
      | Some resolve =>
          let name := default "" (resolve (path_name path) path files) in
          if negb (str_nonempty name) then rejected "invalid_compose_identity" else
          match rmap (ho_hash h) files with
          | Raise _ => rejected "compose_file_hash_failed"
          | Ok hashes =>
              {| rv_valid := true; rv_canonical_path := Some path; rv_compose_project_name := Some name;
                 rv_compose_file_hashes := Some hashes; rv_error_code := None |}
          end
      end
  end.

Definition validate_registration_request (project_path runtime_mode environment : string)
  : result RegistrationValidationResult :=
  if negb (mem environment ["staging"; "production"]) then Ok (rejected "invalid_environment") else
  if negb (mem runtime_mode SUPPORTED_RUNTIME_MODES) then Ok (rejected "unsupported_runtime") else
  match ho_resolve h project_path with
  | Raise e => if os_failure e then Ok (rejected "invalid_path") else Raise e
  | Ok path =>
      if negb (ho_is_dir h path) then Ok (rejected "not_directory") else
      if negb (starts_with ALLOWED_NAMESPACE path) then Ok (rejected "namespace_violation") else
      let* ownership := validate_ownership path in
      if negb (rv_valid ownership) then Ok ownership else
      let* permissions := validate_permissions path in
      if negb (rv_valid permissions) then Ok permissions else
      if str_eqb runtime_mode "compose" then Ok (validate_compose_registration path)
      else Ok (rejected "unsupported_runtime")
  end.

(** ** RegistrationService *)

(** [create_registration]: [now] and [registration_id] are the clock and the
    random identifier. *)
Definition create_registration (target_id project_path environment runtime_mode registered_by : string)
    (now : datetime) (registration_id : string)
  : result (option ProjectRegistration * RegistrationValidationResult) :=
  let* v := validate_registration_request project_path runtime_mode environment in
  if negb (rv_valid v) then Ok (None, v) else
  let path := default "None" (rv_canonical_path v) in
  Ok (Some {| rg_registration_id := registration_id; rg_target_id := target_id; rg_environment := environment;
              rg_status := REGISTERED; rg_canonical_project_path := path; rg_runtime_mode := runtime_mode;
              rg_registration_digest := compute_registration_digest target_id path runtime_mode environment
                (rv_compose_project_name v) (rv_compose_file_hashes v) (isoformat now) "mc616-reg-v1";
              rg_registration_version := "mc616-reg-v1"; rg_registered_by := registered_by; rg_registered_at := now;
              rg_compose_project_name := rv_compose_project_name v; rg_approved_by := None; rg_approved_at := None;
              rg_revoked_by := None; rg_revoked_at := None; rg_revocation_reason := None; rg_updated_at := None |}, v).
End validator.

(** ** SQLiteProjectRegistrationStore *)

Definition registration_row_of (r : ProjectRegistration) : registration_row :=
  {| gn_registration_id := rg_registration_id r; gn_target_id := rg_target_id r; gn_environment := rg_environment r;
     gn_status := value (rg_status r); gn_canonical_project_path := rg_canonical_project_path r;
     gn_runtime_mode := rg_runtime_mode r; gn_compose_project_name := rg_compose_project_name r;
     gn_registration_digest := rg_registration_digest r; gn_registration_version := rg_registration_version r;
     gn_registered_by := rg_registered_by r; gn_registered_at := isoformat (rg_registered_at r);
     gn_approved_by := rg_approved_by r; gn_approved_at := isoformat <$> rg_approved_at r;
     gn_revoked_by := rg_revoked_by r; gn_revoked_at := isoformat <$> rg_revoked_at r;
     gn_revocation_reason := rg_revocation_reason r;
     gn_updated_at := isoformat (default (rg_registered_at r) (rg_updated_at r)) |}.

(** A text that names no status reads as [REGISTERED]. *)
Definition status_from_text (s : string) : RegistrationStatus :=
  default REGISTERED (List.find (λ x, str_eqb (value x) s) [REGISTERED; REG_DISABLED; REVOKED]).
(** [_parse_timestamp(text) if text else None] *)
Definition parse_optional (o : option string) : result (option datetime) :=
  match o with
  | Some s => if str_nonempty s then let* t := parse_timestamp s in Ok (Some t) else Ok None
  | None => Ok None
  end.

(** [_registration_from_row] *)
Definition registration_from_row (r : registration_row) : result ProjectRegistration :=
  or_corrupt (
    let* registered_at := parse_timestamp (gn_registered_at r) in
    let* approved_at := parse_optional (gn_approved_at r) in
    let* revoked_at := parse_optional (gn_revoked_at r) in
    let* updated_at := parse_optional (Some (gn_updated_at r)) in
    Ok {| rg_registration_id := gn_registration_id r; rg_target_id := gn_target_id r;
          rg_environment := gn_environment r; rg_status := status_from_text (gn_status r);
          rg_canonical_project_path := gn_canonical_project_path r; rg_runtime_mode := gn_runtime_mode r;
          rg_registration_digest := gn_registration_digest r; rg_registration_version := gn_registration_version r;
          rg_registered_by := gn_registered_by r; rg_registered_at := registered_at;
          rg_compose_project_name := gn_compose_project_name r; rg_approved_by := gn_approved_by r;
          rg_approved_at := approved_at; rg_revoked_by := gn_revoked_by r; rg_revoked_at := revoked_at;
          rg_revocation_reason := gn_revocation_reason r; rg_updated_at := updated_at |}).

(** [UPDATE project_registrations SET status … WHERE registration_id = ?], under
    the unique index. *)
Definition set_status (status updated_at : string) (revoked_by revoked_at reason : option string) (r : registration_row)
  : registration_row :=
  {| gn_registration_id := gn_registration_id r; gn_target_id := gn_target_id r; gn_environment := gn_environment r;
     gn_status := status; gn_canonical_project_path := gn_canonical_project_path r;
     gn_runtime_mode := gn_runtime_mode r; gn_compose_project_name := gn_compose_project_name r;
     gn_registration_digest := gn_registration_digest r; gn_registration_version := gn_registration_version r;
     gn_registered_by := gn_registered_by r; gn_registered_at := gn_registered_at r; gn_approved_by := gn_approved_by r;
     gn_approved_at := gn_approved_at r; gn_revoked_by := revoked_by; gn_revoked_at := revoked_at;
     gn_revocation_reason := reason; gn_updated_at := updated_at |}.
Definition registration_is (id : string) (r : registration_row) : bool := str_eqb (gn_registration_id r) id.
Definition sql_update_registration (id : string) (f : registration_row → registration_row) : M database unit :=
  do db <- getM;;
  let l := List.map (λ r, if registration_is id r then f r else r) (db_registrations db) in
  assert_ unique_active l else_raise IntegrityError;;
  putM (set_rows l db).

Section store.
Context (append_row : AuditEventDraft → M database unit).

(** [_emit_registration_created_event]: [rid] is the random event identifier. *)
Definition emit_registration_created_event (c : circumstances) (rid : string) (r : ProjectRegistration) : M database unit :=
  do d <- liftM (check_AuditEventDraft
    (on_outcome None (Some "REGISTERED") (Some "created")
       (Some ("Production registration: " ++ rg_runtime_mode r ++ " at " ++ str_take 80 (rg_canonical_project_path r)))
       (on_target (Some (rg_target_id r)) (Some (rg_environment r)) None
          (draft rid AuditEventType.REGISTRATION_CREATED (rg_registered_by r) REGISTRATION_OPERATOR (cc_clock c)))));;
  append_row d.

(** [_emit_status_change_event] *)
Definition status_event (status : string) : AuditEventType.t * string :=
  if str_eqb status "DISABLED" then (AuditEventType.REGISTRATION_DISABLED, "disabled")
  else if str_eqb status "REVOKED" then (AuditEventType.REGISTRATION_REVOKED, "revoked")
  else (AuditEventType.LIFECYCLE_TRANSITION, "transition").
Definition emit_status_change_event (c : circumstances) (rid target_id environment from_status to_status actor : string)
    (reason : option string) : M database unit :=
  do d <- liftM (check_AuditEventDraft
    (on_outcome (Some from_status) (Some to_status) (Some (snd (status_event to_status))) (Some (default "" reason))
       (on_target (Some target_id) (Some environment) None
          (draft rid (fst (status_event to_status)) actor REGISTRATION_OPERATOR (cc_clock c)))));;
  append_row d.

Definition save (c : circumstances) (rid : string) (r : ProjectRegistration) : M database ProjectRegistration :=
  do_ or_sqlite RegistrationError (transaction c (
    do_ sql_insert (registration_row_of r);;
    emit_registration_created_event c rid r));;
  retM r.

Definition optional_registration (row : option registration_row) : M database (option ProjectRegistration) :=
  match row with
  | None => retM None
  | Some r => do x <- liftM (registration_from_row r);; retM (Some x)
  end.
Definition get (target_id environment : string) (include_revoked : bool) : M database (option ProjectRegistration) :=
  do l <- sql_select (λ r, str_eqb (gn_target_id r) target_id && str_eqb (gn_environment r) environment &&
                           (include_revoked || status_active r));;
  optional_registration (head (order_by registered_geb l)).
Definition get_by_registration_id (id : string) : M database (option ProjectRegistration) :=
  do row <- sql_select_one (registration_is id);; optional_registration row.
Definition get_by_path (path environment : string) : M database (option ProjectRegistration) :=
  do row <- sql_select_one (λ r, str_eqb (gn_canonical_project_path r) path && str_eqb (gn_environment r) environment);;
  optional_registration row.
Definition list_registrations (environment : option string) (status : option RegistrationStatus)
  : M database (list ProjectRegistration) :=
  do l <- sql_select (λ r, match environment with Some e => str_eqb (gn_environment r) e | None => true end &&
                           match status with Some s => str_eqb (gn_status r) (value s) | None => true end);;
  liftM (rmap registration_from_row (order_by registered_geb l)).

(** [update_status]: the registration is read before the transaction, and the
    statement does not look at the status again. *)
Definition update_status (c : circumstances) (rid target_id environment : string) (new_status : RegistrationStatus)
    (actor : string) (reason : option string) : M database (option ProjectRegistration) :=
  do current <- get target_id environment false;;
  match current with
  | None => retM None
  | Some r =>
      let now := isoformat (cc_clock c) in
      let revoking := bool_decide (new_status = REVOKED) in
      do_ or_sqlite RegistrationError (transaction c (
        do_ sql_update_registration (rg_registration_id r)
              (set_status (value new_status) now (if revoking then Some actor else None)
                 (if revoking then Some now else None) (if revoking then Some (default "" reason) else None));;
        emit_status_change_event c rid target_id environment (value (rg_status r)) (value new_status) actor reason));;
      do_ gap c 1;;
      get_by_registration_id (rg_registration_id r)
  end.
End store.

(** ** The table *)

(** The columns no call rewrites. *)
Definition declared (r : registration_row) : registration_row := set_status "" "" None None None r.
Definition kept_registration (r r' : registration_row) : Prop := declared r' = declared r.
#[export] Instance kept_registration_preorder : PreOrder kept_registration.
Proof. split; [done|]. intros a b d H1 H2. unfold kept_registration in *. congruence. Qed.
Lemma declared_id r r' : declared r' = declared r → gn_registration_id r' = gn_registration_id r.
Proof. intros H. by apply (f_equal gn_registration_id) in H. Qed.

Definition table_ok (s : database) : Prop :=
  NoDup (List.map gn_registration_id (db_registrations s)) ∧ unique_active (db_registrations s) = true.
Definition registration_safe (s s' : database) : Prop :=
  table_ok s → table_ok s' ∧ grown kept_registration (db_registrations s) (db_registrations s').
#[export] Instance registration_safe_preorder : PreOrder registration_safe.
Proof.
  split; [by intros s Hs; split|]. intros a b d H1 H2 Ha. destruct (H1 Ha) as [Hb L1]. destruct (H2 Hb) as [Hd L2].
  split; [done|]. by etrans.
Qed.
Lemma same_registrations s s' : db_registrations s' = db_registrations s → registration_safe s s'.
Proof. intros E Hs. unfold table_ok. by rewrite E. Qed.

Lemma insert_registration_safe r s : keeps_from registration_safe s (sql_insert (R := registration_row) r).
Proof.
  intros s' x. unfold sql_insert, bindM, getM, liftM, putM.
  destruct (fresh_key r s && admits r s) eqn:E; cbn [raise_unless]; [|by intros [= <- _]].
  apply andb_true_iff in E as [E Ha]. apply fresh_key_spec in E. intros [= <- _] [N1 N2]. split; [split|]; cbn.
  - rewrite List.map_app. apply NoDup_app. split_and!; [done| |apply NoDup_singleton].
    intros y Hy ->%list_elem_of_singleton. by apply E.
  - exact Ha.
  - apply grown_app. apply _.
Qed.
Lemma update_registration_safe id st t by_ at_ why s :
  keeps_from registration_safe s (sql_update_registration id (set_status st t by_ at_ why)).
Proof.
  intros s' x. unfold sql_update_registration, bindM, getM, liftM, putM.
  destruct (unique_active _) eqn:E; cbn [raise_unless]; [|by intros [= <- _]]. intros [= <- _] [N1 N2].
  assert (∀ r, kept_registration r (if registration_is id r then set_status st t by_ at_ why r else r)) as Hk
    by (intros r; by destruct (registration_is id r)).
  split; [split|]; cbn.
  - rewrite List.map_map. erewrite List.map_ext; [exact N1|]. intros r. apply declared_id, Hk.
  - exact E.
  - by apply grown_map.
Qed.

(** Two active rows of one project are the same row. *)
Lemma unique_active_one l : unique_active l = true → ∀ i j r1 r2, l !! i = Some r1 → l !! j = Some r2 →
  status_active r1 = true → status_active r2 = true → same_project r1 r2 = true → i = j.
Proof.
  assert (∀ a b, same_project a b = true → same_project b a = true) as Hsym.
  { unfold same_project, str_eqb. intros a b H. apply andb_true_iff in H as [H1 H2].
    apply bool_decide_eq_true in H1, H2. by rewrite H1, H2, !bool_decide_true. }
  induction l as [|r l IH]; [done|]. cbn. intros [Hr Hl]%andb_true_iff i j r1 r2 H1 H2 A1 A2 Hp.
  apply negb_true_iff, andb_false_iff in Hr.
  assert (∀ k x, l !! k = Some x → status_active r = true → status_active x = true → same_project r x = true → False) as Hno.
  { intros k x Hx Ha Hax Hs. destruct Hr as [Hr|Hr]; [congruence|]. apply not_true_iff_false in Hr. apply Hr.
    apply List.existsb_exists. exists x. split; [apply list_elem_of_In; by eapply list_elem_of_lookup_2|]. by rewrite Hax. }
  destruct i as [|i], j as [|j]; cbn in *; simplify_eq; [done| | |f_equal; by eapply IH].
  - exfalso. by eapply Hno.
  - exfalso. eapply Hno; [exact H1|done|done|by apply Hsym].
Qed.

Inductive registration_call :=
  | GSave (rid : string) (r : ProjectRegistration)
  | GUpdate (rid target_id environment : string) (new_status : RegistrationStatus) (actor : string) (reason : option string).

Section calls.
Context (append_row : AuditEventDraft → M database unit).

Definition run_registration_call (c : circumstances) (q : registration_call) : M database unit :=
  match q with
  | GSave rid r => ignore (save append_row c rid r)
  | GUpdate rid t e st actor why => ignore (update_status append_row c rid t e st actor why)
  end.

Context `{!EvidenceSink append_row}.

Lemma append_registrations d s : keeps_from registration_safe s (append_row d).
Proof. intros s' r H. apply sink_frame in H as ->. by apply same_registrations. Qed.

Lemma reads_optional_registration row : reads (optional_registration row).
Proof. destruct row; [|done]. by apply reads_bind. Qed.
Lemma reads_registration_get t e b : reads (get t e b).
Proof. apply reads_bind; [done|]. intros. apply reads_optional_registration. Qed.
Lemma reads_get_by_id id : reads (get_by_registration_id id).
Proof. apply reads_bind; [done|]. intros. apply reads_optional_registration. Qed.

Lemma run_registration_call_safe c q s : (∀ k t, registration_safe t (cc_others c k t)) →
  keeps_from registration_safe s (run_registration_call c q).
Proof.
  intros Hc. destruct q as [rid r|rid t e st actor why]; cbn [run_registration_call]; apply ignore_keeps; try apply _.
  - unfold save. apply keeps_from_bind; [apply _| |by intros ? ? _ _ s' x [= <- _]].
    apply keeps_from_or_sqlite; [apply _|]. apply keeps_from_transaction; [apply _|done|]. intros s1 _.
    apply keeps_from_bind; [apply _|apply insert_registration_safe|]. intros _ s2 _ _.
    apply keeps_from_bind; [apply _|by intros ? ? [= <- _]|]. intros d s3 _ _. apply append_registrations.
  - unfold update_status. apply keeps_from_bind; [apply _|by apply keeps_from_reads; [apply _|apply reads_registration_get]|].
    intros [r|] s1 _ _; [|by intros s' x [= <- _]].
    apply keeps_from_bind; [apply _| |].
    + apply keeps_from_or_sqlite; [apply _|]. apply keeps_from_transaction; [apply _|done|]. intros s2 _.
      apply keeps_from_bind; [apply _|apply update_registration_safe|]. intros _ s3 _ _.
      apply keeps_from_bind; [apply _|by intros ? ? [= <- _]|]. intros d s4 _ _. apply append_registrations.
    + intros _ s2 _ _. apply keeps_from_bind; [apply _|intros ? ? [= <- _]; apply Hc|].
      intros _ s3 _ _. apply keeps_from_reads; [apply _|apply reads_get_by_id].
Qed.

(** Registration calls of any number of connections; the other stores do not
    touch the table. *)
Inductive registration_histories : database → database → Prop :=
  | gh_done s : registration_histories s s
  | gh_call c q s s1 r s' : (∀ k t, registration_histories t (cc_others c k t)) →
      run_registration_call c q s = (s1, r) → registration_histories s1 s' → registration_histories s s'
  | gh_other s s1 s' : db_registrations s1 = db_registrations s → registration_histories s1 s' →
      registration_histories s s'.

Lemma registration_histories_safe s s' : registration_histories s s' → registration_safe s s'.
Proof.
  induction 1 as [s|c q s s1 r s' _ IHc Hq _ IH|s s1 s' Hs _ IH]; [done|..].
  - etrans; [|exact IH]. exact (run_registration_call_safe c q s IHc _ _ Hq).
  - etrans; [|exact IH]. by apply same_registrations.
Qed.
End calls.

(** ** Properties *)

(** The registry keeps one active registration per project and never
    rewrites a declaration.  Whatever calls of any number of connections
    interleave, a registration stays in the table with the path, mode, digest,
    registrant and time it was made with, and two rows that are registered or
    disabled for the same project and environment are one row. *)
Lemma registrations_sound append_row `{!EvidenceSink append_row} s s' :
  registration_histories append_row s s' → table_ok s →
  (∀ r, r ∈ db_registrations s → ∃ r', r' ∈ db_registrations s' ∧ declared r' = declared r) ∧
  (∀ r1 r2, r1 ∈ db_registrations s' → r2 ∈ db_registrations s' → status_active r1 = true → status_active r2 = true →
    same_project r1 r2 = true → r1 = r2).
Proof.
  intros H Hok. destruct (registration_histories_safe _ _ _ H Hok) as [[_ Hu] G]. split.
  - intros r Hr. destruct (grown_elem _ _ _ _ G Hr) as (r' & Hr' & Hk). by exists r'.
  - intros r1 r2 [i Hi]%list_elem_of_lookup_1 [j Hj]%list_elem_of_lookup_1 A1 A2 Hp.
    assert (i = j) as -> by by eapply unique_active_one. congruence.
Qed.

(** A registration the service creates is contained and verifiable.  It
    names an existing directory of the allowed namespace, not owned by root, of
    the caller unless the caller is root, and not writable by the world, runs in
    Compose mode under a resolved name, and its digest verifies against the
    hashes of its Compose files. *)
Lemma created_registration_contained h target path0 environment mode registrant now id r v :
  create_registration h target path0 environment mode registrant now id = Ok (Some r, v) →
  (environment = "staging" ∨ environment = "production") ∧ mode = "compose" ∧ rg_status r = REGISTERED ∧
  ho_resolve h path0 = Ok (rg_canonical_project_path r) ∧ ho_is_dir h (rg_canonical_project_path r) = true ∧
  String.prefix "/home/ubuntu/" (rg_canonical_project_path r) = true ∧
  (∃ st, ho_owner_stat h (rg_canonical_project_path r) = Ok st ∧ st_uid st ≠ 0 ∧ (st_uid st = ho_uid h ∨ ho_uid h = 0)) ∧
  (∃ st, ho_mode_stat h (rg_canonical_project_path r) = Ok st ∧ Z.land (st_mode st) 2 = 0) ∧
  ∃ files hashes, ho_compose_files h (rg_canonical_project_path r) = files ∧ files ≠ [] ∧
    rmap (ho_hash h) files = Ok hashes ∧ verify_registration_digest r (Some hashes) = true.
Proof.
  unfold create_registration, validate_registration_request. intros H.
  destruct (mem environment _) eqn:Ee; [|done]. destruct (mem mode _) eqn:Em; [|done]. cbn [negb rbind] in H.
  destruct (ho_resolve h path0) as [path|e] eqn:Ep; [|by destruct (os_failure e)].
  destruct (ho_is_dir h path) eqn:Ed; [|done]. destruct (starts_with ALLOWED_NAMESPACE path) eqn:En; [|done].
  cbn [negb] in H. unfold validate_ownership, validate_permissions in H.
  destruct (ho_owner_stat h path) as [st|e] eqn:Eo; [|by destruct (os_failure e)].
  destruct (st_uid st =? 0) eqn:E0; [done|]. destruct (negb (st_uid st =? _) && _) eqn:E1; [done|].
  cbn [rbind rv_valid accepted negb] in H.
  destruct (ho_mode_stat h path) as [st'|e] eqn:Es; [|by destruct (os_failure e)].
  destruct (negb (Z.land (st_mode st') 2 =? 0)) eqn:E2; [done|]. destruct (negb (Z.land (st_mode st') 16 =? 0) && _); [done|].
  cbn [rbind rv_valid accepted negb] in H. destruct (str_eqb mode "compose") eqn:Ec; [|done].
  apply bool_decide_eq_true in Ec. cbn [rbind] in H. unfold validate_compose_registration in H.
  destruct (ho_compose_files h path) as [|f files] eqn:Ef; [done|]. destruct (ho_identity h) as [ri|]; [|done].
  destruct (negb (str_nonempty _)); [done|]. destruct (rmap (ho_hash h) (f :: files)) as [hashes|] eqn:Eh; [|done].
  cbn [rv_valid negb] in H. injection H as <- <-. cbn [rg_status rg_canonical_project_path rv_canonical_path default].
  apply Z.eqb_neq in E0. apply negb_false_iff, Z.eqb_eq in E2.
  split_and!; try done.
  - apply bool_decide_eq_true in Ee. apply elem_of_cons in Ee as [->|Ee]; [by left|]. apply list_elem_of_singleton in Ee as ->. by right.
  - exists st. split_and!; [done|done|]. apply andb_false_iff in E1 as [E1|E1]; apply negb_false_iff, Z.eqb_eq in E1; auto.
  - by exists st'.
  - exists (f :: files), hashes. split_and!; [done|done|done|]. unfold verify_registration_digest.
    cbn [rg_registration_digest rg_target_id rg_canonical_project_path rg_runtime_mode rg_environment
         rg_compose_project_name rg_registered_at rg_registration_version rv_canonical_path
         rv_compose_project_name rv_compose_file_hashes default].
    unfold compute_registration_digest at 1. rewrite sha256_hex_HEX. by apply bool_decide_eq_true.
Qed.
