(* ===== verification/Health.v ===== *)
(** * Health: health reports and the update verifier

    [ReportBuilder] (engines/health/report_builder.py), [HealthEngine.analyze]
    (engines/health/engine.py) over analyzers that are parameters, and
    [UpdateVerifier] (services/update/verifier.py).  The verifier's catch-all
    branch is unreachable: on typed reports [_verify] raises nothing. *)

From S2P Require Import Prelude PyStr PyText Models UpdateModel.
From Stdlib Require Import Ascii String ZArith Lia.
From stdpp Require Import base strings list.

Local Open Scope string_scope.
Local Open Scope Z_scope.

(** ** Building a report *)

Definition penalty (s : Severity) : Z :=
  match s with SEV_INFO => 0 | SEV_WARNING => 10 | SEV_HIGH => 25 | SEV_CRITICAL => 50 end.
Definition severity_rank (s : Severity) : Z :=
  match s with SEV_CRITICAL => 4 | SEV_HIGH => 3 | SEV_WARNING => 2 | SEV_INFO => 1 end.

Definition of_severity (s : Severity) (fs : list Finding) : list Finding :=
  List.filter (λ f, bool_decide (fi_severity f = s)) fs.
Definition count_of (s : Severity) (fs : list Finding) : Z := Z.of_nat (length (of_severity s fs)).

Fixpoint total_penalty (fs : list Finding) : Z :=
  match fs with [] => 0 | f :: fs' => penalty (fi_severity f) + total_penalty fs' end.

(** The sort key [(-rank, code)]. *)
Definition finding_leb (a b : Finding) : bool :=
  let ra := - severity_rank (fi_severity a) in
  let rb := - severity_rank (fi_severity b) in
  (ra <? rb) || ((ra =? rb) && String.leb (fi_code a) (fi_code b)).
Fixpoint insert_finding (f : Finding) (l : list Finding) : list Finding :=
  match l with [] => [f] | g :: l' => if finding_leb f g then f :: l else g :: insert_finding f l' end.
Definition sort_findings (l : list Finding) : list Finding := foldr insert_finding [] l.

(** One recommendation for every distinct action, most severe first. *)
Fixpoint recommend (seen : list string) (fs : list Finding) : list Recommendation :=
  match fs with
  | [] => []
  | f :: fs' =>
      let action := strip (fi_recommendation f) in
      if str_nonempty action && negb (bool_decide (action ∈ seen)) then
        {| rec_priority := severity_rank (fi_severity f); rec_action := action |}
          :: recommend (action :: seen) fs'
      else recommend seen fs'
  end.

(** [ReportBuilder.build] *)
Definition build_report (project : string) (fs : list Finding) : HealthReport :=
  let score := Z.max 0 (100 - total_penalty fs) in
  {| hr_project := project; hr_score := score;
     hr_state := if negb (count_of SEV_CRITICAL fs =? 0) || (score <? 60) then HS_CRITICAL
                 else if negb (bool_decide (fs = [])) then HS_DEGRADED else HS_HEALTHY;
     hr_critical := count_of SEV_CRITICAL fs; hr_high := count_of SEV_HIGH fs;
     hr_warning := count_of SEV_WARNING fs; hr_info := count_of SEV_INFO fs;
     hr_findings := fs; hr_recommendations := recommend [] (sort_findings fs) |}.

(** ** Analysis *)

(** An analyzer: its class name and what it finds, or the message it raises. *)
Definition analyzer : Type := string * (Project → list Finding + string).

Definition analyzer_failed (name message : string) : Finding :=
  {| fi_code := "ANALYZER_FAILED"; fi_component := name; fi_severity := SEV_WARNING;
     fi_title := "Health analyzer failed"; fi_description := message;
     fi_recommendation :=
       "Review the AIPM log and resolve the analyzer dependency or runtime error.";
     fi_resource := None |}.

(** [HealthEngine.analyze] *)
Definition analyze (analyzers : list analyzer) (p : Project) : HealthReport :=
  build_report (pj_name p)
    (List.flat_map (λ '(name, run), match run p with
                                    | inl fs => fs
                                    | inr message => [analyzer_failed name message]
                                    end) analyzers).

(** ** Verification *)

Definition format_findings (r : HealthReport) (s : Severity) : list string :=
  List.map (λ f, fi_component f ++ ": " ++ fi_title f ++ " (" ++ value s ++ ")")
    (of_severity s (hr_findings r)).
Definition passed_findings (r : HealthReport) : list string :=
  List.map (λ f, fi_component f ++ ": " ++ fi_title f) (of_severity SEV_INFO (hr_findings r)).

(** [UpdateVerifier.verify_update]; the report before the update is not read. *)
Definition verify_update (health_before health_after : option HealthReport) : UpdateVerification :=
  match health_after with
  | None =>
      {| uv_status := VS_FAILURE; uv_passed := []; uv_warnings := []; uv_failures := [];
         uv_error := Some "Health-after report is missing; the update outcome cannot be verified." |}
  | Some r =>
      match format_findings r SEV_CRITICAL with
      | [] =>
          match (format_findings r SEV_HIGH ++ format_findings r SEV_WARNING)%list with
          | [] => {| uv_status := VS_SUCCESS; uv_passed := passed_findings r; uv_warnings := [];
                     uv_failures := []; uv_error := None |}
          | warnings => {| uv_status := VS_WARNING; uv_passed := passed_findings r;
                           uv_warnings := warnings; uv_failures := []; uv_error := None |}
          end
      | failures => {| uv_status := VS_FAILURE; uv_passed := passed_findings r; uv_warnings := [];
                       uv_failures := failures; uv_error := None |}
      end
  end.

(** ** Lemmas *)

Lemma total_penalty_nonneg fs : 0 ≤ total_penalty fs.
Proof. induction fs as [|f fs IH]; cbn; [lia|]. destruct (fi_severity f); cbn; lia. Qed.

Lemma of_severity_nil s fs : of_severity s fs = [] ↔ ∀ f, f ∈ fs → fi_severity f ≠ s.
Proof.
  unfold of_severity. rewrite bfilter_nil. setoid_rewrite bool_decide_eq_false. done.
Qed.
Lemma format_nil r s : format_findings r s = [] ↔ of_severity s (hr_findings r) = [].
Proof. unfold format_findings. destruct (of_severity s (hr_findings r)); done. Qed.

Lemma count_of_cons s f fs :
  count_of s (f :: fs) = (if decide (fi_severity f = s) then 1 else 0) + count_of s fs.
Proof.
  unfold count_of, of_severity. cbn [List.filter].
  case_bool_decide; [rewrite decide_True by done|rewrite decide_False by done]; cbn [length]; lia.
Qed.
Lemma counts_total fs :
  count_of SEV_CRITICAL fs + count_of SEV_HIGH fs + count_of SEV_WARNING fs + count_of SEV_INFO fs =
  Z.of_nat (length fs).
Proof.
  induction fs as [|f fs IH]; [done|]. rewrite !count_of_cons. cbn [length].
  destruct (fi_severity f); repeat (case_decide; try done); lia.
Qed.

(** The state of a built report. *)
Lemma build_report_state project fs :
  (hr_state (build_report project fs) = HS_HEALTHY ↔ fs = []) ∧
  (hr_state (build_report project fs) = HS_CRITICAL ↔
   of_severity SEV_CRITICAL fs ≠ [] ∨ hr_score (build_report project fs) < 60).
Proof.
  assert (Hzero : (count_of SEV_CRITICAL fs =? 0) = bool_decide (of_severity SEV_CRITICAL fs = [])).
  { unfold count_of. destruct (of_severity SEV_CRITICAL fs); cbn [length]; [done|].
    rewrite bool_decide_eq_false_2 by done. apply Z.eqb_neq. lia. }
  unfold build_report. cbn [hr_state hr_score]. rewrite Hzero.
  destruct (Z.ltb_spec (Z.max 0 (100 - total_penalty fs)) 60) as [Hl|Hl].
  - rewrite orb_true_r. split; [|naive_solver]. split; [done|]. intros ->. cbn in Hl. lia.
  - rewrite orb_false_r. case_bool_decide as Hc; cbn.
    + case_bool_decide; cbn; split; split; naive_solver lia.
    + split; [split; [done|]; intros ->; done|]. naive_solver.
Qed.

Lemma verify_status r b :
  (uv_status (verify_update b (Some r)) = VS_FAILURE ↔ of_severity SEV_CRITICAL (hr_findings r) ≠ []) ∧
  (uv_status (verify_update b (Some r)) = VS_SUCCESS ↔
     of_severity SEV_CRITICAL (hr_findings r) = [] ∧ of_severity SEV_HIGH (hr_findings r) = [] ∧
     of_severity SEV_WARNING (hr_findings r) = []).
Proof.
  pose proof (format_nil r SEV_CRITICAL) as Hc. pose proof (format_nil r SEV_HIGH) as Hh.
  pose proof (format_nil r SEV_WARNING) as Hw. cbn [verify_update].
  destruct (format_findings r SEV_CRITICAL).
  - destruct (format_findings r SEV_HIGH), (format_findings r SEV_WARNING); cbn; naive_solver.
  - cbn. naive_solver.
Qed.

(** A health report built from findings has a score between 0 and 100 and
    consistent counts; it is critical exactly when a finding is or the score is
    below 60, healthy exactly without findings; and the update verifier fails
    it exactly for a critical finding and passes it without remark exactly when
    nothing is worse than informational. *)
Lemma report_and_verdict project fs before :
  let r := build_report project fs in
  let v := verify_update before (Some r) in
  0 ≤ hr_score r ≤ 100 ∧
  hr_critical r + hr_high r + hr_warning r + hr_info r = Z.of_nat (length fs) ∧
  (hr_state r = HS_HEALTHY ↔ fs = []) ∧
  (hr_state r = HS_CRITICAL ↔ (∃ f, f ∈ fs ∧ fi_severity f = SEV_CRITICAL) ∨ hr_score r < 60) ∧
  (rollback_required v = true ↔ ∃ f, f ∈ fs ∧ fi_severity f = SEV_CRITICAL) ∧
  (uv_status v = VS_SUCCESS ↔ ∀ f, f ∈ fs → fi_severity f = SEV_INFO).
Proof.
  intros r v. subst r v. pose proof (total_penalty_nonneg fs) as Hp.
  assert (Hcrit : of_severity SEV_CRITICAL fs ≠ [] ↔ ∃ f, f ∈ fs ∧ fi_severity f = SEV_CRITICAL).
  { split.
    - destruct (of_severity SEV_CRITICAL fs) as [|f l] eqn:E; [done|]. intros _. exists f.
      assert (f ∈ of_severity SEV_CRITICAL fs) as Hin by (rewrite E; by left).
      apply bfilter_elem in Hin as [? H%bool_decide_eq_true]. done.
    - intros (f & Hin & Hf) E. by apply (proj1 (of_severity_nil SEV_CRITICAL fs) E f). }
  destruct (verify_status (build_report project fs) before) as [Hf Hs].
  destruct (build_report_state project fs) as [Hh Hst]. split_and!.
  - cbn. lia.
  - cbn. lia.
  - apply counts_total.
  - exact Hh.
  - rewrite Hst, Hcrit. done.
  - unfold rollback_required. rewrite bool_decide_eq_true, Hf. exact Hcrit.
  - rewrite Hs. cbn [hr_findings build_report]. rewrite !of_severity_nil. split.
    + intros (H1 & H2 & H3) f Hin. specialize (H1 f Hin). specialize (H2 f Hin). specialize (H3 f Hin).
      by destruct (fi_severity f).
    + intros H. split_and!; intros f Hin; rewrite (H f Hin); done.
Qed.
