(* ===== verification/GitPosture.v ===== *)
(** * GitPosture: git state, safety stash and the update decision

    [ConflictAnalyzer] (services/git/conflicts.py), [classify_git_posture]
    (services/git/posture.py) and [GitService.prepare_update]
    (services/git/service.py).  The repository observation and the list of files
    an incoming pull changes come from the git provider and are arguments.

    The health analysis uses the posture, the planner uses [prepare_update];
    [git_update_decision] says how the two decisions are related. *)

From S2P Require Import Prelude PyStr PyText Models UpdateModel.
From Stdlib Require Import Ascii String ZArith Lia.
From stdpp Require Import base strings pretty list.

Local Open Scope string_scope.
Local Open Scope Z_scope.

(** ** Conflicts *)

Definition CRITICAL_FILES : list string :=
  ["docker-compose.yml"; "compose.yaml"; "compose.yml"; "Dockerfile"; "start_services.py";
   "requirements.txt"; "pyproject.toml"; "package.json"; ".env"; ".env.local"; ".env.local.backup"].

Definition is_critical (file : string) : bool := mem (path_name file) CRITICAL_FILES.

(** [ConflictAnalyzer.classify]: critical and normal files. *)
Definition classify_files (files : list string) : list string * list string :=
  (List.filter is_critical files, List.filter (λ f, negb (is_critical f)) files).
Definition requires_manual_review (files : list string) : bool :=
  negb (bool_decide (fst (classify_files files) = [])).

(** ** Posture *)

Inductive GitPostureLevel :=
  | CONFLICTS | UNSAFE | CRITICAL_MODIFIED | TRACKED_MODIFIED | BENIGN_UNTRACKED | CLEAN.
#[export] Instance GitPostureLevel_eq_dec : EqDecision GitPostureLevel.
Proof. solve_decision. Defined.

Record GitPostureAssessment := {
  pa_level : GitPostureLevel;
  pa_finding_severity : Severity;
  pa_risk : UpdateRisk;
  pa_proceed : bool;
  pa_review_required : bool;
  pa_stash_required : bool;
  pa_reasons : list string;
  pa_critical_files : list string;
  pa_normal_files : list string;
  pa_findings : list Finding;
}.

Definition git_finding code severity title description recommendation : Finding :=
  {| fi_code := code; fi_component := "Git"; fi_severity := severity; fi_title := title;
     fi_description := description; fi_recommendation := recommendation; fi_resource := None |}.

Definition assessment level severity risk proceed stash reasons critical normal findings
  : GitPostureAssessment :=
  {| pa_level := level; pa_finding_severity := severity; pa_risk := risk; pa_proceed := proceed;
     pa_review_required := negb proceed; pa_stash_required := stash; pa_reasons := reasons;
     pa_critical_files := critical; pa_normal_files := normal; pa_findings := findings |}.

Definition stash_reason : string :=
  "Uncommitted changes detected in non-critical files; AIPM can preserve them in a safety stash.".

Definition posture_not_found : GitPostureAssessment :=
  assessment UNSAFE SEV_HIGH RISK_BLOCKED false false ["Project is not a Git repository."] [] []
    [git_finding "GIT_NOT_FOUND" SEV_HIGH "Repository not found" "Project is not a Git repository."
       "Initialize or clone the repository."].
Definition posture_clean : GitPostureAssessment :=
  assessment CLEAN SEV_INFO RISK_LOW true false [] [] [] [].

(** [classify_git_posture] *)
Definition classify_git_posture (repository : option GitRepository) : GitPostureAssessment :=
  match repository with
  | Some r =>
    if negb (gr_exists r) then posture_not_found
    else if negb (bool_decide (gr_conflicted_files r = [])) then
      let count := pretty (Z.of_nat (length (gr_conflicted_files r))) in
      assessment CONFLICTS SEV_CRITICAL RISK_BLOCKED false false
        ["Unresolved merge conflicts in " ++ count ++ " file(s)."]
        (sorted_list (gr_conflicted_files r)) []
        [git_finding "GIT_CONFLICTS" SEV_CRITICAL "Unresolved merge conflicts detected"
           (count ++ " file(s) contain unresolved conflicts.")
           "Resolve all conflicts before running AIPM update operations."]
    else if gr_detached r then
      assessment UNSAFE SEV_HIGH RISK_BLOCKED false false
        ["Repository is in detached HEAD state."] [] []
        [git_finding "GIT_DETACHED_HEAD" SEV_HIGH "Repository is in detached HEAD state"
           "The project is not currently checked out on a named branch."
           "Check out the intended deployment branch before updating."]
    else if gr_dirty r then
      let '(c, n) := classify_files (deduplicate (gr_modified_files r ++ gr_untracked_files r)%list) in
      let critical := sorted_list c in
      let normal := sorted_list n in
      if negb (bool_decide (critical = [])) then
        assessment CRITICAL_MODIFIED SEV_HIGH RISK_BLOCKED false false
          ["Critical infrastructure files modified: " ++ join_with ", " critical ++ "."] critical normal
          [git_finding "GIT_DIRTY_CRITICAL" SEV_HIGH "Critical infrastructure files modified"
             ("The working tree modifies critical infrastructure files: " ++ join_with ", " critical ++ ".")
             "Revert or review changes to critical files before updating."]
      else if negb (bool_decide (gr_modified_files r = [])) then
        assessment TRACKED_MODIFIED SEV_WARNING RISK_MEDIUM true true [stash_reason] [] normal
          [git_finding "GIT_DIRTY_TRACKED" SEV_WARNING "Uncommitted changes in tracked files"
             "Non-critical tracked files are modified; AIPM can preserve them in a safety stash."
             "Review or commit changes before updating."]
      else if negb (bool_decide (gr_untracked_files r = [])) then
        assessment BENIGN_UNTRACKED SEV_WARNING RISK_LOW true true [stash_reason] [] normal
          [git_finding "GIT_DIRTY_UNTRACKED" SEV_WARNING "Untracked non-critical files detected"
             "Non-critical untracked files detected in working tree."
             "Untracked non-critical files can be preserved in a safety stash."]
      else posture_clean
    else posture_clean
  | None => posture_not_found
  end.

(** ** The update decision *)

(** [GitService.prepare_update]; [incoming] is what the provider says an
    incoming pull changes ([None] when that could not be analyzed). *)
Definition prepare_update (r : GitRepository) (incoming : option (list string)) : GitUpdatePlan :=
  if negb (gr_exists r) then
    {| gp_proceed := false; gp_stash_required := false; gp_fetch_required := false;
       gp_pull_required := false; gp_review_required := true; gp_rollback_required := false;
       gp_reasons := ["Project is not a Git repository."] |}
  else
    let posture := classify_git_posture (Some r) in
    let remote := truthy (gr_remote_url r) in
    let '(incoming_review, incoming_reasons) :=
      if remote then
        match incoming with
        | None =>
            (true, ["Incoming remote changes could not be analyzed read-only; manual review is required."])
        | Some [] => (false, [])
        | Some files =>
            match fst (classify_files files) with
            | [] => (false, [pretty (Z.of_nat (length files)) ++ " file(s) will change on pull: "
                             ++ join_with ", " files ++ "."])
            | critical =>
                (true, ["Incoming remote changes modify critical infrastructure files: "
                        ++ join_with ", " critical ++ "."])
            end
        end
      else (false, []) in
    let unclean := negb (bool_decide (gr_conflicted_files r = [])) || gr_dirty r in
    let review := gr_detached r || incoming_review || negb (gr_ahead r =? 0)
                  || (unclean && pa_review_required posture) in
    {| gp_proceed := negb review;
       gp_stash_required := unclean && pa_stash_required posture;
       gp_fetch_required := remote;
       gp_pull_required := remote && (0 <? gr_behind r);
       gp_review_required := review;
       gp_rollback_required := false;
       gp_reasons :=
         ((if gr_detached r then ["Repository is in detached HEAD state."] else []) ++
          incoming_reasons ++
          (if gr_ahead r =? 0 then [] else ["Local commits have not been pushed."]) ++
          (if gr_behind r =? 0 then [] else [(pretty (gr_behind r) ++ " commits available.")%string]) ++
          (if unclean then List.filter (λ t, negb (str_in "detached" t)) (pa_reasons posture) else []) ++
          (if bool_decide (gr_stashes r = []) then []
           else [(pretty (Z.of_nat (length (gr_stashes r))) ++ " stash(es) exist.")%string]))%list |}.

(** ** The two decisions agree *)

(** The posture proceeds exactly for a present, conflict-free, attached
    repository without critical local changes. *)
Lemma posture_proceed_iff r :
  pa_proceed (classify_git_posture (Some r)) = true ↔
  gr_exists r = true ∧ gr_conflicted_files r = [] ∧ gr_detached r = false ∧
  (gr_dirty r = true → ∀ f, f ∈ gr_modified_files r ∨ f ∈ gr_untracked_files r → is_critical f = false).
Proof.
  unfold classify_git_posture. destruct (gr_exists r); cbn; [|naive_solver].
  destruct (gr_conflicted_files r) as [|x l]; cbn; [|naive_solver].
  destruct (gr_detached r); cbn; [naive_solver|]. destruct (gr_dirty r); cbn; [|naive_solver].
  set (files := deduplicate _).
  assert (Hfiles : ∀ f, f ∈ files ↔ f ∈ gr_modified_files r ∨ f ∈ gr_untracked_files r).
  { intros f. subst files. rewrite (proj2 (deduplicate_spec _)). apply elem_of_app. }
  assert (Hcrit : sorted_list (List.filter is_critical files) = [] ↔ ∀ f, f ∈ files → is_critical f = false)
    by (rewrite sorted_list_nil; apply bfilter_nil).
  case_bool_decide as Hc; cbn.
  - rewrite Hcrit in Hc.
    assert (Hyes : ∀ f, f ∈ gr_modified_files r ∨ f ∈ gr_untracked_files r → is_critical f = false)
      by (intros f Hf; apply Hc; by apply Hfiles).
    destruct (bool_decide (gr_modified_files r = [])), (bool_decide (gr_untracked_files r = [])); cbn; naive_solver.
  - split; [done|]. intros (_ & _ & _ & H). exfalso. apply Hc, Hcrit. intros f Hf. apply H; [done|]. by apply Hfiles.
Qed.

(** No critical file among the local changes. *)
Definition local_changes_safe (r : GitRepository) : Prop :=
  gr_dirty r = true → ∀ f, f ∈ gr_modified_files r ∨ f ∈ gr_untracked_files r → is_critical f = false.
(** The incoming changes are known and touch no critical file. *)
Definition incoming_safe (r : GitRepository) (incoming : option (list string)) : Prop :=
  truthy (gr_remote_url r) = true → ∃ files, incoming = Some files ∧ ∀ f, f ∈ files → is_critical f = false.

Lemma posture_review r : pa_review_required (classify_git_posture r) = negb (pa_proceed (classify_git_posture r)).
Proof. unfold classify_git_posture. repeat case_match; done. Qed.

Lemma posture_stash_iff r :
  pa_stash_required (classify_git_posture (Some r)) = true ↔
  pa_proceed (classify_git_posture (Some r)) = true ∧ gr_dirty r = true ∧
  (gr_modified_files r ≠ [] ∨ gr_untracked_files r ≠ []).
Proof.
  unfold classify_git_posture. destruct (gr_exists r); cbn; [|naive_solver].
  destruct (gr_conflicted_files r); cbn; [|naive_solver]. destruct (gr_detached r); cbn; [naive_solver|].
  destruct (gr_dirty r); cbn; [|naive_solver]. case_bool_decide; cbn; [|naive_solver].
  case_bool_decide; cbn; [|naive_solver]. case_bool_decide; cbn; naive_solver.
Qed.

(** Does the pull need a review? *)
Lemma incoming_review_iff r incoming :
  gr_exists r = true →
  gp_proceed (prepare_update r incoming) = true ↔
  gr_detached r = false ∧ gr_ahead r = 0 ∧ incoming_safe r incoming ∧
  (gr_conflicted_files r ≠ [] ∨ gr_dirty r = true → pa_proceed (classify_git_posture (Some r)) = true).
Proof.
  intros He. unfold prepare_update. rewrite He. cbn [negb]. rewrite posture_review.
  generalize (pa_proceed (classify_git_posture (Some r))) as pr. intros pr.
  set (inc := if truthy (gr_remote_url r) then _ else _).
  assert (Hinc : fst inc = false ↔ incoming_safe r incoming).
  { subst inc. unfold incoming_safe. destruct (truthy (gr_remote_url r)); cbn; [|naive_solver].
    destruct incoming as [[|f l]|]; cbn.
    - split; [|done]. intros _ _. exists []. split; [done|]. by intros f ?%not_elem_of_nil.
    - destruct (List.filter is_critical (f :: l)) eqn:E; cbn in E; rewrite E; cbn.
      + split; [|done]. intros _ _. exists (f :: l). split; [done|]. by apply bfilter_nil.
      + split; [done|]. intros H. destruct (H eq_refl) as (files & [= <-] & Hf).
        apply bfilter_nil in Hf. cbn in Hf. congruence.
    - naive_solver. }
  destruct inc as [ir rs]. cbn [fst snd] in *. cbn [gp_proceed].
  rewrite negb_true_iff, !orb_false_iff, andb_false_iff, Hinc, !negb_false_iff, Z.eqb_eq.
  split.
  - intros [[[? ?] ?] Hu]. split_and!; try done. destruct Hu as [[Hc Hd]%orb_false_iff|?]; [|done].
    rewrite negb_false_iff, bool_decide_eq_true in Hc. intros [?|?]; congruence.
  - intros (? & ? & ? & H). split_and!; try done.
    destruct (bool_decide (gr_conflicted_files r = [])) eqn:Hc, (gr_dirty r) eqn:Hd; cbn;
      [right; apply H; by right|by left| |]; right; apply H; left; by apply bool_decide_eq_false in Hc.
Qed.

(** An update proceeds exactly for a present, conflict-free, attached
    repository without unpushed commits whose local and incoming changes touch
    no critical file; whatever the planner lets proceed the health posture lets
    proceed too, and a stash is planned exactly for the uncommitted changes such
    a posture reports. *)
Lemma git_update_decision r incoming :
  let plan := prepare_update r incoming in
  let posture := classify_git_posture (Some r) in
  (gp_proceed plan = true ↔
     gr_exists r = true ∧ gr_conflicted_files r = [] ∧ gr_detached r = false ∧ gr_ahead r = 0 ∧
     local_changes_safe r ∧ incoming_safe r incoming) ∧
  (gp_proceed plan = true → pa_proceed posture = true) ∧
  (gp_stash_required plan = true ↔
     pa_proceed posture = true ∧ gr_dirty r = true ∧ (gr_modified_files r ≠ [] ∨ gr_untracked_files r ≠ [])).
Proof.
  intros plan posture. subst plan posture.
  assert (Hiff : gp_proceed (prepare_update r incoming) = true ↔
     gr_exists r = true ∧ gr_conflicted_files r = [] ∧ gr_detached r = false ∧ gr_ahead r = 0 ∧
     local_changes_safe r ∧ incoming_safe r incoming).
  { destruct (gr_exists r) eqn:He; [|unfold prepare_update; rewrite He; cbn; naive_solver].
    rewrite incoming_review_iff by done. rewrite posture_proceed_iff, He. fold (local_changes_safe r).
    destruct (decide (gr_conflicted_files r = [])) as [->|Hc].
    - destruct (gr_dirty r) eqn:Hd; [tauto|]. unfold local_changes_safe. rewrite Hd. tauto.
    - tauto. }
  split_and!; [done| |].
  - rewrite Hiff, posture_proceed_iff. unfold local_changes_safe. tauto.
  - rewrite <- posture_stash_iff. unfold prepare_update.
    destruct (gr_exists r) eqn:He; cbn [negb].
    + destruct (if truthy (gr_remote_url r) then _ else _) as [ir rs]. cbn [gp_stash_required].
      rewrite andb_true_iff. split; [tauto|]. intros H. split; [|done].
      apply posture_stash_iff in H as (_ & -> & _). apply orb_true_r.
    + unfold classify_git_posture. rewrite He. done.
Qed.
