(* ===== verification/UpdateIdentity.v ===== *)
(** * UpdateIdentity: canonical identity and digest of update plans

    services/update/plan_identity.py: [UpdatePlanIdentity] with its validation,
    the canonical payload in which absent fields are absent keys, the digest, and
    the derivation from an [UpdatePlan].  [update_digest_binds] says that the
    digest binds every field: an approval of a digest is an approval of exactly
    one identity. *)

From S2P Require Import Prelude PyStr PyText PyTime Sha256 Json PyDict Models Identity AuditLedger.
From S2P Require Import UpdateModel.
From Stdlib Require Import Ascii String ZArith Lia.
From stdpp Require Import base strings list.

Local Open Scope string_scope.
Local Open Scope Z_scope.
Local Open Scope aipm_scope.

Definition PLAN_IDENTITY_VERSION : string := "mc612-update-plan-identity-v1".
Definition MAX_IDENTITY_TEXT : Z := 512.
Definition MAX_IDENTITY_LIST : nat := 64.
Definition MAX_GIT_SHA_LENGTH : Z := 64.

Record UpdatePlanIdentity := {
  ui_project : string;
  ui_dry_run : bool;
  ui_proceed : bool;
  ui_approval_required : bool;
  ui_risk : string;
  ui_reasons : list string;
  ui_actions : list string;
  ui_snapshot_required : bool;
  ui_estimated_restart : bool;
  ui_stash_required : bool;
  ui_pull_required : bool;
  ui_git_exists : option bool;
  ui_git_branch : option string;
  ui_git_dirty : option bool;
  ui_git_detached : option bool;
  ui_git_ahead : option Z;
  ui_git_behind : option Z;
  ui_git_current_sha : option string;
  ui_git_remote_sha : option string;
  ui_git_modified_files : option (list string);
  ui_git_untracked_files : option (list string);
  ui_git_conflicted_files : option (list string);
  ui_git_stash_count : option Z;
  ui_health_state : option string;
  ui_health_score : option Z;
  ui_health_critical : option Z;
  ui_health_high : option Z;
  ui_health_warning : option Z;
  ui_health_info : option Z;
  ui_runtime_mode : option string;
  ui_systemd_units : option (list string);
  ui_systemd_action : option string;
  ui_health_probe_contract : option string;
  ui_service_name : option string;
  ui_target_digest : option string;
  ui_current_digest : option string;
  ui_candidate_lookup_key : option string;
  ui_dependency_scope : option (list string);
  ui_atomicity : option string;
  ui_observation_freshness : option string;
  ui_version : string;
}.
#[export] Instance UpdatePlanIdentity_eq_dec : EqDecision UpdatePlanIdentity.
Proof. solve_decision. Defined.

(** ** Validation *)

Definition valid_project_identity (s : string) : bool :=
  str_nonempty s && (slen s <=? 128) && negb (str_any is_control s)
  && negb (has_char "/" s) && negb (has_char "\" s).
Definition valid_text (s : string) : bool :=
  str_nonempty s && (slen s <=? MAX_IDENTITY_TEXT) && negb (str_any is_control s).
Definition valid_texts (l : list string) : bool :=
  (length l <=? MAX_IDENTITY_LIST)%nat && List.forallb valid_text l.
(** [if value is not None: ...] *)
Definition valid_opt {A} (p : A → bool) (o : option A) : bool :=
  match o with Some a => p a | None => true end.
Definition valid_count (z : Z) : bool := 0 <=? z.
Definition valid_sha (s : string) : bool := str_nonempty s && (slen s <=? MAX_GIT_SHA_LENGTH).

Definition RISK_VALUES : list string := ["low"; "medium"; "high"; "blocked"].

(** [UpdatePlanIdentity.__post_init__] *)
Definition new_UpdatePlanIdentity (i : UpdatePlanIdentity) : result UpdatePlanIdentity :=
  require valid_project_identity (ui_project i) else_raise ValueError;;
  require str_eqb (ui_version i) PLAN_IDENTITY_VERSION else_raise ValueError;;
  require mem (ui_risk i) RISK_VALUES else_raise ValueError;;
  require valid_texts (ui_reasons i) else_raise ValueError;;
  require valid_texts (ui_actions i) else_raise ValueError;;
  require valid_opt valid_text (ui_runtime_mode i) else_raise ValueError;;
  require valid_opt valid_text (ui_systemd_action i) else_raise ValueError;;
  require valid_opt valid_text (ui_health_probe_contract i) else_raise ValueError;;
  require valid_opt valid_texts (ui_systemd_units i) else_raise ValueError;;
  require List.forallb (valid_opt valid_texts)
    [ui_git_modified_files i; ui_git_untracked_files i; ui_git_conflicted_files i]
    else_raise ValueError;;
  require valid_opt valid_text (ui_git_branch i) else_raise ValueError;;
  require List.forallb (valid_opt valid_count)
    [ui_git_ahead i; ui_git_behind i; ui_git_stash_count i; ui_health_score i; ui_health_critical i;
     ui_health_high i; ui_health_warning i; ui_health_info i] else_raise ValueError;;
  require List.forallb (valid_opt valid_sha) [ui_git_current_sha i; ui_git_remote_sha i]
    else_raise ValueError;;
  require List.forallb (valid_opt valid_text)
    [ui_health_state i; ui_service_name i; ui_target_digest i; ui_current_digest i;
     ui_candidate_lookup_key i] else_raise ValueError;;
  require valid_opt valid_texts (ui_dependency_scope i) else_raise ValueError;;
  require List.forallb (valid_opt valid_text) [ui_atomicity i; ui_observation_freshness i]
    else_raise ValueError;;
  Ok i.

(** ** Canonical payload and digest *)

Definition texts_json (l : list string) : json := JArr (List.map JStr l).

(** [canonical_payload]: the entries that are [None] are left out. *)
Definition identity_entries (i : UpdatePlanIdentity) : list (string * option json) :=
  [("actions", Some (texts_json (ui_actions i)));
   ("approval_required", Some (JBool (ui_approval_required i)));
   ("dry_run", Some (JBool (ui_dry_run i)));
   ("estimated_restart", Some (JBool (ui_estimated_restart i)));
   ("project", Some (JStr (ui_project i)));
   ("proceed", Some (JBool (ui_proceed i)));
   ("pull_required", Some (JBool (ui_pull_required i)));
   ("reasons", Some (texts_json (ui_reasons i)));
   ("risk", Some (JStr (ui_risk i)));
   ("snapshot_required", Some (JBool (ui_snapshot_required i)));
   ("stash_required", Some (JBool (ui_stash_required i)));
   ("version", Some (JStr (ui_version i)));
   ("git_ahead", JInt <$> ui_git_ahead i);
   ("git_behind", JInt <$> ui_git_behind i);
   ("git_branch", JStr <$> ui_git_branch i);
   ("git_conflicted_files", texts_json <$> ui_git_conflicted_files i);
   ("git_current_sha", JStr <$> ui_git_current_sha i);
   ("git_detached", JBool <$> ui_git_detached i);
   ("git_dirty", JBool <$> ui_git_dirty i);
   ("git_exists", JBool <$> ui_git_exists i);
   ("git_modified_files", texts_json <$> ui_git_modified_files i);
   ("git_remote_sha", JStr <$> ui_git_remote_sha i);
   ("git_stash_count", JInt <$> ui_git_stash_count i);
   ("git_untracked_files", texts_json <$> ui_git_untracked_files i);
   ("health_critical", JInt <$> ui_health_critical i);
   ("health_high", JInt <$> ui_health_high i);
   ("health_info", JInt <$> ui_health_info i);
   ("health_score", JInt <$> ui_health_score i);
   ("health_state", JStr <$> ui_health_state i);
   ("health_warning", JInt <$> ui_health_warning i);
   ("health_probe_contract", JStr <$> ui_health_probe_contract i);
   ("runtime_mode", JStr <$> ui_runtime_mode i);
   ("systemd_action", JStr <$> ui_systemd_action i);
   ("systemd_units", texts_json <$> ui_systemd_units i);
   ("service_name", JStr <$> ui_service_name i);
   ("target_digest", JStr <$> ui_target_digest i);
   ("current_digest", JStr <$> ui_current_digest i);
   ("candidate_lookup_key", JStr <$> ui_candidate_lookup_key i);
   ("dependency_scope", texts_json <$> ui_dependency_scope i);
   ("atomicity", JStr <$> ui_atomicity i);
   ("observation_freshness", JStr <$> ui_observation_freshness i)].
Definition identity_json (i : UpdatePlanIdentity) : string := dumps (JObj (cleaned (identity_entries i))).
Definition identity_digest (i : UpdatePlanIdentity) : string := sha256_hex (identity_json i).

(** ** Derivation from a plan *)

(** [_normalize_file_list] *)
Definition normalize_file_list (l : list string) : list string := sorted_set l.

(** [UpdatePlanIdentity.from_plan] *)
Definition from_plan (p : UpdatePlan) : result UpdatePlanIdentity :=
  let git := up_git p in
  let health := up_health_before p in
  new_UpdatePlanIdentity
    {| ui_project := up_project p; ui_dry_run := up_dry_run p; ui_proceed := up_proceed p;
       ui_approval_required := up_approval_required p; ui_risk := value (up_risk p);
       ui_reasons := up_reasons p; ui_actions := up_actions p;
       ui_snapshot_required := up_snapshot_required p;
       ui_estimated_restart := up_estimated_restart p;
       ui_stash_required := up_stash_required p; ui_pull_required := up_pull_required p;
       ui_git_exists := gr_exists <$> git; ui_git_branch := git ≫= gr_branch;
       ui_git_dirty := gr_dirty <$> git; ui_git_detached := gr_detached <$> git;
       ui_git_ahead := gr_ahead <$> git; ui_git_behind := gr_behind <$> git;
       ui_git_current_sha := git ≫= gr_current_sha; ui_git_remote_sha := git ≫= gr_remote_sha;
       ui_git_modified_files := (λ g, normalize_file_list (gr_modified_files g)) <$> git;
       ui_git_untracked_files := (λ g, normalize_file_list (gr_untracked_files g)) <$> git;
       ui_git_conflicted_files := (λ g, normalize_file_list (gr_conflicted_files g)) <$> git;
       ui_git_stash_count := (λ g, Z.of_nat (length (gr_stashes g))) <$> git;
       ui_health_state := (λ h, value (hr_state h)) <$> health;
       ui_health_score := hr_score <$> health; ui_health_critical := hr_critical <$> health;
       ui_health_high := hr_high <$> health; ui_health_warning := hr_warning <$> health;
       ui_health_info := hr_info <$> health;
       ui_runtime_mode := Some (up_runtime_mode p);
       ui_systemd_units := if bool_decide (up_systemd_units p = []) then None
                           else Some (sorted_list (up_systemd_units p));
       ui_systemd_action := up_systemd_action p;
       ui_health_probe_contract := up_health_probe_contract p;
       ui_service_name := None; ui_target_digest := None; ui_current_digest := None;
       ui_candidate_lookup_key := None; ui_dependency_scope := None; ui_atomicity := None;
       ui_observation_freshness := None; ui_version := PLAN_IDENTITY_VERSION |}.

(** [update_plan_digest] *)
Definition update_plan_digest (p : UpdatePlan) : result string :=
  let* i := from_plan p in Ok (identity_digest i).

(** ** The digest binds the identity *)

Lemma texts_json_canon l : canon (texts_json l) = texts_json l.
Proof.
  unfold texts_json. cbn. f_equal. rewrite List.map_map. apply List.map_ext. done.
Qed.
Lemma texts_json_inj l1 l2 : texts_json l1 = texts_json l2 → l1 = l2.
Proof.
  unfold texts_json. intros [= H]. revert l2 H. induction l1 as [|a l1 IH]; intros [|b l2]; cbn; try done.
  intros [= -> H]. f_equal. auto.
Qed.
Lemma fmap_texts_inj (a b : option (list string)) :
  canon <$> (texts_json <$> a) = canon <$> (texts_json <$> b) → a = b.
Proof.
  destruct a, b; cbn [fmap option_fmap option_map]; rewrite ?texts_json_canon; try done.
  intros [= H]. f_equal. apply texts_json_inj. unfold texts_json. by f_equal.
Qed.
Lemma fmap_JBool_inj (a b : option bool) : canon <$> (JBool <$> a) = canon <$> (JBool <$> b) → a = b.
Proof. destruct a, b; cbn; congruence. Qed.

Lemma identity_entries_wf i : dwf (identity_entries i).
Proof. unfold dwf, dkeys. cbn [identity_entries fmap list_fmap]. by apply (bool_decide_unpack _); vm_compute. Qed.

(** The entry of a key is determined by the canonical text. *)
Lemma identity_entry_inj i j :
  identity_json i = identity_json j →
  ∀ k, canon <$> mjoin (dget k (identity_entries i)) = canon <$> mjoin (dget k (identity_entries j)).
Proof.
  intros H. exact (canonical_get_inj _ _ (identity_entries_wf i) (identity_entries_wf j) H).
Qed.

Lemma identity_json_inj i j : identity_json i = identity_json j → i = j.
Proof.
  intros H. pose proof (identity_entry_inj i j H) as K. clear H.
  assert (KS : ∀ k a b, mjoin (dget k (identity_entries i)) = Some (JStr a) →
             mjoin (dget k (identity_entries j)) = Some (JStr b) → a = b).
  { intros k a b Ha Hb. specialize (K k). rewrite Ha, Hb in K. by injection K. }
  assert (KB : ∀ k a b, mjoin (dget k (identity_entries i)) = Some (JBool a) →
             mjoin (dget k (identity_entries j)) = Some (JBool b) → a = b).
  { intros k a b Ha Hb. specialize (K k). rewrite Ha, Hb in K. by injection K. }
  assert (KT : ∀ k a b, mjoin (dget k (identity_entries i)) = Some (texts_json a) →
             mjoin (dget k (identity_entries j)) = Some (texts_json b) → a = b).
  { intros k a b Ha Hb. specialize (K k). rewrite Ha, Hb in K. cbn [fmap option_fmap option_map] in K.
    rewrite !texts_json_canon in K. injection K as K. apply texts_json_inj. unfold texts_json. by f_equal. }
  pose proof (KT "actions" _ _ eq_refl eq_refl). pose proof (KB "approval_required" _ _ eq_refl eq_refl).
  pose proof (KB "dry_run" _ _ eq_refl eq_refl). pose proof (KB "estimated_restart" _ _ eq_refl eq_refl).
  pose proof (KS "project" _ _ eq_refl eq_refl). pose proof (KB "proceed" _ _ eq_refl eq_refl).
  pose proof (KB "pull_required" _ _ eq_refl eq_refl). pose proof (KT "reasons" _ _ eq_refl eq_refl).
  pose proof (KS "risk" _ _ eq_refl eq_refl). pose proof (KB "snapshot_required" _ _ eq_refl eq_refl).
  pose proof (KB "stash_required" _ _ eq_refl eq_refl). pose proof (KS "version" _ _ eq_refl eq_refl).
  pose proof (fmap_JInt_inj _ _ (K "git_ahead")). pose proof (fmap_JInt_inj _ _ (K "git_behind")).
  pose proof (fmap_JStr_inj _ _ (K "git_branch")). pose proof (fmap_texts_inj _ _ (K "git_conflicted_files")).
  pose proof (fmap_JStr_inj _ _ (K "git_current_sha")). pose proof (fmap_JBool_inj _ _ (K "git_detached")).
  pose proof (fmap_JBool_inj _ _ (K "git_dirty")). pose proof (fmap_JBool_inj _ _ (K "git_exists")).
  pose proof (fmap_texts_inj _ _ (K "git_modified_files")). pose proof (fmap_JStr_inj _ _ (K "git_remote_sha")).
  pose proof (fmap_JInt_inj _ _ (K "git_stash_count")). pose proof (fmap_texts_inj _ _ (K "git_untracked_files")).
  pose proof (fmap_JInt_inj _ _ (K "health_critical")). pose proof (fmap_JInt_inj _ _ (K "health_high")).
  pose proof (fmap_JInt_inj _ _ (K "health_info")). pose proof (fmap_JInt_inj _ _ (K "health_score")).
  pose proof (fmap_JStr_inj _ _ (K "health_state")). pose proof (fmap_JInt_inj _ _ (K "health_warning")).
  pose proof (fmap_JStr_inj _ _ (K "health_probe_contract")). pose proof (fmap_JStr_inj _ _ (K "runtime_mode")).
  pose proof (fmap_JStr_inj _ _ (K "systemd_action")). pose proof (fmap_texts_inj _ _ (K "systemd_units")).
  pose proof (fmap_JStr_inj _ _ (K "service_name")). pose proof (fmap_JStr_inj _ _ (K "target_digest")).
  pose proof (fmap_JStr_inj _ _ (K "current_digest")). pose proof (fmap_JStr_inj _ _ (K "candidate_lookup_key")).
  pose proof (fmap_texts_inj _ _ (K "dependency_scope")). pose proof (fmap_JStr_inj _ _ (K "atomicity")).
  pose proof (fmap_JStr_inj _ _ (K "observation_freshness")).
  clear K KS KB KT. destruct i, j. cbn in *. subst. reflexivity.
Qed.

(** Two update plan identities with the same digest are equal in every
    field, present or absent, unless their canonical texts are an explicit
    SHA-256 collision. *)
Lemma update_digest_binds i j :
  identity_digest i = identity_digest j → i = j ∨ collision (identity_json i) (identity_json j).
Proof.
  intros H. destruct (decide (identity_json i = identity_json j)) as [E|E].
  - left. by apply identity_json_inj.
  - right. by split.
Qed.
