(* ===== verification/ServicePlan.v ===== *)
(** * ServicePlan: update plans of single compose services

    The recursive [dfs] of [ComposeServiceUpdatePlanner._detect_cycle]
    (services/compose/planner.py) over any successor function.  The source
    recurses on the call stack; here the depth is bounded by a fuel and
    [cycle_search_correct] shows that one more than the number of nodes is always
    enough, and that the answer is true exactly when a cycle is reachable from
    the start.

    [ComposeServiceUpdatePlanner] itself with the plan values of
    models/compose_plan.py, [UpdatePlanIdentity.from_service_plan]
    (services/update/plan_identity.py) and the service evidence derived from a
    plan.  Constructing the plan identity can raise [ValueError], so planning is
    fallible.  [to_dict] renderings are not modelled. *)

From S2P Require Import Prelude PyStr PyText PyDict PyTime Sha256 Json Models Contract ImageRef ComposeModel.
From S2P Require Import UpdateModel UpdateIdentity.
From Stdlib Require Import ZArith Lia Ascii String.
From stdpp Require Import base strings relations list pretty.

Local Open Scope string_scope.
Local Open Scope Z_scope.
Local Open Scope aipm_scope.

Section dfs.
Variable successors : string → list string.

(** [for dep in depends_on: if dfs(dep): return True] *)
Fixpoint visit_all (visit : list string → string → option (bool * list string))
    (ds visited : list string) : option (bool * list string) :=
  match ds with
  | [] => Some (false, visited)
  | d :: ds' =>
      match visit visited d with
      | Some (false, visited') => visit_all visit ds' visited'
      | r => r
      end
  end.

(** [dfs(node)] with the current [visited] and [stack]; [None]: out of fuel. *)
Fixpoint dfs (fuel : nat) (stack visited : list string) (node : string) : option (bool * list string) :=
  if decide (node ∈ stack) then Some (true, visited)
  else if decide (node ∈ visited) then Some (false, visited)
  else match fuel with
       | O => None
       | S fuel' => visit_all (dfs fuel' (node :: stack)) (successors node) (node :: visited)
       end.

Definition edge (x y : string) : Prop := y ∈ successors x.

(** A node from which a cycle can be reached. *)
Definition leads_to_cycle (x : string) : Prop := ∃ c, rtc edge x c ∧ tc edge c c.

(** ** Found cycles are real *)

Lemma visit_all_true visit ds visited v' :
  visit_all visit ds visited = Some (true, v') →
  ∃ d v1 v2, d ∈ ds ∧ visit v1 d = Some (true, v2).
Proof.
  revert visited. induction ds as [|d ds IH]; intros visited; cbn; [done|].
  destruct (visit visited d) as [[[] v1]|] eqn:E; intros H; [|destruct (IH _ H) as (d' & ? & ? & ? & ?)|done].
  - exists d, visited, v1. split; [by left|done].
  - eexists d', _, _. split; [by right|done].
Qed.

Lemma dfs_true fuel : ∀ stack visited node v',
  (∀ s, s ∈ stack → tc edge s node) → dfs fuel stack visited node = Some (true, v') → leads_to_cycle node.
Proof.
  induction fuel as [|fuel IH]; intros stack visited node v' Hs; cbn; case_decide as Hin.
  - intros _. exists node. split; [done|by apply Hs].
  - by case_decide.
  - intros _. exists node. split; [done|by apply Hs].
  - case_decide; [done|]. intros (d & v1 & v2 & Hd & E)%visit_all_true.
    apply IH in E as (c & Hc & Hcc).
    + exists c. split; [|done]. by eapply rtc_l.
    + intros s [->|Hin']%elem_of_cons; [by constructor|]. eapply tc_r; [by apply Hs|done].
Qed.

(** ** Without a found cycle there is none *)

(** Finished nodes: visited and no longer on the stack. *)
Definition finished (stack visited : list string) (x : string) : Prop := x ∈ visited ∧ x ∉ stack.

Record settled (stack visited : list string) : Prop := {
  se_closed : ∀ x y, finished stack visited x → edge x y → finished stack visited y;
  se_acyclic : ∀ x, finished stack visited x → ¬ tc edge x x;
}.

Lemma settled_reach stack visited x y :
  settled stack visited → finished stack visited x → tc edge x y → finished stack visited y.
Proof. intros Hs Hx H. induction H as [x y Hxy|x y z Hxy _ IH]; eauto using se_closed. Qed.

(** Taking a node off the stack once all its successors are finished. *)
Lemma settled_pop stack visited node :
  node ∉ stack → node ∈ visited →
  settled (node :: stack) visited → (∀ d, edge node d → finished (node :: stack) visited d) →
  settled stack visited ∧ finished stack visited node.
Proof.
  intros Hn Hv Hs Hd.
  assert (Hcase : ∀ x, finished stack visited x ↔ x = node ∨ finished (node :: stack) visited x).
  { intros x. unfold finished. rewrite not_elem_of_cons. destruct (decide (x = node)) as [->|]; naive_solver. }
  assert (Hnode : ∀ y, tc edge node y → finished (node :: stack) visited y).
  { intros y H. inversion H as [? ? Hy|? z ? Hz Hy]; subst; [auto|]. eapply (settled_reach _ _ z); eauto. }
  split; [split|by split].
  - intros x y. rewrite !Hcase. intros [->|Hx] Hxy; right; [auto|]. by eapply se_closed.
  - intros x. rewrite Hcase. intros [->|Hx] Hxx.
    + apply Hnode in Hxx as [_ Hxx]. apply Hxx. by left.
    + by eapply se_acyclic.
Qed.

(** Entering a node changes nothing about finished nodes. *)
Lemma settled_push stack visited node :
  settled stack visited → node ∉ visited → settled (node :: stack) (node :: visited).
Proof.
  intros [Hc Ha] Hn.
  assert (Hcase : ∀ x, finished (node :: stack) (node :: visited) x ↔ finished stack visited x).
  { intros x. unfold finished. rewrite not_elem_of_cons, elem_of_cons.
    destruct (decide (x = node)) as [->|]; naive_solver. }
  split; [intros x y; rewrite !Hcase; eauto|intros x; rewrite Hcase; eauto].
Qed.

(** What an answer "no cycle" leaves behind. *)
Definition explored (stack visited v' : list string) (targets : list string) : Prop :=
  settled stack v' ∧ visited ⊆ v' ∧ (∀ t, t ∈ targets → finished stack v' t).

Lemma visit_all_false visit stack ds : ∀ visited v',
  (∀ v d v1, settled stack v → visit v d = Some (false, v1) → explored stack v v1 [d]) →
  settled stack visited → visit_all visit ds visited = Some (false, v') → explored stack visited v' ds.
Proof.
  induction ds as [|d ds IH]; intros visited v' Hv Hs; cbn.
  - intros [= <-]. split_and!; [done|done|]. by intros t ?%not_elem_of_nil.
  - destruct (visit visited d) as [[[] v1]|] eqn:E; [done| |done]. intros H.
    destruct (Hv _ _ _ Hs E) as (Hs1 & Hsub1 & Hd). destruct (IH _ _ Hv Hs1 H) as (Hs2 & Hsub2 & Hds).
    split_and!; [done|by etrans|]. intros t [->|Ht]%elem_of_cons; [|auto].
    destruct (Hd d) as [Hin Hst]; [by left|]. split; [by apply Hsub2|done].
Qed.

Lemma dfs_false fuel : ∀ stack visited node v',
  settled stack visited → dfs fuel stack visited node = Some (false, v') → explored stack visited v' [node].
Proof.
  induction fuel as [|fuel IH]; intros stack visited node v' Hs; cbn; (case_decide as Hst; [done|]);
    case_decide as Hv; try done.
  1, 2: intros [= <-]; split_and!; [done|done|]; intros t ->%list_elem_of_singleton; by split.
  intros H. apply (visit_all_false _ (node :: stack)) in H as (Hs' & Hsub & Hd).
  - destruct (settled_pop stack v' node) as [Hs2 Hf]; [done|apply Hsub; by left|done|exact Hd|].
    split_and!; [done| |by intros t ->%list_elem_of_singleton]. intros x Hx. apply Hsub. by right.
  - intros v d v1 Hsv E. by apply IH.
  - by apply settled_push.
Qed.

(** ** Enough fuel *)

Section fuel.
Variable universe : list string.
Hypothesis universe_closed : ∀ x y, x ∈ universe → edge x y → y ∈ universe.

Definition fits (visited : list string) : Prop := NoDup visited ∧ visited ⊆ universe.

Lemma fits_room visited node :
  fits visited → node ∈ universe → node ∉ visited → (length visited < length universe)%nat.
Proof.
  intros [Hd Hs] Hn Hv. assert (NoDup (node :: visited)) as Hd' by by constructor.
  assert (node :: visited ⊆ universe) as Hs' by (intros x [->|?]%elem_of_cons; auto).
  apply (List.NoDup_incl_length (l := node :: visited)); [by apply NoDup_ListNoDup|].
  intros x Hx. apply list_elem_of_In, Hs'. by apply list_elem_of_In.
Qed.

Lemma visit_all_total visit ds : ∀ visited bound,
  (∀ v d, fits v → d ∈ universe → (bound ≤ length v)%nat →
     ∃ b v1, visit v d = Some (b, v1) ∧ fits v1 ∧ (length v ≤ length v1)%nat) →
  (∀ d, d ∈ ds → d ∈ universe) → fits visited → (bound ≤ length visited)%nat →
  ∃ b v1, visit_all visit ds visited = Some (b, v1) ∧ fits v1 ∧ (length visited ≤ length v1)%nat.
Proof.
  induction ds as [|d ds IH]; intros visited bound Hv Hu Hf Hb; cbn; [by exists false, visited|].
  destruct (Hv visited d) as (b & v1 & -> & Hf1 & Hl); [done|apply Hu; by left|done|].
  destruct b; [by exists true, v1|].
  destruct (IH v1 bound Hv) as (b2 & v2 & -> & Hf2 & Hl2); [intros; apply Hu; by right|done|lia|].
  exists b2, v2. split_and!; [done|done|lia].
Qed.

Lemma dfs_total fuel : ∀ stack visited node,
  fits visited → node ∈ universe → (length universe ≤ fuel + length visited)%nat →
  ∃ b v', dfs fuel stack visited node = Some (b, v') ∧ fits v' ∧ (length visited ≤ length v')%nat.
Proof.
  induction fuel as [|fuel IH]; intros stack visited node Hf Hn Hfuel; cbn;
    (case_decide; [by exists true, visited|]); (case_decide as Hv; [by exists false, visited|]);
    pose proof (fits_room visited node Hf Hn Hv) as Hroom; [lia|].
  assert (Hf' : fits (node :: visited)).
  { destruct Hf as [Hd Hs]. split; [by constructor|]. intros x [->|?]%elem_of_cons; auto. }
  destruct (visit_all_total (dfs fuel (node :: stack)) (successors node) (node :: visited) (S (length visited)))
    as (b & v' & -> & Hf2 & Hl); [| |done|done|].
  - intros v d Hfv Hd Hlen. apply IH; [done|done|lia].
  - intros d Hd. by apply (universe_closed node).
  - exists b, v'. split_and!; [done|done|]. cbn in Hl. lia.
Qed.

(** The search from an empty state, with fuel for every node, decides whether
    a cycle is reachable. *)
Lemma cycle_search_correct start :
  start ∈ universe →
  ∃ b v, dfs (length universe) [] [] start = Some (b, v) ∧ (b = true ↔ leads_to_cycle start).
Proof.
  intros Hn. destruct (dfs_total (length universe) [] [] start) as (b & v & E & _ & _).
  { split; [constructor|]. by intros x ?%not_elem_of_nil. } { done. } { cbn. lia. }
  exists b, v. split; [done|]. destruct b.
  - split; [|done]. intros _. eapply dfs_true; [|exact E]. by intros s ?%not_elem_of_nil.
  - split; [done|]. apply dfs_false in E as (Hs & _ & Hf).
    2: { split; intros x; [intros y|]; intros [?%not_elem_of_nil _]; done. }
    specialize (Hf start). intros (c & Hc & Hcc). exfalso.
    assert (finished [] v c) as Hfc.
    { assert (finished [] v start) as Hst by (apply Hf; by left). clear -Hs Hc Hst.
      induction Hc as [|x y z Hxy _ IH]; [done|]. apply IH. by eapply se_closed. }
    by apply (se_acyclic _ _ Hs c Hfc).
Qed.
End fuel.
End dfs.

(** ** Data *)

Inductive ServiceUpdateAtomicity := LEAF_INDEPENDENT | ATOMIC_TIGHT | AT_BLOCKED.
#[export] Instance ServiceUpdateAtomicity_eq_dec : EqDecision ServiceUpdateAtomicity.
Proof. solve_decision. Defined.
#[export] Instance ServiceUpdateAtomicity_value : EnumValue ServiceUpdateAtomicity := λ a,
  match a with
  | LEAF_INDEPENDENT => "leaf_independent" | ATOMIC_TIGHT => "atomic_tight" | AT_BLOCKED => "blocked"
  end.

Inductive ServicePlanBlockingReason :=
  | NOT_UPDATE_AVAILABLE | CURRENT_DIGEST_MISSING | CANDIDATE_DIGEST_MISSING | OBSERVATION_STALE
  | PROVENANCE_INVALID | NON_COMPOSE_PROJECT | DEPENDENCY_CYCLE_DETECTED
  | MISSING_DEPENDENCY_SERVICE | DEPENDENCY_NOT_RUNNING | DEPENDENCY_BLOCKED | LOCAL_BUILD
  | DISABLED_BY_PROFILE | SERVICE_NOT_FOUND | CONTRADICTORY_TOPOLOGY.
#[export] Instance ServicePlanBlockingReason_eq_dec : EqDecision ServicePlanBlockingReason.
Proof. solve_decision. Defined.
#[export] Instance ServicePlanBlockingReason_value : EnumValue ServicePlanBlockingReason := λ r,
  match r with
  | NOT_UPDATE_AVAILABLE => "not_update_available"
  | CURRENT_DIGEST_MISSING => "current_digest_missing"
  | CANDIDATE_DIGEST_MISSING => "candidate_digest_missing"
  | OBSERVATION_STALE => "observation_stale" | PROVENANCE_INVALID => "provenance_invalid"
  | NON_COMPOSE_PROJECT => "non_compose_project"
  | DEPENDENCY_CYCLE_DETECTED => "dependency_cycle_detected"
  | MISSING_DEPENDENCY_SERVICE => "missing_dependency_service"
  | DEPENDENCY_NOT_RUNNING => "dependency_not_running" | DEPENDENCY_BLOCKED => "dependency_blocked"
  | LOCAL_BUILD => "local_build" | DISABLED_BY_PROFILE => "disabled_by_profile"
  | SERVICE_NOT_FOUND => "service_not_found" | CONTRADICTORY_TOPOLOGY => "contradictory_topology"
  end.

Record DependencyScopeItem := {
  ds_service_name : string;
  ds_running_image : option string;
  ds_running_digest : option string;
  ds_candidate_digest : option string;
  ds_candidate_status : string;
  ds_state : string;
  ds_health : option string;
  ds_in_scope_reason : string;
}.

Record ServiceHealthContract := {
  hc_service_name : string;
  hc_expected_state : string;
  hc_expected_health : option string;
  hc_has_health_check : bool;
  hc_timeout_seconds : Z;
  hc_success_condition : string;
  hc_check_dependencies : bool;
  hc_dependency_services : list string;
}.

(** [ServiceHealthContract.canonical_summary] *)
Definition canonical_summary (h : ServiceHealthContract) : string :=
  let deps := if hc_check_dependencies h then join_with "," (sorted_list (hc_dependency_services h))
              else "none" in
  let health := if truthy (hc_expected_health h) then default "" (hc_expected_health h) else "none" in
  "svc:" ++ hc_service_name h ++ "|state:" ++ hc_expected_state h ++ "|health:" ++ health
  ++ "|timeout:" ++ pretty (hc_timeout_seconds h) ++ "|deps:" ++ deps.

Record ServiceMutationShape := {
  ms_target_service : string;
  ms_candidate_digest : string;
  ms_dependency_mode : string;
  ms_affected_services : list string;
}.

Record ServiceRollbackDesign := {
  rd_snapshot_required : bool;
  rd_targeted_service_backup : bool;
  rd_rollback_supported : bool;
  rd_rollback_scope : string;
}.

Record ServiceUpdatePlan := {
  sp_project_name : string;
  sp_project_id : option string;
  sp_compose_identity : string;
  sp_service_name : string;
  sp_current_runtime_image : option string;
  sp_current_runtime_digest : option string;
  sp_declared_image : option string;
  sp_declared_image_ref : option ImageReference;
  sp_target_candidate_digest : option string;
  sp_target_candidate_child_digest : option string;
  sp_candidate_key : option CandidateLookupKey;
  sp_candidate_freshness : string;
  sp_candidate_status : ServiceCandidateStatus;
  sp_candidate_reason : ServiceCandidateReason;
  sp_candidate_detail : option string;
  sp_provenance_verified : bool;
  sp_dependency_scope : list DependencyScopeItem;
  sp_atomicity : ServiceUpdateAtomicity;
  sp_health_contract : ServiceHealthContract;
  sp_eligible : bool;
  sp_blocking_reason : option ServicePlanBlockingReason;
  sp_expected_mutation : ServiceMutationShape;
  sp_rollback_design : ServiceRollbackDesign;
  sp_observed_at : option datetime;
  sp_plan_digest : string;
  sp_actions : list string;
  sp_reasons : list string;
  sp_plan_identity : option UpdatePlanIdentity;
}.

(** ** Identity of a service plan *)

(** The constructor call the planner and [from_service_plan] share. *)
Definition service_identity (project : string) (proceed : bool) (risk : string)
    (reasons actions : list string) (snapshot restart : bool) (service : string)
    (target current key : option string) (deps : list string) (atomicity freshness summary : string)
  : result UpdatePlanIdentity :=
  new_UpdatePlanIdentity
    {| ui_project := project; ui_dry_run := true; ui_proceed := proceed;
       ui_approval_required := true; ui_risk := risk; ui_reasons := reasons; ui_actions := actions;
       ui_snapshot_required := snapshot; ui_estimated_restart := restart;
       ui_stash_required := false; ui_pull_required := false;
       ui_git_exists := None; ui_git_branch := None; ui_git_dirty := None; ui_git_detached := None;
       ui_git_ahead := None; ui_git_behind := None; ui_git_current_sha := None;
       ui_git_remote_sha := None; ui_git_modified_files := None; ui_git_untracked_files := None;
       ui_git_conflicted_files := None; ui_git_stash_count := None; ui_health_state := None;
       ui_health_score := None; ui_health_critical := None; ui_health_high := None;
       ui_health_warning := None; ui_health_info := None; ui_runtime_mode := None;
       ui_systemd_units := None; ui_systemd_action := None; ui_health_probe_contract := Some summary;
       ui_service_name := Some service; ui_target_digest := target; ui_current_digest := current;
       ui_candidate_lookup_key := key;
       ui_dependency_scope := if bool_decide (deps = []) then None else Some deps;
       ui_atomicity := Some atomicity; ui_observation_freshness := Some freshness;
       ui_version := PLAN_IDENTITY_VERSION |}.

Definition update_action (service : string) (target : option string) : string :=
  "Update service " ++ service ++ " to " ++ default "None" target.
Definition verify_action (service : string) : string := "Verify health contract for " ++ service.
Definition differs_reason (service : string) : string :=
  "Candidate digest differs from running image for " ++ service.
Definition blocked_reason (r : ServicePlanBlockingReason) : string :=
  "Service update blocked: " ++ value r.

Definition plan_risk (eligible : bool) (a : ServiceUpdateAtomicity) : string :=
  if eligible && bool_decide (a = LEAF_INDEPENDENT) then "low"
  else if eligible then "medium" else "blocked".

(** [UpdatePlanIdentity.from_service_plan] on a [ServiceUpdatePlan]. *)
Definition from_service_plan (p : ServiceUpdatePlan) : result UpdatePlanIdentity :=
  let eligible := sp_eligible p in
  let actions :=
    if negb (bool_decide (sp_actions p = [])) then sp_actions p
    else if eligible then [update_action (sp_service_name p) (sp_target_candidate_digest p);
                           verify_action (sp_service_name p)] else [] in
  let reasons :=
    if negb (bool_decide (sp_reasons p = [])) then sp_reasons p
    else if eligible then [differs_reason (sp_service_name p)]
    else match sp_blocking_reason p with
         | Some r => [blocked_reason r]
         | None => ["Service update blocked"]
         end in
  service_identity (sp_project_name p) eligible (plan_risk eligible (sp_atomicity p)) reasons actions
    (rd_snapshot_required (sp_rollback_design p)) true (sp_service_name p)
    (sp_target_candidate_digest p) (sp_current_runtime_digest p)
    (canonical_str <$> sp_candidate_key p)
    (sorted_list (List.map ds_service_name (sp_dependency_scope p)))
    (value (sp_atomicity p)) (sp_candidate_freshness p) (canonical_summary (sp_health_contract p)).

(** ** Planning *)

(** [{s.service_name: s for s in observation.services}] *)
Definition services_by_name (services : list ComposeServiceObservation)
  : dict string ComposeServiceObservation :=
  fold_left (λ d s, dset (co_service_name s) s d) services [].

Definition depends_on_of (by_name : dict string ComposeServiceObservation) (node : string) : list string :=
  match dget node by_name with Some svc => co_depends_on svc | None => [] end.
(** Every node a search from [start] can meet. *)
Definition graph_nodes (by_name : dict string ComposeServiceObservation) (start : string) : list string :=
  start :: List.flat_map (λ kv, co_depends_on (snd kv)) by_name.
(** [_detect_cycle] *)
Definition detect_cycle (by_name : dict string ComposeServiceObservation) (start : string) : bool :=
  match dfs (depends_on_of by_name) (length (graph_nodes by_name start)) [] [] start with
  | Some (b, _) => b
  | None => false
  end.

(** [running_repo_digests[0]] or the image id. *)
Definition running_digest (svc : ComposeServiceObservation) : option string :=
  match co_running_repo_digests svc with
  | d :: _ => Some d
  | [] => if truthy (co_running_image_id svc) then co_running_image_id svc else None
  end.

(** [d.split("@")[1] if "@" in d else d] *)
Definition pure_digest (d : string) : string :=
  match split_on "@" d with
  | _ :: h :: _ => h
  | _ => d
  end.

(** Keep the first blocking reason. *)
Definition block (current : option ServicePlanBlockingReason) (cond : bool)
    (reason : ServicePlanBlockingReason) : option ServicePlanBlockingReason :=
  match current with
  | Some r => Some r
  | None => if cond then Some reason else None
  end.

(** Step 3. *)
Definition status_block (svc : ComposeServiceObservation) : option ServicePlanBlockingReason :=
  match co_candidate_status svc with
  | ST_UPDATE_AVAILABLE => None
  | ST_NOT_APPLICABLE =>
      Some (match co_candidate_reason svc with
            | RS_LOCAL_BUILD => LOCAL_BUILD
            | RS_DISABLED_BY_PROFILE => DISABLED_BY_PROFILE
            | _ => NOT_UPDATE_AVAILABLE
            end)
  | _ => Some NOT_UPDATE_AVAILABLE
  end.

(** Step 4. *)
Definition digest_block (current target : option string) : option ServicePlanBlockingReason :=
  if negb (truthy current) then Some CURRENT_DIGEST_MISSING
  else if negb (truthy target) then Some CANDIDATE_DIGEST_MISSING
  else if str_eqb (pure_digest (default "" current)) (pure_digest (default "" target))
  then Some NOT_UPDATE_AVAILABLE else None.

Definition or_else {A} (a b : option A) : option A := match a with Some _ => a | None => b end.

Definition missing_item (name : string) : DependencyScopeItem :=
  {| ds_service_name := name; ds_running_image := None; ds_running_digest := None;
     ds_candidate_digest := None; ds_candidate_status := "unknown"; ds_state := "missing";
     ds_health := None; ds_in_scope_reason := "missing_dependency_service" |}.
Definition scope_item (name : string) (dep : ComposeServiceObservation) : DependencyScopeItem :=
  {| ds_service_name := name; ds_running_image := co_running_image dep;
     ds_running_digest := running_digest dep; ds_candidate_digest := co_candidate_digest dep;
     ds_candidate_status := value (co_candidate_status dep); ds_state := co_state dep;
     ds_health := co_health dep;
     ds_in_scope_reason :=
       match co_candidate_status dep with
       | ST_UPDATE_AVAILABLE => "co_update_candidate_available"
       | ST_CURRENT => "prerequisite_healthy_current"
       | s => "prerequisite_" ++ value s
       end |}.

(** Step 7, one dependency: the blocking reason it adds. *)
Definition dependency_block (dep : ComposeServiceObservation) : option ServicePlanBlockingReason :=
  if negb (str_eqb (co_state dep) "running") then Some DEPENDENCY_NOT_RUNNING
  else if bool_decide (co_candidate_status dep = ST_UNKNOWN) || bool_decide (co_candidate_status dep = ST_DRIFT)
  then Some DEPENDENCY_BLOCKED
  else if bool_decide (co_health dep = Some "unhealthy") then Some DEPENDENCY_BLOCKED
  else None.

(** The loop over the sorted dependencies. *)
Fixpoint dependency_loop (by_name : dict string ComposeServiceObservation) (deps : list string)
    (blocking : option ServicePlanBlockingReason) (update : bool)
  : option ServicePlanBlockingReason * list DependencyScopeItem * bool :=
  match deps with
  | [] => (blocking, [], update)
  | name :: deps' =>
      let '(b, item, u) :=
        match dget name by_name with
        | None => (or_else blocking (Some MISSING_DEPENDENCY_SERVICE), missing_item name, update)
        | Some dep =>
            (or_else blocking (dependency_block dep), scope_item name dep,
             update || bool_decide (co_candidate_status dep = ST_UPDATE_AVAILABLE))
        end in
      let '(b', items, u') := dependency_loop by_name deps' b u in
      (b', item :: items, u')
  end.

(** Step 8. *)
Definition atomicity_of (blocking : option ServicePlanBlockingReason) (deps : list string) (update : bool)
  : ServiceUpdateAtomicity :=
  match blocking with
  | Some _ => AT_BLOCKED
  | None => if bool_decide (deps = []) then LEAF_INDEPENDENT
            else if update then ATOMIC_TIGHT else LEAF_INDEPENDENT
  end.

Definition is_tight (a : ServiceUpdateAtomicity) : bool := bool_decide (a = ATOMIC_TIGHT).

Definition missing_service_plan (obs : ComposeProjectObservation) (name : string)
    (project_id : option string) : result ServiceUpdatePlan :=
  let health := {| hc_service_name := name; hc_expected_state := "running";
                   hc_expected_health := None; hc_has_health_check := false;
                   hc_timeout_seconds := 30; hc_success_condition := "container_running";
                   hc_check_dependencies := false; hc_dependency_services := [] |} in
  let reasons := [blocked_reason SERVICE_NOT_FOUND] in
  let* identity := service_identity (cp_project_name obs) false "blocked" reasons [] true false name
                     None None None [] (value AT_BLOCKED) "unknown" (canonical_summary health) in
  Ok {| sp_project_name := cp_project_name obs; sp_project_id := project_id;
        sp_compose_identity := cp_compose_identity obs; sp_service_name := name;
        sp_current_runtime_image := None; sp_current_runtime_digest := None;
        sp_declared_image := None; sp_declared_image_ref := None;
        sp_target_candidate_digest := None; sp_target_candidate_child_digest := None;
        sp_candidate_key := None; sp_candidate_freshness := "unknown";
        sp_candidate_status := ST_UNKNOWN; sp_candidate_reason := RS_NO_RUNNING_CONTAINER;
        sp_candidate_detail := Some "Service does not exist in declared Compose configuration";
        sp_provenance_verified := false; sp_dependency_scope := []; sp_atomicity := AT_BLOCKED;
        sp_health_contract := health; sp_eligible := false;
        sp_blocking_reason := Some SERVICE_NOT_FOUND;
        sp_expected_mutation := {| ms_target_service := name; ms_candidate_digest := "";
                                   ms_dependency_mode := "no_deps"; ms_affected_services := [name] |};
        sp_rollback_design := {| rd_snapshot_required := true; rd_targeted_service_backup := false;
                                 rd_rollback_supported := false; rd_rollback_scope := "none" |};
        sp_observed_at := cp_observed_at obs; sp_plan_digest := identity_digest identity;
        sp_actions := []; sp_reasons := reasons; sp_plan_identity := None |}.

(** The checks on the service itself, in order. *)
Definition own_blocking (obs : ComposeProjectObservation) (by_name : dict string ComposeServiceObservation)
    (svc : ComposeServiceObservation) (name : string) : option ServicePlanBlockingReason :=
  let b := block None (negb (str_nonempty (cp_compose_identity obs))
                       || str_eqb (lower (cp_compose_identity obs)) "none") NON_COMPOSE_PROJECT in
  let b := or_else b (status_block svc) in
  let b := or_else b (digest_block (running_digest svc) (co_candidate_digest svc)) in
  let b := block b (negb (str_eqb (co_freshness svc) "fresh")) OBSERVATION_STALE in
  let b := block b (negb (co_provenance_verified svc)) PROVENANCE_INVALID in
  block b (detect_cycle by_name name) DEPENDENCY_CYCLE_DETECTED.

(** [plan_service] *)
Definition plan_service (obs : ComposeProjectObservation) (name : string) (project_id : option string)
  : result ServiceUpdatePlan :=
  let by_name := services_by_name (cp_services obs) in
  match dget name by_name with
  | None => missing_service_plan obs name project_id
  | Some svc =>
      let deps := sorted_list (co_depends_on svc) in
      let '(blocking, items, update) :=
        dependency_loop by_name deps (own_blocking obs by_name svc name) false in
      let current := running_digest svc in
      let target := co_candidate_digest svc in
      let atomicity := atomicity_of blocking deps update in
      let health :=
        {| hc_service_name := name; hc_expected_state := "running";
           hc_expected_health := Some (if bool_decide (co_health svc = None) then "running" else "healthy");
           hc_has_health_check := negb (bool_decide (co_health svc = None));
           hc_timeout_seconds := 30;
           hc_success_condition := if truthy (co_health svc) then "container_running_and_healthy"
                                   else "container_running";
           hc_check_dependencies := is_tight atomicity || negb (bool_decide (deps = []));
           hc_dependency_services := deps |} in
      let eligible := bool_decide (blocking = None) in
      let mutation :=
        {| ms_target_service := name; ms_candidate_digest := default "" target;
           ms_dependency_mode := if is_tight atomicity then "atomic_group" else "no_deps";
           ms_affected_services := if bool_decide (atomicity = LEAF_INDEPENDENT) then [name]
                                   else sorted_list (name :: deps) |} in
      let rollback :=
        {| rd_snapshot_required := true; rd_targeted_service_backup := true;
           rd_rollback_supported := true;
           rd_rollback_scope := if is_tight atomicity then "dependency_group" else "target_only" |} in
      let actions := if eligible then [update_action name target; verify_action name] else [] in
      let reasons := match blocking with
                     | None => [differs_reason name]
                     | Some r => [blocked_reason r]
                     end in
      let* identity := service_identity (cp_project_name obs) eligible (plan_risk eligible atomicity)
                         reasons actions (rd_snapshot_required rollback) true name target current
                         (canonical_str <$> co_candidate_key svc) deps (value atomicity)
                         (co_freshness svc) (canonical_summary health) in
      Ok {| sp_project_name := cp_project_name obs; sp_project_id := project_id;
            sp_compose_identity := cp_compose_identity obs; sp_service_name := name;
            sp_current_runtime_image := co_running_image svc; sp_current_runtime_digest := current;
            sp_declared_image := co_declared_image svc; sp_declared_image_ref := co_declared_image_ref svc;
            sp_target_candidate_digest := target;
            sp_target_candidate_child_digest := co_candidate_child_digest svc;
            sp_candidate_key := co_candidate_key svc; sp_candidate_freshness := co_freshness svc;
            sp_candidate_status := co_candidate_status svc; sp_candidate_reason := co_candidate_reason svc;
            sp_candidate_detail := co_candidate_detail svc;
            sp_provenance_verified := co_provenance_verified svc; sp_dependency_scope := items;
            sp_atomicity := atomicity; sp_health_contract := health; sp_eligible := eligible;
            sp_blocking_reason := blocking; sp_expected_mutation := mutation;
            sp_rollback_design := rollback; sp_observed_at := cp_observed_at obs;
            sp_plan_digest := identity_digest identity; sp_actions := actions; sp_reasons := reasons;
            sp_plan_identity := Some identity |}
  end.

(** [plan_all]: one plan per declared service, the first error wins. *)
Definition plan_all (obs : ComposeProjectObservation) (project_id : option string)
  : result (list ServiceUpdatePlan) :=
  rmap (λ svc, plan_service obs (co_service_name svc) project_id) (cp_services obs).

(** [check_staleness]: [None] when the plan is not stale. *)
Definition check_staleness (p : ServiceUpdatePlan) (now : ComposeProjectObservation)
  : result (option string) :=
  if negb (str_eqb (cp_project_name now) (sp_project_name p)) then Ok (Some "project_mismatch")
  else if negb (str_eqb (cp_compose_identity now) (sp_compose_identity p))
  then Ok (Some "compose_identity_mismatch")
  else
    let* fresh := plan_service now (sp_service_name p) (sp_project_id p) in
    Ok (if negb (bool_decide (sp_current_runtime_digest fresh = sp_current_runtime_digest p))
        then Some "current_digest_changed"
        else if negb (bool_decide (sp_target_candidate_digest fresh = sp_target_candidate_digest p))
        then Some "candidate_digest_changed"
        else if negb (bool_decide (List.map ds_service_name (sp_dependency_scope fresh)
                                   = List.map ds_service_name (sp_dependency_scope p)))
        then Some "dependency_scope_changed"
        else if negb (str_eqb (sp_candidate_freshness fresh) "fresh") then Some "observation_became_stale"
        else if negb (str_eqb (sp_plan_digest fresh) (sp_plan_digest p)) then Some "plan_digest_mismatch"
        else None).

(** ** Evidence of a plan *)

(** [ServiceEvidenceContract.from_service_plan] *)
Definition evidence_from_plan (p : ServiceUpdatePlan) (requested_scope : option (list string))
  : result ServiceEvidenceContract :=
  let requested := match requested_scope with
                   | Some (s :: l) => s :: l
                   | _ => [sp_service_name p]
                   end in
  let affected := ms_affected_services (sp_expected_mutation p) in
  check_ServiceEvidenceContract
    {| se_project_name := sp_project_name p; se_compose_identity := sp_compose_identity p;
       se_service_name := sp_service_name p; se_requested_scope := requested;
       se_derived_execution_scope := if bool_decide (affected = []) then [sp_service_name p] else affected;
       se_atomicity := value (sp_atomicity p);
       se_current_runtime_digest := sp_current_runtime_digest p;
       se_target_candidate_digest := sp_target_candidate_digest p;
       se_target_candidate_child_digest := sp_target_candidate_child_digest p;
       se_candidate_lookup_key := canonical_str <$> sp_candidate_key p;
       se_provenance_verified := sp_provenance_verified p;
       se_dependency_scope :=
         sorted_list (List.map (λ d, "svc:" ++ ds_service_name d ++ "|status:" ++ ds_candidate_status d
                                     ++ "|health:" ++ (if truthy (ds_health d) then default "" (ds_health d)
                                                       else "none")
                                     ++ "|state:" ++ ds_state d) (sp_dependency_scope p));
       se_health_contract_summary := canonical_summary (sp_health_contract p);
       se_plan_digest := sp_plan_digest p |}.

(** ** Lemmas *)

Lemma or_else_None {A} (a b : option A) : or_else a b = None ↔ a = None ∧ b = None.
Proof. destruct a, b; cbn; naive_solver. Qed.
Lemma block_None a c r : block a c r = None ↔ a = None ∧ c = false.
Proof. destruct a, c; cbn; naive_solver. Qed.

Lemma detect_cycle_iff by_name start :
  detect_cycle by_name start = true ↔ leads_to_cycle (depends_on_of by_name) start.
Proof.
  unfold detect_cycle.
  destruct (cycle_search_correct (depends_on_of by_name) (graph_nodes by_name start)) with (start := start)
    as (b & v & -> & H); [|by left|done].
  intros x y _ Hxy. unfold edge, depends_on_of in Hxy.
  destruct (dget x by_name) as [svc|] eqn:E; [|by apply not_elem_of_nil in Hxy].
  right. apply list_elem_of_In, List.in_flat_map. exists (x, svc). apply dget_In in E.
  split; by apply list_elem_of_In.
Qed.

(** A service whose own checks pass. *)
Definition self_ready (obs : ComposeProjectObservation) (by_name : dict string ComposeServiceObservation)
    (svc : ComposeServiceObservation) (name : string) : Prop :=
  cp_compose_identity obs ≠ "" ∧ lower (cp_compose_identity obs) ≠ "none" ∧
  co_candidate_status svc = ST_UPDATE_AVAILABLE ∧
  (∃ c t, running_digest svc = Some c ∧ co_candidate_digest svc = Some t ∧ c ≠ "" ∧ t ≠ "" ∧
     pure_digest c ≠ pure_digest t) ∧
  co_freshness svc = "fresh" ∧ co_provenance_verified svc = true ∧
  ¬ leads_to_cycle (depends_on_of by_name) name.

(** A dependency that does not stand in the way. *)
Definition dependency_ready (by_name : dict string ComposeServiceObservation) (d : string) : Prop :=
  ∃ dep, dget d by_name = Some dep ∧ co_state dep = "running" ∧
    co_candidate_status dep ≠ ST_UNKNOWN ∧ co_candidate_status dep ≠ ST_DRIFT ∧
    co_health dep ≠ Some "unhealthy".

(** What an eligible plan asserts of the observation. *)
Definition deployable (obs : ComposeProjectObservation) (name : string) : Prop :=
  let by_name := services_by_name (cp_services obs) in
  ∃ svc, dget name by_name = Some svc ∧ self_ready obs by_name svc name ∧
    ∀ d, d ∈ co_depends_on svc → dependency_ready by_name d.

Lemma status_block_None svc : status_block svc = None ↔ co_candidate_status svc = ST_UPDATE_AVAILABLE.
Proof. unfold status_block. destruct (co_candidate_status svc); naive_solver. Qed.

Lemma digest_block_None c t :
  digest_block c t = None ↔
  ∃ x y, c = Some x ∧ t = Some y ∧ x ≠ "" ∧ y ≠ "" ∧ pure_digest x ≠ pure_digest y.
Proof.
  unfold digest_block, truthy. destruct c as [x|]; cbn; [|naive_solver].
  destruct (str_nonempty x) eqn:Ex; cbn; [apply str_nonempty_true in Ex|].
  2: { split; [done|]. intros (? & ? & [= <-] & _ & H & _). apply str_nonempty_true in H. congruence. }
  destruct t as [y|]; cbn; [|naive_solver].
  destruct (str_nonempty y) eqn:Ey; cbn; [apply str_nonempty_true in Ey|].
  2: { split; [done|]. intros (? & ? & _ & [= <-] & _ & H & _). apply str_nonempty_true in H. congruence. }
  unfold str_eqb. case_bool_decide as E; split; try done.
  - intros (? & ? & [= <-] & [= <-] & _ & _ & H). done.
  - intros _. by exists x, y.
Qed.

Lemma own_blocking_None obs by_name svc name :
  own_blocking obs by_name svc name = None ↔ self_ready obs by_name svc name.
Proof.
  unfold own_blocking, self_ready. rewrite !block_None, !or_else_None, block_None.
  rewrite status_block_None, digest_block_None, orb_false_iff, !negb_false_iff, str_nonempty_true.
  rewrite str_eqb_true. unfold str_eqb. rewrite bool_decide_eq_false.
  rewrite <- detect_cycle_iff, not_true_iff_false. tauto.
Qed.

Lemma dependency_block_None dep :
  dependency_block dep = None ↔
  co_state dep = "running" ∧ co_candidate_status dep ≠ ST_UNKNOWN ∧
  co_candidate_status dep ≠ ST_DRIFT ∧ co_health dep ≠ Some "unhealthy".
Proof.
  unfold dependency_block, str_eqb. case_bool_decide; cbn; [|split; [done|tauto]].
  case_bool_decide; cbn; [split; [done|tauto]|]. case_bool_decide; cbn; [split; [done|tauto]|].
  case_bool_decide; split; try done; tauto.
Qed.

Lemma dependency_loop_spec by_name deps : ∀ blocking update b items u,
  dependency_loop by_name deps blocking update = (b, items, u) →
  (b = None ↔ blocking = None ∧ ∀ d, d ∈ deps → dependency_ready by_name d) ∧
  List.map ds_service_name items = deps ∧
  (u = true ↔ update = true ∨ ∃ d dep, d ∈ deps ∧ dget d by_name = Some dep ∧
     co_candidate_status dep = ST_UPDATE_AVAILABLE).
Proof.
  induction deps as [|d deps IH]; intros blocking update b items u; cbn.
  { intros [= <- <- <-]. split_and!; [|done|].
    - split; [|by intros [? _]]. intros ->. split; [done|]. by intros d ?%not_elem_of_nil.
    - split; [by left|]. intros [?|(d & dep & ?%not_elem_of_nil & _)]; done. }
  assert (Hcons : ∀ P : string → Prop, (∀ x, x ∈ d :: deps → P x) ↔ P d ∧ ∀ x, x ∈ deps → P x).
  { intros P. setoid_rewrite elem_of_cons. naive_solver. }
  assert (Hex : ∀ P : string → Prop, (∃ x, x ∈ d :: deps ∧ P x) ↔ P d ∨ ∃ x, x ∈ deps ∧ P x).
  { intros P. setoid_rewrite elem_of_cons. naive_solver. }
  destruct (dget d by_name) as [dep|] eqn:Ed.
  - destruct (dependency_loop by_name deps _ _) as [[b1 items1] u1] eqn:E. intros [= <- <- <-].
    destruct (IH _ _ _ _ _ E) as (Hb & Hi & Hu). split_and!.
    + rewrite Hb, or_else_None, dependency_block_None, Hcons. unfold dependency_ready at 2. rewrite Ed.
      split; [intros [[? ?] ?]; split_and!; eauto|]. intros (? & (dep' & [= <-] & ?) & ?). tauto.
    + cbn. by rewrite Hi.
    + rewrite Hu, orb_true_iff, bool_decide_eq_true.
      pose proof (Hex (λ x, ∃ dep, dget x by_name = Some dep ∧ co_candidate_status dep = ST_UPDATE_AVAILABLE)) as Hx.
      cbn in Hx. rewrite Ed in Hx. split.
      * intros [[?|?]|(x & dep' & ? & ? & ?)]; [by left| |]; right.
        -- exists d, dep. split_and!; [by left|done|done].
        -- exists x, dep'. split_and!; [by right|done|done].
      * intros [?|(x & dep' & Hin & Hx1 & Hx2)]; [by left; left|].
        apply elem_of_cons in Hin as [->|Hin]; [left; right; congruence|right; eauto].
  - destruct (dependency_loop by_name deps _ _) as [[b1 items1] u1] eqn:E. intros [= <- <- <-].
    destruct (IH _ _ _ _ _ E) as (Hb & Hi & Hu). split_and!.
    + rewrite Hb, or_else_None, Hcons. split; [by intros [[_ ?] _]|].
      intros (_ & (dep & ? & _) & _). congruence.
    + cbn. by rewrite Hi.
    + rewrite Hu. split; (intros [?|(x & dep' & Hin & Hx1 & Hx2)]; [by left|]); right.
      * exists x, dep'. split_and!; [by right|done|done].
      * apply elem_of_cons in Hin as [->|Hin]; [congruence|eauto].
Qed.

(** The parts of a plan that the theorems read. *)
Lemma new_identity_Ok i j : new_UpdatePlanIdentity i = Ok j → j = i.
Proof. unfold new_UpdatePlanIdentity. intros H. inv_ok. done. Qed.

Lemma plan_service_known obs name pid p svc :
  let by_name := services_by_name (cp_services obs) in
  dget name by_name = Some svc → plan_service obs name pid = Ok p →
  ∃ i, sp_plan_identity p = Some i ∧ sp_plan_digest p = identity_digest i ∧
    from_service_plan p = Ok i ∧ ui_proceed i = sp_eligible p ∧
    sp_service_name p = name ∧ sp_project_id p = pid ∧ sp_project_name p = cp_project_name obs ∧
    sp_compose_identity p = cp_compose_identity obs ∧ sp_candidate_freshness p = co_freshness svc ∧
    (sp_eligible p = true ↔ deployable obs name) ∧
    (sp_eligible p = true ↔ sp_blocking_reason p = None) ∧
    (sp_atomicity p = ATOMIC_TIGHT ↔ deployable obs name ∧
       ∃ d dep, d ∈ co_depends_on svc ∧ dget d by_name = Some dep ∧ co_candidate_status dep = ST_UPDATE_AVAILABLE).
Proof.
  intros by_name Hsvc. unfold plan_service. fold by_name. rewrite Hsvc.
  destruct (dependency_loop by_name _ _ _) as [[blocking items] update] eqn:Hloop.
  destruct (dependency_loop_spec _ _ _ _ _ _ _ Hloop) as (Hb & Hnames & Hu).
  assert (Hel : bool_decide (blocking = None) = true ↔ deployable obs name).
  { rewrite bool_decide_eq_true, Hb, own_blocking_None. unfold deployable. fold by_name. rewrite Hsvc.
    setoid_rewrite sorted_list_elem. split; [intros [? ?]; eauto|]. intros (svc' & [= <-] & ?). done. }
  cbv zeta. intros H. apply rbind_Ok in H as (i & Hi & H). injection H as <-. exists i. cbn.
  split_and!; try done.
  - unfold from_service_plan. cbn. rewrite Hnames, sorted_list_idem. destruct blocking as [r|]; exact Hi.
  - apply new_identity_Ok in Hi. by rewrite Hi.
  - apply bool_decide_eq_true.
  - rewrite <- Hel. unfold atomicity_of. destruct blocking as [r|]; cbn; [naive_solver|].
    destruct (decide (sorted_list (co_depends_on svc) = [])) as [Hd|Hd];
      [rewrite (bool_decide_eq_true_2 _ Hd)|rewrite (bool_decide_eq_false_2 _ Hd)].
    + split; [done|]. intros (_ & d & dep & Hin & _). apply sorted_list_elem in Hin. rewrite Hd in Hin.
      by apply not_elem_of_nil in Hin.
    + destruct update.
      * split; [|done]. intros _. split; [done|]. destruct (proj1 Hu eq_refl) as [?|(d & dep & Hin & ? & ?)]; [done|].
        exists d, dep. split_and!; [by apply (sorted_list_elem d)|done|done].
      * split; [done|]. intros (_ & d & dep & Hin & ? & ?). exfalso.
        assert (false = true); [|done]. apply Hu. right. exists d, dep. by rewrite sorted_list_elem.
Qed.

Lemma plan_service_unknown obs name pid p :
  dget name (services_by_name (cp_services obs)) = None → plan_service obs name pid = Ok p →
  sp_eligible p = false ∧ sp_candidate_freshness p = "unknown" ∧ sp_blocking_reason p = Some SERVICE_NOT_FOUND ∧
  sp_plan_identity p = None.
Proof.
  intros Hn. unfold plan_service. rewrite Hn. unfold missing_service_plan. intros H. cbv zeta in H.
  apply rbind_Ok in H as (i & _ & H). by injection H as <-.
Qed.

(** ** Properties *)

(** A service update plan is eligible exactly when the observation is
    deployable for it: a compose project, an available update whose pure digest
    differs from the running one, fresh and of verified provenance, no cycle
    reachable through dependencies, and every dependency present, running,
    assessed and not unhealthy; it is an atomic group exactly when a dependency
    has an update too. *)
Lemma plan_service_eligible obs name pid p :
  plan_service obs name pid = Ok p →
  (sp_eligible p = true ↔ deployable obs name) ∧
  (sp_eligible p = true ↔ sp_blocking_reason p = None) ∧
  (sp_atomicity p = ATOMIC_TIGHT ↔ deployable obs name ∧
     ∃ svc d dep, dget name (services_by_name (cp_services obs)) = Some svc ∧ d ∈ co_depends_on svc ∧
       dget d (services_by_name (cp_services obs)) = Some dep ∧ co_candidate_status dep = ST_UPDATE_AVAILABLE).
Proof.
  intros H. destruct (dget name (services_by_name (cp_services obs))) as [svc|] eqn:Hsvc.
  - destruct (plan_service_known obs name pid p svc Hsvc H)
      as (i & _ & _ & _ & _ & _ & _ & _ & _ & _ & Hel & Hb & Ha).
    split_and!; [done|done|]. rewrite Ha. split.
    + intros (? & d & dep & ?). split; [done|]. by exists svc, d, dep.
    + intros (? & svc' & d & dep & [= <-] & ?). split; [done|]. by exists d, dep.
  - assert (¬ deployable obs name) as Hno by (intros (svc & ? & _); congruence).
    pose proof H as H'. apply plan_service_unknown in H' as (He & _ & Hb & _); [|done].
    rewrite He, Hb. split_and!; [by split|done|].
    split; [|by intros [? _]]. unfold plan_service in H. rewrite Hsvc in H. unfold missing_service_plan in H.
    cbv zeta in H. apply rbind_Ok in H as (i & _ & H). by injection H as <-.
Qed.

(** Recomputing the identity from a plan of a declared service gives the
    identity the plan was made with, so its digest is the plan digest. *)
Lemma from_service_plan_agrees obs name pid p :
  plan_service obs name pid = Ok p → sp_blocking_reason p ≠ Some SERVICE_NOT_FOUND →
  ∃ i, sp_plan_identity p = Some i ∧ from_service_plan p = Ok i ∧ identity_digest i = sp_plan_digest p.
Proof.
  intros H Hf. destruct (dget name (services_by_name (cp_services obs))) as [svc|] eqn:Hsvc.
  - destruct (plan_service_known obs name pid p svc Hsvc H) as (i & ? & ? & ? & _). by exists i.
  - by apply plan_service_unknown in H as (_ & _ & ? & _).
Qed.

(** An eligible plan that is not stale against a later observation is one
    that observation is deployable for as well, with the same digests, unless
    two identity texts are an explicit SHA-256 collision. *)
Lemma fresh_plan_deployable obs now name pid p :
  plan_service obs name pid = Ok p → sp_eligible p = true → check_staleness p now = Ok None →
  (deployable now name ∧ ∃ fresh, plan_service now name pid = Ok fresh ∧
     sp_plan_identity fresh = sp_plan_identity p ∧
     sp_current_runtime_digest fresh = sp_current_runtime_digest p ∧
     sp_target_candidate_digest fresh = sp_target_candidate_digest p) ∨
  ∃ i j, collision (identity_json i) (identity_json j).
Proof.
  intros H He Hst. destruct (dget name (services_by_name (cp_services obs))) as [svc|] eqn:Hsvc.
  2: { apply plan_service_unknown in H as [? _]; congruence. }
  destruct (plan_service_known obs name pid p svc Hsvc H)
    as (i & Hi & Hdig & _ & Hpro & Hn & Hpid & _ & _ & _ & _ & _ & _).
  unfold check_staleness in Hst. rewrite Hn, Hpid in Hst.
  destruct (negb (str_eqb (cp_project_name now) _)); [done|].
  destruct (negb (str_eqb (cp_compose_identity now) _)); [done|].
  apply rbind_Ok in Hst as (fresh & Hf & Hst). injection Hst as Hst.
  case_bool_decide as Hc; [|done]. cbn [negb] in Hst.
  case_bool_decide as Ht; [|done]. cbn [negb] in Hst.
  case_bool_decide as Hd; [|done]. cbn [negb] in Hst.
  destruct (negb (str_eqb (sp_candidate_freshness fresh) "fresh")) eqn:Hfr; [done|].
  destruct (negb (str_eqb (sp_plan_digest fresh) (sp_plan_digest p))) eqn:Hdg; [done|].
  apply negb_false_iff, str_eqb_true in Hfr, Hdg.
  destruct (dget name (services_by_name (cp_services now))) as [svc'|] eqn:Hsvc'.
  2: { apply plan_service_unknown in Hf as (_ & E & _); [|done]. congruence. }
  destruct (plan_service_known now name pid fresh svc' Hsvc' Hf)
    as (j & Hj & Hdigj & _ & Hproj & _ & _ & _ & _ & _ & Helj & _ & _).
  destruct (decide (identity_json i = identity_json j)) as [E|E].
  - left. apply identity_json_inj in E as <-. split; [apply Helj; congruence|].
    exists fresh. split_and!; [done|congruence|done|done].
  - right. exists i, j. split; [done|]. unfold identity_digest in *. congruence.
Qed.
