(* ===== verification/UpdateApproval.v ===== *)
(** * UpdateApproval: operator-bound approvals of update plans

    services/update/approval.py: [OperatorIdentity] and [UpdateApprovalRecord]
    with their checks, the [UpdateApprovalStore] protocol (a class with the laws
    its text promises) with the in-memory store as instance, the approval service
    ([issue], [validate], [consume]) over any such store, and the per-project
    single-flight control.  [now] is explicit in every call; the random approval
    id of [issue] is an argument. *)

From S2P Require Import Prelude PyStr PyText PyTime Sha256.
From Stdlib Require Import Ascii String ZArith Lia.
From stdpp Require Import base strings gmap fin_maps list.

Local Open Scope string_scope.
Local Open Scope Z_scope.
Local Open Scope aipm_scope.

Definition APPROVAL_TTL : timedelta := minutes 10.
Definition MAX_APPROVALS : Z := 256.

Module Reason.
Definition MALFORMED : string := "approval_malformed".
Definition NOT_FOUND : string := "approval_not_found".
Definition EXPIRED : string := "approval_expired".
Definition ALREADY_CONSUMED : string := "approval_already_consumed".
Definition OPERATOR_MISMATCH : string := "operator_mismatch".
Definition SESSION_MISMATCH : string := "session_mismatch".
Definition PROJECT_MISMATCH : string := "project_mismatch".
Definition DIGEST_MISMATCH : string := "digest_mismatch".
Definition TIME_PARADOX : string := "time_paradox".
Definition STATE_CONFLICT : string := "state_conflict".
End Reason.

(** ** Records *)

Inductive ApprovalState := ISSUED | CONSUMED.
#[export] Instance ApprovalState_eq_dec : EqDecision ApprovalState.
Proof. solve_decision. Defined.

Record OperatorIdentity := {
  op_subject : string;
  op_auth_epoch : Z;
  op_session_id : string;
}.
#[export] Instance OperatorIdentity_eq_dec : EqDecision OperatorIdentity.
Proof. solve_decision. Defined.

(** Non-empty text of at most 128 characters without control characters. *)
Definition plain_id (s : string) : bool :=
  str_nonempty s && (slen s <=? 128) && negb (str_any is_control s).

(** [OperatorIdentity.__init__] *)
Definition new_OperatorIdentity (subject : string) (auth_epoch : Z) (session_id : string)
  : result OperatorIdentity :=
  require plain_id subject else_raise UpdateApprovalError Reason.MALFORMED;;
  require 1 <=? auth_epoch else_raise UpdateApprovalError Reason.MALFORMED;;
  require SAFE_ID session_id else_raise UpdateApprovalError Reason.MALFORMED;;
  Ok {| op_subject := subject; op_auth_epoch := auth_epoch; op_session_id := session_id |}.

Record UpdateApprovalRecord := {
  ar_approval_id : string;
  ar_project_id : string;
  ar_project_name : string;
  ar_plan_digest : string;
  ar_operator_subject : string;
  ar_auth_epoch : Z;
  ar_session_id : string;
  ar_issued_at : datetime;
  ar_expires_at : datetime;
  ar_state : ApprovalState;
}.
#[export] Instance UpdateApprovalRecord_eq_dec : EqDecision UpdateApprovalRecord.
Proof. solve_decision. Defined.

(** [UpdateApprovalRecord.__post_init__] *)
Definition check_UpdateApprovalRecord (r : UpdateApprovalRecord) : result UpdateApprovalRecord :=
  require HEX 32 (ar_approval_id r) else_raise UpdateApprovalError Reason.MALFORMED;;
  require plain_id (ar_project_id r) else_raise UpdateApprovalError Reason.MALFORMED;;
  require plain_id (ar_project_name r) else_raise UpdateApprovalError Reason.MALFORMED;;
  require HEX 64 (ar_plan_digest r) else_raise UpdateApprovalError Reason.MALFORMED;;
  let* _ := new_OperatorIdentity (ar_operator_subject r) (ar_auth_epoch r) (ar_session_id r) in
  require ar_issued_at r <? ar_expires_at r else_raise UpdateApprovalError Reason.TIME_PARADOX;;
  require ar_expires_at r - ar_issued_at r <=? APPROVAL_TTL
    else_raise UpdateApprovalError Reason.TIME_PARADOX;;
  Ok r.

Definition approval_is_expired (r : UpdateApprovalRecord) (now : datetime) : bool :=
  ar_expires_at r <=? now.

(** [replace(record, state=ApprovalState.CONSUMED)] *)
Definition as_consumed (r : UpdateApprovalRecord) : UpdateApprovalRecord :=
  {| ar_approval_id := ar_approval_id r; ar_project_id := ar_project_id r;
     ar_project_name := ar_project_name r; ar_plan_digest := ar_plan_digest r;
     ar_operator_subject := ar_operator_subject r; ar_auth_epoch := ar_auth_epoch r;
     ar_session_id := ar_session_id r; ar_issued_at := ar_issued_at r;
     ar_expires_at := ar_expires_at r; ar_state := CONSUMED |}.

(** ** The store protocol *)

Class ApprovalStore (S : Type) := {
  as_put : UpdateApprovalRecord → S → S;
  as_get : string → S → option UpdateApprovalRecord;
  as_consume : string → S → S * option UpdateApprovalRecord;
}.

(** [consume] moves the record from issued to consumed exactly once, or
    answers nothing when it is missing or already consumed. *)
Class ApprovalStoreLaws (S : Type) `{ApprovalStore S} := {
  law_put : ∀ r s id, as_get id (as_put r s) =
    if decide (id = ar_approval_id r) then Some r else as_get id s;
  law_consume_issued : ∀ s id r, as_get id s = Some r → ar_approval_id r = id → ar_state r = ISSUED →
    (as_consume id s).2 = Some (as_consumed r) ∧
    ∀ id', as_get id' (as_consume id s).1 = if decide (id' = id) then Some (as_consumed r) else as_get id' s;
  law_consume_refused : ∀ s id, (as_get id s = None ∨ ∃ r, as_get id s = Some r ∧ ar_state r = CONSUMED) →
    as_consume id s = (s, None);
}.

(** [InMemoryUpdateApprovalStore]: the bound of the constructor is stored and
    never consulted again. *)
Record approval_map := {
  am_records : gmap string UpdateApprovalRecord;
  am_max_approvals : Z;
}.
Definition new_InMemoryUpdateApprovalStore (max_approvals : Z) : result approval_map :=
  require 1 <=? max_approvals else_raise UpdateApprovalError Reason.MALFORMED;;
  Ok {| am_records := ∅; am_max_approvals := max_approvals |}.

Definition am_put (r : UpdateApprovalRecord) (s : approval_map) : approval_map :=
  {| am_records := <[ar_approval_id r := r]> (am_records s); am_max_approvals := am_max_approvals s |}.
Definition am_get (id : string) (s : approval_map) : option UpdateApprovalRecord := am_records s !! id.
Definition am_consume (id : string) (s : approval_map) : approval_map * option UpdateApprovalRecord :=
  match am_records s !! id with
  | Some r =>
      if bool_decide (ar_state r = CONSUMED) then (s, None)
      else (am_put (as_consumed r) s, Some (as_consumed r))
  | None => (s, None)
  end.

#[export] Instance approval_map_store : ApprovalStore approval_map :=
  {| as_put := am_put; as_get := am_get; as_consume := am_consume |}.

#[export] Instance approval_map_laws : ApprovalStoreLaws approval_map.
Proof.
  split; cbn; unfold am_get, am_put, am_consume.
  - intros r s id. cbn. case_decide as E; [subst; by rewrite lookup_insert_eq|by rewrite lookup_insert_ne].
  - intros s id r Hr Hid Hs. rewrite Hr, bool_decide_eq_false_2 by (by rewrite Hs).
    split; [done|]. intros id'. cbn. rewrite Hid.
    case_decide as E; [subst; by rewrite lookup_insert_eq|by rewrite lookup_insert_ne].
  - intros s id [->|(r & -> & Hr)]; [done|]. by rewrite Hr.
Qed.

(** ** The service *)

Section service.
Context {S : Type} `{ApprovalStore S}.
(** The service's time to live, checked by [UpdateApprovalService.__init__]. *)
Variable ttl : timedelta.

Definition valid_ttl : bool := (0 <? ttl) && (ttl <=? APPROVAL_TTL).

(** [issue]; [approval_id] is [secrets.token_hex(16)]. *)
Definition issue (approval_id project_id project_name plan_digest : string) (operator : OperatorIdentity)
    (now : datetime) : M S UpdateApprovalRecord :=
  do record <- liftM (check_UpdateApprovalRecord
    {| ar_approval_id := approval_id; ar_project_id := project_id; ar_project_name := project_name;
       ar_plan_digest := plan_digest; ar_operator_subject := op_subject operator;
       ar_auth_epoch := op_auth_epoch operator; ar_session_id := op_session_id operator;
       ar_issued_at := now; ar_expires_at := now + ttl; ar_state := ISSUED |});;
  do_ modifyM (as_put record);;
  retM record.

Definition validate_approval (approval_id project_id plan_digest : string) (operator : OperatorIdentity)
    (now : datetime) : M S UpdateApprovalRecord :=
  assert_ HEX 32 approval_id else_raise UpdateApprovalError Reason.MALFORMED;;
  do s <- getM;;
  match as_get approval_id s with
  | None => raiseM (UpdateApprovalError Reason.NOT_FOUND)
  | Some r =>
      assert_ negb (bool_decide (ar_state r = CONSUMED)) else_raise UpdateApprovalError Reason.ALREADY_CONSUMED;;
      assert_ negb (approval_is_expired r now) else_raise UpdateApprovalError Reason.EXPIRED;;
      assert_ str_eqb (ar_project_id r) project_id else_raise UpdateApprovalError Reason.PROJECT_MISMATCH;;
      assert_ str_eqb (ar_plan_digest r) plan_digest else_raise UpdateApprovalError Reason.DIGEST_MISMATCH;;
      assert_ str_eqb (ar_operator_subject r) (op_subject operator)
        else_raise UpdateApprovalError Reason.OPERATOR_MISMATCH;;
      assert_ ar_auth_epoch r =? op_auth_epoch operator else_raise UpdateApprovalError Reason.SESSION_MISMATCH;;
      assert_ str_eqb (ar_session_id r) (op_session_id operator)
        else_raise UpdateApprovalError Reason.SESSION_MISMATCH;;
      retM r
  end.

Definition consume_approval (approval_id project_id plan_digest : string) (operator : OperatorIdentity)
    (now : datetime) : M S UpdateApprovalRecord :=
  do record <- validate_approval approval_id project_id plan_digest operator now;;
  do consumed <- (λ s, let '(s', o) := as_consume (ar_approval_id record) s in (s', Ok o));;
  match consumed with
  | None => raiseM (UpdateApprovalError Reason.ALREADY_CONSUMED)
  | Some r => retM r
  end.

(** ** Histories *)

Inductive approval_call :=
  | CallIssue (approval_id project_id project_name plan_digest : string) (operator : OperatorIdentity) (now : datetime)
  | CallValidate (approval_id project_id plan_digest : string) (operator : OperatorIdentity) (now : datetime)
  | CallConsume (approval_id project_id plan_digest : string) (operator : OperatorIdentity) (now : datetime).

Definition approval_step (c : approval_call) (s : S) : S * result UpdateApprovalRecord :=
  match c with
  | CallIssue id p n d op now => issue id p n d op now s
  | CallValidate id p d op now => validate_approval id p d op now s
  | CallConsume id p d op now => consume_approval id p d op now s
  end.

(** The calls of a run with their outcomes, latest first. *)
Fixpoint approval_run (calls : list approval_call) (s : S)
    (past : list (approval_call * result UpdateApprovalRecord))
  : S * list (approval_call * result UpdateApprovalRecord) :=
  match calls with
  | [] => (s, past)
  | c :: calls' => let '(s', r) := approval_step c s in approval_run calls' s' ((c, r) :: past)
  end.

(** The identifiers drawn by the calls of a history. *)
Definition drawn (calls : list approval_call) : list string :=
  List.flat_map (λ c, match c with CallIssue id _ _ _ _ _ => [id] | _ => [] end) calls.

(** An accepted consumption of [id]. *)
Definition consumed_by (id : string) (e : approval_call * result UpdateApprovalRecord) : bool :=
  match e with
  | (CallConsume id' _ _ _ _, Ok _) => str_eqb id id'
  | _ => false
  end.
End service.

(** ** One approval, one use *)

Section single_use.
Context {S : Type} `{ApprovalStoreLaws S}.
Variable ttl : timedelta.
Hypothesis ttl_ok : valid_ttl ttl = true.

(** The record an [issue] call stores. *)
Definition issued_record (id project_id project_name plan_digest : string) (op : OperatorIdentity)
    (now : datetime) : UpdateApprovalRecord :=
  {| ar_approval_id := id; ar_project_id := project_id; ar_project_name := project_name;
     ar_plan_digest := plan_digest; ar_operator_subject := op_subject op;
     ar_auth_epoch := op_auth_epoch op; ar_session_id := op_session_id op;
     ar_issued_at := now; ar_expires_at := now + ttl; ar_state := ISSUED |}.

Lemma check_record_Ok r r' : check_UpdateApprovalRecord r = Ok r' → r' = r.
Proof. unfold check_UpdateApprovalRecord. intros E. inv_ok. done. Qed.

Lemma issue_Ok id p n d op now (s s' : S) r :
  issue ttl id p n d op now s = (s', Ok r) → r = issued_record id p n d op now ∧ s' = as_put r s.
Proof.
  unfold issue. intros E. inv_ok.
  match goal with E : check_UpdateApprovalRecord _ = Ok _ |- _ => apply check_record_Ok in E as -> end. done.
Qed.
Lemma issue_Raise id p n d op now (s s' : S) e : issue ttl id p n d op now s = (s', Raise e) → s' = s.
Proof. unfold issue. intros E. eapply atomic_bind; [| |exact E]; solve_atomic. Qed.

(** The bindings a presented approval must match. *)
Definition presents (r : UpdateApprovalRecord) (project_id plan_digest : string) (op : OperatorIdentity)
    (now : datetime) : Prop :=
  ar_state r = ISSUED ∧ now < ar_expires_at r ∧ ar_project_id r = project_id ∧
  ar_plan_digest r = plan_digest ∧ ar_operator_subject r = op_subject op ∧
  ar_auth_epoch r = op_auth_epoch op ∧ ar_session_id r = op_session_id op.

Lemma validate_Ok id p d op now (s s' : S) r :
  validate_approval id p d op now s = (s', Ok r) ↔
  s' = s ∧ HEX 32 id = true ∧ as_get id s = Some r ∧ presents r p d op now.
Proof.
  unfold validate_approval, presents, approval_is_expired. split.
  - intros E. apply bindM_Ok in E as (s1 & u & E1 & E). apply liftM_raise_unless_Ok in E1 as [Hh ->].
    apply bindM_Ok in E as (s2 & s3 & E2 & E). unfold getM in E2. injection E2 as <- <-.
    destruct (as_get id s) as [x|] eqn:Eg; [|done]. inv_ok.
    rewrite str_eqb_true, Z.eqb_eq, Z.leb_gt in *. split_and!; try done. by destruct (ar_state r).
  - intros (-> & Hh & Hg & Hs & He & <- & <- & Ho & Hep & Hse).
    unfold bindM, liftM, getM, retM, raise_unless. rewrite Hh, Hg, Hs. cbn.
    rewrite (proj2 (Z.leb_gt _ _) He). cbn. rewrite Ho, Hep, Hse.
    rewrite !(proj2 (str_eqb_true _ _) eq_refl). by rewrite Z.eqb_refl.
Qed.
Lemma validate_reads id p d op now (s s' : S) r : validate_approval id p d op now s = (s', r) → s' = s.
Proof. intros E. eapply reads_Ok; [|exact E]. unfold validate_approval. solve_atomic. Qed.

Lemma consume_Ok id p d op now (s s' : S) r :
  (∀ id r, as_get id s = Some r → ar_approval_id r = id) →
  consume_approval id p d op now s = (s', Ok r) →
  ∃ r0, as_get id s = Some r0 ∧ presents r0 p d op now ∧ r = as_consumed r0 ∧
    ∀ id', as_get id' s' = if decide (id' = id) then Some r else as_get id' s.
Proof.
  intros Hids. unfold consume_approval. intros E. apply bindM_Ok in E as (s1 & r0 & Ev & E).
  apply validate_Ok in Ev as (-> & _ & Hg & Hp). pose proof (Hids _ _ Hg) as Hid.
  destruct (law_consume_issued s id r0 Hg Hid) as [Hc Hget]; [apply Hp|].
  unfold bindM in E. rewrite Hid in E. destruct (as_consume id s) as [s2 o]. cbn in *. subst o.
  unfold retM in E. injection E as <- <-. by exists r0.
Qed.
Lemma consume_Raise id p d op now (s s' : S) e :
  (∀ id r, as_get id s = Some r → ar_approval_id r = id) →
  consume_approval id p d op now s = (s', Raise e) → s' = s.
Proof.
  intros Hids. unfold consume_approval, bindM at 1.
  destruct (validate_approval id p d op now s) as [s1 [r0|e0]] eqn:Ev.
  - apply validate_Ok in Ev as (-> & _ & Hg & Hp). pose proof (Hids _ _ Hg) as Hid.
    destruct (law_consume_issued s id r0 Hg Hid) as [Hc _]; [apply Hp|].
    unfold bindM. rewrite Hid. destruct (as_consume id s) as [s2 o]. cbn in *. by subst o.
  - apply validate_reads in Ev as ->. by intros [= -> _].
Qed.

(** What a history knows about an approval. *)
Definition issued_in (past : list (approval_call * result UpdateApprovalRecord)) (id : string)
    (r : UpdateApprovalRecord) : Prop :=
  ∃ p n d op now, (CallIssue id p n d op now, Ok r) ∈ past ∧ r = issued_record id p n d op now.

Definition uses (id : string) (past : list (approval_call * result UpdateApprovalRecord)) : nat :=
  length (List.filter (consumed_by id) past).

(** The store agrees with the history: an issued record has not been used, a
    consumed one exactly once. *)
Record approvals_ok (past : list (approval_call * result UpdateApprovalRecord)) (used : list string) (s : S)
  : Prop := {
  ao_ids : ∀ id r, as_get id s = Some r → ar_approval_id r = id;
  ao_unused : ∀ id, id ∉ used → as_get id s = None;
  ao_absent : ∀ id, as_get id s = None → uses id past = O;
  ao_issued : ∀ id r, as_get id s = Some r → ar_state r = ISSUED → issued_in past id r ∧ uses id past = O;
  ao_consumed : ∀ id r, as_get id s = Some r → ar_state r = CONSUMED → uses id past = 1%nat;
  ao_calls : ∀ id p d op now r, (CallConsume id p d op now, Ok r) ∈ past →
    ∃ r0, issued_in past id r0 ∧ presents r0 p d op now ∧ r = as_consumed r0;
}.

Lemma issued_in_mono past x id r : issued_in past id r → issued_in (x :: past) id r.
Proof. intros (p & n & d & op & now & Hin & E). exists p, n, d, op, now. split; [by right|done]. Qed.

(** Calls that left the store alone. *)
Lemma approvals_ok_skip past used s c x :
  approvals_ok past used s → (∀ id, consumed_by id (c, x) = false) →
  approvals_ok ((c, x) :: past) used s.
Proof.
  intros [Hids Hun Hab Hiss Hcon Hcalls] Hc.
  assert (Hu : ∀ id, uses id ((c, x) :: past) = uses id past) by (intros id; unfold uses; cbn [List.filter]; by rewrite Hc).
  split; [done|done| | | |].
  - intros id Hid. rewrite Hu. auto.
  - intros id r Hr Hs. rewrite Hu. destruct (Hiss id r Hr Hs). auto using issued_in_mono.
  - intros id r Hr Hs. rewrite Hu. eauto.
  - intros id p d op now r [E|Hin]%elem_of_cons.
    + injection E as <- <-. specialize (Hc id). cbn in Hc. by rewrite (proj2 (str_eqb_true id id) eq_refl) in Hc.
    + destruct (Hcalls _ _ _ _ _ _ Hin) as (r0 & ? & ?). exists r0. auto using issued_in_mono.
Qed.

Lemma approvals_ok_issue past used s id p n d op now :
  approvals_ok past used s → id ∉ used →
  let r := issued_record id p n d op now in
  approvals_ok ((CallIssue id p n d op now, Ok r) :: past) (id :: used) (as_put r s).
Proof.
  intros [Hids Hun Hab Hiss Hcon Hcalls] Hid r. pose proof (Hab id (Hun id Hid)) as Huse.
  assert (Hg : ∀ id', as_get id' (as_put r s) = if decide (id' = id) then Some r else as_get id' s)
    by (intros id'; by rewrite law_put).
  assert (Hu : ∀ id', uses id' ((CallIssue id p n d op now, Ok r) :: past) = uses id' past) by done.
  split.
  - intros id' r'. rewrite Hg. case_decide as E; [by intros [= <-]|apply Hids].
  - intros id' [Hne Hnot]%not_elem_of_cons. rewrite Hg, decide_False by done. auto.
  - intros id'. rewrite Hg, Hu. case_decide; [done|auto].
  - intros id' r'. rewrite Hg, Hu. case_decide as E.
    + subst id'. intros [= <-] _. split; [|done]. exists p, n, d, op, now. split; [by left|done].
    + intros Hr Hs. destruct (Hiss id' r' Hr Hs). auto using issued_in_mono.
  - intros id' r'. rewrite Hg, Hu. case_decide as E; [by intros [= <-]|eauto].
  - intros id' p' d' op' now' r' [E|Hin]%elem_of_cons; [done|].
    destruct (Hcalls _ _ _ _ _ _ Hin) as (r0 & ? & ?). exists r0. auto using issued_in_mono.
Qed.

Lemma approvals_ok_used_mono past used s id : approvals_ok past used s → approvals_ok past (id :: used) s.
Proof. intros [? Hun ? ? ? ?]. split; try done. intros id' [_ Hn]%not_elem_of_cons. auto. Qed.

Lemma approvals_ok_consume past used s s' id p d op now r0 :
  approvals_ok past used s → as_get id s = Some r0 → presents r0 p d op now →
  (∀ id', as_get id' s' = if decide (id' = id) then Some (as_consumed r0) else as_get id' s) →
  approvals_ok ((CallConsume id p d op now, Ok (as_consumed r0)) :: past) used s'.
Proof.
  intros [Hids Hun Hab Hiss Hcon Hcalls] Hr0 Hp Hg. destruct (Hiss id r0 Hr0 (proj1 Hp)) as [Hin0 Hu0].
  assert (Hu : ∀ id', uses id' ((CallConsume id p d op now, Ok (as_consumed r0)) :: past)
             = if decide (id' = id) then 1%nat else uses id' past).
  { intros id'. unfold uses. cbn. unfold str_eqb. case_bool_decide as E.
    - subst. rewrite decide_True by done. unfold uses in Hu0. cbn. by rewrite Hu0.
    - by rewrite decide_False. }
  split.
  - intros id' r'. rewrite Hg. case_decide as E; [|apply Hids]. intros [= <-]. subst id'. cbn. by apply Hids.
  - intros id' Hn. pose proof (Hun id' Hn) as Hnone. assert (id' ≠ id) by congruence.
    rewrite Hg, decide_False by done. done.
  - intros id'. rewrite Hg, Hu. case_decide; [done|auto].
  - intros id' r'. rewrite Hg, Hu. case_decide as E; [by intros [= <-]|].
    intros Hr Hs. destruct (Hiss id' r' Hr Hs). auto using issued_in_mono.
  - intros id' r'. rewrite Hg, Hu. case_decide as E; [done|eauto].
  - intros id' p' d' op' now' r' [E|Hin]%elem_of_cons.
    + injection E as -> -> -> -> -> ->. exists r0. auto using issued_in_mono.
    + destruct (Hcalls _ _ _ _ _ _ Hin) as (r1 & ? & ?). exists r1. auto using issued_in_mono.
Qed.

Lemma approval_run_ok calls : ∀ (s : S) past used,
  approvals_ok past used s → NoDup (drawn calls) → (∀ id, id ∈ drawn calls → id ∉ used) →
  let '(s', past') := approval_run ttl calls s past in ∃ used', approvals_ok past' used' s'.
Proof.
  induction calls as [|c calls IH]; intros s past used Hok Hnd Hfresh; cbn; [by exists used|].
  destruct c as [id p n d op now|id p d op now|id p d op now]; cbn [approval_step drawn List.flat_map app] in *.
  - apply NoDup_cons in Hnd as [Hn Hnd].
    assert (Hnext : ∀ id', id' ∈ drawn calls → id' ∉ id :: used).
    { intros id' Hin. apply not_elem_of_cons. split; [by intros ->|]. apply Hfresh. by right. }
    destruct (issue ttl id p n d op now s) as [s1 [r|e]] eqn:E.
    + apply issue_Ok in E as [-> ->]. apply (IH _ _ (id :: used)); [|done|done].
      apply approvals_ok_issue; [done|]. apply Hfresh. by left.
    + apply issue_Raise in E as ->. apply (IH _ _ (id :: used)); [|done|done].
      apply approvals_ok_used_mono, approvals_ok_skip; done.
  - destruct (validate_approval id p d op now s) as [s1 r] eqn:E. apply validate_reads in E as ->.
    apply (IH _ _ used); [|done|done]. apply approvals_ok_skip; [done|]. done.
  - destruct (consume_approval id p d op now s) as [s1 [r|e]] eqn:E.
    + apply consume_Ok in E as (r0 & Hg & Hp & -> & Hs'); [|apply Hok].
      apply (IH _ _ used); [|done|done]. by eapply approvals_ok_consume.
    + apply consume_Raise in E as ->; [|apply Hok].
      apply (IH _ _ used); [|done|done]. by apply approvals_ok_skip.
Qed.
End single_use.

(** ** Single flight *)

(** Tokens are objects: [release] compares identities, so a token carries the
    number of its creation. *)
Record FlightToken := {
  ft_project_name : string;
  ft_serial : nat;
}.
#[export] Instance FlightToken_eq_dec : EqDecision FlightToken.
Proof. solve_decision. Defined.

Record flight_control := {
  fl_held : gmap string FlightToken;
  fl_next : nat;
}.
Definition new_UpdateFlightControl : flight_control := {| fl_held := ∅; fl_next := 0 |}.

Definition valid_flight_name (s : string) : bool :=
  plain_id s && negb (has_char "/" s) && negb (has_char "\" s).

(** [_try_acquire] *)
Definition try_acquire (project_name : string) : M flight_control FlightToken :=
  assert_ valid_flight_name project_name else_raise UpdateApprovalError Reason.MALFORMED;;
  do s <- getM;;
  assert_ bool_decide (fl_held s !! project_name = None)
    else_raise UpdateApprovalError Reason.STATE_CONFLICT;;
  let token := {| ft_project_name := project_name; ft_serial := fl_next s |} in
  do_ putM {| fl_held := <[project_name := token]> (fl_held s); fl_next := (fl_next s + 1)%nat |};;
  retM token.

Definition release (token : FlightToken) : M flight_control bool :=
  do s <- getM;;
  if bool_decide (fl_held s !! ft_project_name token = Some token) then
    do_ putM {| fl_held := delete (ft_project_name token) (fl_held s); fl_next := fl_next s |};;
    retM true
  else retM false.

(** [with control.acquire(name): body] *)
Definition with_flight {A} (project_name : string) (body : FlightToken → M flight_control A)
  : M flight_control A :=
  do token <- try_acquire project_name;;
  λ s, let '(s1, r) := body token s in
       let '(s2, _) := release token s1 in (s2, r).

(** *** The contract of the control, stated on the list of live tokens *)

Inductive flight_call := FlightAcquire (project_name : string) | FlightRelease (token : FlightToken).
Inductive flight_answer := Acquired (token : FlightToken) | Released (held : bool) | FlightRefused (reason : string).

Definition flight_step (c : flight_call) (s : flight_control) : flight_control * flight_answer :=
  match c with
  | FlightAcquire p =>
      match try_acquire p s with
      | (s', Ok t) => (s', Acquired t)
      | (s', Raise (UpdateApprovalError reason)) => (s', FlightRefused reason)
      | (s', Raise _) => (s', FlightRefused "")
      end
  | FlightRelease t =>
      match release t s with
      | (s', Ok b) => (s', Released b)
      | (s', Raise _) => (s', FlightRefused "")
      end
  end.

(** The specification: the tokens handed out and not given back, and the
    number of tokens created. *)
Record flights := { live : list FlightToken; created : nat }.

Definition spec_flight_step (c : flight_call) (s : flights) : flights * flight_answer :=
  match c with
  | FlightAcquire p =>
      if negb (valid_flight_name p) then (s, FlightRefused Reason.MALFORMED)
      else if bool_decide (p ∈ map ft_project_name (live s)) then (s, FlightRefused Reason.STATE_CONFLICT)
      else let t := {| ft_project_name := p; ft_serial := created s |} in
           ({| live := t :: live s; created := Datatypes.S (created s) |}, Acquired t)
  | FlightRelease t =>
      if bool_decide (t ∈ live s)
      then ({| live := base.filter (λ t', t' ≠ t) (live s); created := created s |}, Released true)
      else (s, Released false)
  end.

Fixpoint flight_trace {X} (step : flight_call → X → X * flight_answer) (calls : list flight_call) (s : X)
  : X * list flight_answer :=
  match calls with
  | [] => (s, [])
  | c :: calls' =>
      let '(s1, a) := step c s in
      let '(s2, answers) := flight_trace step calls' s1 in (s2, a :: answers)
  end.

(** The table holds exactly the live tokens, one per project. *)
Record flight_sim (s : flight_control) (f : flights) : Prop := {
  fs_held : ∀ p t, fl_held s !! p = Some t ↔ t ∈ live f ∧ ft_project_name t = p;
  fs_next : fl_next s = created f;
  fs_single : NoDup (map ft_project_name (live f));
}.

Lemma flight_sim_new : flight_sim new_UpdateFlightControl {| live := []; created := 0 |}.
Proof.
  split; cbn; [|done|constructor]. intros p t. rewrite lookup_empty.
  split; [done|]. by intros [?%not_elem_of_nil _].
Qed.

Lemma flight_sim_free s f p : flight_sim s f → (fl_held s !! p = None ↔ p ∉ map ft_project_name (live f)).
Proof.
  intros [Hheld _ _]. split.
  - intros Hn (t & -> & Hin)%list_elem_of_fmap. assert (fl_held s !! ft_project_name t = Some t) by (by apply Hheld).
    congruence.
  - intros Hn. destruct (fl_held s !! p) as [t|] eqn:E; [|done]. apply Hheld in E as [Hin <-].
    destruct Hn. apply list_elem_of_fmap. by exists t.
Qed.

Lemma flight_sim_acquire s f p : flight_sim s f → p ∉ map ft_project_name (live f) →
  let t := {| ft_project_name := p; ft_serial := created f |} in
  flight_sim {| fl_held := <[p:=t]> (fl_held s); fl_next := (fl_next s + 1)%nat |}
             {| live := t :: live f; created := Datatypes.S (created f) |}.
Proof.
  intros Hsim Hp t. pose proof (proj2 (flight_sim_free s f p Hsim) Hp) as Hfree.
  destruct Hsim as [Hheld Hnext Hsingle]. split; cbn; [|lia|by constructor].
  intros q u. rewrite elem_of_cons. destruct (decide (q = p)) as [->|Hne].
  - rewrite lookup_insert_eq. split; [intros [= <-]; auto|]. intros [[->|Hin] Hq]; [done|].
    destruct Hp. apply list_elem_of_fmap. by exists u.
  - rewrite lookup_insert_ne by done. rewrite Hheld. split; [tauto|].
    intros [[->|Hin] Hq]; [cbn in Hq; congruence|done].
Qed.

Lemma flight_sim_release s f t : flight_sim s f → t ∈ live f →
  flight_sim {| fl_held := delete (ft_project_name t) (fl_held s); fl_next := fl_next s |}
             {| live := base.filter (λ t', t' ≠ t) (live f); created := created f |}.
Proof.
  intros [Hheld Hnext Hsingle] Ht. split; cbn; [|done|].
  - intros q u. rewrite list_elem_of_filter. destruct (decide (q = ft_project_name t)) as [->|Hne].
    + rewrite lookup_delete_eq. split; [done|]. intros [[Hu Hin] Hq].
      assert (fl_held s !! ft_project_name t = Some u) by (apply Hheld; auto).
      assert (fl_held s !! ft_project_name t = Some t) by (apply Hheld; auto). congruence.
    + rewrite lookup_delete_ne by done. rewrite Hheld. split; [|tauto].
      intros [Hin <-]. split_and!; [congruence|done|done].
  - clear -Hsingle. induction (live f) as [|x l IH]; [constructor|]. cbn [map fmap list_fmap] in Hsingle.
    apply NoDup_cons in Hsingle as [Hx Hl]. rewrite filter_cons. case_decide; [|auto].
    cbn [map]. constructor; [|auto]. intros (y & Hxy & Hy)%list_elem_of_fmap. apply list_elem_of_filter in Hy as [_ Hy].
    destruct Hx. apply list_elem_of_fmap. eauto.
Qed.

Lemma flight_step_sim c s f : flight_sim s f →
  flight_sim (flight_step c s).1 (spec_flight_step c f).1 ∧ (flight_step c s).2 = (spec_flight_step c f).2.
Proof.
  intros Hsim. pose proof (fs_next _ _ Hsim) as Hnext. destruct c as [p|t]; cbn.
  - unfold try_acquire, bindM, liftM, raise_unless, getM. destruct (valid_flight_name p); cbn; [|done].
    pose proof (flight_sim_free s f p Hsim) as Hfree.
    destruct (decide (p ∈ map ft_project_name (live f))) as [Hin|Hin].
    + rewrite (bool_decide_eq_true_2 _ Hin), bool_decide_eq_false_2 by tauto. done.
    + rewrite (bool_decide_eq_false_2 _ Hin), bool_decide_eq_true_2 by tauto. cbn. rewrite Hnext at 1 3.
      split; [|done]. by apply flight_sim_acquire.
  - unfold release, bindM, getM.
    assert (Hiff : fl_held s !! ft_project_name t = Some t ↔ t ∈ live f) by (rewrite (fs_held _ _ Hsim); tauto).
    destruct (decide (t ∈ live f)) as [Hin|Hin].
    + rewrite (bool_decide_eq_true_2 _ Hin), bool_decide_eq_true_2 by tauto. cbn.
      split; [|done]. by apply flight_sim_release.
    + rewrite (bool_decide_eq_false_2 _ Hin), bool_decide_eq_false_2 by tauto. done.
Qed.

Lemma flight_trace_sim calls : ∀ s f, flight_sim s f →
  flight_sim (flight_trace flight_step calls s).1 (flight_trace spec_flight_step calls f).1 ∧
  (flight_trace flight_step calls s).2 = (flight_trace spec_flight_step calls f).2.
Proof.
  induction calls as [|c calls IH]; intros s f Hsim; cbn; [done|].
  destruct (flight_step_sim c s f Hsim) as [Hs1 Ha].
  destruct (flight_step c s) as [s1 a], (spec_flight_step c f) as [f1 b]. cbn in *. subst b.
  destruct (IH s1 f1 Hs1) as [Hs2 Hans].
  destruct (flight_trace flight_step calls s1), (flight_trace spec_flight_step calls f1). cbn in *. by subst.
Qed.

(** The context manager gives the flight back whatever the body does. *)
Lemma with_flight_returns {A} p (body : FlightToken → M flight_control A) s t s0 :
  try_acquire p s = (s0, Ok t) → fl_held (with_flight p body s).1 !! p ≠ Some t.
Proof.
  intros E. assert (Hp : ft_project_name t = p) by (unfold try_acquire in E; by split_ok).
  unfold with_flight, bindM at 1. rewrite E. destruct (body t s0) as [s1 r].
  unfold release, bindM, getM. rewrite Hp. destruct (decide (fl_held s1 !! p = Some t)) as [Ht|Ht].
  - rewrite (bool_decide_eq_true_2 _ Ht). cbn. by rewrite lookup_delete_eq.
  - by rewrite (bool_decide_eq_false_2 _ Ht).
Qed.

(** ** Properties *)

(** C38: over any store that keeps the protocol's promises, in every history that
    draws distinct approval ids, an approval is consumed at most once, and a
    consumption that returns presented exactly the project, plan digest,
    operator, authentication epoch and session an earlier call issued that
    approval for, before it expired. *)
Theorem approval_single_use {S} `{ApprovalStoreLaws S} ttl calls (s : S) :
  (∀ id, as_get id s = None) → NoDup (drawn calls) →
  let '(_, past) := approval_run ttl calls s [] in
  (∀ id, (uses id past ≤ 1)%nat) ∧
  (∀ id p d op now r, (CallConsume id p d op now, Ok r) ∈ past →
     ∃ n at_, (CallIssue id p n d op at_, Ok (issued_record ttl id p n d op at_)) ∈ past ∧ now < at_ + ttl ∧
       r = as_consumed (issued_record ttl id p n d op at_)).
Proof.
  intros Hempty Hnd.
  pose proof (approval_run_ok ttl calls s [] []) as Hrun.
  destruct (approval_run ttl calls s []) as [s' past].
  destruct Hrun as (used & [Hids Hun Hab Hiss Hcon Hcalls]); [|done|by intros id _ ?%not_elem_of_nil|].
  { split; try (intros; rewrite Hempty in *; done).
    - by intros id p d op now r ?%not_elem_of_nil. }
  split.
  - intros id. destruct (as_get id s') as [r|] eqn:E.
    + destruct (ar_state r) eqn:Es; [destruct (Hiss id r E Es) as [_ ->]|rewrite (Hcon id r E Es)]; lia.
    + rewrite (Hab id E). lia.
  - intros id p d op now r Hin.
    destruct (Hcalls _ _ _ _ _ _ Hin) as (r0 & (p0 & n & d0 & op0 & at_ & Hiss0 & ->) & Hp & ->).
    destruct Hp as (_ & He & Hpr & Hd & Ho & Hep & Hse). cbn in *. subst p0 d0.
    assert (op0 = op) as -> by (destruct op0, op; cbn in *; congruence).
    exists n, at_. done.
Qed.

(** Whatever acquisitions and releases a process makes, in whatever order
    and with whatever tokens, the flight control answers like the list of live
    tokens: a project with a live token refuses a second flight, a stale token
    releases nothing, and no two live tokens name one project. *)
Lemma flight_control_refines calls :
  let '(s, answers) := flight_trace flight_step calls new_UpdateFlightControl in
  let '(f, expected) := flight_trace spec_flight_step calls {| live := []; created := 0 |} in
  answers = expected ∧ NoDup (map ft_project_name (live f)) ∧
  ∀ p t, fl_held s !! p = Some t ↔ t ∈ live f ∧ ft_project_name t = p.
Proof.
  pose proof (flight_trace_sim calls _ _ flight_sim_new) as [Hsim Hans].
  destruct (flight_trace flight_step calls _), (flight_trace spec_flight_step calls _). cbn in *.
  split_and!; [done|apply Hsim|apply Hsim].
Qed.
