(* ===== verification/ComposeAdapter.v ===== *)
(** * ComposeAdapter: bounded service updates (services/compose/execution_adapter.py)

    The intent the adapter is given, and the pulls, [up]s and inspections it
    makes of it.  Docker, the file system, the resolver of projects, the lease
    check and the inspector of services are outside: they are computations on a
    store [W] that may raise, passed in as the constructor's arguments are.  The
    attributes of projects and observations are optional, as [getattr] with a
    default reads them; texts of exceptions are an argument. *)

From S2P Require Import Prelude PyStr PyText PyTime UpdateModel Ipc.
From Stdlib Require Import Ascii String ZArith Lia.
From stdpp Require Import base strings pretty list.

Local Open Scope string_scope.
Local Open Scope Z_scope.
Local Open Scope aipm_scope.

Inductive ServiceUpdateVerificationCode :=
  | VERIFIED_SUCCESS | APPLICATION_PROBE_FAILURE | RUNTIME_DIGEST_MISMATCH
  | DEPENDENCY_HEALTH_FAILURE | SUPERVISOR_FAILURE | RECONCILIATION_REQUIRED.
#[export] Instance VerificationCode_eq_dec : EqDecision ServiceUpdateVerificationCode.
Proof. solve_decision. Defined.
Definition verification_code_value (c : ServiceUpdateVerificationCode) : string :=
  match c with
  | VERIFIED_SUCCESS => "verified_success" | APPLICATION_PROBE_FAILURE => "application_probe_failure"
  | RUNTIME_DIGEST_MISMATCH => "runtime_digest_mismatch"
  | DEPENDENCY_HEALTH_FAILURE => "dependency_health_failure" | SUPERVISOR_FAILURE => "supervisor_failure"
  | RECONCILIATION_REQUIRED => "reconciliation_required"
  end.

(** The evidence map of a verification result is always left empty. *)
Record ServiceUpdateVerificationResult := {
  vr_code : ServiceUpdateVerificationCode;
  vr_verified_services : list string;
  vr_details : string;
}.
Definition verification_is_success (v : ServiceUpdateVerificationResult) : bool :=
  bool_decide (vr_code v = VERIFIED_SUCCESS).

Record ComposeExecutionResult := {
  ce_verification : ServiceUpdateVerificationResult;
  ce_executed_commands : list (list string);
  ce_mutation_occurred : bool;
  ce_details : string;
}.
Definition compose_is_success (r : ComposeExecutionResult) : bool := verification_is_success (ce_verification r).

(** ** The intent *)

Record BoundedServiceUpdateIntent := {
  bi_project_name : string;
  bi_service_scope : list string;
  bi_plan_digest : string;
  bi_confirmation_id : string;
  bi_action_id : string;
  bi_fencing_token : Z;
  bi_contract_digest : string;
  bi_lease_id : string;
  bi_expected_target_digest : option string;
  bi_expected_child_digest : option string;
  bi_atomicity : string;
  bi_now : option datetime;
}.

(** [_SAFE_ID_RE.match(s)]: the dollar also stands before a final line feed. *)
Fixpoint without_final_newline (s : string) : string :=
  match s with
  | EmptyString => EmptyString
  | String c EmptyString => if ord c =? 10 then EmptyString else s
  | String c s' => String c (without_final_newline s')
  end.
Definition SAFE_ID_RE (s : string) : bool := SERVICE_NAME_PATTERN s || SERVICE_NAME_PATTERN (without_final_newline s).

Definition begins_with_dash (s : string) : bool := match s with String c _ => Ascii.eqb c "-" | _ => false end.
Fixpoint check_scope (seen scope : list string) : result unit :=
  match scope with
  | [] => Ok ()
  | svc :: scope' =>
      require str_nonempty svc && (slen svc <=? 64) && str_eqb svc (strip svc) &&
              negb (str_any forbidden_char svc) && negb (begins_with_dash svc) && SAFE_ID_RE svc &&
              negb (bool_decide (svc ∈ seen))
        else_raise ComposeExecutionError "invalid_service_scope";;
      check_scope (seen ++ [svc]) scope'
  end.

(** [BoundedServiceUpdateIntent.__post_init__] *)
Definition check_intent (i : BoundedServiceUpdateIntent) : result BoundedServiceUpdateIntent :=
  require str_nonempty (bi_project_name i) && SAFE_ID_RE (bi_project_name i)
    else_raise ComposeExecutionError "invalid_project_name";;
  require negb (bool_decide (bi_service_scope i = [])) else_raise ComposeExecutionError "invalid_service_scope";;
  let* _ := check_scope [] (bi_service_scope i) in
  require HEX 64 (bi_plan_digest i) else_raise ComposeExecutionError "invalid_plan_digest";;
  require HEX 32 (bi_confirmation_id i) else_raise ComposeExecutionError "invalid_confirmation_id";;
  require HEX 64 (bi_contract_digest i) else_raise ComposeExecutionError "invalid_contract_digest";;
  require str_nonempty (bi_lease_id i) else_raise ComposeExecutionError "invalid_lease_id";;
  require 1 <=? bi_fencing_token i else_raise ComposeExecutionError "invalid_fencing_token";;
  Ok i.

(** ** What the adapter is composed with *)

Record ComposeProjectEntry := {
  cp_path : option string;
  cp_compose_files : option (list string);
  cp_services : option (list string);
  cp_local_build_services : list string;
}.
(** The attributes of an inspected service; [None] where it has none. *)
Record ServiceObservation := {
  ob_state : option string;
  ob_health : option string;
  ob_running_digest : option string;
}.
Record CompletedProcess := { pr_returncode : Z; pr_stdout : string; pr_stderr : string }.

Definition is_os_error (e : exn) : bool := match e with OSError | TimeoutError => true | _ => false end.
Definition first_text (a b c : string) : string := if str_nonempty a then a else if str_nonempty b then b else c.
Definition text_or_none (o : option string) : string := match o with Some s => s | None => "None" end.
(** [d.split("@")[1] if "@" in d else d] *)
Definition digest_part (d : string) : string :=
  match split_on "@" d with _ :: x :: _ => x | _ => d end.

Definition mk_verification (code : ServiceUpdateVerificationCode) (verified : list string) (details : string) :=
  {| vr_code := code; vr_verified_services := verified; vr_details := details |}.

Definition file_flags (files : list string) : list string := List.concat (List.map (λ f, ["-f"; f]) files).
Definition build_pull_command (files : list string) (svc : string) : list string :=
  (["docker"; "compose"] ++ file_flags files ++ ["pull"; svc])%list.
Definition build_up_command (files : list string) (svc : string) : list string :=
  (["docker"; "compose"] ++ file_flags files ++ ["up"; "-d"; "--no-deps"; svc])%list.

Section adapter.
Context {W : Type}.
Variable project_resolver : option (string → M W (option ComposeProjectEntry)).
Variable runner : list string → string → M W CompletedProcess.
Variable inspector : option (string → string → M W (option ServiceObservation)).
Variable lease_validator : option (string → Z → option datetime → M W bool).
(** The file system: [Path.resolve], [is_dir], [is_file]. *)
Variable resolve : W → string → string.
Variables is_dir is_file : W → string → bool.
(** [str(exc)] *)
Variable exc_text : exn → string.

Definition compose_error {A} (code : string) : M W A := raiseM (ComposeExecutionError code).

Definition resolve_project (project_name : string) : M W ComposeProjectEntry :=
  match project_resolver with
  | None => compose_error "project_resolver_missing"
  | Some find =>
      do project <- find project_name;;
      match project with None => compose_error "project_not_found" | Some p => retM p end
  end.

Definition is_absolute (p : string) : bool := begins "/" p.

Fixpoint validate_files (project_path : string) (raw_files : list string) : M W (list string) :=
  match raw_files with
  | [] => retM []
  | file_str :: rest =>
      assert_ negb (bool_decide (".." ∈ path_parts file_str)) else_raise ComposeExecutionError "path_traversal";;
      do w <- getM;;
      let f_path := if is_absolute file_str then resolve w file_str
                    else resolve w (project_path ++ "/" ++ file_str) in
      assert_ is_file w f_path else_raise ComposeExecutionError "compose_file_not_found";;
      do files <- validate_files project_path rest;;
      retM (f_path :: files)
  end.
Definition validate_project_files (project : ComposeProjectEntry) : M W (string * list string) :=
  match cp_path project with
  | None => compose_error "invalid_project_path"
  | Some raw_path =>
      do w <- getM;;
      let project_path := resolve w raw_path in
      assert_ is_dir w project_path else_raise ComposeExecutionError "invalid_project_path";;
      match cp_compose_files project with
      | None | Some [] => compose_error "missing_compose_files"
      | Some raw_files =>
          do files <- validate_files project_path raw_files;;
          retM (project_path, files)
      end
  end.

Fixpoint validate_service_definitions (project : ComposeProjectEntry) (scope : list string) : result unit :=
  match scope with
  | [] => Ok ()
  | svc :: scope' =>
      require match cp_services project with Some known => bool_decide (svc ∈ known) | None => true end
        else_raise ComposeExecutionError "unrelated_service";;
      require negb (bool_decide (svc ∈ cp_local_build_services project))
        else_raise ComposeExecutionError "local_build_forbidden";;
      validate_service_definitions project scope'
  end.

(** [_check_pre_mutation_health]: every exception of the inspector is answered. *)
Fixpoint check_pre_mutation (inspect : string → string → M W (option ServiceObservation))
    (project_name : string) (scope : list string) : M W (option ServiceUpdateVerificationResult) :=
  match scope with
  | [] => retM None
  | svc :: scope' => λ w,
      match inspect project_name svc w with
      | (w', Raise e) =>
          (w', Ok (Some (mk_verification SUPERVISOR_FAILURE []
                           ("Failed to inspect pre-mutation status of " ++ svc ++ ": " ++ exc_text e))))
      | (w', Ok None) => check_pre_mutation inspect project_name scope' w'
      | (w', Ok (Some obs)) =>
          let state := match ob_state obs with Some s => s | None => "running" end in
          if negb (str_eqb state "running") then
            (w', Ok (Some (mk_verification DEPENDENCY_HEALTH_FAILURE []
                             ("Service " ++ svc ++ " is not running prior to mutation (state=" ++ state ++ ")"))))
          else if bool_decide (ob_health obs = Some "unhealthy") then
            (w', Ok (Some (mk_verification DEPENDENCY_HEALTH_FAILURE []
                             ("Service " ++ svc ++ " is unhealthy prior to mutation"))))
          else check_pre_mutation inspect project_name scope' w'
      end
  end.
Definition check_pre_mutation_health (project_name : string) (scope : list string)
  : M W (option ServiceUpdateVerificationResult) :=
  match inspector with None => retM None | Some inspect => check_pre_mutation inspect project_name scope end.

(** [_run_command] *)
Definition run_command (cmd : list string) (cwd : string) : M W CompletedProcess :=
  catchM (runner cmd cwd)
    (λ e, if is_os_error e then
            Some (retM {| pr_returncode := 1; pr_stdout := "";
                          pr_stderr := "Failed to execute command: " ++ exc_text e |})
          else None).

(** The loop over the scope: the commands run so far, or the result it stops
    with. *)
Fixpoint mutate_services (files : list string) (cwd : string) (atomicity_tight : bool) (scope : list string)
    (executed : list (list string)) (mutation_started : bool)
  : M W (list (list string) + ComposeExecutionResult) :=
  match scope with
  | [] => retM (inl executed)
  | svc :: scope' =>
      let pull_cmd := build_pull_command files svc in
      do pull_res <- run_command pull_cmd cwd;;
      if negb (pr_returncode pull_res =? 0) then
        retM (inr {| ce_verification := mk_verification
                       (if mutation_started then RECONCILIATION_REQUIRED else SUPERVISOR_FAILURE) []
                       ("Pull failed for " ++ svc ++ ": " ++
                        strip (first_text (pr_stderr pull_res) (pr_stdout pull_res) "pull failed"));
                     ce_executed_commands := executed ++ [pull_cmd];
                     ce_mutation_occurred := mutation_started;
                     ce_details := "Pull failed for " ++ svc |})
      else
        let up_cmd := build_up_command files svc in
        do up_res <- run_command up_cmd cwd;;
        if negb (pr_returncode up_res =? 0) then
          retM (inr {| ce_verification := mk_verification
                         (if atomicity_tight then RECONCILIATION_REQUIRED else SUPERVISOR_FAILURE) []
                         ("Compose up failed for " ++ svc ++ ": " ++
                          strip (first_text (pr_stderr up_res) (pr_stdout up_res) "up failed"));
                       ce_executed_commands := executed ++ [pull_cmd; up_cmd];
                       ce_mutation_occurred := true;
                       ce_details := "Compose up failed for " ++ svc |})
        else mutate_services files cwd atomicity_tight scope' (executed ++ [pull_cmd; up_cmd]) true
  end.

(** What the verification finds wrong with one observed service: the code it
    has when nothing needs reconciling, and the details. *)
Definition observation_fault (target child : option string) (svc : string) (r : result (option ServiceObservation))
  : option (ServiceUpdateVerificationCode * string) :=
  match r with
  | Raise e => Some (SUPERVISOR_FAILURE, "Inspection exception for " ++ svc ++ ": " ++ exc_text e)
  | Ok None => Some (SUPERVISOR_FAILURE, "Service " ++ svc ++ " could not be inspected after mutation")
  | Ok (Some obs) =>
      let state := match ob_state obs with Some s => s | None => "" end in
      if negb (str_eqb state "running") then
        Some (SUPERVISOR_FAILURE, "Service " ++ svc ++ " is not running after mutation (state=" ++ state ++ ")")
      else if bool_decide (ob_health obs = Some "unhealthy") then
        Some (APPLICATION_PROBE_FAILURE,
              "Service " ++ svc ++ " health probe failed (health=" ++ text_or_none (ob_health obs) ++ ")")
      else match target, ob_running_digest obs with
           | Some expected, Some running =>
               if negb (str_eqb (digest_part running) (digest_part expected)) &&
                  negb (if truthy child then str_eqb (digest_part running) (digest_part (text_or_none child)) else false)
               then Some (RUNTIME_DIGEST_MISMATCH,
                          "Service " ++ svc ++ " running digest mismatch: " ++ running ++ " != " ++ expected)
               else None
           | _, _ => None
           end
  end.

Fixpoint verify_services (inspect : string → string → M W (option ServiceObservation)) (project_name : string)
    (target child : option string) (atomicity_tight : bool) (scope verified : list string)
  : M W (list string + ServiceUpdateVerificationResult) :=
  match scope with
  | [] => retM (inl verified)
  | svc :: scope' => λ w,
      let '(w', r) := inspect project_name svc w in
      match observation_fault target child svc r with
      | Some (code, details) =>
          (w', Ok (inr (mk_verification
                          (if atomicity_tight && negb (bool_decide (verified = [])) then RECONCILIATION_REQUIRED
                           else code) verified details)))
      | None => verify_services inspect project_name target child atomicity_tight scope' (verified ++ [svc]) w'
      end
  end.
Definition verify_post_mutation (project_name : string) (scope : list string) (target child : option string)
    (atomicity_tight : bool) : M W ServiceUpdateVerificationResult :=
  match inspector with
  | None => retM (mk_verification SUPERVISOR_FAILURE []
                    "Post-mutation inspection hook is missing; command exit 0 is not verified success")
  | Some inspect =>
      do out <- verify_services inspect project_name target child atomicity_tight scope [];;
      match out with
      | inr v => retM v
      | inl verified =>
          if atomicity_tight && negb (length verified =? length scope)%nat then
            retM (mk_verification RECONCILIATION_REQUIRED verified
                    ("Partial ATOMIC_TIGHT execution: verified " ++ pretty (Z.of_nat (length verified)) ++ "/" ++
                     pretty (Z.of_nat (length scope))))
          else retM (mk_verification VERIFIED_SUCCESS verified
                       ("Successfully verified " ++ pretty (Z.of_nat (length verified)) ++ " service(s): " ++
                        join_with ", " verified))
      end
  end.

(** [ComposeExecutionAdapter.execute] *)
Definition adapter_execute (intent : BoundedServiceUpdateIntent) : M W ComposeExecutionResult :=
  do lease_ok <- match lease_validator with
                 | None => retM true
                 | Some valid => valid (bi_action_id intent) (bi_fencing_token intent) (bi_now intent)
                 end;;
  assert_ lease_ok else_raise ComposeExecutionError "lease_expired";;
  do project <- resolve_project (bi_project_name intent);;
  do paths <- validate_project_files project;;
  do_ liftM (validate_service_definitions project (bi_service_scope intent));;
  do pre_check <- check_pre_mutation_health (bi_project_name intent) (bi_service_scope intent);;
  match pre_check with
  | Some failed =>
      retM {| ce_verification := failed; ce_executed_commands := []; ce_mutation_occurred := false;
              ce_details := "Pre-mutation check failed: " ++ vr_details failed |}
  | None =>
      let atomicity_tight := str_eqb (bi_atomicity intent) "atomic_tight" ||
                             (1 <? Z.of_nat (length (bi_service_scope intent))) in
      do mutated <- mutate_services (snd paths) (fst paths) atomicity_tight (bi_service_scope intent) [] false;;
      match mutated with
      | inr stopped => retM stopped
      | inl executed =>
          do verification <- verify_post_mutation (bi_project_name intent) (bi_service_scope intent)
                               (bi_expected_target_digest intent) (bi_expected_child_digest intent) atomicity_tight;;
          retM {| ce_verification := verification; ce_executed_commands := executed; ce_mutation_occurred := true;
                  ce_details := "Execution completed with independent verification" |}
      end
  end.
End adapter.

(** ** The intent's scope is the channel's *)

Lemma check_scope_Ok scope : ∀ seen, check_scope seen scope = Ok () →
  Forall (λ s, str_nonempty s = true ∧ slen s ≤ 64 ∧ begins_with_dash s = false) scope ∧
  NoDup scope ∧ ∀ s, s ∈ scope → s ∉ seen.
Proof.
  induction scope as [|svc scope IH]; intros seen; cbn.
  - intros _. split_and!; [constructor..|]. by intros s ?%not_elem_of_nil.
  - intros E. inv_ok. apply IH in E as (Hf & Hd & Hs). split_and!.
    + constructor; [|done]. split_and!; [done| |done]. by apply Z.leb_le.
    + constructor; [|done]. intros Hin. apply (Hs svc Hin), elem_of_app. right. by apply list_elem_of_singleton.
    + intros s [-> |Hin]%elem_of_cons; [done|]. intros Hseen. apply (Hs s Hin), elem_of_app. by left.
Qed.

(** A scope the channel accepts is one the intent accepts. *)
Lemma valid_scope_checks l : valid_scope l = true → l ≠ [] ∧ check_scope [] l = Ok ().
Proof.
  intros Hv. unfold valid_scope in Hv.
  apply andb_true_iff in Hv as [[Hne Hf]%andb_true_iff Hd]. apply bool_decide_eq_true in Hd.
  apply negb_true_iff, bool_decide_eq_false in Hne. split; [done|].
  assert (∀ seen, (∀ s, s ∈ l → s ∉ seen) → check_scope seen l = Ok ()) as H;
    [|apply H; intros s _; apply not_elem_of_nil].
  clear Hne. induction Hd as [|svc l Hn Hd IH]; intros seen Hs; [done|].
  cbn in Hf. apply andb_true_iff in Hf as [Hc Hf]. cbn [check_scope].
  rewrite <- valid_service_name_canonical in Hc. unfold valid_service_name in Hc.
  repeat match goal with H : _ && _ = true |- _ => apply andb_true_iff in H as [? ?] end.
  assert (begins_with_dash svc = false) as -> by by apply negb_true_iff.
  assert (SAFE_ID_RE svc = true) as -> by (unfold SAFE_ID_RE; by apply orb_true_iff; left).
  assert (svc ∉ seen) as Hns by (apply Hs; by left).
  rewrite (bool_decide_eq_false_2 _ Hns). repeat match goal with H : _ = true |- _ => rewrite H end. cbn.
  apply IH; [done|]. intros s Hin [Hin'| ->%list_elem_of_singleton]%elem_of_app; [|done].
  by apply (Hs s); [right|].
Qed.

(** ** What a run of the adapter does *)

Section adapter_runs.
Context {W : Type}.
Context (project_resolver : option (string → M W (option ComposeProjectEntry))).
Context (runner : list string → string → M W CompletedProcess).
Context (inspector : option (string → string → M W (option ServiceObservation))).
Context (lease_validator : option (string → Z → option datetime → M W bool)).
Context (resolve : W → string → string) (is_dir is_file : W → string → bool) (exc_text : exn → string).

#[local] Notation adapter_execute :=
  (adapter_execute project_resolver runner inspector lease_validator resolve is_dir is_file exc_text).

(** The pull and the [up] of each service, in order. *)
Definition scope_commands (files : list string) (scope : list string) : list (list string) :=
  List.concat (List.map (λ s, [build_pull_command files s; build_up_command files s]) scope).

Fixpoint commands_succeed (cwd : string) (cmds : list (list string)) (w w' : W) : Prop :=
  match cmds with
  | [] => w' = w
  | cmd :: cmds' => ∃ w1 res, run_command runner exc_text cmd cwd w = (w1, Ok res) ∧ pr_returncode res = 0 ∧
                              commands_succeed cwd cmds' w1 w'
  end.

Definition observed_good (target child : option string) (obs : ServiceObservation) : Prop :=
  ob_state obs = Some "running" ∧ ob_health obs ≠ Some "unhealthy" ∧
  (∀ expected running, target = Some expected → ob_running_digest obs = Some running →
     digest_part running = digest_part expected ∨
     truthy child = true ∧ digest_part running = digest_part (text_or_none child)).
Fixpoint services_verified (inspect : string → string → M W (option ServiceObservation)) (project_name : string)
    (target child : option string) (scope : list string) (w w' : W) : Prop :=
  match scope with
  | [] => w' = w
  | svc :: scope' => ∃ w1 obs, inspect project_name svc w = (w1, Ok (Some obs)) ∧ observed_good target child obs ∧
                               services_verified inspect project_name target child scope' w1 w'
  end.

(** An observation without a running digest is judged as if no target digest
    had been given; [ComposeServiceObservation] has none. *)
Lemma digest_unseen target child svc obs : ob_running_digest obs = None →
  observation_fault exc_text target child svc (Ok (Some obs)) = observation_fault exc_text None None svc (Ok (Some obs)).
Proof. intros H. unfold observation_fault. rewrite H. by destruct target. Qed.
Lemma observation_fault_None target child svc r : observation_fault exc_text target child svc r = None →
  ∃ obs, r = Ok (Some obs) ∧ observed_good target child obs.
Proof.
  unfold observation_fault. destruct r as [[obs|]|e]; try done. intros H. exists obs. split; [done|].
  destruct (negb _) eqn:Es in H; [done|]. apply negb_false_iff, str_eqb_true in Es.
  destruct (decide (ob_health obs = Some "unhealthy")) as [Hh|Hh];
    [by rewrite (bool_decide_eq_true_2 _ Hh) in H|]. rewrite (bool_decide_eq_false_2 _ Hh) in H.
  split_and!; [by destruct (ob_state obs); [subst|]|done|].
  intros expected running -> Er. rewrite Er in H.
  destruct (str_eqb (digest_part running) (digest_part expected)) eqn:E1; [left; by apply str_eqb_true|].
  right. destruct (truthy child); [|done]. cbn in H. split; [done|].
  destruct (str_eqb _ _) eqn:E2 in H; [by apply str_eqb_true|done].
Qed.

(** The loop ran every command of the services before the one it stopped at. *)
Definition has_up (files : list string) (cmds : list (list string)) : Prop := ∃ s, build_up_command files s ∈ cmds.

Lemma mutate_services_done files cwd tight scope : ∀ executed started w w' out,
  mutate_services runner exc_text files cwd tight scope executed started w = (w', Ok (inl out)) →
  out = (executed ++ scope_commands files scope)%list ∧ commands_succeed cwd (scope_commands files scope) w w'.
Proof.
  induction scope as [|svc scope IH]; intros executed started w w' out; cbn [mutate_services].
  - intros [= <- <-]. cbn. by rewrite app_nil_r.
  - intros E. apply bindM_Ok in E as (w1 & pr & E1 & E). destruct (negb _) eqn:Hp in E; [done|].
    apply bindM_Ok in E as (w2 & ur & E2 & E). destruct (negb _) eqn:Hu in E; [done|].
    apply negb_false_iff, Z.eqb_eq in Hp, Hu. apply IH in E as [-> Hc]. cbn. rewrite <- app_assoc. split; [done|].
    exists w1, pr. split_and!; [done..|]. by exists w2, ur.
Qed.

Implicit Types (inspect : string → string → M W (option ServiceObservation)) (w : W).

Lemma verify_services_done inspect name target child tight scope : ∀ verified w w' out,
  verify_services exc_text inspect name target child tight scope verified w = (w', Ok (inl out)) →
  out = (verified ++ scope)%list ∧ services_verified inspect name target child scope w w'.
Proof.
  induction scope as [|svc scope IH]; intros verified w w' out; cbn [verify_services].
  - intros [= <- <-]. by rewrite app_nil_r.
  - destruct (inspect name svc w) as [w1 r] eqn:Ei. destruct (observation_fault _ _ _ svc r) as [[code d]|] eqn:Ef; [done|].
    intros E. apply IH in E as [-> Hs]. rewrite <- app_assoc. split; [done|].
    apply observation_fault_None in Ef as (obs & -> & Hg). by exists w1, obs.
Qed.
Lemma verify_services_fault inspect name target child tight scope : ∀ verified w w' v,
  verify_services exc_text inspect name target child tight scope verified w = (w', Ok (inr v)) →
  verification_is_success v = false.
Proof.
  induction scope as [|svc scope IH]; intros verified w w' v; cbn [verify_services]; [done|].
  destruct (inspect name svc w) as [w1 r] eqn:Ei. destruct (observation_fault _ _ _ svc r) as [[code d]|] eqn:Ef; [|apply IH].
  intros [= <- <-]. unfold verification_is_success. cbn.
  destruct (_ && _); [done|]. apply bool_decide_eq_false. intros ->.
  unfold observation_fault in Ef. repeat case_match; congruence.
Qed.

(** Whatever stops the loop is not a success, and says whether an [up] ran. *)
Lemma mutate_services_stopped files cwd tight scope : ∀ executed started w w' r,
  (started = true ↔ has_up files executed) →
  mutate_services runner exc_text files cwd tight scope executed started w = (w', Ok (inr r)) →
  compose_is_success r = false ∧ (ce_mutation_occurred r = true ↔ has_up files (ce_executed_commands r)) ∧
  (vr_code (ce_verification r) = RECONCILIATION_REQUIRED → ce_mutation_occurred r = true).
Proof.
  induction scope as [|svc scope IH]; intros executed started w w' r Hst; cbn [mutate_services]; [done|].
  assert (Hpull : ∀ s, build_pull_command files svc ≠ build_up_command files s).
  { intros s E. unfold build_pull_command, build_up_command in E. rewrite !app_assoc in E.
    apply (f_equal length) in E. rewrite !length_app in E. cbn in E. lia. }
  intros E. apply bindM_Ok in E as (w1 & pr & _ & E). destruct (negb _) in E.
  - injection E as <- <-. unfold compose_is_success, verification_is_success. cbn. split_and!.
    + by destruct started.
    + rewrite Hst. unfold has_up. split; intros (s & Hs); exists s; [by apply elem_of_app; left|].
      apply elem_of_app in Hs as [?|Hs%list_elem_of_singleton]; [done|]. by destruct (Hpull s).
    + by destruct started.
  - apply bindM_Ok in E as (w2 & ur & _ & E).
    assert (has_up files (executed ++ [build_pull_command files svc; build_up_command files svc])) as Hup.
    { exists svc. apply elem_of_app. right. right. by left. }
    destruct (negb _) in E.
    + injection E as <- <-. unfold compose_is_success, verification_is_success. cbn.
      split_and!; [by destruct tight|done|done].
    + by apply IH in E.
Qed.

Lemma check_pre_fails inspect name scope : ∀ w w' v,
  check_pre_mutation exc_text inspect name scope w = (w', Ok (Some v)) →
  vr_code v = SUPERVISOR_FAILURE ∨ vr_code v = DEPENDENCY_HEALTH_FAILURE.
Proof.
  induction scope as [|svc scope IH]; intros w w' v; cbn [check_pre_mutation]; [done|].
  destruct (inspect name svc w) as [w1 [[obs|]|e]].
  - destruct (negb _); [intros [= <- <-]; by right|]. destruct (bool_decide _); [intros [= <- <-]; by right|]. apply IH.
  - apply IH.
  - intros [= <- <-]. by left.
Qed.

(** A run that returns went through the lease check, the resolver, the files and
    the definitions, and then stopped before, in or after the mutations. *)
Lemma adapter_execute_Ok intent w w' r : adapter_execute intent w = (w', Ok r) →
  ∃ cwd files tight w1,
    (ce_mutation_occurred r = false ∧ ce_executed_commands r = [] ∧ w' = w1 ∧
     (vr_code (ce_verification r) = SUPERVISOR_FAILURE ∨ vr_code (ce_verification r) = DEPENDENCY_HEALTH_FAILURE)) ∨
    mutate_services runner exc_text files cwd tight (bi_service_scope intent) [] false w1 = (w', Ok (inr r)) ∨
    ∃ w2, mutate_services runner exc_text files cwd tight (bi_service_scope intent) [] false w1 =
            (w2, Ok (inl (ce_executed_commands r))) ∧ ce_mutation_occurred r = true ∧
          verify_post_mutation inspector exc_text (bi_project_name intent) (bi_service_scope intent)
            (bi_expected_target_digest intent) (bi_expected_child_digest intent) tight w2 = (w', Ok (ce_verification r)).
Proof.
  unfold ComposeAdapter.adapter_execute. intros E.
  apply bindM_Ok in E as (wa & lease_ok & _ & E). apply bindM_Ok in E as (wb & [] & _ & E).
  apply bindM_Ok in E as (wc & project & _ & E). apply bindM_Ok in E as (wd & [cwd files] & _ & E).
  apply bindM_Ok in E as (we & [] & _ & E). apply bindM_Ok in E as (w1 & pre & Ep & E).
  set (tight := str_eqb (bi_atomicity intent) "atomic_tight" || (1 <? Z.of_nat (length (bi_service_scope intent)))) in *.
  exists cwd, files, tight, w1. destruct pre as [v|].
  - left. injection E as <- <-. cbn. split_and!; [done..|].
    unfold check_pre_mutation_health in Ep. destruct inspector as [inspect|]; [|done]. by apply check_pre_fails in Ep.
  - right. apply bindM_Ok in E as (w2 & [executed|stopped] & Em & E); [|left; by injection E as <- <-].
    right. apply bindM_Ok in E as (w3 & v & Ev & E). injection E as <- <-. by exists w2.
Qed.

(** *** Containment *)

Section containment.
Context (R : W → W → Prop) `{!PreOrder R} (scope : list string).
Hypothesis resolver_keeps : ∀ find, project_resolver = Some find → ∀ name, keeps R (find name).
Hypothesis lease_keeps : ∀ valid, lease_validator = Some valid → ∀ a t n, keeps R (valid a t n).
Hypothesis inspector_keeps : ∀ inspect, inspector = Some inspect → ∀ name svc, keeps R (inspect name svc).
Hypothesis runner_keeps : ∀ cmd cwd files svc, svc ∈ scope →
  cmd = build_pull_command files svc ∨ cmd = build_up_command files svc → keeps R (runner cmd cwd).

Lemma run_command_keeps cmd cwd : keeps R (runner cmd cwd) → keeps R (run_command runner exc_text cmd cwd).
Proof.
  intros Hk w w' r. unfold run_command, catchM. destruct (runner cmd cwd w) as [w1 [res|e]] eqn:E.
  - intros [= <- _]. by eapply Hk.
  - destruct (is_os_error e); intros [= <- _]; by eapply Hk.
Qed.

Lemma mutate_keeps files cwd tight l : ∀ executed started, (∀ s, s ∈ l → s ∈ scope) →
  keeps R (mutate_services runner exc_text files cwd tight l executed started).
Proof.
  induction l as [|svc l IH]; intros executed started Hl w; cbn [mutate_services]; [by apply keeps_from_reads|].
  assert (svc ∈ scope) as Hsvc by (apply Hl; by left).
  apply keeps_from_bind; [done|by eapply run_command_keeps, runner_keeps; [|left]|]. intros pr w1 _ _.
  destruct (negb _); [by apply keeps_from_reads|].
  apply keeps_from_bind; [done|by eapply run_command_keeps, runner_keeps; [|right]|]. intros ur w2 _ _.
  destruct (negb _); [by apply keeps_from_reads|]. apply IH. intros s Hs. apply Hl. by right.
Qed.

Lemma pre_check_keeps inspect name l : inspector = Some inspect → keeps R (check_pre_mutation exc_text inspect name l).
Proof.
  intros Hi. induction l as [|svc l IH]; intros w; cbn [check_pre_mutation]; [by apply keeps_from_reads|].
  intros w' r. destruct (inspect name svc w) as [w1 res] eqn:E. apply (inspector_keeps inspect Hi) in E.
  destruct res as [[obs|]|e]; [|intros E'; etrans; [exact E|by eapply IH]|by intros [= <- _]].
  destruct (negb _); [by intros [= <- _]|]. destruct (bool_decide _); [by intros [= <- _]|].
  intros E'. etrans; [exact E|by eapply IH].
Qed.
Lemma verify_keeps inspect name target child tight l : inspector = Some inspect → ∀ verified,
  keeps R (verify_services exc_text inspect name target child tight l verified).
Proof.
  intros Hi. induction l as [|svc l IH]; intros verified w; cbn [verify_services]; [by apply keeps_from_reads|].
  intros w' r. destruct (inspect name svc w) as [w1 res] eqn:E. apply (inspector_keeps inspect Hi) in E.
  destruct (observation_fault _ _ _ _ _) as [[code d]|]; [by intros [= <- _]|].
  intros E'. etrans; [exact E|by eapply IH].
Qed.

Lemma files_keep path l : keeps R (validate_files resolve is_file path l).
Proof.
  induction l as [|f l IH]; intros w; cbn [validate_files]; [by apply keeps_from_reads|].
  apply keeps_from_bind; [done|by apply keeps_from_reads|]. intros _ w1 _ _.
  apply keeps_from_bind; [done|by apply keeps_from_reads|]. intros w2 w3 _ _.
  apply keeps_from_bind; [done|by apply keeps_from_reads|]. intros _ w4 _ _.
  apply keeps_from_bind; [done|apply IH|]. intros fs w5 _ _. by apply keeps_from_reads.
Qed.
Lemma project_files_keep project : keeps R (validate_project_files resolve is_dir is_file project).
Proof.
  intros w. unfold validate_project_files. destruct (cp_path project); [|by apply keeps_from_reads].
  apply keeps_from_bind; [done|by apply keeps_from_reads|]. intros w2 w3 _ _.
  apply keeps_from_bind; [done|by apply keeps_from_reads|]. intros _ w4 _ _.
  destruct (cp_compose_files project) as [[|f fs]|]; [by apply keeps_from_reads| |by apply keeps_from_reads].
  apply keeps_from_bind; [done|apply files_keep|]. intros l w5 _ _. by apply keeps_from_reads.
Qed.

(** The adapter moves its store through docker only by pulling a service of the
    scope or bringing it up without its dependencies. *)
Lemma adapter_keeps intent : bi_service_scope intent = scope → keeps R (adapter_execute intent).
Proof.
  pose proof pre_check_keeps as Hpre. pose proof verify_keeps as Hver. pose proof resolver_keeps as Hres.
  pose proof lease_keeps as Hlease. pose proof mutate_keeps as Hmut. pose proof project_files_keep as Hfiles.
  clear resolver_keeps lease_keeps inspector_keeps runner_keeps.
  intros Hs w. unfold ComposeAdapter.adapter_execute.
  apply keeps_from_bind; [done| |intros lease_ok w1 _ _].
  { destruct lease_validator; [by apply Hlease|by apply keeps_from_reads]. }
  apply keeps_from_bind; [done|by apply keeps_from_reads|]. intros _ w2 _ _.
  apply keeps_from_bind; [done| |intros project w3 _ _].
  { unfold resolve_project. destruct project_resolver as [find|] eqn:Ef; [|by apply keeps_from_reads].
    apply keeps_from_bind; [done|by apply Hres|]. intros [p|] w4 _ _; by apply keeps_from_reads. }
  apply keeps_from_bind; [done|apply Hfiles|]. intros [cwd files] w4 _ _.
  apply keeps_from_bind; [done|by apply keeps_from_reads|]. intros _ w5 _ _.
  apply keeps_from_bind; [done| |intros pre w6 _ _].
  { unfold check_pre_mutation_health. destruct inspector as [inspect|] eqn:Ei; [by apply Hpre|by apply keeps_from_reads]. }
  destruct pre; [by apply keeps_from_reads|].
  apply keeps_from_bind; [done|apply Hmut; by rewrite Hs|]. intros [executed|stopped] w7 _ _; [|by apply keeps_from_reads].
  apply keeps_from_bind; [done| |intros v w8 _ _; by apply keeps_from_reads].
  unfold verify_post_mutation. destruct inspector as [inspect|] eqn:Ei; [|by apply keeps_from_reads].
  apply keeps_from_bind; [done|by apply Hver|]. intros [verified|v] w8 _ _; [|by apply keeps_from_reads].
  destruct (_ && _); by apply keeps_from_reads.
Qed.
End containment.

(** ** Theorems *)

Lemma verify_post_success name scope target child tight w w' v :
  verify_post_mutation inspector exc_text name scope target child tight w = (w', Ok v) →
  verification_is_success v = true →
  ∃ inspect, inspector = Some inspect ∧ vr_verified_services v = scope ∧
             services_verified inspect name target child scope w w'.
Proof.
  unfold verify_post_mutation. destruct inspector as [inspect|]; [|by intros [= <- <-]].
  intros E Hs. apply bindM_Ok in E as (w1 & [verified|v1] & E1 & E).
  - apply verify_services_done in E1 as [-> Hv]. exists inspect.
    destruct (_ && _) in E; injection E as <- <-; [done|]. done.
  - injection E as <- <-. apply verify_services_fault in E1. congruence.
Qed.

(** C31: a service update reported as verified.  Every service of the scope was
    pulled and brought up without its dependencies, in order, each command
    returning 0, and afterwards an inspector saw each of them running, not
    unhealthy and, where a target digest was given and one was observed, at that
    digest or the given child digest; the verified services are the scope and
    the commands reported are exactly those run. *)
Theorem verified_success_means intent w w' r :
  adapter_execute intent w = (w', Ok r) → compose_is_success r = true →
  ∃ inspect cwd files w1 w2,
    inspector = Some inspect ∧
    ce_executed_commands r = scope_commands files (bi_service_scope intent) ∧
    commands_succeed cwd (ce_executed_commands r) w1 w2 ∧
    services_verified inspect (bi_project_name intent) (bi_expected_target_digest intent)
      (bi_expected_child_digest intent) (bi_service_scope intent) w2 w' ∧
    vr_verified_services (ce_verification r) = bi_service_scope intent ∧ ce_mutation_occurred r = true.
Proof.
  intros E Hs. apply adapter_execute_Ok in E as (cwd & files & tight & w1 & [(_ & _ & _ & Hc)|[Hm|(w2 & Hm & Ho & Hv)]]).
  - unfold compose_is_success, verification_is_success in Hs. apply bool_decide_eq_true in Hs.
    destruct Hc; congruence.
  - apply mutate_services_stopped in Hm as [Hn _]; [congruence|]. split; [done|]. intros (s & Hin%not_elem_of_nil). done.
  - apply mutate_services_done in Hm as [He Hc]. apply verify_post_success in Hv as (inspect & Hi & Hvs & Hsv); [|done].
    exists inspect, cwd, files, w1, w2. rewrite He. by split_and!.
Qed.
End adapter_runs.
