(* ===== verification/GitTransaction.v ===== *)
(** * GitTransaction: the git phases of an update (services/update/git_transaction.py)

    [run_transaction] makes a safety stash, fetches and pulls, applies the stash
    and drops it.  The git service is a record of computations on a store [W];
    what the theorems need of git is the class [StashLaws]: a stack of stash
    entries that only [stash push] grows and only [stash drop] shrinks, reported
    as it is or, where the provider degrades, as empty.  The question is what
    becomes of the entries the operator had before. *)

From S2P Require Import Prelude PyStr PyText UpdateModel.
From Stdlib Require Import Ascii String ZArith Lia.
From stdpp Require Import base strings list.

Local Open Scope string_scope.
Local Open Scope Z_scope.
Local Open Scope aipm_scope.

(** The methods of [GitService] the transaction calls, for one project. *)
Record GitOps (W : Type) := {
  go_repository : M W GitRepository;
  go_stash : M W unit;
  go_fetch : M W unit;
  go_pull : M W unit;
  go_apply_stash : M W unit;
  go_conflicted_files : M W (list string);
  go_drop_stash : M W unit;
}.
Arguments go_repository {W} _.
Arguments go_stash {W} _.
Arguments go_fetch {W} _.
Arguments go_pull {W} _.
Arguments go_apply_stash {W} _.
Arguments go_conflicted_files {W} _.
Arguments go_drop_stash {W} _.

(** A transaction returns its result or raises [GitTransactionError] with one. *)
Inductive transaction := Committed (r : GitTransactionResult) | Failed (r : GitTransactionResult).

Definition nothing_stashed : string := "no local changes were stashed; existing stash entries were left untouched".
Definition failed_transaction (stashed preserved : bool) (conflicts warnings errors : list string) : transaction :=
  Failed {| gt_success := false; gt_stashed := stashed; gt_pulled := false; gt_stash_applied := false;
            gt_stash_preserved := preserved; gt_conflicts := conflicts; gt_warnings := warnings;
            gt_errors := errors |}.

Section run.
Context {W : Type} (git : GitOps W) (exc_text : exn → string).

Definition stash_count : M W Z :=
  do r <- go_repository git;;
  retM (Z.of_nat (length (gr_stashes r))).

(** The first phase: whether a stash was made and the warnings, or the failure. *)
Definition safety_stash (stash_required : bool) : M W (bool * list string + transaction) :=
  if negb stash_required then retM (inl (false, []))
  else
    do before <- attempt stash_count;;
    match before with
    | inr e => retM (inr (failed_transaction false false [] [] ["stash inspection failed: " ++ exc_text e]))
    | inl stashes_before =>
        do pushed <- attempt (go_stash git);;
        match pushed with
        | inr e => retM (inr (failed_transaction false false [] [] ["stash failed: " ++ exc_text e]))
        | inl _ =>
            do after <- attempt stash_count;;
            match after with
            | inr e => retM (inr (failed_transaction true true [] [] ["stash verification failed: " ++ exc_text e]))
            | inl stashes_after =>
                let stashed := stashes_before <? stashes_after in
                retM (inl (stashed, if stashed then [] else [nothing_stashed]))
            end
        end
    end.

(** Fetch and pull; an exception of either leaves [pulled] false. *)
Definition synchronize (fetch_required pull_required : bool) : M W unit :=
  do_ (if fetch_required then go_fetch git else retM ());;
  if pull_required then go_pull git else retM ().

(** [GitTransactionRunner.run] *)
Definition run_transaction (stash_required fetch_required pull_required : bool) : M W transaction :=
  do stash <- safety_stash stash_required;;
  match stash with
  | inr failed => retM failed
  | inl (stashed, warnings) =>
      do synced <- attempt (synchronize fetch_required pull_required);;
      match synced with
      | inr e => retM (failed_transaction stashed stashed [] warnings ["fetch/pull failed: " ++ exc_text e])
      | inl _ =>
          let committed applied :=
            Committed {| gt_success := true; gt_stashed := stashed; gt_pulled := pull_required;
                         gt_stash_applied := applied; gt_stash_preserved := false; gt_conflicts := [];
                         gt_warnings := warnings; gt_errors := [] |} in
          if negb stashed then retM (committed false)
          else
            do applied <- attempt (go_apply_stash git);;
            match applied with
            | inr e =>
                do listed <- attempt (go_conflicted_files git);;
                let conflicts := match listed with inl l => l | inr _ => [] end in
                retM (Failed {| gt_success := false; gt_stashed := stashed; gt_pulled := pull_required;
                                gt_stash_applied := false; gt_stash_preserved := true;
                                gt_conflicts := conflicts; gt_warnings := warnings;
                                gt_errors := ["stash apply failed: " ++ exc_text e] |})
            | inl _ =>
                do_ go_drop_stash git;;
                retM (committed true)
            end
      end
  end.
End run.

(** ** What is relied on of git *)

(** A report of the stash list: the entries, or none where [GitProvider] gave an
    empty list or an empty repository for a git command that failed. *)
Definition reported (entries report : list string) : Prop := report = entries ∨ report = [].

Class StashLaws {W} (git : GitOps W) (stashes : W → list string) : Prop := {
  sl_repository : ∀ w w' r, go_repository git w = (w', r) →
    stashes w' = stashes w ∧ match r with Ok g => reported (stashes w) (gr_stashes g) | Raise _ => True end;
  (** a push adds one entry or none, whether or not it exits with an error *)
  sl_stash : ∀ w w' r, go_stash git w = (w', r) → stashes w' = stashes w ∨ ∃ x, stashes w' = x :: stashes w;
  sl_fetch : ∀ w w' r, go_fetch git w = (w', r) → stashes w' = stashes w;
  sl_pull : ∀ w w' r, go_pull git w = (w', r) → stashes w' = stashes w;
  sl_apply : ∀ w w' r, go_apply_stash git w = (w', r) → stashes w' = stashes w;
  sl_conflicted : ∀ w w' r, go_conflicted_files git w = (w', r) → stashes w' = stashes w;
  (** a drop removes the newest entry, or fails and removes none *)
  sl_drop : ∀ w w' r, go_drop_stash git w = (w', r) →
    match r with Ok _ => ∃ x, stashes w = x :: stashes w' | Raise _ => stashes w' = stashes w end;
}.

Lemma attempt_run {W A} (m : M W A) w : ∃ w' r, m w = (w', r) ∧
  attempt m w = (w', Ok (match r with Ok a => inl a | Raise e => inr e end)).
Proof. unfold attempt. destruct (m w) as [w' [a|e]]; eauto. Qed.

Section laws.
Context {W} (git : GitOps W) (exc_text : exn → string) (stashes : W → list string) `{!StashLaws git stashes}.

(** No report of a run is degraded. *)
Definition truthful : Prop := ∀ w w' g, go_repository git w = (w', Ok g) → gr_stashes g = stashes w.
(** The first report of a run was degraded: it hid entries of the operator. *)
Definition hidden (w : W) : Prop :=
  ∃ w' g, go_repository git w = (w', Ok g) ∧ gr_stashes g = [] ∧ stashes w ≠ [].

Lemma stash_count_run w : ∃ w' r, attempt (stash_count git) w = (w', Ok r) ∧ stashes w' = stashes w ∧
  match r with
  | inl n => n = Z.of_nat (length (stashes w)) ∨ n = 0 ∧ hidden w ∧ ¬ truthful
  | inr _ => True
  end.
Proof.
  unfold attempt, stash_count, bindM. destruct (go_repository git w) as [w' [g|e]] eqn:E;
    pose proof E as E'; apply sl_repository in E' as [Hs Hg]; eexists _, _; (split; [done|]); (split; [done|]); [|done].
  destruct Hg as [->| Hg]; [by left|]. destruct (stashes w) as [|x l] eqn:Ew; [left; by rewrite Hg|]. right.
  rewrite Hg. split_and!; [done|exists w', g; by rewrite Ew|]. intros Ht. apply Ht in E. congruence.
Qed.

(** The entries above those the transaction started from: at most its own.  A
    stash is believed to be made, or not, wrongly only after a degraded report. *)
Lemma safety_stash_run required w : ∃ w' out, safety_stash git exc_text required w = (w', Ok out) ∧
  (stashes w' = stashes w ∨ ∃ x, stashes w' = x :: stashes w) ∧
  match out with
  | inl (stashed, _) =>
      if stashed then (∃ x, stashes w' = x :: stashes w) ∨ stashes w' = stashes w ∧ hidden w ∧ ¬ truthful
      else stashes w' = stashes w ∨ ¬ truthful
  | inr (Failed r) => gt_stash_preserved r = gt_stashed r ∧ gt_success r = false ∧ gt_stash_applied r = false
  | inr (Committed _) => False
  end.
Proof.
  unfold safety_stash. destruct required; cbn [negb];
    [|by eexists _, _; split; [done|]; split; [left|left]].
  destruct (stash_count_run w) as (w1 & [before|e] & E1 & H1 & Hb);
    unfold bindM at 1; rewrite E1; [|by eexists _, _; split; [done|]; split; [left|]].
  destruct (attempt_run (go_stash git) w1) as (w2 & r2 & Es & E2). apply sl_stash in Es.
  unfold bindM at 1. rewrite E2. rewrite H1 in Es. destruct r2 as [u|e]; [|by eexists _, _; split; [done|]].
  destruct (stash_count_run w2) as (w3 & [after|e] & E3 & H3 & Ha); unfold bindM at 1; rewrite E3, ?H3;
    [|by eexists _, _; split; [done|]; rewrite H3].
  eexists _, _. split; [done|]. cbn. rewrite H3. split; [done|]. destruct (before <? after) eqn:Elt.
  - destruct Es as [Es|Es]; [|by left]. right. rewrite Es in *. apply Z.ltb_lt in Elt.
    destruct Hb as [->|(-> & ? & ?)]; [|done]. destruct Ha as [->|(-> & _)]; lia.
  - apply Z.ltb_ge in Elt. destruct Es as [Es|(x & Es)]; [by left|]. right. rewrite Es in *.
    destruct Hb as [->|(_ & _ & ?)]; [|done]. destruct Ha as [->|(_ & _ & ?)]; [cbn in Elt; lia|done].
Qed.

Lemma synchronize_stashes f p w w' r : synchronize git f p w = (w', r) → stashes w' = stashes w.
Proof.
  unfold synchronize, bindM. destruct f.
  - destruct (go_fetch git w) as [w1 [u|e]] eqn:E; apply sl_fetch in E.
    + destruct p; [intros H; apply sl_pull in H; congruence|by intros [= <- _]].
    + by intros [= <- _].
  - cbn. destruct p; [apply sl_pull|by intros [= <- _]].
Qed.
End laws.

(** C35: what becomes of the stash entries of the operator.  Whatever the git
    service does, a transaction that fails leaves the entries from before it in
    order, with at most the safety stash on top, and reports that stash as
    preserved; a stash is only dropped after it was applied, and something other
    than [GitTransactionError] escapes only when dropping fails.  A transaction
    that commits keeps the entries too, with one exception: where the first
    report hid the operator's entries and nothing was stashed, the newest of
    them is applied and dropped.  When every report is true, a commit leaves
    exactly the entries of the operator. *)
Theorem operator_stashes_kept {W} (git : GitOps W) exc_text stashes `{!StashLaws git stashes} s f p w :
  let '(w', res) := run_transaction git exc_text s f p w in
  let kept := stashes w' = stashes w ∨ ∃ x, stashes w' = x :: stashes w in
  match res with
  | Ok (Committed r) =>
      gt_success r = true ∧ gt_stash_applied r = gt_stashed r ∧ gt_pulled r = p ∧ (s = false → stashes w' = stashes w) ∧
      (kept ∨ (∃ y, stashes w = y :: stashes w') ∧ hidden git stashes w ∧ gt_stash_applied r = true) ∧
      (truthful git stashes → stashes w' = stashes w)
  | Ok (Failed r) => kept ∧ gt_success r = false ∧ gt_stash_applied r = false ∧ gt_stash_preserved r = gt_stashed r ∧
                     (s = false → stashes w' = stashes w)
  | Raise e => s = true ∧ kept ∧ (truthful git stashes → ∃ x, stashes w' = x :: stashes w) ∧
               ∃ w1, go_drop_stash git w1 = (w', Raise e)
  end.
Proof.
  unfold run_transaction.
  destruct (safety_stash_run git exc_text stashes s w) as (w1 & out & E1 & Hs & Hout). unfold bindM at 1. rewrite E1.
  assert (s = false → stashes w1 = stashes w ∧ out = inl (false, [])) as Hno by (intros ->; by injection E1 as <- <-).
  destruct out as [[stashed warnings]|[r|r]]; [|done|by split_and!; naive_solver].
  destruct (attempt_run (synchronize git f p) w1) as (w2 & r2 & Ey & E2).
  apply (synchronize_stashes git stashes) in Ey. unfold bindM at 1. rewrite E2. rewrite <- Ey in Hs, Hno, Hout.
  destruct r2 as [u|e]; [|cbn; split_and!; try done; naive_solver].
  destruct stashed; cbn [negb]; [|cbn; split_and!; try done; [naive_solver|by left|destruct Hout; naive_solver]].
  assert (s = true) as -> by (destruct s; [done|]; by destruct (Hno eq_refl)).
  destruct (attempt_run (go_apply_stash git) w2) as (w3 & r3 & Ea & E3). apply sl_apply in Ea.
  unfold bindM at 1. rewrite E3. rewrite <- Ea in Hs, Hout. destruct r3 as [u3|e].
  - unfold bindM at 1. destruct (go_drop_stash git w3) as [w4 [u4|e]] eqn:Ed; pose proof Ed as Hd; apply sl_drop in Hd.
    + destruct Hd as (y & Hy). cbn. split_and!; [done..| |].
      * destruct Hout as [(x & Hx)|(Hx & Hh & _)]; rewrite Hy in Hx.
        -- injection Hx as _ ->. by left; left.
        -- right. split_and!; [by exists y|done|done].
      * intros Ht. destruct Hout as [(x & Hx)|(_ & _ & ?)]; [|done]. rewrite Hy in Hx. by injection Hx as _ ->.
    + rewrite Hd. split_and!; [done|done| |by exists w3]. intros Ht. by destruct Hout as [|(_ & _ & ?)].
  - destruct (attempt_run (go_conflicted_files git) w3) as (w4 & r4 & Ec & E4). apply sl_conflicted in Ec.
    unfold bindM at 1. rewrite E4. cbn. rewrite Ec. by split_and!.
Qed.
