(* ===== verification/UpdatePlanner.v ===== *)
(** * UpdatePlanner: planning a project update (services/update/planner.py)

    [plan_update] looks at health, git and the runtime of a project and says
    what an update would do, whether it may proceed and at which risk.  What it
    looks at (the project service, the health engine, git, the files, systemd) is
    a record of computations on a store [W].  [plan_consistent] relates the
    fields of the plans it makes, [plan_observes] says that planning changes
    nothing when looking does not. *)

From S2P Require Import Prelude PyStr PyText Models UpdateModel.
From Stdlib Require Import Ascii String ZArith Lia.
From stdpp Require Import base strings pretty list.

Local Open Scope string_scope.
Local Open Scope Z_scope.
Local Open Scope aipm_scope.

(** What reading a declared Compose file found: the text of the error, no
    mapping, or the names of its services. *)
Inductive compose_document := Unreadable (text : string) | NotADocument | Document (services : list string).

Record PlannerOps (W : Type) := {
  po_get_project : string → M W Project;
  po_analyze : Project → M W HealthReport;
  po_prepare_update : Project → M W GitUpdatePlan;
  po_repository : Project → M W GitRepository;
  po_is_file : string → M W bool;
  po_read_compose : string → M W compose_document;
  (** valid, the error, the active state of the observation *)
  po_validate_trust : string → string → M W (bool * string * option string);
  (** the configured probe, [type:url] *)
  po_probe : string → option string;
}.
Arguments po_get_project {W} _.
Arguments po_analyze {W} _.
Arguments po_prepare_update {W} _.
Arguments po_repository {W} _.
Arguments po_is_file {W} _.
Arguments po_read_compose {W} _.
Arguments po_validate_trust {W} _.
Arguments po_probe {W} _.

Definition risk_order (r : UpdateRisk) : Z :=
  match r with RISK_LOW => 0 | RISK_MEDIUM => 1 | RISK_HIGH => 2 | RISK_BLOCKED => 3 end.
Definition max_risk (current candidate : UpdateRisk) : UpdateRisk :=
  if risk_order current <? risk_order candidate then candidate else current.

Definition start_services (p : Project) : string := pj_path p ++ "/start_services.py".
Definition no_runtime_reason : string := "Project has neither start_services.py nor a Compose configuration.".

Section planner.
Context {W : Type} (ops : PlannerOps W).

(** The loop of [_analyze_systemd_runtime]: reasons and whether all are valid. *)
Fixpoint check_units (path : string) (units : list string) : M W (list string * bool) :=
  match units with
  | [] => retM ([], true)
  | unit :: units' =>
      do trust <- po_validate_trust ops unit path;;
      do rest <- check_units path units';;
      let '(valid, error, active) := trust in
      let '(reasons, all_valid) := rest in
      if negb valid then
        retM (("Systemd unit validation failed for " ++ unit ++ ": " ++ error) :: reasons, false)
      else match active with
           | Some state =>
               if mem state ["active"; "activating"; "reloading"] then retM (reasons, all_valid)
               else retM (("Systemd unit " ++ unit ++ " is not active (ActiveState=" ++ state ++
                           "); try-restart requires an active unit.") :: reasons, false)
           | None => retM (reasons, all_valid)
           end
  end.
Definition declared_units (p : Project) : list string :=
  match pc_systemd_units (pj_capabilities p) with [] => pj_systemd_units p | units => units end.
Definition analyze_systemd_runtime (p : Project) : M W (list string * list string * bool) :=
  match declared_units p with
  | [] => retM ([], ["Project is configured for systemd runtime but declares no systemd units."], false)
  | units =>
      do checked <- check_units (pj_path p) units;;
      let '(reasons, all_valid) := checked in
      if all_valid then
        retM (["Restart and verify systemd service(s) (" ++ join_with ", " (sorted_list units) ++ ")"], reasons, true)
      else retM ([], reasons, false)
  end.

(** The loop of [_analyze_compose_runtime]: reasons, services, readable files. *)
Fixpoint read_compose_files (files : list string) : M W (list string * list string * Z) :=
  match files with
  | [] => retM ([], [], 0)
  | f :: files' =>
      do present <- po_is_file ops f;;
      do found <- (if present then do d <- po_read_compose ops f;; retM (Some d) else retM None);;
      do rest <- read_compose_files files';;
      let '(reasons, services, parseable) := rest in
      retM match found with
           | None => (("Declared Compose file is missing: " ++ f) :: reasons, services, parseable)
           | Some (Unreadable text) =>
               (("Declared Compose file is not readable YAML: " ++ f ++ ": " ++ text) :: reasons, services, parseable)
           | Some NotADocument =>
               (("Declared Compose file is not a Compose document: " ++ f) :: reasons, services, parseable)
           | Some (Document names) => (reasons, (names ++ services)%list, parseable + 1)
           end
  end.
Definition not_covered_reason : string :=
  "No declared Compose file could be analyzed; the Compose runtime action is not covered.".
Definition analyze_compose_runtime (files : list string) : M W (list string * list string) :=
  do read <- read_compose_files files;;
  let '(reasons, services, parseable) := read in
  if parseable =? 0 then
    retM (["No Compose runtime action is available"], (reasons ++ [not_covered_reason])%list)
  else match services with
       | [] => retM (["Rebuild and start the project Compose services (no services declared)"],
                     (reasons ++ ["Declared Compose files define no services; nothing will be rebuilt."])%list)
       | _ => retM (["Rebuild and start the project Compose services (" ++
                     join_with ", " (sorted_list (deduplicate services)) ++ ")"], reasons)
       end.

(** *** The parts of a plan *)

Definition health_part (h : HealthReport) : UpdateRisk * list string :=
  if negb (hr_critical h =? 0) then
    (RISK_HIGH, ["Health-before report contains " ++ pretty (hr_critical h) ++ " critical finding(s)."])
  else if negb (hr_high h =? 0) then
    (max_risk RISK_LOW RISK_MEDIUM,
     ["Health-before report contains " ++ pretty (hr_high h) ++ " high-severity finding(s)."])
  else (RISK_LOW, []).

Record git_part := {
  gpt_snapshot : option GitRepository;
  gpt_stash : bool;
  gpt_pull : bool;
  gpt_reasons : list string;
  gpt_actions : list string;
  gpt_blocked : bool;
}.
Definition plan_git (p : Project) : M W git_part :=
  if pc_has_git (pj_capabilities p) then
    do g <- po_prepare_update ops p;;
    do snapshot <- po_repository ops p;;
    let blocked := gp_review_required g || negb (gp_proceed g) in
    retM {| gpt_snapshot := Some snapshot; gpt_stash := gp_stash_required g; gpt_pull := gp_pull_required g;
            gpt_reasons := (gp_reasons g ++
              if blocked then ["Git state requires manual review before an update can proceed."] else [])%list;
            gpt_actions := ((if gp_fetch_required g then ["Fetch the configured Git remote"] else []) ++
              (if gp_stash_required g then ["Create a named safety stash for non-critical local changes"] else []) ++
              (if gp_pull_required g then ["Pull the remote tracking branch"] else []))%list;
            gpt_blocked := blocked |}
  else retM {| gpt_snapshot := pj_git p; gpt_stash := false; gpt_pull := false; gpt_reasons := [];
               gpt_actions := []; gpt_blocked := false |}.

Record runtime_part := {
  rt_mode : string;
  rt_units : list string;
  rt_action : option string;
  rt_probe : option string;
  rt_reasons : list string;
  rt_actions : list string;
  rt_blocked : bool;
}.
Definition plain_runtime (mode : string) (reasons actions : list string) (blocked : bool) : runtime_part :=
  {| rt_mode := mode; rt_units := []; rt_action := None; rt_probe := None; rt_reasons := reasons;
     rt_actions := actions; rt_blocked := blocked |}.
Definition has_systemd_units (p : Project) : bool :=
  pc_has_systemd (pj_capabilities p) && negb (bool_decide (pc_systemd_units (pj_capabilities p) = [])).

Definition plan_runtime (p : Project) (custom : bool) : M W runtime_part :=
  if custom then
    retM (plain_runtime "custom" [] ["Run the project start_services.py orchestration script"] false)
  else if pc_has_compose (pj_capabilities p) then
    match pj_compose_files p with
    | [] => retM (plain_runtime "compose"
              ["Project is marked as Compose-capable but declares no Compose files; the runtime action cannot be planned."]
              [] true)
    | files =>
        do analysed <- analyze_compose_runtime files;;
        let '(actions, reasons) := analysed in
        let uncovered := List.existsb (str_in "not covered") reasons in
        retM (plain_runtime "compose"
                (reasons ++ if uncovered
                            then ["Compose runtime action could not be analyzed; manual review is required."] else [])
                actions uncovered)
    end
  else if has_systemd_units p then
    do analysed <- analyze_systemd_runtime p;;
    let '(actions, reasons, ok) := analysed in
    retM {| rt_mode := "systemd"; rt_units := sorted_list (pc_systemd_units (pj_capabilities p));
            rt_action := Some "try-restart"; rt_probe := if ok then po_probe ops (pj_name p) else None;
            rt_reasons := reasons; rt_actions := actions; rt_blocked := negb ok |}
  else retM (plain_runtime "custom" [no_runtime_reason] [] true).

(** [UpdatePlanner.plan] *)
Definition plan_update (project_name : string) (dry_run : bool) : M W UpdatePlan :=
  do p <- po_get_project ops project_name;;
  do health <- po_analyze ops p;;
  let '(risk0, health_reasons) := health_part health in
  do g <- plan_git p;;
  let risk1 := if gpt_blocked g then RISK_BLOCKED else risk0 in
  do custom <- po_is_file ops (start_services p);;
  do r <- plan_runtime p custom;;
  let risk2 := if rt_blocked r then RISK_BLOCKED else risk1 in
  let proceed := negb (gpt_blocked g) && negb (rt_blocked r) in
  do still_custom <- (if pc_has_compose (pj_capabilities p) then retM true else po_is_file ops (start_services p));;
  let has_runtime := still_custom || has_systemd_units p in
  retM {| up_project := pj_name p; up_project_path := pj_path p; up_dry_run := dry_run; up_proceed := proceed;
          up_approval_required := proceed && negb dry_run;
          up_risk := if has_runtime then max_risk risk2 RISK_MEDIUM else risk2;
          up_reasons := deduplicate (health_reasons ++ gpt_reasons g ++ rt_reasons r);
          up_actions := deduplicate (["Create a configuration safety snapshot"] ++ gpt_actions g ++ rt_actions r ++
            [if has_runtime then "Verify health after the update" else "No runtime action is available"]);
          up_snapshot_required := true; up_estimated_restart := has_runtime; up_stash_required := gpt_stash g;
          up_pull_required := gpt_pull g; up_git := gpt_snapshot g; up_health_before := Some health;
          up_runtime_mode := rt_mode r; up_systemd_units := rt_units r; up_systemd_action := rt_action r;
          up_health_probe_contract := rt_probe r |}.
End planner.

(** ** What planning promises *)

(** Looking at the host does not change it. *)
Class PlannerReads {W} (ops : PlannerOps W) : Prop := {
  pr_get_project : ∀ n, reads (po_get_project ops n);
  pr_analyze : ∀ p, reads (po_analyze ops p);
  pr_prepare_update : ∀ p, reads (po_prepare_update ops p);
  pr_repository : ∀ p, reads (po_repository ops p);
  pr_is_file : ∀ f, reads (po_is_file ops f);
  pr_read_compose : ∀ f, reads (po_read_compose ops f);
  pr_validate_trust : ∀ u p, reads (po_validate_trust ops u p);
}.
#[export] Hint Resolve pr_get_project pr_analyze pr_prepare_update pr_repository pr_is_file pr_read_compose
  pr_validate_trust : atomicity.

Lemma reads_bindM {W A B} (m : M W A) (k : A → M W B) w w' b : reads m → bindM m k w = (w', Ok b) →
  ∃ a, m w = (w, Ok a) ∧ k a w = (w', Ok b).
Proof.
  intros Hm E. apply bindM_Ok in E as (w1 & a & E1 & E2). pose proof (reads_Ok _ _ _ _ Hm E1) as ->. by exists a.
Qed.

Section consistent.
Context {W} (ops : PlannerOps W) `{!PlannerReads ops}.

Lemma check_units_reads path units : reads (check_units ops path units).
Proof.
  induction units as [|u units IH]; [apply reads_ret|]. apply reads_bind; [apply pr_validate_trust|].
  intros [[valid error] active]. apply reads_bind; [done|]. intros [reasons all]. repeat case_match; apply reads_ret.
Qed.
Lemma read_compose_files_reads files : reads (read_compose_files ops files).
Proof.
  induction files as [|f files IH]; [apply reads_ret|]. apply reads_bind; [apply pr_is_file|]. intros present.
  apply reads_bind; [destruct present; [apply reads_bind; [apply pr_read_compose|intros; apply reads_ret]|apply reads_ret]|].
  intros found. apply reads_bind; [done|]. intros [[reasons services] n]. apply reads_ret.
Qed.

(** A unit systemd trusts and that is up. *)
Definition unit_ready (path : string) (w : W) (unit : string) : Prop :=
  ∃ error active, po_validate_trust ops unit path w = (w, Ok (true, error, active)) ∧
    match active with Some state => state ∈ ["active"; "activating"; "reloading"] | None => True end.
Lemma check_units_ready path units w w' reasons :
  check_units ops path units w = (w', Ok (reasons, true)) → ∀ u, u ∈ units → unit_ready path w u.
Proof.
  revert w' reasons. induction units as [|u units IH]; intros w' reasons E v Hv; [by apply not_elem_of_nil in Hv|].
  apply reads_bindM in E as ([[valid error] active] & E1 & E); [|apply pr_validate_trust].
  apply reads_bindM in E as ([rs all] & E2 & E); [|apply check_units_reads].
  destruct valid; cbn in E; [|done].
  assert (all = true ∧ unit_ready path w u) as [-> Hu].
  { destruct active as [state|]; [|by injection E as _ _ ->; split; [|by exists error, None]].
    destruct (mem state _) eqn:Em; [|done]. injection E as _ _ ->. split; [done|]. exists error, (Some state).
    split; [done|]. by apply bool_decide_eq_true in Em. }
  apply elem_of_cons in Hv as [->|Hv]; [done|]. by eapply IH.
Qed.

(** A Compose file that could be read as a document. *)
Definition file_readable (w : W) (f : string) : Prop :=
  po_is_file ops f w = (w, Ok true) ∧ ∃ names, po_read_compose ops f w = (w, Ok (Document names)).
Lemma read_compose_some files w w' reasons services n :
  read_compose_files ops files w = (w', Ok (reasons, services, n)) →
  0 ≤ n ∧ (n ≠ 0 → ∃ f, f ∈ files ∧ file_readable w f).
Proof.
  revert w' reasons services n. induction files as [|f files IH]; intros w' reasons services n E.
  - injection E as _ _ _ <-. done.
  - apply reads_bindM in E as (present & E1 & E); [|apply pr_is_file].
    apply reads_bindM in E as (found & E2 & E).
    2: { destruct present; [apply reads_bind; [apply pr_read_compose|intros; apply reads_ret]|apply reads_ret]. }
    apply reads_bindM in E as ([[rs ss] m] & E3 & E); [|apply read_compose_files_reads].
    apply IH in E3 as [Hm Hex]. 
    assert (Hrest : m ≠ 0 → ∃ g, g ∈ f :: files ∧ file_readable w g).
    { intros Hne. destruct (Hex Hne) as (g & Hg & Hr). exists g. split; [by right|done]. }
    destruct found as [[text| |names]|]; try (injection E as _ _ _ <-; by split).
    injection E as _ _ _ <-. split; [lia|]. intros _. exists f. split; [by left|]. split.
    + destruct present; [done|]. by injection E2.
    + destruct present; [|by injection E2]. apply reads_bindM in E2 as (d & E2 & E4); [|apply pr_read_compose].
      injection E4 as ->. by exists names.
Qed.

(** A runtime action is available for the project. *)
Definition runtime_covered (p : Project) (w : W) : Prop :=
  po_is_file ops (start_services p) w = (w, Ok true) ∨
  (pc_has_compose (pj_capabilities p) = true ∧ ∃ f, f ∈ pj_compose_files p ∧ file_readable w f) ∨
  (has_systemd_units p = true ∧ ∀ u, u ∈ pc_systemd_units (pj_capabilities p) → unit_ready (pj_path p) w u).

Lemma analyze_compose_reads files : reads (analyze_compose_runtime ops files).
Proof.
  apply reads_bind; [apply read_compose_files_reads|]. intros [[rs ss] n]. repeat case_match; apply reads_ret.
Qed.
Lemma analyze_systemd_reads p : reads (analyze_systemd_runtime ops p).
Proof.
  unfold analyze_systemd_runtime. destruct (declared_units p); [apply reads_ret|].
  apply reads_bind; [apply check_units_reads|]. intros [rs all]. destruct all; apply reads_ret.
Qed.
Lemma plan_git_reads p : reads (plan_git ops p).
Proof.
  unfold plan_git. destruct (pc_has_git _); [|apply reads_ret]. apply reads_bind; [apply pr_prepare_update|].
  intros g. apply reads_bind; [apply pr_repository|]. intros; apply reads_ret.
Qed.
Lemma plan_runtime_reads p custom : reads (plan_runtime ops p custom).
Proof.
  unfold plan_runtime. destruct custom; [apply reads_ret|]. destruct (pc_has_compose _).
  - destruct (pj_compose_files p); [apply reads_ret|]. apply reads_bind; [apply analyze_compose_reads|].
    intros [a r]. apply reads_ret.
  - destruct (has_systemd_units p); [|apply reads_ret]. apply reads_bind; [apply analyze_systemd_reads|].
    intros [[a r] ok]. apply reads_ret.
Qed.

Lemma plan_runtime_covered p custom w w' r :
  po_is_file ops (start_services p) w = (w, Ok custom) →
  plan_runtime ops p custom w = (w', Ok r) → rt_blocked r = false →
  runtime_covered p w ∧ (custom || pc_has_compose (pj_capabilities p) || has_systemd_units p = true).
Proof.
  intros Hc E Hb. unfold plan_runtime in E. destruct custom; [split; [by left|done]|].
  destruct (pc_has_compose _) eqn:Ecompose.
  - split; [|done]. right. left. split; [done|]. destruct (pj_compose_files p) as [|f0 files] eqn:Ef; [by injection E as _ <-|].
    apply reads_bindM in E as ([actions reasons] & E1 & E); [|apply analyze_compose_reads].
    injection E as _ <-. cbn [rt_blocked plain_runtime] in Hb.
    apply reads_bindM in E1 as ([[rs ss] n] & E2 & E1); [|apply read_compose_files_reads].
    apply read_compose_some in E2 as [Hn Hex].
    destruct (Z.eqb_spec n 0) as [->|Hne]; [|by apply Hex].
    injection E1 as _ <-. rewrite existsb_app in Hb. cbn in Hb. by rewrite orb_true_r in Hb.
  - destruct (has_systemd_units p) eqn:Es; [|by injection E as _ <-]. split; [|done]. right. right. split; [done|].
    apply reads_bindM in E as ([[actions reasons] ok] & E1 & E); [|apply analyze_systemd_reads].
    injection E as _ <-. cbn [rt_blocked] in Hb. apply negb_false_iff in Hb as ->.
    unfold has_systemd_units in Es. apply andb_true_iff in Es as [_ Hne]. apply negb_true_iff, bool_decide_eq_false in Hne.
    unfold analyze_systemd_runtime, declared_units in E1.
    destruct (pc_systemd_units (pj_capabilities p)) as [|u units]; [done|].
    apply reads_bindM in E1 as ([rs all] & E2 & E1); [|apply check_units_reads].
    destruct all; [|done]. by eapply check_units_ready.
Qed.

Lemma plan_update_reads name dry : reads (plan_update ops name dry).
Proof.
  apply reads_bind; [apply pr_get_project|]. intros p. apply reads_bind; [apply pr_analyze|]. intros h.
  destruct (health_part h). apply reads_bind; [by apply plan_git_reads|]. intros g.
  apply reads_bind; [apply pr_is_file|]. intros custom. apply reads_bind; [by apply plan_runtime_reads|]. intros r.
  apply reads_bind; [|intros; apply reads_ret]. destruct (pc_has_compose _); [apply reads_ret|apply pr_is_file].
Qed.

Lemma max_risk_blocked r : max_risk r RISK_MEDIUM = RISK_BLOCKED ↔ r = RISK_BLOCKED.
Proof. by destruct r. Qed.
End consistent.

(** C34: the plans the planner makes are consistent, and making one changes
    nothing.  A plan is blocked exactly when it does not proceed, asks for
    approval exactly when it proceeds and is no dry run, repeats no reason and no
    action and begins with the safety snapshot.  It proceeds only when git neither
    refuses nor asks for a review and a runtime action is available: the start
    script, a Compose file that could be read, or systemd units that are all
    trusted and up; and then it announces a restart. *)
Theorem plan_consistent {W} (ops : PlannerOps W) `{!PlannerReads ops} name dry w w' up :
  plan_update ops name dry w = (w', Ok up) →
  ∃ p, po_get_project ops name w = (w, Ok p) ∧ w' = w ∧ up_project up = pj_name p ∧ up_dry_run up = dry ∧
    (up_risk up = RISK_BLOCKED ↔ up_proceed up = false) ∧
    up_approval_required up = up_proceed up && negb dry ∧
    NoDup (up_reasons up) ∧ NoDup (up_actions up) ∧
    head (up_actions up) = Some "Create a configuration safety snapshot" ∧
    (up_proceed up = true →
       (pc_has_git (pj_capabilities p) = true → ∃ g, po_prepare_update ops p w = (w, Ok g) ∧
          gp_proceed g = true ∧ gp_review_required g = false ∧
          up_stash_required up = gp_stash_required g ∧ up_pull_required up = gp_pull_required g) ∧
       runtime_covered ops p w ∧ up_estimated_restart up = true).
Proof.
  unfold plan_update. intros E.
  apply reads_bindM in E as (p & Ep & E); [|apply pr_get_project]. exists p. split; [done|].
  apply reads_bindM in E as (health & _ & E); [|apply pr_analyze].
  destruct (health_part health) as [risk0 hr] eqn:Eh.
  apply reads_bindM in E as (g & Eg & E); [|by apply plan_git_reads].
  apply reads_bindM in E as (custom & Ec & E); [|apply pr_is_file].
  apply reads_bindM in E as (r & Er & E); [|by apply plan_runtime_reads].
  apply reads_bindM in E as (still & Es & E).
  2: { destruct (pc_has_compose _); [apply reads_ret|apply pr_is_file]. }
  injection E as <- <-.
  cbn [up_project up_dry_run up_proceed up_approval_required up_risk up_reasons up_actions up_estimated_restart
       up_stash_required up_pull_required].
  assert (risk0 ≠ RISK_BLOCKED) as Hr0.
  { unfold health_part in Eh. destruct (negb _) in Eh; [by injection Eh as <- _|].
    destruct (negb _) in Eh; by injection Eh as <- _. }
  set (risk2 := if rt_blocked r then RISK_BLOCKED else if gpt_blocked g then RISK_BLOCKED else risk0).
  assert (risk2 = RISK_BLOCKED ↔ negb (gpt_blocked g) && negb (rt_blocked r) = false) as Hrisk.
  { unfold risk2. destruct (gpt_blocked g), (rt_blocked r); cbn; by split. }
  split_and!; try done.
  - destruct (_ || _); [by rewrite max_risk_blocked|done].
  - apply deduplicate_spec.
  - apply deduplicate_spec.
  - intros [Hg Hb]%andb_true_iff. apply negb_true_iff in Hg, Hb. split_and!.
    + intros Hgit. unfold plan_git in Eg. rewrite Hgit in Eg.
      apply reads_bindM in Eg as (gp & Eg1 & Eg); [|apply pr_prepare_update].
      apply reads_bindM in Eg as (snap & _ & Eg); [|apply pr_repository].
      injection Eg as <-. cbn in Hg |- *. apply orb_false_iff in Hg as [Hrev Hpr]. exists gp.
      by split_and!; [|apply negb_false_iff| | |].
    + by eapply plan_runtime_covered.
    + pose proof (plan_runtime_covered ops p custom w w r Ec Er Hb) as [_ Hcov].
      destruct (pc_has_compose _); [injection Es as <-; done|]. rewrite Ec in Es. injection Es as <-.
      by rewrite orb_false_r in Hcov.
Qed.
