(* ===== verification/UpdateEngine.v ===== *)
(** * UpdateEngine: executing an update plan (services/update/engine.py, execution_contract.py)

    [execute_update] plans or checks the plan it is given, binds it to an
    execution contract, and then takes a snapshot, runs the git transaction and
    the runtime, verifies health and writes an audit record; a failure on the way
    restores the snapshot.  Its collaborators are computations on a store [W].
    The local variables the exception handler reads are the record [progress],
    threaded beside the store. *)

From S2P Require Import Prelude PyStr PyText PyTime Models UpdateModel Health UpdateIdentity.
From S2P Require Import ComposeAdapter GitTransaction.
From Stdlib Require Import Ascii String ZArith Lia.
From stdpp Require Import base strings list.

Local Open Scope string_scope.
Local Open Scope Z_scope.
Local Open Scope aipm_scope.

(** ** Execution contracts *)

Record ExecutionContract := {
  ec_project_name : string;
  ec_plan_digest : string;
  ec_confirmation_id : string;
}.
#[export] Instance ExecutionContract_eq_dec : EqDecision ExecutionContract.
Proof. solve_decision. Defined.

Definition contract_project_char (c : ascii) : bool := negb (is_control c) && negb (one_of "/\" c).
(** [ExecutionContract.__post_init__] *)
Definition new_ExecutionContract (c : ExecutionContract) : result ExecutionContract :=
  require str_all contract_project_char (ec_project_name c) && (1 <=? slen (ec_project_name c)) &&
          (slen (ec_project_name c) <=? 128) else_raise ValueError;;
  require HEX 64 (ec_plan_digest c) else_raise ValueError;;
  require HEX 32 (ec_confirmation_id c) else_raise ValueError;;
  Ok c.

(** ** Collaborators *)

Record EngineOps (W : Type) := {
  eo_now : M W datetime;
  eo_plan : string → bool → M W UpdatePlan;
  eo_get_project : string → M W Project;
  eo_create_snapshot : Project → M W string;
  (** stash, fetch and pull required *)
  eo_git_transaction : Project → bool → bool → bool → M W transaction;
  eo_is_file : string → M W bool;
  eo_runner : list string → string → M W CompletedProcess;
  eo_compose_up : Project → M W unit;
  eo_analyze : Project → M W HealthReport;
  eo_write_audit : UpdateAudit → M W string;
  eo_restore : string → Project → M W RestoreResult;
  eo_python : string;
}.
Arguments eo_now {W} _.
Arguments eo_plan {W} _.
Arguments eo_get_project {W} _.
Arguments eo_create_snapshot {W} _.
Arguments eo_git_transaction {W} _.
Arguments eo_is_file {W} _.
Arguments eo_runner {W} _.
Arguments eo_compose_up {W} _.
Arguments eo_analyze {W} _.
Arguments eo_write_audit {W} _.
Arguments eo_restore {W} _.
Arguments eo_python {W} _.

(** The local variables of [execute_update] that its handler reads. *)
Record progress := {
  pg_snapshot_path : option string;
  pg_git : option GitTransactionResult;
  pg_health_after : option HealthReport;
  pg_verification : option UpdateVerification;
}.
Definition no_progress : progress :=
  {| pg_snapshot_path := None; pg_git := None; pg_health_after := None; pg_verification := None |}.

Definition set_snapshot (path : string) (p : progress) : progress :=
  {| pg_snapshot_path := Some path; pg_git := pg_git p; pg_health_after := pg_health_after p;
     pg_verification := pg_verification p |}.
Definition set_git (g : GitTransactionResult) (p : progress) : progress :=
  {| pg_snapshot_path := pg_snapshot_path p; pg_git := Some g; pg_health_after := pg_health_after p;
     pg_verification := pg_verification p |}.
Definition set_health (h : HealthReport) (p : progress) : progress :=
  {| pg_snapshot_path := pg_snapshot_path p; pg_git := pg_git p; pg_health_after := Some h;
     pg_verification := pg_verification p |}.
Definition set_verification (v : UpdateVerification) (p : progress) : progress :=
  {| pg_snapshot_path := pg_snapshot_path p; pg_git := pg_git p; pg_health_after := pg_health_after p;
     pg_verification := Some v |}.

(** A step of the store beside the locals, and a change of the locals. *)
Definition on_host {W L A} (m : M W A) : M (W * L) A := λ s, let '(w', r) := m (fst s) in ((w', snd s), r).
Definition on_locals {W L} (f : L → L) : M (W * L) unit := modifyM (λ s, (fst s, f (snd s))).

Section engine.
Context {W : Type} (ops : EngineOps W) (exc_text : exn → string).

(** [UpdateEngine.run_command] *)
Definition engine_run_command (command : list string) (cwd : string) : M W string :=
  do result <- catchM (eo_runner ops command cwd)
                 (λ e, if is_os_error e then Some (raiseM UpdateError) else None);;
  assert_ pr_returncode result =? 0 else_raise UpdateError;;
  retM (strip (pr_stdout result)).

Definition validate_reused_plan (plan : UpdatePlan) (project_name : string) (dry_run : bool) : result unit :=
  require str_eqb (up_project plan) project_name else_raise UpdateError;;
  require Bool.eqb (up_dry_run plan) dry_run else_raise UpdateError;;
  Ok ().

Definition validate_execution_contract (contract : ExecutionContract) (plan : UpdatePlan) : result unit :=
  require str_nonempty (ec_project_name contract) && str_eqb (ec_project_name contract) (up_project plan)
    else_raise UpdateError;;
  let* expected_digest := update_plan_digest plan in
  require str_nonempty (ec_plan_digest contract) else_raise UpdateError;;
  require str_eqb (ec_plan_digest contract) expected_digest else_raise UpdateError;;
  Ok ().

Definition execute_runtime (project : Project) : M W unit :=
  let custom_runner := pj_path project ++ "/start_services.py" in
  do custom <- eo_is_file ops custom_runner;;
  if custom then do_ engine_run_command [eo_python ops; custom_runner] (pj_path project);; retM ()
  else if pc_has_compose (pj_capabilities project) then eo_compose_up ops project
  else raiseM UpdateError.

(** [_audit] *)
Definition audit_of (plan : UpdatePlan) (started_at : datetime) (mode outcome : string) (p : progress)
    (error : option string) (restore : option RestoreResult) : M W UpdateAudit :=
  do finished_at <- eo_now ops;;
  retM {| ua_project := up_project plan; ua_started_at := started_at; ua_finished_at := finished_at;
          ua_mode := mode; ua_outcome := outcome; ua_risk := up_risk plan; ua_plan := plan;
          ua_snapshot_path := pg_snapshot_path p; ua_health_after := pg_health_after p; ua_error := error;
          ua_restore := restore; ua_verification := pg_verification p; ua_git_transaction := pg_git p;
          ua_audit_path := None |}.
Definition attach_audit_path (a : UpdateAudit) (path : string) : UpdateAudit :=
  {| ua_project := ua_project a; ua_started_at := ua_started_at a; ua_finished_at := ua_finished_at a;
     ua_mode := ua_mode a; ua_outcome := ua_outcome a; ua_risk := ua_risk a; ua_plan := ua_plan a;
     ua_snapshot_path := ua_snapshot_path a; ua_health_after := ua_health_after a; ua_error := ua_error a;
     ua_restore := ua_restore a; ua_verification := ua_verification a; ua_git_transaction := ua_git_transaction a;
     ua_audit_path := Some path |}.
Definition write_audit (plan : UpdatePlan) (started_at : datetime) (mode outcome : string) (p : progress)
    (error : option string) (restore : option RestoreResult) : M W UpdateAudit :=
  do audit <- audit_of plan started_at mode outcome p error restore;;
  do path <- eo_write_audit ops audit;;
  retM (attach_audit_path audit path).

(** The [try] block. *)
Definition update_body (plan : UpdatePlan) (project : Project) (started_at : datetime) : M (W * progress) UpdateAudit :=
  do archive <- on_host (eo_create_snapshot ops project);;
  do_ on_locals (set_snapshot archive);;
  let fetch_required := match up_git plan with
                        | Some g => gr_exists g && truthy (gr_remote_url g)
                        | None => false
                        end in
  do t <- on_host (eo_git_transaction ops project (up_stash_required plan) fetch_required (up_pull_required plan));;
  (* the handler takes the result out of the exception *)
  do_ match t with
      | Committed r => on_locals (set_git r)
      | Failed r => do_ on_locals (set_git r);; raiseM GitTransactionError
      end;;
  do_ on_host (execute_runtime project);;
  do refreshed <- on_host (eo_get_project ops (pj_name project));;
  do health <- on_host (eo_analyze ops refreshed);;
  do_ on_locals (set_health health);;
  let verification := verify_update (up_health_before plan) (Some health) in
  do_ on_locals (set_verification verification);;
  assert_ negb (rollback_required verification) else_raise UpdateError;;
  do s <- getM;;
  on_host (write_audit plan started_at "execute" "success" (snd s) None None).

(** The [except Exception] block. *)
Definition update_failed (plan : UpdatePlan) (project : Project) (started_at : datetime) (p : progress) (e : exn)
  : M W UpdateAudit :=
  do restore <- match pg_snapshot_path p with
                | None => retM None
                | Some path => do r <- eo_restore ops path project;; retM (Some r)
                end;;
  do_ write_audit plan started_at "execute" "failed" p (Some (exc_text e)) restore;;
  raiseM UpdateError.

Definition mutate_host (plan : UpdatePlan) (started_at : datetime) : M W UpdateAudit :=
  do project <- eo_get_project ops (up_project plan);;
  λ w, match update_body plan project started_at (w, no_progress) with
       | ((w', _), Ok audit) => (w', Ok audit)
       | ((w', p), Raise e) => update_failed plan project started_at p e w'
       end.

(** The plan that is executed: a fresh one, or the given one after its checks. *)
Definition choose_plan (project_name : string) (dry_run : bool) (given : option UpdatePlan) : M W UpdatePlan :=
  match given with
  | None => eo_plan ops project_name dry_run
  | Some plan => do_ liftM (validate_reused_plan plan project_name dry_run);; retM plan
  end.
Definition bind_contract (execution_contract : option ExecutionContract) (plan : UpdatePlan) : result unit :=
  match execution_contract with
  | None => Ok ()
  | Some contract => validate_execution_contract contract plan
  end.

(** [UpdateEngine.execute_update] *)
Definition execute_update (project_name : string) (dry_run approve : bool) (given : option UpdatePlan)
    (execution_contract : option ExecutionContract) : M W UpdateAudit :=
  do started_at <- eo_now ops;;
  do plan <- choose_plan project_name dry_run given;;
  do_ liftM (bind_contract execution_contract plan);;
  if dry_run then write_audit plan started_at "dry-run" "planned" no_progress None None
  else if negb (up_proceed plan) then
    do_ write_audit plan started_at "execute" "blocked" no_progress (Some "Plan requires manual review.") None;;
    raiseM UpdateError
  else if up_approval_required plan && negb approve then
    do_ write_audit plan started_at "execute" "approval_required" no_progress
          (Some "Explicit --yes approval was not provided.") None;;
    raiseM UpdateError
  else mutate_host plan started_at.
End engine.

(** [compose_update_runtime] (services/update/runtime_adapter.py) *)
Record RuntimeReport := {
  rr_project_name : string; rr_outcome : string; rr_mode : string; rr_risk : UpdateRisk; rr_audit_path : string;
}.
Definition update_runtime {W} (ops : EngineOps W) exc_text (binding : UpdateExecutionBinding) : M W RuntimeReport :=
  do contract <- liftM (new_ExecutionContract {| ec_project_name := ueb_project_name binding;
                                                ec_plan_digest := ueb_plan_digest binding;
                                                ec_confirmation_id := ueb_confirmation_id binding |});;
  do audit <- execute_update ops exc_text (ueb_project_name binding) false true None (Some contract);;
  retM {| rr_project_name := ua_project audit; rr_outcome := ua_outcome audit; rr_mode := ua_mode audit;
          rr_risk := ua_risk audit;
          rr_audit_path := match ua_audit_path audit with Some p => p | None => "" end |}.

(** ** What an execution shows *)

Section theorems.
Context {W : Type} (ops : EngineOps W) (exc_text : exn → string).

Lemma on_host_Ok {L A} (m : M W A) (s s' : W * L) a : on_host m s = (s', Ok a) →
  m (fst s) = (fst s', Ok a) ∧ snd s' = snd s.
Proof. unfold on_host. destruct (m (fst s)) as [w r]. by intros [= <- ->]. Qed.
Lemma on_locals_Ok {L} (f : L → L) (s s' : W * L) u : on_locals f s = (s', Ok u) → s' = (fst s, f (snd s)).
Proof. by intros [= <-]. Qed.

(** The runtime of the project can be rebuilt. *)
Definition has_runner (project : Project) (w : W) : Prop :=
  (∃ w1, eo_is_file ops (pj_path project ++ "/start_services.py") w = (w1, Ok true)) ∨
  pc_has_compose (pj_capabilities project) = true.
Lemma execute_runtime_Ok project w w' : execute_runtime ops project w = (w', Ok ()) → has_runner project w.
Proof.
  unfold execute_runtime. intros E. apply bindM_Ok in E as (w1 & custom & E1 & E).
  destruct custom; [left; by exists w1|]. destruct (pc_has_compose _) eqn:Ec; [by right|done].
Qed.

Lemma write_audit_Ok plan st mode outcome p error restore w w' a :
  write_audit ops plan st mode outcome p error restore w = (w', Ok a) →
  ua_project a = up_project plan ∧ ua_plan a = plan ∧ ua_mode a = mode ∧ ua_outcome a = outcome ∧
  ua_snapshot_path a = pg_snapshot_path p ∧ ua_health_after a = pg_health_after p ∧
  ua_verification a = pg_verification p ∧ ua_git_transaction a = pg_git p ∧ ua_error a = error ∧
  ua_restore a = restore.
Proof.
  unfold write_audit, audit_of. intros E. apply bindM_Ok in E as (w1 & x & E1 & E).
  apply bindM_Ok in E1 as (w2 & t & _ & E1). injection E1 as <- <-.
  apply bindM_Ok in E as (w3 & path & _ & E). by injection E as <- <-.
Qed.

(** The facts of a [try] block that returns. *)
Lemma update_body_Ok plan project st s s' a : update_body ops plan project st s = (s', Ok a) →
  ua_mode a = "execute" ∧ ua_outcome a = "success" ∧ ua_plan a = plan ∧ ua_project a = up_project plan ∧
  ∃ path w1 r w2 w3 h refreshed w4 w5,
    eo_create_snapshot ops project (fst s) = (w1, Ok path) ∧ ua_snapshot_path a = Some path ∧
    eo_git_transaction ops project (up_stash_required plan)
      (match up_git plan with Some g => gr_exists g && truthy (gr_remote_url g) | None => false end)
      (up_pull_required plan) w1 = (w2, Ok (Committed r)) ∧ ua_git_transaction a = Some r ∧
    execute_runtime ops project w2 = (w3, Ok ()) ∧
    eo_analyze ops refreshed w4 = (w5, Ok h) ∧ ua_health_after a = Some h ∧
    ua_verification a = Some (verify_update (up_health_before plan) (Some h)) ∧
    rollback_required (verify_update (up_health_before plan) (Some h)) = false.
Proof.
  unfold update_body. intros E.
  apply bindM_Ok in E as (s1 & path & E1 & E). apply on_host_Ok in E1 as [E1 L1].
  apply bindM_Ok in E as (s2 & [] & E2 & E). apply on_locals_Ok in E2 as ->.
  apply bindM_Ok in E as (s3 & t & E3 & E). apply on_host_Ok in E3 as [E3 L3].
  apply bindM_Ok in E as (s4 & [] & E4 & E).
  destruct t as [r|r]; [|apply bindM_Ok in E4 as (? & ? & _ & E4); done]. apply on_locals_Ok in E4 as ->.
  apply bindM_Ok in E as (s5 & [] & E5 & E). apply on_host_Ok in E5 as [E5 L5].
  apply bindM_Ok in E as (s6 & refreshed & E6 & E). apply on_host_Ok in E6 as [E6 L6].
  apply bindM_Ok in E as (s7 & h & E7 & E). apply on_host_Ok in E7 as [E7 L7].
  apply bindM_Ok in E as (s8 & [] & E8 & E). apply on_locals_Ok in E8 as ->.
  apply bindM_Ok in E as (s9 & [] & E9 & E). apply on_locals_Ok in E9 as ->.
  apply bindM_Ok in E as (s10 & [] & E10 & E). apply liftM_raise_unless_Ok in E10 as [Hv ->].
  apply bindM_Ok in E as (s11 & s12 & E11 & E). injection E11 as <- <-.
  apply on_host_Ok in E as [E _]. apply write_audit_Ok in E as (H1 & H2 & H3 & H4 & H5 & H6 & H7 & H8 & _).
  cbn in *. rewrite L7, L6, L5 in *. cbn in *. rewrite L3 in *. cbn in *.
  split_and!; [done..|]. exists path, (fst s1), r, (fst s3), (fst s5), h, refreshed, (fst s6), (fst s7).
  split_and!; try done. by apply negb_true_iff.
Qed.

Lemma validate_contract_Ok contract plan : validate_execution_contract contract plan = Ok () →
  ec_project_name contract = up_project plan ∧ update_plan_digest plan = Ok (ec_plan_digest contract).
Proof.
  unfold validate_execution_contract. intros E. inv_ok.
  repeat match goal with H : str_eqb _ _ = true |- _ => apply str_eqb_true in H end. subst. done.
Qed.
Lemma validate_reused_Ok plan name dry : validate_reused_plan plan name dry = Ok () →
  up_project plan = name ∧ up_dry_run plan = dry.
Proof.
  unfold validate_reused_plan. intros E. inv_ok. apply str_eqb_true in H. by apply Bool.eqb_prop in H0.
Qed.

(** C32: an update that returns without being a dry run.  Its plan proceeds, is
    approved where it asks for approval and, under an execution contract, is of
    the contract's project and has the contract's digest; a snapshot was taken, the
    git transaction committed, the runtime was rebuilt by the start script or by
    Compose (a plan for systemd units alone never succeeds), and the health found
    afterwards does not demand a rollback; the audit record says so. *)
Theorem update_success_means name approve given contract w w' a :
  execute_update ops exc_text name false approve given contract w = (w', Ok a) →
  ua_mode a = "execute" ∧ ua_outcome a = "success" ∧
  up_proceed (ua_plan a) = true ∧ (up_approval_required (ua_plan a) = true → approve = true) ∧
  (∀ plan, given = Some plan → ua_plan a = plan ∧ up_project plan = name ∧ up_dry_run plan = false) ∧
  (∀ c, contract = Some c → ec_project_name c = ua_project a ∧ update_plan_digest (ua_plan a) = Ok (ec_plan_digest c)) ∧
  (∃ project path r w0 w1 w2 w3 fetch,
     eo_create_snapshot ops project w0 = (w1, Ok path) ∧ ua_snapshot_path a = Some path ∧
     eo_git_transaction ops project (up_stash_required (ua_plan a)) fetch (up_pull_required (ua_plan a)) w1 =
       (w2, Ok (Committed r)) ∧ ua_git_transaction a = Some r ∧
     execute_runtime ops project w2 = (w3, Ok ()) ∧ has_runner project w2) ∧
  (∃ h, ua_health_after a = Some h ∧ rollback_required (verify_update (up_health_before (ua_plan a)) (Some h)) = false).
Proof.
  unfold execute_update. intros E. apply bindM_Ok in E as (w1 & st & _ & E).
  apply bindM_Ok in E as (w2 & plan & Ep & E). apply bindM_Ok in E as (w3 & [] & Ec & E).
  destruct (up_proceed plan) eqn:Hp; cbn [negb] in E; [|by apply bindM_Ok in E as (? & ? & _ & ?)].
  destruct (up_approval_required plan && negb approve) eqn:Ha; [by apply bindM_Ok in E as (? & ? & _ & ?)|].
  unfold mutate_host in E. apply bindM_Ok in E as (w4 & project & _ & E).
  destruct (update_body ops plan project st (w4, no_progress)) as [[w5 p] [audit|e]] eqn:Eb.
  - injection E as <- <-.
    apply update_body_Ok in Eb as (H1 & H2 & -> & H4 & path & wa & r & wb & wc & h & refreshed & wd & we & Es & Hs & Eg & Hg & Er & _ & Hh & Hv & Hrb).
    split_and!; try done.
    + intros Hr. rewrite Hr in Ha. cbn in Ha. by apply negb_false_iff.
    + intros plan0 ->. unfold choose_plan in Ep. apply bindM_Ok in Ep as (? & [] & Ev & Ep). injection Ep as <- <-.
      unfold liftM in Ev. injection Ev as _ Ev. split; [done|]. by apply validate_reused_Ok.
    + intros c ->. unfold liftM in Ec. injection Ec as _ Ec. rewrite H4. by apply validate_contract_Ok.
    + exists project, path, r, w4, wa, wb, wc. eexists. split_and!; try done. by eapply execute_runtime_Ok.
    + by exists h.
  - unfold update_failed in E. apply bindM_Ok in E as (? & ? & _ & E). by apply bindM_Ok in E as (? & ? & _ & E).
Qed.

(** C33: nothing of the host is touched before the plan is bound.  Let [R] relate
    states that differ only by the clock, planning and written audit records.
    Then an execution either stays within [R], or it is no dry run, its plan
    proceeds, is approved and carries the digest of the execution contract, and
    only then the project is mutated. *)
Theorem mutation_needs_bound_plan (R : W → W → Prop) `{!PreOrder R} name dry approve given contract w w' res :
  keeps R (eo_now ops) → (∀ n d, keeps R (eo_plan ops n d)) → (∀ a, keeps R (eo_write_audit ops a)) →
  execute_update ops exc_text name dry approve given contract w = (w', res) →
  R w w' ∨
  (dry = false ∧ ∃ plan started w1, R w w1 ∧
     up_proceed plan = true ∧ (up_approval_required plan = true → approve = true) ∧
     (∀ c, contract = Some c → ec_project_name c = up_project plan ∧ update_plan_digest plan = Ok (ec_plan_digest c)) ∧
     mutate_host ops exc_text plan started w1 = (w', res)).
Proof.
  intros Hnow Hplan Hwrite E.
  assert (Haudit : ∀ plan st mode outcome p error restore,
            keeps R (write_audit ops plan st mode outcome p error restore)).
  { intros plan st mode outcome p error restore w0. unfold write_audit, audit_of.
    apply keeps_from_bind; [done|apply keeps_from_bind; [done|apply Hnow|intros; by apply keeps_from_reads]|].
    intros a w1 _ _. apply keeps_from_bind; [done|apply Hwrite|]. intros path w2 _ _. by apply keeps_from_reads. }
  unfold execute_update in E. unfold bindM at 1 in E.
  destruct (eo_now ops w) as [w1 [st|e]] eqn:E1; apply Hnow in E1; [|injection E as <- <-; by left].
  unfold bindM at 1 in E. destruct (choose_plan ops name dry given w1) as [w2 pr] eqn:E2.
  assert (R w w2) as H2.
  { unfold choose_plan in E2. destruct given as [g|]; [|etrans; [exact E1|by eapply Hplan]].
    unfold bindM, liftM in E2. destruct (validate_reused_plan _ _ _); by injection E2 as <- _. }
  destruct pr as [plan|e]; [|left; by injection E as <- _].
  unfold bindM at 1, liftM at 1 in E. destruct (bind_contract contract plan) as [[]|e] eqn:E3; [|left; by injection E as <- _].
  assert (Hrefuse : ∀ m : M W UpdateAudit, keeps R m → ∀ w1 w2 r, R w w1 →
            bindM m (λ _, raiseM UpdateError : M W UpdateAudit) w1 = (w2, r) → R w w2).
  { intros m Hm w3 w4 r HR Er. etrans; [exact HR|].
    refine (keeps_from_bind R w3 m _ (Hm w3) _ _ _ Er). intros. by apply keeps_from_reads. }
  destruct dry; [left; etrans; [exact H2|by eapply Haudit]|].
  destruct (up_proceed plan) eqn:Hp; cbn [negb] in E; [|left; by eapply Hrefuse].
  destruct (up_approval_required plan && negb approve) eqn:Ha; [left; by eapply Hrefuse|].
  right. split; [done|]. exists plan, st, w2. split_and!; try done.
  - intros Hr. rewrite Hr in Ha. cbn in Ha. by apply negb_false_iff.
  - intros c ->. by apply validate_contract_Ok.
Qed.
End theorems.
