(* ===== verification/ExecutorService.v ===== *)
(** * ExecutorService: the executor's handlers (composition/executor_update.py)

    The handler behind the executor's socket: structural checks, the receipt
    claim, the dispatch to the Compose adapter or the update engine, and the
    completion of the receipt; the read-only query handler; and the runtime port
    of the control plane that sends a binding.  The store of the handler is the
    receipt table, the store of the adapter and the engine, and the list of the
    mutations dispatched to them, newest first, which only the model keeps. *)

From S2P Require Import Prelude PyStr PyText PyDict PyTime Json JsonParse Models UpdateModel.
From S2P Require Import Receipts Wire Ipc IpcServer ComposeAdapter GitTransaction UpdateEngine.
From Stdlib Require Import Ascii String ZArith Lia.
From stdpp Require Import base strings gmap list.

Local Open Scope string_scope.
Local Open Scope Z_scope.
Local Open Scope aipm_scope.

Record executor_store (D : Type) := {
  xs_receipts : receipts;
  xs_host : D;
  (** ghost: (action, fencing token) of each call of the adapter or the engine *)
  xs_dispatched : list (string * Z);
}.
Arguments xs_receipts {D} _.
Arguments xs_host {D} _.
Arguments xs_dispatched {D} _.

(** What one request draws from outside. *)
Record executor_env := {
  xe_claim_db : db_state;
  xe_get_db : db_state;
  xe_complete_db : db_state;
  xe_reload_db : db_state;
  xe_receipt_id : string;
  xe_claimed_at : string;
  xe_completed_at : string;
  xe_now : option datetime;
}.

Section lift.
Context {D : Type}.
Definition on_receipts {A} (m : M receipts A) : M (executor_store D) A := λ s,
  let '(r', res) := m (xs_receipts s) in
  ({| xs_receipts := r'; xs_host := xs_host s; xs_dispatched := xs_dispatched s |}, res).
Definition dispatch {A} (key : string * Z) (m : M D A) : M (executor_store D) A := λ s,
  let '(d', res) := m (xs_host s) in
  ({| xs_receipts := xs_receipts s; xs_host := d'; xs_dispatched := key :: xs_dispatched s |}, res).
End lift.

Definition answer (outcome code action_id evidence : string) : ExecutionResponse string :=
  {| rs_outcome := outcome; rs_provider_code := code; rs_action_id := action_id; rs_evidence_reference := evidence |}.

(** The texts the handler reports. *)
Definition claimed_code (status : string) : string := "already_claimed:" ++ status.
Definition or_unknown (s : string) : string := if str_nonempty s then s else "unknown".
Definition text128 (s : string) : string := str_take 128 s.

Section handler.
Context {D : Type}.
Variable compose_adapter : option (BoundedServiceUpdateIntent → M D ComposeExecutionResult).
(** [engine.execute_update(target, approve=True, execution_contract=contract)] *)
Variable engine : option (string → ExecutionContract → M D UpdateAudit).
Variable exc_text : exn → string.

#[local] Notation store := (executor_store D).

(** [receipts.complete] under [except Exception: pass]. *)
Definition complete_receipt (env : executor_env) (r : ExecutionRequest pyval) (status : MutationStatus) (code : string)
  : M store unit :=
  do_ attempt (on_receipts (complete (xe_complete_db env) (er_action_id r) (er_fencing_token r) status code
                              (xe_completed_at env) (xe_reload_db env)));;
  retM ().

(** The claim; a field that is no string is a [MutationReceiptError] of the
    receipt's constructor. *)
Definition claim_receipt (env : executor_env) (r : ExecutionRequest pyval) : M store string :=
  match er_capability_id r, er_target_id r with
  | VStr capability_id, VStr target_id =>
      do_ on_receipts (claim (xe_claim_db env) (xe_receipt_id env) (er_action_id r) (er_fencing_token r)
                         capability_id target_id (er_contract_digest r) (xe_claimed_at env));;
      retM target_id
  | _, _ => raiseM ReceiptError
  end.
(** The status an earlier claim has, for the answer to a refused one. *)
Definition claimed_status (env : executor_env) (r : ExecutionRequest pyval) : M store string :=
  do got <- attempt (on_receipts (get_receipt (xe_get_db env) (er_action_id r) (er_fencing_token r)));;
  retM match got with
       | inl (Some existing) => mutation_status_value (mr_mutation_status existing)
       | _ => "unknown"
       end.

Definition service_update (adapter : BoundedServiceUpdateIntent → M D ComposeExecutionResult) (env : executor_env)
    (r : ExecutionRequest pyval) (target_id plan_digest confirmation_id : string) : M store (ExecutionResponse string) :=
  let action_id := er_action_id r in
  do intent <- liftM (check_intent
    {| bi_project_name := target_id; bi_service_scope := default [] (er_service_scope r);
       bi_plan_digest := plan_digest; bi_confirmation_id := confirmation_id; bi_action_id := action_id;
       bi_fencing_token := er_fencing_token r; bi_contract_digest := er_contract_digest r;
       bi_lease_id := er_lease_id r; bi_expected_target_digest := None; bi_expected_child_digest := None;
       bi_atomicity := "leaf_independent"; bi_now := xe_now env |});;
  do executed <- attempt (dispatch (action_id, er_fencing_token r) (adapter intent));;
  match executed with
  | inr (ComposeExecutionError code) =>
      do_ complete_receipt env r MUTATION_FAILED ("executor_error:" ++ code);;
      retM (answer "failed" code action_id (text128 (exc_text (ComposeExecutionError code))))
  | inr e =>
      do_ complete_receipt env r UNKNOWN_OUTCOME "update_interrupted";;
      retM (answer "unknown_outcome" "update_interrupted" action_id (text128 (exc_text e)))
  | inl result =>
      let v := ce_verification result in
      if negb (compose_is_success result) then
        let code := "verification_failure:" ++ verification_code_value (vr_code v) in
        let unknown := bool_decide (vr_code v = RECONCILIATION_REQUIRED) in
        do_ complete_receipt env r (if unknown then UNKNOWN_OUTCOME else MUTATION_FAILED) code;;
        retM (answer (if unknown then "unknown_outcome" else "failed") code action_id (text128 (vr_details v)))
      else
        do_ complete_receipt env r MUTATION_SUCCEEDED "update_ok";;
        retM (answer "succeeded" "update_ok" action_id ("verified-scope:" ++ join_with "," (vr_verified_services v)))
  end.

Definition project_update (run : string → ExecutionContract → M D UpdateAudit) (env : executor_env)
    (r : ExecutionRequest pyval) (target_id plan_digest confirmation_id : string) : M store (ExecutionResponse string) :=
  let action_id := er_action_id r in
  do contract <- liftM (new_ExecutionContract {| ec_project_name := target_id; ec_plan_digest := plan_digest;
                                                ec_confirmation_id := confirmation_id |});;
  do executed <- attempt (dispatch (action_id, er_fencing_token r) (run target_id contract));;
  match executed with
  | inr UpdateError =>
      do_ complete_receipt env r MUTATION_FAILED "update_failed";;
      retM (answer "failed" "update_failed" action_id (text128 (exc_text UpdateError)))
  | inr e =>
      do_ complete_receipt env r UNKNOWN_OUTCOME "update_interrupted";;
      retM (answer "unknown_outcome" "update_interrupted" action_id "")
  | inl audit =>
      let outcome := lower (ua_outcome audit) in
      if negb (str_eqb outcome "success") then
        let code := "engine_outcome:" ++ or_unknown outcome in
        do_ complete_receipt env r MUTATION_FAILED code;;
        retM (answer "failed" code action_id "")
      else
        do_ complete_receipt env r MUTATION_SUCCEEDED "update_ok";;
        retM (answer "succeeded" "update_ok" action_id
                ("update-audit:" ++ match ua_audit_path audit with Some p => p | None => "" end))
  end.

(** The capability, its bindings and the component that would run it: a refusal,
    or the service update and whether it is one. *)
Definition structural_refusal (r : ExecutionRequest pyval) : option string :=
  let is_service_update := is_service_capability (er_capability_id r) || present (er_service_scope r) in
  if negb (is_update_capability (er_capability_id r)) then Some "unsupported_capability"
  else if negb (HEX 64 (default "" (er_plan_digest r))) then Some "invalid_plan_digest"
  else if negb (HEX 32 (default "" (er_confirmation_id r))) then Some "invalid_confirmation_id"
  else if is_service_update then
    match er_service_scope r with
    | None | Some [] => Some "missing_service_scope"
    | Some _ => if present compose_adapter then None else Some "compose_adapter_unavailable"
    end
  else if present engine then None else Some "engine_unavailable".

(** [handler] of [compose_executor_update_handler] *)
Definition update_handler (env : executor_env) (r : ExecutionRequest pyval) : M store (ExecutionResponse string) :=
  match structural_refusal r with
  | Some code => retM (answer "refused" code (er_action_id r) "")
  | None =>
      do claimed <- attempt (claim_receipt env r);;
      match claimed with
      | inr ReceiptError =>
          do status <- claimed_status env r;;
          retM (answer "refused" (claimed_code status) (er_action_id r) "")
      | inr _ => retM (answer "refused" "receipt_store_unavailable" (er_action_id r) "")
      | inl target_id =>
          let plan_digest := default "" (er_plan_digest r) in
          let confirmation_id := default "" (er_confirmation_id r) in
          if is_service_capability (er_capability_id r) || present (er_service_scope r) then
            match compose_adapter with
            | Some adapter => service_update adapter env r target_id plan_digest confirmation_id
            | None => raiseM AttributeError
            end
          else
            match engine with
            | Some run => project_update run env r target_id plan_digest confirmation_id
            | None => raiseM AttributeError
            end
      end
  end.
End handler.

(** ** Receipt queries *)

(** [MutationReceipt.safe_dict] and the two markers of the query handler. *)
Definition MUTATION_RECEIPT_VERSION : string := "mc612-mutation-receipt-v1".
Definition PROTOCOL_VERSION : string := "mc612-executor-ipc-v1".
Definition safe_dict (r : MutationReceipt) : dict string scalar :=
  [("receipt_id", SStr (mr_receipt_id r)); ("action_id", SStr (mr_action_id r));
   ("fencing_token", SInt (mr_fencing_token r)); ("capability_id", SStr (mr_capability_id r));
   ("target_id", SStr (mr_target_id r)); ("contract_digest", SStr (mr_contract_digest r));
   ("mutation_status", SStr (mutation_status_value (mr_mutation_status r)));
   ("provider_code", SStr (mr_provider_code r)); ("created_at", SStr (mr_created_at r));
   ("completed_at", match mr_completed_at r with Some t => SStr t | None => SNone end);
   ("version", SStr MUTATION_RECEIPT_VERSION)].
Definition receipt_evidence (r : MutationReceipt) : dict string scalar :=
  (safe_dict r ++ [("protocol_version", SStr PROTOCOL_VERSION); ("evidence_reference", SStr "")])%list.

Definition receipt_query_handler {D} (env : executor_env) (q : ReceiptQueryRequest)
  : M (executor_store D) ReceiptQueryResponse :=
  do got <- attempt (on_receipts (get_receipt (xe_get_db env) (rq_action_id q) (rq_fencing_token q)));;
  retM match got with
       | inr _ => {| qr_mutation_status := "evidence_unavailable"; qr_provider_code := "receipt_store_failure";
                     qr_evidence := [] |}
       | inl None => {| qr_mutation_status := "not_found"; qr_provider_code := ""; qr_evidence := [] |}
       | inl (Some r) => {| qr_mutation_status := mutation_status_value (mr_mutation_status r);
                            qr_provider_code := mr_provider_code r; qr_evidence := receipt_evidence r |}
       end.

(** ** The runtime port of the control plane *)

(** [compose_ipc_update_runtime]: the request a binding is sent as, and the
    report of the exchange; whatever [send] raises is an unknown outcome. *)
Definition request_of_binding (b : UpdateExecutionBinding) : result (ExecutionRequest string) :=
  new_ExecutionRequest
    {| er_action_id := ueb_action_id b;
       er_capability_id := match ueb_service_scope b with
                           | Some _ => CAPABILITY_EXECUTE_SERVICE_UPDATE
                           | None => CAPABILITY_EXECUTE_UPDATE_PLAN
                           end;
       er_target_id := ueb_project_name b; er_contract_digest := ueb_contract_digest b;
       er_lease_id := ueb_lease_id b; er_fencing_token := ueb_fencing_token b;
       er_action_protocol := ueb_action_protocol b; er_plan_digest := Some (ueb_plan_digest b);
       er_confirmation_id := Some (ueb_confirmation_id b); er_service_scope := ueb_service_scope b;
       er_registration_id := ueb_registration_id b; er_registration_digest := ueb_registration_digest b |}.
Definition ipc_update_runtime (connected written : result unit) (answered : stream) (b : UpdateExecutionBinding)
  : result (ExecutionResponse pyval) :=
  let* request := request_of_binding b in
  match client_send connected written answered request with
  | Ok response => Ok response
  | Raise _ => Ok (Build_ExecutionResponse (VStr "unknown_outcome") (VStr "transport_failure")
                     (VStr (ueb_action_id b)) (VStr ""))
  end.

(** ** What a request does *)

Definition request_key (r : ExecutionRequest pyval) : string * Z := (er_action_id r, er_fencing_token r).
(** The status [complete] is called with, for each outcome but a refusal. *)
Definition outcome_status (outcome : string) : MutationStatus :=
  if str_eqb outcome "succeeded" then MUTATION_SUCCEEDED
  else if str_eqb outcome "failed" then MUTATION_FAILED else UNKNOWN_OUTCOME.

Section effects.
Context {D : Type}.
Implicit Types (w : executor_store D).

Definition settled_receipts (env : executor_env) (r : ExecutionRequest pyval) (rec : MutationReceipt)
    (st : MutationStatus) (code : string) (s : receipts) : receipts :=
  if bool_decide (xe_complete_db env = DB_OK)
  then <[request_key r := completed rec st code (xe_completed_at env)]> s else s.

Lemma complete_receipt_settles env r st code w rec :
  xs_receipts w !! request_key r = Some rec → mr_mutation_status rec = RECEIPT_CREATED →
  sqlite_integer (er_fencing_token r) = true →
  complete_receipt env r st code w =
    ({| xs_receipts := settled_receipts env r rec st code (xs_receipts w);
        xs_host := xs_host w; xs_dispatched := xs_dispatched w |}, Ok ()).
Proof.
  intros Hr Hs Hz. unfold complete_receipt, attempt, on_receipts, bindM, settled_receipts.
  pose proof (complete_fresh (xe_complete_db env) _ _ st code (xe_completed_at env) (xe_reload_db env) _ rec Hr Hs Hz) as E.
  destruct (complete _ _ _ _ _ _ _ _) as [s' res]. cbn in E. subst s'. by destruct res.
Qed.

(** The row a claim leaves. *)
Definition fresh_receipt w (r : ExecutionRequest pyval) (rec : MutationReceipt) : Prop :=
  xs_receipts w !! request_key r = Some rec ∧ mr_mutation_status rec = RECEIPT_CREATED ∧
  sqlite_integer (er_fencing_token r) = true.
(** One call of the adapter or the engine, reported by [resp] and by the receipt. *)
Definition settles (env : executor_env) (r : ExecutionRequest pyval) (rec : MutationReceipt) w w'
    (resp : ExecutionResponse string) : Prop :=
  ∃ code, rs_action_id resp = er_action_id r ∧ rs_outcome resp ∈ ["failed"; "unknown_outcome"; "succeeded"] ∧
    (code = rs_provider_code resp ∨ code = "executor_error:" ++ rs_provider_code resp) ∧
    xs_dispatched w' = request_key r :: xs_dispatched w ∧
    xs_receipts w' = settled_receipts env r rec (outcome_status (rs_outcome resp)) code (xs_receipts w).

Lemma settles_answer env r rec w d outcome code code' st ev :
  fresh_receipt w r rec → outcome ∈ ["failed"; "unknown_outcome"; "succeeded"] → st = outcome_status outcome →
  (code' = code ∨ code' = "executor_error:" ++ code) →
  ∃ w', bindM (complete_receipt env r st code') (λ _, retM (answer outcome code (er_action_id r) ev))
          {| xs_receipts := xs_receipts w; xs_host := d; xs_dispatched := request_key r :: xs_dispatched w |}
        = (w', Ok (answer outcome code (er_action_id r) ev)) ∧
        xs_host w' = d ∧ settles env r rec w w' (answer outcome code (er_action_id r) ev).
Proof.
  intros (Hr & Hs & Hz) Ho -> Hc. unfold bindM.
  rewrite (complete_receipt_settles env r _ code' _ rec) by done. eexists. split; [done|]. split; [done|]. by exists code'.
Qed.

Lemma check_scope_Raise seen scope e : check_scope seen scope = Raise e → e = ComposeExecutionError "invalid_service_scope".
Proof.
  revert seen. induction scope as [|s scope IH]; intros seen; cbn; [done|].
  unfold raise_unless. destruct (_ && _); cbn; [apply IH|]. by intros [= <-].
Qed.
Lemma check_intent_Raise i e : check_intent i = Raise e → ∃ code, e = ComposeExecutionError code.
Proof.
  intros H. assert (Hif : ∀ (b : bool) code (k : unit → result BoundedServiceUpdateIntent),
    (rbind (raise_unless b (ComposeExecutionError code)) k = Raise e) → (∃ code, e = ComposeExecutionError code) ∨ k () = Raise e).
  { intros [] code k; cbn; [by right|]. intros [= <-]. left. eauto. }
  unfold check_intent in H.
  do 2 (apply Hif in H as [H|H]; [done|]).
  destruct (check_scope _ _) as [|e'] eqn:E; cbn [rbind] in H; [|injection H as ->; apply check_scope_Raise in E; eauto].
  do 5 (apply Hif in H as [H|H]; [done|]). done.
Qed.
End effects.

Section handler_effects.
Context {D : Type}.
Context (adapter : BoundedServiceUpdateIntent → M D ComposeExecutionResult).
Context (run : string → ExecutionContract → M D UpdateAudit) (exc_text : exn → string).
Implicit Types (w : executor_store D).

(** What "succeeded" reports: the adapter's verified result, or the engine's
    successful audit, of a run on the host as the request found it. *)
Definition service_succeeds (target_id : string) (scope : list string) (d d' : D) : Prop :=
  ∃ intent result, bi_project_name intent = target_id ∧ bi_service_scope intent = scope ∧
    adapter intent d = (d', Ok result) ∧ compose_is_success result = true.
Definition project_succeeds (target_id plan_digest : string) (d d' : D) : Prop :=
  ∃ contract audit, ec_project_name contract = target_id ∧ ec_plan_digest contract = plan_digest ∧
    run target_id contract d = (d', Ok audit) ∧ lower (ua_outcome audit) = "success".

Lemma service_update_effect env r t p c w rec : fresh_receipt w r rec →
  match service_update exc_text adapter env r t p c w with
  | (w', Ok resp) => settles env r rec w w' resp ∧
      (rs_outcome resp = "succeeded" → service_succeeds t (default [] (er_service_scope r)) (xs_host w) (xs_host w'))
  | (w', Raise e) => w' = w ∧ ∃ code, e = ComposeExecutionError code
  end.
Proof.
  intros Hf. unfold service_update. unfold bindM at 1, liftM. destruct (check_intent _) as [i|e] eqn:Ei.
  2:{ split; [done|]. by eapply check_intent_Raise. }
  assert (bi_project_name i = t ∧ bi_service_scope i = default [] (er_service_scope r)) as [Hn Hsc].
  { clear Hf. unfold check_intent in Ei. inv_ok. done. }
  unfold bindM at 1, attempt, dispatch. destruct (adapter i (xs_host w)) as [d [result|e]] eqn:Ea.
  - destruct (compose_is_success result) eqn:Es; cbn [negb].
    + edestruct (settles_answer env r rec w d "succeeded" "update_ok" "update_ok") as (w' & E & Hd & Hst);
        [done|set_solver|reflexivity|by left|]. unfold request_key in E. rewrite E.
      split; [done|]. intros _. rewrite Hd. by exists i, result.
    + edestruct (settles_answer env r rec w d
          (if bool_decide (vr_code (ce_verification result) = RECONCILIATION_REQUIRED) then "unknown_outcome" else "failed")
          ("verification_failure:" ++ verification_code_value (vr_code (ce_verification result))))
        as (w' & E & Hd & Hst); [done| | |by left|unfold request_key in E; rewrite E]; [by destruct (bool_decide _); set_solver|by destruct (bool_decide _)|].
      split; [done|]. cbn. by destruct (bool_decide _).
  - destruct e; (edestruct (settles_answer env r rec w d) as (w' & E & Hd & Hst);
      [exact Hf| | | |unfold request_key in E; rewrite E; split; [exact Hst|cbn; congruence]];
      [set_solver|reflexivity|auto]).
Qed.

Lemma project_update_effect env r t p c w rec : fresh_receipt w r rec →
  match project_update exc_text run env r t p c w with
  | (w', Ok resp) => settles env r rec w w' resp ∧
      (rs_outcome resp = "succeeded" → project_succeeds t p (xs_host w) (xs_host w'))
  | (w', Raise e) => w' = w ∧ e = ValueError
  end.
Proof.
  intros Hf. unfold project_update. unfold bindM at 1, liftM. destruct (new_ExecutionContract _) as [k|e] eqn:Ek.
  2:{ split; [done|]. unfold new_ExecutionContract, raise_unless in Ek. repeat (case_match; cbn in Ek; simplify_eq; try done). }
  assert (ec_project_name k = t ∧ ec_plan_digest k = p) as [Hn Hp].
  { clear Hf. unfold new_ExecutionContract in Ek. inv_ok. done. }
  unfold bindM at 1, attempt, dispatch. destruct (run t k (xs_host w)) as [d [audit|e]] eqn:Ea.
  - destruct (str_eqb (lower (ua_outcome audit)) "success") eqn:Es; cbn [negb].
    + edestruct (settles_answer env r rec w d "succeeded" "update_ok" "update_ok") as (w' & E & Hd & Hst);
        [done|set_solver|reflexivity|by left|]. unfold request_key in E. rewrite E.
      split; [done|]. intros _. rewrite Hd. exists k, audit. apply str_eqb_true in Es. done.
    + edestruct (settles_answer env r rec w d "failed") as (w' & E & Hd & Hst);
        [exact Hf| | | |unfold request_key in E; rewrite E; split; [exact Hst|done]]; [set_solver|reflexivity|auto].
  - destruct e; (edestruct (settles_answer env r rec w d) as (w' & E & Hd & Hst);
      [exact Hf| | | |unfold request_key in E; rewrite E; split; [exact Hst|cbn; congruence]];
      [set_solver|reflexivity|auto]).
Qed.
End handler_effects.

(** The store after the claim. *)
Definition claimed {D} (r : ExecutionRequest pyval) (rec : MutationReceipt) (w : executor_store D) : executor_store D :=
  {| xs_receipts := <[request_key r := rec]> (xs_receipts w); xs_host := xs_host w; xs_dispatched := xs_dispatched w |}.

Lemma claim_receipt_cases {D} env r (w : executor_store D) :
  match claim_receipt env r w with
  | (w', Ok t) => ∃ rec, er_target_id r = VStr t ∧ xs_receipts w !! request_key r = None ∧ w' = claimed r rec w ∧
                         fresh_receipt (claimed r rec w) r rec
  | (w', Raise e) => w' = w
  end.
Proof.
  unfold claim_receipt. destruct (er_capability_id r) as [| | | |c| |]; try done.
  destruct (er_target_id r) as [| | | |t| |]; try done.
  unfold bindM, on_receipts. destruct (claim _ _ _ _ _ _ _ _ _) as [sr [rec|e]] eqn:E; cbn.
  - pose proof (claim_integer _ _ _ _ _ _ _ _ _ _ _ E) as Hz.
    apply claim_Ok in E as (Hn & -> & _ & _ & Hs & _). exists rec. split_and!; try done.
    split_and!; try done. unfold claimed, request_key. cbn. by rewrite lookup_insert_eq.
  - apply claim_atomic in E as ->. by destruct w.
Qed.

Lemma reads_on_receipts {D A : Type} (m : M receipts A) : reads m → reads (on_receipts (D:=D) m).
Proof. intros Hm w. unfold on_receipts. specialize (Hm (xs_receipts w)). destruct (m _) as [s r]. cbn in *. subst s. by destruct w. Qed.
#[local] Hint Resolve reads_on_receipts get_receipt_reads : atomicity.
Lemma claimed_status_reads {D : Type} env r : reads (S:=executor_store D) (claimed_status env r).
Proof. unfold claimed_status. solve_atomic. Qed.
Lemma query_handler_reads {D : Type} env q : reads (S:=executor_store D) (receipt_query_handler env q).
Proof. unfold receipt_query_handler. solve_atomic. Qed.

Section handler_theorem.
Context {D : Type}.
Context (adapter : option (BoundedServiceUpdateIntent → M D ComposeExecutionResult)).
Context (engine : option (string → ExecutionContract → M D UpdateAudit)) (exc_text : exn → string).
Implicit Types (w : executor_store D) (r : ExecutionRequest pyval).
#[local] Notation update_handler := (update_handler adapter engine exc_text).

(** The work a request asked for was done, successfully, from the host as it was. *)
Definition request_succeeded r (d d' : D) : Prop :=
  ∃ target_id, er_target_id r = VStr target_id ∧
    ((∃ a scope, adapter = Some a ∧ er_service_scope r = Some scope ∧ service_succeeds a target_id scope d d') ∨
     (∃ run, engine = Some run ∧ er_service_scope r = None ∧
             project_succeeds run target_id (default "" (er_plan_digest r)) d d')).

(** C12: what one update request does.  Every answer is a refusal, and then
    nothing changed and nothing was called, or it names an action and token that
    had no receipt, reports exactly one call of the adapter or the engine, and
    the receipt of the pair says the same as the answer, if the database let it
    be completed, or is still "created".  The answer "succeeded" means that the
    adapter verified the whole scope, or that the engine's audit says success.
    If the handler raises, it is because the intent or the contract could not be
    built after the claim: the host is untouched and the receipt stays created. *)
Theorem handler_settles env r w :
  match update_handler env r w with
  | (w', Ok resp) =>
      rs_action_id resp = er_action_id r ∧
      if str_eqb (rs_outcome resp) "refused" then w' = w
      else ∃ rec, xs_receipts w !! request_key r = None ∧ structural_refusal adapter engine r = None ∧
             fresh_receipt (claimed r rec w) r rec ∧ settles env r rec (claimed r rec w) w' resp ∧
             (rs_outcome resp = "succeeded" → request_succeeded r (xs_host w) (xs_host w'))
  | (w', Raise e) =>
      ipc_error e = false ∧ xs_receipts w !! request_key r = None ∧
      ∃ rec, w' = claimed r rec w ∧ mr_mutation_status rec = RECEIPT_CREATED
  end.
Proof.
  unfold ExecutorService.update_handler. destruct (structural_refusal _ _ _) as [code|] eqn:Es; [done|].
  unfold bindM at 1, attempt. pose proof (claim_receipt_cases env r w) as Hc.
  destruct (claim_receipt env r w) as [w1 [t|e]].
  2:{ subst w1. destruct e; try done. unfold bindM. pose proof (claimed_status_reads env r w) as Hr.
      destruct (claimed_status env r w) as [w2 [st|e]] eqn:E; cbn in Hr; subst w2; [done|].
      unfold claimed_status, attempt, bindM in E. destruct (on_receipts _ _) as [? [|]]; discriminate E. }
  destruct Hc as (rec & Ht & Hn & -> & Hf). pose proof Hf as (_ & Hcr & _).
  pose proof Es as Es'. unfold structural_refusal in Es'.
  destruct (negb (is_update_capability _)); [done|]. destruct (negb (HEX 64 _)); [done|].
  destruct (negb (HEX 32 _)); [done|].
  destruct (is_service_capability (er_capability_id r) || present (er_service_scope r)) eqn:Eb.
  - destruct (er_service_scope r) as [scope|] eqn:Esc; [|done].
    destruct adapter as [a|] eqn:Ea; [|by destruct scope].
    pose proof (service_update_effect a (λ _ _, raiseM UpdateError) exc_text env r t (default "" (er_plan_digest r)) (default "" (er_confirmation_id r)) _ rec Hf) as H.
    destruct (service_update _ _ _ _ _ _ _ _) as [w' [resp|e]].
    + destruct H as [Hst Hsu]. pose proof Hst as (code & Hid & Ho & _). split; [done|].
      destruct (str_eqb (rs_outcome resp) "refused") eqn:Er; [apply str_eqb_true in Er; rewrite Er in Ho; set_solver|].
      exists rec. split_and!; [done..|]. intros Hok. exists t. split; [done|]. left. exists a, scope. rewrite Esc in Hsu. split_and!; auto.
    + destruct H as [-> [code ->]]. split_and!; [done..|]. eauto.
  - apply orb_false_iff in Eb as [_ Esc]. destruct (er_service_scope r) as [scope|] eqn:Esc'; [done|].
    destruct engine as [run|] eqn:Ee; [|done].
    pose proof (project_update_effect run exc_text env r t (default "" (er_plan_digest r)) (default "" (er_confirmation_id r)) _ rec Hf) as H.
    destruct (project_update _ _ _ _ _ _ _ _) as [w' [resp|e]].
    + destruct H as [Hst Hsu]. pose proof Hst as (code & Hid & Ho & _). split; [done|].
      destruct (str_eqb (rs_outcome resp) "refused") eqn:Er; [apply str_eqb_true in Er; rewrite Er in Ho; set_solver|].
      exists rec. split_and!; [done..|]. intros Hok. exists t. split; [done|]. right. exists run. split_and!; auto.
    + destruct H as [-> ->]. split_and!; [done..|]. eauto.
Qed.
End handler_theorem.

(** ** At most one mutation per action and token *)

Section once.
Context {D : Type} (P : string * Z → Prop).
Implicit Types (w : executor_store D).

(** The mutations between two stores: each pair is new, is dispatched once,
    satisfies [P], and has a receipt afterwards. *)
Definition dispatched_once w w' : Prop :=
  receipts_grow (xs_receipts w) (xs_receipts w') ∧
  ∃ new, xs_dispatched w' = (new ++ xs_dispatched w)%list ∧ NoDup new ∧
    ∀ k, k ∈ new → P k ∧ xs_receipts w !! k = None ∧ is_Some (xs_receipts w' !! k).

#[export] Instance dispatched_once_pre : PreOrder dispatched_once.
Proof.
  split.
  - intros w. split; [reflexivity|]. exists []. split; [done|]. split; [constructor|]. by intros k ?%not_elem_of_nil.
  - intros w1 w2 w3 (Hg1 & n1 & E1 & Hd1 & H1) (Hg2 & n2 & E2 & Hd2 & H2). split; [by etrans|].
    exists (n2 ++ n1)%list. rewrite E2, E1, (assoc_L app). split; [done|]. split.
    + apply NoDup_app. split_and!; [done| |done]. intros k Hk2 Hk1.
      destruct (H2 k Hk2) as (_ & Hn & _). destruct (H1 k Hk1) as (_ & _ & [rec Hs]). congruence.
    + intros k [Hk|Hk]%elem_of_app.
      * destruct (H2 k Hk) as (HP & Hn & Hs). split_and!; [done| |done].
        destruct (xs_receipts w1 !! k) as [rec|] eqn:E; [|done]. destruct (Hg1 k rec E) as (rec' & ? & _). congruence.
      * destruct (H1 k Hk) as (HP & Hn & [rec Hs]). split_and!; [done..|].
        destruct (Hg2 k rec Hs) as (rec' & -> & _). eauto.
Qed.

Lemma dispatched_once_claim w r rec : xs_receipts w !! request_key r = None → dispatched_once w (claimed r rec w).
Proof.
  intros Hn. split.
  - intros k rec' Hk. exists rec'. cbn. split; [|apply rtc_refl].
    rewrite lookup_insert_ne; [done|]. intros <-. congruence.
  - exists []. split; [done|]. split; [constructor|]. by intros k ?%not_elem_of_nil.
Qed.
Lemma dispatched_once_settles env r rec w w' resp : P (request_key r) → xs_receipts w !! request_key r = None →
  fresh_receipt (claimed r rec w) r rec → settles env r rec (claimed r rec w) w' resp → dispatched_once w w'.
Proof.
  intros HP Hn (Hr & Hs & _) (code & _ & _ & _ & Hd & Hw).
  assert (Hk : is_Some (xs_receipts w' !! request_key r)).
  { rewrite Hw. unfold settled_receipts. destruct (bool_decide _); [|by exists rec].
    rewrite lookup_insert_eq. eauto. }
  split.
  - intros k rec' Hk'. exists rec'. split; [|apply rtc_refl].
    assert (k ≠ request_key r) by (intros ->; congruence). rewrite Hw. unfold settled_receipts, claimed. cbn.
    destruct (bool_decide _); rewrite !lookup_insert_ne by done; done.
  - exists [request_key r]. split; [done|]. split; [apply NoDup_singleton|]. by intros k ->%list_elem_of_singleton.
Qed.
End once.

Section served.
Context {D : Type}.
Context (adapter : option (BoundedServiceUpdateIntent → M D ComposeExecutionResult)).
Context (engine : option (string → ExecutionContract → M D UpdateAudit)) (exc_text : exn → string).
Context (allowed : option (list Z)).
Implicit Types (w : executor_store D) (c : conn executor_env).
#[local] Notation serve_all := (serve_all allowed (update_handler adapter engine exc_text) (Some receipt_query_handler)).

(** Some connection of an allowed peer carried an accepted request for [k]. *)
Definition requested (cs : list (conn executor_env)) (k : string * Z) : Prop :=
  ∃ c payload request, c ∈ cs ∧ authorized allowed c = true ∧ snd (decode_frame (c_stream c)) = Ok payload ∧
    request_from_json payload = Ok request ∧ request_key request = k ∧ structural_refusal adapter engine request = None.

Lemma serve_one_once cs c : c ∈ cs →
  keeps (dispatched_once (requested cs)) (serve_one allowed (update_handler adapter engine exc_text) (Some receipt_query_handler) c).
Proof.
  intros Hc w w' res E.
  pose proof (serve_one_effect allowed (update_handler adapter engine exc_text) (Some receipt_query_handler) c w) as H.
  rewrite E in H. cbn in H.
  destruct H as [->|(Ha & payload & Hp & [(qh & q & [= <-] & _ & ->)|(request & Hq & _ & _ & ->)])]; [reflexivity| |].
  - by rewrite query_handler_reads.
  - pose proof (handler_settles adapter engine exc_text (c_env c) request w) as H.
    destruct (update_handler _ _ _ _ _ _) as [w1 [resp|e]]; cbn.
    + destruct H as [_ H]. destruct (str_eqb _ _); [by rewrite H|].
      destruct H as (rec & Hn & Hs & Hf & Hst & _). eapply dispatched_once_settles; [|done..].
      by exists c, payload, request.
    + destruct H as (_ & Hn & rec & -> & _). by apply dispatched_once_claim.
Qed.

(** C11: a mutation runs at most once.  Whatever connections the executor
    serves, and whether or not an exception ends its loop, the pairs of action
    and fencing token it dispatches to the adapter or the engine are distinct,
    had no receipt before, so none of them was dispatched before either, in an
    earlier run of the process, and have one afterwards; each was asked for by
    a well-formed request of an allowed peer.  Receipts are never lost and
    change only from "created". *)
Theorem mutations_happen_once cs w :
  dispatched_once (requested cs) w (serve_all cs w).1.
Proof.
  assert (H : ∀ cs', cs' ⊆ cs → keeps (dispatched_once (requested cs)) (serve_all cs')).
  { induction cs' as [|c cs' IH]; intros Hsub; [by intros w1 w2 res [= <- _]|].
    intros w1. cbn. apply keeps_from_bind; [apply _|apply serve_one_once; set_solver|]. intros s w2 _ _.
    apply keeps_from_bind; [apply _|apply IH; set_solver|]. intros ss w3 _ _. by intros w4 res [= <- _]. }
  destruct (serve_all cs w) as [w' res] eqn:E. by eapply (H cs).
Qed.
End served.
