(* ===== verification/Restart.v ===== *)
(** * Restart: restarting an allow-listed systemd unit
    (control_plane/systemd_provider.py, control_plane/standalone_executor.py)

    The executor process also restarts one systemd unit: the provider runs
    [systemctl] on a unit of its allow-list, [execute_restart] fences it by a
    durable receipt.  [runner] is the subprocess adapter, a computation on a host
    of its own; the store is that of [ExecutorService], with its log of the
    mutations dispatched. *)

From S2P Require Import Prelude PyStr PyText PyDict PyTime PyIso Sha256 Json JsonParse Models AuditLedger UpdateModel.
From S2P Require Import Receipts Wire Ipc IpcServer ComposeAdapter GitTransaction UpdateEngine ExecutorService.
From Stdlib Require Import Ascii String ZArith Lia.
From stdpp Require Import base strings pretty gmap list.

Local Open Scope string_scope.
Local Open Scope Z_scope.
Local Open Scope aipm_scope.

(** ** The provider *)

Record SystemdRestartPolicy := {
  sp_environment : string;
  sp_target_id : string;
  sp_unit_id : string;
  sp_canonical_unit_name : string;
  sp_policy_version : string;
}.

Definition path_separator (s : string) : bool := has_char "/" s || has_char "092" s.
(** [SystemdRestartPolicy.__post_init__] *)
Definition check_SystemdRestartPolicy (p : SystemdRestartPolicy) : result SystemdRestartPolicy :=
  let* _ := bounded_text 32 (sp_environment p) in
  let* _ := rmap (bounded_text MAX_AUDIT_ID) [sp_target_id p; sp_unit_id p; sp_canonical_unit_name p] in
  require ends_with ".service" (sp_canonical_unit_name p) else_raise SystemdRestartError;;
  require negb (path_separator (sp_canonical_unit_name p)) else_raise SystemdRestartError;;
  let* _ := bounded_text 64 (sp_policy_version p) in
  Ok p.

Record SubprocessResult := {
  sb_returncode : Z;
  sb_stdout_bounded : string;
  sb_stderr_bounded : string;
  sb_timed_out : bool;
}.
Record SystemdUnitSnapshot := {
  us_target_id : string;
  us_unit_id : string;
  us_canonical_unit_name : string;
  us_load_state : string;
  us_active_state : string;
  us_sub_state : string;
  us_enabled_state : string;
  us_main_pid : string;
  us_fragment_path : string;
  us_captured_at : string;
}.

(** [SystemdRestartProvider.__init__]: the allow-list by unit identifier. *)
Fixpoint allow_list (policies : list SystemdRestartPolicy) (by_unit_id : dict string SystemdRestartPolicy)
  : result (dict string SystemdRestartPolicy) :=
  match policies with
  | [] => Ok by_unit_id
  | p :: policies' =>
      require negb (dmem (sp_unit_id p) by_unit_id) else_raise SystemdRestartError;;
      allow_list policies' (dset (sp_unit_id p) p by_unit_id)
  end.
Definition new_SystemdRestartProvider (policies : list SystemdRestartPolicy) : result (dict string SystemdRestartPolicy) :=
  require match policies with [] => false | _ => true end else_raise SystemdRestartError;;
  allow_list policies [].

(** [str.splitlines] of ASCII text. *)
Definition line_break (c : ascii) : bool :=
  let z := ord c in ((10 <=? z) && (z <=? 13)) || ((28 <=? z) && (z <=? 30)).
Fixpoint splitlines (s : string) : list string :=
  match s with
  | EmptyString => []
  | String c s' =>
      if line_break c then
        match s' with
        | String d s'' => if Ascii.eqb c "013" && Ascii.eqb d "010" then "" :: splitlines s'' else "" :: splitlines s'
        | EmptyString => [""]
        end
      else match splitlines s' with
           | [] => [String c ""]
           | l :: ls => String c l :: ls
           end
  end.
(** The [key=value] lines. *)
Definition properties (stdout : string) : dict string string :=
  fold_left (λ d line, match split_first "=" line with
                       | Some (key, v) => dset (strip key) (strip v) d
                       | None => d
                       end) (splitlines stdout) [].

Section provider.
Context {D : Type} (runner : list string → M D SubprocessResult).
Context (policies : dict string SystemdRestartPolicy) (systemctl_path : string).

Definition resolve_unit (unit_id environment : string) : result SystemdRestartPolicy :=
  require str_nonempty unit_id else_raise SystemdRestartError;;
  match dget unit_id policies with
  | None => Raise SystemdRestartError
  | Some policy =>
      require str_eqb (sp_environment policy) environment else_raise SystemdRestartError;;
      Ok policy
  end.

Definition show_command (policy : SystemdRestartPolicy) : list string :=
  [systemctl_path; "show"; sp_canonical_unit_name policy;
   "--property=LoadState,ActiveState,SubState,UnitFileState,MainPID,FragmentPath"; "--no-pager"].
Definition observe_unit (policy : SystemdRestartPolicy) (moment : datetime) : M D SystemdUnitSnapshot :=
  do r <- runner (show_command policy);;
  assert_ sb_returncode r =? 0 else_raise SystemdRestartError;;
  let d := properties (sb_stdout_bounded r) in
  let field := λ key other, default other (dget key d) in
  retM {| us_target_id := sp_target_id policy; us_unit_id := sp_unit_id policy;
          us_canonical_unit_name := sp_canonical_unit_name policy; us_load_state := field "LoadState" "unknown";
          us_active_state := field "ActiveState" "unknown"; us_sub_state := field "SubState" "unknown";
          us_enabled_state := field "UnitFileState" "unknown"; us_main_pid := field "MainPID" "0";
          us_fragment_path := field "FragmentPath" ""; us_captured_at := isoformat moment |}.

Definition restart_command (policy : SystemdRestartPolicy) : list string :=
  [systemctl_path; "restart"; sp_canonical_unit_name policy].
Definition restart (policy : SystemdRestartPolicy) : M D SubprocessResult := runner (restart_command policy).
End provider.

(** ** The envelope *)

Definition ENVELOPE_VERSION : string := "mc612-execution-envelope-v1".

Record ExecutionEnvelope := {
  ee_protocol_version : string;
  ee_action_id : string;
  ee_action_version : Z;
  ee_capability_id : string;
  ee_capability_version : string;
  ee_target_id : string;
  ee_environment : string;
  ee_unit_name : string;
  ee_contract_digest : string;
  ee_fencing_token : Z;
  ee_lease_id : string;
  ee_issued_at : string;
  ee_expires_at : string;
}.

(** [ExecutionEnvelope.__post_init__] *)
Definition check_ExecutionEnvelope (e : ExecutionEnvelope) : result ExecutionEnvelope :=
  require str_eqb (ee_protocol_version e) ENVELOPE_VERSION else_raise EnvelopeError;;
  let* _ := rmap (bounded_text MAX_AUDIT_ID)
    [ee_action_id e; ee_capability_id e; ee_target_id e; ee_contract_digest e; ee_lease_id e; ee_unit_name e] in
  require ends_with ".service" (ee_unit_name e) else_raise EnvelopeError;;
  require negb (path_separator (ee_unit_name e)) else_raise EnvelopeError;;
  require 1 <=? ee_action_version e else_raise EnvelopeError;;
  require 1 <=? ee_fencing_token e else_raise EnvelopeError;;
  let* _ := rmap (λ ts, match fromisoformat ts with Ok d => Ok d | Raise _ => Raise EnvelopeError end)
    [ee_issued_at e; ee_expires_at e] in
  Ok e.

(** [now >= expires]: a text without an offset cannot be compared. *)
Definition envelope_is_expired (e : ExecutionEnvelope) (now : datetime) : result bool :=
  let* d := fromisoformat (ee_expires_at e) in
  match iso_offset d with
  | None => Raise TypeError
  | Some offset => Ok (iso_local d - offset <=? now)
  end.

Definition envelope_payload (e : ExecutionEnvelope) : json :=
  JObj [("protocol_version", JStr (ee_protocol_version e)); ("action_id", JStr (ee_action_id e));
        ("action_version", JInt (ee_action_version e)); ("capability_id", JStr (ee_capability_id e));
        ("capability_version", JStr (ee_capability_version e)); ("target_id", JStr (ee_target_id e));
        ("environment", JStr (ee_environment e)); ("unit_name", JStr (ee_unit_name e));
        ("contract_digest", JStr (ee_contract_digest e)); ("fencing_token", JInt (ee_fencing_token e));
        ("lease_id", JStr (ee_lease_id e)); ("issued_at", JStr (ee_issued_at e));
        ("expires_at", JStr (ee_expires_at e))].
Definition envelope_digest (e : ExecutionEnvelope) : string := sha256_hex (dumps (envelope_payload e)).

(** ** StandaloneSystemdExecutor *)

Record StandaloneRestartResult := {
  sx_action_id : string;
  sx_outcome : string;
  sx_provider_code : string;
  sx_evidence_reference : string;
}.

Definition envelope_key (e : ExecutionEnvelope) : string * Z := (ee_action_id e, ee_fencing_token e).

Section executor.
Context {D : Type} (runner : list string → M D SubprocessResult).
Context (policies : dict string SystemdRestartPolicy) (systemctl_path : string).
(** [self._policy], the entry the executor was made for. *)
Context (own : SystemdRestartPolicy).

#[local] Notation store := (executor_store D).

Definition on_host {A} (m : M D A) : M store A := λ s,
  let '(d', res) := m (xs_host s) in
  ({| xs_receipts := xs_receipts s; xs_host := d'; xs_dispatched := xs_dispatched s |}, res).

(** [_validate_envelope] *)
Definition validate_envelope (e : ExecutionEnvelope) (now : datetime) : result SystemdRestartPolicy :=
  let* expired := envelope_is_expired e now in
  require negb expired else_raise EnvelopeError;;
  let* policy := resolve_unit policies (sp_unit_id own) (ee_environment e) in
  require str_eqb (sp_target_id policy) (ee_target_id e) else_raise EnvelopeError;;
  require str_eqb (sp_environment policy) (ee_environment e) else_raise EnvelopeError;;
  Ok policy.

(** [_fail_receipt] *)
Definition fail_receipt (env : executor_env) (e : ExecutionEnvelope) (stage : string) : M store unit :=
  do_ attempt (on_receipts (complete (xe_complete_db env) (ee_action_id e) (ee_fencing_token e) MUTATION_FAILED
                              ("executor_error:" ++ stage) (xe_completed_at env) (xe_reload_db env)));;
  retM ().

(** Outcome and provider code of a run. *)
Definition classify_restart (r : SubprocessResult) : string * string :=
  if sb_timed_out r then ("unknown_outcome", "timeout")
  else if sb_returncode r =? 0 then ("succeeded", "restart_ok")
  else ("failed", "exit_" ++ pretty (sb_returncode r)).

(** The observation after a restart that returned 0: [verification_success],
    which nothing reads. *)
Definition post_verification (policy : SystemdRestartPolicy) (pre : SystemdUnitSnapshot) (moment : datetime)
  : M store bool :=
  catchM
    (do post <- on_host (observe_unit runner systemctl_path policy moment);;
     retM (str_eqb (us_load_state post) "loaded" && str_eqb (us_active_state post) "active" &&
           str_eqb (us_unit_id post) (us_unit_id pre)))
    (λ x, if bool_decide (x = SystemdRestartError) then Some (retM false) else None).

(** Steps 3 to 5. *)
Definition run_restart (env : executor_env) (e : ExecutionEnvelope) (moment : datetime)
  : M store (SystemdRestartPolicy * SystemdUnitSnapshot * SubprocessResult) :=
  catchM
    (do policy <- liftM (resolve_unit policies (sp_unit_id own) (ee_environment e));;
     do pre <- on_host (observe_unit runner systemctl_path policy moment);;
     do r <- dispatch (envelope_key e) (restart runner systemctl_path policy);;
     retM (policy, pre, r))
    (λ x, if bool_decide (x = SystemdRestartError)
          then Some (do_ fail_receipt env e "pre_provider";; raiseM x) else None).

Definition execute_restart (env : executor_env) (clock : datetime) (e : ExecutionEnvelope)
  : M store StandaloneRestartResult :=
  let moment := default clock (xe_now env) in
  do_ liftM (validate_envelope e moment);;
  do_ on_receipts (claim (xe_claim_db env) (xe_receipt_id env) (ee_action_id e) (ee_fencing_token e)
                     (ee_capability_id e) (ee_target_id e) (ee_contract_digest e) (xe_claimed_at env));;
  do x <- run_restart env e moment;;
  let '(policy, pre, r) := x in
  let '(outcome, provider_code) := classify_restart r in
  do_ on_receipts (complete (xe_complete_db env) (ee_action_id e) (ee_fencing_token e) (outcome_status outcome)
                     provider_code (xe_completed_at env) (xe_reload_db env));;
  do_ (if str_eqb outcome "succeeded" then do _v <- post_verification policy pre moment;; retM () else retM ());;
  retM {| sx_action_id := ee_action_id e; sx_outcome := outcome; sx_provider_code := provider_code;
          sx_evidence_reference := "systemd-restart:" ++ str_take 16 (ee_action_id e) ++ ":" ++ outcome |}.
End executor.

(** ** Lemmas *)

Section runs.
Context {D : Type}.
Implicit Types w : executor_store D.

Lemma on_receipts_run {A} (m : M receipts A) w w' r : on_receipts m w = (w', r) →
  ∃ t, m (xs_receipts w) = (t, r) ∧
    w' = {| xs_receipts := t; xs_host := xs_host w; xs_dispatched := xs_dispatched w |}.
Proof. unfold on_receipts. destruct (m _) as [t x] eqn:E. intros [= <- <-]. by exists t. Qed.
Lemma on_host_run {A} (m : M D A) w w' r : on_host m w = (w', r) →
  ∃ d, m (xs_host w) = (d, r) ∧
    w' = {| xs_receipts := xs_receipts w; xs_host := d; xs_dispatched := xs_dispatched w |}.
Proof. unfold on_host. destruct (m _) as [t x] eqn:E. intros [= <- <-]. by exists t. Qed.
Lemma dispatch_run {A} key (m : M D A) w w' r : dispatch key m w = (w', r) →
  ∃ d, m (xs_host w) = (d, r) ∧
    w' = {| xs_receipts := xs_receipts w; xs_host := d; xs_dispatched := key :: xs_dispatched w |}.
Proof. unfold dispatch. destruct (m _) as [t x] eqn:E. intros [= <- <-]. by exists t. Qed.

(** From the claim of [key] on: its row is created or was completed once, and
    its restart was dispatched at most once. *)
Definition after_claim (key : string * Z) (rec : MutationReceipt) w w' : Prop :=
  (xs_receipts w' = <[key := rec]> (xs_receipts w) ∨
   ∃ st code at_, xs_receipts w' = <[key := completed rec st code at_]> (xs_receipts w)) ∧
  (xs_dispatched w' = xs_dispatched w ∨ xs_dispatched w' = key :: xs_dispatched w).

Lemma complete_claimed db a f st code at_ dbg rec (w w1 w2 : executor_store D) res :
  xs_receipts w1 = <[(a, f) := rec]> (xs_receipts w) →
  (xs_dispatched w1 = xs_dispatched w ∨ xs_dispatched w1 = (a, f) :: xs_dispatched w) →
  on_receipts (complete db a f st code at_ dbg) w1 = (w2, res) → after_claim (a, f) rec w w2.
Proof.
  intros Hr Hd E. apply on_receipts_run in E as (t & E & ->).
  destruct (complete_cases db a f st code at_ dbg (xs_receipts w1)) as (t' & res' & E' & H).
  rewrite E in E'. injection E' as <- <-. split; [|done]. cbn.
  destruct H as [[-> _]|(r & Hl & _ & ->)]; [by left|right].
  rewrite Hr, lookup_insert_eq in Hl. injection Hl as <-. exists st, code, at_. by rewrite Hr, insert_insert_eq.
Qed.

Lemma after_claim_once (P : string * Z → Prop) key rec w w' : P key → xs_receipts w !! key = None →
  after_claim key rec w w' → dispatched_once P w w'.
Proof.
  intros HP Hn [Hr Hd]. assert (is_Some (xs_receipts w' !! key)) as Hk.
  { destruct Hr as [->|(st & code & at_ & ->)]; rewrite lookup_insert_eq; eauto. }
  split.
  - intros k rec' Hl. exists rec'. split; [|apply rtc_refl]. assert (k ≠ key) by (intros ->; congruence).
    destruct Hr as [->|(st & code & at_ & ->)]; by rewrite lookup_insert_ne.
  - destruct Hd as [->| ->].
    + exists []. split; [done|]. split; [constructor|]. by intros k ?%not_elem_of_nil.
    + exists [key]. split; [done|]. split; [apply NoDup_singleton|]. by intros k ->%list_elem_of_singleton.
Qed.
End runs.

(** ** What a call does *)

Section calls.
Context {D : Type} (runner : list string → M D SubprocessResult).
Context (policies : dict string SystemdRestartPolicy) (systemctl_path : string) (own : SystemdRestartPolicy).
Implicit Types w : executor_store D.
#[local] Notation execute := (execute_restart runner policies systemctl_path own).
#[local] Notation observe := (observe_unit runner systemctl_path).

(** The allow-listed unit of the executor was observed, and then restarted with
    the result [r], from the host [d] to [d']. *)
Definition restarted (e : ExecutionEnvelope) (moment : datetime) (policy : SystemdRestartPolicy)
    (pre : SystemdUnitSnapshot) (r : SubprocessResult) (d d' : D) : Prop :=
  dget (sp_unit_id own) policies = Some policy ∧ sp_environment policy = ee_environment e ∧
  ∃ d1, observe policy moment d = (d1, Ok pre) ∧ runner (restart_command systemctl_path policy) d1 = (d', Ok r).

Lemma resolve_unit_Ok unit_id environment policy : resolve_unit policies unit_id environment = Ok policy →
  dget unit_id policies = Some policy ∧ sp_environment policy = environment.
Proof.
  unfold resolve_unit. intros H. inv_ok. destruct (dget unit_id policies) as [q|] eqn:E; [|done]. inv_ok.
  split; [done|]. by apply str_eqb_true.
Qed.

Lemma run_restart_cases env e moment rec w w1 w2 res :
  run_restart runner policies systemctl_path own env e moment w1 = (w2, res) →
  xs_receipts w1 = <[envelope_key e := rec]> (xs_receipts w) → xs_dispatched w1 = xs_dispatched w →
  after_claim (envelope_key e) rec w w2 ∧
  ∀ policy pre r, res = Ok (policy, pre, r) →
    restarted e moment policy pre r (xs_host w1) (xs_host w2) ∧ xs_receipts w2 = xs_receipts w1 ∧
    xs_dispatched w2 = envelope_key e :: xs_dispatched w.
Proof.
  unfold run_restart, catchM. destruct (bindM _ _ w1) as [wi ri] eqn:E. intros H Hr Hd.
  assert (xs_receipts wi = xs_receipts w1 ∧
    (xs_dispatched wi = xs_dispatched w ∨ xs_dispatched wi = envelope_key e :: xs_dispatched w) ∧
    ∀ policy pre r, ri = Ok (policy, pre, r) →
      restarted e moment policy pre r (xs_host w1) (xs_host wi) ∧ xs_dispatched wi = envelope_key e :: xs_dispatched w)
    as (Hri & Hdi & Hok).
  { unfold bindM, liftM, retM in E. destruct (resolve_unit _ _ _) as [policy|x] eqn:Er.
    2:{ injection E as <- <-. split_and!; [done|by left|by intros]. }
    destruct (on_host _ w1) as [wa [pre|x]] eqn:Ea; apply on_host_run in Ea as (d1 & Ea & ->).
    2:{ injection E as <- <-. split_and!; [done|by left|by intros]. }
    destruct (dispatch _ _ _) as [wb [r|x]] eqn:Eb; apply dispatch_run in Eb as (d2 & Eb & ->);
      injection E as <- <-; cbn; rewrite Hd.
    2:{ split_and!; [done|by right|by intros]. }
    split_and!; [done|by right|]. intros policy' pre' r' [= <- <- <-]. apply resolve_unit_Ok in Er as [? ?].
    split; [|done]. split_and!; [done..|]. by exists d1. }
  assert (∀ y, ri = y → after_claim (envelope_key e) rec w wi) as Hafter.
  { intros _ _. split; [|done]. left. congruence. }
  destruct ri as [x|x]; [|destruct (bool_decide (x = SystemdRestartError))].
  - injection H as <- <-. split; [by eapply Hafter|]. intros policy pre r [= ->].
    destruct (Hok _ _ _ eq_refl) as [H1 H2]. split; [exact H1|]. by split; [exact Hri|exact H2].
  - unfold fail_receipt, attempt, bindM, raiseM, retM in H.
    destruct (on_receipts _ wi) as [wf rf] eqn:Ef.
    assert (after_claim (envelope_key e) rec w wf) as Ha by (eapply complete_claimed; [exact (eq_trans Hri Hr)|exact Hdi|exact Ef]).
    destruct rf; injection H as <- <-; by split.
  - injection H as <- <-. split; [by eapply Hafter|done].
Qed.

Lemma post_verification_books policy pre moment w w' r :
  post_verification runner systemctl_path policy pre moment w = (w', r) →
  xs_receipts w' = xs_receipts w ∧ xs_dispatched w' = xs_dispatched w.
Proof.
  unfold post_verification, catchM, bindM, retM. destruct (on_host _ w) as [w1 [post|x]] eqn:E;
    apply on_host_run in E as (d & _ & ->).
  - by intros [= <- <-].
  - destruct (bool_decide _); by intros [= <- <-].
Qed.

(** Completing the claimed row. *)
Lemma complete_run env e outcome code rec w w2 w3 res :
  xs_receipts w2 = <[envelope_key e := rec]> (xs_receipts w) →
  on_receipts (complete (xe_complete_db env) (ee_action_id e) (ee_fencing_token e) (outcome_status outcome) code
                 (xe_completed_at env) (xe_reload_db env)) w2 = (w3, res) →
  (∃ x, res = Raise x) ∨
  ∃ y, res = Ok y ∧
    xs_receipts w3 = <[envelope_key e := completed rec (outcome_status outcome) code (xe_completed_at env)]> (xs_receipts w) ∧
    xs_host w3 = xs_host w2 ∧ xs_dispatched w3 = xs_dispatched w2.
Proof.
  intros Hr E. apply on_receipts_run in E as (t & E & ->). destruct res as [y|x]; [right|left; eauto]. exists y.
  destruct (complete_cases (xe_complete_db env) (ee_action_id e) (ee_fencing_token e) (outcome_status outcome) code
              (xe_completed_at env) (xe_reload_db env) (xs_receipts w2)) as (t' & res' & E' & Hc).
  rewrite E in E'. injection E' as <- <-. destruct Hc as [[_ [? [=]]]|(rec' & Hl & _ & ->)].
  rewrite Hr, lookup_insert_eq in Hl. injection Hl as <-. split_and!; [done| |done..]. cbn. by rewrite Hr, insert_insert_eq.
Qed.
Lemma validated_unit e now policy0 policy : validate_envelope policies own e now = Ok policy0 →
  dget (sp_unit_id own) policies = Some policy → policy0 = policy.
Proof.
  intros H Hp. unfold validate_envelope in H. inv_ok.
  match goal with H : resolve_unit _ _ _ = Ok _ |- _ => apply resolve_unit_Ok in H as [? _] end. congruence.
Qed.

(** A restart that is reported.  The envelope was unexpired and for the
    executor's own unit, its pair had no receipt; that unit was observed and
    then restarted once; answer and receipt say what [systemctl] came to.  A
    call that raises changed nothing, or claimed the pair and restarted at most
    once. *)
Theorem restart_settles env clock e w w' res : execute env clock e w = (w', res) →
  (w' = w ∧ ∃ x, res = Raise x) ∨
  ∃ rec, xs_receipts w !! envelope_key e = None ∧ mr_mutation_status rec = RECEIPT_CREATED ∧
    after_claim (envelope_key e) rec w w' ∧
    ∀ x, res = Ok x → ∃ policy pre r d1,
      validate_envelope policies own e (default clock (xe_now env)) = Ok policy ∧
      restarted e (default clock (xe_now env)) policy pre r (xs_host w) d1 ∧
      classify_restart r = (sx_outcome x, sx_provider_code x) ∧ sx_action_id x = ee_action_id e ∧
      (sx_outcome x ≠ "succeeded" → xs_host w' = d1) ∧
      xs_dispatched w' = envelope_key e :: xs_dispatched w ∧
      xs_receipts w' = <[envelope_key e := completed rec (outcome_status (sx_outcome x)) (sx_provider_code x)
                           (xe_completed_at env)]> (xs_receipts w).
Proof.
  unfold execute_restart. unfold bindM at 1, liftM at 1.
  destruct (validate_envelope _ _ _ _) as [policy0|x] eqn:Ev; [|intros [= <- <-]; left; eauto].
  unfold bindM at 1. destruct (on_receipts _ w) as [w1 [rec|x]] eqn:Ec; apply on_receipts_run in Ec as (t & Ec & ->).
  2:{ intros [= <- <-]. left. apply claim_atomic in Ec as ->. split; [by destruct w|eauto]. }
  apply claim_Ok in Ec as (Hn & -> & _ & _ & Hst & _). intros H. right. exists rec. split; [done|]. split; [done|].
  unfold bindM at 1 in H. destruct (run_restart _ _ _ _ _ _ _ _) as [w2 [[[policy pre] r]|x]] eqn:Er.
  2:{ apply (run_restart_cases _ _ _ rec w) in Er as [Hafter _]; [|done..]. by injection H as <- <-. }
  apply (run_restart_cases _ _ _ rec w) in Er as [_ Hok]; [|done..].
  destruct (Hok _ _ _ eq_refl) as (Hrun & Hr2 & Hd2). cbn [xs_receipts xs_host] in Hr2, Hrun.
  assert (policy0 = policy) as -> by (eapply validated_unit; [exact Ev|apply Hrun]).
  destruct (classify_restart r) as [outcome code] eqn:Ecl. unfold bindM at 1 in H. destruct (on_receipts _ w2) as [w3 res3] eqn:E3.
  pose proof (complete_claimed _ _ _ _ _ _ _ rec w _ _ _ Hr2 (or_intror Hd2) E3) as H3.
  destruct (complete_run env e outcome code rec w w2 w3 res3 Hr2 E3) as [[y ->]|(y & -> & Hr3 & Hh3 & Hd3)].
  { by injection H as <- <-. }
  unfold bindM at 1 in H. destruct (str_eqb outcome "succeeded") eqn:Eo.
  2:{ injection H as <- <-. split; [done|]. intros x [= <-]. exists policy, pre, r, (xs_host w2).
      cbn. rewrite Hr3, Hh3, Hd3. do 2 (split; [done|]). by split_and!. }
  unfold bindM, retM in H. destruct (post_verification _ _ _ _ _ w3) as [w4 [v|v]] eqn:E4;
    apply post_verification_books in E4 as [B1 B2]; injection H as <- <-; unfold after_claim; rewrite B1, B2; (split; [done|]); [|done].
  intros x [= <-]. apply str_eqb_true in Eo. exists policy, pre, r, (xs_host w2). cbn. rewrite Hr3, Hd3.
  do 2 (split; [done|]). by split_and!.
Qed.

(** The calls of a run of the process, each with what it draws from outside. *)
Fixpoint run_restarts (cs : list (executor_env * datetime * ExecutionEnvelope))
  : M (executor_store D) (list (StandaloneRestartResult + exn)) :=
  match cs with
  | [] => retM []
  | (env, clock, e) :: cs' =>
      do r <- attempt (execute env clock e);;
      do rs <- run_restarts cs';;
      retM (r :: rs)
  end.

(** Whatever calls are made, returning or raising, the pairs of action and
    fencing token whose unit was restarted are distinct, come from envelopes
    that were given, had no receipt before and have one afterwards. *)
Theorem restarts_happen_once cs w :
  dispatched_once (λ k, k ∈ List.map (λ c, envelope_key (snd c)) cs) w (run_restarts cs w).1.
Proof.
  set (P := λ k, k ∈ List.map (λ c : executor_env * datetime * ExecutionEnvelope, envelope_key (snd c)) cs).
  assert (∀ cs', cs' ⊆ cs → keeps (dispatched_once P) (run_restarts cs')) as H.
  { induction cs' as [|[[env clock] e] cs' IH]; intros Hsub; [by intros w1 w2 res [= <- _]|].
    intros w1. cbn [run_restarts]. apply keeps_from_bind; [apply _| |].
    - intros w2 r E. unfold attempt in E. destruct (execute env clock e w1) as [w3 r3] eqn:E3.
      assert (w3 = w2) as -> by (destruct r3; by injection E). apply restart_settles in E3 as [[-> _]|(rec & Hn & _ & Ha & _)].
      + reflexivity.
      + eapply after_claim_once; [|exact Hn|exact Ha]. unfold P. apply list_elem_of_In, List.in_map_iff.
        exists (env, clock, e). split; [done|]. apply list_elem_of_In, Hsub. by left.
    - intros r w2 _ _. apply keeps_from_bind; [apply _|apply IH; set_solver|]. intros rs w3 _ _. by intros w4 res [= <- _]. }
  destruct (run_restarts cs w) as [w' res] eqn:E. by eapply (H cs).
Qed.
End calls.

(** Two envelopes with one digest are one, unless their canonical texts are an
    explicit SHA-256 collision. *)
Theorem envelope_digest_binds e1 e2 : envelope_digest e1 = envelope_digest e2 →
  e1 = e2 ∨ collision (dumps (envelope_payload e1)) (dumps (envelope_payload e2)).
Proof.
  intros E. destruct (decide (dumps (envelope_payload e1) = dumps (envelope_payload e2))) as [H|H]; [left|by right].
  unfold envelope_payload in H. canon_inv H. destruct e1, e2; cbn in *. by subst.
Qed.
