(* ===== verification/ServiceState.v ===== *)
(** * ServiceState: the state of the control-plane service (control_plane/service.py)

    [OwnerControlPlaneService] composes the authenticator, the sessions, the
    action repository with its ledger and plans, the kill switches and the
    evidence of authorized service plans.  [service] is what those objects hold,
    with the outside world behind the update runtime; the [on_] functions run an
    operation of one component on its part.  This file holds the calls that
    concern the owner and the sessions, and the read views. *)

From S2P Require Import Prelude PyStr PyText PyDict PyTime Json Models Lifecycle ProjectPlan Identity Policy.
From S2P Require Import Confirmation AuditLedger AuditBuilders KillSwitch Verification ActionRepo ActionSpec.
From S2P Require Import Contract Gate Executor Session OwnerAuth ServicePlan.
From Stdlib Require Import Ascii String ZArith Lia.
From stdpp Require Import base strings gmap list.

Local Open Scope string_scope.
Local Open Scope Z_scope.
Local Open Scope aipm_scope.

#[export] Instance PlanningErrorCode_value : EnumValue PlanningErrorCode := λ c,
  match c with
  | INVALID_REQUEST => "invalid_request" | UNSUPPORTED_OPERATION => "unsupported_operation"
  | UNAVAILABLE_TARGET => "unavailable_target" | UNAVAILABLE_EVIDENCE => "unavailable_evidence"
  | STALE_EVIDENCE => "stale_evidence" | INVALID_PLAN => "invalid_plan" | EXPIRED_PLAN => "expired_plan"
  | CONFIRMATION_MISMATCH => "confirmation_mismatch" | SESSION_INVALID => "session_invalid"
  | AUTHENTICATION_REJECTED => "authentication_rejected" | IDEMPOTENCY_CONFLICT => "idempotency_conflict"
  | STATE_CONFLICT => "state_conflict" | STORAGE_CORRUPT => "storage_corrupt"
  end.

(** [DryRunMutationRecord] of control_plane/bridge *)
Record DryRunMutationRecord := {
  dm_action_id : string;
  dm_target_id : string;
  dm_environment : string;
  dm_plan_id : string;
  dm_pre_mutation_revision : Z;
  dm_pre_mutation_digest : string;
  dm_mutation_fields : list (string * string);
  dm_lease_id : string;
  dm_fencing_token : Z;
  dm_operation : string;
  dm_recorded_at : string;
}.

(** The mutable state, with the world [E] behind the update runtime. *)
Record service (E : Type) := {
  sv_auth : authenticator;
  sv_sessions : session_store;
  sv_repo : repo;
  sv_switches : option kill_store;
  sv_evidence : dict string ServiceEvidenceContract;
  sv_dry_runs : list DryRunMutationRecord;
  sv_world : E;
}.
Arguments sv_auth {E}. Arguments sv_sessions {E}. Arguments sv_repo {E}. Arguments sv_switches {E}.
Arguments sv_evidence {E}. Arguments sv_dry_runs {E}. Arguments sv_world {E}.

(** What the service was built with. *)
Record service_config := {
  cf_verify_secret : string → bool;
  cf_max_failures : Z;
  cf_lockout_seconds : Z;
  cf_principal_lifetime : timedelta;
  cf_subject : string;
  cf_issuer : string;
  cf_policy : AuthorizationPolicy;
  cf_max_bindings : Z;
  cf_planner_targets : list string;
  cf_switches_audited : bool;
  cf_ipc_mode : bool;
  (** [last_lease] of the action repository: the SQLite repository has it, the
      in-memory one has not *)
  cf_last_lease : option (repo → string → option ExecutionLease);
  cf_dry_run_sink : bool;
}.

(** An answer of the executor about a receipt. *)
Record receipt_answer := { ra_mutation_status : json; ra_provider_code : json; ra_evidence : json }.

(** The injected ports, as they answer during one call.  The update runtime
    answers with a dictionary or with anything else ([None]). *)
Record ports (E : Type) := {
  pt_registrations : option (string → string → bool → result (option ProjectRegistration));
  pt_verifier : option (ExecutionContract → ServiceEvidenceContract → datetime → result GateCode.t);
  pt_service_plan : option (string → string → result ServiceUpdatePlan);
  (** [current_plan_digest]: the digest, or a value that is no string *)
  pt_plan_digest : option (string → result (option string));
  pt_digest_plan_service : option (string → string → result ServiceUpdatePlan);
  (** the executor client, and its [query_receipt] if it has one *)
  pt_ipc_client : option (option (string → Z → result (option receipt_answer)));
  pt_update_runtime : option (UpdateExecutionBinding → M E (option (dict string json)));
}.
Arguments pt_registrations {E}. Arguments pt_verifier {E}. Arguments pt_service_plan {E}.
Arguments pt_plan_digest {E}. Arguments pt_digest_plan_service {E}. Arguments pt_ipc_client {E}.
Arguments pt_update_runtime {E}.

(** What one call draws: the optional [now], clock readings and random text. *)
Record call_env := { cv_now : option datetime; cv_clock : nat → datetime; cv_random : nat → string }.
Definition at_ (v : call_env) (i : nat) : datetime := utc (cv_clock v) (cv_now v) i.
(** The environment of a call within a call. *)
Definition nested (k : nat) (v : call_env) : call_env :=
  {| cv_now := cv_now v; cv_clock := λ i, cv_clock v (k + i)%nat; cv_random := λ i, cv_random v (k + i)%nat |}.

Definition control_plane_error {S A} (code : PlanningErrorCode) : M S A := raiseM (ControlPlaneError code).

(** ** Components of the state *)

Section service.
Context {E : Type}.
Notation W := (service E).

Definition with_auth (x : authenticator) (w : W) : W :=
  {| sv_auth := x; sv_sessions := sv_sessions w; sv_repo := sv_repo w; sv_switches := sv_switches w;
     sv_evidence := sv_evidence w; sv_dry_runs := sv_dry_runs w; sv_world := sv_world w |}.
Definition with_session_store (x : session_store) (w : W) : W :=
  {| sv_auth := sv_auth w; sv_sessions := x; sv_repo := sv_repo w; sv_switches := sv_switches w;
     sv_evidence := sv_evidence w; sv_dry_runs := sv_dry_runs w; sv_world := sv_world w |}.
Definition with_repo (x : repo) (w : W) : W :=
  {| sv_auth := sv_auth w; sv_sessions := sv_sessions w; sv_repo := x; sv_switches := sv_switches w;
     sv_evidence := sv_evidence w; sv_dry_runs := sv_dry_runs w; sv_world := sv_world w |}.
Definition with_switches (x : option kill_store) (w : W) : W :=
  {| sv_auth := sv_auth w; sv_sessions := sv_sessions w; sv_repo := sv_repo w; sv_switches := x;
     sv_evidence := sv_evidence w; sv_dry_runs := sv_dry_runs w; sv_world := sv_world w |}.
Definition with_evidence (x : dict string ServiceEvidenceContract) (w : W) : W :=
  {| sv_auth := sv_auth w; sv_sessions := sv_sessions w; sv_repo := sv_repo w; sv_switches := sv_switches w;
     sv_evidence := x; sv_dry_runs := sv_dry_runs w; sv_world := sv_world w |}.
Definition with_dry_runs (x : list DryRunMutationRecord) (w : W) : W :=
  {| sv_auth := sv_auth w; sv_sessions := sv_sessions w; sv_repo := sv_repo w; sv_switches := sv_switches w;
     sv_evidence := sv_evidence w; sv_dry_runs := x; sv_world := sv_world w |}.
Definition with_world (x : E) (w : W) : W :=
  {| sv_auth := sv_auth w; sv_sessions := sv_sessions w; sv_repo := sv_repo w; sv_switches := sv_switches w;
     sv_evidence := sv_evidence w; sv_dry_runs := sv_dry_runs w; sv_world := x |}.

(** Run a computation of a component on its part of the state. *)
Definition on {S A : Type} (part : W → S) (put : S → W → W) (m : M S A) : M W A := λ w,
  let '(s, r) := m (part w) in (put s w, r).
Definition on_auth {A : Type} : M authenticator A → M W A := on sv_auth with_auth.
Definition on_sessions {A : Type} : M session_store A → M W A := on sv_sessions with_session_store.
Definition on_repo {A : Type} : M repo A → M W A := on sv_repo with_repo.
Definition on_world {A : Type} : M E A → M W A := on sv_world with_world.

(** The registry writes its events to the ledger of the service. *)
Definition sharing (s : repo) (k : kill_store) : kill_store :=
  {| kst_records := kst_records k;
     kst_audit := match kst_audit k with Some _ => rp_audit s | None => None end |}.
Definition on_switches {A : Type} (m : M kill_store A) : M W A := λ w,
  match sv_switches w with
  | None => (w, Raise (ControlPlaneError SESSION_INVALID))
  | Some k =>
      let '(k', r) := m (sharing (sv_repo w) k) in
      let repo' := match kst_audit k' with Some l => set_audit (Some l) (sv_repo w) | None => sv_repo w end in
      (with_switches (Some k') (with_repo repo' w), r)
  end.

Variables (cf : service_config) (v : call_env).

(** [self._audit.append(...)] *)
Definition audit (d : result AuditEventDraft) : M W unit :=
  do draft <- liftM d;; on_repo (append_evidence [draft]).

(** ** Authentication and sessions *)

Definition login (secret : string) : M W OwnerSession :=
  let moment := at_ v 0 in
  do r <- on_auth (authenticate (cf_verify_secret cf) (cf_max_failures cf) (cf_lockout_seconds cf)
                     (cf_principal_lifetime cf) (cf_subject cf) (cf_issuer cf) secret (at_ v 1));;
  match ar_accepted r, ar_principal r with
  | true, Some principal =>
      do_ audit (authentication_success (cv_random v 0) (pr_subject principal) moment);;
      do_ audit (session_created (cv_random v 1) (pr_subject principal) moment);;
      on_sessions (create_session (cv_random v 2) (cv_random v 3) principal (at_ v 2))
  | _, _ =>
      do_ audit (authentication_failure (cv_random v 0) (failure_reason_value (ar_reason r)) moment);;
      control_plane_error AUTHENTICATION_REJECTED
  end.

(** [session]; [i] is the clock reading of the session store. *)
Definition session_of (i : nat) (session_id : string) : M W OwnerSession :=
  do found <- on_sessions (get_session session_id (at_ v i));;
  match found with Some x => retM x | None => control_plane_error SESSION_INVALID end.

Definition logout (session_id : string) : M W unit :=
  let moment := at_ v 0 in
  do found <- on_sessions (get_session session_id (at_ v 1));;
  do_ match found with
      | Some x => audit (session_revoked (cv_random v 0) (pr_subject (se_principal x)) moment)
      | None => retM ()
      end;;
  on_sessions (revoke_session session_id).

Definition rotate_credentials : M W Z :=
  do epoch <- on_auth rotate_auth_epoch;;
  do_ on_sessions rotate_store_epoch;;
  do_ audit (credential_epoch_rotated (cv_random v 0) (at_ v 0) epoch);;
  retM epoch.

(** ** The kill switches *)

(** [self._kill_switches.permits(environment)] and [.switch(environment)] *)
Definition switch_posture (environment : string) : M W (option KillSwitch) :=
  do w <- getM;;
  match sv_switches w with
  | None => retM None
  | Some _ =>
      do e <- liftM (environment_of environment);;
      do k <- on_switches (switch e (cv_clock v 9));;
      retM (Some k)
  end.

(** [_ensure_operation_permitted] *)
Definition ensure_operation_permitted (environment : string) : M W unit :=
  do k <- switch_posture environment;;
  assert_ match k with Some k => permits_operations k | None => true end
    else_raise ControlPlaneError UNAVAILABLE_TARGET;;
  retM ().

(** The epoch a contract carries. *)
Definition switch_epoch (environment : string) : M W Z :=
  do k <- switch_posture environment;; retM (match k with Some k => ks_epoch k | None => 1 end).

(** [kill_switch_status]: environment, state, epoch and verdict of each record *)
Definition kill_switch_status : M W (list (Environment * KillSwitchState * Z * bool)) :=
  do w <- getM;;
  match sv_switches w with
  | None => control_plane_error SESSION_INVALID
  | Some k => retM (List.map (λ r, (ks_environment r, ks_state r, ks_epoch r, permits_operations r))
                      (dvalues (kst_records k)))
  end.

Definition engage_kill_switch (actor_subject reason : string) : M W KillSwitch :=
  on_switches (engage (cf_switches_audited cf) STAGING reason (Some (at_ v 0)) (Some actor_subject) (cv_random v 0) (cv_clock v 1)).
Definition disengage_kill_switch (actor_subject reason : string) : M W KillSwitch :=
  on_switches (disengage (cf_switches_audited cf) STAGING reason (Some (at_ v 0)) (Some actor_subject) (cv_random v 0) (cv_clock v 1)).

End service.
