(* ===== verification/ServiceFlow.v ===== *)
(** * ServiceFlow: from a request to a captured snapshot (control_plane/service.py)

    [authorize], [confirm], [capture_snapshot], [record_verification],
    [plan_rollback], [request_rollback] and the read views of
    [OwnerControlPlaneService].  Each is guarded by a session; the writes go
    through the action repository and its ledger. *)

From S2P Require Import Prelude PyStr PyText PyDict PyTime Json Models Lifecycle ProjectPlan Identity Policy.
From S2P Require Import Confirmation AuditLedger AuditBuilders KillSwitch Verification Rollback ActionRepo.
From S2P Require Import ActionSpec Contract Gate Executor Session OwnerAuth ServicePlan ServiceState.
From Stdlib Require Import Ascii String ZArith Lia.
From stdpp Require Import base strings gmap list.

Local Open Scope string_scope.
Local Open Scope Z_scope.
Local Open Scope aipm_scope.

Section flow.
Context {E : Type}.
Notation W := (service E).
Variables (py : py_values) (cf : service_config) (pt : ports E).

(** ** Authorization *)

(** The plan of a target known only by its registration. *)
Definition registered_plan (r : ProjectRegistration) : ProjectPlan :=
  {| pp_target_id := rg_target_id r;
     pp_environment := if str_eqb (rg_environment r) "production" then PRODUCTION else STAGING;
     pp_revision := 1; pp_title := "Project plan for " ++ rg_target_id r;
     pp_objective := "Manage registered project " ++ rg_target_id r ++ " in " ++ rg_environment r;
     pp_created_at := rg_registered_at r;
     pp_updated_at := default (rg_registered_at r) (rg_updated_at r);
     pp_enabled := is_active r; pp_canonical_digest := rg_registration_digest r |}.

(** The registration of a target, in production first. *)
Definition find_registration (target_id : string) : option ProjectRegistration :=
  match pt_registrations pt with
  | None => None
  | Some get =>
      match get target_id "production" true with
      | Ok (Some r) => Some r
      | Ok None => match get target_id "staging" true with Ok found => found | Raise _ => None end
      | Raise _ => None
      end
  end.

(** [_read_current_plan] *)
Definition read_current_plan (target_id : string) : M W (option ProjectPlan) :=
  do p <- on_repo (attempt (read_plan target_id));;
  match p with
  | inl plan => retM (Some plan)
  | inr ProjectPlanError => retM (registered_plan <$> find_registration target_id)
  | inr e => raiseM e
  end.

(** The lifecycle value an allowed decision is registered with. *)
Definition requested_action (decision : AuthorizationDecision) (identity : ActionIdentity) (request : ActionRequest)
    (refs : option (string * string)) : result ActionLifecycle :=
  let* scope := check_ActionScope
    {| sc_target_id := id_target_id identity; sc_environment := id_environment identity;
       sc_policy_version := id_policy_version identity |} in
  let* requested := check_ActionLifecycle
    {| lc_action_id := id_action_id identity; lc_plan_id := id_plan_id identity;
       lc_plan_digest := id_plan_digest identity; lc_operation := req_operation request; lc_scope := scope;
       lc_state := REQUESTED; lc_requester_subject := id_requester_subject identity;
       lc_action_protocol := "mc616d2-v1"; lc_confirmation_kind := OWNER_CONFIRMATION; lc_approver_subject := None;
       lc_idempotency_key := req_idempotency_key request; lc_created_at := ad_decided_at decision;
       lc_expires_at := ad_expires_at decision; lc_version := 0; lc_decision_id := ad_decision_id decision;
       lc_plan_revision := id_target_revision identity; lc_rollback_of_action_id := fst <$> refs;
       lc_snapshot_id := snd <$> refs |} in
  let* planned := advance requested PLANNED (Some (ad_decided_at decision)) None in
  advance planned CONFIRMATION_REQUIRED (Some (ad_decided_at decision)) None.

(** [_register_allowed_action] *)
Definition register_allowed_action (v : call_env) (decision : AuthorizationDecision) (request : ActionRequest)
    (principal : OwnerPrincipal) (extra : list AuditEventDraft) (refs : option (string * string)) : M W unit :=
  match ad_action_identity decision with
  | None => control_plane_error INVALID_REQUEST
  | Some identity =>
      let moment := at_ v 4 in
      let actor := pr_subject principal in
      do a <- liftM (requested_action decision identity request refs);;
      do created <- liftM (action_created (cv_random v 2) actor moment decision
                             (value REQUESTED) (value CONFIRMATION_REQUIRED));;
      do planned <- liftM (lifecycle_transition (cv_random v 3) actor moment decision (value REQUESTED) (value PLANNED));;
      do required <- liftM (lifecycle_transition (cv_random v 4) actor moment decision
                              (value PLANNED) (value CONFIRMATION_REQUIRED));;
      on_repo (register_action decision a ([created; planned; required] ++ extra)%list)
  end.

(** The stored decision of an action, if it carries its request. *)
Definition stored_request (a : ActionLifecycle) (s : repo) : option (AuthorizationDecision * ActionRequest) :=
  if str_nonempty (lc_decision_id a) then
    match get_decision (lc_decision_id a) s with
    | Some d => match ad_request d with Some r => Some (d, r) | None => None end
    | None => None
    end
  else None.

(** An action is already registered under the key of the request. *)
Definition replay_or_conflict (v : call_env) (actor : string) (request : ActionRequest) (existing : ActionLifecycle)
  : M W AuthorizationDecision :=
  do w <- getM;;
  match stored_request existing (sv_repo w) with
  | Some (stored, r) =>
      if str_eqb (request_canonical r) (request_canonical request) then
        do_ audit (action_idempotency_replay (cv_random v 0) actor (at_ v 1) (lc_action_id existing)
                     (ad_decision_id stored));;
        retM stored
      else
        do_ audit (action_idempotency_conflict (cv_random v 0) actor (at_ v 1));;
        control_plane_error IDEMPOTENCY_CONFLICT
  | None =>
      do_ audit (action_idempotency_conflict (cv_random v 0) actor (at_ v 1));;
      control_plane_error IDEMPOTENCY_CONFLICT
  end.

(** A request without a registered action: plan, decide, record. *)
Definition decide_request (v : call_env) (principal : OwnerPrincipal) (request : ActionRequest)
    (extra : list AuditEventDraft) (refs : option (string * string)) : M W AuthorizationDecision :=
  let actor := pr_subject principal in
  do plan <- liftM (build_evidence_neutral_plan request (cv_clock v 2) (cf_planner_targets cf));;
  do current <- read_current_plan (req_target_id request);;
  do decision <- liftM (Policy.authorize (cf_policy cf) (Some principal) request plan current (cv_now v));;
  if ad_allowed decision then
    do_ audit (authorization_allowed (cv_random v 1) actor (at_ v 1) decision);;
    do_ register_allowed_action v decision request principal extra refs;;
    retM decision
  else
    do_ audit (authorization_denied (cv_random v 1) (Some actor) (at_ v 1) decision);;
    retM decision.

(** [authorize] *)
Definition authorize_request (v : call_env) (session_id : string) (request : ActionRequest)
    (extra : list AuditEventDraft) (refs : option (string * string)) : M W AuthorizationDecision :=
  do session <- session_of v 0 session_id;;
  let principal := se_principal session in
  do_ ensure_operation_permitted v (req_environment request);;
  do w <- getM;;
  match find_action_by_idempotency (req_target_id request) (value (req_operation request))
          (req_idempotency_key request) (sv_repo w) with
  | Some existing => replay_or_conflict v (pr_subject principal) request existing
  | None => decide_request v principal request extra refs
  end.

(** ** Explicit owner confirmation *)

Definition confirm_drafts (v : call_env) (actor : string) (pending confirmed : ConfirmationBinding)
    (from : LifecycleState) : result (list AuditEventDraft) :=
  let moment := at_ v 1 in
  let* requested := owner_confirmation_requested (cv_random v 1) (cb_requester_subject confirmed) moment pending in
  let* given := owner_confirmed (cv_random v 2) actor moment confirmed in
  let* moved := lifecycle_transition_confirmed (cv_random v 3) actor moment confirmed (value from) (value CONFIRMED) in
  Ok [requested; given; moved].

(** [confirm] *)
Definition confirm_decision (v : call_env) (session_id decision_id : string) : M W ConfirmationBinding :=
  assert_ str_nonempty decision_id else_raise ControlPlaneError CONFIRMATION_MISMATCH;;
  do session <- session_of v 0 session_id;;
  let actor := pr_subject (se_principal session) in
  do w <- getM;;
  match get_decision decision_id (sv_repo w) with
  | None => control_plane_error CONFIRMATION_MISMATCH
  | Some decision =>
      assert_ negb (ad_is_expired decision (at_ v 2)) else_raise ControlPlaneError EXPIRED_PLAN;;
      do pending <- on_repo (request_confirmation (cf_max_bindings cf) decision
                               (default EmptyString (ad_principal_subject decision)) (at_ v 3));;
      do confirmed <- catchM (on_repo (build_confirmation pending actor (at_ v 4))) (λ e,
        match e with
        | ControlPlaneError code => Some (
            do_ audit (owner_confirmation_rejected (cv_random v 0) actor (at_ v 1) decision (value code));;
            raiseM e)
        | _ => None
        end);;
      do w1 <- getM;;
      match get_action (cb_action_id confirmed) (sv_repo w1) with
      | None => control_plane_error STORAGE_CORRUPT
      | Some lifecycle =>
          do drafts <- liftM (confirm_drafts v actor pending confirmed (lc_state lifecycle));;
          do_ on_repo (record_confirmation_with_advance confirmed
            {| lt_action_id := cb_action_id confirmed; lt_expected_version := lc_version lifecycle;
               lt_next_state := CONFIRMED; lt_approver_subject := actor; lt_now := at_ v 5 |} drafts);;
          retM confirmed
      end
  end.

(** [confirm_action] *)
Definition confirm_action (v : call_env) (session_id action_id : string) : M W ConfirmationBinding :=
  assert_ str_nonempty action_id else_raise ControlPlaneError CONFIRMATION_MISMATCH;;
  do w <- getM;;
  match get_action action_id (sv_repo w) with
  | None => control_plane_error CONFIRMATION_MISMATCH
  | Some a =>
      assert_ str_nonempty (lc_decision_id a) else_raise ControlPlaneError CONFIRMATION_MISMATCH;;
      confirm_decision v session_id (lc_decision_id a)
  end.

(** ** Snapshots and verification *)

(** The action a call names. *)
Definition named_action (action_id : string) : M W ActionLifecycle :=
  do w <- getM;;
  match get_action action_id (sv_repo w) with
  | Some a => retM a
  | None => control_plane_error CONFIRMATION_MISMATCH
  end.

(** The decision an action refers to. *)
Definition decision_of (a : ActionLifecycle) (s : repo) : option AuthorizationDecision :=
  if str_nonempty (lc_decision_id a) then get_decision (lc_decision_id a) s else None.

(** [capture_snapshot] *)
Definition capture_snapshot (v : call_env) (session_id action_id : string) : M W PlanSnapshot :=
  do session <- session_of v 0 session_id;;
  do a <- named_action action_id;;
  assert_ bool_decide (lc_state a = CONFIRMED) else_raise ControlPlaneError STATE_CONFLICT;;
  do_ ensure_operation_permitted v (sc_environment (lc_scope a));;
  do w <- getM;;
  match decision_of a (sv_repo w) with
  | None => control_plane_error STORAGE_CORRUPT
  | Some decision =>
      do current <- read_current_plan (sc_target_id (lc_scope a));;
      match current with
      | None => control_plane_error STALE_EVIDENCE
      | Some plan =>
          assert_ pp_revision plan =? lc_plan_revision a else_raise ControlPlaneError STALE_EVIDENCE;;
          do sn <- liftM (new_PlanSnapshot
            {| sn_snapshot_id := cv_random v 0; sn_target_id := pp_target_id plan;
               sn_environment := value (pp_environment plan); sn_revision := pp_revision plan;
               sn_canonical_digest := pp_digest plan; sn_payload_canonical := dumps (pp_payload plan);
               sn_action_id := Some action_id; sn_captured_at := at_ v 1; sn_plan_id := Some (lc_plan_id a);
               sn_snapshot_version := SNAPSHOT_VERSION_DEFAULT; sn_integrity_digest := EmptyString |});;
          do moved <- liftM (lifecycle_transition (cv_random v 1) (pr_subject (se_principal session)) (at_ v 2)
                               decision (value CONFIRMED) (value SNAPSHOT_CAPTURED));;
          do_ on_repo (capture_snapshot_and_advance sn action_id (lc_version a) (at_ v 3) [moved]);;
          retM sn
      end
  end.

(** [record_verification] *)
Definition record_verification (v : call_env) (session_id action_id : string) (expected : ExpectedState)
  : M W VerificationResult :=
  do session <- session_of v 0 session_id;;
  let actor := pr_subject (se_principal session) in
  do a <- named_action action_id;;
  assert_ negb (lc_is_expired a (at_ v 1)) else_raise ControlPlaneError EXPIRED_PLAN;;
  let moment := at_ v 2 in
  do_ audit (verification_started (cv_random v 0) actor moment action_id (Some (lc_plan_id a))
               (Some (ex_revision expected)) (ex_canonical_digest expected) (Some (ex_target_id expected))
               (Some (ex_environment expected)) None);;
  do current <- on_repo (attempt (read_plan (sc_target_id (lc_scope a))));;
  match current with
  | inr ProjectPlanError =>
      do r <- liftM (check_VerificationResult
        {| vr_verification_id := cv_random v 1; vr_action_id := action_id; vr_success := false;
           vr_reason_code := PLAN_MISSING; vr_expected_revision := ex_revision expected; vr_observed_revision := None;
           vr_expected_digest := ex_canonical_digest expected; vr_observed_digest := None; vr_observed_at := moment;
           vr_verifier := PLAN_READBACK_VERIFIER; vr_verification_version := VERIFICATION_VERSION;
           vr_evidence_references := [] |});;
      on_repo (save_verification r [])
  | inr e => raiseM e
  | inl plan =>
      do observed <- liftM (observed_from_plan plan (cv_clock v 3));;
      do r <- liftM (verify expected observed action_id (cv_random v 1));;
      do finished <- liftM (verification_finished (cv_random v 2) actor moment action_id (Some (lc_plan_id a))
                              (Some (ex_revision expected)) (ex_canonical_digest expected) (Some (ex_target_id expected))
                              (Some (ex_environment expected)) (vr_verification_id r) (vr_success r)
                              (value (vr_reason_code r)) (vr_verification_version r));;
      on_repo (save_verification r [finished])
  end.

(** ** Rollback requests *)

(** [plan_rollback] *)
Definition plan_action_rollback (v : call_env) (session_id original_action_id : string) : M W RollbackPlan :=
  do_ session_of v 0 session_id;;
  do original <- named_action original_action_id;;
  do w <- getM;;
  do current <- on_repo (read_plan (sc_target_id (lc_scope original)));;
  liftM (plan_rollback py original (snapshot_for_action original_action_id (sv_repo w)) current
    (match stored_request original (sv_repo w) with
     | Some (_, r) => Some (dict_of (mutation_metadata r))
     | None => None
     end)).

Definition rollback_evidence (v : call_env) (actor original_action_id : string) (plan : RollbackPlan)
    (sn : option PlanSnapshot) : result AuditEventDraft :=
  rollback_requested (cv_random v 0) actor (at_ v 1) original_action_id (rb_snapshot_id plan)
    (match sn with Some x => sn_plan_id x | None => None end) (sn_revision <$> sn) (sn_canonical_digest <$> sn)
    (rb_target_id plan) (rb_environment plan) None (po_policy_version (cf_policy cf)).

(** [request_rollback] *)
Definition request_rollback (v : call_env) (session_id original_action_id : string) : M W AuthorizationDecision :=
  do session <- session_of v 0 session_id;;
  do plan <- plan_action_rollback (nested 10 v) session_id original_action_id;;
  assert_ rb_safe plan else_raise ControlPlaneError STATE_CONFLICT;;
  do w <- getM;;
  do request <- liftM (new_ActionRequest ROLLBACK_PROJECT_PLAN (rb_target_id plan)
                         ("rollback-" ++ str_take 64 original_action_id) [] (rb_environment plan));;
  do evidence <- liftM (rollback_evidence v (pr_subject (se_principal session)) original_action_id plan
                          (snapshot_for_action original_action_id (sv_repo w)));;
  do decision <- authorize_request (nested 20 v) (se_session_id session) request [evidence]
                   (Some (original_action_id, rb_snapshot_id plan));;
  do w1 <- getM;;
  do_ match ad_allowed decision, get_action original_action_id (sv_repo w1) with
      | true, Some original =>
          if in_states (lc_state original) [VERIFICATION_FAILED; EXECUTION_FAILED] then
            do_ on_repo (advance_rollback_state original_action_id (lc_version original)
                           [VERIFICATION_FAILED; EXECUTION_FAILED] ROLLBACK_REQUESTED (at_ v 2) []);;
            retM ()
          else retM ()
      | _, _ => retM ()
      end;;
  retM decision.
End flow.
