(* ===== verification/ServiceRun.v ===== *)
(** * ServiceRun: execution and the update plane (control_plane/service.py)

    [execute_action], [execute_rollback], [reconcile_action], the dry-run
    bridge, [approve_update_plan] and [run_approved_update] of
    [OwnerControlPlaneService].  The update runtime is a port: it is handed the
    binding derived from the repository after a verified execution. *)

From S2P Require Import Prelude PyStr PyText PyDict PyTime Json Models Lifecycle ProjectPlan Identity Policy.
From S2P Require Import Confirmation AuditLedger AuditBuilders KillSwitch Verification Rollback ActionRepo.
From S2P Require Import ActionSpec Capability Contract Gate Executor RollbackExec Session OwnerAuth ServicePlan.
From S2P Require Import ServiceState ServiceFlow.
From Stdlib Require Import Ascii String ZArith Lia.
From stdpp Require Import base strings gmap list.

Local Open Scope string_scope.
Local Open Scope Z_scope.
Local Open Scope aipm_scope.

Section run.
Context {E : Type}.
Notation W := (service E).
Variables (py : py_values) (cf : service_config) (pt : ports E).

(** The lease of an action, a past one if the repository remembers it. *)
Definition lease_of_record (action_id : string) (now : datetime) (s : repo) : option ExecutionLease :=
  match active_lease action_id now s, cf_last_lease cf with
  | Some l, _ => Some l
  | None, Some last => last s action_id
  | None, None => None
  end.

(** ** The executor *)

(** [_receipt_query_port]: any failure is an absent answer. *)
Definition receipt_query_port : option (string → Z → result json) :=
  match pt_ipc_client pt with
  | Some (Some query) => Some (λ action_id token,
      match query action_id token with
      | Ok (Some r) => Ok (JObj [("mutation_status", ra_mutation_status r); ("provider_code", ra_provider_code r);
                                 ("evidence", ra_evidence r)])
      | Ok None | Raise _ => Ok JNull
      end)
  | _ => None
  end.

(** [_executor], on the switches as they are. *)
Definition executor_of (w : W) : executor :=
  {| xr_kill_switches := sv_switches w; xr_snapshots := Some (λ s id, snapshot_for_action id s);
     xr_receipt_query := receipt_query_port; xr_verifier := pt_verifier pt |}.
Definition executor_draws (v : call_env) : draws :=
  {| dr_started := cv_random v 50; dr_succeeded := cv_random v 51; dr_verification_started := cv_random v 52;
     dr_verification := cv_random v 53; dr_verification_finished := cv_random v 54 |}.
Definition executor_rollback_draws (v : call_env) : rollback_draws :=
  {| rd_execution := executor_draws v; rd_lease_id := cv_random v 55; rd_lease_event := cv_random v 56;
     rd_finished := cv_random v 57 |}.
Definition executor_clock (v : call_env) (i : nat) : datetime := cv_clock v (50 + i)%nat.

(** [_confirmation_id_for] *)
Definition confirmation_id_for (action_id : string) (s : repo) : option string :=
  cb_confirmation_id <$> List.find (λ b, str_eqb (cb_action_id b) action_id) (dvalues (rp_confirmations s)).

(** A decision with its request and its identity. *)
Definition durable_binding (a : ActionLifecycle) (s : repo)
  : option (AuthorizationDecision * ActionRequest * ActionIdentity) :=
  match stored_request a s with
  | Some (d, r) => match ad_action_identity d with Some i => Some (d, r, i) | None => None end
  | None => None
  end.

(** [dict(request.metadata)] *)
Definition request_pairs (r : ActionRequest) : dict string string := dict_of (req_metadata r).

(** ** [execute_action] *)

Definition replayed_states : list LifecycleState := [VERIFIED_SUCCESS; ROLLED_BACK; EXECUTION_FAILED; ROLLBACK_FAILED].

(** The answer for an action that is already settled. *)
Definition terminal_result (action_id : string) (a : ActionLifecycle) (s : repo) : result ExecutionResult :=
  let* outcome := match outcome_for_action action_id s with
                  | Some t => if str_nonempty t then outcome_of_value t else Ok ExecutionOutcome.MUTATION_NOT_STARTED
                  | None => Ok ExecutionOutcome.MUTATION_NOT_STARTED
                  end in
  Ok {| er_action_id := action_id; er_outcome := outcome; er_lifecycle_state := lc_state a;
        er_mutated_revision := None; er_verification_success := None; er_verification_id := None;
        er_refusal_reason := None; er_receipt_status := None |}.

(** The evidence of the service plan an update was approved for. *)
Definition evidence_for (w : W) (a : ActionLifecycle) (r : ActionRequest) (identity : ActionIdentity)
  : result (option ServiceEvidenceContract) :=
  match dget "service_name" (request_pairs r) with
  | None => Ok None
  | Some svc =>
      match dget (lc_action_id a) (sv_evidence w) with
      | Some e => Ok (Some e)
      | None =>
          let fresh := match pt_service_plan pt with
                       | None => Raise ValueError
                       | Some port =>
                           let* p := port (sc_target_id (lc_scope a)) svc in
                           require str_eqb (sp_plan_digest p) (id_target_digest identity) else_raise ValueError;;
                           evidence_from_plan p (Some [svc])
                       end in
          match fresh with
          | Ok e => Ok (Some e)
          | Raise _ => Raise (ControlPlaneError UNAVAILABLE_EVIDENCE)
          end
      end
  end.

(** The contract of a call, from the repository; the fields that differ between
    execution and reconciliation are arguments. *)
Definition service_contract (a : ActionLifecycle) (d : AuthorizationDecision) (r : ActionRequest)
    (identity : ActionIdentity) (lease : ExecutionLease) (epoch : Z) (snapshot_id confirmation_id : string)
    (evidence : option ServiceEvidenceContract) : result ExecutionContract :=
  new_ExecutionContract
    {| ec_contract_version := EXECUTION_CONTRACT_VERSION; ec_action_id := lc_action_id a;
       ec_action_version := lc_version a; ec_operation := EXEC_UPDATE_PROJECT_PLAN;
       ec_target_id := sc_target_id (lc_scope a); ec_environment := sc_environment (lc_scope a);
       ec_plan_id := lc_plan_id a; ec_expected_plan_revision := lc_plan_revision a;
       ec_expected_plan_digest := id_target_digest identity; ec_mutation_fields := mutation_metadata r;
       ec_snapshot_id := snapshot_id; ec_decision_id := ad_decision_id d; ec_confirmation_id := confirmation_id;
       ec_policy_version := sc_policy_version (lc_scope a); ec_verification_version := VERIFICATION_VERSION;
       ec_kill_switch_epoch := epoch; ec_lease_id := ls_lease_id lease; ec_fencing_token := ls_fencing_token lease;
       ec_expires_at := lc_expires_at a; ec_capability_version := "1"; ec_service_evidence := evidence |}.

(** The lease the execution runs under, acquired when the snapshot is there. *)
Definition leased_action (v : call_env) (action_id : string) (a : ActionLifecycle) (moment : datetime)
  : M W (ActionLifecycle * ExecutionLease) :=
  do a' <- (if bool_decide (lc_state a = SNAPSHOT_CAPTURED) then
              do la <- on_repo (acquire_lease action_id (lc_version a) moment [] (cv_random v 0) (cv_random v 1));;
              retM (snd la)
            else retM a);;
  do w <- getM;;
  match active_lease action_id moment (sv_repo w) with
  | None => control_plane_error STATE_CONFLICT
  | Some lease => retM (a', lease)
  end.

(** [execute_rollback] *)
Definition execute_action_rollback (v : call_env) (session_id original_action_id rollback_action_id : string)
  : M W ExecutionResult :=
  do_ session_of v 10 session_id;;
  do w <- getM;;
  on_repo (execute_rollback py (executor_of w) (executor_rollback_draws v) (executor_clock v)
             rollback_action_id original_action_id (Some (at_ v 11))).

(** The execution of an update, after the guards. *)
Definition execute_update_action (v : call_env) (action_id : string) (a : ActionLifecycle) (moment : datetime)
  : M W ExecutionResult :=
  do w <- getM;;
  match durable_binding a (sv_repo w) with
  | None => control_plane_error STORAGE_CORRUPT
  | Some (d, r, identity) =>
      match confirmed_binding action_id (sv_repo w) with
      | None => control_plane_error CONFIRMATION_MISMATCH
      | Some b =>
          match snapshot_for_action action_id (sv_repo w) with
          | None => control_plane_error UNAVAILABLE_EVIDENCE
          | Some sn =>
              do leased <- leased_action v action_id a moment;;
              do epoch <- switch_epoch v (sc_environment (lc_scope a));;
              assert_ negb (cf_ipc_mode cf && match pt_ipc_client pt with None => true | Some _ => false end)
                else_raise ControlPlaneError SESSION_INVALID;;
              do w1 <- getM;;
              do evidence <- liftM (evidence_for w1 (fst leased) r identity);;
              do c <- liftM (service_contract (fst leased) d r identity (snd leased) epoch (sn_snapshot_id sn)
                               (cb_confirmation_id b) evidence);;
              on_repo (execute (executor_of w1) (executor_draws v) (executor_clock v) c (Some (at_ v 2)))
          end
      end
  end.

(** [execute_action] *)
Definition execute_action (v : call_env) (session_id action_id : string) : M W ExecutionResult :=
  do_ session_of v 0 session_id;;
  let moment := at_ v 1 in
  do a <- named_action action_id;;
  assert_ negb (lc_is_expired a moment) else_raise ControlPlaneError EXPIRED_PLAN;;
  if in_states (lc_state a) replayed_states then
    do w <- getM;; liftM (terminal_result action_id a (sv_repo w))
  else
    match lc_rollback_of_action_id a with
    | Some original_id => execute_action_rollback v session_id original_id action_id
    | None => execute_update_action v action_id a moment
    end.

(** [reconcile_action] *)
Definition reconcile_action (v : call_env) (session_id action_id : string) : M W ExecutionResult :=
  do_ session_of v 0 session_id;;
  do a <- named_action action_id;;
  let moment := at_ v 1 in
  do w <- getM;;
  match durable_binding a (sv_repo w) with
  | None => control_plane_error STORAGE_CORRUPT
  | Some (d, r, identity) =>
      match lease_of_record action_id moment (sv_repo w) with
      | None => control_plane_error STATE_CONFLICT
      | Some lease =>
          do epoch <- switch_epoch v (sc_environment (lc_scope a));;
          let snapshot_id := match truthy_subject (lc_snapshot_id a) with Some id => id | None => "unknown" end in
          let confirmation_id := match truthy_subject (confirmation_id_for action_id (sv_repo w)) with
                                 | Some id => id
                                 | None => "unknown"
                                 end in
          do c <- liftM (service_contract a d r identity lease epoch snapshot_id confirmation_id None);;
          on_repo (reconcile (executor_of w) (executor_clock v) c (Some (at_ v 2)))
      end
  end.

(** ** The binding of a verified update *)

(** [_mutation_pairs_for_target] *)
Definition mutation_pairs_for_target (target_id : string) : M W (list (string * string)) :=
  do plan <- read_current_plan pt target_id;;
  match plan with
  | None => control_plane_error UNAVAILABLE_EVIDENCE
  | Some p => retM [("objective", pp_objective p); ("title", pp_title p)]
  end.

(** The scope the metadata of a request names. *)
Definition metadata_scope (pairs : dict string string) : option (list string) :=
  match truthy_subject (dget "service_scope" pairs) with
  | Some text => Some (scope_words text)
  | None => match truthy_subject (dget "service_name" pairs) with Some name => Some [name] | None => None end
  end.

(** The scope of the binding: that of the stored evidence, which the metadata
    may not contradict. *)
Definition binding_scope (pairs : dict string string) (stored : option ServiceEvidenceContract)
  : result (option (list string)) :=
  match stored with
  | None => Ok (metadata_scope pairs)
  | Some e =>
      let* _ := raise_unless match metadata_scope pairs with
                             | Some scope => bool_decide (scope = se_derived_execution_scope e)
                             | None => true
                             end (ControlPlaneError STATE_CONFLICT) in
      Ok (Some (se_derived_execution_scope e))
  end.

(** [_update_binding_for] *)
Definition update_binding_for (v : call_env) (a : ActionLifecycle) (w : W) : result UpdateExecutionBinding :=
  let s := sv_repo w in
  let fail {A} code : result A := Raise (ControlPlaneError code) in
  match durable_binding a s with
  | None => fail STORAGE_CORRUPT
  | Some (d, r, identity) =>
      match truthy_subject (dget "update_plan_digest" (request_pairs r)) with
      | None => fail STALE_EVIDENCE
      | Some plan_digest =>
          match confirmation_id_for (lc_action_id a) s with
          | None => fail CONFIRMATION_MISMATCH
          | Some confirmation_id =>
              match get_contract_evidence (lc_action_id a) s with
              | None => fail UNAVAILABLE_EVIDENCE
              | Some evidence =>
                  require str_nonempty (ce_contract_digest evidence) else_raise ControlPlaneError UNAVAILABLE_EVIDENCE;;
                  match lease_of_record (lc_action_id a) (cv_clock v 60%nat) s with
                  | None => fail UNAVAILABLE_EVIDENCE
                  | Some lease =>
                      require is_some (pt_update_runtime pt) else_raise ControlPlaneError UNAVAILABLE_EVIDENCE;;
                      let* scope := binding_scope (request_pairs r) (dget (lc_action_id a) (sv_evidence w)) in
                      let* registration := match pt_registrations pt with
                                           | None => Ok None
                                           | Some get => get (sc_target_id (lc_scope a)) (sc_environment (lc_scope a)) false
                                           end in
                      check_UpdateExecutionBinding
                        {| ueb_project_name := sc_target_id (lc_scope a); ueb_plan_digest := plan_digest;
                           ueb_confirmation_id := confirmation_id; ueb_action_id := lc_action_id a;
                           ueb_contract_digest := ce_contract_digest evidence; ueb_lease_id := ls_lease_id lease;
                           ueb_fencing_token := ls_fencing_token lease; ueb_action_protocol := lc_action_protocol a;
                           ueb_service_scope := scope; ueb_registration_id := rg_registration_id <$> registration;
                           ueb_registration_digest := rg_registration_digest <$> registration |}
                  end
              end
          end
      end
  end.

(** ** [run_approved_update] *)

Record update_run := {
  ur_executed : bool;
  ur_action_id : string;
  ur_outcome : string;
  ur_provider_code : option json;
  ur_evidence_reference : option json;
  ur_lifecycle_state : LifecycleState;
}.

(** What the answer of the runtime makes of the result. *)
Definition runtime_outcome (outcome : string) (answer : option (dict string json)) : string :=
  match answer with
  | Some d => match dget "outcome" d with
              | Some (JStr o) => if mem o ["unknown_outcome"; "failed"] then o else outcome
              | _ => outcome
              end
  | None => outcome
  end.
Definition runtime_field (key fallback : string) (answer : option (dict string json)) : json :=
  match answer with
  | Some d => default (JStr fallback) (dget key d)
  | None => JStr fallback
  end.

(** The call of the runtime with the binding of the verified action. *)
Definition run_runtime (v : call_env) (a : ActionLifecycle) (outcome : string) : M W update_run :=
  do w <- getM;;
  do binding <- liftM (update_binding_for v a w);;
  match pt_update_runtime pt with
  | None => raiseM TypeError
  | Some runtime =>
      do answer <- on_world (runtime binding);;
      retM {| ur_executed := true; ur_action_id := lc_action_id a; ur_outcome := runtime_outcome outcome answer;
              ur_provider_code := Some (runtime_field "provider_code" "update_ok" answer);
              ur_evidence_reference := Some (runtime_field "evidence_reference" EmptyString answer);
              ur_lifecycle_state := lc_state a |}
  end.

(** [run_approved_update] *)
Definition run_approved_update (v : call_env) (session_id action_id : string) : M W update_run :=
  assert_ str_nonempty action_id else_raise ControlPlaneError CONFIRMATION_MISMATCH;;
  do a <- named_action action_id;;
  let was_terminal := in_states (lc_state a) replayed_states in
  do_ (if bool_decide (lc_state a = CONFIRMED)
       then do_ capture_snapshot pt (nested 100 v) session_id action_id;; retM ()
       else retM ());;
  do r <- execute_action (nested 200 v) session_id action_id;;
  do w <- getM;;
  match get_action action_id (sv_repo w) with
  | None => control_plane_error STORAGE_CORRUPT
  | Some a' =>
      if negb (bool_decide (lc_state a' = VERIFIED_SUCCESS)) || was_terminal then
        retM {| ur_executed := false; ur_action_id := action_id; ur_outcome := value (er_outcome r);
                ur_provider_code := None; ur_evidence_reference := None; ur_lifecycle_state := lc_state a' |}
      else run_runtime v a' (value (er_outcome r))
  end.

(** ** [approve_update_plan] *)

Record update_approval := {
  ua_allowed : bool;
  ua_code : string;
  ua_decision_id : string;
  ua_action_id : option string;
  ua_confirmation_id : option string;
  ua_plan_digest : option string;
  ua_service_name : option string;
  ua_service_scope : option (list string);
}.

(** [_FORBIDDEN_CHARS] and [_SERVICE_NAME_RE] *)
Definition forbidden_name_char (c : ascii) : bool :=
  one_of ";&|$`><'/\:@ " c || bool_decide (c ∈ ["010"; "013"; "009"; "000"; "034"]%char).
Definition service_name_ok (name : string) : bool :=
  str_nonempty name && (slen name <=? 64) && negb (starts_with "-" name) &&
  negb (str_any forbidden_name_char name) &&
  headed is_alnum (λ c, is_alnum c || one_of "_.-" c) 63 name.

(** The reference checks of the arguments. *)
Definition approval_arguments (target_id environment presented_digest idempotency_key : string) : result unit :=
  let invalid := ControlPlaneError INVALID_REQUEST in
  require str_nonempty target_id else_raise invalid;;
  require str_nonempty environment else_raise invalid;;
  require HEX 64 presented_digest else_raise invalid;;
  require str_nonempty idempotency_key && (slen idempotency_key <=? 128) else_raise invalid;;
  Ok ().

(** The authoritative plan of a service, or what stops the approval. *)
Definition authoritative_service_plan (target_id service_name presented_digest : string) : result ServiceUpdatePlan :=
  let fail {A} code : result A := Raise (ControlPlaneError code) in
  let* plan := match pt_service_plan pt, pt_digest_plan_service pt with
               | Some port, _ => match port target_id service_name with
                                 | Raise (ControlPlaneError code) => fail code
                                 | Raise _ => fail UNAVAILABLE_EVIDENCE
                                 | Ok p => Ok (Some p)
                                 end
               | None, Some port => match port target_id service_name with
                                    | Raise _ => fail UNAVAILABLE_EVIDENCE
                                    | Ok p => Ok (Some p)
                                    end
               | None, None => Ok None
               end in
  match plan with
  | None => fail UNAVAILABLE_EVIDENCE
  | Some p =>
      require sp_eligible p else_raise ControlPlaneError STATE_CONFLICT;;
      require HEX 64 (sp_plan_digest p) else_raise ControlPlaneError UNAVAILABLE_EVIDENCE;;
      require str_eqb (sp_plan_digest p) presented_digest else_raise ControlPlaneError STALE_EVIDENCE;;
      (* the error code of the source does not exist *)
      require str_eqb (sp_service_name p) service_name else_raise AttributeError;;
      Ok p
  end.

(** The digest of the whole project, as the port reports it now. *)
Definition authoritative_digest (target_id presented_digest : string) : result unit :=
  match pt_plan_digest pt with
  | None => Raise (ControlPlaneError UNAVAILABLE_EVIDENCE)
  | Some port =>
      let* digest := port target_id in
      require match digest with Some d => HEX 64 d | None => false end
        else_raise ControlPlaneError UNAVAILABLE_EVIDENCE;;
      require bool_decide (digest = Some presented_digest) else_raise ControlPlaneError STALE_EVIDENCE;;
      Ok ()
  end.

(** [_assert_binding_digest] *)
Definition assert_binding_digest (d : AuthorizationDecision) (presented_digest : string) : result unit :=
  let pairs := match ad_request d with Some r => request_pairs r | None => [] end in
  require bool_decide (dget "update_plan_digest" pairs = Some presented_digest)
    else_raise ControlPlaneError STALE_EVIDENCE;;
  Ok ().

(** What a service approval adds to a project approval. *)
Record service_approval := {
  sa_name : string;
  sa_scope : list string;
  sa_evidence : ServiceEvidenceContract;
}.

(** Authorize, compare the digest, confirm unless confirmed before. *)
Definition authorize_and_confirm (v : call_env) (session_id presented_digest : string) (request : ActionRequest)
    (for_service : option service_approval) : M W update_approval :=
  do session <- session_of v 0 session_id;;
  do decision <- authorize_request cf pt (nested 100 v) (se_session_id session) request [] None;;
  if negb (ad_allowed decision) then
    retM {| ua_allowed := false; ua_code := value (ad_code decision); ua_decision_id := ad_decision_id decision;
            ua_action_id := None; ua_confirmation_id := None; ua_plan_digest := None; ua_service_name := None;
            ua_service_scope := None |}
  else
    match ad_action_identity decision with
    | None => control_plane_error STORAGE_CORRUPT
    | Some identity =>
        do_ liftM (assert_binding_digest decision presented_digest);;
        do_ match for_service with
            | Some sa => modifyM (λ w, with_evidence (dset (id_action_id identity) (sa_evidence sa) (sv_evidence w)) w)
            | None => retM ()
            end;;
        do w <- getM;;
        do confirmation_id <- match confirmation_id_for (id_action_id identity) (sv_repo w) with
                              | Some id => retM id
                              | None =>
                                  do b <- confirm_decision cf (nested 200 v) (se_session_id session) (ad_decision_id decision);;
                                  retM (cb_confirmation_id b)
                              end;;
        retM {| ua_allowed := true; ua_code := value (ad_code decision); ua_decision_id := ad_decision_id decision;
                ua_action_id := Some (id_action_id identity); ua_confirmation_id := Some confirmation_id;
                ua_plan_digest := Some presented_digest; ua_service_name := sa_name <$> for_service;
                ua_service_scope := sa_scope <$> for_service |}
    end.

(** The affected services of a plan. *)
Definition approved_scope (p : ServiceUpdatePlan) (service_name : string) : list string :=
  match ms_affected_services (sp_expected_mutation p) with [] => [service_name] | scope => scope end.

(** [approve_update_plan] *)
Definition approve_update_plan (v : call_env) (session_id target_id environment presented_digest idempotency_key : string)
    (service_name : option string) : M W update_approval :=
  do_ liftM (approval_arguments target_id environment presented_digest idempotency_key);;
  match service_name with
  | Some name =>
      assert_ service_name_ok name else_raise ControlPlaneError INVALID_REQUEST;;
      do plan <- liftM (authoritative_service_plan target_id name presented_digest);;
      do evidence <- liftM (evidence_from_plan plan (Some [name]));;
      do pairs <- mutation_pairs_for_target target_id;;
      let scope := approved_scope plan name in
      do request <- liftM (new_ActionRequest UPDATE_PROJECT_PLAN target_id idempotency_key
        (pairs ++ [("update_plan_digest", presented_digest); ("service_name", name);
                   ("service_scope", join_with "," scope); ("atomicity", value (sp_atomicity plan))])%list environment);;
      authorize_and_confirm v session_id presented_digest request
        (Some {| sa_name := name; sa_scope := scope; sa_evidence := evidence |})
  | None =>
      do_ liftM (authoritative_digest target_id presented_digest);;
      do pairs <- mutation_pairs_for_target target_id;;
      do request <- liftM (new_ActionRequest UPDATE_PROJECT_PLAN target_id idempotency_key
        (pairs ++ [("update_plan_digest", presented_digest)])%list environment);;
      authorize_and_confirm v session_id presented_digest request None
  end.
End run.
