(* ===== verification/ServiceBridge.v ===== *)
(** * ServiceBridge: the dry-run bridge and the read views (control_plane/bridge, service.py)

    A legacy update intent goes through the whole flow up to the lease; what
    would be mutated is recorded and nothing is.  The read views render the
    state without changing it. *)

From S2P Require Import Prelude PyStr PyText PyDict PyTime Json Models Lifecycle ProjectPlan Identity Policy.
From S2P Require Import Confirmation AuditLedger AuditBuilders KillSwitch Verification ActionRepo ActionSpec.
From S2P Require Import Contract Executor Session OwnerAuth ServicePlan ServiceState ServiceFlow ServiceRun.
From Stdlib Require Import Ascii String ZArith Lia.
From stdpp Require Import base strings gmap list.

Local Open Scope string_scope.
Local Open Scope Z_scope.
Local Open Scope aipm_scope.

Definition BRIDGE_VERSION : string := "mc612-update-bridge-v1".

Record LegacyUpdateIntent := {
  in_project : string;
  in_idempotency_key : string;
  in_environment : string;
  in_bridge_version : string;
}.

(** [LegacyUpdateIntent.__post_init__] *)
Definition check_LegacyUpdateIntent (i : LegacyUpdateIntent) : result LegacyUpdateIntent :=
  require str_eqb (in_bridge_version i) BRIDGE_VERSION else_raise BridgeError;;
  let* _ := bounded_reference MAX_AUDIT_ID (Some (in_project i)) in
  let* _ := bounded_reference MAX_AUDIT_ID (Some (in_idempotency_key i)) in
  require mem (in_environment i) ["staging"; "production"] else_raise BridgeError;;
  Ok i.

Section bridge.
Context {E : Type}.
Notation W := (service E).
Variables (cf : service_config) (pt : ports E).

(** [frozenset(target for target, _environment in allowed_scopes)] *)
Definition allowed_projects : list string := List.map fst (po_allowed_scopes (cf_policy cf)).

(** [UpdateActionRequestAdapter.adapt] *)
Definition adapt (intent : LegacyUpdateIntent) : M W ActionRequest :=
  assert_ mem (in_project intent) allowed_projects else_raise BridgeError;;
  assert_ str_eqb (in_environment intent) "staging" else_raise BridgeError;;
  do found <- on_repo (attempt (read_plan (in_project intent)));;
  match found with
  | inr _ => raiseM BridgeError
  | inl plan =>
      assert_ str_eqb (value (pp_environment plan)) "staging" else_raise BridgeError;;
      assert_ pp_enabled plan else_raise BridgeError;;
      liftM (new_ActionRequest UPDATE_PROJECT_PLAN (in_project intent) (in_idempotency_key intent)
               (sort_pairs [("title", pp_title plan); ("objective", pp_objective plan)]) (in_environment intent))
  end.

(** [DryRunMutationSink.record] *)
Definition record_dry_run (now : datetime) (identity : ActionIdentity) (plan : ProjectPlan)
    (fields : list (string * string)) (lease : ExecutionLease) (operation : OperationKind)
  : M W DryRunMutationRecord :=
  do_ liftM (rmap (λ kv, bounded_reference MAX_AUDIT_ID (Some (snd kv))) (dict_of fields));;
  let r := {| dm_action_id := id_action_id identity; dm_target_id := id_target_id identity;
              dm_environment := id_environment identity; dm_plan_id := id_plan_id identity;
              dm_pre_mutation_revision := pp_revision plan; dm_pre_mutation_digest := pp_digest plan;
              dm_mutation_fields := sort_pairs (dict_of fields); dm_lease_id := ls_lease_id lease;
              dm_fencing_token := ls_fencing_token lease; dm_operation := value operation;
              dm_recorded_at := isoformat now |} in
  do_ modifyM (λ w, with_dry_runs (sv_dry_runs w ++ [r])%list w);;
  retM r.

Inductive dry_run_result :=
  | IntentRefused
  | DryRunDenied (code : string)
  | DryRunRecorded (action_id decision_id confirmation_id snapshot_id lease_id : string) (fencing_token : Z)
      (record : DryRunMutationRecord).

(** The lease of a dry run: without [now] there is no moment to grant it at. *)
Definition dry_run_lease (v : call_env) (a : ActionLifecycle) : M W ExecutionLease :=
  match cv_now v with
  | None => control_plane_error INVALID_REQUEST
  | Some now =>
      do la <- on_repo (acquire_lease (lc_action_id a) (lc_version a) now [] (cv_random v 0) (cv_random v 1));;
      retM (fst la)
  end.

(** From the allowed decision to the record. *)
Definition rehearse (v : call_env) (session_id : string) (request : ActionRequest) (decision : AuthorizationDecision)
    (identity : ActionIdentity) : M W dry_run_result :=
  do binding <- confirm_decision cf (nested 200 v) session_id (ad_decision_id decision);;
  do sn <- capture_snapshot pt (nested 300 v) session_id (id_action_id identity);;
  do w <- getM;;
  match get_action (id_action_id identity) (sv_repo w) with
  | None => control_plane_error STATE_CONFLICT
  | Some a =>
      assert_ bool_decide (lc_state a = SNAPSHOT_CAPTURED) else_raise ControlPlaneError STATE_CONFLICT;;
      do lease <- dry_run_lease v a;;
      do plan <- on_repo (read_plan (id_target_id identity));;
      do r <- record_dry_run (cv_clock v 1) identity plan (req_metadata request) lease (req_operation request);;
      retM (DryRunRecorded (id_action_id identity) (ad_decision_id decision) (cb_confirmation_id binding)
              (sn_snapshot_id sn) (ls_lease_id lease) (ls_fencing_token lease) r)
  end.

(** [dry_run_update_intent] *)
Definition dry_run_update_intent (v : call_env) (session_id : string) (intent : LegacyUpdateIntent)
  : M W dry_run_result :=
  assert_ cf_dry_run_sink cf else_raise ControlPlaneError SESSION_INVALID;;
  assert_ negb (bool_decide (allowed_projects = [])) else_raise BridgeError;;
  do session <- session_of v 0 session_id;;
  do adapted <- attempt (adapt intent);;
  match adapted with
  | inr _ => retM IntentRefused
  | inl request =>
      do decision <- authorize_request cf pt (nested 100 v) (se_session_id session) request [] None;;
      if negb (ad_allowed decision) then retM (DryRunDenied (value (ad_code decision)))
      else match ad_action_identity decision with
           | None => control_plane_error STORAGE_CORRUPT
           | Some identity => rehearse v (se_session_id session) request decision identity
           end
  end.

(** ** Read views *)

(** [plan_view]: the plan a view renders *)
Definition plan_view (target_id : string) : M W (option ProjectPlan) := read_current_plan pt target_id.

(** [registration_view]: [permits_operations] is no method of the registry, so
    with kill switches the exception handler answers. *)
Definition registration_view (target_id : string) : M W (option ProjectRegistration) :=
  do w <- getM;;
  match sv_switches w with
  | Some _ => retM None
  | None => retM (find_registration pt target_id)
  end.

(** [action_view]: the action and its outcome *)
Definition action_view (action_id : string) (w : W) : option (ActionLifecycle * option string) :=
  (λ a, (a, outcome_for_action action_id (sv_repo w))) <$> get_action action_id (sv_repo w).
Definition latest_update_action_view (target_id : string) (w : W) : option (ActionLifecycle * option string) :=
  (λ a, (a, outcome_for_action (lc_action_id a) (sv_repo w))) <$> latest_action_for_target target_id (sv_repo w).

(** [tuple(...)[-limit:]] *)
Definition last_items {A} (limit : Z) (l : list A) : list A :=
  if limit =? 0 then l
  else if 0 <? limit then drop (length l - Z.to_nat limit) l else drop (Z.to_nat (- limit)) l.

(** [audit_for_action] *)
Definition audit_for_action (action_id : string) (limit : Z) (w : W) : result (list AuditEvent) :=
  match rp_audit (sv_repo w) with
  | None => Raise AttributeError
  | Some l =>
      let* events := ledger_events 4096 l in
      Ok (last_items limit (List.filter (λ e, bool_decide (ae_action_id (ev_draft e) = Some action_id)) events))
  end.
End bridge.
