(* ===== verification/ServiceSafety.v ===== *)
(** * ServiceSafety: what every call of the service preserves

    The repository of the service moves only by safe steps, and the world
    behind the update runtime is touched by [run_approved_update] alone, with
    the binding of an action that this very call took to VERIFIED_SUCCESS. *)

From S2P Require Import Prelude PyStr PyText PyDict PyTime Json Models Lifecycle ProjectPlan Identity Policy.
From S2P Require Import Confirmation AuditLedger AuditBuilders KillSwitch Verification Rollback ActionRepo.
From S2P Require Import ActionSpec Capability Contract Gate Executor RollbackExec Session OwnerAuth ServicePlan.
From S2P Require Import ServiceState ServiceFlow ServiceRun ServiceBridge.
From Stdlib Require Import Ascii String ZArith Lia.
From stdpp Require Import base strings gmap list.

Local Open Scope string_scope.
Local Open Scope Z_scope.
Local Open Scope aipm_scope.

(** ** The executor moves the repository by safe steps *)

Create HintDb safety discriminated.
#[export] Hint Constants Opaque : safety.
Lemma keeps_ignored {S A} (R : S → S → Prop) (m : M S A) : keeps R (ignore m) → keeps R m.
Proof.
  intros H s s' r E. apply (H s s' (match r with Ok _ => Ok () | Raise e => Raise e end)).
  unfold ignore, bindM, retM. rewrite E. by destruct r.
Qed.
Lemma repo_call_safe {A} (m : M repo A) c : run_repo_call c = ignore m → keeps safe_step m.
Proof. intros H. apply keeps_ignored. rewrite <- H. apply run_repo_call_safe. Qed.

Lemma record_verification_safe id v r now ds : keeps safe_step (record_verification_outcome id v r now ds).
Proof. by apply (repo_call_safe _ (CVerify id v r now ds)). Qed.
Lemma mark_reconciled_safe id v st o now ds : keeps safe_step (mark_reconciled id v st o now ds).
Proof. by apply (repo_call_safe _ (CReconcile id v st o now ds)). Qed.
Lemma advance_rollback_safe id v from st now ds : keeps safe_step (advance_rollback_state id v from st now ds).
Proof. by apply (repo_call_safe _ (CRollback id v from st now ds)). Qed.
Lemma save_verification_safe r ds : keeps safe_step (save_verification r ds).
Proof. by apply (repo_call_safe _ (CSave r ds)). Qed.
Lemma record_confirmation_safe b t ds : keeps safe_step (record_confirmation_with_advance b t ds).
Proof. by apply (repo_call_safe _ (CRecordConfirmation b t ds)). Qed.
#[export] Hint Resolve register_action_safe advance_action_safe append_evidence_safe capture_safe bind_contract_safe
  release_lease_safe acquire_lease_safe begin_execution_safe execute_plan_mutation_safe record_verification_safe
  mark_reconciled_safe advance_rollback_safe save_verification_safe record_confirmation_safe : safety.

(** Walks a computation, closing the operations the hints know. *)
Ltac keeps_leaf :=
  match goal with |- keeps_from ?R _ ?m =>
    let H := fresh in assert (keeps R m) as H by (solve [eauto with safety nocore]); exact (H _) end.
Ltac keeps_walk := repeat match goal with
  | |- keeps_from _ _ (bindM _ _) => apply keeps_from_bind; [exact _| |intros]
  | |- keeps_from _ _ (match ?x with _ => _ end) => destruct x eqn:?
  | |- keeps_from _ _ _ => keeps_leaf
  | |- keeps_from _ _ _ => apply keeps_from_reads; [exact _|solve [solve_atomic]]
  end.

Lemma read_plan_reads t : reads (read_plan t).
Proof. unfold read_plan. solve_atomic. Qed.
#[export] Hint Resolve read_plan_reads : atomicity.

Lemma verify_and_record_safe d clk c now v rev : keeps safe_step (verify_and_record d clk c now v rev).
Proof. intros s. unfold verify_and_record. keeps_walk. Qed.
#[export] Hint Resolve verify_and_record_safe : safety.
#[export] Hint Resolve validate_world_reads validate_confirmation_reads validate_snapshot_reads validate_lease_reads
  validate_current_plan_reads load_snapshot_reads : atomicity.

Lemma bind_and_check_gate_safe x clk c a m : keeps safe_step (bind_and_check_gate x clk c a m).
Proof. intros s. unfold bind_and_check_gate. keeps_walk. Qed.
Lemma mutate_and_verify_safe d clk c a now m : keeps safe_step (mutate_and_verify d clk c a now m).
Proof. intros s. unfold mutate_and_verify. keeps_walk. Qed.
#[export] Hint Resolve bind_and_check_gate_safe mutate_and_verify_safe : safety.
Lemma execute_safe x d clk c now : keeps safe_step (execute x d clk c now).
Proof. intros s. unfold execute. keeps_walk. Qed.
Lemma reconcile_safe x clk c now : keeps safe_step (reconcile x clk c now).
Proof. intros s. unfold reconcile. keeps_walk. Qed.

Lemma contract_fields_reads py x a r : reads (contract_fields py x a r).
Proof. unfold contract_fields. solve_atomic. Qed.
#[export] Hint Resolve contract_fields_reads : atomicity.
Lemma contract_for_action_reads py x clk a m : reads (contract_for_action py x clk a m).
Proof. unfold contract_for_action. solve_atomic. Qed.
Lemma validate_rollback_reads x clk r o m : reads (validate_rollback x clk r o m).
Proof. unfold validate_rollback. solve_atomic. Qed.
Lemma reload_reads i : reads (reload i).
Proof. unfold reload. solve_atomic. Qed.
#[export] Hint Resolve contract_for_action_reads validate_rollback_reads reload_reads : atomicity.
Lemma prepare_lease_safe d a id m : keeps safe_step (prepare_lease d a id m).
Proof. intros s. unfold prepare_lease. keeps_walk. Qed.
Lemma begin_rollback_safe d c id a m : keeps safe_step (begin_rollback d c id a m).
Proof. intros s. unfold begin_rollback. keeps_walk. Qed.
Lemma verify_rollback_safe d clk c id v t env oid o sn now :
  keeps safe_step (verify_rollback d clk c id v t env oid o sn now).
Proof. intros s. unfold verify_rollback. keeps_walk. Qed.
#[export] Hint Resolve prepare_lease_safe begin_rollback_safe verify_rollback_safe : safety.
Lemma restore_and_verify_safe x d clk c id oid v a o now m :
  keeps safe_step (restore_and_verify x d clk c id oid v a o now m).
Proof. intros s. unfold restore_and_verify. keeps_walk. Qed.
#[export] Hint Resolve restore_and_verify_safe : safety.
Lemma execute_rollback_safe py x d clk rid oid now : keeps safe_step (execute_rollback py x d clk rid oid now).
Proof. intros s. unfold execute_rollback. keeps_walk. Qed.
#[export] Hint Resolve execute_safe reconcile_safe execute_rollback_safe : safety.

Lemma request_confirmation_safe n d subject now : keeps (S := repo) safe_step (request_confirmation n d subject now).
Proof.
  intros s. unfold request_confirmation. keeps_walk. apply keeps_from_modify. by apply safe_core.
Qed.
Lemma build_confirmation_reads b subject now : reads (S := repo) (build_confirmation b subject now).
Proof. unfold build_confirmation, validate_binding, stored. solve_atomic. Qed.
#[export] Hint Resolve request_confirmation_safe : safety.
#[export] Hint Resolve build_confirmation_reads : atomicity.

(** ** Quiet computations of the service *)

Section quiet.
Context {E : Type}.
Notation W := (service E).

(** The repository took safe steps and the runtime was not called. *)
Definition quiet (w w' : W) : Prop := safe_step (sv_repo w) (sv_repo w') ∧ sv_world w' = sv_world w.
#[export] Instance quiet_preorder : PreOrder quiet.
Proof.
  split.
  - intros w. by split.
  - intros w1 w2 w3 [H1 E1] [H2 E2]. split; [by etrans|congruence].
Qed.

Lemma quiet_repo {A} (m : M repo A) : keeps safe_step m → keeps quiet (on_repo (E := E) m).
Proof.
  intros H w w' r. unfold on_repo, on. destruct (m (sv_repo w)) as [s r'] eqn:Em. intros [= <- _].
  split; [by apply (H _ _ _ Em)|done].
Qed.
Lemma quiet_sessions {A} (m : M session_store A) : keeps quiet (on_sessions (E := E) m).
Proof. intros w w' r. unfold on_sessions, on. destruct (m _) as [s r']. intros [= <- _]. by split. Qed.
Lemma quiet_auth {A} (m : M authenticator A) : keeps quiet (on_auth (E := E) m).
Proof. intros w w' r. unfold on_auth, on. destruct (m _) as [s r']. intros [= <- _]. by split. Qed.
Lemma quiet_switches {A} (m : M kill_store A) : keeps quiet (on_switches (E := E) m).
Proof.
  intros w w' r. unfold on_switches. destruct (sv_switches w) as [k|]; [|by intros [= <- _]].
  destruct (m _) as [k' r']. intros [= <- _]. split; [|done]. cbn.
  destruct (kst_audit k'); [by apply safe_core|done].
Qed.
Lemma quiet_modify f : (∀ w : W, sv_repo (f w) = sv_repo w ∧ sv_world (f w) = sv_world w) → keeps quiet (modifyM f).
Proof. intros H w. apply keeps_from_modify. destruct (H w) as [E1 E2]. split; [by rewrite E1|done]. Qed.
Lemma keeps_catch {S A} (R : S → S → Prop) `{!PreOrder R} (m : M S A) h :
  keeps R m → (∀ e m', h e = Some m' → keeps R m') → keeps R (catchM m h).
Proof.
  intros Hm Hh s s' r. unfold catchM. destruct (m s) as [s1 [a|e]] eqn:Em.
  { intros [= <- _]. by apply (Hm _ _ _ Em). }
  destruct (h e) as [m'|] eqn:Ee; [|by intros [= <- _]; apply (Hm _ _ _ Em)].
  intros H. etrans; [by apply (Hm _ _ _ Em)|by apply (Hh _ _ Ee _ _ _ H)].
Qed.
Lemma keeps_attempt {S A} (R : S → S → Prop) (m : M S A) : keeps R m → keeps R (attempt m).
Proof. intros Hm s s' r. unfold attempt. destruct (m s) as [s1 [a|e]] eqn:Em; intros [= <- _]; by apply (Hm _ _ _ Em). Qed.
Lemma keeps_reads {S A} (R : S → S → Prop) `{!PreOrder R} (m : M S A) : reads m → keeps R m.
Proof. intros H s. by apply keeps_from_reads. Qed.
Lemma reads_on_repo {A} (m : M repo A) : reads m → reads (on_repo (E := E) m).
Proof.
  intros Hm w. unfold on_repo, on. specialize (Hm (sv_repo w)). destruct (m _) as [s r]. cbn in *. subst s. by destruct w.
Qed.
End quiet.
#[export] Hint Resolve quiet_repo quiet_sessions quiet_auth quiet_switches keeps_attempt : safety.
#[export] Hint Resolve reads_on_repo : atomicity.

(** Quiet is closed under everything but the call of the runtime. *)
Section calls.
Context {E : Type}.
Notation W := (service E).
Variables (py : py_values) (cf : service_config) (pt : ports E).

Lemma audit_quiet d : keeps quiet (audit (E := E) d).
Proof. intros w. unfold audit. keeps_walk. Qed.
#[local] Hint Resolve audit_quiet : safety.
Lemma session_of_quiet v i sid : keeps quiet (session_of (E := E) v i sid).
Proof. intros w. unfold session_of, control_plane_error. keeps_walk. Qed.
#[local] Hint Resolve session_of_quiet : safety.
Lemma login_quiet v secret : keeps quiet (login (E := E) cf v secret).
Proof. intros w. unfold login, control_plane_error. keeps_walk. Qed.
Lemma logout_quiet v sid : keeps quiet (logout (E := E) v sid).
Proof. intros w. unfold logout. keeps_walk. Qed.
Lemma rotate_credentials_quiet v : keeps quiet (rotate_credentials (E := E) v).
Proof. intros w. unfold rotate_credentials. keeps_walk. Qed.
Lemma switch_posture_quiet v e : keeps quiet (switch_posture (E := E) v e).
Proof. intros w. unfold switch_posture. keeps_walk. Qed.
#[local] Hint Resolve switch_posture_quiet : safety.
Lemma ensure_permitted_quiet v e : keeps quiet (ensure_operation_permitted (E := E) v e).
Proof. intros w. unfold ensure_operation_permitted. keeps_walk. Qed.
Lemma switch_epoch_quiet v e : keeps quiet (switch_epoch (E := E) v e).
Proof. intros w. unfold switch_epoch. keeps_walk. Qed.
#[local] Hint Resolve ensure_permitted_quiet switch_epoch_quiet : safety.
Lemma read_current_plan_reads t : reads (read_current_plan pt t).
Proof. unfold read_current_plan. solve_atomic. Qed.
Lemma named_action_reads id : reads (named_action (E := E) id).
Proof. unfold named_action, control_plane_error. solve_atomic. Qed.
#[local] Hint Resolve read_current_plan_reads named_action_reads : atomicity.

Lemma register_quiet v d r p ds refs : keeps quiet (register_allowed_action (E := E) v d r p ds refs).
Proof. intros w. unfold register_allowed_action, control_plane_error. keeps_walk. Qed.
#[local] Hint Resolve register_quiet : safety.
Lemma replay_quiet v actor r a : keeps quiet (replay_or_conflict (E := E) v actor r a).
Proof. intros w. unfold replay_or_conflict, control_plane_error. keeps_walk. Qed.
Lemma decide_quiet v p r ds refs : keeps quiet (decide_request cf pt v p r ds refs).
Proof. intros w. unfold decide_request. keeps_walk. Qed.
#[local] Hint Resolve replay_quiet decide_quiet : safety.
Lemma authorize_quiet v sid r ds refs : keeps quiet (authorize_request cf pt v sid r ds refs).
Proof. intros w. unfold authorize_request. keeps_walk. Qed.
Lemma confirm_quiet v sid id : keeps quiet (confirm_decision (E := E) cf v sid id).
Proof.
  intros w. unfold confirm_decision, control_plane_error. keeps_walk.
  apply keeps_catch; [exact _|apply keeps_reads; [exact _|by apply reads_on_repo, build_confirmation_reads]|].
  intros [] m'; try done. intros [= <-] w'. keeps_walk.
Qed.
#[local] Hint Resolve authorize_quiet confirm_quiet : safety.
Lemma confirm_action_quiet v sid id : keeps quiet (confirm_action (E := E) cf v sid id).
Proof. intros w. unfold confirm_action, control_plane_error. keeps_walk. Qed.
Lemma capture_quiet v sid id : keeps quiet (capture_snapshot pt v sid id).
Proof. intros w. unfold capture_snapshot, control_plane_error. keeps_walk. Qed.
Lemma record_verification_quiet v sid id e : keeps quiet (record_verification (E := E) v sid id e).
Proof. intros w. unfold record_verification. keeps_walk. Qed.
Lemma plan_action_rollback_quiet v sid id : keeps quiet (plan_action_rollback (E := E) py v sid id).
Proof. intros w. unfold plan_action_rollback. keeps_walk. Qed.
#[local] Hint Resolve capture_quiet plan_action_rollback_quiet : safety.
Lemma request_rollback_quiet v sid id : keeps quiet (request_rollback py cf pt v sid id).
Proof. intros w. unfold request_rollback. keeps_walk. Qed.

(** ** Execution *)

Lemma leased_action_quiet v id a m : keeps quiet (leased_action (E := E) v id a m).
Proof. intros w. unfold leased_action, control_plane_error. keeps_walk. Qed.
#[local] Hint Resolve leased_action_quiet : safety.
Lemma execute_action_rollback_quiet v sid oid rid : keeps quiet (execute_action_rollback py pt v sid oid rid).
Proof. intros w. unfold execute_action_rollback. keeps_walk. Qed.
Lemma execute_update_quiet v id a m : keeps quiet (execute_update_action cf pt v id a m).
Proof. intros w. unfold execute_update_action, control_plane_error. keeps_walk. Qed.
#[local] Hint Resolve execute_action_rollback_quiet execute_update_quiet : safety.
Lemma execute_action_quiet v sid id : keeps quiet (execute_action py cf pt v sid id).
Proof. intros w. unfold execute_action. keeps_walk. Qed.
Lemma reconcile_action_quiet v sid id : keeps quiet (reconcile_action cf pt v sid id).
Proof. intros w. unfold reconcile_action, control_plane_error. keeps_walk. Qed.

(** ** Approvals and dry runs *)

Lemma mutation_pairs_reads t : reads (mutation_pairs_for_target pt t).
Proof. unfold mutation_pairs_for_target, control_plane_error. solve_atomic. Qed.
#[local] Hint Resolve mutation_pairs_reads : atomicity.
Lemma with_evidence_quiet f : keeps (quiet (E := E)) (modifyM (λ w, with_evidence (f w) w)).
Proof. by apply quiet_modify. Qed.
Lemma with_dry_runs_quiet f : keeps (quiet (E := E)) (modifyM (λ w, with_dry_runs (f w) w)).
Proof. by apply quiet_modify. Qed.
#[local] Hint Resolve with_evidence_quiet with_dry_runs_quiet : safety.
Lemma authorize_and_confirm_quiet v sid d r sa : keeps quiet (authorize_and_confirm cf pt v sid d r sa).
Proof. intros w. unfold authorize_and_confirm, control_plane_error. keeps_walk. Qed.
#[local] Hint Resolve authorize_and_confirm_quiet : safety.
Lemma approve_quiet v sid t e d k n : keeps quiet (approve_update_plan cf pt v sid t e d k n).
Proof. intros w. unfold approve_update_plan. keeps_walk. Qed.
Lemma adapt_reads i : reads (adapt (E := E) cf i).
Proof. unfold adapt. solve_atomic. Qed.
#[local] Hint Resolve adapt_reads : atomicity.
Lemma record_dry_run_quiet t i p fs l o : keeps quiet (record_dry_run (E := E) t i p fs l o).
Proof. intros w. unfold record_dry_run. keeps_walk. Qed.
Lemma dry_run_lease_quiet v a : keeps quiet (dry_run_lease (E := E) v a).
Proof. intros w. unfold dry_run_lease, control_plane_error. keeps_walk. Qed.
#[local] Hint Resolve record_dry_run_quiet dry_run_lease_quiet : safety.
Lemma rehearse_quiet v sid r d i : keeps quiet (rehearse cf pt v sid r d i).
Proof. intros w. unfold rehearse, control_plane_error. keeps_walk. Qed.
#[local] Hint Resolve rehearse_quiet : safety.
Lemma dry_run_quiet v sid i : keeps quiet (dry_run_update_intent cf pt v sid i).
Proof. intros w. unfold dry_run_update_intent, control_plane_error. keeps_walk. Qed.
End calls.
