(* ===== verification/ServiceProps.v ===== *)
(** * ServiceProps: histories of service calls (control_plane/service.py)

    Any sequence of calls of the service, with any answers of the ports: an
    update runs at most once, only after its own verified execution, and a call
    without a live session does nothing. *)

From S2P Require Import Prelude PyStr PyText PyDict PyTime Json Models Lifecycle ProjectPlan Identity Policy.
From S2P Require Import Confirmation AuditLedger AuditBuilders KillSwitch Verification Rollback ActionRepo.
From S2P Require Import ActionSpec Capability Contract Gate Executor RollbackExec Session OwnerAuth ServicePlan.
From S2P Require Import ServiceState ServiceFlow ServiceRun ServiceBridge ServiceSafety.
From Stdlib Require Import Ascii String ZArith Lia.
From stdpp Require Import base strings gmap list.

Local Open Scope string_scope.
Local Open Scope Z_scope.
Local Open Scope aipm_scope.

(** ** Calls *)

Inductive service_call :=
  | SLogin (secret : string)
  | SLogout (session_id : string)
  | SRotateCredentials
  | SAuthorize (session_id : string) (request : ActionRequest) (extra : list AuditEventDraft)
      (refs : option (string * string))
  | SConfirm (session_id decision_id : string)
  | SConfirmAction (session_id action_id : string)
  | SCapture (session_id action_id : string)
  | SRecordVerification (session_id action_id : string) (expected : ExpectedState)
  | SPlanRollback (session_id action_id : string)
  | SRequestRollback (session_id action_id : string)
  | SExecute (session_id action_id : string)
  | SExecuteRollback (session_id original_action_id rollback_action_id : string)
  | SReconcile (session_id action_id : string)
  | SDryRun (session_id : string) (intent : LegacyUpdateIntent)
  | SApproveUpdate (session_id target_id environment digest key : string) (service_name : option string)
  | SRunUpdate (session_id action_id : string)
  | SEngageSwitch (actor reason : string)
  | SDisengageSwitch (actor reason : string).

(** The session a call presents; [logout] also accepts a session that is gone. *)
Definition presented_session (c : service_call) : option string :=
  match c with
  | SAuthorize sid _ _ _ | SConfirm sid _ | SConfirmAction sid _ | SCapture sid _ | SRecordVerification sid _ _
  | SPlanRollback sid _ | SRequestRollback sid _ | SExecute sid _ | SExecuteRollback sid _ _ | SReconcile sid _
  | SDryRun sid _ | SApproveUpdate sid _ _ _ _ _ | SRunUpdate sid _ => Some sid
  | SLogin _ | SLogout _ | SRotateCredentials | SEngageSwitch _ _ | SDisengageSwitch _ _ => None
  end.

Section calls.
Context {E : Type}.
Notation W := (service E).
Variables (py : py_values) (cf : service_config).

Definition serve_call (pt : ports E) (v : call_env) (c : service_call) : M W unit :=
  match c with
  | SLogin secret => ignore (login cf v secret)
  | SLogout sid => logout v sid
  | SRotateCredentials => ignore (rotate_credentials v)
  | SAuthorize sid r ds refs => ignore (authorize_request cf pt v sid r ds refs)
  | SConfirm sid id => ignore (confirm_decision cf v sid id)
  | SConfirmAction sid id => ignore (confirm_action cf v sid id)
  | SCapture sid id => ignore (capture_snapshot pt v sid id)
  | SRecordVerification sid id e => ignore (record_verification v sid id e)
  | SPlanRollback sid id => ignore (plan_action_rollback py v sid id)
  | SRequestRollback sid id => ignore (request_rollback py cf pt v sid id)
  | SExecute sid id => ignore (execute_action py cf pt v sid id)
  | SExecuteRollback sid oid rid => ignore (execute_action_rollback py pt v sid oid rid)
  | SReconcile sid id => ignore (reconcile_action cf pt v sid id)
  | SDryRun sid i => ignore (dry_run_update_intent cf pt v sid i)
  | SApproveUpdate sid t e d k n => ignore (approve_update_plan cf pt v sid t e d k n)
  | SRunUpdate sid id => ignore (run_approved_update py cf pt v sid id)
  | SEngageSwitch actor reason => ignore (engage_kill_switch cf v actor reason)
  | SDisengageSwitch actor reason => ignore (disengage_kill_switch cf v actor reason)
  end.

(** One call with the ports and the readings it meets. *)
Record service_event := { sx_ports : ports E; sx_env : call_env; sx_call : service_call }.
Definition serve_event (e : service_event) (w : W) : W := fst (serve_call (sx_ports e) (sx_env e) (sx_call e) w).
Definition serve_events (es : list service_event) (w : W) : W := fold_left (λ w e, serve_event e w) es w.

(** ** What one call does *)

Lemma keeps_ignore {S A} (R : S → S → Prop) (m : M S A) : keeps R m → keeps R (ignore m).
Proof.
  intros H s s' r. unfold ignore, bindM, retM. destruct (m s) as [s1 [a|e]] eqn:Em; intros [= <- _]; by apply (H _ _ _ Em).
Qed.

(** Every call but [run_approved_update] is quiet. *)
Lemma serve_call_quiet pt v c :
  (∀ sid id, c ≠ SRunUpdate sid id) → keeps quiet (serve_call pt v c).
Proof.
  intros Hc. destruct c; cbn [serve_call]; try apply keeps_ignore.
  - apply login_quiet.
  - apply logout_quiet.
  - apply rotate_credentials_quiet.
  - apply authorize_quiet.
  - apply confirm_quiet.
  - apply confirm_action_quiet.
  - apply capture_quiet.
  - apply record_verification_quiet.
  - apply plan_action_rollback_quiet.
  - apply request_rollback_quiet.
  - apply execute_action_quiet.
  - apply execute_action_rollback_quiet.
  - apply reconcile_action_quiet.
  - apply dry_run_quiet.
  - apply approve_quiet.
  - by destruct (Hc session_id action_id).
  - apply quiet_switches.
  - apply quiet_switches.
Qed.

(** The runtime was called with [b], for an action this call has verified. *)
Record ran_update (pt : ports E) (v : call_env) (id : string) (b : UpdateExecutionBinding) (w w' : W) : Prop := {
  ru_before : ∃ a, get_action id (sv_repo w) = Some a ∧ lc_state a ∉ replayed_states;
  ru_call : ∃ w1 a runtime, quiet w w1 ∧ get_action id (sv_repo w1) = Some a ∧ lc_state a = VERIFIED_SUCCESS ∧
    update_binding_for cf pt v a w1 = Ok b ∧ pt_update_runtime pt = Some runtime ∧
    w' = with_world (fst (runtime b (sv_world w1))) w1;
}.

(** One step of a computation: it stops within the relation, or goes on. *)
Lemma bindM_keeps {S A B} (R : S → S → Prop) (m : M S A) (k : A → M S B) s s' r :
  keeps R m → bindM m k s = (s', r) →
  (R s s' ∧ ∃ e, r = Raise e) ∨ ∃ a s1, m s = (s1, Ok a) ∧ R s s1 ∧ k a s1 = (s', r).
Proof.
  intros Hm. unfold bindM. destruct (m s) as [s1 [a|e]] eqn:Em.
  - intros H. right. exists a, s1. split; [done|]. split; [by apply (Hm _ _ _ Em)|done].
  - intros [= <- <-]. left. split; [by apply (Hm _ _ _ Em)|by eexists].
Qed.

Lemma named_action_Ok id (w w' : W) a : named_action id w = (w', Ok a) → w' = w ∧ get_action id (sv_repo w) = Some a.
Proof. unfold named_action, bindM, getM. destruct (get_action id (sv_repo w)); [by intros [= <- <-]|done]. Qed.

Lemma run_runtime_cases (pt : ports E) v a o (w w' : W) r :
  run_runtime cf pt v a o w = (w', r) →
  w' = w ∨ ∃ b runtime, update_binding_for cf pt v a w = Ok b ∧ pt_update_runtime pt = Some runtime ∧
    w' = with_world (fst (runtime b (sv_world w))) w.
Proof.
  unfold run_runtime. unfold bindM at 1, getM. cbn. unfold bindM at 1, liftM.
  destruct (update_binding_for cf pt v a w) as [b|e]; [|intros [= <- _]; by left].
  destruct (pt_update_runtime pt) as [runtime|]; [|intros [= <- _]; by left].
  unfold bindM, on_world, on. destruct (runtime b (sv_world w)) as [x [answer|e]] eqn:Er; intros [= <- _]; right;
    exists b, runtime; by rewrite Er.
Qed.

Lemma run_update_cases (pt : ports E) v sid id (w w' : W) r :
  run_approved_update py cf pt v sid id w = (w', r) → quiet w w' ∨ ∃ b, ran_update pt v id b w w'.
Proof.
  intros H. unfold run_approved_update in H.
  apply (bindM_keeps quiet) in H as [[H _]|(u & w0 & Hu & _ & H)]; [by left| |apply keeps_reads; [exact _|solve_atomic]].
  apply liftM_raise_unless_Ok in Hu as [_ ->].
  apply (bindM_keeps quiet) in H as [[H _]|(a & w1 & Ha & _ & H)];
    [by left| |apply keeps_reads; [exact _|apply named_action_reads]].
  apply named_action_Ok in Ha as [-> Ha]. cbv zeta in H.
  apply (bindM_keeps quiet) in H as [[H _]|(u1 & w1 & _ & Q1 & H)]; [by left| |].
  2: { intros w1. keeps_walk. apply capture_quiet. }
  apply (bindM_keeps quiet) in H as [[H _]|(res & w2 & _ & Q2 & H)]; [left; by etrans| |apply execute_action_quiet].
  assert (quiet w w2) as Q by (by etrans).
  unfold bindM at 1, getM in H. destruct (get_action id (sv_repo w2)) as [a'|] eqn:Ea'; [|by injection H as <- _; left].
  destruct (negb _ || _) eqn:Ego; [by injection H as <- _; left|].
  apply orb_false_iff in Ego as [Ev Et]. apply negb_false_iff, bool_decide_eq_true in Ev.
  apply run_runtime_cases in H as [->|(b & runtime & Hb & Hrt & ->)]; [by left|]. right. exists b. split.
  - exists a. split; [done|]. by apply bool_decide_eq_false in Et.
  - by exists w2, a', runtime.
Qed.
End calls.

(** ** The binding handed to the runtime *)

(** What a binding says, in terms of the repository. *)
Record binding_of {E} (pt : ports E) (w : service E) (a : ActionLifecycle) (b : UpdateExecutionBinding) : Prop := {
  bo_action : ueb_action_id b = lc_action_id a;
  bo_project : ueb_project_name b = sc_target_id (lc_scope a);
  bo_protocol : ueb_action_protocol b = lc_action_protocol a;
  bo_plan : ∃ d r i, durable_binding a (sv_repo w) = Some (d, r, i) ∧
    dget "update_plan_digest" (request_pairs r) = Some (ueb_plan_digest b) ∧ ueb_plan_digest b ≠ EmptyString;
  bo_confirmation : confirmation_id_for (lc_action_id a) (sv_repo w) = Some (ueb_confirmation_id b);
  bo_contract : ∃ e, get_contract_evidence (lc_action_id a) (sv_repo w) = Some e ∧
    ce_contract_digest e = ueb_contract_digest b;
  bo_scope : ∀ e, dget (lc_action_id a) (sv_evidence w) = Some e →
    ueb_service_scope b = Some (se_derived_execution_scope e);
}.

Lemma truthy_subject_Some o s : truthy_subject o = Some s → o = Some s ∧ s ≠ EmptyString.
Proof. unfold truthy_subject. destruct o as [[|c t]|]; naive_solver. Qed.

Lemma update_binding_Ok {E} cf (pt : ports E) v a w b :
  update_binding_for cf pt v a w = Ok b → binding_of pt w a b.
Proof.
  unfold update_binding_for. destruct (durable_binding a _) as [[[d r] i]|] eqn:Ed; [|done].
  destruct (truthy_subject _) as [digest|] eqn:Et; [|done]. apply truthy_subject_Some in Et as [Et Hne].
  destruct (confirmation_id_for _ _) as [cid|] eqn:Ec; [|done].
  destruct (get_contract_evidence _ _) as [e|] eqn:Ee; [|done]. intros H. inv_ok.
  destruct (lease_of_record _ _ _ _) as [l|]; [|done]. inv_ok.
  match goal with H : check_UpdateExecutionBinding _ = Ok b |- _ =>
    unfold check_UpdateExecutionBinding in H; inv_ok end.
  split; try done.
  - exists d, r, i. by split_and!.
  - by exists e.
  - cbn. intros e' He'. match goal with H : binding_scope _ _ = Ok _ |- _ =>
      rewrite He' in H; unfold binding_scope in H; by inv_ok end.
Qed.

(** ** A log of the updates *)

(** The runtime, with a record of the bindings it was called with. *)
Definition logging {E} (runtime : UpdateExecutionBinding → M E (option (dict string json)))
  : UpdateExecutionBinding → M (list UpdateExecutionBinding * E) (option (dict string json)) :=
  λ b le, let '(e', r) := runtime b (snd le) in ((fst le ++ [b], e')%list, r).
Definition logged {E} (pt : ports E) : ports (list UpdateExecutionBinding * E) :=
  {| pt_registrations := pt_registrations pt; pt_verifier := pt_verifier pt; pt_service_plan := pt_service_plan pt;
     pt_plan_digest := pt_plan_digest pt; pt_digest_plan_service := pt_digest_plan_service pt;
     pt_ipc_client := pt_ipc_client pt; pt_update_runtime := logging <$> pt_update_runtime pt |}.
Definition log_event {E} (e : service_event (E := E)) : service_event :=
  {| sx_ports := logged (sx_ports e); sx_env := sx_env e; sx_call := sx_call e |}.

Section history.
Context {E : Type}.
Notation W := (service (list UpdateExecutionBinding * E)).
Variables (py : py_values) (cf : service_config).

(** The updates that ran. *)
Definition updates (w : W) : list UpdateExecutionBinding := fst (sv_world w).

Record updates_ok (w : W) : Prop := {
  uo_repo : repo_ok (sv_repo w);
  uo_once : NoDup (List.map ueb_action_id (updates w));
  uo_verified : ∀ b, b ∈ updates w → ∃ a e, get_action (ueb_action_id b) (sv_repo w) = Some a ∧
    lc_state a = VERIFIED_SUCCESS ∧ get_contract_evidence (ueb_action_id b) (sv_repo w) = Some e ∧
    ce_contract_digest e = ueb_contract_digest b;
}.

(** A verified action stays as it is. *)
Lemma verified_final a a' : advances a a' → lc_state a = VERIFIED_SUCCESS → a' = a.
Proof.
  intros H Hv. inversion H as [|? a1 ? (t & now & actor & Hs) _]; [done|].
  rewrite terminal_states_final in Hs; [done|]. rewrite Hv. unfold terminal_states, TERMINAL_STATES. set_solver.
Qed.

Lemma quiet_updates_ok w w' : quiet w w' → updates_ok w → updates_ok w'.
Proof.
  intros [Hs Hw] [R N V]. destruct (Hs R) as [R' Ev]. unfold updates in *. rewrite <- Hw in N, V.
  split; [done|done|]. intros b Hb. destruct (V b Hb) as (a & e & Ha & Hst & He & Hd).
  destruct (ev_action _ _ Ev _ _ Ha) as (a' & Ha' & Hadv). apply verified_final in Hadv as ->; [|done].
  exists a, e. split_and!; try done. by apply Ev.
Qed.

Lemma ran_updates_ok (pt : ports E) v id b w w' :
  ran_update cf (logged pt) v id b w w' → updates_ok w → updates_ok w'.
Proof.
  intros [(a0 & Ha0 & Hst0) (w1 & a & runtime & Q & Ha & Hst & Hb & Hrt & ->)] Hw.
  pose proof (quiet_updates_ok _ _ Q Hw) as [R N V]. destruct Q as [_ Hwd].
  apply update_binding_Ok in Hb as [Hid _ _ _ _ (ev & Hev & Hd) _].
  rewrite (ro_action _ R _ _ Ha) in Hid, Hev.
  cbn [pt_update_runtime logged] in Hrt. apply fmap_Some in Hrt as (rt & _ & ->).
  assert (updates (with_world (fst (logging rt b (sv_world w1))) w1) = (updates w1 ++ [b])%list) as Hu.
  { unfold updates, logging. cbn. by destruct (rt b (snd (sv_world w1))). }
  split; [done| |].
  - rewrite Hu, List.map_app. apply NoDup_app. split; [done|]. split; [|apply NoDup_singleton].
    intros x Hx Hx'. apply list_elem_of_singleton in Hx' as ->. apply Hst0.
    apply list_elem_of_In, List.in_map_iff in Hx as (b' & Hb' & Hin). apply list_elem_of_In in Hin.
    assert (b' ∈ updates w) as Hin' by (unfold updates in *; by rewrite <- Hwd).
    destruct (uo_verified _ Hw _ Hin') as (a' & _ & Ha' & Hst' & _). rewrite Hb', Hid, Ha0 in Ha'.
    injection Ha' as ->. rewrite Hst'. unfold replayed_states. set_solver.
  - rewrite Hu. intros b' [Hin|Hin]%elem_of_app; [by apply V|]. apply list_elem_of_singleton in Hin as ->.
    exists a, ev. rewrite Hid. by split_and!.
Qed.

Lemma serve_event_ok (e : service_event (E := E)) w :
  updates_ok w → updates_ok (serve_event py cf (log_event e) w).
Proof.
  intros Hw. unfold serve_event. destruct (serve_call _ _ _ _ _ _) as [w' r] eqn:Ec. cbn [fst].
  destruct (sx_call e) as [| | | | | | | | | | | | | | |sid id| |] eqn:Ecall.
  16: { cbn [log_event sx_call sx_ports sx_env] in Ec. rewrite Ecall in Ec. cbn [serve_call] in Ec.
    unfold ignore in Ec. unfold bindM in Ec. destruct (run_approved_update _ _ _ _ _ _ w) as [w1 r1] eqn:Er.
    assert (w1 = w') as -> by (by destruct r1; injection Ec). clear Ec.
    apply run_update_cases in Er as [Q|[b Hb]]; [by eapply quiet_updates_ok|by eapply ran_updates_ok]. }
  all: cbn [log_event sx_call sx_ports sx_env] in Ec; rewrite Ecall in Ec;
    eapply quiet_updates_ok; [|exact Hw]; eapply serve_call_quiet; [|exact Ec]; done.
Qed.

Lemma serve_events_ok (es : list (service_event (E := E))) w :
  updates_ok w → updates_ok (serve_events py cf (List.map log_event es) w).
Proof.
  revert w. induction es as [|e es IH]; intros w Hw; [done|]. cbn. by apply IH, serve_event_ok.
Qed.
End history.

(** ** A call without a session *)

(** The computation raises and leaves the state as it is. *)
Definition refused_at {S A} (s : S) (m : M S A) : Prop := ∃ e, m s = (s, Raise e).

Lemma refused_bind {S A B} (s : S) (m : M S A) (k : A → M S B) : refused_at s m → refused_at s (bindM m k).
Proof. intros [e H]. exists e. unfold bindM. by rewrite H. Qed.
Lemma refused_after_reads {S A B} (s : S) (m : M S A) (k : A → M S B) :
  reads m → (∀ a, refused_at s (k a)) → refused_at s (bindM m k).
Proof.
  intros Hm Hk. destruct (m s) as [s1 r] eqn:Em. pose proof (reads_Ok _ _ _ _ Hm Em) as ->.
  destruct r as [a|e].
  - destruct (Hk a) as [e He]. exists e. unfold bindM. by rewrite Em.
  - exists e. unfold bindM. by rewrite Em.
Qed.
Lemma refused_raise {S A} (s : S) e : refused_at s (raiseM (A := A) e).
Proof. by exists e. Qed.

Create HintDb refusal discriminated.
#[export] Hint Constants Opaque : refusal.
#[export] Hint Resolve refused_raise : refusal.

(** Walks a computation to the step that refuses. *)
Ltac refusal_walk := repeat match goal with
  | |- refused_at _ (match ?x with _ => _ end) => destruct x
  | |- refused_at _ _ => solve [eauto with refusal nocore]
  | |- refused_at _ (bindM _ _) =>
      first [ apply refused_bind; solve [eauto with refusal nocore]
            | apply refused_after_reads; [solve [solve_atomic]|intros] ]
  end.

Section sessionless.
Context {E : Type}.
Notation W := (service E).
Variables (py : py_values) (cf : service_config) (pt : ports E) (v : call_env) (sid : string) (w : W).

(** No session of this identifier: never issued, revoked, expired and removed,
    or dropped with a credential rotation. *)
Hypothesis no_session : ss_sessions (sv_sessions w) !! sid = None.

Lemma session_of_refused v' i : refused_at w (session_of v' i sid).
Proof.
  exists (ControlPlaneError SESSION_INVALID). unfold session_of, on_sessions, on, get_session, bindM, getM.
  rewrite no_session. cbn. by destruct w.
Qed.
#[local] Hint Resolve session_of_refused : refusal.
#[local] Hint Resolve named_action_reads mutation_pairs_reads : atomicity.

Lemma authorize_refused v' r ds refs : refused_at w (authorize_request cf pt v' sid r ds refs).
Proof. unfold authorize_request. refusal_walk. Qed.
Lemma confirm_refused v' id : refused_at w (confirm_decision cf v' sid id).
Proof. unfold confirm_decision. refusal_walk. Qed.
Lemma capture_refused v' id : refused_at w (capture_snapshot pt v' sid id).
Proof. unfold capture_snapshot. refusal_walk. Qed.
Lemma plan_rollback_refused v' id : refused_at w (plan_action_rollback py v' sid id).
Proof. unfold plan_action_rollback. refusal_walk. Qed.
Lemma execute_action_refused v' id : refused_at w (execute_action py cf pt v' sid id).
Proof. unfold execute_action. refusal_walk. Qed.
Lemma authorize_and_confirm_refused v' d r sa : refused_at w (authorize_and_confirm cf pt v' sid d r sa).
Proof. unfold authorize_and_confirm. refusal_walk. Qed.
#[local] Hint Resolve authorize_refused confirm_refused capture_refused plan_rollback_refused execute_action_refused
  authorize_and_confirm_refused : refusal.

Lemma confirm_action_refused v' id : refused_at w (confirm_action cf v' sid id).
Proof. unfold confirm_action, control_plane_error. refusal_walk. Qed.
Lemma approve_refused v' t e d k n : refused_at w (approve_update_plan cf pt v' sid t e d k n).
Proof. unfold approve_update_plan. refusal_walk. Qed.
Lemma run_update_refused v' id : refused_at w (run_approved_update py cf pt v' sid id).
Proof.
  unfold run_approved_update. cbv zeta. refusal_walk. destruct (bool_decide _).
  - do 2 apply refused_bind. refusal_walk.
  - refusal_walk.
Qed.
#[local] Hint Resolve confirm_action_refused approve_refused run_update_refused : refusal.

Lemma sessionless_call_refused c : presented_session c = Some sid → refused_at w (serve_call py cf pt v c).
Proof.
  destruct c; cbn [presented_session serve_call]; intros [= ->] || done; apply refused_bind; refusal_walk.
  - unfold record_verification. refusal_walk.
  - unfold request_rollback. refusal_walk.
  - unfold execute_action_rollback. refusal_walk.
  - unfold reconcile_action. refusal_walk.
  - unfold dry_run_update_intent. refusal_walk.
Qed.
End sessionless.

(** ** The properties *)

(** C4: an update runs at most once.  Whatever sequence of calls the service
    serves, with whatever sessions, clocks and answers of the ports, starting
    from a well-formed repository and no update, the runtime is called at most
    once for each action, and every action it was called for is recorded as
    verified under the contract whose digest the call carried. *)
Theorem updates_run_once {E} (py : py_values) (cf : service_config) (es : list (service_event (E := E)))
    (w : service (list UpdateExecutionBinding * E)) :
  repo_ok (sv_repo w) → updates w = [] →
  let w' := serve_events py cf (List.map log_event es) w in
  NoDup (List.map ueb_action_id (updates w')) ∧
  ∀ b, b ∈ updates w' → ∃ a e, get_action (ueb_action_id b) (sv_repo w') = Some a ∧ lc_state a = VERIFIED_SUCCESS ∧
    get_contract_evidence (ueb_action_id b) (sv_repo w') = Some e ∧ ce_contract_digest e = ueb_contract_digest b.
Proof.
  intros Hok Hnil w'. assert (updates_ok w') as [_ N V].
  { apply serve_events_ok. split; [done|by rewrite Hnil; constructor|]. rewrite Hnil. by intros b ?%elem_of_nil. }
  done.
Qed.

(** C9: without a session nothing happens.  Every call that presents a session
    identifier which names no session - one never issued, logged out, expired
    and removed, or dropped by a rotation of the credentials - raises, and the
    whole state is as before: repository, ledger, sessions, switches, and the
    world behind the update runtime. *)
Theorem no_session_no_effect {E} (py : py_values) (cf : service_config) (pt : ports E) (v : call_env) (sid : string)
    (w : service E) (c : service_call) :
  presented_session c = Some sid → ss_sessions (sv_sessions w) !! sid = None →
  ∃ e, serve_call py cf pt v c w = (w, Raise e).
Proof. intros Hc Hn. by apply sessionless_call_refused with (sid := sid). Qed.

(** C5: what must be true for an update to run.  If one call changes the world
    behind the update runtime, it is a [run_approved_update], the named action
    was neither succeeded nor terminally recorded before, this call drove it to
    a verified success, and the runtime was handed a binding that agrees with
    the stored action: its project and protocol, the plan digest its confirmed
    request bound, its recorded confirmation and its executed contract. *)
Theorem update_runs_only_verified {E} (py : py_values) (cf : service_config) (pt : ports E) (v : call_env)
    (c : service_call) (w w' : service E) r :
  serve_call py cf pt v c w = (w', r) → sv_world w' ≠ sv_world w →
  ∃ sid id before after b runtime w1, c = SRunUpdate sid id ∧
    get_action id (sv_repo w) = Some before ∧ lc_state before ∉ replayed_states ∧
    get_action id (sv_repo w1) = Some after ∧ lc_state after = VERIFIED_SUCCESS ∧ binding_of pt w1 after b ∧
    pt_update_runtime pt = Some runtime ∧ w' = with_world (fst (runtime b (sv_world w1))) w1 ∧
    sv_world w1 = sv_world w.
Proof.
  intros Hc Hw. destruct c as [| | | | | | | | | | | | | | |sid id| |] eqn:Ec.
  16: { cbn [serve_call] in Hc. unfold ignore, bindM in Hc.
    destruct (run_approved_update _ _ _ _ _ _ w) as [w1 r1] eqn:Er.
    assert (w1 = w') as -> by (by destruct r1; injection Hc).
    apply run_update_cases in Er as [[_ Q]|[b [(before & Hb & Hst) (w2 & a & runtime & [_ Q] & Ha & Hv & Hu & Hr & ->)]]];
      [by rewrite Q in Hw|].
    exists sid, id, before, a, b, runtime, w2. split_and!; try done. by eapply update_binding_Ok. }
  all: exfalso; apply Hw; eapply serve_call_quiet in Hc; [by destruct Hc as [_ ->]|done].
Qed.
