(* ===== verification/ServiceDecisions.v ===== *)
(** * ServiceDecisions: what [authorize] leaves behind (control_plane/service.py)

    [authorize] either answers a replay from the stored decision, or plans and
    decides; only an allowed decision enters the repository, together with its
    action.  Everything but the sessions, the switches and the ledger is the
    books of the service. *)

From S2P Require Import Prelude PyStr PyText PyDict PyTime Json Models Lifecycle ProjectPlan Identity Policy.
From S2P Require Import Confirmation AuditLedger AuditBuilders KillSwitch Verification Rollback ActionRepo.
From S2P Require Import ActionSpec Contract Gate Executor Session OwnerAuth ServicePlan ServiceState ServiceFlow.
From S2P Require Import ServiceSafety.
From Stdlib Require Import Ascii String ZArith Lia.
From stdpp Require Import base strings gmap list.

Local Open Scope string_scope.
Local Open Scope Z_scope.
Local Open Scope aipm_scope.

(** ** The books *)

Section books.
Context {E : Type}.
Notation W := (service E).

(** The state but for the sessions, the kill switches and the ledger. *)
Definition books (w : W) : repo * dict string ServiceEvidenceContract * list DryRunMutationRecord * authenticator * E :=
  (set_audit None (sv_repo w), sv_evidence w, sv_dry_runs w, sv_auth w, sv_world w).
Definition same_books (w w' : W) : Prop := books w' = books w.
#[export] Instance same_books_preorder : PreOrder same_books.
Proof. unfold same_books. split; [done|]. intros w1 w2 w3 H1 H2. congruence. Qed.

(** The repository with an allowed decision and its action. *)
Definition registered (d : AuthorizationDecision) (a : ActionLifecycle) (s : repo) : repo :=
  set_registered (dset (ad_decision_id d) d (rp_decisions s)) (dset (lc_action_id a) a (rp_actions s))
    (dset (lifecycle_key a) (lc_action_id a) (rp_idempotency s)) s.

Lemma append_evidence_books ds s s' r : append_evidence ds s = (s', r) → set_audit None s' = set_audit None s.
Proof.
  revert s. induction ds as [|d ds IH]; intros s H; [by injection H as <- _|].
  rewrite append_evidence_cons in H. destruct (rp_audit s) as [l|]; [|by injection H as <- _].
  destruct (append_in_transaction d l) as [l' [e|x]]; [by apply IH in H|by injection H as <- _].
Qed.

Lemma audit_books d : keeps same_books (audit (E := E) d).
Proof.
  intros w w' r. unfold audit, bindM, liftM. destruct d as [draft|e]; [|by intros [= <- _]].
  unfold on_repo, on. destruct (append_evidence _ _) as [s r'] eqn:Ea. intros [= <- _].
  unfold same_books, books. cbn. by rewrite (append_evidence_books _ _ _ _ Ea).
Qed.

Lemma on_sessions_books {A : Type} (m : M session_store A) : keeps same_books (on_sessions (E := E) m).
Proof. intros w w' r. unfold on_sessions, on. destruct (m _) as [s r']. by intros [= <- _]. Qed.

Lemma switch_books e clock : keeps same_books (on_switches (E := E) (switch e clock)).
Proof.
  intros w w' r. unfold on_switches. destruct (sv_switches w) as [k|]; [|by intros [= <- _]].
  destruct (switch _ _ _) as [k' r'] eqn:Es. assert (k' = sharing (sv_repo w) k) as ->.
  { apply reads_Ok in Es; [done|]. unfold switch. solve_atomic. }
  intros [= <- _]. unfold same_books, books. cbn. destruct (kst_audit k); cbn; [|done].
  by destruct (rp_audit (sv_repo w)).
Qed.
End books.
#[export] Hint Resolve audit_books on_sessions_books switch_books : safety.

Section authorize.
Context {E : Type}.
Notation W := (service E).
Variables (cf : service_config) (pt : ports E).

Lemma session_of_books v i sid : keeps same_books (session_of (E := E) v i sid).
Proof. intros w. unfold session_of, control_plane_error. keeps_walk. Qed.
Lemma posture_books v e : keeps same_books (switch_posture (E := E) v e).
Proof. intros w. unfold switch_posture. keeps_walk. Qed.
#[local] Hint Resolve session_of_books posture_books : safety.

(** A session the store knows, of the current epoch, and not expired. *)
Definition live_session (sid : string) (now : datetime) (x : OwnerSession) (w : W) : Prop :=
  ∃ stored, ss_sessions (sv_sessions w) !! sid = Some stored ∧ session_is_active stored now = true ∧
    se_auth_epoch stored = ss_auth_epoch (sv_sessions w) ∧ se_principal stored = se_principal x.

Lemma session_of_Ok v i sid (w w' : W) x :
  session_of v i sid w = (w', Ok x) → live_session sid (at_ v i) x w ∧ same_books w w' ∧ sv_repo w' = sv_repo w ∧
    sv_switches w' = sv_switches w.
Proof.
  intros H. split_and!.
  2: by eapply session_of_books.
  all: unfold session_of, on_sessions, on, bindM, get_session, bindM, getM in H;
    destruct (ss_sessions (sv_sessions w) !! sid) as [st|] eqn:Est; [|done]; cbn in H;
    destruct (negb (se_auth_epoch st =? _) || _) eqn:El; [done|]; cbn in H; injection H as <- <-; try done.
  apply orb_false_iff in El as [E1 E2]. apply negb_false_iff in E1, E2. exists st. split_and!; try done. by apply Z.eqb_eq.
Qed.

(** The kill switch of the environment, if the service has switches, is
    recorded and disengaged. *)
Definition switch_allows (environment : string) (w : W) : Prop :=
  ∀ k, sv_switches w = Some k → ∃ e r, environment_of environment = Ok e ∧ record_for e k = Some r ∧
    permits_operations r = true.

Lemma permitted_recorded e clock (w w' : W) st k :
  sv_switches w = Some st → on_switches (switch e clock) w = (w', Ok k) → permits_operations k = true →
  record_for e st = Some k.
Proof.
  intros Hst H Hp. unfold on_switches in H. rewrite Hst in H. unfold switch, bindM, getM in H.
  assert (record_for e (sharing (sv_repo w) st) = record_for e st) as Er by done. rewrite Er in H.
  destruct (record_for e st) as [rec|]; [by injection H as _ <-|]. exfalso.
  unfold liftM, default_switch in H. destruct (check_KillSwitch _) as [k'|] eqn:Ek; [|done].
  injection H as _ ->. apply check_KillSwitch_Ok in Ek as [-> _]. by destruct e.
Qed.

Lemma ensure_permitted_Ok v e (w w' : W) u :
  ensure_operation_permitted v e w = (w', Ok u) → switch_allows e w ∧ same_books w w'.
Proof.
  intros H. unfold ensure_operation_permitted in H. apply bindM_Ok in H as (k & w1 & Hk & H).
  pose proof (posture_books _ _ _ _ _ Hk) as B. apply bindM_Ok in H as (u' & w2 & Hp & H).
  apply liftM_raise_unless_Ok in Hp as [Hp ->]. injection H as <- _. split; [|done].
  intros st Hst. unfold switch_posture in Hk. apply bindM_Ok in Hk as (w0 & w3 & [= <- <-] & Hk). rewrite Hst in Hk.
  apply bindM_Ok in Hk as (env & w4 & He & Hk). apply bindM_Ok in Hk as (rec & w5 & Hsw & Hk).
  unfold liftM in He. injection He as <- He. unfold retM in Hk. injection Hk as <- <-.
  eexists _, _. split_and!; [done|by eapply permitted_recorded|done].
Qed.

(** ** The two branches *)

Lemma replay_Ok v actor r a (w w' : W) d :
  replay_or_conflict v actor r a w = (w', Ok d) →
  same_books w w' ∧ ∃ r0, stored_request a (sv_repo w) = Some (d, r0) ∧ request_canonical r0 = request_canonical r.
Proof.
  unfold replay_or_conflict. unfold bindM at 1, getM. destruct (stored_request _ _) as [[st r0]|].
  - destruct (str_eqb _ _) eqn:Er; intros H; apply bindM_Ok in H as (u & w1 & Ha & H); [|done].
    injection H as <- <-. split; [by eapply audit_books|]. exists r0. split; [done|]. by apply bool_decide_eq_true in Er.
  - intros H. by apply bindM_Ok in H as (u & w1 & Ha & H).
Qed.

Lemma requested_action_Ok d identity r refs a :
  requested_action d identity r refs = Ok a →
  lc_state a = CONFIRMATION_REQUIRED ∧ lc_action_id a = id_action_id identity ∧ lc_decision_id a = ad_decision_id d ∧
  lc_plan_digest a = id_plan_digest identity ∧ lc_plan_revision a = id_target_revision identity ∧
  lifecycle_key a = (id_target_id identity, value (req_operation r), req_idempotency_key r).
Proof.
  unfold requested_action. intros H. apply rbind_Ok in H as (sc & Hsc & H). apply rbind_Ok in H as (a0 & H0 & H).
  apply rbind_Ok in H as (a1 & H1 & H). unfold check_ActionScope in Hsc. inv_ok.
  apply raises_or_ok_check in H0 as ->.
  apply advance_Ok in H1 as (_ & _ & (ap1 & -> & _) & _). apply advance_Ok in H as (_ & _ & (ap2 & -> & _) & _).
  done.
Qed.

Lemma register_Ok d a ds s s' u :
  dget (lifecycle_key a) (rp_idempotency s) = None → register_action d a ds s = (s', Ok u) →
  set_audit None s' = set_audit None (registered d a s) ∧ get_action (lc_action_id a) s = None.
Proof.
  intros Hk H. unfold register_action in H. apply bindM_Ok in H as (u1 & s1 & H1 & H). unfold liftM in H1.
  injection H1 as <- _. unfold bindM at 1, getM in H. rewrite Hk in H.
  apply bindM_Ok in H as (u2 & s2 & H2 & H). apply liftM_raise_unless_Ok in H2 as [Hm ->].
  apply bindM_Ok in H as (u3 & s3 & H3 & H). apply liftM_raise_unless_Ok in H3 as [_ ->].
  apply append_evidence_books in H. split; [done|]. apply negb_true_iff in Hm. apply bool_decide_eq_false in Hm. unfold get_action.
  destruct (dget (lc_action_id a) (rp_actions s)); [by destruct Hm|done].
Qed.

(** What an allowed decision leaves in the repository. *)
Record registers (d : AuthorizationDecision) (request : ActionRequest) (a : ActionLifecycle) (w w' : W) : Prop := {
  rg_fresh : get_action (lc_action_id a) (sv_repo w) = None;
  rg_identity : ∃ i, ad_action_identity d = Some i ∧ lc_action_id a = id_action_id i ∧
    lc_plan_digest a = id_plan_digest i ∧ lc_plan_revision a = id_target_revision i;
  rg_state : lc_state a = CONFIRMATION_REQUIRED;
  rg_decision : lc_decision_id a = ad_decision_id d;
  rg_key : lifecycle_key a = (req_target_id request, value (req_operation request), req_idempotency_key request);
  rg_books : books w' = books (with_repo (registered d a (sv_repo w)) w);
}.

Lemma allowed_identity p principal request plan cur now d :
  Policy.authorize p principal request plan cur now = Ok d → ad_allowed d = true →
  ∃ i, ad_action_identity d = Some i ∧ id_target_id i = req_target_id request.
Proof.
  intros H Ha. destruct (authorize_cases p principal request plan cur now)
    as [(code & pr & Ed & Hc & _)|(pr & c & i & -> & -> & Hi & Hx & _ & Ed)]; rewrite Ed in H; clear Ed.
  - destruct (deny_Ok p code request now pr Hc) as (d' & Ed & Hd & _). rewrite Ed in H. injection H as ->. congruence.
  - destruct (allow_Ok p i pr (default (plan_created_at plan) now) (plan_expires_at plan) request)
      as (d' & Ed & _ & _ & Hid & _); [by eapply derive_operation|done|]. rewrite Ed in H. injection H as ->.
    exists i. split; [done|]. apply derive_Ok in Hi as (_&_&_&_&_&_&_&_&_&->). done.
Qed.

Lemma books_repo (w w' : W) : same_books w w' → set_audit None (sv_repo w') = set_audit None (sv_repo w).
Proof. intros H. exact (f_equal (λ b, b.1.1.1.1) H). Qed.
Lemma books_idem (w w' : W) : same_books w w' → rp_idempotency (sv_repo w') = rp_idempotency (sv_repo w).
Proof. intros H%books_repo. by apply (f_equal rp_idempotency) in H. Qed.
Lemma books_action id (w w' : W) : same_books w w' → get_action id (sv_repo w') = get_action id (sv_repo w).
Proof. intros H%books_repo. apply (f_equal rp_actions) in H. unfold get_action. cbn in H. by rewrite H. Qed.

Lemma books_registered d a (w0 w : W) :
  same_books w0 w → books (with_repo (registered d a (sv_repo w)) w) = books (with_repo (registered d a (sv_repo w0)) w0).
Proof.
  intros B. pose proof (books_repo _ _ B) as E1. unfold same_books, books in *. cbn.
  pose proof (f_equal (λ b, b.1.1.1.2) B) as E2. pose proof (f_equal (λ b, b.1.1.2) B) as E3.
  pose proof (f_equal (λ b, b.1.2) B) as E4. pose proof (f_equal (λ b, b.2) B) as E5. cbn in *. rewrite E2, E3, E4, E5.
  clear B E2 E3 E4 E5. destruct (sv_repo w0), (sv_repo w). unfold set_audit in E1. cbn in *. injection E1 as -> -> -> -> -> -> -> -> -> -> ->.
  done.
Qed.

Lemma registers_after d request a (w0 w w' : W) :
  same_books w0 w → registers d request a w w' → registers d request a w0 w'.
Proof.
  intros B [F I S D K Bk]. split; try done; [by rewrite <- (books_action _ _ _ B)|].
  by rewrite Bk, (books_registered _ _ _ _ B).
Qed.

Lemma stored_request_books a (w w' : W) :
  same_books w w' → stored_request a (sv_repo w') = stored_request a (sv_repo w).
Proof.
  intros B%books_repo. apply (f_equal rp_decisions) in B. unfold stored_request, get_decision. cbn in B. by rewrite B.
Qed.
Lemma find_books t o k (w w' : W) :
  same_books w w' → find_action_by_idempotency t o k (sv_repo w') = find_action_by_idempotency t o k (sv_repo w).
Proof.
  intros B. unfold find_action_by_idempotency. rewrite (books_idem _ _ B).
  destruct (dget _ _); [by apply books_action|done].
Qed.

Lemma register_allowed_Ok v d request principal ds refs i (w w' : W) u :
  ad_action_identity d = Some i → id_target_id i = req_target_id request →
  dget (req_target_id request, value (req_operation request), req_idempotency_key request) (rp_idempotency (sv_repo w)) = None →
  register_allowed_action v d request principal ds refs w = (w', Ok u) → ∃ a, registers d request a w w'.
Proof.
  intros Hi Ht Hk H. unfold register_allowed_action in H. rewrite Hi in H. cbv zeta in H.
  apply bindM_Ok in H as (w1 & a & Ha & H). unfold liftM in Ha. injection Ha as <- Ha.
  apply requested_action_Ok in Ha as (Hst & Hid & Hdec & Hpd & Hpr & Hkey). rewrite Ht in Hkey. exists a.
  do 3 (apply bindM_Ok in H as (? & ? & ?Hd & H); unfold liftM in Hd; injection Hd as <- _).
  unfold on_repo, on in H. destruct (register_action _ _ _ _) as [s r] eqn:Er. injection H as <- ->.
  apply register_Ok in Er as [Hb Hf]; [|by rewrite Hkey]. split; try done.
  - by exists i.
  - unfold books. cbn. by rewrite Hb.
Qed.

Lemma decide_Ok v principal request ds refs (w w' : W) d :
  dget (req_target_id request, value (req_operation request), req_idempotency_key request) (rp_idempotency (sv_repo w)) = None →
  decide_request cf pt v principal request ds refs w = (w', Ok d) →
  ∃ plan current, build_evidence_neutral_plan request (cv_clock v 2) (cf_planner_targets cf) = Ok plan ∧
    Policy.authorize (cf_policy cf) (Some principal) request plan current (cv_now v) = Ok d ∧
    (if ad_allowed d then ∃ a, registers d request a w w' else same_books w w').
Proof.
  intros Hk H. unfold decide_request in H. cbv zeta in H.
  apply bindM_Ok in H as (w1 & plan & Hp & H). unfold liftM in Hp. injection Hp as <- Hp.
  apply bindM_Ok in H as (w1 & current & Hc & H). apply reads_Ok in Hc as ->; [|apply read_current_plan_reads].
  apply bindM_Ok in H as (w1 & d' & Hd & H). unfold liftM in Hd. injection Hd as <- Hd.
  exists plan, current. destruct (ad_allowed d') eqn:Ea; apply bindM_Ok in H as (w1 & u & Hw & H);
    apply audit_books in Hw.
  - apply bindM_Ok in H as (w2 & u' & Hr & H). injection H as <- <-. rewrite Ea. split; [done|]. split; [done|].
    destruct (allowed_identity _ _ _ _ _ _ _ Hd Ea) as (i & Hi & Ht).
    apply (register_allowed_Ok _ _ _ _ _ _ i) in Hr as [a Hr]; [|done|done|by rewrite (books_idem _ _ Hw)].
    exists a. by eapply registers_after.
  - injection H as <- <-. by rewrite Ea.
Qed.

(** C8: authorization registers exactly the allowed decision.  When [authorize]
    returns, its session was live and the kill switch of the environment was
    recorded and disengaged.  Either an action was registered under the
    request's key with a stored decision for the same canonical request, and
    that decision is returned with the books untouched; or no action was, the
    decision is the policy's own on a plan of this request, and the books change
    only if it is allowed, by the decision and one fresh action of its identity
    that waits for the owner's confirmation under the request's key. *)
Theorem authorize_registers v sid request ds refs (w w' : W) d :
  repo_ok (sv_repo w) → authorize_request cf pt v sid request ds refs w = (w', Ok d) →
  ∃ session, live_session sid (at_ v 0) session w ∧ switch_allows (req_environment request) w ∧
  let found := find_action_by_idempotency (req_target_id request) (value (req_operation request))
                 (req_idempotency_key request) (sv_repo w) in
  (∃ a r0, found = Some a ∧ stored_request a (sv_repo w) = Some (d, r0) ∧
     request_canonical r0 = request_canonical request ∧ same_books w w') ∨
  (found = None ∧ ∃ plan current,
     build_evidence_neutral_plan request (cv_clock v 2) (cf_planner_targets cf) = Ok plan ∧
     Policy.authorize (cf_policy cf) (Some (se_principal session)) request plan current (cv_now v) = Ok d ∧
     if ad_allowed d then ∃ a, registers d request a w w' else same_books w w').
Proof.
  intros Hok H. unfold authorize_request in H. apply bindM_Ok in H as (w1 & session & Hs & H). cbv zeta in H.
  apply session_of_Ok in Hs as (Hlive & B1 & Hrepo & Hsw). apply bindM_Ok in H as (w2 & u & Hp & H).
  apply ensure_permitted_Ok in Hp as [Hperm B2]. exists session. split; [done|].
  split; [unfold switch_allows in *; by rewrite Hsw in Hperm|]. cbv zeta.
  assert (same_books w w2) as B by (by etrans). unfold bindM at 1, getM in H.
  rewrite (find_books _ _ _ _ _ B) in H. destruct (find_action_by_idempotency _ _ _ _) as [a|] eqn:Ef.
  - left. apply replay_Ok in H as [B3 (r0 & Hr & Hc)]. rewrite (stored_request_books _ _ _ B) in Hr.
    exists a, r0. split_and!; try done. by etrans.
  - right. split; [done|]. apply decide_Ok in H as (plan & current & Hb & Hd & H).
    + exists plan, current. split_and!; try done. destruct (ad_allowed d); [|by etrans].
      destruct H as [a H]. exists a. by eapply registers_after.
    + rewrite (books_idem _ _ B). destruct (dget _ _) as [id|] eqn:Ek; [|done]. exfalso.
      unfold find_action_by_idempotency in Ef. rewrite Ek in Ef.
      destruct (ro_idem _ Hok _ _ Ek) as (a & Ha & _). congruence.
Qed.
End authorize.
