(* ===== verification/RateLimit.v ===== *)
(** * RateLimit: the sliding-window limiter of the transport (control_plane/transport.py)

    [_RateLimiter] counts the requests of a key within a window.  The theorem:
    the requests it grants to one key are spaced so that no window holds more
    than the limit, as long as no more keys are in use than it remembers. *)

From S2P Require Import Prelude PyStr PyDict.
From Stdlib Require Import String ZArith Lia.
From stdpp Require Import base sets strings sorting list.

Local Open Scope string_scope.
Local Open Scope Z_scope.
Local Open Scope aipm_scope.

(** The events of each key, oldest first; readings of [time.monotonic] in
    nanoseconds. *)
Definition limiter : Type := dict string (list Z).
Definition RATE_WINDOW : Z := 60 * 1000000000.
Definition RATE_LIMIT : Z := 30.
Definition RATE_MAX_KEYS : Z := 1024.

(** [while events and now - events[0] > self._window: events.popleft()] *)
Fixpoint pop_stale (window now : Z) (events : list Z) : list Z :=
  match events with
  | [] => []
  | t :: events' => if window <? now - t then pop_stale window now events' else events
  end.

(** [allow]; the deque's own bound of four times the limit is never reached. *)
Definition limiter_allow (limit window max_keys : Z) (key : string) (now : Z) (d : limiter) : limiter * bool :=
  let events := pop_stale window now (default [] (dget key d)) in
  if limit <=? Z.of_nat (length events) then (dset key events d, false)
  else
    let d' := dset key (events ++ [now])%list d in
    (if max_keys <? dlen d' then drop (Z.to_nat (dlen d' - max_keys)) d' else d', true).


(** ** Histories *)

(** A sequence of calls with their times, and the answers. *)
Fixpoint limiter_run (limit window max_keys : Z) (calls : list (string * Z)) (d : limiter) : list (string * Z * bool) * limiter :=
  match calls with
  | [] => ([], d)
  | (key, now) :: calls' =>
      let '(d1, ok) := limiter_allow limit window max_keys key now d in
      let '(answers, d') := limiter_run limit window max_keys calls' d1 in
      ((key, now, ok) :: answers, d')
  end.

(** When the calls of a key were granted. *)
Definition granted (key : string) (answers : list (string * Z * bool)) : list Z :=
  omap (λ '(k, t, ok), if str_eqb k key && ok then Some t else None) answers.

(** No more than [limit] of the times lie in one window. *)
Definition spaced (limit window : Z) (times : list Z) : Prop :=
  ∀ i t t', times !! i = Some t → times !! (i + Z.to_nat limit)%nat = Some t' → window < t' - t.

(** What the deque of a key says of the times granted so far, at time [now]. *)
Record deque_ok (limit window now : Z) (times : list Z) (events : list Z) : Prop := {
  dq_suffix : ∃ old, times = (old ++ events)%list ∧ ∀ t, t ∈ old → window < now - t;
  dq_bound : Z.of_nat (length events) <= limit;
  dq_spaced : spaced limit window times;
}.

Lemma pop_stale_suffix window now events :
  ∃ old, events = (old ++ pop_stale window now events)%list ∧ ∀ t, t ∈ old → window < now - t.
Proof.
  induction events as [|t events (old & He & Hold)]; cbn; [exists []; split; [done|set_solver]|].
  destruct (Z.ltb_spec window (now - t)); [|exists []; split; [done|set_solver]].
  exists (t :: old). split; [by rewrite He at 1|]. intros x [->|Hx]%elem_of_cons; auto.
Qed.

Lemma spaced_snoc limit window times now :
  0 < limit → spaced limit window times →
  (∀ i t, times !! i = Some t → (i + Z.to_nat limit)%nat = length times → window < now - t) →
  spaced limit window (times ++ [now]).
Proof.
  intros Hl Hs Hn i t t' Hi Hi'. apply lookup_app_Some in Hi' as [Hi'|[Hge Hi']].
  - rewrite lookup_app_l in Hi by (apply lookup_lt_Some in Hi'; lia). by apply (Hs i).
  - apply list_lookup_singleton_Some in Hi' as [Hz ->]. assert (i + Z.to_nat limit = length times)%nat as Hlen by lia.
    rewrite lookup_app_l in Hi by lia. by apply (Hn i).
Qed.

Lemma deque_pop limit window now now' times events :
  now <= now' → deque_ok limit window now times events → deque_ok limit window now' times (pop_stale window now' events).
Proof.
  intros Hle [(old & -> & Hold) Hb Hs]. destruct (pop_stale_suffix window now' events) as (old' & He & Hold').
  split; [|rewrite He, length_app in Hb; lia|done].
  exists (old ++ old')%list. split; [by rewrite <- app_assoc, <- He|].
  intros t [Ht|Ht]%elem_of_app; [specialize (Hold _ Ht); lia|auto].
Qed.

Lemma deque_grant limit window now times events :
  Z.of_nat (length events) < limit → deque_ok limit window now times events →
  deque_ok limit window now (times ++ [now]) (events ++ [now]).
Proof.
  intros Hlt [(old & -> & Hold) Hb Hs]. split.
  - exists old. by rewrite app_assoc.
  - rewrite length_app. cbn. lia.
  - apply spaced_snoc; [lia|done|]. intros i t Hi Hlen. rewrite length_app in Hlen.
    rewrite lookup_app_l in Hi by lia. apply Hold. by eapply list_elem_of_lookup_2.
Qed.

(** The keys of a dictionary stay in a small set, so nothing is evicted. *)
Lemma small_dict {V} (d : dict string V) (ks : list string) :
  dwf d → dkeys d ⊆ ks → dlen d <= Z.of_nat (length ks).
Proof.
  intros Hwf Hsub. unfold dlen. rewrite <- (length_fmap fst). fold (dkeys d).
  assert (length (dkeys d) <= length ks)%nat; [|unfold dkeys in *; lia]. by apply submseteq_length, NoDup_submseteq.
Qed.

Section run.
Variables (limit window max_keys : Z) (ks : list string).
Hypothesis few_keys : Z.of_nat (length ks) <= max_keys.

(** The state of the limiter, given what was granted up to [now]. *)
Record limiter_ok (now : Z) (past : string → list Z) (d : limiter) : Prop := {
  lo_deque : ∀ key, deque_ok limit window now (past key) (default [] (dget key d));
  lo_wf : dwf d;
  lo_keys : dkeys d ⊆ ks;
}.

Lemma limiter_ok_set now now' past times key events d :
  key ∈ ks → now <= now' → limiter_ok now past d → deque_ok limit window now' times events →
  limiter_ok now' (λ k, if decide (k = key) then times else past k) (dset key events d).
Proof.
  intros Hk Hle [Hd Hwf Hsub] He. split.
  - intros k. rewrite dget_set. case_decide as Ek; [done|]. destruct (Hd k) as [(old & Ho & Hold) Hb Hs].
    split; [|done|done]. exists old. split; [done|]. intros t Ht. specialize (Hold _ Ht). lia.
  - by apply dset_wf.
  - intros k Hin. rewrite dset_keys in Hin. case_decide; [by apply Hsub|].
    apply elem_of_app in Hin as [Hin|Hin%list_elem_of_singleton]; [by apply Hsub|by subst].
Qed.

Lemma allow_ok now now' past key d d' ok :
  key ∈ ks → now <= now' → limiter_ok now past d → limiter_allow limit window max_keys key now' d = (d', ok) →
  limiter_ok now' (λ k, if decide (k = key) then (past key ++ if ok then [now'] else [])%list else past k) d'.
Proof.
  intros Hk Hle Hok H. unfold limiter_allow in H.
  pose proof (deque_pop _ _ _ _ _ _ Hle (lo_deque _ _ _ Hok key)) as Hpop.
  destruct (Z.leb_spec limit (Z.of_nat (length (pop_stale window now' (default [] (dget key d)))))) as [Hfull|Hroom].
  - injection H as <- <-. rewrite app_nil_r. by eapply limiter_ok_set.
  - pose proof (deque_grant _ _ _ _ _ Hroom Hpop) as Hgrant.
    pose proof (limiter_ok_set _ _ _ _ _ _ _ Hk Hle Hok Hgrant) as Hset.
    pose proof (small_dict _ _ (lo_wf _ _ _ Hset) (lo_keys _ _ _ Hset)) as Hsmall.
    rewrite (proj2 (Z.ltb_ge _ _)) in H by lia. by injection H as <- <-.
Qed.

Lemma limiter_run_spaced calls now past d key :
  limiter_ok now past d → Sorted Z.le (now :: List.map snd calls) → (∀ c, c ∈ calls → fst c ∈ ks) →
  spaced limit window (past key ++ granted key (fst (limiter_run limit window max_keys calls d))).
Proof.
  revert now past d. induction calls as [|[k now'] calls IH]; intros now past d Hok Hs Hks; cbn [limiter_run].
  { cbn. rewrite app_nil_r. apply Hok. }
  destruct (limiter_allow limit window max_keys k now' d) as [d1 ok] eqn:Ha.
  destruct (limiter_run _ _ _ calls d1) as [answers d'] eqn:Er. cbn [fst].
  apply Sorted_inv in Hs as [Hs Hle]. apply HdRel_inv in Hle.
  assert (k ∈ ks) as Hk by (apply (Hks (k, now')); left).
  pose proof (allow_ok _ _ _ _ _ _ _ Hk Hle Hok Ha) as Hok1.
  specialize (IH _ _ _ Hok1 Hs ltac:(intros c Hc; apply Hks; by right)). rewrite Er in IH. cbn [fst] in IH.
  unfold granted in *. cbn. destruct (decide (key = k)) as [->|Hne].
  - rewrite str_eqb_refl. destruct ok; cbn in *; [by rewrite <- app_assoc in IH|by rewrite app_nil_r in IH].
  - unfold str_eqb. by rewrite bool_decide_eq_false_2 by congruence.
Qed.
End run.

(** C40: the rate limit holds.  Over any calls of a new limiter with times that
    do not decrease, for at most as many keys as it remembers, the times at
    which it granted one key are spaced: of any [limit + 1] consecutive grants
    the last is more than a window after the first, so no window holds more
    than [limit] granted requests of a key. *)
Theorem rate_limit_holds limit window max_keys calls key :
  0 < limit → Sorted Z.le (List.map snd calls) →
  Z.of_nat (length (remove_dups (List.map fst calls))) <= max_keys →
  spaced limit window (granted key (fst (limiter_run limit window max_keys calls []))).
Proof.
  intros Hl Hs Hk. destruct calls as [|[k t] calls]; [by intros i a b Ha|].
  apply (limiter_run_spaced limit window max_keys (remove_dups (List.map fst ((k, t) :: calls)))) with
    (now := t) (past := λ _, []).
  - done.
  - split; [|constructor|by intros x ?%not_elem_of_nil]. intros k'. split; [exists []; split; [done|]|cbn; lia|].
    + by intros x ?%not_elem_of_nil.
    + intros i a b Ha. by rewrite lookup_nil in Ha.
  - cbn in Hs |- *. constructor; [done|constructor; lia].
  - intros c Hc. apply elem_of_remove_dups, list_elem_of_In, List.in_map, list_elem_of_In. done.
Qed.

Lemma rate_limit_holds_witness :
  let calls := [("s", 0); ("s", 1); ("s", 2); ("s", 61)] in
  granted "s" (fst (limiter_run 2 60 4 calls [])) = [0; 1; 61] ∧
  spaced 2 60 (granted "s" (fst (limiter_run 2 60 4 calls []))).
Proof.
  split; [reflexivity|].
  apply (rate_limit_holds 2 60 4 [("s", 0); ("s", 1); ("s", 2); ("s", 61)] "s");
    [lia|cbn; repeat first [apply Sorted_nil|apply HdRel_nil|apply Sorted_cons|apply HdRel_cons]; lia|vm_compute; discriminate].
Defined.
