(* ===== verification/Transport.v ===== *)
(** * Transport: the operator transport (control_plane/transport.py)

    The HTTP surface of the service.  A request is its cookie, its CSRF header
    and what [request.json()] makes of the body; an endpoint is one decorated
    handler with its path parameters, matched by the framework.  A handler
    returns its JSON answer or raises; an [HTTPException] carries the status and
    the error code the client sees. *)

From S2P Require Import Prelude PyStr PyText PyDict PyTime Json JsonParse Models Lifecycle ProjectPlan Identity Policy.
From S2P Require Import Confirmation AuditLedger AuditBuilders KillSwitch Verification Rollback ActionRepo.
From S2P Require Import ActionSpec Contract Gate Executor Session OwnerAuth ServicePlan.
From S2P Require Import ServiceState ServiceFlow ServiceRun ServiceBridge RateLimit.
From Stdlib Require Import Ascii String ZArith Lia.
From stdpp Require Import base strings gmap list.

Local Open Scope string_scope.
Local Open Scope Z_scope.
Local Open Scope aipm_scope.

(** ** Errors *)

(** [_error] *)
Definition http_error {S A} (status : Z) (code : string) : M S A := raiseM (HTTPException status code).
Definition invalid_body {S A} : M S A := http_error 422 "invalid_request".

(** [_SAFE_ERROR_CODES] *)
Definition safe_error (c : PlanningErrorCode) : Z * string :=
  match c with
  | INVALID_REQUEST => (422, "invalid_request")
  | UNSUPPORTED_OPERATION => (403, "forbidden")
  | UNAVAILABLE_TARGET => (403, "forbidden")
  | INVALID_PLAN => (422, "invalid_request")
  | EXPIRED_PLAN => (410, "expired")
  | CONFIRMATION_MISMATCH => (409, "confirmation_required")
  | SESSION_INVALID => (401, "unauthenticated")
  | AUTHENTICATION_REJECTED => (401, "unauthenticated")
  | IDEMPOTENCY_CONFLICT => (409, "conflict")
  | STATE_CONFLICT => (409, "conflict")
  | STALE_EVIDENCE => (409, "stale_plan")
  | STORAGE_CORRUPT => (500, "internal_error")
  | UNAVAILABLE_EVIDENCE => (409, "conflict")
  end.

(** [_run]: domain errors become HTTP errors, other exceptions pass. *)
Definition run_domain {S A} (m : M S A) : M S A := catchM m (λ e,
  match e with ControlPlaneError c => Some (http_error (safe_error c).1 (safe_error c).2) | _ => None end).

(** [execution_refused_handler]: the status of a refusal by the executor *)
Definition refusal_status (reason_code : string) : Z :=
  default 409 (dget reason_code
    [("stale_plan", 409); ("stale_action_version", 409); ("lease_expired", 410); ("lease_missing", 409);
     ("stale_fencing_token", 409); ("contract_expired", 410); ("action_expired", 410); ("confirmation_expired", 410);
     ("confirmation_consumed", 409); ("confirmation_missing", 404); ("kill_switch_engaged", 423);
     ("kill_switch_epoch_mismatch", 423)]).

(** ** Requests and answers *)

Record http_request := {
  hr_cookie : option string;
  hr_csrf : option string;
  (** [None]: [request.json()] raises *)
  hr_body : option json;
}.

(** What happens to the session cookie. *)
Inductive cookie_change := CookieKept | CookieSet (session_id : string) (max_age : Z) (secure : bool) | CookieDeleted.
Record http_reply := { hp_body : json; hp_cookie : cookie_change }.
Definition answer {S} (body : json) : M S http_reply := retM {| hp_body := body; hp_cookie := CookieKept |}.

Inductive endpoint :=
  | GetHealth | PostLogin | GetSession | PostLogout
  | GetPlan (target_id : string) | PostAuthorize (target_id : string)
  | PostApproval (project_id : string) | PostServiceApproval (project_id service_name : string)
  | PostExecuteUpdate (project_id : string) | GetUpdateStatus (project_id : string)
  | GetRegistration (project_id : string)
  | GetAction (action_id : string) | GetActionAudit (action_id : string)
  | PostConfirm (action_id : string) | PostExecute (action_id : string) | PostReconcile (action_id : string)
  | PostRollback (action_id : string)
  | GetKillSwitch | PostEngage | PostDisengage | GetAuditVerify.

(** The handlers of the app change state, the others only read. *)
Definition mutating (e : endpoint) : bool :=
  match e with
  | GetHealth | GetSession | GetPlan _ | GetUpdateStatus _ | GetRegistration _ | GetAction _ | GetActionAudit _
  | GetKillSwitch | GetAuditVerify => false
  | _ => true
  end.

(** The service with the four limiters of its app. *)
Record transport (E : Type) := {
  tp_service : service E;
  tp_authorize : limiter;
  tp_confirm : limiter;
  tp_update_approval : limiter;
  tp_update_execute : limiter;
}.
Arguments tp_service {E}. Arguments tp_authorize {E}. Arguments tp_confirm {E}. Arguments tp_update_approval {E}.
Arguments tp_update_execute {E}.

(** The arguments of [create_operator_app], and what it finds outside: the
    build identity and the registration store at the default path. *)
Record transport_config := {
  tx_secure_cookies : bool;
  tx_session_ttl_seconds : Z;
  tx_build : result json;
  tx_default_store : result (string → string → bool → result (option ProjectRegistration));
}.

Definition SCHEMA_VERSION : Z := 8.
Definition MAX_BODY_FIELDS : Z := 16.
Definition MAX_FIELD_LENGTH : Z := 2000.
Definition UPDATE_PLAN_DIGEST_KEY : string := "update_plan_digest".

(** [_PROJECT_ID_PATTERN] and [_SAFE_TARGET] *)
Definition PROJECT_ID_PATTERN : string → bool := HEX 24.
Definition TRANSPORT_SAFE_TARGET : string → bool := headed is_alnum (λ c, is_alnum c || one_of "_.:-" c) 127.

(** A text between one and [maximum] characters. *)
Definition body_text (maximum : Z) (v : option json) : option string :=
  match v with
  | Some (JStr s) => if str_nonempty s && (slen s <=? maximum) then Some s else None
  | _ => None
  end.

(** ** Views as JSON *)

Definition JTime (t : datetime) : json := JStr (isoformat t).

(** [_plan_payload] *)
Definition shown_plan_payload (p : ProjectPlan) : json := JObj
  [("target_id", JStr (pp_target_id p)); ("environment", JStr (value (pp_environment p)));
   ("revision", JInt (pp_revision p)); ("title", JStr (pp_title p)); ("objective", JStr (pp_objective p));
   ("enabled", JBool (pp_enabled p)); ("canonical_digest", JStr (pp_canonical_digest p))].

Definition switch_json (k : KillSwitch) : json := JObj
  [("environment", JStr (value (ks_environment k))); ("state", JStr (value (ks_state k))); ("epoch", JInt (ks_epoch k))].
Definition switches_json (rows : list (Environment * KillSwitchState * Z * bool)) : json := JObj
  [("switches", JArr (List.map (λ '(e, st, epoch, ok), JObj
     [("environment", JStr (value e)); ("state", JStr (value st)); ("epoch", JInt epoch);
      ("permits_operations", JBool ok)]) rows))].

(** [action_view] *)
Definition action_json (view : ActionLifecycle * option string) : json :=
  let '(a, outcome) := view in JObj
  [("action_id", JStr (lc_action_id a)); ("state", JStr (value (lc_state a)));
   ("operation", JStr (value (lc_operation a))); ("target_id", JStr (sc_target_id (lc_scope a)));
   ("environment", JStr (sc_environment (lc_scope a))); ("plan_id", JStr (lc_plan_id a));
   ("plan_revision", JInt (lc_plan_revision a)); ("requester_subject", JStr (lc_requester_subject a));
   ("idempotency_key", JStr (lc_idempotency_key a));
   ("rollback_of_action_id", JOpt JStr (lc_rollback_of_action_id a)); ("snapshot_id", JOpt JStr (lc_snapshot_id a));
   ("version", JInt (lc_version a)); ("outcome", JOpt JStr outcome); ("expires_at", JTime (lc_expires_at a))].
(** [latest_update_action_view] *)
Definition latest_json (view : ActionLifecycle * option string) : json :=
  let '(a, outcome) := view in JObj
  [("action_id", JStr (lc_action_id a)); ("operation", JStr (value (lc_operation a)));
   ("state", JStr (value (lc_state a))); ("outcome", JOpt JStr outcome);
   ("plan_revision", JInt (lc_plan_revision a)); ("expires_at", JTime (lc_expires_at a))].

(** [registration_view] and the answer of [project_registration] *)
Definition registration_json (permits : bool) (r : ProjectRegistration) : json := JObj
  [("registered", JBool true); ("registration_id", JStr (rg_registration_id r));
   ("target_id", JStr (rg_target_id r)); ("environment", JStr (rg_environment r));
   ("status", JStr (value (rg_status r))); ("runtime_mode", JStr (rg_runtime_mode r));
   ("compose_project_name", JOpt JStr (rg_compose_project_name r));
   ("canonical_project_path", JStr (rg_canonical_project_path r)); ("registered_at", JTime (rg_registered_at r));
   ("registration_digest", JStr (rg_registration_digest r)); ("revoked_at", JOpt JTime (rg_revoked_at r));
   ("revocation_reason", JOpt JStr (rg_revocation_reason r)); ("permits_operations", JBool permits);
   ("execution_locked", JBool (negb permits))].

Definition decision_identity_json (d : AuthorizationDecision) : json := JOpt (λ i, JStr (id_action_id i)) (ad_action_identity d).
(** The answer of [authorize_plan]. *)
Definition authorization_json (d : AuthorizationDecision) : json := JObj
  [("decision_id", JStr (ad_decision_id d)); ("allowed", JBool (ad_allowed d)); ("code", JStr (value (ad_code d)));
   ("action_id", decision_identity_json d); ("confirmation_required", JBool (ad_confirmation_required d));
   ("expires_at", JTime (ad_expires_at d))].
(** The answer of [request_rollback]. *)
Definition rollback_json (d : AuthorizationDecision) : json := JObj
  [("decision_id", JStr (ad_decision_id d)); ("allowed", JBool (ad_allowed d));
   ("rollback_action_id", decision_identity_json d); ("code", JStr (value (ad_code d)))].

(** The answer to an approval, denied or confirmed. *)
Definition approval_json (a : update_approval) : json :=
  if ua_allowed a then JObj
    ([("decision_id", JStr (ua_decision_id a)); ("allowed", JBool true); ("code", JStr (ua_code a));
      ("action_id", JOpt JStr (ua_action_id a)); ("confirmation_required", JBool true); ("expires_at", JNull);
      ("confirmation_id", JOpt JStr (ua_confirmation_id a)); ("approval", JStr "confirmed")] ++
     match ua_service_name a with Some n => [("service_name", JStr n)] | None => [] end ++
     match ua_service_scope a with Some l => [("service_scope", JArr (List.map JStr l))] | None => [] end)%list
  else JObj
    [("decision_id", JStr (ua_decision_id a)); ("allowed", JBool false); ("code", JStr (ua_code a));
     ("action_id", JNull); ("confirmation_required", JBool false); ("expires_at", JNull); ("approval", JStr "denied")].

(** The answer of [run_update_for_project]. *)
Definition update_run_json (u : update_run) : json := JObj
  ([("action_id", JStr (ur_action_id u)); ("executed", JBool (ur_executed u)); ("outcome", JStr (ur_outcome u));
    ("lifecycle_state", JStr (value (ur_lifecycle_state u)))] ++
   match ur_provider_code u with Some c => [("provider_code", c)] | None => [] end ++
   match ur_evidence_reference u with Some r => [("evidence_reference", r)] | None => [] end)%list.

Definition execution_json (r : ExecutionResult) : json := JObj
  [("action_id", JStr (er_action_id r)); ("outcome", JStr (value (er_outcome r)));
   ("lifecycle_state", JStr (value (er_lifecycle_state r))); ("mutated_revision", JOpt JInt (er_mutated_revision r));
   ("verification_success", JOpt JBool (er_verification_success r))].
Definition reconciliation_json (r : ExecutionResult) : json := JObj
  [("action_id", JStr (er_action_id r)); ("outcome", JStr (value (er_outcome r)));
   ("lifecycle_state", JStr (value (er_lifecycle_state r)))].

Definition audit_json (action_id : string) (events : list AuditEvent) : json := JObj
  [("action_id", JStr action_id);
   ("events", JArr (List.map (λ e, JObj
      [("sequence", JInt (ev_sequence e)); ("event_id", JStr (ae_event_id (ev_draft e)));
       ("event_type", JStr (value (ae_event_type (ev_draft e)))); ("occurred_at", JTime (ae_occurred_at (ev_draft e)));
       ("result_code", JOpt JStr (ae_result_code (ev_draft e)))]) events))].

(** ** The app *)

Section app.
Context {E : Type}.
Notation W := (transport E).
Variables (py : py_values) (cf : service_config) (tx : transport_config).

Definition with_service (x : service E) (w : W) : W :=
  {| tp_service := x; tp_authorize := tp_authorize w; tp_confirm := tp_confirm w;
     tp_update_approval := tp_update_approval w; tp_update_execute := tp_update_execute w |}.
Definition on_service {A : Type} (m : M (service E) A) : M W A := λ w,
  let '(s, r) := m (tp_service w) in (with_service s w, r).

Inductive limited := LimitAuthorize | LimitConfirm | LimitUpdateApproval | LimitUpdateExecute.
Definition limiter_of (l : limited) (w : W) : limiter :=
  match l with
  | LimitAuthorize => tp_authorize w | LimitConfirm => tp_confirm w
  | LimitUpdateApproval => tp_update_approval w | LimitUpdateExecute => tp_update_execute w
  end.
Definition with_limiter (l : limited) (x : limiter) (w : W) : W :=
  {| tp_service := tp_service w;
     tp_authorize := match l with LimitAuthorize => x | _ => tp_authorize w end;
     tp_confirm := match l with LimitConfirm => x | _ => tp_confirm w end;
     tp_update_approval := match l with LimitUpdateApproval => x | _ => tp_update_approval w end;
     tp_update_execute := match l with LimitUpdateExecute => x | _ => tp_update_execute w end |}.

(** One request: the ports, the readings of its service calls - the transport
    never passes [now] - and the reading of the limiter. *)
Variables (pt : ports E) (v : call_env) (monotonic : Z) (rq : http_request).
Definition service_env (k : nat) : call_env :=
  {| cv_now := None; cv_clock := λ i, cv_clock v (k + i)%nat; cv_random := λ i, cv_random v (k + i)%nat |}.

(** [if not limiter.allow(session.session_id): raise 429] *)
Definition rate_limit (l : limited) (session : OwnerSession) : M W unit := λ w,
  let '(d, ok) := limiter_allow RATE_LIMIT RATE_WINDOW RATE_MAX_KEYS (se_session_id session) monotonic (limiter_of l w) in
  (with_limiter l d w, if ok then Ok () else Raise (HTTPException 429 "conflict")).

(** [_resolve_session] *)
Definition resolve_session : M W OwnerSession :=
  match hr_cookie rq with
  | Some id =>
      if str_nonempty id then
        catchM (on_service (session_of (service_env 0) 0 id)) (λ e,
          match e with ControlPlaneError _ => Some (http_error 401 "unauthenticated") | _ => None end)
      else http_error 401 "unauthenticated"
  | None => http_error 401 "unauthenticated"
  end.

(** [_require_csrf] *)
Definition require_csrf : M W unit :=
  do session <- (match hr_cookie rq with
                 | Some id =>
                     if str_nonempty id then
                       catchM (do s <- on_service (session_of (service_env 1) 0 id);; retM (Some s)) (λ e,
                         match e with ControlPlaneError _ => Some (retM None) | _ => None end)
                     else retM None
                 | None => retM None
                 end);;
  match session with
  | Some s =>
      assert_ verify_csrf s (Some (default EmptyString (hr_csrf rq))) else_raise HTTPException 403 "csrf_failed";;
      retM ()
  | None => http_error 403 "csrf_failed"
  end.

(** The session of a mutating request. *)
Definition guarded_session : M W OwnerSession :=
  do session <- resolve_session;; do_ require_csrf;; retM session.

(** [_json_body] *)
Definition json_body : M W (dict string json) :=
  match hr_body rq with Some (JObj kvs) => retM kvs | _ => invalid_body end.

(** [_bounded_fields] *)
Definition bounded_fields (payload : option json) : M W (list (string * string)) :=
  match payload with
  | None | Some JNull => retM []
  | Some (JObj kvs) =>
      if MAX_BODY_FIELDS <? dlen kvs then invalid_body
      else
        do fields <- liftM (rmap (λ kv : string * json,
          match mem (fst kv) ["title"; "objective"], body_text MAX_FIELD_LENGTH (Some (snd kv)) with
          | true, Some text => Ok (fst kv, text)
          | _, _ => Raise (HTTPException 422 "invalid_request")
          end) kvs);;
        match fields with [] => invalid_body | _ => retM fields end
  | Some _ => invalid_body
  end.

(** [_bounded_id] *)
Definition bounded_id_ok (s : string) : bool :=
  str_nonempty s && (slen s <=? 128) &&
  negb (str_any (λ c, one_of "/\" c || bool_decide (c = "000"%char)) s).
Definition bounded_path_id (s : string) : M W string :=
  assert_ bounded_id_ok s else_raise HTTPException 422 "invalid_request";; retM s.

(** [_bounded_project_id] *)
Definition bounded_project_id (s : string) : M W string :=
  if PROJECT_ID_PATTERN s then retM s
  else if TRANSPORT_SAFE_TARGET s then
    do registration <- on_service (registration_view pt s);;
    if is_some registration then retM s
    else
      do plan <- on_service (plan_view pt s);;
      if is_some plan then retM s else invalid_body
  else invalid_body.

(** [_update_plan_digest_pair] and [_bounded_service_name] *)
Definition plan_digest_field (payload : option json) : M W string :=
  match payload with
  | Some (JStr s) => if HEX 64 s then retM s else invalid_body
  | _ => invalid_body
  end.
Definition bounded_service_name (payload : json) : M W string :=
  match payload with
  | JStr s => if service_name_ok s then retM s else invalid_body
  | _ => invalid_body
  end.
Definition bounded_field (maximum : Z) (payload : option json) : M W string :=
  match body_text maximum payload with Some s => retM s | None => invalid_body end.

(** ** Health and session *)

Definition audit_chain_json (r : result ChainVerificationResult) : json :=
  match r with
  | Ok c => JObj [("valid", JBool (cv_ok c)); ("events_checked", JInt (cv_events_checked c))]
  | Raise _ => JObj [("valid", JBool false); ("events_checked", JInt 0)]
  end.
(** [verify_audit_chain] of the service *)
Definition verify_audit_chain (w : service E) : result ChainVerificationResult :=
  match rp_audit (sv_repo w) with Some l => verify_chain l | None => Raise AttributeError end.

Definition health : M W http_reply :=
  do w <- getM;;
  do switches <- on_service (attempt kill_switch_status);;
  answer (JObj
    [("service", JStr "aipm-control-plane-operator"); ("status", JStr "available");
     ("schema_version", JInt SCHEMA_VERSION);
     ("build", match tx_build tx with
               | Ok b => b
               | Raise _ => JObj [("commit_sha", JStr ""); ("version", JStr "development");
                                  ("environment", JStr "development")]
               end);
     ("audit_chain", audit_chain_json (verify_audit_chain (tp_service w)));
     ("kill_switch", match switches with
                     | inl rows => switches_json rows
                     | inr _ => JObj [("switches", JArr [])]
                     end)]).

Definition post_login : M W http_reply :=
  do payload <- json_body;;
  do secret <- bounded_field 1024 (dget "secret" payload);;
  do session <- catchM (on_service (login cf (service_env 0) secret)) (λ e,
    match e with ControlPlaneError _ => Some (http_error 401 "unauthenticated") | _ => None end);;
  retM {| hp_body := JObj [("subject", JStr (pr_subject (se_principal session))); ("authenticated", JBool true)];
          hp_cookie := CookieSet (se_session_id session) (tx_session_ttl_seconds tx) (tx_secure_cookies tx) |}.

Definition session_view : M W http_reply :=
  do session <- resolve_session;;
  answer (JObj [("subject", JStr (pr_subject (se_principal session))); ("authenticated", JBool true);
                ("auth_epoch", JInt (se_auth_epoch session)); ("expires_at", JTime (se_expires_at session));
                ("csrf_token", JStr (se_csrf_token session))]).

Definition post_logout : M W http_reply :=
  do_ match hr_cookie rq with
      | Some id => if str_nonempty id then do_ require_csrf;; on_service (logout (service_env 10) id) else retM ()
      | None => retM ()
      end;;
  retM {| hp_body := JObj [("authenticated", JBool false)]; hp_cookie := CookieDeleted |}.

(** ** Plans *)

Definition shown_plan (target_id : string) : M W ProjectPlan :=
  do plan <- run_domain (on_service (plan_view pt target_id));;
  match plan with Some p => retM p | None => http_error 404 "not_found" end.

Definition read_plan_view (target_id : string) : M W http_reply :=
  do_ resolve_session;;
  do target <- bounded_path_id target_id;;
  do plan <- shown_plan target;;
  answer (shown_plan_payload plan).

Definition authorize_plan (target_id : string) : M W http_reply :=
  do session <- guarded_session;;
  do_ rate_limit LimitAuthorize session;;
  do target <- bounded_path_id target_id;;
  do payload <- json_body;;
  do fields <- bounded_fields (dget "fields" payload);;
  do key <- bounded_field 128 (dget "idempotency_key" payload);;
  do plan <- shown_plan target;;
  (* not under [_run]: a refusal of the request is no HTTP error *)
  do request <- liftM (new_ActionRequest UPDATE_PROJECT_PLAN target key fields (value (pp_environment plan)));;
  do decision <- run_domain (on_service (authorize_request cf pt (service_env 10) (se_session_id session) request [] None));;
  answer (authorization_json decision).

(** ** Updates *)

(** The fields an approval may carry. *)
Definition approval_body : M W (dict string json) :=
  do payload <- json_body;;
  assert_ negb (bool_decide (payload = [])) && (dlen payload <=? MAX_BODY_FIELDS)
    else_raise HTTPException 422 "invalid_request";;
  assert_ List.forallb (λ k, mem k ["idempotency_key"; UPDATE_PLAN_DIGEST_KEY; "service_name"]) (dkeys payload)
    else_raise HTTPException 422 "invalid_request";;
  retM payload.

(** From the bounded values to the answer. *)
Definition approve (session : OwnerSession) (project_id digest key : string) (service_name : option string)
  : M W http_reply :=
  do plan <- shown_plan project_id;;
  do result <- run_domain (on_service (approve_update_plan cf pt (service_env 10) (se_session_id session) project_id
                 (value (pp_environment plan)) digest key service_name));;
  answer (approval_json result).

Definition request_update_authorization (project_id : string) : M W http_reply :=
  do session <- guarded_session;;
  do_ rate_limit LimitUpdateApproval session;;
  do project <- bounded_project_id project_id;;
  do payload <- approval_body;;
  do key <- bounded_field 128 (dget "idempotency_key" payload);;
  do digest <- plan_digest_field (dget UPDATE_PLAN_DIGEST_KEY payload);;
  do name <- match dget "service_name" payload with
             | None | Some JNull => retM None
             | Some j => do n <- bounded_service_name j;; retM (Some n)
             end;;
  approve session project digest key name.

Definition request_service_update_authorization (project_id service_name : string) : M W http_reply :=
  do session <- guarded_session;;
  do_ rate_limit LimitUpdateApproval session;;
  do project <- bounded_project_id project_id;;
  do name <- bounded_service_name (JStr service_name);;
  do payload <- approval_body;;
  assert_ match dget "service_name" payload with
          | None | Some JNull => true
          | Some (JStr s) => str_eqb s name
          | Some _ => false
          end else_raise HTTPException 422 "invalid_request";;
  do key <- bounded_field 128 (dget "idempotency_key" payload);;
  do digest <- plan_digest_field (dget UPDATE_PLAN_DIGEST_KEY payload);;
  approve session project digest key (Some name).

Definition run_update_for_project (project_id : string) : M W http_reply :=
  do session <- guarded_session;;
  do_ rate_limit LimitUpdateExecute session;;
  do project <- bounded_project_id project_id;;
  do payload <- json_body;;
  do action_id <- match payload with
                  | [("action_id", j)] => bounded_field 128 (Some j)
                  | _ => invalid_body
                  end;;
  do w <- getM;;
  assert_ match action_view action_id (tp_service w) with
          | Some (a, _) => str_eqb (sc_target_id (lc_scope a)) project
          | None => false
          end else_raise HTTPException 409 "confirmation_required";;
  do result <- run_domain (on_service (run_approved_update py cf pt (service_env 10) (se_session_id session) action_id));;
  answer (update_run_json result).

Definition update_status (project_id : string) : M W http_reply :=
  do_ resolve_session;;
  do project <- bounded_project_id project_id;;
  do plan <- shown_plan project;;
  do w <- getM;;
  answer (JObj [("project_id", JStr project); ("plan", shown_plan_payload plan);
                ("execution", JObj [("available", JBool false)]);
                ("latest_update_action", JOpt latest_json (latest_update_action_view project (tp_service w)))]).

(** The registration in the store at the default path, production first. *)
Definition stored_registration (get : string → string → bool → result (option ProjectRegistration)) (project_id : string)
  : option ProjectRegistration :=
  match get project_id "production" true with
  | Ok (Some r) => Some r
  | Ok None => match get project_id "staging" true with Ok found => found | Raise _ => None end
  | Raise _ => None
  end.
(** The last row of the environment decides. *)
Definition switch_verdict (environment : string) (rows : list (Environment * KillSwitchState * Z * bool)) : bool :=
  fold_left (λ ok '(e, _, _, permits), if str_eqb (value e) environment then permits else ok) rows true.

Definition project_registration (project_id : string) : M W http_reply :=
  do_ resolve_session;;
  assert_ TRANSPORT_SAFE_TARGET project_id else_raise HTTPException 422 "invalid_request";;
  do view <- run_domain (on_service (registration_view pt project_id));;
  match view with
  | Some r => answer (registration_json true r)
  | None =>
      do get <- liftM (tx_default_store tx);;
      match stored_registration get project_id with
      | None => answer (JObj [("registered", JBool false); ("status", JStr "UNREGISTERED")])
      | Some r =>
          do switches <- on_service (attempt kill_switch_status);;
          let permits := match switches with inl rows => switch_verdict (rg_environment r) rows | inr _ => true end in
          answer (registration_json permits r)
      end
  end.

(** ** Actions *)

Definition read_action (action_id : string) : M W http_reply :=
  do_ resolve_session;;
  do id <- bounded_path_id action_id;;
  do w <- getM;;
  match action_view id (tp_service w) with
  | Some view => answer (action_json view)
  | None => http_error 404 "not_found"
  end.

Definition action_audit (action_id : string) : M W http_reply :=
  do_ resolve_session;;
  do id <- bounded_path_id action_id;;
  do w <- getM;;
  do events <- run_domain (liftM (audit_for_action id 100 (tp_service w)));;
  answer (audit_json id events).

(** [_confirm_and_prepare] *)
Definition confirm_and_prepare (action_id : string) (session : OwnerSession) : M W http_reply :=
  run_domain (
    do binding <- on_service (ServiceFlow.confirm_action cf (service_env 10) (se_session_id session) action_id);;
    do w <- getM;;
    do_ match get_action action_id (sv_repo (tp_service w)) with
        | Some a =>
            if bool_decide (lc_state a = CONFIRMED) then
              do_ on_service (capture_snapshot pt (service_env 30) (se_session_id session) action_id);; retM ()
            else retM ()
        | None => retM ()
        end;;
    do w1 <- getM;;
    answer (JObj [("action_id", JStr action_id); ("confirmation_id", JStr (cb_confirmation_id binding));
                  ("state", JOpt (λ view, JStr (value (lc_state (fst view)))) (action_view action_id (tp_service w1)))])).

Definition post_confirm (action_id : string) : M W http_reply :=
  do session <- guarded_session;;
  do_ rate_limit LimitConfirm session;;
  do id <- bounded_path_id action_id;;
  confirm_and_prepare id session.

Definition post_execute (action_id : string) : M W http_reply :=
  do session <- guarded_session;;
  do id <- bounded_path_id action_id;;
  do result <- run_domain (on_service (ServiceRun.execute_action py cf pt (service_env 10) (se_session_id session) id));;
  answer (execution_json result).

Definition post_reconcile (action_id : string) : M W http_reply :=
  do session <- guarded_session;;
  do id <- bounded_path_id action_id;;
  do result <- run_domain (on_service (ServiceRun.reconcile_action cf pt (service_env 10) (se_session_id session) id));;
  answer (reconciliation_json result).

Definition post_rollback (action_id : string) : M W http_reply :=
  do session <- guarded_session;;
  do id <- bounded_path_id action_id;;
  do decision <- run_domain (on_service (ServiceFlow.request_rollback py cf pt (service_env 10) (se_session_id session) id));;
  answer (rollback_json decision).

(** ** Kill switch and audit chain *)

Definition kill_switch_view : M W http_reply :=
  do_ resolve_session;;
  do rows <- run_domain (on_service kill_switch_status);;
  answer (switches_json rows).

(** [engage_kill_switch] and [disengage_kill_switch] *)
Definition post_switch (change : string → string → M (service E) KillSwitch) : M W http_reply :=
  do session <- guarded_session;;
  do payload <- json_body;;
  do reason <- bounded_field 256 (dget "reason" payload);;
  do k <- run_domain (on_service (change (pr_subject (se_principal session)) reason));;
  answer (switch_json k).

Definition audit_verify : M W http_reply :=
  do_ resolve_session;;
  do w <- getM;;
  do c <- run_domain (liftM (verify_audit_chain (tp_service w)));;
  answer (JObj [("valid", JBool (cv_ok c)); ("sequence", JInt (cv_events_checked c));
                ("error_sequence", JOpt JInt (cv_error_sequence c))]).

Definition handle (e : endpoint) : M W http_reply :=
  match e with
  | GetHealth => health
  | PostLogin => post_login
  | GetSession => session_view
  | PostLogout => post_logout
  | GetPlan id => read_plan_view id
  | PostAuthorize id => authorize_plan id
  | PostApproval id => request_update_authorization id
  | PostServiceApproval id name => request_service_update_authorization id name
  | PostExecuteUpdate id => run_update_for_project id
  | GetUpdateStatus id => update_status id
  | GetRegistration id => project_registration id
  | GetAction id => read_action id
  | GetActionAudit id => action_audit id
  | PostConfirm id => post_confirm id
  | PostExecute id => post_execute id
  | PostReconcile id => post_reconcile id
  | PostRollback id => post_rollback id
  | GetKillSwitch => kill_switch_view
  | PostEngage => post_switch (engage_kill_switch cf (service_env 10))
  | PostDisengage => post_switch (disengage_kill_switch cf (service_env 10))
  | GetAuditVerify => audit_verify
  end.
End app.

(** The octets of [ipaddress.IPv4Address]: one to three decimal digits without a
    leading zero, at most 255. *)
Definition ipv4_octet (s : string) : option Z :=
  if str_nonempty s && str_all is_digit s && (slen s <=? 3) && (str_eqb s "0" || negb (starts_with "0" s)) then
    if digits_value s 0 <=? 255 then Some (digits_value s 0) else None
  else None.
Definition ipv4_of (bind : string) : option (list Z) :=
  match split_on "." bind with
  | [a; b; c; d] => mapM ipv4_octet [a; b; c; d]
  | _ => None
  end.

(** [validate_bind_address]: only IPv4 loopback, 127.0.0.0/8; an IPv6 address is
    refused like text that is no address. *)
Definition validate_bind_address (bind : string) : result string :=
  match ipv4_of bind with
  | Some (127 :: _) => Ok bind
  | _ => Raise ValueError
  end.

(** [create_operator_app]: the bind address must be loopback, the inactivity
    timeout of the sessions must fit the cookie, and an app starts with empty
    limiters. *)
Definition create_operator_app {E} (tx : transport_config) (bind : string) (s : service E) : result (transport E) :=
  let* _ := validate_bind_address bind in
  require negb (seconds (tx_session_ttl_seconds tx) <? ss_inactivity_timeout (sv_sessions s)) else_raise ValueError;;
  Ok {| tp_service := s; tp_authorize := []; tp_confirm := []; tp_update_approval := []; tp_update_execute := [] |}.
