(* ===== verification/TransportProps.v ===== *)
(** * TransportProps: what an HTTP request can do (control_plane/transport.py)

    Requests that change anything carry the session cookie and its CSRF token;
    requests that read change nothing but the session they refresh; the update
    runtime is reached by one route, for an action of the project in the path,
    and at most once for each action whatever is requested. *)

From S2P Require Import Prelude PyStr PyText PyDict PyTime Json Models Lifecycle ProjectPlan Identity Policy.
From S2P Require Import Confirmation AuditLedger AuditBuilders KillSwitch Verification Rollback ActionRepo.
From S2P Require Import ActionSpec Capability Contract Gate Executor RollbackExec Session OwnerAuth ServicePlan.
From S2P Require Import ServiceState ServiceFlow ServiceRun ServiceBridge ServiceSafety ServiceProps ServiceDecisions.
From S2P Require Import RateLimit Transport.
From Stdlib Require Import Ascii String ZArith Lia.
From stdpp Require Import base strings gmap list.

Local Open Scope string_scope.
Local Open Scope Z_scope.
Local Open Scope aipm_scope.

Section guards.
Context {E : Type}.
Notation W := (transport E).
Variables (py : py_values) (cf : service_config) (tx : transport_config).
Variables (pt : ports E) (v : call_env) (monotonic : Z) (rq : http_request).

(** Only the sessions are touched. *)
Definition sessions_only (w w' : W) : Prop :=
  w' = with_service (with_session_store (sv_sessions (tp_service w')) (tp_service w)) w.
#[export] Instance sessions_only_preorder : PreOrder sessions_only.
Proof.
  split.
  - intros [[] ? ? ? ?]. done.
  - intros w1 w2 w3 H1 H2. unfold sessions_only in *. rewrite H2, H1. done.
Qed.

(** The request presents a session of the store and its CSRF token. *)
Definition authentic (w : W) : Prop :=
  ∃ id s i, hr_cookie rq = Some id ∧ ss_sessions (sv_sessions (tp_service w)) !! id = Some s ∧
    se_auth_epoch s = ss_auth_epoch (sv_sessions (tp_service w)) ∧
    session_is_active s (cv_clock v i) = true ∧ verify_csrf s (hr_csrf rq) = true.

(** What [session_of] does to the store: the session refreshed or removed. *)
Lemma session_of_cases v' i id (s s' : service E) r :
  session_of v' i id s = (s', r) →
  s' = with_session_store (sv_sessions s') s ∧
  (r = Raise (ControlPlaneError SESSION_INVALID) ∨
   ∃ x, ss_sessions (sv_sessions s) !! id = Some x ∧ session_is_active x (at_ v' i) = true ∧
     se_auth_epoch x = ss_auth_epoch (sv_sessions s) ∧
     let y := refreshed x (ss_inactivity_timeout (sv_sessions s)) (at_ v' i) in
     r = Ok y ∧ sv_sessions s' = with_sessions (<[id := y]> (ss_sessions (sv_sessions s))) (sv_sessions s)).
Proof.
  unfold session_of, on_sessions, on, bindM, get_session, bindM, getM.
  destruct (ss_sessions (sv_sessions s) !! id) as [x|] eqn:Ex; cbn.
  - destruct (negb (se_auth_epoch x =? _) || _) eqn:El; cbn.
    + intros [= <- <-]. split; [done|by left].
    + intros [= <- <-]. split; [done|]. right. exists x. apply orb_false_iff in El as [E1 E2].
      apply negb_false_iff in E1, E2. apply Z.eqb_eq in E1. by split_and!.
  - intros [= <- <-]. split; [done|by left].
Qed.

Lemma on_service_session v' i id : keeps sessions_only (on_service (E := E) (session_of v' i id)).
Proof.
  intros w w' r. unfold on_service. destruct (session_of v' i id (tp_service w)) as [s r'] eqn:Es. intros [= <- _].
  apply session_of_cases in Es as [Es _]. unfold sessions_only. cbn. by rewrite <- Es.
Qed.

(** A mutating request is let through, or refused with only the sessions
    touched. *)
Lemma csrf_cases (w w' : W) r :
  require_csrf v rq w = (w', r) →
  sessions_only w w' ∧
  (r = Raise (HTTPException 403 "csrf_failed") ∨
   r = Ok () ∧ ∃ id x, hr_cookie rq = Some id ∧ ss_sessions (sv_sessions (tp_service w)) !! id = Some x ∧
     se_auth_epoch x = ss_auth_epoch (sv_sessions (tp_service w)) ∧
     session_is_active x (cv_clock v 1%nat) = true ∧ verify_csrf x (hr_csrf rq) = true).
Proof.
  unfold require_csrf, catchM, bindM. destruct (hr_cookie rq) as [id|].
  2: { intros [= <- <-]. split; [done|by left]. }
  destruct (str_nonempty id). 2: { intros [= <- <-]. split; [done|by left]. }
  destruct (on_service _ w) as [w1 r1] eqn:Eo. pose proof (on_service_session _ _ _ _ _ _ Eo) as Q.
  unfold on_service in Eo. destruct (session_of _ _ _ _) as [s r'] eqn:Es. injection Eo as <- ->.
  apply session_of_cases in Es as [_ [->|(x & Hx & Hl & He & -> & _)]]; cbn -[verify_csrf].
  { intros [= <- <-]. split; [done|by left]. }
  unfold liftM, raise_unless. destruct (verify_csrf _ _) eqn:Ev; intros [= <- <-]; (split; [done|]); [right|by left].
  split; [done|]. exists id, x. split_and!; try done.
  revert Ev. unfold verify_csrf. by destruct (hr_csrf rq).
Qed.

Lemma guarded_cases (w w' : W) r :
  guarded_session v rq w = (w', r) →
  sessions_only w w' ∧
  (r = Raise (HTTPException 401 "unauthenticated") ∨ r = Raise (HTTPException 403 "csrf_failed") ∨
   is_ok r = true ∧ authentic w).
Proof.
  unfold guarded_session, resolve_session, bindM. destruct (hr_cookie rq) as [id|] eqn:Ec.
  2: { intros [= <- <-]. split; [done|by left]. }
  destruct (str_nonempty id). 2: { intros [= <- <-]. split; [done|by left]. }
  unfold catchM. destruct (on_service _ w) as [w1 r1] eqn:Eo. pose proof (on_service_session _ _ _ _ _ _ Eo) as Q.
  unfold on_service in Eo. destruct (session_of _ _ _ _) as [s r'] eqn:Es. injection Eo as <- ->.
  apply session_of_cases in Es as [_ [->|(x & Hx & Hl & He & -> & Hss)]].
  { intros [= <- <-]. split; [done|by left]. }
  destruct (require_csrf v rq _) as [w2 r2] eqn:Er. apply csrf_cases in Er as [Q2 Hr].
  assert (sessions_only w w2) as Q' by (by etrans).
  destruct Hr as [->|(-> & id' & y & Hid & Hy & _ & _ & Hcsrf)]; intros [= <- <-]; (split; [done|]); right; [by left|right].
  split; [done|]. rewrite Ec in Hid. injection Hid as <-. cbn in Hy. rewrite Hss in Hy. cbn in Hy.
  rewrite lookup_insert_eq in Hy. injection Hy as <-. by exists id, x, 0%nat.
Qed.

(** ** Handlers that change state *)

(** Refused before anything happened. *)
Definition refused_request (r : result http_reply) : Prop :=
  r = Raise (HTTPException 401 "unauthenticated") ∨ r = Raise (HTTPException 403 "csrf_failed").
Definition guarded (w w' : W) (r : result http_reply) : Prop :=
  authentic w ∨ sessions_only w w' ∧ refused_request r.

Lemma guarded_first (k : OwnerSession → M W http_reply) (w w' : W) r :
  bindM (guarded_session v rq) k w = (w', r) → guarded w w' r.
Proof.
  unfold bindM. destruct (guarded_session v rq w) as [w1 r1] eqn:Eg.
  apply guarded_cases in Eg as [Q [->|[->|[Hok Ha]]]].
  - intros [= <- <-]. right. split; [done|by left].
  - intros [= <- <-]. right. split; [done|by right].
  - intros _. by left.
Qed.

Lemma logout_guarded (w w' : W) r :
  post_logout v rq w = (w', r) → authentic w ∨ sessions_only w w'.
Proof.
  unfold post_logout. destruct (hr_cookie rq) as [id|] eqn:Ec; [|by intros [= <- _]; right].
  destruct (str_nonempty id); [|by intros [= <- _]; right].
  unfold bindM at 1. unfold bindM at 1. destruct (require_csrf v rq w) as [w1 r1] eqn:Er.
  apply csrf_cases in Er as [Q [->|(-> & id' & x & Hid & Hx & He & Ha & Hv)]]; [by intros [= <- _]; right|].
  intros _. left. by exists id', x, 1%nat.
Qed.

(** ** Handlers that read *)

Lemma reads_on_service {A : Type} (m : M (service E) A) : reads m → reads (on_service m).
Proof.
  intros Hm w. unfold on_service. specialize (Hm (tp_service w)). destruct (m _) as [s r]. cbn in *. subst s. by destruct w.
Qed.
Lemma kill_switch_status_reads : reads (kill_switch_status (E := E)).
Proof. unfold kill_switch_status, control_plane_error. solve_atomic. Qed.
Lemma registration_view_reads t : reads (registration_view (E := E) pt t).
Proof. unfold registration_view. solve_atomic. Qed.
Lemma plan_view_reads t : reads (plan_view pt t).
Proof. apply read_current_plan_reads. Qed.
Lemma http_error_reads {A} st c : reads (S := W) (http_error (A := A) st c).
Proof. unfold http_error. solve_atomic. Qed.
Lemma reads_catch {A} (m : M W A) h : reads m → (∀ e m', h e = Some m' → reads m') → reads (catchM m h).
Proof.
  intros Hm Hh w. unfold catchM. specialize (Hm w). destruct (m w) as [w1 [a|e]]; [done|]. cbn in Hm. subst w1.
  destruct (h e) as [m'|] eqn:Ee; [by apply (Hh e)|done].
Qed.
Lemma run_domain_reads {A} (m : M W A) : reads m → reads (run_domain m).
Proof. intros Hm. apply reads_catch; [done|]. intros [] m' [= <-]. apply http_error_reads. Qed.
#[local] Hint Resolve reads_on_service kill_switch_status_reads registration_view_reads plan_view_reads
  http_error_reads run_domain_reads : atomicity.

Lemma answer_reads j : reads (S := W) (answer j).
Proof. unfold answer. solve_atomic. Qed.
Lemma bounded_path_id_reads s : reads (S := W) (bounded_path_id s).
Proof. unfold bounded_path_id. solve_atomic. Qed.
Lemma shown_plan_reads t : reads (shown_plan pt t).
Proof. unfold shown_plan. solve_atomic. Qed.
Lemma bounded_project_id_reads s : reads (bounded_project_id pt s).
Proof. unfold bounded_project_id, invalid_body. solve_atomic. Qed.
#[local] Hint Resolve answer_reads bounded_path_id_reads shown_plan_reads bounded_project_id_reads : atomicity.

Lemma resolve_session_sessions : keeps sessions_only (resolve_session (E := E) v rq).
Proof.
  intros w. unfold resolve_session. destruct (hr_cookie rq) as [id|]; [destruct (str_nonempty id)|].
  - apply keeps_catch; [exact _|apply on_service_session|]. intros [] m' [= <-].
    apply keeps_reads; [exact _|apply http_error_reads].
  - apply keeps_from_reads; [exact _|apply http_error_reads].
  - apply keeps_from_reads; [exact _|apply http_error_reads].
Qed.

(** A handler that resolves the session and reads. *)
Lemma session_then_reads {A} (k : OwnerSession → M W A) :
  (∀ x, reads (k x)) → keeps sessions_only (bindM (resolve_session v rq) k).
Proof.
  intros Hk w. apply keeps_from_bind; [exact _|apply resolve_session_sessions|]. intros x w1 _ _.
  apply keeps_from_reads; [exact _|apply Hk].
Qed.

Lemma reading_handler e : mutating e = false → keeps sessions_only (handle (E := E) py cf tx pt v monotonic rq e).
Proof.
  destruct e; intros [=]; cbn [handle];
    try (apply session_then_reads; intros x).
  - apply keeps_reads; [exact _|]. unfold health. solve_atomic.
  - solve_atomic.
  - solve_atomic.
  - solve_atomic.
  - solve_atomic.
  - solve_atomic.
  - solve_atomic.
  - solve_atomic.
  - solve_atomic.
Qed.
End guards.

(** ** The route to the update runtime *)

Section route.
Context {E : Type}.
Notation W := (transport E).
Variables (py : py_values) (cf : service_config) (tx : transport_config).
Variables (pt : ports E) (v : call_env) (monotonic : Z) (rq : http_request).

(** Quiet steps of the service; the limiters may count. *)
Definition calm (w w' : W) : Prop := quiet (tp_service w) (tp_service w').
#[export] Instance calm_preorder : PreOrder calm.
Proof. unfold calm. split; [by intros w|]. intros w1 w2 w3 H1 H2. by etrans. Qed.

(** The service but for its sessions. *)
Definition same_service (w w' : W) : Prop :=
  sv_repo (tp_service w') = sv_repo (tp_service w) ∧ sv_world (tp_service w') = sv_world (tp_service w).
#[export] Instance same_service_preorder : PreOrder same_service.
Proof. unfold same_service. split; [done|]. intros w1 w2 w3 [H1 H2] [H3 H4]. split; congruence. Qed.

Lemma same_service_calm (w w' : W) : same_service w w' → calm w w'.
Proof. unfold calm, quiet. intros [-> ->]. done. Qed.
Lemma sessions_only_service (w w' : W) : sessions_only w w' → same_service w w'.
Proof. intros ->. done. Qed.
Lemma keeps_weaken {S A} (R R' : S → S → Prop) (m : M S A) : (∀ s s', R s s' → R' s s') → keeps R m → keeps R' m.
Proof. intros HR Hm s s' r H. by apply HR, (Hm _ _ _ H). Qed.

Lemma guarded_session_service : keeps same_service (guarded_session v rq).
Proof. intros w w' r H. by apply sessions_only_service, (guarded_cases _ _ _ _ _ H). Qed.
Lemma require_csrf_service : keeps same_service (require_csrf v rq).
Proof. intros w w' r H. by apply sessions_only_service, (csrf_cases _ _ _ _ _ H). Qed.
Lemma rate_limit_service l x : keeps same_service (rate_limit (E := E) monotonic l x).
Proof. intros w w' r. unfold rate_limit. destruct (limiter_allow _ _ _ _ _ _) as [d ok]. by intros [= <- _]. Qed.

Lemma on_service_calm {A : Type} (m : M (service E) A) : keeps quiet m → keeps calm (on_service m).
Proof.
  intros Hm w w' r. unfold on_service. destruct (m _) as [s r'] eqn:Em. intros [= <- _]. by apply (Hm _ _ _ Em).
Qed.
Lemma run_domain_calm {A} (m : M W A) : keeps calm m → keeps calm (run_domain m).
Proof.
  intros Hm. apply keeps_catch; [exact _|done|]. intros [] m' [= <-]. apply keeps_reads; [exact _|apply http_error_reads].
Qed.
Lemma calm_service {A} (m : M W A) : keeps same_service m → keeps calm m.
Proof. apply keeps_weaken, same_service_calm. Qed.
#[local] Hint Resolve on_service_calm run_domain_calm calm_service guarded_session_service require_csrf_service
  rate_limit_service : safety.
#[local] Hint Resolve login_quiet logout_quiet authorize_quiet approve_quiet confirm_action_quiet capture_quiet
  execute_action_quiet reconcile_action_quiet request_rollback_quiet : safety.

Lemma bounded_fields_reads p : reads (S := W) (bounded_fields p).
Proof. unfold bounded_fields, invalid_body, http_error. solve_atomic. Qed.
Lemma json_body_reads : reads (S := W) (json_body rq).
Proof. unfold json_body, invalid_body, http_error. solve_atomic. Qed.
Lemma bounded_field_reads n p : reads (S := W) (bounded_field n p).
Proof. unfold bounded_field, invalid_body, http_error. solve_atomic. Qed.
Lemma plan_digest_field_reads p : reads (S := W) (plan_digest_field p).
Proof. unfold plan_digest_field, invalid_body, http_error. solve_atomic. Qed.
Lemma bounded_service_name_reads p : reads (S := W) (bounded_service_name p).
Proof. unfold bounded_service_name, invalid_body, http_error. solve_atomic. Qed.
Lemma approval_body_reads : reads (S := W) (approval_body rq).
Proof. unfold approval_body, json_body, invalid_body, http_error. solve_atomic. Qed.
#[local] Hint Resolve bounded_fields_reads json_body_reads bounded_field_reads plan_digest_field_reads
  bounded_service_name_reads approval_body_reads answer_reads bounded_path_id_reads shown_plan_reads
  bounded_project_id_reads http_error_reads : atomicity.

Lemma approve_calm x p d k n : keeps calm (approve cf pt v x p d k n).
Proof. intros w. unfold approve. keeps_walk. Qed.
Lemma confirm_and_prepare_calm id x : keeps calm (confirm_and_prepare cf pt v id x).
Proof. apply run_domain_calm. intros w. keeps_walk. Qed.
Lemma switch_calm change : (∀ a b, keeps quiet (change a b)) → keeps calm (post_switch v rq change).
Proof. intros Hc w. unfold post_switch. keeps_walk. Qed.
#[local] Hint Resolve approve_calm confirm_and_prepare_calm : safety.

(** Every request but the execution of an update is calm. *)
Lemma handle_calm e : (∀ p, e ≠ PostExecuteUpdate p) → keeps calm (handle (E := E) py cf tx pt v monotonic rq e).
Proof.
  intros Hne. destruct (mutating e) eqn:Em.
  2: { apply (keeps_weaken sessions_only); [|by apply reading_handler].
       intros w w' H. by apply same_service_calm, sessions_only_service. }
  destruct e; try done; cbn [handle].
  - intros w. unfold post_login. keeps_walk. apply keeps_catch; [exact _|eauto with safety|].
    intros [] m' [= <-]. apply keeps_reads; [exact _|apply http_error_reads].
  - intros w. unfold post_logout. keeps_walk.
  - intros w. unfold authorize_plan. keeps_walk.
  - intros w. unfold request_update_authorization. keeps_walk.
  - intros w. unfold request_service_update_authorization. keeps_walk.
  - by destruct (Hne project_id).
  - intros w. unfold post_confirm. keeps_walk.
  - intros w. unfold post_execute. keeps_walk.
  - intros w. unfold post_reconcile. keeps_walk.
  - intros w. unfold post_rollback. keeps_walk.
  - apply switch_calm. intros a b. apply quiet_switches.
  - apply switch_calm. intros a b. apply quiet_switches.
Qed.

(** The runtime was called, for an action of the project that was found in the
    repository as it was. *)
Definition routed (project : string) (w w' : W) : Prop :=
  ∃ id before s b, get_action id (sv_repo (tp_service w)) = Some before ∧ sc_target_id (lc_scope before) = project ∧
    sv_repo s = sv_repo (tp_service w) ∧ sv_world s = sv_world (tp_service w) ∧
    ran_update cf pt (service_env v 10) id b s (tp_service w').

Lemma bounded_project_id_Ok s (w w' : W) p : bounded_project_id pt s w = (w', Ok p) → w' = w ∧ p = s.
Proof.
  intros H. split; [by apply reads_Ok in H; [|apply bounded_project_id_reads]|].
  unfold bounded_project_id in H. destruct (PROJECT_ID_PATTERN s); [by injection H as _ <-|].
  destruct (TRANSPORT_SAFE_TARGET s); [|done]. apply bindM_Ok in H as (w1 & reg & _ & H).
  destruct (is_some reg); [by injection H as _ <-|]. apply bindM_Ok in H as (w2 & plan & _ & H).
  destruct (is_some plan); [by injection H as _ <-|done].
Qed.

(** A step that only reads, or stops. *)
Lemma reads_or_stops {A B} (m : M W A) (k : A → M W B) (w w' : W) r :
  reads m → bindM m k w = (w', r) → w' = w ∨ ∃ a, m w = (w, Ok a) ∧ k a w = (w', r).
Proof.
  intros Hm. unfold bindM. destruct (m w) as [w1 [a|e]] eqn:Em; pose proof (reads_Ok _ _ _ _ Hm Em) as ->.
  - intros H. right. by exists a.
  - intros [= <- _]. by left.
Qed.

Lemma on_service_Ok_or {A : Type} (m : M (service E) A) (w w' : W) r :
  run_domain (on_service m) w = (w', r) → ∃ s r', m (tp_service w) = (s, r') ∧ w' = with_service s w.
Proof.
  unfold run_domain, catchM, on_service. destruct (m _) as [s [a|e]]; [by intros [= <- _]; exists s, (Ok a)|].
  destruct e; intros [= <- _]; by eexists _, _.
Qed.

Lemma run_update_routed project (w w' : W) r :
  run_update_for_project py cf pt v monotonic rq project w = (w', r) → calm w w' ∨ routed project w w'.
Proof.
  intros H. unfold run_update_for_project in H.
  apply (bindM_keeps same_service) in H as [[H _]|(x & w1 & _ & Q1 & H)];
    [by left; apply same_service_calm| |apply guarded_session_service].
  apply (bindM_keeps same_service) in H as [[H _]|(u & w2 & _ & Q2 & H)];
    [by left; apply same_service_calm; etrans| |apply rate_limit_service].
  assert (same_service w w2) as Q by (by etrans). clear Q1 Q2 w1.
  apply reads_or_stops in H as [->|(p & Hp & H)]; [by left; apply same_service_calm| |solve_atomic].
  apply bounded_project_id_Ok in Hp as [_ ->].
  apply reads_or_stops in H as [->|(payload & _ & H)]; [by left; apply same_service_calm| |solve_atomic].
  apply reads_or_stops in H as [->|(id & _ & H)]; [by left; apply same_service_calm| |unfold invalid_body; solve_atomic].
  unfold bindM at 1, getM in H. apply reads_or_stops in H as [->|(u' & Hv & H)]; [by left; apply same_service_calm| |solve_atomic].
  apply liftM_raise_unless_Ok in Hv as [Hv _]. unfold action_view in Hv.
  destruct (get_action id (sv_repo (tp_service w2))) as [before|] eqn:Ha; cbn in Hv; [|done].
  apply str_eqb_true in Hv. destruct Q as [Hr Hw].
  assert (∃ r', run_domain (on_service (run_approved_update py cf pt (service_env v 10) (se_session_id x) id)) w2 = (w', r'))
    as [r' Hrun].
  { unfold bindM in H. destruct (run_domain _ w2) as [w3 [res|e]]; injection H as <- _; by eexists. }
  apply on_service_Ok_or in Hrun as (s & r2 & Hrun & ->). apply run_update_cases in Hrun as [Hq|[b Hb]].
  - left. unfold calm. cbn. etrans; [by apply (same_service_calm w w2)|exact Hq].
  - right. exists id, before, (tp_service w2), b. rewrite Hr in Ha. by split_and!.
Qed.

Lemma updates_ok_same {E'} (s s' : service (list UpdateExecutionBinding * E')) :
  sv_repo s' = sv_repo s → sv_world s' = sv_world s → updates_ok s → updates_ok s'.
Proof. intros Hr Hw [R N V]. split; unfold updates in *; by rewrite ?Hr, ?Hw. Qed.
End route.

(** ** The properties *)

(** C6: who can change what over HTTP.  Whatever request meets whatever state,
    only the sessions may differ afterwards, unless the endpoint is a mutating
    one and either is the login or the request carries the identifier of a
    stored session of the current epoch that is active at a reading of this
    request, together with its CSRF token.  Without them a mutating request other
    than login and logout is answered with 401 or 403. *)
Theorem request_effects {E} (py : py_values) (cf : service_config) (tx : transport_config) (pt : ports E) (v : call_env)
    (monotonic : Z) (rq : http_request) (e : endpoint) (w w' : transport E) r :
  handle py cf tx pt v monotonic rq e w = (w', r) →
  (sessions_only w w' ∨ mutating e = true ∧ (e = PostLogin ∨ authentic v rq w)) ∧
  (mutating e = true → e ≠ PostLogin → e ≠ PostLogout → authentic v rq w ∨ refused_request r).
Proof.
  intros H. destruct (mutating e) eqn:Em; [|split; [left; by apply (reading_handler _ _ _ _ _ _ _ _ Em _ _ _ H)|done]].
  assert (Hg : guarded v rq w w' r →
    (sessions_only w w' ∨ true = true ∧ (e = PostLogin ∨ authentic v rq w)) ∧
    (true = true → e ≠ PostLogin → e ≠ PostLogout → authentic v rq w ∨ refused_request r)).
  { intros [Ha|[Hs Hr]]; (split; [|auto]); [right|left]; auto. }
  destruct e; try done; cbn [handle] in H;
    try (apply Hg; eapply guarded_first; exact H).
  - split; [right; auto|done].
  - split; [|done]. apply logout_guarded in H as [Ha|Hs]; [right|left]; auto.
Qed.

(** The target of an action does not change. *)
Lemma advances_target a a' : advances a a' → sc_target_id (lc_scope a') = sc_target_id (lc_scope a).
Proof. intros (_ & _ & _ & Hk)%advances_facts. unfold lifecycle_key in Hk. by injection Hk as -> _ _. Qed.

(** C7: one route to the update runtime.  If a request changes the world behind
    the update runtime, it is POST /updates/p/execute, it carries a live session
    and its CSRF token, and the runtime was handed a binding for an action of
    the project [p] of the path - found in the repository, bound to that target,
    not settled before and verified within this request. *)
Theorem update_route {E} (py : py_values) (cf : service_config) (tx : transport_config) (pt : ports E) (v : call_env)
    (monotonic : Z) (rq : http_request) (e : endpoint) (w w' : transport E) r :
  repo_ok (sv_repo (tp_service w)) → handle py cf tx pt v monotonic rq e w = (w', r) →
  sv_world (tp_service w') ≠ sv_world (tp_service w) →
  ∃ project id before s b runtime, e = PostExecuteUpdate project ∧ authentic v rq w ∧
    get_action id (sv_repo (tp_service w)) = Some before ∧ sc_target_id (lc_scope before) = project ∧
    lc_state before ∉ replayed_states ∧ ueb_action_id b = id ∧ ueb_project_name b = project ∧
    (lc_state <$> get_action id (sv_repo s)) = Some VERIFIED_SUCCESS ∧ pt_update_runtime pt = Some runtime ∧
    tp_service w' = with_world (fst (runtime b (sv_world s))) s ∧ sv_world s = sv_world (tp_service w).
Proof.
  intros Hok H Hw. assert ((∃ p, e = PostExecuteUpdate p) ∨ ∀ p, e ≠ PostExecuteUpdate p) as [[project ->]|Hne].
  { destruct e; (by right) || (left; by eexists). }
  2: { exfalso. apply Hw. eapply handle_calm in H; [by destruct H|done]. }
  assert (authentic v rq w) as Ha.
  { cbn [handle] in H. unfold run_update_for_project in H. pose proof H as H'. apply guarded_first in H' as [Ha|[Hs _]]; [done|].
    exfalso. apply Hw. by destruct (sessions_only_service _ _ Hs) as [_ ->]. }
  cbn [handle] in H. apply run_update_routed in H as [[_ Hq]|(id & before & s0 & b & Hb & Ht & Hr & Hwd & Hrun)];
    [by rewrite Hq in Hw|].
  destruct Hrun as [(before' & Hb' & Hst) (s & a & runtime & [Hq Hwq] & Hga & Hv & Hu & Hrt & Hs)].
  rewrite Hr, Hb in Hb'. injection Hb' as <-. apply update_binding_Ok in Hu. rewrite Hr in Hq. destruct (Hq Hok) as [Hok' Hev].
  destruct (ev_action _ _ Hev _ _ Hb) as (a' & Ha' & Hadv). rewrite Hga in Ha'. injection Ha' as <-.
  exists project, id, before, s, b, runtime. split_and!; try done.
  - by rewrite (bo_action _ _ _ _ Hu), (ro_action _ Hok' _ _ Hga).
  - by rewrite (bo_project _ _ _ _ Hu), (advances_target _ _ Hadv).
  - by rewrite Hga, <- Hv.
  - congruence.
Qed.

(** ** Histories of requests *)

Record http_event {E} := {
  he_ports : ports E; he_env : call_env; he_monotonic : Z; he_request : http_request; he_endpoint : endpoint }.
Arguments http_event : clear implicits.

Section histories.
Context {E : Type}.
Variables (py : py_values) (cf : service_config) (tx : transport_config).
Notation W := (transport (list UpdateExecutionBinding * E)).

Definition serve_request (e : http_event E) (w : W) : W :=
  fst (handle py cf tx (logged (he_ports e)) (he_env e) (he_monotonic e) (he_request e) (he_endpoint e) w).
Definition serve_requests (es : list (http_event E)) (w : W) : W := fold_left (λ w e, serve_request e w) es w.

Lemma serve_request_ok e (w : W) : updates_ok (tp_service w) → updates_ok (tp_service (serve_request e w)).
Proof.
  intros Hw. unfold serve_request. destruct (handle _ _ _ _ _ _ _ _ w) as [w' r] eqn:Eh. cbn [fst].
  destruct (he_endpoint e) as [| | | | | | | |project| | | | | | | | | | | |] eqn:Ee;
    try (eapply quiet_updates_ok; [eapply handle_calm; [|exact Eh]|]; done).
  cbn [handle] in Eh. apply run_update_routed in Eh as [Hq|(id & before & s & b & _ & _ & Hr & Hwd & Hrun)].
  - by eapply quiet_updates_ok.
  - eapply ran_updates_ok; [exact Hrun|]. by eapply updates_ok_same.
Qed.

(** Whatever requests are served, the runtime runs at most once for an action. *)
Lemma serve_requests_ok es (w : W) : updates_ok (tp_service w) → updates_ok (tp_service (serve_requests es w)).
Proof.
  revert w. induction es as [|e es IH]; intros w Hw; [done|]. cbn. by apply IH, serve_request_ok.
Qed.
End histories.
