(* ===== verification/Scenario.v ===== *)
(** * Scenario: one action from request to verified success

    A concrete run of the plane, evaluated by the kernel: an owner asks for a
    new plan title, the planner and the policy answer, the owner confirms, the
    repository takes the action through lease, execution and verification.
    The values of this file instantiate the theorems of the library in
    [Witnesses.v]. *)

From S2P Require Import Prelude PyStr PyTime Sha256 Json PyDict Models Lifecycle ProjectPlan.
From S2P Require Import Identity Policy Confirmation AuditLedger AuditBuilders KillSwitch.
From S2P Require Import Verification ActionRepo ActionSpec Recovery.
From Stdlib Require Import Ascii String ZArith Lia.
From stdpp Require Import base strings gmap list.

Local Open Scope string_scope.
Local Open Scope Z_scope.
Local Open Scope aipm_scope.

(** The value a computation returned. *)
Definition the {A : Type} (r : result A) : match r return Type with Ok _ => A | Raise _ => unit end :=
  match r with Ok a => a | Raise _ => () end.

(** 2026-01-01T00:00:00Z. *)
Definition t0 : datetime := 739616 * us_per_day.

Definition ex_request := Eval vm_compute in
  the (new_ActionRequest UPDATE_PROJECT_PLAN "alpha" "key-1"
         [("title", "New title"); ("objective", "Ship it")] "staging").
Definition ex_current := Eval vm_compute in
  the (pp_create "alpha" STAGING "Old title" "Old objective" (t0 - hours 1) true).
Definition ex_fields : gmap string string :=
  {[ "title" := "New title"; "objective" := "Ship it" ]}.
Definition ex_plan := Eval vm_compute in
  the (build_evidence_neutral_plan ex_request t0 ["alpha"; "beta"]).
Definition ex_owner : OwnerPrincipal :=
  {| pr_subject := OWNER_SUBJECT; pr_issuer := OWNER_ISSUER;
     pr_authentication_method := ARGON2ID_OWNER_PASSPHRASE; pr_verification := VERIFIED;
     pr_auth_epoch := 1; pr_authenticated_at := t0 - minutes 1; pr_expires_at := t0 + hours 1;
     pr_roles := [OWNER_ROLE]; pr_identity_version := PRINCIPAL_IDENTITY_VERSION |}.
Definition ex_policy : AuthorizationPolicy :=
  default_policy "policy-v1" [("alpha", "staging")] OWNER_CONFIRMATION.
Definition ex_decision := Eval vm_compute in
  the (authorize ex_policy (Some ex_owner) ex_request ex_plan (Some ex_current) (Some t0)).
Definition ex_identity := Eval vm_compute in
  the (derive_action_identity ex_request ex_plan ex_current "policy-v1" OWNER_SUBJECT).

Example scenario_authorized : ad_allowed ex_decision = true ∧ ad_action_identity ex_decision = Some ex_identity.
Proof. split; reflexivity. Qed.

(** ** The repository takes the action to verified success *)

Definition ex_action : ActionLifecycle :=
  {| lc_action_id := id_action_id ex_identity; lc_plan_id := id_plan_id ex_identity;
     lc_plan_digest := id_plan_digest ex_identity; lc_operation := UPDATE_PROJECT_PLAN;
     lc_scope := {| sc_target_id := "alpha"; sc_environment := "staging";
                    sc_policy_version := "policy-v1" |};
     lc_state := REQUESTED; lc_requester_subject := OWNER_SUBJECT;
     lc_action_protocol := "mc616d2-v1"; lc_confirmation_kind := OWNER_CONFIRMATION;
     lc_approver_subject := None; lc_idempotency_key := "key-1"; lc_created_at := t0;
     lc_expires_at := ad_expires_at ex_decision; lc_version := 0;
     lc_decision_id := ad_decision_id ex_decision; lc_plan_revision := 1;
     lc_rollback_of_action_id := None; lc_snapshot_id := None |}.
Definition ex_id : string := lc_action_id ex_action.

Definition ex_ledger := Eval vm_compute in the (new_InMemoryAuditLedger 100).
Definition ex_plans : plan_store := {[ "alpha" := ex_current ]}.
Definition ex_repo0 := Eval vm_compute in
  the (new_InMemoryActionRepository 16 (Some ex_ledger) (Some ex_plans)).

(** Calls in order with their answers, and the last state. *)
Fixpoint perform (cs : list repo_call) (s : repo) : list (repo_call * result unit) * repo :=
  match cs with
  | [] => ([], s)
  | c :: cs' =>
      let '(s1, r) := run_repo_call c s in
      let '(l, s') := perform cs' s1 in ((c, r) :: l, s')
  end.

Lemma perform_history cs s : history s (fst (perform cs s)) (snd (perform cs s)).
Proof.
  revert s. induction cs as [|c cs IH]; intros s; cbn; [constructor|].
  destruct (run_repo_call c s) as [s1 r] eqn:E. specialize (IH s1).
  destruct (perform cs s1) as [l s']. cbn in *. by econstructor.
Qed.

Definition requested_calls : list repo_call :=
  [CRegister ex_decision ex_action [];
   CAdvance ex_id 0 PLANNED "" (t0 + seconds 1) [];
   CAdvance ex_id 1 CONFIRMATION_REQUIRED "" (t0 + seconds 2) []].
Definition ex_repo1 := Eval vm_compute in snd (perform requested_calls ex_repo0).

(** The owner confirms through the confirmation service over the repository. *)
Definition ex_binding := Eval vm_compute in
  the (snd (request_confirmation 256 ex_decision OWNER_SUBJECT (t0 + seconds 3) ex_repo1)).
Definition ex_confirmed := Eval vm_compute in
  the (check_ConfirmationBinding (cb_with_state CONF_CONFIRMED (Some OWNER_SUBJECT) ex_binding)).
Definition ex_transition : LifecycleTransition :=
  {| lt_action_id := ex_id; lt_expected_version := 2; lt_next_state := CONFIRMED;
     lt_approver_subject := OWNER_SUBJECT; lt_now := t0 + seconds 4 |}.
Definition ex_snapshot := Eval vm_compute in
  the (new_PlanSnapshot
    {| sn_snapshot_id := "snap-1"; sn_target_id := "alpha"; sn_environment := "staging";
       sn_revision := 1; sn_canonical_digest := pp_digest ex_current;
       sn_payload_canonical := dumps (pp_payload ex_current); sn_action_id := Some ex_id;
       sn_captured_at := t0 + seconds 5; sn_plan_id := Some (lc_plan_id ex_action);
       sn_snapshot_version := SNAPSHOT_VERSION_DEFAULT; sn_integrity_digest := "" |}).
Definition confirmed_calls : list repo_call :=
  [CPutConfirmation ex_binding; CRecordConfirmation ex_confirmed ex_transition [];
   CCapture ex_snapshot ex_id 3 (t0 + seconds 5) []].
Definition ex_repo2 := Eval vm_compute in snd (perform confirmed_calls ex_repo1).
Definition lease_id : string := "lease-1".
Definition leased_calls : list repo_call :=
  [CAcquire ex_id 4 (t0 + seconds 6) [] lease_id "event-1"].
Definition ex_repo3 := Eval vm_compute in snd (perform leased_calls ex_repo2).
Definition running_calls : list repo_call :=
  [CBegin ex_id 5 (cb_confirmation_id ex_binding) (t0 + seconds 7) []].
Definition ex_repo4 := Eval vm_compute in snd (perform running_calls ex_repo3).
Definition executed_calls : list repo_call :=
  [CExecute ex_id 6 1 ex_fields (t0 + seconds 8) []].
Definition ex_repo5 := Eval vm_compute in snd (perform executed_calls ex_repo4).
Definition scenario_calls : list repo_call :=
  (requested_calls ++ confirmed_calls ++ leased_calls ++ running_calls ++ executed_calls)%list.

Example scenario_states :
  List.map (λ s, lc_state <$> get_action ex_id s) [ex_repo1; ex_repo2; ex_repo3; ex_repo4; ex_repo5] =
  [Some CONFIRMATION_REQUIRED; Some SNAPSHOT_CAPTURED; Some LEASED; Some RUNNING;
   Some EXECUTED_PENDING_VERIFICATION].
Proof. vm_compute. reflexivity. Qed.

(** ** Independent verification and the end of the run *)

Definition ex_updated := Eval vm_compute in the (pp_update ex_current 1 ex_fields (t0 + seconds 8)).
Definition ex_expected := Eval vm_compute in
  the (expected_from_plan ex_updated [("title", "New title"); ("objective", "Ship it")]).
Definition ex_observed := Eval vm_compute in the (observed_from_plan ex_updated (t0 + seconds 9)).
Definition ex_result := Eval vm_compute in the (verify ex_expected ex_observed ex_id "verification-1").
Definition verified_calls : list repo_call :=
  [CVerify ex_id 7 ex_result (t0 + seconds 10) []].
Definition ex_repo6 := Eval vm_compute in snd (perform verified_calls ex_repo5).

Example scenario_verified :
  lc_state <$> get_action ex_id ex_repo6 = Some VERIFIED_SUCCESS ∧
  outcome_for_action ex_id ex_repo6 = Some "verification_succeeded" ∧
  option_map (λ ps : plan_store, pp_title <$> ps !! "alpha") (rp_plans ex_repo6) = Some (Some "New title") ∧
  cb_state <$> get_confirmation (cb_confirmation_id ex_binding) ex_repo6 = Some CONSUMED ∧
  option_map verify_chain (rp_audit ex_repo6) =
    Some (Ok {| cv_ok := true; cv_events_checked := 1; cv_error_sequence := None |}).
Proof. vm_compute. by split_and!. Qed.

(** Replaying the accepted calls is refused. *)
Example scenario_replay_refused :
  List.map snd (fst (perform (confirmed_calls ++ leased_calls ++ running_calls ++ executed_calls
                              ++ verified_calls)%list ex_repo6)) =
  [Ok (); Raise state_conflict; Raise state_conflict; Raise state_conflict; Raise state_conflict;
   Raise state_conflict; Raise state_conflict].
Proof. vm_compute. reflexivity. Qed.

(** ** Runs of the lifecycle machine *)

Fixpoint replay (a : ActionLifecycle) (steps : list (LifecycleState * datetime * option string))
  : result ActionLifecycle :=
  match steps with
  | [] => Ok a
  | (target, now, actor) :: steps' => let* a' := advance a target (Some now) actor in replay a' steps'
  end.

Lemma replay_run a0 l a steps a' :
  run a0 l a → replay a steps = Ok a' → run a0 (l ++ List.map (λ x, fst (fst x)) steps)%list a'.
Proof.
  revert l a. induction steps as [|[[target now] actor] steps IH]; intros l a Hr H; cbn in *.
  - injection H as <-. by rewrite List.app_nil_r.
  - destruct (advance a target (Some now) actor) as [a1|] eqn:E; [|done]. cbn in H.
    replace (l ++ target :: _)%list with ((l ++ [target]) ++ List.map (λ x, fst (fst x)) steps)%list
      by (by rewrite <-List.app_assoc).
    apply (IH _ a1); [by eapply run_step|done].
Qed.

Definition ex_steps : list (LifecycleState * datetime * option string) :=
  [(PLANNED, t0 + seconds 1, None); (CONFIRMATION_REQUIRED, t0 + seconds 2, None);
   (CONFIRMED, t0 + seconds 3, Some OWNER_SUBJECT); (SNAPSHOT_CAPTURED, t0 + seconds 4, None);
   (LEASED, t0 + seconds 5, None); (RUNNING, t0 + seconds 6, None)].
Definition ex_running := Eval vm_compute in the (replay ex_action ex_steps).

Lemma ex_run :
  run ex_action [REQUESTED; PLANNED; CONFIRMATION_REQUIRED; CONFIRMED; SNAPSHOT_CAPTURED; LEASED;
                 RUNNING] ex_running.
Proof.
  apply (replay_run ex_action [REQUESTED] ex_action ex_steps); [|by vm_compute].
  constructor; by vm_compute.
Qed.

(** ** Histories of the confirmation service *)

Fixpoint serve {S} `{ConfStore S} (max_bindings : Z) (cs : list conf_call) (s : S)
  : list (conf_call * result (option ConfirmationBinding)) * S :=
  match cs with
  | [] => ([], s)
  | c :: cs' =>
      let '(s1, r) := run_conf_call max_bindings c s in
      let '(l, s') := serve max_bindings cs' s1 in ((c, r) :: l, s')
  end.

Lemma serve_served {S} `{ConfStore S} m cs (s : S) :
  served m s (fst (serve m cs s)) (snd (serve m cs s)).
Proof.
  revert s. induction cs as [|c cs IH]; intros s; cbn; [constructor|].
  destruct (run_conf_call m c s) as [s1 r] eqn:E. specialize (IH s1).
  destruct (serve m cs s1) as [l s']. cbn in *. by econstructor.
Qed.

Definition conf_calls : list conf_call :=
  [CRequest ex_decision OWNER_SUBJECT (t0 + seconds 3);
   CConfirm ex_binding "someone-else" (t0 + seconds 4);
   CConfirm ex_binding OWNER_SUBJECT (t0 + seconds 4);
   CConsume ex_confirmed (t0 + seconds 5); CConsume ex_confirmed (t0 + seconds 6)].
Definition conf_served := Eval vm_compute in serve 256 conf_calls ([] : conf_dict).

Example conf_answers :
  List.map (λ cr, match snd cr with Ok _ => None | Raise e => Some e end) (fst conf_served) =
  [None; Some mismatch; None; None; Some mismatch].
Proof. vm_compute. reflexivity. Qed.
