(* ===== verification/Witnesses.v ===== *)
(** * Witnesses: the theorems at concrete inputs

    Every theorem with hypotheses is applied here at a concrete input, mostly
    a value of the run of [Scenario.v], its hypotheses being evaluated. *)

From S2P Require Import Prelude PyStr PyTime Sha256 Json PyDict Models Lifecycle ProjectPlan.
From S2P Require Import Identity Policy Confirmation AuditLedger AuditBuilders KillSwitch.
From S2P Require Import Verification ActionRepo ActionSpec Recovery Scenario.
From Stdlib Require Import Ascii String ZArith Lia.
From stdpp Require Import base strings gmap sorting list.

Local Open Scope string_scope.
Local Open Scope Z_scope.
Local Open Scope aipm_scope.

(** ** Models *)

Lemma new_ActionRequest_idempotent_witness :
  revalidate ex_request = Ok ex_request ∧
  req_metadata ex_request ≡ₚ [("title", "New title"); ("objective", "Ship it")] ∧
  in_order (req_metadata ex_request).
Proof.
  apply (new_ActionRequest_idempotent UPDATE_PROJECT_PLAN "alpha" "key-1" _ "staging").
  vm_compute. reflexivity.
Defined.

(** The draft of the planner, before its digest is filled in. *)
Definition ex_draft : ActionPlan :=
  {| plan_plan_id := plan_plan_id ex_plan; plan_request := plan_request ex_plan;
     plan_risk := plan_risk ex_plan; plan_evidence := plan_evidence ex_plan;
     plan_expected_effect := plan_expected_effect ex_plan;
     plan_expires_at := plan_expires_at ex_plan; plan_created_at := plan_created_at ex_plan;
     plan_evidence_source := plan_evidence_source ex_plan; plan_state := plan_state ex_plan;
     plan_digest := "" |}.

Lemma plan_digest_binds_witness :
  plan_unsigned ex_plan = plan_unsigned ex_draft ∨
  collision (plan_canonical ex_plan) (plan_canonical ex_draft).
Proof.
  apply (plan_digest_binds ex_plan ex_draft).
  - by vm_compute.
  - by vm_compute.
  - vm_compute. reflexivity.
Defined.

(** ** Lifecycle *)

Lemma lifecycle_runs_bounded_witness : (7 <= 12)%nat ∧ lc_version ex_running = 6.
Proof. apply (lifecycle_runs_bounded ex_action _ ex_running ex_run). Defined.

Lemma no_execution_without_confirmation_witness :
  rightly_confirmed ex_running ∧ same_binding ex_action ex_running.
Proof.
  apply (no_execution_without_confirmation ex_action _ ex_running ex_run).
  vm_compute. set_solver.
Defined.

Lemma lifecycle_progress_witness :
  ∃ a', advance ex_running RECONCILIATION_REQUIRED None None = Ok a' ∧
        run ex_action [REQUESTED; PLANNED; CONFIRMATION_REQUIRED; CONFIRMED; SNAPSHOT_CAPTURED;
                       LEASED; RUNNING; RECONCILIATION_REQUIRED] a'.
Proof.
  apply (lifecycle_progress ex_action _ ex_running RECONCILIATION_REQUIRED None None ex_run);
    [|done|done].
  vm_compute. split_and!; set_solver.
Defined.

Definition ex_failed : ActionLifecycle := lc_with EXECUTION_FAILED (Some OWNER_SUBJECT) 7 ex_running.

Lemma terminal_states_final_witness :
  ROLLBACK_REQUESTED ∈ allowed_transitions (lc_state ex_failed) ∧
  advance ex_failed ROLLBACK_REQUESTED None None = Raise LifecycleError.
Proof.
  split; [vm_compute; set_solver|].
  apply (terminal_states_final ex_failed ROLLBACK_REQUESTED None None). vm_compute. set_solver.
Defined.

Lemma expired_execution_frozen_witness :
  advance ex_running RECONCILIATION_REQUIRED (Some (t0 + minutes 6)) None = Raise LifecycleError.
Proof.
  apply (expired_execution_frozen ex_running RECONCILIATION_REQUIRED (t0 + minutes 6) None).
  - vm_compute. set_solver.
  - vm_compute. discriminate.
Defined.

(** ** Project plans *)

(** Two writers read revision 1; the second is refused, and writes revision 2. *)
Definition ex_plans1 := Eval vm_compute in fst (plans_update "alpha" 1 ex_fields (t0 + seconds 8) ex_plans).
Definition ex_plans2 := Eval vm_compute in fst (plans_update "alpha" 2 ex_fields (t0 + seconds 9) ex_plans1).

Lemma no_lost_update_witness : NoDup [("alpha", 1); ("alpha", 2)].
Proof.
  apply (no_lost_update ex_plans ex_plans2).
  apply (acc_ok _ "alpha" 1 ex_fields (t0 + seconds 8) ex_plans1
           (the (pp_update ex_current 1 ex_fields (t0 + seconds 8)))); [vm_compute; reflexivity|].
  apply (acc_refused _ "alpha" 1 ex_fields (t0 + seconds 9) ex_plans1 PlanConflict);
    [vm_compute; reflexivity|].
  eapply (acc_ok _ "alpha" 2 ex_fields (t0 + seconds 9)); [vm_compute; reflexivity|].
  apply acc_nil.
Defined.

Lemma plans_update_spec_witness :
  ex_plans1 = <["alpha" := ex_updated]> ex_plans ∧ pp_revision ex_updated = 2 ∧
  pp_title ex_updated = "New title" ∧ pp_canonical_digest ex_updated = pp_digest ex_updated.
Proof.
  assert (plans_update "alpha" 1 ex_fields (t0 + seconds 8) ex_plans = (ex_plans1, Ok ex_updated))
    as H by (vm_compute; reflexivity).
  destruct (plans_update_spec "alpha" 1 ex_fields (t0 + seconds 8) ex_plans ex_plans1 _ H)
    as (p & Hp & Hrev & _ & Hr & Ht & _ & _ & _ & _ & _ & _ & Hd & Hs).
  by split_and!.
Defined.

(** ** Identities and policy *)

Lemma derive_verifies_witness :
  verify_action_identity ex_identity = true ∧ id_target_revision ex_identity = 1 ∧
  id_plan_digest ex_identity = computed_digest ex_plan.
Proof.
  destruct (derive_verifies ex_request ex_plan ex_current "policy-v1" OWNER_SUBJECT ex_identity)
    as (Hv & Hd & _); [vm_compute; reflexivity|]. by split_and!.
Defined.

Lemma action_id_binds_witness :
  ex_identity = ex_identity ∨ collision (identity_text ex_identity) (identity_text ex_identity).
Proof. apply (action_id_binds ex_identity ex_identity); by vm_compute. Defined.

Lemma planned_request_derives_witness :
  ∃ plan i, build_evidence_neutral_plan ex_request t0 ["alpha"; "beta"] = Ok plan ∧
    plan_expires_at plan = t0 + PLAN_TTL ∧ plan_request plan = ex_request ∧
    derive_action_identity ex_request plan ex_current "policy-v1" OWNER_SUBJECT = Ok i.
Proof.
  apply (planned_request_derives ex_request t0 ["alpha"; "beta"] ex_current "policy-v1" OWNER_SUBJECT);
    by vm_compute.
Defined.

Lemma decision_contents_witness :
  ad_confirmation_required ex_decision = true ∧ ad_plan_revision ex_decision = Some 1 ∧
  ad_expires_at ex_decision <= plan_expires_at ex_plan.
Proof.
  pose proof (decision_contents ex_policy (Some ex_owner) ex_request ex_plan (Some ex_current)
    (Some t0) ex_decision ltac:(vm_compute; reflexivity)) as H.
  change (ad_allowed ex_decision) with true in H. cbv iota in H.
  destruct H as (i & pr & c & H). destruct_and! H. by split_and!.
Defined.

(** A request for production against a stored staging plan. *)
Definition ex_production := Eval vm_compute in
  the (new_ActionRequest UPDATE_PROJECT_PLAN "alpha" "key-2" [("title", "New title")] "production").
Definition ex_production_plan := Eval vm_compute in
  the (build_evidence_neutral_plan ex_production t0 ["alpha"]).
Definition ex_denied := Eval vm_compute in
  the (authorize (default_policy "policy-v1" [("alpha", "production")] OWNER_CONFIRMATION)
         (Some ex_owner) ex_production ex_production_plan (Some ex_current) (Some t0)).

Lemma production_never_authorized_witness :
  ad_code ex_denied = PLAN_ENVIRONMENT_MISMATCH ∧ ad_allowed ex_denied = false.
Proof.
  split; [reflexivity|].
  apply (production_never_authorized
    [CallCreate "alpha" STAGING "Old title" "Old objective" (t0 - hours 1) true] "alpha" ex_current
    (default_policy "policy-v1" [("alpha", "production")] OWNER_CONFIRMATION)
    (Some ex_owner) ex_production ex_production_plan (Some t0)).
  - vm_compute. reflexivity.
  - vm_compute. discriminate.
  - vm_compute. reflexivity.
Defined.

(** ** Confirmation *)

Lemma conf_served_eq : serve 256 conf_calls ([] : conf_dict) = conf_served.
Proof. vm_compute. reflexivity. Qed.
Lemma conf_served_run : served 256 ([] : conf_dict) (fst conf_served) (snd conf_served).
Proof. rewrite <-conf_served_eq. apply serve_served. Qed.
Lemma conf_empty_ok : conf_dict_ok [].
Proof. split; [constructor|]. intros id b [=]. Qed.
Lemma conf_empty_sound : store_sound (conf_dict_ok) 256 ([] : conf_dict).
Proof. split; [apply conf_empty_ok|by intros|by intros|done]. Qed.

Lemma confirmation_single_use_witness :
  consumptions (cb_confirmation_id ex_binding) (fst conf_served) = 1%nat ∧
  (consumptions (cb_confirmation_id ex_binding) (fst conf_served) <= 1)%nat.
Proof.
  split; [vm_compute; reflexivity|].
  apply (confirmation_single_use conf_dict_ok 256 [] (fst conf_served) (snd conf_served)).
  apply conf_served_run.
Defined.

Lemma confirmation_store_sound_witness : store_sound conf_dict_ok 256 (snd conf_served).
Proof.
  apply (confirmation_store_sound conf_dict_ok 256 [] (fst conf_served) (snd conf_served)).
  - apply conf_served_run.
  - apply conf_empty_sound.
Defined.

Definition conf_pending : conf_dict := [(cb_confirmation_id ex_binding, ex_binding)].

Lemma confirmation_steps_spec_witness :
  confirm ex_binding OWNER_SUBJECT (t0 + seconds 4) conf_pending =
  (cs_put ex_confirmed conf_pending, Ok ex_confirmed).
Proof.
  apply (confirmation_steps_spec conf_pending (cs_put ex_confirmed conf_pending) ex_binding
           ex_confirmed OWNER_SUBJECT (t0 + seconds 4)).
  - vm_compute. reflexivity.
  - vm_compute. reflexivity.
  - by vm_compute.
Defined.

(** Over the repository. *)
Lemma request_confirmation_binds_witness :
  ∃ i, ad_action_identity ex_decision = Some i ∧ cb_action_id ex_binding = id_action_id i ∧
    cb_state ex_binding = CONFIRMATION_REQUESTED.
Proof.
  destruct (request_confirmation_binds (S := repo) repo_conf_ok 256 ex_decision OWNER_SUBJECT
    (t0 + seconds 3) ex_repo1 (cs_put ex_binding ex_repo1) ex_binding)
    as (i & Hi & _ & _ & _ & Ha & _ & Hst & _).
  - split; [constructor|]. intros id b [=].
  - vm_compute. reflexivity.
  - by exists i.
Defined.

(** ** Audit *)

Definition ex_draft1 := Eval vm_compute in
  the (lease_acquired "event-1" "control-plane-system" t0 ex_id (Some "plan-1") "alpha" "staging"
         "lease-1" 1).
Definition ex_draft2 := Eval vm_compute in
  the (lease_acquired "event-2" "control-plane-system" (t0 + seconds 1) ex_id (Some "plan-1") "alpha"
         "staging" "lease-1" 2).
Definition ex_chain := Eval vm_compute in append_all [ex_draft1; ex_draft2] ex_ledger.
(** The same events behind another bound. *)
Definition ex_chain' : ledger := {| lg_max_events := 7; lg_events := lg_events ex_chain |}.

Lemma audit_history_binding_witness :
  lg_events ex_chain = lg_events ex_chain' ∨
  ∃ t1 t2, t1 ∈ hashed_texts (lg_events ex_chain) ∧ t2 ∈ hashed_texts (lg_events ex_chain') ∧
    collision t1 t2.
Proof.
  apply (audit_history_binding ex_chain ex_chain'
    {| cv_ok := true; cv_events_checked := 2; cv_error_sequence := None |}
    {| cv_ok := true; cv_events_checked := 2; cv_error_sequence := None |}).
  - rewrite <-Forall_forall. repeat constructor; by vm_compute.
  - vm_compute. reflexivity.
  - reflexivity.
  - vm_compute. reflexivity.
  - reflexivity.
  - reflexivity.
Defined.

Lemma audit_appends_verify_witness :
  verify_chain (append_all [ex_draft2; ex_draft1] (append_all [ex_draft1] ex_ledger)) =
    Ok {| cv_ok := true; cv_events_checked := 2; cv_error_sequence := None |}.
Proof.
  apply (audit_appends_verify 100 [ex_draft1] [ex_draft2; ex_draft1] ex_ledger).
  vm_compute. reflexivity.
Defined.

Lemma audit_ledger_clean_witness :
  has_secret_marker "lease-1" = false ∧ str_any is_control "lease-1" = false ∧ slen "lease-1" <= 256.
Proof.
  apply (audit_ledger_clean 100 [ex_draft1; ex_draft2] ex_ledger
           (List.hd {| ev_sequence := 0; ev_previous_hash := ""; ev_event_hash := "";
                       ev_draft := ex_draft1 |} (lg_events ex_chain))).
  - vm_compute. reflexivity.
  - repeat constructor; vm_compute; reflexivity.
  - replace (append_all [ex_draft1; ex_draft2] ex_ledger) with ex_chain by (vm_compute; reflexivity).
    apply list_elem_of_here.
  - do 4 apply list_elem_of_further. apply list_elem_of_here.
Defined.

(** ** Kill switches *)

Definition ex_switches := Eval vm_compute in fst (new_KillSwitchRegistry t0 fresh_store).
Definition switch_calls : list switch_call :=
  [SDisengage STAGING "maintenance over" None (Some OWNER_SUBJECT) "event-1" (t0 + seconds 1);
   SEngage PRODUCTION "stop" None None "event-2" (t0 + seconds 2);
   SEngage STAGING "leaked token" None None "event-3" (t0 + seconds 3)].
Definition ex_switched := Eval vm_compute in run_switch_calls true switch_calls ex_switches.

(** The last two calls are refused, so staging stays open. *)
Lemma kill_switch_fail_closed_witness :
  permits PRODUCTION (t0 + seconds 4) (fst ex_switched) = (fst ex_switched, Ok false) ∧
  permits STAGING (t0 + seconds 4) (fst ex_switched) = (fst ex_switched, Ok true).
Proof.
  destruct (kill_switch_fail_closed true t0 switch_calls ex_switches (fst ex_switched)
              (snd ex_switched) (t0 + seconds 4)) as (Hp & Hs & _).
  - vm_compute. reflexivity.
  - vm_compute. reflexivity.
  - split; [exact Hp|exact Hs].
Defined.

Definition ex_open := Eval vm_compute in fst (run_switch_calls true (take 1 switch_calls) ex_switches).
Definition ex_open_switch := Eval vm_compute in
  match record_for STAGING ex_open with Some k => k | None =>
    {| ks_environment := STAGING; ks_state := ENGAGED; ks_reason := ""; ks_created_at := 0;
       ks_updated_at := 0; ks_epoch := 1; ks_actor_subject := None |} end.

Lemma ex_open_ok : switches_ok ex_open.
Proof.
  split; [vm_compute; repeat constructor; set_solver|].
  intros []; eexists; vm_compute; by split_and!.
Qed.

Lemma kill_switch_engage_spec_witness :
  ∃ s' k', engage false STAGING "stop" None None "event-9" (t0 + seconds 5) ex_open = (s', Ok k') ∧
    permits_operations k' = false.
Proof.
  destruct (engage false STAGING "stop" None None "event-9" (t0 + seconds 5) ex_open)
    as [s' r] eqn:E.
  destruct (kill_switch_engage_spec false ex_open ex_open_switch "stop" None None "event-9"
              (t0 + seconds 5) s' r ex_open_ok ltac:(vm_compute; reflexivity) E) as [H _].
  destruct H as (-> & _ & Hp); [by vm_compute|]. by eexists _, _.
Defined.

Lemma engage_refused_for_secret_reason_witness :
  engage true STAGING "leaked token" None None "event-3" (t0 + seconds 3) ex_open =
  (ex_open, Raise AuditEventError).
Proof.
  apply (engage_refused_for_secret_reason ex_open ex_open_switch); [apply ex_open_ok|..]; by vm_compute.
Defined.

(** ** Verification and snapshots *)

Lemma verified_plan_is_expected_witness :
  vr_success ex_result = true ∧
  (pp_with_digest EmptyString ex_updated = pp_with_digest EmptyString ex_updated ∨
   collision (dumps (pp_payload ex_updated)) (dumps (pp_payload ex_updated))).
Proof.
  split; [reflexivity|].
  apply (verified_plan_is_expected ex_updated ex_updated
    [("title", "New title"); ("objective", "Ship it")] (t0 + seconds 9) ex_expected ex_observed
    ex_id "verification-1" ex_result); by vm_compute.
Defined.

(** Against the plan as it was before the mutation. *)
Definition ex_stale := Eval vm_compute in the (observed_from_plan ex_current (t0 + seconds 9)).

Lemma verify_spec_witness :
  ∃ r, verify ex_expected ex_stale ex_id "verification-2" = Ok r ∧ vr_action_id r = ex_id ∧
    vr_reason_code r = REVISION_MISMATCH.
Proof.
  destruct (verify_spec ex_expected ex_stale ex_id "verification-2") as (r & Hr & Ha & _ & Hc & _).
  - by vm_compute.
  - by vm_compute.
  - intros d [= <-]. by vm_compute.
  - by vm_compute.
  - exists r. split_and!; [exact Hr|exact Ha|]. rewrite Hc. vm_compute. reflexivity.
Defined.

Lemma snapshot_integrity_witness :
  ex_snapshot = ex_snapshot ∨
  collision (dumps (snapshot_payload ex_snapshot)) (dumps (snapshot_payload ex_snapshot)).
Proof.
  apply (snapshot_integrity (sn_with_digest "" ex_snapshot) ex_snapshot ex_snapshot ex_snapshot);
    by vm_compute.
Defined.

(** ** The repository *)

Definition ex_history := Eval vm_compute in fst (perform scenario_calls ex_repo0).

Lemma ex_history_run : history ex_repo0 ex_history ex_repo5.
Proof.
  assert (perform scenario_calls ex_repo0 = (ex_history, ex_repo5)) as H by (vm_compute; reflexivity).
  pose proof (perform_history scenario_calls ex_repo0) as Hh. by rewrite H in Hh.
Qed.
Lemma ex_repo0_new : new_InMemoryActionRepository 16 (Some ex_ledger) (Some ex_plans) = Ok ex_repo0.
Proof. vm_compute. reflexivity. Qed.
Lemma ex_repo_ok l s : history ex_repo0 l s → repo_ok s.
Proof. intros H. by apply (history_evolves _ _ _ H), (new_repo_ok _ _ _ _ ex_repo0_new). Qed.

Lemma phases_at_most_once_witness :
  NoDup [(ex_id, CONFIRMED); (ex_id, SNAPSHOT_CAPTURED); (ex_id, LEASED); (ex_id, RUNNING)].
Proof.
  exact (phases_at_most_once 16 (Some ex_ledger) (Some ex_plans) ex_repo0 ex_history ex_repo5
           ex_repo0_new ex_history_run).
Defined.

Lemma action_versions_used_once_witness :
  NoDup [(ex_id, 0); (ex_id, 1); (ex_id, 2); (ex_id, 3); (ex_id, 4); (ex_id, 5); (ex_id, 6)].
Proof.
  exact (action_versions_used_once 16 (Some ex_ledger) (Some ex_plans) ex_repo0 ex_history ex_repo5
           ex_repo0_new ex_history_run).
Defined.

Lemma repository_refines_lifecycle_witness : repo_ok ex_repo5 ∧ evolves ex_repo0 ex_repo5.
Proof.
  apply (repository_refines_lifecycle 16 (Some ex_ledger) (Some ex_plans) ex_repo0 [] ex_repo0
           ex_history ex_repo5 ex_repo0_new).
  - constructor.
  - apply ex_history_run.
Defined.

Definition ex_registered := Eval vm_compute in fst (register_action ex_decision ex_action [] ex_repo0).
(** Another action under the same key. *)
Definition ex_rival : ActionLifecycle :=
  {| lc_action_id := "another-action"; lc_plan_id := lc_plan_id ex_action;
     lc_plan_digest := lc_plan_digest ex_action; lc_operation := UPDATE_PROJECT_PLAN;
     lc_scope := lc_scope ex_action; lc_state := REQUESTED; lc_requester_subject := OWNER_SUBJECT;
     lc_action_protocol := "legacy-v1"; lc_confirmation_kind := OWNER_CONFIRMATION;
     lc_approver_subject := None; lc_idempotency_key := "key-1"; lc_created_at := t0;
     lc_expires_at := t0 + minutes 5; lc_version := 0; lc_decision_id := ""; lc_plan_revision := 1;
     lc_rollback_of_action_id := None; lc_snapshot_id := None |}.

Lemma idempotency_key_binds_witness :
  ∃ e, register_action ex_decision ex_rival [] ex_registered = (ex_registered, Raise e).
Proof.
  destruct (idempotency_key_binds ex_repo0 ex_decision ex_action [] ex_registered [] ex_registered
              ex_decision ex_rival []) as (_ & H & _).
  - apply (ex_repo_ok []). constructor.
  - vm_compute. reflexivity.
  - constructor.
  - reflexivity.
  - apply H. vm_compute. discriminate.
Defined.

Definition ex_in_progress := Eval vm_compute in
  match get_action ex_id ex_repo4 with Some a => a | None => ex_action end.

(** The running action meets its plan mutation one minute too late. *)
Lemma execute_plan_mutation_spec_witness :
  execute_plan_mutation ex_id 6 1 ex_fields (t0 + minutes 6) [] ex_repo4 =
  (set_plans (Some (<["alpha" := the (pp_update ex_current 1 ex_fields (t0 + minutes 6))]> ex_plans))
     ex_repo4, Raise LifecycleError).
Proof.
  destruct (execute_plan_mutation_spec ex_id 6 1 ex_fields (t0 + minutes 6) ex_repo4 ex_in_progress
              ex_plans) as [_ H].
  - vm_compute. reflexivity.
  - vm_compute. reflexivity.
  - reflexivity.
  - assert (match option_map (λ p, pp_update p 1 ex_fields (t0 + minutes 6))
                    (ex_plans !! sc_target_id (lc_scope ex_in_progress)) with
            | Some (Ok p') => p' = the (pp_update ex_current 1 ex_fields (t0 + minutes 6))
            | _ => False
            end) as Hp by (vm_compute; reflexivity).
    specialize (H eq_refl eq_refl). revert H Hp.
    destruct (option_map _ _) as [[p'|e]|]; [|done|done].
    intros [_ H] ->. apply H. by vm_compute.
Defined.

(** The same repository without a ledger. *)
Definition ex_unknown := Eval vm_compute in
  set_audit None (set_outcome ex_id "unknown_outcome" ex_repo4).

Lemma unknown_outcome_reset_witness :
  ∃ s1 s2, mark_outcome ex_id 6 "mutation_started" [] ex_unknown = (s1, Ok ex_in_progress) ∧
    mark_outcome ex_id 6 "mutation_not_started" [] s1 = (s2, Ok ex_in_progress) ∧
    outcome_for_action ex_id s2 = Some "mutation_not_started".
Proof.
  destruct (unknown_outcome_reset ex_unknown ex_id ex_in_progress) as (_ & s1 & s2 & H1 & H2 & H3 & _).
  - vm_compute. reflexivity.
  - reflexivity.
  - vm_compute. reflexivity.
  - exists s1, s2. split_and!; [exact H1|exact H2|exact H3].
Defined.

Lemma ex_repo2_ok : repo_ok ex_repo2.
Proof.
  assert (perform (requested_calls ++ confirmed_calls)%list ex_repo0 =
    (fst (perform (requested_calls ++ confirmed_calls)%list ex_repo0), ex_repo2)) as H
    by (vm_compute; reflexivity).
  eapply ex_repo_ok. pose proof (perform_history (requested_calls ++ confirmed_calls)%list ex_repo0) as Hh.
  rewrite H in Hh. exact Hh.
Qed.

Definition ex_lease := Eval vm_compute in
  match dget ex_id (rp_leases ex_repo3) with
  | Some l => l
  | None => {| ls_lease_id := ""; ls_action_id := ""; ls_environment := ""; ls_fencing_token := 1;
               ls_state := ""; ls_granted_at := 0; ls_expires_at := 0; ls_released_at := None;
               ls_holder := None; ls_action_version := None |}
  end.
Definition ex_leased := Eval vm_compute in
  match get_action ex_id ex_repo3 with Some a => a | None => ex_action end.

Lemma ex_acquired :
  acquire_lease ex_id 4 (t0 + seconds 6) [] lease_id "event-1" ex_repo2 =
  (ex_repo3, Ok (ex_lease, ex_leased)).
Proof. vm_compute. reflexivity. Qed.

Lemma lease_lifetime_witness :
  ls_fencing_token ex_lease = 1 ∧ active_lease ex_id (t0 + seconds 7) ex_repo3 = Some ex_lease ∧
  active_lease ex_id (t0 + seconds 6 + minutes 5) ex_repo3 = None.
Proof.
  destruct (lease_lifetime ex_id 4 (t0 + seconds 6) [] lease_id "event-1" ex_repo2 ex_repo3 ex_lease
              ex_leased ex_repo2_ok ex_acquired) as (Ht & _ & _ & Ha & _).
  split_and!; [exact Ht|exact (Ha _)|exact (Ha _)].
Defined.

(** ** Recovery *)

Lemma recover_spec_witness :
  ∃ o, recover ex_id (Some (t0 + minutes 6)) t0 ex_repo4 = (ex_repo4, Ok o) ∧
    ro_recovered o = false ∧ ro_entry_state o = RUNNING.
Proof.
  destruct (recover_spec ex_id (Some (t0 + minutes 6)) t0 ex_repo4 ex_in_progress) as [H _].
  - vm_compute. reflexivity.
  - vm_compute. reflexivity.
  - destruct H as (o & Ho & Hr & He); [vm_compute; reflexivity|].
    exists o. split_and!; [exact Ho|exact Hr|exact He].
Defined.

Lemma expired_lease_not_recovered_witness :
  recover ex_id (Some (t0 + seconds 6 + minutes 5)) t0 ex_repo3 = (ex_repo3, Raise LifecycleError).
Proof.
  apply (expired_lease_not_recovered ex_id 4 (t0 + seconds 6) [] lease_id "event-1" ex_repo2 ex_repo3
           ex_lease ex_leased (t0 + seconds 6 + minutes 5) t0 ex_repo2_ok ex_acquired); by vm_compute.
Defined.

Lemma sweep_safe_total_witness :
  ∃ s' res, reconcile_non_terminal_actions (t0 + minutes 7) 1000 ex_repo3 = (s', Ok res) ∧
    swept (t0 + minutes 7) ex_repo3 s' ∧ (List.map ro_action_id (sw_outcomes res) ++ sw_errors res)%list ≡ₚ [ex_id].
Proof.
  destruct (sweep_safe_total (t0 + minutes 7) 1000 ex_repo3) as (s' & res & H & Hs & Hp & _).
  - by vm_compute.
  - split; [apply (bool_decide_unpack _); vm_compute; exact I|..]; intros id a Ha;
      apply dget_In, list_elem_of_singleton in Ha; injection Ha as -> ->; vm_compute; reflexivity.
  - exists s', res. split; [exact H|]. split; [exact Hs|]. exact Hp.
Defined.
