(* ===== verification/ExecWitnesses.v ===== *)
(** * ExecWitnesses: the gate, the executor and a rollback at concrete inputs

    The leased action of [Scenario.v] is executed by the executor behind the
    final gate, with the kill switch of staging disengaged.  Another update
    fails its verification; a rollback is planned, authorized as an action of
    its own, confirmed, leased and executed.  The theorems of the capability,
    contract, gate, executor and rollback files are applied to these values. *)

From S2P Require Import Prelude PyStr PyText PyDict PyTime Sha256 Json JsonParse PyIso Models Lifecycle.
From S2P Require Import ProjectPlan Identity Policy Confirmation AuditLedger AuditBuilders KillSwitch Verification Rollback ActionRepo.
From S2P Require Import ActionSpec Recovery Capability Contract Gate Executor RollbackExec Scenario.
From Stdlib Require Import Ascii String ZArith Lia.
From stdpp Require Import base strings gmap sorting list.

Local Open Scope string_scope.
Local Open Scope Z_scope.
Local Open Scope aipm_scope.

(** ** The leased action and its contract *)

Definition ex_staging_open := Eval vm_compute in
  fst (change_to false DISENGAGED STAGING "maintenance over" None None "event-2" (t0 + seconds 1)
         (fst (new_KillSwitchRegistry t0 {| kst_records := []; kst_audit := None |}))).

Definition ex_contract_fields : ExecutionContract :=
  {| ec_contract_version := EXECUTION_CONTRACT_VERSION; ec_action_id := ex_id; ec_action_version := 5;
     ec_operation := EXEC_UPDATE_PROJECT_PLAN; ec_target_id := "alpha"; ec_environment := "staging";
     ec_plan_id := lc_plan_id ex_action; ec_expected_plan_revision := 1;
     ec_expected_plan_digest := pp_digest ex_current;
     ec_mutation_fields := [("title", "New title"); ("objective", "Ship it")];
     ec_snapshot_id := "snap-1"; ec_decision_id := ad_decision_id ex_decision;
     ec_confirmation_id := cb_confirmation_id ex_binding; ec_policy_version := "policy-v1";
     ec_verification_version := VERIFICATION_VERSION; ec_kill_switch_epoch := 2;
     ec_lease_id := lease_id; ec_fencing_token := 1; ec_expires_at := lc_expires_at ex_action;
     ec_capability_version := "1"; ec_service_evidence := None |}.
Definition ex_contract := Eval vm_compute in the (new_ExecutionContract ex_contract_fields).

Definition ex_executor : executor :=
  {| xr_kill_switches := Some ex_staging_open; xr_snapshots := Some (λ s id, snapshot_for_action id s);
     xr_receipt_query := Some (λ _ _, Raise ReceiptError); xr_verifier := None |}.
Definition ex_draws : draws :=
  {| dr_started := "event-10"; dr_succeeded := "event-11"; dr_verification_started := "event-12";
     dr_verification := "verification-9"; dr_verification_finished := "event-13" |}.
Definition ex_clock (i : nat) : datetime := t0 + seconds 20.

Definition ex_execution := Eval vm_compute in
  execute ex_executor ex_draws ex_clock ex_contract (Some (t0 + seconds 7)) ex_repo3.
Definition ex_exec_result := Eval vm_compute in the (snd ex_execution).

Lemma ex_executes :
  execute ex_executor ex_draws ex_clock ex_contract (Some (t0 + seconds 7)) ex_repo3 =
  (fst ex_execution, Ok ex_exec_result).
Proof. vm_compute. reflexivity. Qed.

Lemma ex_repo3_ok : repo_ok ex_repo3.
Proof.
  pose proof (perform_history (requested_calls ++ confirmed_calls ++ leased_calls)%list ex_repo0) as Hh.
  assert (snd (perform (requested_calls ++ confirmed_calls ++ leased_calls)%list ex_repo0) = ex_repo3) as H
    by (vm_compute; reflexivity).
  rewrite H in Hh. refine (proj1 (history_safe _ _ _ Hh _)).
  by apply (new_repo_ok 16 (Some ex_ledger) (Some ex_plans)).
Qed.

Lemma ex_plans_ok : map_Forall plan_ok ex_plans.
Proof. apply map_Forall_singleton. by vm_compute. Qed.

Definition ex_contract_now : datetime := t0 + seconds 7.

Lemma ex_contract_new : new_ExecutionContract ex_contract_fields = Ok ex_contract.
Proof. vm_compute. reflexivity. Qed.

(** ** The theorems *)

Lemma capability_fail_closed_witness :
  is_ok (require_executable_value default_registry "restart_service" "staging" None) = false ∧
  is_ok (require_executable_value default_registry "apply_project_plan" "staging" (Some "1")) = true.
Proof.
  destruct (capability_fail_closed (List.map (λ d, (cd_capability_id d, d)) default_capabilities)
    default_registry "apply_project_plan" "staging" (Some "1")
    (the (require_executable_value default_registry "apply_project_plan" "staging" (Some "1"))))
    as [_ H]; [vm_compute; reflexivity| |].
  - intros c d Hd. apply list_elem_of_fmap in Hd as (d' & [= _ ->] & Hd').
    exists d'. revert d' Hd'. apply Forall_forall.
    repeat (constructor; [vm_compute; reflexivity|]). constructor.
  - split; [vm_compute; reflexivity|].
    apply H. split; [left|split; [reflexivity|right; reflexivity]].
Defined.

(** The same mutation with its fields given in another order. *)
Definition ex_contract_swapped : ExecutionContract :=
  ec_with_fields [("objective", "Ship it"); ("title", "New title")] ex_contract_fields.

Lemma contract_digest_binds_witness :
  ex_contract = the (new_ExecutionContract ex_contract_swapped) ∨
  collision (contract_canonical ex_contract)
    (contract_canonical (the (new_ExecutionContract ex_contract_swapped))).
Proof.
  apply (contract_digest_binds ex_contract_fields ex_contract_swapped);
    first [vm_compute; reflexivity | by vm_compute].
Defined.

Definition ex_world : gate_world := gate_view ex_executor ex_repo3.
Definition ex_gate_call : gate_call := gate_call_at ex_clock ex_contract_now.

Definition ex_gate_decision := Eval vm_compute in the (evaluate ex_world ex_contract ex_gate_call).
Lemma ex_evaluated : evaluate ex_world ex_contract ex_gate_call = Ok ex_gate_decision.
Proof. vm_compute. reflexivity. Qed.

Lemma gate_allows_iff_witness : ∃ a, gate_open ex_world ex_contract ex_gate_call a.
Proof.
  destruct (gate_allows_iff ex_world ex_contract_fields ex_contract ex_gate_call ex_contract_new)
    as (d & Hd & _ & H).
  - intros verify ev e Hv. discriminate Hv.
  - apply H. rewrite ex_evaluated in Hd. injection Hd as <-. reflexivity.
Defined.

Lemma execute_sound_witness :
  (∃ a', get_action ex_id (fst ex_execution) = Some a' ∧ lc_state a' = VERIFIED_SUCCESS) ∧
  outcome_for_action ex_id (fst ex_execution) = Some "verification_succeeded".
Proof.
  destruct (execute_sound ex_executor ex_draws ex_clock ex_contract_fields ex_contract
    (Some ex_contract_now) ex_repo3 (fst ex_execution) ex_exec_result ex_repo3_ok ex_contract_new)
    as (_ & a & Ha & _ & [[H _]|(_ & _ & _ & _ & _ & H)]).
  - by eexists.
  - apply ex_plans_ok.
  - apply ex_executes.
  - vm_compute in Ha. injection Ha as <-. vm_compute in H. discriminate.
  - split; [|apply (xd_outcome _ _ _ _ _ H)].
    destruct (xd_action _ _ _ _ _ H) as (a' & ? & ? & _). by exists a'.
Defined.

Lemma ex_repo4_ok : repo_ok ex_repo4.
Proof.
  pose proof (perform_history running_calls ex_repo3) as Hh.
  assert (snd (perform running_calls ex_repo3) = ex_repo4) as H by (vm_compute; reflexivity).
  rewrite H in Hh. exact (proj1 (history_safe _ _ _ Hh ex_repo3_ok)).
Qed.

Definition ex_running_action := Eval vm_compute in
  match get_action ex_id ex_repo4 with Some a => a | None => ex_action end.

Lemma execute_never_resumes_witness :
  ∃ e, execute ex_executor ex_draws ex_clock ex_contract (Some ex_contract_now) ex_repo4 =
       (ex_repo4, Raise e).
Proof.
  apply (execute_never_resumes ex_executor ex_draws ex_clock ex_contract (Some ex_contract_now)
    ex_repo4 ex_running_action ex_repo4_ok); vm_compute; [reflexivity|discriminate|discriminate].
Defined.

(** The running action with an outcome nobody knows. *)
Definition ex_unknown := Eval vm_compute in
  set_outcome ex_id (value ExecutionOutcome.UNKNOWN_OUTCOME) ex_repo4.

Lemma reconcile_spec_witness :
  outcome_for_action ex_id ex_unknown = Some (value ExecutionOutcome.UNKNOWN_OUTCOME) ∧
  ∃ s' r, reconcile ex_executor ex_clock ex_contract (Some ex_contract_now) ex_unknown = (s', r) ∧
    rp_plans s' = rp_plans ex_unknown.
Proof.
  split; [vm_compute; reflexivity|].
  destruct (reconcile_spec ex_executor ex_clock ex_contract (Some ex_contract_now) ex_unknown
    ex_running_action ex_current) as (s' & r & H & Hp & _); [vm_compute; reflexivity..|].
  exists s', r. split; [exact H|exact Hp].
Defined.

(** ** The update fails its verification *)

Definition rb_failed_result := Eval vm_compute in
  the (verify (the (expected_from_plan ex_updated [("title", "Another title")])) ex_observed ex_id "verification-2").
Definition failed_calls : list repo_call := [CVerify ex_id 7 rb_failed_result (t0 + seconds 10) []].
Definition rb_repo1 := Eval vm_compute in snd (perform failed_calls ex_repo5).
Definition rb_original := Eval vm_compute in the (match get_action ex_id rb_repo1 with Some a => Ok a | None => Raise KeyError end).

(** Values that hold no floats are all the payload needs. *)
Definition ex_py : py_values :=
  {| py_float_int := λ _, Raise ValueError; py_float_true := λ _, true; py_str_other := λ _, "";
     py_dumps_floats := λ _, "" |}.
Definition rb_fields : list (string * string) := [("title", "New title"); ("objective", "Ship it")].
Definition rb_plan := Eval vm_compute in
  the (plan_rollback ex_py rb_original (Some ex_snapshot) ex_updated (Some rb_fields)).

(** ** The rollback action *)

Definition rb_request := Eval vm_compute in
  the (new_ActionRequest ROLLBACK_PROJECT_PLAN "alpha" ("rollback-" ++ str_take 64 ex_id)%string [] "staging").
Definition rb_planning := Eval vm_compute in
  the (build_evidence_neutral_plan rb_request (t0 + seconds 11) ["alpha"; "beta"]).
Definition rb_decision := Eval vm_compute in
  the (authorize ex_policy (Some ex_owner) rb_request rb_planning (Some ex_updated) (Some (t0 + seconds 11))).
Example rb_authorized : ad_allowed rb_decision = true.
Proof. vm_compute. reflexivity. Qed.

Definition rb_identity := Eval vm_compute in
  the (derive_action_identity rb_request rb_planning ex_updated "policy-v1" OWNER_SUBJECT).
Definition rb_action : ActionLifecycle :=
  {| lc_action_id := id_action_id rb_identity; lc_plan_id := id_plan_id rb_identity;
     lc_plan_digest := id_plan_digest rb_identity; lc_operation := ROLLBACK_PROJECT_PLAN;
     lc_scope := {| sc_target_id := "alpha"; sc_environment := "staging"; sc_policy_version := "policy-v1" |};
     lc_state := REQUESTED; lc_requester_subject := OWNER_SUBJECT; lc_action_protocol := "mc616d2-v1";
     lc_confirmation_kind := OWNER_CONFIRMATION; lc_approver_subject := None;
     lc_idempotency_key := req_idempotency_key rb_request; lc_created_at := t0 + seconds 11;
     lc_expires_at := ad_expires_at rb_decision; lc_version := 0; lc_decision_id := ad_decision_id rb_decision;
     lc_plan_revision := 2; lc_rollback_of_action_id := Some ex_id; lc_snapshot_id := Some (rb_snapshot_id rb_plan) |}.
Definition rb_id : string := lc_action_id rb_action.
Definition rb_requested_calls : list repo_call :=
  [CRegister rb_decision rb_action []; CRollback ex_id 8 [VERIFICATION_FAILED] ROLLBACK_REQUESTED (t0 + seconds 11) [];
   CAdvance rb_id 0 PLANNED "" (t0 + seconds 12) []; CAdvance rb_id 1 CONFIRMATION_REQUIRED "" (t0 + seconds 12) []].
Definition rb_repo2 := Eval vm_compute in snd (perform rb_requested_calls rb_repo1).

Definition rb_binding := Eval vm_compute in
  the (snd (request_confirmation 256 rb_decision OWNER_SUBJECT (t0 + seconds 13) rb_repo2)).
Definition rb_confirmed := Eval vm_compute in
  the (check_ConfirmationBinding (cb_with_state CONF_CONFIRMED (Some OWNER_SUBJECT) rb_binding)).
Definition rb_transition : LifecycleTransition :=
  {| lt_action_id := rb_id; lt_expected_version := 2; lt_next_state := CONFIRMED;
     lt_approver_subject := OWNER_SUBJECT; lt_now := t0 + seconds 14 |}.
Definition rb_snapshot := Eval vm_compute in
  the (new_PlanSnapshot
    {| sn_snapshot_id := "snap-2"; sn_target_id := "alpha"; sn_environment := "staging"; sn_revision := 2;
       sn_canonical_digest := pp_digest ex_updated; sn_payload_canonical := dumps (pp_payload ex_updated);
       sn_action_id := Some rb_id; sn_captured_at := t0 + seconds 15; sn_plan_id := Some (lc_plan_id rb_action);
       sn_snapshot_version := SNAPSHOT_VERSION_DEFAULT; sn_integrity_digest := "" |}).
Definition rb_confirmed_calls : list repo_call :=
  [CPutConfirmation rb_binding; CRecordConfirmation rb_confirmed rb_transition [];
   CCapture rb_snapshot rb_id 3 (t0 + seconds 15) []].
Definition rb_repo3 := Eval vm_compute in snd (perform rb_confirmed_calls rb_repo2).

Definition rb_draws : rollback_draws :=
  {| rd_execution := ex_draws; rd_lease_id := "lease-2"; rd_lease_event := "event-14"; rd_finished := "event-15" |}.
Definition rb_now : datetime := t0 + seconds 16.
Definition rb_execution := Eval vm_compute in
  execute_rollback ex_py ex_executor rb_draws ex_clock rb_id ex_id (Some rb_now) rb_repo3.
Definition rb_exec_result := Eval vm_compute in the (snd rb_execution).

Lemma rb_executes :
  execute_rollback ex_py ex_executor rb_draws ex_clock rb_id ex_id (Some rb_now) rb_repo3 =
  (fst rb_execution, Ok rb_exec_result).
Proof. vm_compute. reflexivity. Qed.

Example rb_states :
  lc_state <$> get_action ex_id rb_repo3 = Some ROLLBACK_REQUESTED ∧
  lc_state <$> get_action rb_id rb_repo3 = Some SNAPSHOT_CAPTURED ∧
  er_outcome rb_exec_result = ExecutionOutcome.ROLLBACK_SUCCEEDED ∧
  option_map (λ ps : plan_store, pp_title <$> ps !! "alpha") (rp_plans (fst rb_execution)) = Some (Some "Old title").
Proof. vm_compute. by split_and!. Qed.

Lemma rb_repo3_ok : repo_ok rb_repo3.
Proof.
  pose (cs := (requested_calls ++ confirmed_calls ++ leased_calls ++ running_calls ++ executed_calls ++
               failed_calls ++ rb_requested_calls ++ rb_confirmed_calls)%list).
  pose proof (perform_history cs ex_repo0) as Hh.
  assert (snd (perform cs ex_repo0) = rb_repo3) as H by (vm_compute; reflexivity).
  rewrite H in Hh. refine (proj1 (history_safe _ _ _ Hh _)). by apply (new_repo_ok 16 (Some ex_ledger) (Some ex_plans)).
Qed.

Lemma rollback_restores_witness :
  er_outcome rb_exec_result = ExecutionOutcome.ROLLBACK_SUCCEEDED ∧
  ∃ rb o sn, get_action rb_id rb_repo3 = Some rb ∧ get_action ex_id rb_repo3 = Some o ∧
    rolled_back rb_id ex_id sn rb_now rb_repo3 (fst rb_execution) rb o.
Proof.
  destruct (rollback_restores ex_py ex_executor rb_draws ex_clock rb_id ex_id (Some rb_now) rb_repo3
              (fst rb_execution) rb_exec_result) as [H (rb & rb1 & o & sn & c & s1 & Hrb & Ho & R)].
  - exact rb_repo3_ok.
  - reflexivity.
  - by eexists.
  - replace (shared_plans rb_repo3) with ({[ "alpha" := ex_updated ]} : plan_store) by (vm_compute; reflexivity).
    apply map_Forall_singleton. by vm_compute.
  - exact rb_executes.
  - split; [exact H|]. exists rb, o, sn. split; [exact Hrb|]. split; [exact Ho|]. apply R.
Defined.

(** An original action that is still VERIFICATION_FAILED passes the first check
    and fails the last one: the plan has been written back, the call raises. *)
Definition rb_repo_late := Eval vm_compute in
  snd (perform (rb_confirmed_calls) (snd (perform
    [CRegister rb_decision rb_action []; CAdvance rb_id 0 PLANNED "" (t0 + seconds 12) [];
     CAdvance rb_id 1 CONFIRMATION_REQUIRED "" (t0 + seconds 12) []] rb_repo1))).
Lemma rollback_applied_then_refused :
  lc_state <$> get_action ex_id rb_repo_late = Some VERIFICATION_FAILED ∧
  let '(s', r) := execute_rollback ex_py ex_executor rb_draws ex_clock rb_id ex_id (Some rb_now) rb_repo_late in
  r = Raise state_conflict ∧ lc_state <$> get_action ex_id s' = Some VERIFICATION_FAILED ∧
  lc_state <$> get_action rb_id s' = Some VERIFIED_SUCCESS ∧
  option_map (λ ps : plan_store, pp_title <$> ps !! "alpha") (rp_plans s') = Some (Some "Old title").
Proof. vm_compute. by split_and!. Qed.

Lemma rollback_plan_spec_witness :
  rb_safe rb_plan = true ∧ rb_restore_digest rb_plan = pp_digest ex_current ∧ rollback_allowed rb_original ex_snapshot ex_updated rb_fields.
Proof.
  destruct (rollback_plan_spec ex_py rb_original ex_snapshot ex_current ex_updated rb_fields rb_plan) as (Hs & _ & Hp).
  - by vm_compute.
  - by vm_compute.
  - by vm_compute.
  - reflexivity.
  - reflexivity.
  - by vm_compute.
  - assert (rb_safe rb_plan = true) as E by reflexivity. split; [exact E|]. split; [by apply (Hp E)|by apply Hs].
Defined.
