(* ===== verification/UpdateWitnesses.v ===== *)
(** * UpdateWitnesses: the compose and update components at concrete inputs

    A compose project with two services, its candidate lookups, update plans,
    their identities and an approval, at which the theorems of the compose and
    update files are applied. *)

From S2P Require Import Prelude PyStr PyText PyDict PyTime Sha256 Json Models.
From S2P Require Import ImageRef ComposeModel CandidateCache Scheduler.
From S2P Require Import UpdateModel UpdateIdentity ServicePlan UpdateApproval.
From Stdlib Require Import Ascii String ZArith Lia.
From stdpp Require Import base strings gmap list.

Local Open Scope string_scope.
Local Open Scope Z_scope.
Local Open Scope aipm_scope.

Definition hex64 (c : ascii) : string := string_of_list_ascii (repeat c 64).
Definition digest_a : string := "sha256:" ++ hex64 "a".
Definition digest_b : string := "sha256:" ++ hex64 "b".

(** ** Image references *)

Definition ex_raw : string := " ghcr.io/acme/web:1.2@" ++ digest_a.
Definition ref_or (r : result ImageReference) : ImageReference :=
  match r with
  | Ok r => r
  | Raise _ => {| ir_raw := ""; ir_registry := ""; ir_repository := ""; ir_tag := None;
                  ir_digest := None; ir_is_pinned_by_digest := false; ir_is_local_build := false |}
  end.
Definition ex_pinned : ImageReference := Eval vm_compute in ref_or (parse_image_reference ex_raw false).
Definition ex_redis : ImageReference := Eval vm_compute in ref_or (parse_image_reference "redis:7.2" false).

Lemma image_reference_roundtrip_witness :
  ir_tag ex_pinned = Some "1.2" ∧
  parse_image_reference (canonical ex_pinned) false =
    Ok {| ir_raw := canonical ex_pinned; ir_registry := "ghcr.io"; ir_repository := "acme/web";
          ir_tag := None; ir_digest := Some digest_a; ir_is_pinned_by_digest := true;
          ir_is_local_build := false |}.
Proof.
  split; [reflexivity|].
  refine (proj2 (image_reference_roundtrip ex_raw false ex_pinned _ _ _)).
  - vm_compute. reflexivity.
  - vm_compute. discriminate.
  - right. vm_compute. reflexivity.
Defined.

(** ** Budgets *)

Definition ex_ops : list (Z * Z) := replicate 60 (0, 600000).

Lemma network_budget_bounds_witness :
  let '(b, n) := network_run ex_ops (default_budget 0) in
  n = 18%nat ∧ Z.of_nat n ≤ DEFAULT_MAX_NETWORK_OPS ∧ tb_network_ops_performed b = Z.of_nat n ∧
  tb_aggregate_bytes_received b ≤ DEFAULT_MAX_AGGREGATE_BYTES + 600000.
Proof.
  assert (responses_bounded 600000 ex_ops) as H by (apply Forall_replicate; cbn; lia).
  pose proof (network_budget_bounds ex_ops 0 600000 H eq_refl) as Hb.
  destruct (network_run ex_ops (default_budget 0)) as [b n] eqn:E.
  vm_compute in E. injection E as <- <-. split; [reflexivity|exact Hb].
Defined.

(** ** Scheduling *)

Definition declare (name image : string) (r : ImageReference) (deps : list string) : DeclaredServiceConfig :=
  {| dc_service_name := name; dc_image := Some image; dc_image_ref := Some r; dc_is_build := false;
     dc_build_context := None; dc_build_dockerfile := None; dc_profiles := []; dc_depends_on := deps;
     dc_labels := []; dc_source_files := []; dc_parse_error := None |}.
Definition ex_declared : dict string DeclaredServiceConfig :=
  [("cache", declare "cache" "redis:7.2" ex_redis []);
   ("queue", declare "queue" "redis:7.2" ex_redis ["cache"])].
Definition ex_containers : dict string (list unit) := [("cache", [()]); ("queue", [()])].
Definition ex_metadata : dict string RuntimeMetadata :=
  [("cache", {| rm_running_img := Some "redis:7.2"; rm_running_repo_digests := ["redis@" ++ digest_a] |});
   ("queue", {| rm_running_img := Some "redis:7.2"; rm_running_repo_digests := ["redis@" ++ digest_b] |})].
(** A registry that publishes the digest [digest_b]. *)
Definition ex_query (r : ImageReference) (b : TwoLevelBudget)
  : TwoLevelBudget * (RegistryCandidateResult + string) :=
  (fst (record_network_op 1000 b),
   inl {| rc_status := ST_UNKNOWN; rc_reason := RS_CANDIDATE_DIGEST_DIFFERS;
          rc_index_digest := Some digest_b; rc_child_digest := None; rc_detail := None |}).
Definition ex_schedule0 : schedule_state :=
  {| ss_cache := new_CandidateCache 8 900000000 60000000; ss_budget := default_budget 0; ss_readings := 0 |}.
Definition ex_schedule (names : list string) :=
  schedule_and_resolve "arm64" "linux" ex_declared ex_containers [] ex_metadata true
    (λ n, Z.of_nat n) (Some ex_query) names ex_schedule0.
Definition ex_scheduled := Eval vm_compute in fst (ex_schedule ["cache"; "queue"]).
Definition ex_resolutions := Eval vm_compute in
  match snd (ex_schedule ["cache"; "queue"]) with Ok rs => rs | Raise _ => [] end.

Lemma ex_query_keeps : query_keeps_logical (Some ex_query).
Proof. intros q r b [= <-]. unfold ex_query, record_network_op. cbn. repeat case_match; done. Qed.
Lemma ex_query_honest : query_honest (Some ex_query).
Proof. intros q r b res [= <-] E. apply (f_equal (λ x, match x with inl y => y | inr _ => res end)) in E as <-. by left. Qed.

(** One query answers both services; one of them is outdated. *)
Lemma schedule_resolves_witness :
  tb_logical_lookups_performed (ss_budget ex_scheduled) = 1 ∧
  (∀ name, is_Some (dget name ex_resolutions) ↔ name ∈ ["cache"; "queue"]) ∧
  0 ≤ tb_logical_lookups_performed (ss_budget ex_scheduled) ≤ 25.
Proof.
  pose proof (schedule_resolves "arm64" "linux" ex_declared ex_containers [] ex_metadata true
    (λ n, Z.of_nat n) (Some ex_query) ["cache"; "queue"] ex_schedule0) as (s' & rs & E & Hrs & Hb).
  assert (schedule_and_resolve "arm64" "linux" ex_declared ex_containers [] ex_metadata true
    (λ n, Z.of_nat n) (Some ex_query) ["cache"; "queue"] ex_schedule0 = (ex_scheduled, Ok ex_resolutions)) as E'
    by (vm_compute; reflexivity).
  rewrite E in E'. injection E' as -> ->. split; [reflexivity|]. split; [exact Hrs|].
  exact (Hb ex_query_keeps).
Defined.

Definition ex_cache_resolution := Eval vm_compute in
  default (resolution "" None None None ST_UNKNOWN RS_UP_TO_DATE "" "") (dget "cache" ex_resolutions).

Lemma candidate_status_evidence_witness :
  dget "cache" ex_resolutions = Some ex_cache_resolution ∧
  sr_candidate_status ex_cache_resolution = ST_UPDATE_AVAILABLE ∧
    ∃ ref d, comparable ex_declared ex_containers "cache" ref ∧ ir_is_pinned_by_digest ref = false ∧
      sr_candidate_digest ex_cache_resolution = Some d ∧
      ∀ rd, rd ∈ ["redis@" ++ digest_a] → names_digest rd (Some d) = false.
Proof.
  split; [reflexivity|]. split; [reflexivity|].
  pose proof (candidate_status_evidence "arm64" "linux" ex_declared ex_containers [] ex_metadata true
    (λ n, Z.of_nat n) (Some ex_query) ["cache"; "queue"] ex_schedule0 ex_scheduled ex_resolutions "cache"
    ex_cache_resolution ex_query_honest) as H.
  destruct H as [H _]; [by constructor|vm_compute; reflexivity|reflexivity|].
  destruct (H eq_refl) as (ref & d & Hc & Hp & _ & Hd & _ & Hall).
  exists ref, d. split_and!; [exact Hc|exact Hp|exact Hd|exact Hall].
Defined.

(** ** Service plans *)

Definition observe (name : string) (status : ServiceCandidateStatus) (running : string)
    (candidate : option string) (deps : list string) : ComposeServiceObservation :=
  {| co_service_name := name; co_container_names := [name]; co_container_ids := ["0"]; co_state := "running";
     co_health := Some "healthy"; co_declared_image := Some "redis:7.2"; co_declared_image_ref := Some ex_redis;
     co_running_image := Some "redis:7.2"; co_running_image_id := None; co_running_repo_digests := [running];
     co_candidate_digest := candidate; co_candidate_child_digest := None; co_candidate_status := status;
     co_candidate_reason := RS_UP_TO_DATE; co_candidate_detail := None; co_is_build := false;
     co_build_context := None; co_build_dockerfile := None; co_ports := []; co_freshness := "fresh";
     co_observed_at := None; co_provenance_verified := true; co_depends_on := deps;
     co_candidate_key := Some (from_image_ref ex_redis "arm64" "linux") |}.
(** A later observation differs in what the plan does not bind. *)
Definition ex_observation (total : Z) : ComposeProjectObservation :=
  {| cp_project_name := "shop"; cp_compose_identity := "shop-compose"; cp_project_path := "/srv/shop";
     cp_compose_files := ["compose.yml"];
     cp_services := [observe "cache" ST_CURRENT ("redis@" ++ digest_a) (Some digest_a) [];
                     observe "queue" ST_UPDATE_AVAILABLE ("redis@" ++ digest_b) (Some digest_a) ["cache"]];
     cp_running_services_count := 2; cp_total_services_count := total; cp_updates_available_count := 1;
     cp_current_count := 1; cp_drift_count := 0; cp_not_applicable_count := 0; cp_unknown_count := 0;
     cp_observed_at := None; cp_freshness := "fresh"; cp_error := None |}.

Definition ex_plan_result := Eval vm_compute in plan_service (ex_observation 2) "queue" None.
Lemma ex_plan_ok : is_ok ex_plan_result = true.
Proof. reflexivity. Qed.
(** The value of a call that returned. *)
Definition got {A} (r : result A) : is_ok r = true → A :=
  match r as r return is_ok r = true → A with
  | Ok p => λ _, p
  | Raise _ => λ H, False_rect _ (Bool.diff_false_true H)
  end.
(** The plan of the outdated service. *)
Definition ex_service_plan : ServiceUpdatePlan := got ex_plan_result eq_refl.
Lemma ex_planned : plan_service (ex_observation 2) "queue" None = Ok ex_service_plan.
Proof. vm_compute. reflexivity. Qed.

Lemma plan_service_eligible_witness :
  sp_eligible ex_service_plan = true ∧ deployable (ex_observation 2) "queue" ∧
  sp_atomicity ex_service_plan = LEAF_INDEPENDENT.
Proof.
  split; [reflexivity|]. split; [|reflexivity].
  exact (proj1 (proj1 (plan_service_eligible _ _ _ _ ex_planned)) eq_refl).
Defined.

Lemma from_service_plan_agrees_witness :
  ∃ i, sp_plan_identity ex_service_plan = Some i ∧ from_service_plan ex_service_plan = Ok i ∧
    identity_digest i = sp_plan_digest ex_service_plan.
Proof. apply (from_service_plan_agrees _ _ _ _ ex_planned). discriminate. Defined.

Lemma fresh_plan_deployable_witness :
  check_staleness ex_service_plan (ex_observation 3) = Ok None ∧
  (deployable (ex_observation 3) "queue" ∨ ∃ i j, collision (identity_json i) (identity_json j)).
Proof.
  assert (check_staleness ex_service_plan (ex_observation 3) = Ok None) as H by (vm_compute; reflexivity).
  split; [exact H|].
  destruct (fresh_plan_deployable _ (ex_observation 3) _ _ _ ex_planned eq_refl H) as [[Hd _]|Hc];
    [left; exact Hd|right; exact Hc].
Defined.

(** ** Plan identities *)

Definition ex_identity (total : Z) : result UpdatePlanIdentity :=
  let* p := plan_service (ex_observation total) "queue" None in from_service_plan p.
Definition ex_identity_2 := Eval vm_compute in got (ex_identity 2) eq_refl.
Definition ex_identity_3 := Eval vm_compute in got (ex_identity 3) eq_refl.

Lemma update_digest_binds_witness :
  identity_digest ex_identity_2 = identity_digest ex_identity_3 ∧
  (ex_identity_2 = ex_identity_3 ∨ collision (identity_json ex_identity_2) (identity_json ex_identity_3)).
Proof.
  assert (identity_digest ex_identity_2 = identity_digest ex_identity_3) as H by (vm_compute; reflexivity).
  split; [exact H|]. apply update_digest_binds. exact H.
Defined.

(** ** Approvals *)

Definition ex_operator : OperatorIdentity :=
  {| op_subject := "owner"; op_auth_epoch := 1; op_session_id := "session-1" |}.
Definition ex_approval_id : string := string_of_list_ascii (repeat "c"%char 32).
Definition ex_approval_calls : list approval_call :=
  [CallIssue ex_approval_id "alpha" "Alpha" (hex64 "d") ex_operator 0;
   CallConsume ex_approval_id "alpha" (hex64 "e") ex_operator (minutes 1);
   CallConsume ex_approval_id "alpha" (hex64 "d") ex_operator (minutes 2);
   CallConsume ex_approval_id "alpha" (hex64 "d") ex_operator (minutes 3)].
Definition ex_approvals : approval_map := {| am_records := ∅; am_max_approvals := MAX_APPROVALS |}.
Definition ex_history := Eval vm_compute in
  snd (approval_run APPROVAL_TTL ex_approval_calls ex_approvals []).

(** The wrong digest is refused, the right one is accepted once. *)
Lemma approval_single_use_witness :
  uses ex_approval_id ex_history = 1%nat ∧ ∀ id, (uses id ex_history ≤ 1)%nat.
Proof.
  split; [vm_compute; reflexivity|].
  pose proof (approval_single_use APPROVAL_TTL ex_approval_calls ex_approvals) as H.
  assert (snd (approval_run APPROVAL_TTL ex_approval_calls ex_approvals []) = ex_history) as E
    by (vm_compute; reflexivity).
  destruct (approval_run APPROVAL_TTL ex_approval_calls ex_approvals []) as [s' past].
  cbn in E. subst past. apply H; [intros id; reflexivity|].
  apply NoDup_singleton.
Defined.
