(* ===== verification/ServiceWitnesses.v ===== *)
(** * ServiceWitnesses: sessions, authentication and the executor's services at concrete inputs

    An owner who logs in after a wrong guess, a session that is looked up again,
    an exchange over the executor's socket, and a service update whose docker
    commands are recorded in a list. *)

From S2P Require Import Prelude PyStr PyText PyDict PyTime Json JsonParse Models Identity.
From S2P Require Import Session OwnerAuth Receipts Wire Ipc IpcServer UpdateModel ComposeAdapter.
From Stdlib Require Import Ascii String ZArith Lia.
From stdpp Require Import base strings gmap list.

Local Open Scope string_scope.
Local Open Scope Z_scope.
Local Open Scope aipm_scope.

Definition repeated (c : ascii) (n : nat) : string := string_of_list_ascii (repeat c n).

(** ** Sessions *)

Definition ex_login_principal : OwnerPrincipal :=
  {| pr_subject := OWNER_SUBJECT; pr_issuer := OWNER_ISSUER;
     pr_authentication_method := ARGON2ID_OWNER_PASSPHRASE; pr_verification := VERIFIED; pr_auth_epoch := 1;
     pr_authenticated_at := 0; pr_expires_at := hours 12; pr_roles := [OWNER_ROLE];
     pr_identity_version := PRINCIPAL_IDENTITY_VERSION |}.
Definition ex_store0 : session_store :=
  {| ss_sessions := ∅; ss_absolute_lifetime := hours 8; ss_inactivity_timeout := minutes 30; ss_auth_epoch := 1 |}.
Definition ex_session_calls : list session_call :=
  [CallCreate "s1" "c1" ex_login_principal (minutes 1); CallGet "s1" (minutes 20)].

Lemma session_lookup_sound_witness :
  ∃ x, snd (get_session "s1" (minutes 45) (fst (session_run ex_session_calls ex_store0 []))) = Ok (Some x) ∧
    ∃ created touched,
      alive_since "s1" (snd (session_run ex_session_calls ex_store0 [])) = Some (se_principal x, created) ∧
      last_touch "s1" (snd (session_run ex_session_calls ex_store0 [])) = Some touched ∧
      minutes 45 < created + hours 8 ∧ minutes 45 < touched + minutes 30.
Proof.
  assert (new_OwnerSessionStore (hours 8) (minutes 30) 1 = Ok ex_store0) as H0 by reflexivity.
  pose proof (session_lookup_sound _ _ _ _ ex_session_calls "s1" (minutes 45) H0) as H.
  destruct (session_run ex_session_calls ex_store0 []) as [s past] eqn:E.
  assert (∃ s' x, get_session "s1" (minutes 45) s = (s', Ok (Some x))) as (s' & x & Ex).
  { vm_compute in E. injection E as <- <-. eexists _, _. vm_compute. reflexivity. }
  exists x. cbn [fst snd]. rewrite Ex. split; [reflexivity|].
  destruct (H s' x Ex) as (created & touched & H1 & H2 & H3 & H4 & _). exists created, touched. auto.
Defined.

(** ** Authentication *)

Definition ex_verify (secret : string) : bool := str_eqb secret "correct horse".
Definition ex_attempts : list auth_call :=
  [Attempt "a" 0; Attempt "b" (seconds 2); Attempt "correct horse" (seconds 3);
   Attempt "c" (seconds 4); Attempt "d" (seconds 10)].

Lemma guessing_is_bounded_witness :
  ∃ s0, new_OwnerAuthenticator 2 60 (hours 12) 1 = Ok s0 ∧
    let '(s, guesses) := auth_run ex_verify 2 60 (hours 12) OWNER_SUBJECT OWNER_ISSUER ex_attempts s0 [] in
    guesses = [seconds 2; 0] ∧ au_failure_count s = 2 ∧ spaced 2 60 guesses.
Proof.
  eexists. split; [reflexivity|].
  pose proof (guessing_is_bounded ex_verify 2 60 (hours 12) 1 _ ex_attempts eq_refl) as H. cbv zeta in H.
  destruct (auth_run _ _ _ _ _ _ _ _ _) as [s guesses] eqn:E.
  assert (guesses = [seconds 2; 0]) as Hg by (vm_compute in E; injection E as _ <-; reflexivity).
  destruct H as (H1 & H2 & _). split; [exact Hg|]. split; [|exact H1]. rewrite H2, Hg. reflexivity.
Defined.

(** ** The executor's socket *)

Definition ex_ipc_request : ExecutionRequest string :=
  {| er_action_id := repeated "a" 64; er_capability_id := CAPABILITY_EXECUTE_SERVICE_UPDATE;
     er_target_id := "shop"; er_contract_digest := repeated "b" 64; er_lease_id := "lease-1";
     er_fencing_token := 3; er_action_protocol := "mc616d2-v1"; er_plan_digest := Some (repeated "c" 64);
     er_confirmation_id := Some (repeated "d" 32); er_service_scope := Some ["web"; "worker"];
     er_registration_id := None; er_registration_digest := None |}.
Definition or_empty (r : result string) : string := match r with Ok s => s | Raise _ => "" end.
Definition ex_frame : string := Eval vm_compute in or_empty (encode_frame (request_to_json ex_ipc_request)).

(** The frame in two pieces and something after it. *)
Definition pieces (s : string) : stream :=
  match s with
  | String a (String b r) => [Data a (String b ""); match r with String c r' => Data c r' | "" => Data "x" "" end]
  | _ => []
  end.
Definition ex_conn (bytes : stream) : conn unit :=
  {| c_uid := 1000; c_stream := bytes; c_sends := true; c_error_text := "Invalid action_id"; c_env := () |}.
(** A handler that counts its calls. *)
Definition ex_handler (_ : unit) (request : ExecutionRequest pyval) : M nat (ExecutionResponse string) :=
  do_ modifyM S;;
  retM {| rs_outcome := "succeeded"; rs_provider_code := "update_ok"; rs_action_id := er_action_id request;
          rs_evidence_reference := "" |}.

Lemma ipc_exchange_witness :
  acceptable ex_ipc_request = true ∧
  ∃ w' response g,
    serve_one (Some [1000]) ex_handler None (ex_conn (pieces ex_frame)) 0%nat =
      (w', Ok {| sv_reply := Executed response; sv_sent := Some g |}) ∧
    w' = 1%nat ∧ rs_outcome response = "succeeded" ∧
    client_send (Ok ()) (Ok ()) (pieces g) ex_ipc_request = Ok (response_received response).
Proof.
  split; [vm_compute; reflexivity|].
  destruct (ipc_exchange (Some [1000]) ex_handler None (ex_conn (pieces ex_frame)) 0%nat ex_ipc_request ex_frame "")
    as (w' & response & g & H1 & H2 & H3).
  - reflexivity.
  - repeat constructor.
  - reflexivity.
  - vm_compute. reflexivity.
  - vm_compute. reflexivity.
  - intros w' e H. discriminate H.
  - assert (admitted ex_ipc_request = true) as Ha by (vm_compute; reflexivity). rewrite Ha in H3.
    destruct H3 as [Hw Hr].
    assert (response = {| rs_outcome := "succeeded"; rs_provider_code := "update_ok";
                          rs_action_id := repeated "a" 64; rs_evidence_reference := "" |}) as Er
      by (rewrite Hr; vm_compute; reflexivity).
    exists w', response, g. split; [exact H1|]. split; [exact Hw|]. split; [rewrite Er; reflexivity|].
    assert (intact (pieces g) ∧ content (pieces g) = g) as [Hi Hg].
    { assert (∃ a b c r, g = String a (String b (String c r))) as (a & b & c & r & ->).
      { vm_compute in H1. injection H1 as _ _ <-. repeat eexists. }
      split; [repeat constructor|]. cbn. rewrite app_nil_str. reflexivity. }
    apply (H2 (pieces g) ""); [exact Hi|]. rewrite Hg, app_nil_str. reflexivity.
Defined.

Lemma accept_loop_ends_witness :
  serve_one None ex_handler None (ex_conn [Data "a" "b"]) 0%nat = (0%nat, Raise StructError) ∧
  is_ok (snd (serve_one None ex_handler None (ex_conn [Data "a" "bcdefgh"]) 0%nat)) = true.
Proof.
  split; [|vm_compute; reflexivity].
  apply (accept_loop_ends None ex_handler None (ex_conn [Data "a" "b"]) 0%nat).
  - repeat constructor.
  - reflexivity.
  - change (0 < 2 < 4)%nat. lia.
Defined.

(** ** A service update *)

Definition ex_project_entry : ComposeProjectEntry :=
  {| cp_path := Some "/srv/shop"; cp_compose_files := Some ["compose.yml"];
     cp_services := Some ["web"; "worker"; "db"]; cp_local_build_services := [] |}.
Definition ex_resolver (name : string) : M (list (list string)) (option ComposeProjectEntry) :=
  retM (if str_eqb name "shop" then Some ex_project_entry else None).
Definition ex_runner (cmd : list string) (_ : string) : M (list (list string)) CompletedProcess :=
  do_ modifyM (λ log, (log ++ [cmd])%list);;
  retM {| pr_returncode := 0; pr_stdout := ""; pr_stderr := "" |}.
Definition ex_inspector (_ _ : string) : M (list (list string)) (option ServiceObservation) :=
  retM (Some {| ob_state := Some "running"; ob_health := Some "healthy"; ob_running_digest := None |}).
Definition ex_intent : BoundedServiceUpdateIntent :=
  {| bi_project_name := "shop"; bi_service_scope := ["web"; "worker"]; bi_plan_digest := repeated "c" 64;
     bi_confirmation_id := repeated "d" 32; bi_action_id := repeated "a" 64; bi_fencing_token := 3;
     bi_contract_digest := repeated "b" 64; bi_lease_id := "lease-1"; bi_expected_target_digest := None;
     bi_expected_child_digest := None; bi_atomicity := "leaf_independent"; bi_now := None |}.
Definition ex_execute : M (list (list string)) ComposeExecutionResult :=
  adapter_execute (Some ex_resolver) ex_runner (Some ex_inspector) None (λ _ p, p) (λ _ _, true) (λ _ _, true)
    (λ _, "error") ex_intent.

Lemma verified_success_means_witness :
  ∃ r, snd (ex_execute []) = Ok r ∧ compose_is_success r = true ∧
    fst (ex_execute []) = scope_commands ["/srv/shop/compose.yml"] ["web"; "worker"] ∧
    vr_verified_services (ce_verification r) = ["web"; "worker"].
Proof.
  destruct (ex_execute []) as [w' [r|e]] eqn:E; [|vm_compute in E; discriminate E].
  assert (compose_is_success r = true) as Hs by (vm_compute in E; injection E as _ <-; reflexivity).
  exists r. split; [reflexivity|]. split; [exact Hs|].
  split; [vm_compute in E; injection E as <- _; reflexivity|].
  destruct (verified_success_means (Some ex_resolver) ex_runner (Some ex_inspector) None (λ _ p, p)
              (λ _ _, true) (λ _ _, true) (λ _, "error") ex_intent [] w' r E Hs)
    as (? & ? & ? & ? & ? & _ & _ & _ & _ & H & _).
  exact H.
Defined.
