(* ===== verification/RunWitnesses.v ===== *)
(** * RunWitnesses: an update and a restart on simulated hosts

    A host with a stash stack and a log of what was done to it, on which the git
    transaction, the planner and the engine run together: the engine plans with
    the planner and pulls with the transaction.  A host on which a unit is
    restarted and does not come up again. *)

From S2P Require Import Prelude PyStr PyText PyDict PyTime Models UpdateModel Receipts ExecutorService Restart.
From S2P Require Import Health UpdateIdentity ComposeAdapter GitTransaction UpdatePlanner UpdateEngine.
From Stdlib Require Import Ascii String ZArith Lia.
From stdpp Require Import base strings gmap list.

Local Open Scope string_scope.
Local Open Scope Z_scope.
Local Open Scope aipm_scope.

Record host := { h_stashes : list string; h_dirty : bool; h_done : list string }.
Definition h_log (what : string) : M host unit :=
  modifyM (λ h, {| h_stashes := h_stashes h; h_dirty := h_dirty h; h_done := (h_done h ++ [what])%list |}).

Definition h_repository : M host GitRepository :=
  do h <- getM;;
  retM {| gr_exists := true; gr_branch := Some "main"; gr_current_sha := Some "0a1b"; gr_remote_sha := Some "0a1b";
          gr_remote_url := Some "https://example.org/web.git"; gr_dirty := h_dirty h; gr_detached := false;
          gr_ahead := 0; gr_behind := 1; gr_modified_files := if h_dirty h then ["notes.txt"] else [];
          gr_untracked_files := []; gr_conflicted_files := []; gr_stashes := h_stashes h; gr_last_fetch := None;
          gr_last_commit_message := None; gr_last_commit_author := None |}.
Definition h_git : GitOps host :=
  {| go_repository := h_repository;
     go_stash := modifyM (λ h, {| h_stashes := if h_dirty h then "aipm-update" :: h_stashes h else h_stashes h;
                                  h_dirty := false; h_done := h_done h |});
     go_fetch := h_log "fetch"; go_pull := h_log "pull"; go_apply_stash := h_log "apply";
     go_conflicted_files := retM [];
     go_drop_stash := do h <- getM;;
                      match h_stashes h with
                      | [] => raiseM GitTransactionError
                      | _ :: rest => modifyM (λ h, {| h_stashes := rest; h_dirty := true; h_done := h_done h |})
                      end |}.
#[local] Instance h_git_laws : StashLaws h_git h_stashes.
Proof.
  split; intros w w' r.
  - intros [= <- <-]. split; [done|by left].
  - intros [= <- <-]. cbn. destruct (h_dirty w); [right; eauto|by left].
  - by intros [= <- <-].
  - by intros [= <- <-].
  - by intros [= <- <-].
  - by intros [= <- <-].
  - cbn. unfold bindM, getM. destruct (h_stashes w) as [|x rest] eqn:E.
    + by intros [= <- <-].
    + intros [= <- <-]. eauto.
Defined.

Definition no_text (e : exn) : string := "error".
Definition ex_host : host := {| h_stashes := ["mine"]; h_dirty := true; h_done := [] |}.

Lemma operator_stashes_kept_witness :
  ∃ w' r, run_transaction h_git no_text true true true ex_host = (w', Ok (Committed r)) ∧
    h_stashes w' = ["mine"] ∧ gt_stash_applied r = true ∧ h_done w' = ["fetch"; "pull"; "apply"].
Proof.
  pose proof (operator_stashes_kept h_git no_text h_stashes true true true ex_host) as H.
  destruct (run_transaction h_git no_text true true true ex_host) as [w' res] eqn:E.
  vm_compute in E. injection E as <- <-. destruct H as (_ & Ha & _ & _ & _ & Ht).
  assert (truthful h_git h_stashes) as Htrue by (by intros w w' g [= _ <-]).
  eexists _, _. split; [reflexivity|]. split; [exact (Ht Htrue)|]. by rewrite Ha.
Defined.

(** A provider whose first report failed, on a host with nothing to stash: the
    transaction applies and drops the entry of the operator, and commits. *)
Definition failing_git : GitOps host :=
  {| go_repository := do r <- h_repository;;
       do h <- getM;;
       do_ h_log "status";;
       retM (if bool_decide (h_done h = []) then
               {| gr_exists := false; gr_branch := None; gr_current_sha := None; gr_remote_sha := None;
                  gr_remote_url := None; gr_dirty := false; gr_detached := false; gr_ahead := 0; gr_behind := 0;
                  gr_modified_files := []; gr_untracked_files := []; gr_conflicted_files := []; gr_stashes := [];
                  gr_last_fetch := None; gr_last_commit_message := None; gr_last_commit_author := None |}
             else r);
     go_stash := go_stash h_git; go_fetch := go_fetch h_git; go_pull := go_pull h_git;
     go_apply_stash := go_apply_stash h_git; go_conflicted_files := go_conflicted_files h_git;
     go_drop_stash := go_drop_stash h_git |}.
Definition ex_clean_host : host := {| h_stashes := ["mine"]; h_dirty := false; h_done := [] |}.
Lemma degraded_report_drops_operator_stash :
  ∃ w' r, run_transaction failing_git no_text true true true ex_clean_host = (w', Ok (Committed r)) ∧
    gt_success r = true ∧ h_stashes w' = [] ∧ h_done w' = ["status"; "status"; "fetch"; "pull"; "apply"].
Proof. eexists _, _. vm_compute. by split_and!. Qed.

(** ** Planning and executing *)

Definition ex_project : Project :=
  {| pj_name := "web"; pj_path := "/srv/web";
     pj_capabilities := {| pc_has_compose := true; pc_has_git := true; pc_has_systemd := false; pc_systemd_units := [] |};
     pj_compose_files := ["/srv/web/compose.yml"]; pj_git := None; pj_systemd_units := [] |}.
Definition ex_health : HealthReport :=
  {| hr_project := "web"; hr_score := 100; hr_state := HS_HEALTHY; hr_critical := 0; hr_high := 0; hr_warning := 0;
     hr_info := 0; hr_findings := []; hr_recommendations := [] |}.
Definition h_planner : PlannerOps host :=
  {| po_get_project := λ _, retM ex_project;
     po_analyze := λ _, retM ex_health;
     po_prepare_update := λ _, do h <- getM;;
        retM {| gp_proceed := true; gp_stash_required := h_dirty h; gp_fetch_required := true; gp_pull_required := true;
                gp_review_required := false; gp_rollback_required := false; gp_reasons := [] |};
     po_repository := λ _, h_repository;
     po_is_file := λ f, retM (str_eqb f "/srv/web/compose.yml");
     po_read_compose := λ _, retM (Document ["web"; "db"]);
     po_validate_trust := λ _ _, retM (false, "no such unit", None);
     po_probe := λ _, None |}.
#[local] Instance h_planner_reads : PlannerReads h_planner.
Proof. by split. Defined.

Definition ex_plan_run := Eval vm_compute in plan_update h_planner "web" false ex_host.
Lemma plan_consistent_witness :
  ∃ up, plan_update h_planner "web" false ex_host = (ex_host, Ok up) ∧ up_proceed up = true ∧
    up_approval_required up = true ∧ up_risk up ≠ RISK_BLOCKED ∧ up_stash_required up = true ∧
    runtime_covered h_planner ex_project ex_host.
Proof.
  assert (∃ w' up, plan_update h_planner "web" false ex_host = (w', Ok up) ∧ up_proceed up = true ∧
    up_stash_required up = true) as (w' & up & E & Hup & Hst) by (eexists _, _; vm_compute; split_and!; reflexivity).
  pose proof (plan_consistent h_planner "web" false ex_host w' up E) as (p & Hp & -> & _ & _ & Hr & Ha & _ & _ & _ & Hrun).
  injection Hp as <-. exists up. split; [exact E|]. split; [exact Hup|].
  split; [by rewrite Ha, Hup|]. split; [intros Hb; apply Hr in Hb; congruence|].
  split; [exact Hst|]. apply (Hrun Hup).
Defined.

Definition h_engine : EngineOps host :=
  {| eo_now := retM 0; eo_plan := plan_update h_planner; eo_get_project := λ _, retM ex_project;
     eo_create_snapshot := λ _, do_ h_log "snapshot";; retM "/var/aipm/web.tar.gz";
     eo_git_transaction := λ _, run_transaction h_git no_text;
     eo_is_file := λ _, retM false;
     eo_runner := λ _ _, raiseM OSError;
     eo_compose_up := λ _, h_log "up";
     eo_analyze := λ _, retM ex_health;
     eo_write_audit := λ a, do_ h_log ("audit " ++ ua_outcome a);; retM "/var/aipm/audit.json";
     eo_restore := λ _ _, raiseM RestoreError;
     eo_python := "python3" |}.

Definition ex_update_plan : option UpdatePlan := match snd ex_plan_run with Ok up => Some up | Raise _ => None end.
Definition ex_digest : string := Eval vm_compute in
  match ex_update_plan with
  | Some up => match update_plan_digest up with Ok d => d | Raise _ => "" end
  | None => ""
  end.
Definition ex_contract : ExecutionContract :=
  {| ec_project_name := "web"; ec_plan_digest := ex_digest; ec_confirmation_id := "00112233445566778899aabbccddeeff" |}.

Definition ex_run := Eval vm_compute in
  execute_update h_engine no_text "web" false true None (Some ex_contract) ex_host.
Lemma ex_run_steps : h_done (fst ex_run) = ["snapshot"; "fetch"; "pull"; "apply"; "up"; "audit success"].
Proof. reflexivity. Qed.

Lemma update_success_means_witness :
  ∃ w' a, execute_update h_engine no_text "web" false true None (Some ex_contract) ex_host = (w', Ok a) ∧
    ua_outcome a = "success" ∧ up_proceed (ua_plan a) = true ∧
    update_plan_digest (ua_plan a) = Ok (ec_plan_digest ex_contract).
Proof.
  assert (∃ w' a, execute_update h_engine no_text "web" false true None (Some ex_contract) ex_host = (w', Ok a))
    as (w' & a & E) by (eexists _, _; vm_compute; reflexivity).
  pose proof (update_success_means h_engine no_text "web" true None (Some ex_contract) ex_host w' a E)
    as (_ & Ho & Hp & _ & _ & Hc & _).
  exists w', a. split; [exact E|]. split; [exact Ho|]. split; [exact Hp|]. apply (Hc ex_contract eq_refl).
Defined.

(** The same host seen up to the audit log. *)
Definition same_but_audits (h h' : host) : Prop :=
  h_stashes h' = h_stashes h ∧ h_dirty h' = h_dirty h ∧
  ∃ l, h_done h' = (h_done h ++ l)%list ∧ Forall (λ what, ∃ o, what = "audit " ++ o) l.
#[local] Instance same_but_audits_pre : PreOrder same_but_audits.
Proof.
  split.
  - intros h. split_and!; [done|done|]. exists []. by rewrite app_nil_r.
  - intros a b c (H1 & H2 & l & H3 & Hl) (H4 & H5 & l' & H6 & Hl'). split_and!; [congruence..|].
    exists (l ++ l')%list. rewrite H6, H3, (assoc_L app). split; [done|]. by apply Forall_app.
Defined.

(** A dry run writes an audit record and nothing else. *)
Lemma mutation_needs_bound_plan_witness :
  let '(w', res) := execute_update h_engine no_text "web" true true None None ex_host in
  (∃ a, res = Ok a ∧ ua_outcome a = "planned") ∧ h_stashes w' = ["mine"] ∧ h_done w' = ["audit planned"].
Proof.
  destruct (execute_update h_engine no_text "web" true true None None ex_host) as [w' res] eqn:E.
  destruct (mutation_needs_bound_plan h_engine no_text same_but_audits "web" true true None None ex_host w' res)
    as [(H1 & H2 & _)|[Hd _]].
  - intros w1 w2 r [= <- _]. reflexivity.
  - intros n d w1 w2 r E1. assert (w2 = w1) as ->; [|reflexivity].
    refine (reads_Ok _ _ _ _ _ E1). apply plan_update_reads. apply _.
  - intros a w1 w2 r [= <- _]. split_and!; [done|done|]. exists ["audit " ++ ua_outcome a]. split; [done|].
    constructor; [eauto|constructor].
  - exact E.
  - rewrite H1. vm_compute in E. injection E as <- <-. split; [by eexists|]. split; reflexivity.
  - discriminate Hd.
Defined.

(** ** A restarted unit *)

(** A host that logs its commands; its unit does not come up again. *)
Definition broken_unit (argv : list string) : M (list (list string)) SubprocessResult := λ d,
  ((d ++ [argv])%list,
   Ok {| sb_returncode := 0; sb_stdout_bounded := "LoadState=loaded
ActiveState=" ++ (if bool_decide (d = []) then "active" else "failed") ++ "
SubState=x
"; sb_stderr_bounded := ""; sb_timed_out := false |}).
Definition ex_unit : SystemdRestartPolicy :=
  {| sp_environment := "staging"; sp_target_id := "telemetry"; sp_unit_id := "telemetry";
     sp_canonical_unit_name := "aipm-telemetry.service"; sp_policy_version := "policy-v1" |}.
Definition ex_envelope : ExecutionEnvelope :=
  {| ee_protocol_version := ENVELOPE_VERSION; ee_action_id := "action-7"; ee_action_version := 1;
     ee_capability_id := "restart_allowlisted_systemd_unit"; ee_capability_version := "1";
     ee_target_id := "telemetry"; ee_environment := "staging"; ee_unit_name := "aipm-telemetry.service";
     ee_contract_digest := "c0ffee"; ee_fencing_token := 3; ee_lease_id := "lease-7";
     ee_issued_at := "2026-09-20T01:00:00+00:00"; ee_expires_at := "2026-09-20T01:05:00+00:00" |}.
Definition ex_restart_env (id : string) : executor_env :=
  {| xe_claim_db := DB_OK; xe_get_db := DB_OK; xe_complete_db := DB_OK; xe_reload_db := DB_OK;
     xe_receipt_id := id; xe_claimed_at := "t0"; xe_completed_at := "t1"; xe_now := None |}.
Definition ex_restart_clock : datetime := 739878 * us_per_day + seconds 3660.
Definition ex_quiet : executor_store (list (list string)) :=
  {| xs_receipts := ∅; xs_host := []; xs_dispatched := [] |}.
#[local] Notation ex_restart env := (execute_restart broken_unit [("telemetry", ex_unit)] "systemctl" ex_unit
                                       env ex_restart_clock ex_envelope).

(** The unit is observed failed after its restart, and the call reports success:
    nothing reads the verification. *)
Lemma failed_unit_reported_restarted :
  check_ExecutionEnvelope ex_envelope = Ok ex_envelope ∧
  new_SystemdRestartProvider [ex_unit] = Ok [("telemetry", ex_unit)] ∧
  ∃ w' x, ex_restart (ex_restart_env "r1") ex_quiet = (w', Ok x) ∧ sx_outcome x = "succeeded" ∧
    length (xs_host w') = 3%nat ∧
    (∃ snap, snd (observe_unit broken_unit "systemctl" ex_unit ex_restart_clock (xs_host w')) = Ok snap ∧
             us_active_state snap = "failed").
Proof. split; [vm_compute; reflexivity|]. split; [reflexivity|]. eexists _, _. split; [vm_compute; reflexivity|].
  split; [reflexivity|]. split; [reflexivity|]. eexists. split; [vm_compute; reflexivity|reflexivity]. Defined.

(** The same envelope a second time: no second restart. *)
Lemma restarts_happen_once_witness :
  ∃ w', (run_restarts broken_unit [("telemetry", ex_unit)] "systemctl" ex_unit
           [(ex_restart_env "r1", ex_restart_clock, ex_envelope); (ex_restart_env "r2", ex_restart_clock, ex_envelope)]
           ex_quiet).1 = w' ∧
    xs_dispatched w' = [("action-7", 3)] ∧ is_Some (xs_receipts w' !! ("action-7", 3)).
Proof.
  pose proof (restarts_happen_once broken_unit [("telemetry", ex_unit)] "systemctl" ex_unit
    [(ex_restart_env "r1", ex_restart_clock, ex_envelope); (ex_restart_env "r2", ex_restart_clock, ex_envelope)]
    ex_quiet) as (_ & new & Hd & _ & Hn).
  eexists. split; [reflexivity|]. assert (new = [("action-7", 3)]) as ->.
  { change (xs_dispatched ex_quiet) with (@nil (string * Z)) in Hd. rewrite app_nil_r in Hd. rewrite <- Hd.
    vm_compute. reflexivity. }
  split; [rewrite Hd; reflexivity|]. by apply (Hn ("action-7", 3) ltac:(by left)).
Defined.
