(* ===== verification/TransportWitnesses.v ===== *)
(** * TransportWitnesses: an update from login to the runtime, and over HTTP

    A concrete history of service calls, evaluated by the kernel: the owner logs
    in, approves the plan whose digest the port reports, and runs the approved
    update; running it again does not call the runtime.  The same update is then
    made by two requests to the transport, and the same request without its
    CSRF token is refused.  The theorems of the service and of the transport are
    applied to these values. *)

From S2P Require Import Prelude PyStr PyText PyDict PyTime Sha256 Json Models Lifecycle ProjectPlan Identity.
From S2P Require Import Policy Confirmation AuditLedger AuditBuilders KillSwitch Verification Rollback ActionRepo ActionSpec Capability.
From S2P Require Import Contract Gate Executor RollbackExec Session OwnerAuth ServicePlan ServiceState ServiceFlow ServiceRun ServiceBridge.
From S2P Require Import ServiceSafety ServiceProps ServiceDecisions RateLimit Transport TransportProps Scenario ExecWitnesses.
From Stdlib Require Import Ascii String ZArith Lia.
From stdpp Require Import base strings gmap list.

Local Open Scope string_scope.
Local Open Scope Z_scope.
Local Open Scope aipm_scope.

(** ** The service *)

Definition so_switch : KillSwitch :=
  {| ks_environment := STAGING; ks_state := DISENGAGED; ks_reason := "maintenance"; ks_created_at := t0;
     ks_updated_at := t0; ks_epoch := 2; ks_actor_subject := Some OWNER_SUBJECT |}.
Definition so_switches : kill_store := {| kst_records := [(STAGING, so_switch)]; kst_audit := None |}.
Definition so_start : service (list UpdateExecutionBinding * unit) :=
  {| sv_auth := {| au_failure_count := 0; au_cooldown_until := None; au_locked_until := None; au_auth_epoch := 1 |};
     sv_sessions := {| ss_sessions := ∅; ss_absolute_lifetime := hours 8; ss_inactivity_timeout := minutes 30;
                       ss_auth_epoch := 1 |};
     sv_repo := ex_repo0; sv_switches := Some so_switches; sv_evidence := []; sv_dry_runs := [];
     sv_world := ([], ()) |}.

(** A repository that remembers released leases. *)
Definition so_config (last : option (repo → string → option ExecutionLease)) : service_config :=
  {| cf_verify_secret := str_eqb "correct horse"; cf_max_failures := 5; cf_lockout_seconds := 300;
     cf_principal_lifetime := hours 1; cf_subject := OWNER_SUBJECT; cf_issuer := OWNER_ISSUER;
     cf_policy := ex_policy; cf_max_bindings := 256; cf_planner_targets := ["alpha"; "beta"];
     cf_switches_audited := false; cf_ipc_mode := false; cf_last_lease := last; cf_dry_run_sink := true |}.
Definition so_recorded : option (repo → string → option ExecutionLease) := Some (λ s id, dget id (rp_leases s)).

Definition so_digest : string := sha256_hex "the update plan".
Definition so_ports : ports unit :=
  {| pt_registrations := None; pt_verifier := None; pt_service_plan := None;
     pt_plan_digest := Some (λ _, Ok (Some so_digest)); pt_digest_plan_service := None; pt_ipc_client := None;
     pt_update_runtime := Some (λ _, retM (Some [("outcome", JStr "succeeded")])) |}.
Definition digit (n : nat) : ascii := ascii_of_nat (48 + n).
(** Thirty-two hexadecimal digits for the [i]-th draw of a call. *)
Definition so_text (call i : nat) : string :=
  "ab0000000000000000000000000" ++ String (digit (call / 10)) (String (digit (call mod 10))
    (String (digit (i / 100)) (String (digit (i / 10 mod 10)) (String (digit (i mod 10)) EmptyString)))).
Definition so_env (call : nat) : call_env :=
  {| cv_now := Some (t0 + seconds (Z.of_nat call)); cv_clock := λ i, t0 + seconds (Z.of_nat call);
     cv_random := so_text call |}.
Definition so_event (n : nat) (c : service_call) : service_event (E := unit) :=
  {| sx_ports := so_ports; sx_env := so_env n; sx_call := c |}.

Definition so_serve (last : option (repo → string → option ExecutionLease)) (n : nat) (c : service_call) :=
  serve_call ex_py (so_config last) (logged so_ports) (so_env n) c.
Definition so_login := Eval vm_compute in so_serve so_recorded 1 (SLogin "correct horse") so_start.
Definition so_session : string := so_text 1 2.
Definition so_approve : service_call := SApproveUpdate so_session "alpha" "staging" so_digest "key-9" None.
Definition so_approved := Eval vm_compute in so_serve so_recorded 2 so_approve (fst so_login).
Definition so_id := Eval vm_compute in default EmptyString (fst <$> head (rp_actions (sv_repo (fst so_approved)))).
Definition so_run : service_call := SRunUpdate so_session so_id.
Definition so_ran := Eval vm_compute in so_serve so_recorded 3 so_run (fst so_approved).
Definition so_again := Eval vm_compute in so_serve so_recorded 4 so_run (fst so_ran).
Definition so_events : list (service_event (E := unit)) :=
  [so_event 1 (SLogin "correct horse"); so_event 2 so_approve; so_event 3 so_run; so_event 4 so_run].

(** The update runs once, and not again. *)
Example so_runs_once :
  snd so_ran = Ok () ∧ snd so_again = Ok () ∧
  List.map ueb_action_id (updates (fst so_ran)) = [so_id] ∧ updates (fst so_again) = updates (fst so_ran) ∧
  List.map ueb_plan_digest (updates (fst so_ran)) = [so_digest] ∧
  (lc_state <$> get_action so_id (sv_repo (fst so_again))) = Some VERIFIED_SUCCESS.
Proof. vm_compute. by split_and!. Qed.

(** Over a repository without [last_lease] the lease is released before the
    binding is built: the execution is verified and the runtime never called. *)
Example so_no_last_lease :
  let r := so_serve None 3 so_run (fst so_approved) in
  snd r = Raise (ControlPlaneError UNAVAILABLE_EVIDENCE) ∧ updates (fst r) = [] ∧
  (lc_state <$> get_action so_id (sv_repo (fst r))) = Some VERIFIED_SUCCESS.
Proof. vm_compute. by split_and!. Qed.

(** ** Witnesses *)

Lemma ex_repo0_ok : repo_ok ex_repo0.
Proof. by apply (new_repo_ok 16 (Some ex_ledger) (Some ex_plans)). Qed.

Lemma updates_run_once_witness :
  let w' := serve_events ex_py (so_config so_recorded) (List.map log_event so_events) so_start in
  List.map ueb_action_id (updates w') = [so_id] ∧ NoDup (List.map ueb_action_id (updates w')).
Proof.
  split; [vm_compute; reflexivity|].
  apply (updates_run_once ex_py (so_config so_recorded) so_events so_start ex_repo0_ok eq_refl).
Defined.

Lemma no_session_no_effect_witness :
  ∃ e, serve_call ex_py (so_config so_recorded) (logged so_ports) (so_env 5) so_run so_start = (so_start, Raise e).
Proof.
  apply (no_session_no_effect ex_py (so_config so_recorded) (logged so_ports) (so_env 5) so_session so_start so_run);
    [reflexivity|vm_compute; reflexivity].
Defined.

Lemma update_runs_only_verified_witness :
  ∃ sid id before after b runtime w1, so_run = SRunUpdate sid id ∧
    get_action id (sv_repo (fst so_approved)) = Some before ∧ lc_state before ∉ replayed_states ∧
    get_action id (sv_repo w1) = Some after ∧ lc_state after = VERIFIED_SUCCESS ∧ binding_of (logged so_ports) w1 after b ∧
    pt_update_runtime (logged so_ports) = Some runtime ∧
    fst so_ran = with_world (fst (runtime b (sv_world w1))) w1 ∧ sv_world w1 = sv_world (fst so_approved).
Proof.
  apply (update_runs_only_verified ex_py (so_config so_recorded) (logged so_ports) (so_env 3) so_run
    (fst so_approved) (fst so_ran) (Ok ())); [vm_compute; reflexivity|discriminate].
Defined.

(** The authorization within the approval, asked for directly. *)
Definition so_request := Eval vm_compute in
  the (new_ActionRequest UPDATE_PROJECT_PLAN "alpha" "key-9"
         [("objective", "Old objective"); ("title", "Old title"); ("update_plan_digest", so_digest)] "staging").
Definition so_authorized := Eval vm_compute in
  authorize_request (so_config so_recorded) (logged so_ports) (so_env 2) so_session so_request [] None (fst so_login).
Definition so_decision := Eval vm_compute in the (snd so_authorized).

Lemma authorize_registers_witness :
  ad_allowed so_decision = true ∧
  ∃ session, live_session so_session (at_ (so_env 2) 0) session (fst so_login) ∧
    switch_allows "staging" (fst so_login) ∧
  let found := find_action_by_idempotency "alpha" "update_project_plan" "key-9" (sv_repo (fst so_login)) in
  (∃ a r0, found = Some a ∧ stored_request a (sv_repo (fst so_login)) = Some (so_decision, r0) ∧
     request_canonical r0 = request_canonical so_request ∧ same_books (fst so_login) (fst so_authorized)) ∨
  (found = None ∧ ∃ plan current,
     build_evidence_neutral_plan so_request (cv_clock (so_env 2) 2) ["alpha"; "beta"] = Ok plan ∧
     Policy.authorize ex_policy (Some (se_principal session)) so_request plan current (cv_now (so_env 2)) = Ok so_decision ∧
     if ad_allowed so_decision then ∃ a, registers so_decision so_request a (fst so_login) (fst so_authorized)
     else same_books (fst so_login) (fst so_authorized)).
Proof.
  split; [reflexivity|].
  apply (authorize_registers (so_config so_recorded) (logged so_ports) (so_env 2) so_session so_request [] None
    (fst so_login) (fst so_authorized) so_decision); [|vm_compute; reflexivity].
  assert (quiet so_start (fst so_login)) as [H _].
  { apply (serve_call_quiet ex_py (so_config so_recorded) (logged so_ports) (so_env 1) (SLogin "correct horse"))
      with (r := Ok ()); [done|vm_compute; reflexivity]. }
  apply H, ex_repo0_ok.
Defined.

Definition th_config : transport_config :=
  {| tx_secure_cookies := false; tx_session_ttl_seconds := 1800; tx_build := Raise OSError;
     tx_default_store := Raise SqliteError |}.
Definition th_app := Eval vm_compute in the (create_operator_app th_config "127.0.0.1" (fst so_login)).
Definition th_token : string := so_text 1 3.
Definition th_request (csrf : option string) (body : json) : http_request :=
  {| hr_cookie := Some so_session; hr_csrf := csrf; hr_body := Some body |}.
Definition th_approval : json := JObj [("idempotency_key", JStr "key-9"); ("update_plan_digest", JStr so_digest)].
Definition th_handle (n : nat) (rq : http_request) (e : endpoint) (w : transport (list UpdateExecutionBinding * unit)) :=
  handle ex_py (so_config so_recorded) th_config (logged so_ports) (so_env n) (Z.of_nat n) rq e w.
Definition th_approved := Eval vm_compute in
  th_handle 2 (th_request (Some th_token) th_approval) (PostApproval "alpha") th_app.
Definition th_id := Eval vm_compute in default EmptyString (fst <$> head (rp_actions (sv_repo (tp_service (fst th_approved))))).
Definition th_execute : http_request := th_request (Some th_token) (JObj [("action_id", JStr th_id)]).
Definition th_executed := Eval vm_compute in th_handle 3 th_execute (PostExecuteUpdate "alpha") (fst th_approved).

Example th_runs :
  is_ok (snd th_approved) = true ∧ is_ok (snd th_executed) = true ∧
  List.map ueb_project_name (updates (tp_service (fst th_executed))) = ["alpha"] ∧
  tp_update_execute (fst th_executed) = [(so_session, [3])].
Proof. vm_compute. by split_and!. Qed.

Example th_binds :
  List.map (λ b, is_ok (validate_bind_address b))
    ["127.0.0.1"; "127.1.2.255"; "0.0.0.0"; "::1"; "localhost"; "127.0.0.01"; "127.0.0.256"; "127.0.1"] =
  [true; true; false; false; false; false; false; false].
Proof. vm_compute. reflexivity. Qed.

(** Another project, another token, and too many attempts are refused. *)
Example th_refusals :
  snd (th_handle 3 th_execute (PostExecuteUpdate "beta") (fst th_approved)) = Raise (HTTPException 422 "invalid_request") ∧
  snd (th_handle 3 (th_request (Some "guess") th_approval) (PostApproval "alpha") th_app) =
    Raise (HTTPException 403 "csrf_failed") ∧
  snd (th_handle 3 {| hr_cookie := Some "gone"; hr_csrf := None; hr_body := None |} (PostApproval "alpha") th_app) =
    Raise (HTTPException 401 "unauthenticated") ∧
  snd (th_handle 3 (th_request (Some th_token) th_approval) (PostApproval "alpha")
    (with_limiter LimitUpdateApproval [(so_session, List.repeat 2 30)] th_app)) = Raise (HTTPException 429 "conflict").
Proof. vm_compute. by split_and!. Qed.

(** An idempotency key outside the identifier alphabet raises out of the
    handler, past [_run]. *)
Example th_unhandled :
  snd (th_handle 2 (th_request (Some th_token) (JObj [("idempotency_key", JStr "key 9"); ("fields", JObj [("title", JStr "T")])]))
         (PostAuthorize "alpha") th_app) = Raise (ControlPlaneError INVALID_REQUEST).
Proof. vm_compute. reflexivity. Qed.

Lemma request_effects_witness :
  (sessions_only (fst th_approved) (fst th_executed) ∨
   mutating (PostExecuteUpdate "alpha") = true ∧
   (PostExecuteUpdate "alpha" = PostLogin ∨ authentic (so_env 3) th_execute (fst th_approved))) ∧
  (mutating (PostExecuteUpdate "alpha") = true → PostExecuteUpdate "alpha" ≠ PostLogin → PostExecuteUpdate "alpha" ≠ PostLogout →
   authentic (so_env 3) th_execute (fst th_approved) ∨ refused_request (snd th_executed)).
Proof.
  apply (request_effects ex_py (so_config so_recorded) th_config (logged so_ports) (so_env 3) 3 th_execute
    (PostExecuteUpdate "alpha") (fst th_approved) (fst th_executed) (snd th_executed)).
  vm_compute. reflexivity.
Defined.

Lemma th_login_ok : repo_ok (sv_repo (fst so_login)).
Proof.
  assert (quiet so_start (fst so_login)) as [H _]; [|apply H, ex_repo0_ok].
  apply (serve_call_quiet ex_py (so_config so_recorded) (logged so_ports) (so_env 1) (SLogin "correct horse"))
    with (r := Ok ()); [done|vm_compute; reflexivity].
Qed.
Lemma th_approved_ok : repo_ok (sv_repo (tp_service (fst th_approved))).
Proof.
  assert (calm th_app (fst th_approved)) as [H _].
  { apply (handle_calm ex_py (so_config so_recorded) th_config (logged so_ports) (so_env 2) 2
      (th_request (Some th_token) th_approval) (PostApproval "alpha")) with (r := snd th_approved);
      [done|vm_compute; reflexivity]. }
  apply H, th_login_ok.
Qed.

Lemma update_route_witness :
  ∃ project id before s b runtime, PostExecuteUpdate "alpha" = PostExecuteUpdate project ∧
    authentic (so_env 3) th_execute (fst th_approved) ∧
    get_action id (sv_repo (tp_service (fst th_approved))) = Some before ∧ sc_target_id (lc_scope before) = project ∧
    lc_state before ∉ replayed_states ∧ ueb_action_id b = id ∧ ueb_project_name b = project ∧
    (lc_state <$> get_action id (sv_repo s)) = Some VERIFIED_SUCCESS ∧
    pt_update_runtime (logged so_ports) = Some runtime ∧
    tp_service (fst th_executed) = with_world (fst (runtime b (sv_world s))) s ∧
    sv_world s = sv_world (tp_service (fst th_approved)).
Proof.
  apply (update_route ex_py (so_config so_recorded) th_config (logged so_ports) (so_env 3) 3 th_execute
    (PostExecuteUpdate "alpha") (fst th_approved) (fst th_executed) (snd th_executed));
    [exact th_approved_ok|vm_compute; reflexivity|discriminate].
Defined.
