(* ===== verification/SqlWitnesses.v ===== *)
(** * SqlWitnesses: the durable stores on concrete databases

    The action of [Scenario.v] taken from registration to verified success
    through the durable repository, with its evidence in the durable ledger;
    the theorems of the storage layer applied to these databases; and the races
    that the stores lose. *)

From S2P Require Import Prelude PyStr PyDict PyTime Sha256 Json PyIso Models SqlTables Lifecycle ProjectPlan.
From S2P Require Import Identity Policy Confirmation AuditLedger AuditBuilders KillSwitch Verification SqlRows ActionRepo SqlStore.
From S2P Require Import SqlRefine SqlProps SqlLedger Contract SqlPlans SqlSwitches Session SqlSessions Registration Scenario.
From Stdlib Require Import Ascii String ZArith Lia.
From stdpp Require Import base strings gmap relations list.

Local Open Scope string_scope.
Local Open Scope Z_scope.
Local Open Scope aipm_scope.

(** A call nobody disturbs, at a time of the clock. *)
Definition undisturbed (t : datetime) : circumstances := {| cc_others := λ _ d, d; cc_locked := false; cc_clock := t |}.
(** A call during which [m] is committed before the transaction begins. *)
Definition overtaken {A} (m : M database A) (t : datetime) : circumstances :=
  {| cc_others := λ k d, match k with O => fst (m d) | _ => d end; cc_locked := false; cc_clock := t |}.

Definition run (q : sql_call) : M database unit := run_sql_call SqlLedger.append_row (undisturbed t0) q.
Definition ex_event (n : string) : AuditEventDraft :=
  draft n AuditEventType.LIFECYCLE_TRANSITION OWNER_SUBJECT REQUESTER t0.

Definition ex_db0 : database := set_rows [plan_row_of ex_current] empty_database.
Definition q_register : sql_call := QRegister ex_decision ex_action [ex_event "event-1"].
Definition ex_db1 := Eval vm_compute in fst (run q_register ex_db0).
Definition q_plan : sql_call := QAdvance ex_id 0 PLANNED "" (Some (t0 + seconds 1)) [ex_event "event-2"].
Definition ex_db2 := Eval vm_compute in fst (run q_plan ex_db1).
Definition later_calls : list sql_call :=
  [QAdvance ex_id 1 CONFIRMATION_REQUIRED "" (Some (t0 + seconds 2)) [];
   QPutConfirmation ex_binding;
   QRecordConfirmation ex_confirmed ex_id 2 CONFIRMED OWNER_SUBJECT (Some (t0 + seconds 4)) [];
   QCapture ex_snapshot ex_id 3 (Some (t0 + seconds 5)) [];
   QAcquire ex_id 4 (Some (t0 + seconds 6)) [] lease_id "event-3"].
Definition perform_sql (qs : list sql_call) (s : database) : database := fold_left (λ s q, fst (run q s)) qs s.
Definition ex_db3 := Eval vm_compute in perform_sql later_calls ex_db2.
Definition q_begin : sql_call := QBegin ex_id 5 (cb_confirmation_id ex_binding) (Some (t0 + seconds 7)) [ex_event "event-4"].
Definition ex_db4 := Eval vm_compute in fst (run q_begin ex_db3).
Definition q_execute : sql_call := QExecute ex_id 6 1 ex_fields (Some (t0 + seconds 8)) [ex_event "event-5"].
Definition ex_db5 := Eval vm_compute in fst (run q_execute ex_db4).
Definition ex_db6 := Eval vm_compute in
  fst (run (QVerify ex_id 7 ex_result (Some (t0 + seconds 10)) [ex_event "event-6"]) ex_db5).

Example durable_states :
  List.map (λ s, lc_state <$> stored ex_id s) [ex_db0; ex_db1; ex_db2; ex_db3; ex_db4; ex_db5; ex_db6] =
  [None; Some REQUESTED; Some PLANNED; Some LEASED; Some RUNNING; Some EXECUTED_PENDING_VERIFICATION;
   Some VERIFIED_SUCCESS].
Proof. vm_compute. reflexivity. Qed.
Example durable_evidence :
  ledger_ids ex_db6 = ["event-1"; "event-2"; "event-3"; "event-4"; "event-5"; "event-6"] ∧
  snd (SqlLedger.verify_chain ex_db6) = Ok {| cv_ok := true; cv_events_checked := 6; cv_error_sequence := None |} ∧
  (pp_title <$> plan_at "alpha" ex_db6) = Some "New title".
Proof. vm_compute. by split_and!. Qed.

(** ** The action repository *)

Notation sink := SqlLedger.append_row.

Lemma undisturbed_peers t : peers sink (undisturbed t).
Proof. intros k s. apply conn_done. Qed.

Lemma accepted_call_moves_witness :
  run_sql_call sink (undisturbed t0) q_plan ex_db1 = (ex_db2, Ok ()) ∧
  ∃ a a', stored ex_id ex_db1 = Some a ∧ lc_version a = 0 ∧ lifecycle_step a a' ∧ stored ex_id ex_db2 = Some a' ∧
    ledger_ids ex_db2 = ["event-1"; "event-2"].
Proof.
  assert (run_sql_call sink (undisturbed t0) q_plan ex_db1 = (ex_db2, Ok ())) as H by (vm_compute; reflexivity).
  split; [exact H|].
  apply (accepted_call_moves sink (undisturbed t0) q_plan ex_db1 ex_db2 ex_id 0); [|apply undisturbed_peers|reflexivity|exact H].
  split; apply (bool_decide_unpack _); vm_compute; exact I.
Defined.

Lemma interleavings_refine_lifecycle_witness :
  ∃ a', stored ex_id ex_db2 = Some a' ∧ advances ex_action a'.
Proof.
  destruct (interleavings_refine_lifecycle sink ex_db1 ex_db2) as (_ & H & _).
  - eapply (conn_call sink (undisturbed t0) q_plan); [apply undisturbed_peers|vm_compute; reflexivity|apply conn_done].
  - split; apply (bool_decide_unpack _); vm_compute; exact I.
  - apply H. vm_compute. reflexivity.
Defined.




Lemma ex_registrable : registrable ex_decision ex_action ex_identity ex_request.
Proof.
  split; repeat split; try (vm_compute; reflexivity); try (by vm_compute).
Qed.

Lemma registration_reads_back_witness :
  SqlStore.get_action ex_id ex_db1 = (ex_db1, Ok (Some ex_action)) ∧
  SqlStore.get_decision (ad_decision_id ex_decision) ex_db1 = (ex_db1, Ok (Some ex_decision)) ∧
  SqlStore.find_action_by_idempotency "alpha" "update_project_plan" "key-1" ex_db1 = (ex_db1, Ok (Some ex_action)).
Proof.
  assert (SqlStore.register_action sink (undisturbed t0) ex_decision ex_action [ex_event "event-1"] ex_db0 = (ex_db1, Ok ()))
    as H by (vm_compute; reflexivity).
  exact (registration_reads_back sink (undisturbed t0) ex_decision ex_action ex_identity ex_request [ex_event "event-1"]
    ex_db0 ex_db1 ex_registrable H eq_refl).
Defined.

(** ** The ledger *)

Definition ex_drafts : list AuditEventDraft := [ex_event "a"; ex_event "b"; ex_event "a"].
Definition ex_ledger3 := Eval vm_compute in the (new_InMemoryAuditLedger 3).

Lemma durable_ledger_refines_witness :
  List.map gr_event_id (db_ledger (sql_append_all ex_drafts empty_database)) = ["a"; "b"] ∧
  snd (SqlLedger.verify_chain (sql_append_all ex_drafts empty_database)) =
    AuditLedger.verify_chain (append_all ex_drafts ex_ledger3).
Proof.
  assert (Forall draft_ok ex_drafts) as Hd.
  { repeat constructor; vm_compute; try reflexivity; discriminate. }
  destruct (durable_ledger_refines 3 ex_drafts empty_database ex_ledger3) as (Hr & Hv & _);
    [reflexivity|vm_compute; discriminate|reflexivity|exact Hd|].
  split; [rewrite Hr; vm_compute; reflexivity|exact Hv].
Defined.

(** ** Plans *)

Lemma undisturbed_plans t k s : plan_histories sink s (cc_others (undisturbed t) k s).
Proof. apply ph_done. Qed.

Lemma plans_follow_updates_witness :
  ∃ p', plan_at "alpha" ex_db5 = Some p' ∧ rtc plan_advances ex_current p' ∧ pp_digest p' = pp_canonical_digest p'.
Proof.
  apply (plans_follow_updates sink ex_db4 ex_db5 "alpha" ex_current).
  - apply (ph_call sink (undisturbed t0) (PRepository q_execute) ex_db4 ex_db5 (Ok ()));
      [apply undisturbed_plans|vm_compute; split; [discriminate|reflexivity]|vm_compute; reflexivity|apply ph_done].
  - apply (bool_decide_unpack _). vm_compute. exact I.
  - vm_compute. reflexivity.
Defined.

(** An update whose plan is read while the executor rewrites it. *)
Definition ex_db5_updated := Eval vm_compute in SqlPlans.update (undisturbed t0) "alpha" 2 ex_fields (t0 + seconds 20) ex_db5.
Definition ex_updated_twice := Eval vm_compute in the (snd ex_db5_updated).
Lemma durable_update_not_lost_witness :
  SqlPlans.update (undisturbed t0) "alpha" 2 ex_fields (t0 + seconds 20) ex_db5 = (fst ex_db5_updated, Ok ex_updated_twice) ∧
  ∃ p, plan_at "alpha" ex_db5 = Some p ∧ pp_revision p = 2 ∧
    pp_update p 2 ex_fields (t0 + seconds 20) = Ok ex_updated_twice ∧
    plan_at "alpha" (fst ex_db5_updated) = Some ex_updated_twice.
Proof.
  assert (SqlPlans.update (undisturbed t0) "alpha" 2 ex_fields (t0 + seconds 20) ex_db5 =
    (fst ex_db5_updated, Ok ex_updated_twice)) as H by (vm_compute; reflexivity).
  split; [exact H|].
  apply (durable_update_not_lost sink (undisturbed t0) "alpha" 2 ex_fields (t0 + seconds 20) ex_db5 (fst ex_db5_updated) ex_updated_twice);
    [|apply undisturbed_plans|vm_compute; eexists; reflexivity|vm_compute; split; [discriminate|reflexivity]|exact H].
  apply (bool_decide_unpack _). vm_compute. exact I.
Defined.

(** A target known by a staging registration gets its own plan between the read
    and the transaction of an update: the update is accepted, and leaves a plan
    no read accepts. *)
Definition ex_registration : ProjectRegistration :=
  {| rg_registration_id := "reg-1"; rg_target_id := "alpha"; rg_environment := "staging"; rg_status := REGISTERED;
     rg_canonical_project_path := "/home/ubuntu/alpha"; rg_runtime_mode := "compose";
     rg_registration_digest := sha256_hex "alpha"; rg_registration_version := "mc616-reg-v1";
     rg_registered_by := OWNER_SUBJECT; rg_registered_at := t0; rg_compose_project_name := Some "alpha";
     rg_approved_by := None; rg_approved_at := None; rg_revoked_by := None; rg_revoked_at := None;
     rg_revocation_reason := None; rg_updated_at := None |}.
Definition ex_unplanned := Eval vm_compute in
  fst (Registration.save sink (undisturbed t0) "event-r1" ex_registration empty_database).
Lemma fallback_update_spoils_plan :
  let c := overtaken (SqlPlans.create (undisturbed t0) ex_current) t0 in
  let '(s, r) := SqlPlans.update c "alpha" 1 ex_fields (t0 + seconds 20) ex_unplanned in
  is_ok r = true ∧ snd (SqlPlans.read (undisturbed t0) "alpha" s) = Raise corrupt.
Proof. vm_compute. by split. Qed.

(** ** Kill switches *)

Definition ex_seeded := Eval vm_compute in fst (seed_kill_switch_defaults t0 empty_database).
Definition ex_switch_dict := Eval vm_compute in
  [(STAGING, the (default_switch STAGING t0)); (PRODUCTION, the (default_switch PRODUCTION t0))].
Definition locked (t : datetime) : circumstances := {| cc_others := λ _ d, d; cc_locked := true; cc_clock := t |}.
Definition ex_switch_calls : list (circumstances * switch_call) :=
  [(undisturbed t0, SDisengage STAGING "release" None (Some OWNER_SUBJECT) "event-k1" (t0 + seconds 1));
   (locked t0, SEngage STAGING "stop" None (Some OWNER_SUBJECT) "event-k2" (t0 + seconds 2));
   (undisturbed t0, SEngage STAGING "stop" None (Some OWNER_SUBJECT) "event-k3" (t0 + seconds 3))].
Definition ex_switched_db := Eval vm_compute in run_durable_switches sink true ex_switch_calls ex_seeded.

Lemma durable_switches_refine_witness :
  ∃ m', run_switch_calls false (committed ex_switch_calls (snd ex_switched_db)) (plain ex_switch_dict) =
      (plain m', List.filter is_ok (snd ex_switched_db)) ∧
    List.map is_ok (snd ex_switched_db) = [true; false; true] ∧ record_for STAGING (fst ex_switched_db) =
      (fst ex_switched_db, Ok (dget STAGING m')).
Proof.
  destruct (durable_switches_refine sink true ex_switch_calls ex_switch_dict ex_seeded (fst ex_switched_db) (snd ex_switched_db))
    as (m' & Hr & Hh).
  - split; [intros []; vm_compute; reflexivity|]. intros [] k; vm_compute; intros [= <-]; reflexivity.
  - split; [reflexivity|]. intros []; eexists; (split; [vm_compute; reflexivity|]);
      (split; [reflexivity|]); (split; [vm_compute; reflexivity|]); vm_compute; split; congruence.
  - repeat constructor; vm_compute; try reflexivity; discriminate.
  - vm_compute. reflexivity.
  - exists m'. split; [exact Hr|]. split; [vm_compute; reflexivity|]. apply Hh.
Defined.

(** An engagement committed between the read and the write of a disengagement
    is lost, and the two changes carry the same epoch. *)
Definition ex_open := Eval vm_compute in
  fst (run_durable_switches sink true (take 1 ex_switch_calls) ex_seeded).
Definition stop_all : M database KillSwitch :=
  durable_change sink true (undisturbed t0) ENGAGED STAGING "stop" None (Some OWNER_SUBJECT) "event-k2" (t0 + seconds 2).
Lemma engagement_lost :
  let '(s, r) := durable_change sink true (overtaken stop_all t0) DISENGAGED STAGING "again" None (Some OWNER_SUBJECT)
                   "event-k4" (t0 + seconds 3) ex_open in
  is_ok (snd (stop_all ex_open)) = true ∧ is_ok r = true ∧
  match snd (record_for STAGING s), snd (stop_all ex_open) with
  | Ok (Some k), Ok k' => permits_operations k = true ∧ ks_state k' = ENGAGED ∧ ks_epoch k = ks_epoch k'
  | _, _ => False
  end.
Proof. vm_compute. by split_and!. Qed.

(** ** Registrations *)

Definition ex_registered_db := Eval vm_compute in
  fst (run_registration_call sink (undisturbed t0) (GSave "event-r1" ex_registration) empty_database).
Definition ex_disabled_db := Eval vm_compute in
  fst (run_registration_call sink (undisturbed t0)
         (GUpdate "event-r2" "alpha" "staging" REG_DISABLED OWNER_SUBJECT None) ex_registered_db).

Lemma registrations_sound_witness :
  (∃ r', r' ∈ db_registrations ex_disabled_db ∧ declared r' = declared (registration_row_of ex_registration)) ∧
  List.map gn_status (db_registrations ex_disabled_db) = ["DISABLED"].
Proof.
  destruct (registrations_sound sink ex_registered_db ex_disabled_db) as [H _].
  - apply (gh_call sink (undisturbed t0) (GUpdate "event-r2" "alpha" "staging" REG_DISABLED OWNER_SUBJECT None)
      ex_registered_db ex_disabled_db (Ok ())); [intros k s; apply gh_done|vm_compute; reflexivity|apply gh_done].
  - split; [apply (bool_decide_unpack _); vm_compute; exact I|vm_compute; reflexivity].
  - split; [|vm_compute; reflexivity]. apply H. vm_compute. left.
Defined.

Definition ex_host : host :=
  {| ho_resolve p := if str_eqb p "alpha" then Ok "/home/ubuntu/alpha" else Raise OSError; ho_is_dir _ := true;
     ho_owner_stat _ := Ok {| st_uid := 1000; st_gid := 1000; st_mode := 16877 |};
     ho_mode_stat _ := Ok {| st_uid := 1000; st_gid := 1000; st_mode := 16877 |}; ho_uid := 1000; ho_gid := 1000;
     ho_compose_files p := [p ++ "/docker-compose.yml"]; ho_hash p := Ok (sha256_hex p);
     ho_identity := Some (λ name _ _, Some name) |}.
Definition ex_created := Eval vm_compute in
  the (create_registration ex_host "alpha" "alpha" "production" "compose" OWNER_SUBJECT t0 "reg-2").

Lemma created_registration_contained_witness : ∃ r v, ex_created = (Some r, v) ∧
  rg_canonical_project_path r = "/home/ubuntu/alpha" ∧
  ∃ hashes, rmap (ho_hash ex_host) ["/home/ubuntu/alpha/docker-compose.yml"] = Ok hashes ∧
    verify_registration_digest r (Some hashes) = true.
Proof.
  destruct ex_created as [[r|] v] eqn:E; [|discriminate E]. exists r, v. split; [reflexivity|].
  assert (create_registration ex_host "alpha" "alpha" "production" "compose" OWNER_SUBJECT t0 "reg-2" = Ok (Some r, v)) as H
    by (transitivity (Ok ex_created); [vm_compute; reflexivity|by rewrite E]).
  destruct (created_registration_contained _ _ _ _ _ _ _ _ _ _ H) as (_ & _ & _ & Hp & _ & _ & _ & _ & files & hashes & <- & _ & Hh & Hv).
  assert (rg_canonical_project_path r = "/home/ubuntu/alpha") as Hr by
    (assert (Ok "/home/ubuntu/alpha" = Ok (rg_canonical_project_path r)) by exact Hp; congruence).
  rewrite Hr in Hh. split; [exact Hr|]. exists hashes. split; [exact Hh|exact Hv].
Defined.

(** A registration revoked between the read and the write of another status
    change comes back. *)
Lemma revocation_undone :
  let revoke := Registration.update_status sink (undisturbed t0) "event-r3" "alpha" "staging" REVOKED OWNER_SUBJECT None in
  let '(s, r) := Registration.update_status sink (overtaken revoke t0) "event-r4" "alpha" "staging" REG_DISABLED
                   OWNER_SUBJECT None ex_registered_db in
  is_ok (snd (revoke ex_registered_db)) = true ∧ is_ok r = true ∧
  List.map (λ x, (gn_status x, gn_revoked_by x)) (db_registrations s) = [("DISABLED", None)].
Proof. vm_compute. by split_and!. Qed.
(** A stored status outside the enumeration reads as an active registration. *)
Lemma unknown_status_active r x : gn_status r ≠ "REGISTERED" → gn_status r ≠ "DISABLED" → gn_status r ≠ "REVOKED" →
  registration_from_row r = Ok x → is_active x = true.
Proof.
  intros H1 H2 H3. unfold registration_from_row. rewrite or_corrupt_Ok. intros H. inv_ok. unfold is_active. cbn [rg_status].
  unfold status_from_text, value, RegistrationStatus_value. cbn. unfold str_eqb.
  rewrite (bool_decide_false ("REGISTERED" = _)), (bool_decide_false ("DISABLED" = _)),
    (bool_decide_false ("REVOKED" = _)) by congruence. done.
Qed.

(** ** Sessions *)

Definition ex_durable := Eval vm_compute in the (new_DurableSessionStore None None 1).
Definition ex_session_db := Eval vm_compute in
  fst (run_durable_call (undisturbed t0) ex_durable (DCreate "token-1" "seed-1" ex_owner None) empty_database).
Definition ex_looked := Eval vm_compute in
  SqlSessions.get (undisturbed (t0 + minutes 5)) ex_durable "token-1" None ex_session_db.
Definition ex_revoked_db := Eval vm_compute in
  fst (run_durable_call (undisturbed (t0 + minutes 6)) ex_durable (DRevoke "token-1" None) ex_session_db).

Lemma undisturbed_sessions a t k s : session_histories a s (cc_others (undisturbed t) k s).
Proof. apply sn_done. Qed.
Lemma ex_session_history : session_histories (minutes 30) empty_database ex_session_db.
Proof.
  eapply (sn_call _ (undisturbed t0) ex_durable (DCreate "token-1" "seed-1" ex_owner None));
    [apply undisturbed_sessions|reflexivity| |vm_compute; reflexivity|apply sn_done].
  split; vm_compute; (split; [discriminate|reflexivity]).
Qed.

Definition ex_found := Eval vm_compute in the (snd ex_looked).
Lemma durable_session_lookup_sound_witness :
  ∃ x created, ex_found = Some x ∧ se_created_at x = created ∧ t0 + minutes 5 < created + minutes 30 ∧
    se_auth_epoch x = 1.
Proof.
  destruct ex_found as [x|] eqn:E; [|discriminate E].
  assert (SqlSessions.get (undisturbed (t0 + minutes 5)) ex_durable "token-1" None ex_session_db = (fst ex_looked, Ok (Some x))) as H
    by (rewrite <- E; vm_compute; reflexivity).
  destruct (durable_session_lookup_sound (minutes 30) empty_database ex_session_db _ ex_durable "token-1" None (fst ex_looked) x
    ex_session_history eq_refl H) as (r & created & _ & _ & _ & Hc & Hl & _ & He & _).
  exists x, created. split; [reflexivity|]. split; [exact Hc|]. split; [exact Hl|exact He].
Defined.

Lemma ended_session_stays_dead_witness :
  SqlSessions.get (undisturbed (t0 + minutes 7)) ex_durable "token-1" None ex_revoked_db = (ex_revoked_db, Ok None).
Proof.
  apply (ended_session_stays_dead (minutes 30) empty_database ex_session_db (undisturbed (t0 + minutes 6)) ex_durable
    (DRevoke "token-1" None) None "token-1" ex_revoked_db ex_revoked_db).
  - exact ex_session_history.
  - reflexivity.
  - apply undisturbed_sessions.
  - reflexivity.
  - exact I.
  - eexists. split; [left|reflexivity].
  - vm_compute. reflexivity.
  - split; reflexivity.
  - apply sn_done.
Defined.

(** Twenty-nine minutes after its last use, past the stored deadline, the
    session is still answered. *)
Lemma inactivity_not_enforced :
  ∃ x, snd (SqlSessions.get (undisturbed (t0 + minutes 29)) ex_durable "token-1" None ex_session_db) = Ok (Some x).
Proof. eexists. vm_compute. reflexivity. Qed.
